(* ===== verification/_CoqProject ===== *)
-Q . S2P
Prelude.v
GoStd.v
GoStrings.v
GoTime.v
GoUrl.v
Network.v
Derror.v
Utls.v
UtlsTime.v
UtlsText.v
Files.v
Stat.v
Pc.v
PcReport.v
OrderedMap.v
UnsafeIter.v
StaleMap.v
Encoding.v
Gl.v
DlogFormat.v
Dlog.v
DlogWrapper.v
DlogConsole.v
ChanLog.v
GdLog.v
GrpcLog.v
FileLog.v
DlogConfig.v
RpcServer.v
RpcClient.v
ClientStop.v
ClientDial.v
ClientTimer.v
ServerStop.v
RpcEndToEnd.v
Gr.v
GrClose.v
Redis.v
RedisStart.v
RedisPool.v
RedisBatch.v
Inject.v
MysqlSql.v
MysqlDb.v
MysqlClient.v
MysqlInit.v
Mongo.v
DhttpServer.v
DhttpClient.v
DhttpCopy.v
Discovery.v
Register.v
Dgrpc.v
Helper.v
Profiles.v
RuntimeStats.v
Engine.v
Clients.v
