(* ===== verification/Prelude.v ===== *)
(** * Verification of the gd (godog) framework

    gd is a Go framework for network services.  This library models its own core
    logic as executable Rocq definitions, translated from the files under [src/],
    and proves what makes them correct, or where they are not, exactly what they
    do.  A comment of the form [path:first-last] above a definition gives the lines
    it translates.

    ** The program and its parts

    A service registers handlers with an RPC server ([net/dogrpc]).  A client takes
    a connection from a table, numbers a request, queues it, and waits on the
    channel of an [AsyncResult]; a writer goroutine encodes queued requests and
    files them in a table of pending requests; a reader goroutine decodes responses
    and completes the pending entry with the same sequence number.  The server
    decodes requests, runs each through the filter chain and its handler in a
    bounded number of worker goroutines and writes the replies.  Filters keep
    per-goroutine data in [runtime/gl], which [dlog] puts into the records it hands
    to the writers of a logger's filters.  Errors are the shared coded errors of
    [derror].  Services are put together by [runtime/inject], which makes, wires,
    starts and closes objects kept in an ordered map, and observed by
    [runtime/stat] (durations of calls, written to a file) and [runtime/pc]
    (counters, sent as reports).  [databases/redisdb] and [databases/mysqldb] are
    clients of databases that add retries, failover, statements built from Go
    structs and transactions to a library.  [net/dhttp] is an HTTP client that
    builds and retries requests, and a server that calls handlers by reflection
    between filters; [net/dgrpc] makes clients and servers of the gRPC library with
    chains of interceptors; [databases/mongodb] is a client of MongoDB; [service]
    registers servers in etcd or ZooKeeper and keeps the lists of those registered.
    The engine ([godog.go]) reads the configuration, sets up the log, starts what the
    program has registered and waits for a signal; [runtime/helper] is a server for
    an operator.  [utls], [utls/orderedmap] and [runtime/gr] are the helpers other
    parts build on.

    ** Files

    - [Prelude]: this file.  The monad [M S A] of a program over a state [S] that
      returns or panics, its notation, [triple] (a Hoare triple that also says that
      there is no panic), machine integers ([u32], [i64]), labelled step relations
      ([steps]) and generic lemmas.
    - [GoStd], [GoStrings], [GoTime], [GoUrl]: the functions of Go's standard
      library that the code calls, as executable functions (integer parsing,
      base64, CRC-32, big-endian integers; [strings]; durations, dates and clocks;
      query strings and header names), and the order a map is ranged over.
    - [Network]: [utls/network], the address a request comes from.
    - [Derror]: [derror/error.go].  Errors are cells of a store, because [SetMsg]
      writes through a pointer that others hold.
    - [Utls]: [convert_util.go], [slice_util.go], [settings_utils.go] and parts of
      [utls.go] of [utls].  [UtlsTime]: [time.go], with the calendar.  [UtlsText]:
      [str.go] and the texts of [utls.go].  [Files]: [filepath.go], [dump_panic.go]
      and the file functions of [utls.go], over a file system of directories,
      symbolic links and files with several names.
    - [Stat]: [runtime/stat].  The manager's table by command and result, its text
      and the rotation of its file; channel and goroutine are a step relation.
    - [Pc]: [runtime/pc].  Counters are cells, because the updater's are shared with
      the user; callers and the report are interleaved down to single reads.
      [PcReport]: the sending of a report.
    - [OrderedMap], [UnsafeIter], [StaleMap]: [utls/orderedmap], with the linked list
      on a heap of nodes; [UnsafeIter] is the iteration over a channel, [StaleMap]
      what a second [Delete] of a key leads to.
    - [Encoding]: [net/dogrpc/encoding.go], both packet formats.
    - [Gl]: [runtime/gl].  The goroutine's id is an argument.  [StrStore] is the
      interface of the sharded map to the package's functions: its laws are proved
      of the shards and the functions are verified against the laws.
    - [DlogFormat]: [dlog/pattlog.go] and the levels.  [Dlog]: [dlog/log4go.go], the
      methods of a logger against the interface [LogWriter] and its laws [Inbox].
      [DlogWrapper]: [dlog/wrapper.go], over [Dlog] and [Gl].  [DlogConsole]:
      [dlog/termlog.go], an instance of both interfaces.  [ChanLog]:
      [dlog/socklog.go] and [FormatLogWriter], whose goroutine is a step relation.
      [FileLog]: [dlog/filelog.go], with the files as a map.  [DlogConfig]:
      [dlog/config.go].  [GdLog]: [log.go], the functions of the package over those
      of [dlog].  [GrpcLog]: [net/dgrpc/log.go], the logger the gRPC library gets.
    - [RpcServer]: [server.go], [rpc_server.go], [dog_server.go], [filter.go],
      [gl_filter.go], [log_filter.go] and [wrap.go] of [net/dogrpc].  A filter is a
      node of a mutable chain; the goroutines of a server's connections are the
      relation [step], whose labels are requests read, served, answered or given up.
    - [RpcClient]: [client.go], [rpc_client.go] and [dog_client.go].  The state [CS]
      of a connection holds the results by address, the pool they are recycled
      through, the queue and the pending table; the calls of any number of
      goroutines are interleaved as a list of labels.  The writer's turn is three
      steps, because it encodes a request without the lock it filed it under.
    - [ClientStop]: [Client.Stop] and [clientHandler], whose goroutines meet on a
      channel, a lock and a wait group, as a step relation.  [ClientDial]: the loop
      that dials.  [ClientTimer]: the pool of timers that calls share; a timer fires
      and sends its tick in two steps.
    - [ServerStop]: [Server.Start], [Serve] and [Stop], the accept loop and the
      goroutines of its connections with their channels and wait groups, and the
      transports, as a step relation on whole servers.  [timely_step] adds what the
      caller has to see to, that [Stop] is called only once [Start] has returned.
    - [RpcEndToEnd]: client, codecs, dispatcher and handler composed.
    - [Gr]: [runtime/gr].  All pools of a program together, as a step relation.
      [GrClose]: the close of a pool, one channel operation of a goroutine at a time.
    - [Redis]: [databases/redisdb/cluster.go].  A command is a typed value, and the
      library with the server behind it a function from commands to replies.
      [RedisStart]: its configuration, start and close.  [RedisPool], [RedisBatch]:
      [pool.go]; the goroutines of a batch are a step relation.
    - [Inject]: [runtime/inject].  Types and values are those that reflection shows:
      named structs with tagged fields, pointers to them, and the rest.
    - [MysqlSql], [MysqlDb], [MysqlClient], [MysqlInit]: [utils.go], [dbwrap.go],
      [db.go] and [init.go] of [databases/mysqldb].  [Driver] is the interface of
      [database/sql]; the instance [demo] is a small database for the witnesses.
    - [Mongo]: [databases/mongodb].  The driver is a parameter.
    - [DhttpServer]: [server.go], [wrap.go] and [filter.go] of [net/dhttp].  A filter
      is a function of what comes next; gin is a record of the calls made of it, and
      of the status it has sent, which a failed [Bind] does by itself.
      [DhttpClient]: [net/dhttp/client.go].  The objects clones share are in a
      store; every exchange with the network is kept in a list; the order of every
      loop over a map and the boundary of every multipart body are drawn anew.  [DhttpCopy]: the
      copying functions of [Clone], on a store of arrays and maps.
    - [Dgrpc]: [net/dgrpc].  An interceptor is a function of the call it wraps; the
      chains are made of the options as the code makes them, on the state of a
      process with its goroutine-local data, counters and log.
    - [Discovery], [Register]: [service].  A watcher is a function of the events it is
      fed; the stores are interfaces, [EtcdLaws] and [ZkTree] their laws.
    - [Helper]: [runtime/helper/helper.go], a session as a function of what the
      client sends.  [Profiles]: the files it writes, on the file system of [Files].
      [RuntimeStats]: [runtime_stats.go] and [HumanSize].
    - [Engine]: [godog.go], [signal.go], [config.go] and [config/config.go]; the life
      of an engine is a step relation.  [Clients]: the clients the package makes.

    ** What the theorems show

    - The wire.  Both formats survive a connection ([rpc_stream_roundtrip],
      [dog_stream_roundtrip]), and the checked decoder accepts exactly the encodings
      of consistent packets ([DogDecode_exact]).
    - The server.  In every interleaving each request is answered or given up at
      most once, under its own sequence number, within the bounds on workers and
      queues ([responses_match_requests]); a server that is not stopped answers all
      ([server_answers_all]).  When [Stop] returns every goroutine has ended
      ([Stop_waits]), and it does return ([Stop_returns]).  Dispatch, filters,
      registration and the wrapper of typed handlers are characterised on every
      branch.
    - The client.  In every interleaving no channel is closed twice and a response
      reaches the call with its number ([client_calls_match], [reader_delivers]),
      though the writer may encode a result that was recycled meanwhile
      ([writer_encodes_recycled]); a call returns ([CallTimeout_returns]), and its
      timer is nobody else's and has no tick of an earlier call, unless it was put
      back between firing and sending ([timers_fresh], [stale_tick]); a connection
      that cannot be made is given up when the client stops ([handler_gives_up]).  Together: what [Invoke] returns is what the handler
      returned ([invoke_end_to_end], [dog_invoke_end_to_end]).
    - Logging.  Enabled filters, and only those, receive a record, once
      ([enabled_filters_receive]); it carries the request of the calling goroutine
      ([records_carry_request]); its text is the rendering of its format
      ([lines_rendered]); in every interleaving the records are in the files, in
      order, each once, no file is overwritten and the bounds hold
      ([records_on_disk]); a configuration loads to its enabled filters
      ([configuration_loads]); lines of the package name the caller
      ([lines_show_caller]), those of the gRPC library keep their severity
      ([severity_matches]); a channel writer hands its records on in order
      ([taken_in_order]).
    - Objects.  Registration fails or fills every tagged field before the object is
      started, whatever a start does to its own fields ([Register_fills]);
      dependencies are started first ([dependencies_first]) and the newest objects
      are closed first, each once ([Close_newest_first]).
    - Counters.  No increment is lost or counted twice ([increments_conserved]), a
      report holds what it read ([reports_complete]); the table of calls is the
      summary of the calls ([stat_refines], [dump_reports_all]) and its file is
      kept in ten generations ([rotation_keeps_ten]).
    - SQL.  An escaped literal is read back by the server as the text it was
      ([escaped_literal_roundtrip]); a condition is what the calls that build it
      ask for ([conditions_follow_calls]); a statement has as many arguments as places
      ([statements_placeholders]); a transaction ends once ([transaction_ends_once]);
      queries ask at most two handles ([queryList_two_handles]); an upsert that
      reports no error has stored the row, whichever of its statements fail
      ([upsert_stores]).
    - Data structures.  The ordered map refines an association list as long as no
      key is deleted twice ([history_refines]); goroutine-local data behaves as a
      private map per goroutine ([goroutines_isolated]) and can be handed over
      ([transfer_copies]); pools keep their bounds and drain ([pool_bounded],
      [pool_drains], [config_pools_share]), and closing one waits for what runs
      ([Close_waits]); slices and encodings round-trip, and so do seconds and their
      dates ([local_date_roundtrip]).
    - Files.  Copying never loses data, whatever fails and whichever links there are
      ([CopyFile_safe]); listing ends on every file system and lists what it should
      ([ListDir_lists]); what is stored is loaded ([Store2File_load]).
    - Redis.  The contracts of [Get], [MGet] and [Eval], and the failures that the
      methods do not count.  A command asks different servers until one answers or
      its attempts are used up ([Do_asks_servers]); a turn of a batch ends in every
      interleaving with one reply for each request ([batch_turn_answers]), and a
      batch answers each request ([BatchDo_answers]).  What a cluster starts with is
      [cluster_Start].
    - MongoDB.  Each operation is asked once of the client's database and its error is
      reported ([operation_reported]); the connection string is right for at most
      one option ([options_run_together]); what a start does is [Start_connects].
    - gRPC.  A request through the default chain is answered and leaves the goroutine
      and its counters as they should be ([request_served]); a call is made with the
      deadline and the trace id it should have ([call_made]).
    - HTTP.  A request through the filters is answered once, with the status of the
      answer unless binding has failed, and reported with it ([request_answered]).
      The client sends its request again, the same up to its token, its boundary and
      the order of its fields, as long as its policy asks for it and no longer
      ([EndBytes_retries]); queries arrive byte for byte ([query_arrives]), forms
      with their values reversed ([form_resent_reversed]).  The copies that a clone
      gets share nothing with the original ([copies_are_apart],
      [cloneMapArray_apart]).
    - The engine and the helper.  An engine sets up the log that its configuration
      says ([initLog_levels]) and never stops ([Run_never_returns]); a session of the
      helper runs the commands that were typed, up to one that panics
      ([session_runs_commands]).
    - Services.  A start of a registration writes the node up to three times under
      the lease it then keeps alive, and reports success even if no write succeeds
      ([Start_registers]); closing takes a stored node away ([Close_unregisters]);
      closing a discovery stops every watcher once ([Close_stops_all]); a watcher
      adds the nodes that are put, up to a deletion after a value that does not
      decode, and removes none ([etcd_only_adds], [gone_but_listed]).
    - Flaws.  Where the code does not do what it means to, a theorem states what it
      does: [stop_crashes], [stop_in_flight_panics], [cleanup_never_helps],
      [codec_mixed_up], [dog_timeout_scaled], [timeout_errors_shared],
      [callHandler_panic_escapes], [dog_panic_reply_rejected], [nil_body_rejected],
      [RpcDecode_short_length], [wrap_undecodable], [second_Use_ignored],
      [double_delete_loses_iteration], [second_versions_do_nothing],
      [failures_not_counted], [panicking_transaction_commits],
      [common_config_never_connects], [slaves_never_read],
      [handles_share_address_list], [dm_rewrite_loses], [cyclic_types_overflow],
      [end_blocks_without_file], [close_drops_queue], [SetLevel_8],
      [rotation_off_grows], [restart_misdates], [root_directory_fails],
      [dead_socket_reload], [Do_asks_servers], [empty_addr_starts],
      [other_methods_are_DELETE], [no_result_panics], [value_parameter_blind],
      [clone_shares_client], [etcd_only_adds], [zk_change_breaks],
      [zk_change_kills], [nil_node_panics], [heartbeat_in_nanoseconds],
      [second_environment_fails], [Close_kills_waiting], [stop_loses_dialled],
      [missing_level_panics], [tls_dial_error_lost], [empty_ca_accepted],
      [second_Start], [unmade_Close], [trace_never_found], [FindOne_succeeds],
      [unset_callbacks_panic], [find_needs_key], [accept_fails_once],
      [unstarted_Close], [failed_writer_blocks], [stamp_half_day], [IsEmpty_leaks],
      [Exists_PathExists], [chunked_answer_crashes], [writer_encodes_recycled],
      [stale_tick], [options_run_together], [Run_never_returns], and examples at the end of most
      files.

    ** Conventions and assumptions

    A Go integer is a [Z] with its wrap-around written out; a byte slice that may be
    nil is an [option (list byte)]; a map is a [gmap]; a float is a [spec_float].  A
    run-time panic is the outcome [Panic], and a recovered one is where the code
    recovers.  Reads and writes under one lock are atomic; a blocking operation is a
    step with a guard.  A send that is given up after a time is one step: if the
    receiver makes room in that time, its step comes first.  Map iteration, whose
    order Go leaves open, follows [map_to_list], or in the HTTP files any order at
    all ([RangeOrder] where a theorem is about one loop, an order drawn for each loop
    in the client); no theorem depends on which order that is.  Instants carry a
    fixed offset from UTC.

    Parameters stand for what is not in the repository or is decided outside the
    program: the JSON form of a packet (class [Codec]), JSON data ([SimpleJson]),
    the redis library ([exec], [pipe]), [database/sql] (class [Driver]), parsed
    configuration files, the hash of a script, float formatting, [fmt.Sprintf] on
    values whose methods it runs, the snapshots of timers, which files can be
    opened, written and renamed, which addresses answer, JSON and the parsing of
    URLs in the HTTP client (classes [Json] and [Std]), its network, orders and
    boundaries ([Net]), gin's binding, the clients of etcd and ZooKeeper ([Etcd], [Zk]), the gRPC library (its
    dialling, serving, metadata and chaining; [shared] says whether metadata read
    twice is one map), the driver of MongoDB, the ini library, random numbers and
    hashes, and which calls of the operating system fail.  Handlers, filters and log
    writers of the user are arbitrary functions that may panic.

    Fuel.  [CallTimeout] takes one unit for each attempt, and [retryNum + 1] units
    are proved enough; the loops of [SliceCutter], [GdEncode] and the list walks of
    the ordered map take the length of their data, which is proved enough as well.
    The loops of [GoStrings] take the length of the text, one unit for each byte
    consumed.  In [Inject] the fuel is the depth of the call stack, and running out
    of it is a stack overflow ([cyclic_types_overflow]).  The search for a free file
    name of [FileLog] has the code's bound of 1000.  The attempts of [EndBytes] take
    one unit each, and one more than the policy has left is proved enough.  A session
    of [Helper] takes one unit for each line.  The fuel of [ListDir] is its depth of
    calls; [list_fuel], computed from the file system, is proved enough whatever the
    links, because the operating system follows at most forty.

    ** What is not modelled

    Dialling and TLS handshakes, which the libraries do.  Log output other than the
    lines that carry information a theorem is about, the dumps and curl commands of
    the HTTP client and the printing of the inject graph ([SPrint], [String]) among
    it.  The contents of the runtime's profiles.  The system call under [Dup2].
    [node.String] and [node.IterFunc] of the ordered map, which nothing calls.  The
    sample programs and the code that protoc generated, which have no logic of the
    framework.  What is left is glue over a library, so that a model of it would be
    a parameter. *)

From stdpp Require Export base tactics option list gmap strings pretty.
From Stdlib Require Export ZArith Lia.
From Stdlib Require Export Strings.Byte.
From Stdlib Require Export Strings.Ascii.

#[export] Set Default Goal Selector "!".
#[export] Set Warnings "-notation-overridden,-clear-no-such-hyp".

Open Scope Z_scope.

(** ** Machine integers

    Go's [int] and [int64] are 64-bit two's complement on the platforms the
    repository targets; [uint32] and [uint64] wrap modulo [2^32] and [2^64]. *)

Definition wrapU (w z : Z) : Z := z mod 2 ^ w.
Definition wrapS (w z : Z) : Z := (z + 2 ^ (w - 1)) mod 2 ^ w - 2 ^ (w - 1).

Abbreviation u8 := (wrapU 8).
Abbreviation u32 := (wrapU 32).
Abbreviation u64 := (wrapU 64).
Abbreviation i32 := (wrapS 32).
Abbreviation i64 := (wrapS 64).

Definition maxInt32 : Z := 2 ^ 31 - 1.
Definition maxInt64 : Z := 2 ^ 63 - 1.
Definition minInt64 : Z := - 2 ^ 63.

Definition isU (w z : Z) : Prop := 0 <= z < 2 ^ w.
Definition isI64 (z : Z) : Prop := minInt64 <= z <= maxInt64.

Lemma wrapU_range w z : 0 <= w -> isU w (wrapU w z).
Proof. intros. apply Z.mod_pos_bound. by apply Z.pow_pos_nonneg. Qed.

Lemma wrapU_small w z : isU w z -> wrapU w z = z.
Proof. apply Z.mod_small. Qed.

Lemma wrapU_wrapU w z : wrapU w (wrapU w z) = wrapU w z.
Proof. unfold wrapU. apply Zmod_mod. Qed.

Lemma i64_range z : isI64 (i64 z).
Proof.
  unfold isI64, minInt64, maxInt64, wrapS.
  pose proof (Z.mod_pos_bound (z + 2 ^ (64 - 1)) (2 ^ 64)). lia.
Qed.

Lemma i64_small z : isI64 z -> i64 z = z.
Proof.
  unfold isI64, minInt64, maxInt64, wrapS. intros.
  rewrite Z.mod_small; lia.
Qed.

(** [i64] is a ring morphism up to wrapping: intermediate wraps can be dropped. *)
Lemma i64_mod z : i64 z mod 2 ^ 64 = z mod 2 ^ 64.
Proof.
  unfold wrapS. rewrite Zminus_mod_idemp_l.
  f_equal. lia.
Qed.

Lemma i64_congr a b : a mod 2 ^ 64 = b mod 2 ^ 64 -> i64 a = i64 b.
Proof.
  intros H. unfold wrapS. f_equal.
  rewrite <- (Zplus_mod_idemp_l a), H, Zplus_mod_idemp_l. done.
Qed.

Lemma i64_add_l a b : i64 (i64 a + b) = i64 (a + b).
Proof.
  apply i64_congr. rewrite <- Zplus_mod_idemp_l, i64_mod, Zplus_mod_idemp_l. done.
Qed.

Lemma i64_add_r a b : i64 (a + i64 b) = i64 (a + b).
Proof. rewrite Z.add_comm, i64_add_l. f_equal. lia. Qed.

Lemma i64_sub_l a b : i64 (i64 a - b) = i64 (a - b).
Proof.
  apply i64_congr. rewrite <- Zminus_mod_idemp_l, i64_mod, Zminus_mod_idemp_l. done.
Qed.

Lemma lxor_range w a b : 0 <= a < 2 ^ w -> 0 <= b < 2 ^ w -> 0 <= Z.lxor a b < 2 ^ w.
Proof.
  intros Ha Hb.
  destruct (decide (a = 0)) as [->|Ha0]; [by rewrite Z.lxor_0_l|].
  destruct (decide (b = 0)) as [->|Hb0]; [by rewrite Z.lxor_0_r|].
  assert (0 <= Z.lxor a b) as H by (apply Z.lxor_nonneg; lia). split; [done|].
  destruct (decide (Z.lxor a b = 0)) as [->|]; [lia|].
  apply Z.log2_lt_pow2; [lia|]. eapply Z.le_lt_trans; [apply Z.log2_lxor; lia|].
  apply Z.max_lub_lt; apply Z.log2_lt_pow2; lia.
Qed.

(** ** Outcomes and the state monad

    A Go call ends by returning or by panicking; in both cases the state it has
    written stays written.  [M S A] threads a state [S] through such calls. *)

Inductive outcome (A : Type) : Type :=
| Ret (a : A)
| Panic (msg : string).
Arguments Ret {A} a.
Arguments Panic {A} msg.

Definition M (S A : Type) : Type := S -> outcome A * S.

#[export] Instance M_ret S : MRet (M S) := fun A a s => (Ret a, s).

#[export] Instance M_bind S : MBind (M S) := fun A B f m s =>
  match m s with
  | (Ret a, s') => f a s'
  | (Panic e, s') => (Panic e, s')
  end.

Definition get {S} : M S S := fun s => (Ret s, s).
Definition put {S} (s : S) : M S unit := fun _ => (Ret tt, s).
Definition modify {S} (f : S -> S) : M S unit := fun s => (Ret tt, f s).
Definition gets {S A} (f : S -> A) : M S A := fun s => (Ret (f s), s).
Definition panic {S A} (e : string) : M S A := fun s => (Panic e, s).

(** [defer d m]: the deferred call [d] runs when [m] returns or panics. *)
Definition defer {S A} (d : M S unit) (m : M S A) : M S A := fun s =>
  match m s with
  | (r, s') =>
      match d s' with
      | (Ret _, s'') => (r, s'')
      | (Panic e, s'') => (Panic e, s'')
      end
  end.

(** [recovering h m]: a deferred [recover] that turns a panic of [m] into [h]. *)
Definition recovering {S A} (h : string -> M S A) (m : M S A) : M S A := fun s =>
  match m s with
  | (Ret a, s') => (Ret a, s')
  | (Panic e, s') => h e s'
  end.

Definition run {S A} (m : M S A) (s : S) : outcome A * S := m s.
Definition outcome_of {S A} (m : M S A) (s : S) : outcome A := (m s).1.
Definition exec {S A} (m : M S A) (s : S) : S := (m s).2.

Section monad_laws.
Context {S : Type}.

Lemma bind_ret {A B} (a : A) (f : A -> M S B) s : (mret a ≫= f) s = f a s.
Proof. done. Qed.

Lemma bind_assoc {A B C} (m : M S A) (f : A -> M S B) (g : B -> M S C) s :
  ((m ≫= f) ≫= g) s = (m ≫= (fun a => f a ≫= g)) s.
Proof. unfold mbind, M_bind. destruct (m s) as [[?|?] ?]; done. Qed.

Lemma bind_panic {A B} e (f : A -> M S B) s : (panic e ≫= f) s = (Panic e, s).
Proof. done. Qed.

Lemma bind_run {A B} (m : M S A) (f : A -> M S B) s a s' : m s = (Ret a, s') -> (m ≫= f) s = f a s'.
Proof. intros E. unfold mbind, M_bind. by rewrite E. Qed.

Lemma outcome_bind {A B} (m : M S A) (f : A -> M S B) s a s' : m s = (Ret a, s') ->
  outcome_of (m ≫= f) s = outcome_of (f a) s'.
Proof. intros E. unfold outcome_of, mbind, M_bind. by rewrite E. Qed.

Lemma outcome_bind_panic {A B} (m : M S A) (f : A -> M S B) s e : outcome_of m s = Panic e ->
  outcome_of (m ≫= f) s = Panic e.
Proof. unfold outcome_of, mbind, M_bind. destruct (m s) as [[?|?] ?]; [done|]. by intros [= ->]. Qed.

Lemma defer_ret {A} (m : M S A) (d : M S unit) s a s' s'' :
  m s = (Ret a, s') -> d s' = (Ret tt, s'') -> defer d m s = (Ret a, s'').
Proof. intros Hm Hd. unfold defer. by rewrite Hm, Hd. Qed.
End monad_laws.

(** ** Total correctness triples

    [triple P m Q]: from a state in [P] the call returns, without a panic, and
    value and state are in [Q]. *)

Definition triple {S A} (P : S -> Prop) (m : M S A) (Q : A -> S -> Prop) : Prop :=
  forall s, P s -> exists a s', m s = (Ret a, s') /\ Q a s'.

Section triples.
Context {S : Type}.

Lemma triple_ret {A} (a : A) (P : S -> Prop) (Q : A -> S -> Prop) :
  (forall s, P s -> Q a s) -> triple P (mret a) Q.
Proof. intros H s Hs. exists a, s. eauto. Qed.

Lemma triple_bind {A B} P (m : M S A) R (k : A -> M S B) Q :
  triple P m R -> (forall a, triple (R a) (k a) Q) -> triple P (m ≫= k) Q.
Proof.
  intros Hm Hk s Hs. destruct (Hm s Hs) as (a & s1 & H1 & HR).
  destruct (Hk a s1 HR) as (b & s2 & H2 & HQ). exists b, s2.
  split; [|done]. unfold mbind, M_bind. by rewrite H1.
Qed.

Lemma triple_modify (f : S -> S) (P : S -> Prop) (Q : unit -> S -> Prop) :
  (forall s, P s -> Q tt (f s)) -> triple P (modify f) Q.
Proof. intros H s Hs. exists tt, (f s). eauto. Qed.

Lemma triple_gets {A} (f : S -> A) (P : S -> Prop) (Q : A -> S -> Prop) :
  (forall s, P s -> Q (f s) s) -> triple P (gets f) Q.
Proof. intros H s Hs. exists (f s), s. eauto. Qed.

Lemma triple_weaken {A} (P P' : S -> Prop) (m : M S A) (Q Q' : A -> S -> Prop) :
  triple P' m Q' -> (forall s, P s -> P' s) -> (forall a s, Q' a s -> Q a s) -> triple P m Q.
Proof. intros H HP HQ s Hs. destruct (H s (HP s Hs)) as (a & s' & ? & ?). eauto. Qed.
End triples.

(** ** Strings *)

Definition byte_of_Z (z : Z) : byte :=
  default x00 (Byte.of_N (Z.to_N (z mod 256))).
Definition Z_of_byte (b : byte) : Z := Z.of_N (Byte.to_N b).

Lemma Z_of_byte_range b : 0 <= Z_of_byte b < 256.
Proof.
  unfold Z_of_byte. pose proof (Byte.to_N_bounded b). lia.
Qed.

Lemma Z_of_byte_of_Z z : Z_of_byte (byte_of_Z z) = z mod 256.
Proof.
  unfold Z_of_byte, byte_of_Z.
  assert (0 <= z mod 256 < 256) as Hr by (apply Z.mod_pos_bound; lia).
  destruct (Byte.of_N (Z.to_N (z mod 256))) as [b|] eqn:E; simpl.
  - apply Byte.to_of_N in E. rewrite E. lia.
  - apply Byte.of_N_None_iff in E. lia.
Qed.

Lemma byte_of_Z_of_byte b : byte_of_Z (Z_of_byte b) = b.
Proof.
  unfold byte_of_Z. rewrite Z.mod_small by apply Z_of_byte_range.
  unfold Z_of_byte. by rewrite N2Z.id, Byte.of_to_N.
Qed.

Lemma Z_of_byte_inj a b : Z_of_byte a = Z_of_byte b -> a = b.
Proof. intros H. rewrite <- (byte_of_Z_of_byte a), H. apply byte_of_Z_of_byte. Qed.

#[export] Instance byte_eq_dec : EqDecision byte := Byte.byte_eq_dec.

(** Decimal printing ([strconv.Itoa], [%d]): stdpp's [pretty]. *)
Abbreviation itoa z := (pretty (z : Z)).

(** [strings.Join] *)
Fixpoint join (sep : string) (l : list string) : string :=
  match l with
  | [] => ""
  | [x] => x
  | x :: l' => x +:+ sep +:+ join sep l'
  end.

(** [strings.HasPrefix], [strings.Contains] *)
Definition has_prefix (pre s : string) : bool := String.prefix pre s.

Fixpoint contains (sub s : string) : bool :=
  String.prefix sub s ||
  match s with
  | EmptyString => false
  | String _ s' => contains sub s'
  end.

(** ** Lists *)

(** [a[lo:hi]] of Go, with its run-time check. *)
Definition slice {S A} (l : list A) (lo hi : Z) : M S (list A) :=
  if bool_decide (0 <= lo <= hi /\ hi <= Z.of_nat (length l))
  then mret (take (Z.to_nat (hi - lo)) (drop (Z.to_nat lo) l))
  else panic "slice bounds out of range".

(** [l[i]] of Go, with its run-time check. *)
Definition index {S A} (l : list A) (i : Z) : M S A :=
  if decide (0 <= i) then
    match l !! Z.to_nat i with
    | Some a => mret a
    | None => panic "index out of range"
    end
  else panic "index out of range".

Definition len {A} (l : list A) : Z := Z.of_nat (length l).

Lemma len_nonneg {A} (l : list A) : 0 <= len l.
Proof. unfold len. lia. Qed.

Lemma len_app {A} (l k : list A) : len (l ++ k) = len l + len k.
Proof. unfold len. rewrite length_app. lia. Qed.

Lemma len_nil {A} : len (@nil A) = 0.
Proof. done. Qed.

Lemma len_cons {A} (x : A) l : len (x :: l) = 1 + len l.
Proof. unfold len. simpl. lia. Qed.

Lemma list_filter_all {A} (P : A -> Prop) `{forall x, Decision (P x)} (l : list A) :
  Forall P l -> filter P l = l.
Proof. induction 1; [done|]. rewrite filter_cons_True by done. by f_equal. Qed.

(** An element of a list with one more element at the end. *)
Lemma list_snoc_split {A} (l : list A) x pre y post : l ++ [x] = pre ++ y :: post ->
  (pre = l /\ y = x /\ post = []) \/ exists post', l = pre ++ y :: post'.
Proof.
  destruct post as [|z post] using rev_ind; intros H.
  - apply app_inj_tail in H as [-> ->]. by left.
  - rewrite app_comm_cons, app_assoc in H. apply app_inj_tail in H as [-> _]. right. by exists post.
Qed.

Lemma omap_app_split {A B} (f : A -> option B) l bs1 b bs2 : omap f l = bs1 ++ b :: bs2 ->
  exists l1 a l2, l = l1 ++ a :: l2 /\ f a = Some b /\ omap f l1 = bs1.
Proof.
  revert bs1. induction l as [|x l IH]; intros bs1 E; cbn [omap list_omap] in E; [by destruct bs1|].
  destruct (f x) as [y|] eqn:Ex.
  - destruct bs1 as [|b1 bs1]; injection E as -> E; [by exists [], x, l|].
    destruct (IH bs1 E) as (l1 & a & l2 & -> & Ha & Hl). exists (x :: l1), a, l2.
    split_and!; [done..|]. cbn [omap list_omap]. by rewrite Ex, <- Hl.
  - destruct (IH bs1 E) as (l1 & a & l2 & -> & Ha & Hl). exists (x :: l1), a, l2.
    split_and!; [done..|]. cbn [omap list_omap]. by rewrite Ex.
Qed.

(** ** Sums over lists whose elements are replaced by index *)

Section sums.
Context {A : Type}.
Implicit Types (f g : A -> nat) (l : list A).

Lemma sum_insert f l i x y : l !! i = Some x ->
  (sum_list_with f (<[i := y]> l) + f x = sum_list_with f l + f y)%nat.
Proof.
  revert i. induction l as [|z l IH]; intros [|i] H; simplify_eq/=; [lia|].
  specialize (IH i H). lia.
Qed.

Lemma sum_pos f l i x : l !! i = Some x -> (f x <= sum_list_with f l)%nat.
Proof.
  revert i. induction l as [|z l IH]; intros [|i] H; simplify_eq/=; [lia|].
  specialize (IH i H). lia.
Qed.

Lemma sum_zero f l : sum_list_with f l = 0%nat -> forall i x, l !! i = Some x -> f x = 0%nat.
Proof. intros H i x Hx. pose proof (sum_pos f l i x Hx). lia. Qed.

Lemma sum_some f l : sum_list_with f l ≠ 0%nat -> exists i x, l !! i = Some x /\ f x ≠ 0%nat.
Proof.
  induction l as [|x l IH]; intros H; [done|]. simpl in H.
  destruct (decide (f x = 0%nat)) as [E|E].
  - destruct IH as (i & y & Hi & Hy); [lia|]. by exists (S i), y.
  - by exists 0%nat, x.
Qed.

Lemma sum_replicate f n x : sum_list_with f (replicate n x) = (n * f x)%nat.
Proof. induction n as [|n IH]; [done|]. simpl. rewrite IH. lia. Qed.

Lemma sum_le f g l : (forall x, (f x <= g x)%nat) -> (sum_list_with f l <= sum_list_with g l)%nat.
Proof. intros H. induction l as [|x l IH]; simpl; [lia|]. specialize (H x). lia. Qed.
End sums.

(** ** Automation *)

Create HintDb gd.
#[export] Hint Resolve i64_range Z_of_byte_range len_nonneg : gd.
Create Rewrite HintDb gd.
#[export] Hint Rewrite @len_app @len_nil @len_cons @i64_add_l @i64_add_r
  @i64_sub_l Z_of_byte_of_Z byte_of_Z_of_byte : gd.

(** Splits every [match]/[if] of the goal and closes what computation closes. *)
Ltac split_matches :=
  repeat (case_match || case_decide || case_bool_decide); simplify_eq/=; try done.

(** Runs a monadic definition on a state: unfolds the monad and simplifies. *)
Ltac go_run := unfold run, outcome_of, exec, mbind, M_bind, mret, M_ret, get, put,
  modify, gets, panic in *; simpl in *.

(** ** Step relations: reflexive transitive closure of a labelled step *)

Section steps.
Context {St L : Type} (step : St -> L -> St -> Prop).

Inductive steps : St -> list L -> St -> Prop :=
| steps_nil s : steps s [] s
| steps_cons s l s' ls s'' : step s l s' -> steps s' ls s'' -> steps s (l :: ls) s''.

Lemma steps_app s ls1 s1 ls2 s2 :
  steps s ls1 s1 -> steps s1 ls2 s2 -> steps s (ls1 ++ ls2) s2.
Proof. induction 1; simpl; eauto using steps. Qed.

Lemma steps_invariant (I : St -> Prop) s ls s' :
  (forall a l b, I a -> step a l b -> I b) -> I s -> steps s ls s' -> I s'.
Proof. intros Hstep Hs. induction 1; eauto. Qed.

(** A measure that every step lowers bounds the length of a run. *)
(** An invariant that speaks of the labels so far. *)
Lemma steps_history (I : list L -> St -> Prop) s ls s' :
  (forall h a l b, I h a -> step a l b -> I (h ++ [l]) b) -> I [] s -> steps s ls s' -> I ls s'.
Proof.
  intros Hstep H0 Hs. cut (forall h, I h s -> I (h ++ ls) s'); [by intros H; apply (H [])|].
  clear H0. induction Hs as [s|s l s1 ls s2 H _ IH]; intros h Hh; [by rewrite app_nil_r|].
  rewrite cons_middle, app_assoc. by apply IH, (Hstep _ s).
Qed.

Lemma steps_bound (I : St -> Prop) (m : St -> nat) s ls s' :
  (forall a l b, I a -> step a l b -> I b /\ (m b < m a)%nat) -> I s ->
  steps s ls s' -> (length ls + m s' <= m s)%nat.
Proof.
  intros Hm HI Hs. induction Hs as [|s l s1 ls s2 Hst _ IH]; [simpl; lia|].
  destruct (Hm _ _ _ HI Hst) as [HI1 ?]. specialize (IH HI1). simpl. lia.
Qed.
End steps.
