(* ===== verification/GoStd.v ===== *)
(** * The parts of Go's standard library the modelled code calls

    [strconv.ParseInt], [encoding/base64], [hash/crc32] (IEEE), the big-endian
    integers of [encoding/binary] and a few [strings] functions, as executable
    functions on Rocq strings and byte lists. *)

From S2P Require Import Prelude.

Module GoStd.

(** ** [strconv.ParseInt(s, 10, 64)] *)

Inductive num_err : Type := ErrSyntax | ErrRange.

#[export] Instance num_err_eq_dec : EqDecision num_err.
Proof. solve_decision. Defined.

Definition digit (c : ascii) : option Z :=
  let n := Z.of_N (N_of_ascii c) in
  if (48 <=? n) && (n <=? 57) then Some (n - 48) else None.

(** The loop of [ParseUint]: [n] is the value of the digits read so far. *)
Fixpoint parse_uint_loop (s : string) (n : Z) : Z + num_err :=
  match s with
  | EmptyString => inl n
  | String c s' =>
      match digit c with
      | None => inr ErrSyntax
      | Some d => if 2 ^ 64 <=? n * 10 + d then inr ErrRange else parse_uint_loop s' (n * 10 + d)
      end
  end.

Definition parse_uint (s : string) : Z + num_err :=
  match s with EmptyString => inr ErrSyntax | _ => parse_uint_loop s 0 end.

Definition parse_int (s : string) : Z + num_err :=
  match s with
  | EmptyString => inr ErrSyntax
  | String c s' =>
      let neg := Ascii.eqb c "-" in
      match parse_uint (if neg || Ascii.eqb c "+" then s' else s) with
      | inr e => inr e
      | inl un =>
          if neg then (if 2 ^ 63 <? un then inr ErrRange else inl (- un))
          else (if 2 ^ 63 <=? un then inr ErrRange else inl un)
      end
  end.

Lemma digit_range c d : digit c = Some d -> 0 <= d <= 9.
Proof.
  unfold digit. destruct (_ && _) eqn:E; [|done]. intros [= <-].
  apply andb_true_iff in E as [?%Z.leb_le ?%Z.leb_le]. lia.
Qed.

Lemma parse_uint_loop_range s n z : 0 <= n -> parse_uint_loop s n = inl z -> 0 <= z.
Proof.
  revert n. induction s as [|c s IH]; simpl; intros n Hn.
  - by intros [= <-].
  - destruct (digit c) as [d|] eqn:E; [|done]. apply digit_range in E.
    destruct (_ <=? _); [done|]. apply IH. lia.
Qed.

Lemma parse_uint_range s z : parse_uint s = inl z -> 0 <= z.
Proof. unfold parse_uint. destruct s; [done|]. by apply parse_uint_loop_range. Qed.

Lemma parse_int_range s z : parse_int s = inl z -> isI64 z.
Proof.
  unfold parse_int, isI64, minInt64, maxInt64. destruct s as [|c s]; [done|].
  destruct (parse_uint _) as [un|e] eqn:E; [|done]. apply parse_uint_range in E.
  destruct (Ascii.eqb c "-").
  - destruct (Z.ltb_spec (2 ^ 63) un); [done|]. intros [= <-]. lia.
  - destruct (Z.leb_spec (2 ^ 63) un); [done|]. intros [= <-]. lia.
Qed.

(** Printing and parsing. *)

Lemma digit_pretty x : (x < 10)%N -> digit (pretty_N_char x) = Some (Z.of_N x).
Proof.
  intros Hx. assert (x = 0 \/ x = 1 \/ x = 2 \/ x = 3 \/ x = 4 \/ x = 5 \/ x = 6 \/ x = 7 \/ x = 8 \/ x = 9)%N
    as H by lia. by repeat destruct H as [->|H]; [..|subst].
Qed.

Lemma div_mod_10 (x : N) : (0 < x)%N -> exists q r, (x `div` 10 = q /\ x `mod` 10 = r /\ x = 10 * q + r /\ q < x /\ r < 10)%N.
Proof.
  intros Hx. pose proof (N.div_mod x 10 ltac:(done)). pose proof (N.mod_lt x 10 ltac:(done)).
  exists (x `div` 10)%N, (x `mod` 10)%N. split_and!; [done..|by apply N.div_lt|done].
Qed.

Lemma parse_pretty_go x s : Z.of_N x < 2 ^ 64 -> parse_uint_loop (pretty_N_go x s) 0 = parse_uint_loop s (Z.of_N x).
Proof.
  revert s. induction (N.lt_wf_0 x) as [x _ IH]; intros s Hx.
  destruct (decide (x = 0)%N) as [->|Hne]; [done|]. rewrite pretty_N_go_step by lia.
  destruct (div_mod_10 x) as (q & r & -> & -> & Hqr & Hq & Hr); [lia|].
  rewrite IH by lia. cbn [parse_uint_loop]. rewrite digit_pretty by lia.
  assert (Z.of_N q * 10 + Z.of_N r = Z.of_N x) as -> by lia. by rewrite (proj2 (Z.leb_gt (2 ^ 64) (Z.of_N x))).
Qed.

Lemma pretty_go_cons x s : (0 < x)%N -> exists c s', pretty_N_go x s = String c s' /\ is_Some (digit c).
Proof.
  revert s. induction (N.lt_wf_0 x) as [x _ IH]; intros s Hx. rewrite pretty_N_go_step by done.
  destruct (div_mod_10 x Hx) as (q & r & -> & -> & Hqr & Hq & Hr).
  destruct (decide (q = 0)%N) as [->|Hne].
  - rewrite pretty_N_go_0. eexists _, _. split; [done|]. by rewrite digit_pretty.
  - apply IH; lia.
Qed.

Lemma pretty_N_cons (x : N) : exists c s', pretty x = String c s' /\ is_Some (digit c).
Proof.
  unfold pretty, pretty_N. destruct (decide _); [by eexists _, _|]. apply pretty_go_cons. lia.
Qed.

Lemma parse_uint_pretty (x : N) : Z.of_N x < 2 ^ 64 -> parse_uint (pretty x) = inl (Z.of_N x).
Proof.
  intros Hx. destruct (pretty_N_cons x) as (c & s & E & _).
  unfold parse_uint. rewrite E, <- E. unfold pretty, pretty_N. destruct (decide (x = 0)%N) as [->|Hne]; [done|].
  by rewrite parse_pretty_go.
Qed.

(** [strconv.Atoi] reads back what [%d] prints. *)
Lemma parse_int_itoa z : isI64 z -> parse_int (itoa z) = inl z.
Proof.
  unfold isI64, minInt64, maxInt64. intros Hz. destruct z as [|p|p]; [done|..]; unfold pretty, pretty_Z.
  - destruct (pretty_N_cons (Npos p)) as (c & s & E & Hc). unfold pretty, pretty_positive, pretty in *.
    unfold parse_int. rewrite E.
    assert (Ascii.eqb c "-" = false) as -> by (apply Ascii.eqb_neq; intros ->; by destruct Hc).
    assert (Ascii.eqb c "+" = false) as -> by (apply Ascii.eqb_neq; intros ->; by destruct Hc).
    cbn [orb]. rewrite <- E. change (pretty_N (N.pos p)) with (pretty (N.pos p)).
    rewrite parse_uint_pretty by lia. simpl Z.of_N.
    by rewrite (proj2 (Z.leb_gt (2 ^ 63) (Zpos p))) by lia.
  - change ("-" +:+ pretty p) with (String "-" (pretty (Npos p))). unfold parse_int. rewrite Ascii.eqb_refl. cbn [orb].
    rewrite parse_uint_pretty by lia. simpl Z.of_N.
    by rewrite (proj2 (Z.ltb_ge (2 ^ 63) (Zpos p))) by lia.
Qed.

(** ** [strings] *)

(** [strings.ToLower] on ASCII. *)
Definition lower_ascii (c : ascii) : ascii :=
  let n := N_of_ascii c in
  if (N.leb 65 n && N.leb n 90)%bool then ascii_of_N (n + 32) else c.
Fixpoint ToLower (s : string) : string :=
  match s with EmptyString => EmptyString | String c s' => String (lower_ascii c) (ToLower s') end.

(** [strings.Trim(s, " ")] *)
Fixpoint trim_left (s : string) : string :=
  match s with
  | String c s' => if Ascii.eqb c " " then trim_left s' else s
  | EmptyString => EmptyString
  end.
Fixpoint rev_string (s : string) (acc : string) : string :=
  match s with EmptyString => acc | String c s' => rev_string s' (String c acc) end.
Definition trim_space (s : string) : string :=
  rev_string (trim_left (rev_string (trim_left s) EmptyString)) EmptyString.

(** [strings.ReplaceAll(s, c, "")] for a one-byte [c]. *)
Fixpoint remove_char (c : ascii) (s : string) : string :=
  match s with
  | EmptyString => EmptyString
  | String d s' => if Ascii.eqb c d then remove_char c s' else String d (remove_char c s')
  end.

(** ** [base64.StdEncoding] *)

Definition b64_alphabet : list byte :=
  String.list_byte_of_string "ABCDEFGHIJKLMNOPQRSTUVWXYZabcdefghijklmnopqrstuvwxyz0123456789+/".

Definition b64_char (z : Z) : byte := default x00 (b64_alphabet !! Z.to_nat z).

Fixpoint find_index (b : byte) (l : list byte) (i : Z) : option Z :=
  match l with
  | [] => None
  | x :: l' => if decide (b = x) then Some i else find_index b l' (i + 1)
  end.

Definition b64_value (b : byte) : option Z := find_index b b64_alphabet 0.

Definition b64_pad : byte := x3d.

Fixpoint b64_encode (l : list byte) : list byte :=
  match l with
  | a :: b :: c :: l' =>
      let a := Z_of_byte a in let b := Z_of_byte b in let c := Z_of_byte c in
      b64_char (a / 4) :: b64_char ((a mod 4) * 16 + b / 16) ::
      b64_char ((b mod 16) * 4 + c / 64) :: b64_char (c mod 64) :: b64_encode l'
  | [a; b] =>
      let a := Z_of_byte a in let b := Z_of_byte b in
      [b64_char (a / 4); b64_char ((a mod 4) * 16 + b / 16); b64_char ((b mod 16) * 4); b64_pad]
  | [a] =>
      let a := Z_of_byte a in [b64_char (a / 4); b64_char ((a mod 4) * 16); b64_pad; b64_pad]
  | [] => []
  end.

(** Decoding of a stream without line breaks; [None] is [CorruptInputError]. *)
Fixpoint b64_decode_quads (l : list byte) : option (list byte) :=
  match l with
  | [] => Some []
  | c0 :: c1 :: c2 :: c3 :: l' =>
      v0 ← b64_value c0; v1 ← b64_value c1;
      let a := byte_of_Z (v0 * 4 + v1 / 16) in
      match b64_value c2, b64_value c3 with
      | Some v2, Some v3 =>
          rest ← b64_decode_quads l';
          Some (a :: byte_of_Z (v1 mod 16 * 16 + v2 / 4) :: byte_of_Z (v2 mod 4 * 64 + v3) :: rest)
      | Some v2, None =>
          if decide (c3 = b64_pad /\ l' = [])
          then Some [a; byte_of_Z (v1 mod 16 * 16 + v2 / 4)] else None
      | None, _ => if decide (c2 = b64_pad /\ c3 = b64_pad /\ l' = []) then Some [a] else None
      end
  | _ => None
  end.

(** [DecodeString] skips CR and LF. *)
Definition b64_decode (l : list byte) : option (list byte) :=
  b64_decode_quads (filter (fun b => b ≠ x0a /\ b ≠ x0d) l).

Lemma b64_value_char z : 0 <= z < 64 -> b64_value (b64_char z) = Some z.
Proof.
  intros Hz.
  assert (forallb (fun n => bool_decide (b64_value (b64_char (Z.of_nat n)) = Some (Z.of_nat n)))
    (seq 0 64) = true) as H by (vm_compute; reflexivity).
  rewrite forallb_forall in H. specialize (H (Z.to_nat z)).
  rewrite Z2Nat.id in H by lia. eapply bool_decide_eq_true_1, H, in_seq. lia.
Qed.

Lemma b64_char_not_ws z : 0 <= z < 64 -> b64_char z ≠ x0a /\ b64_char z ≠ x0d.
Proof.
  intros Hz. split; intros E; apply b64_value_char in Hz; rewrite E in Hz; discriminate.
Qed.

Lemma b64_pad_none : b64_value b64_pad = None.
Proof. reflexivity. Qed.

(** Induction three bytes at a time. *)
Lemma list_ind3 {A} (P : list A -> Prop) :
  P [] -> (forall a, P [a]) -> (forall a b, P [a; b]) ->
  (forall a b c l, P l -> P (a :: b :: c :: l)) -> forall l, P l.
Proof.
  intros H0 H1 H2 H3 l. assert (P l /\ (forall a, P (a :: l)) /\ (forall a b, P (a :: b :: l))).
  { induction l as [|x l IH]; [done|]. naive_solver. }
  naive_solver.
Qed.

Ltac byte_bounds :=
  repeat match goal with
  | b : byte |- _ =>
      lazymatch goal with
      | _ : 0 <= Z_of_byte b < 256 |- _ => fail
      | _ => pose proof (Z_of_byte_range b)
      end
  end.

Ltac b64_arith := byte_bounds; Z.to_euclidean_division_equations; lia.

Lemma b64_encode_no_ws l : Forall (fun b => b ≠ x0a /\ b ≠ x0d) (b64_encode l).
Proof.
  induction l as [|a|a b|a b c l IH] using list_ind3; cbn [b64_encode]; cbv zeta;
    repeat constructor; try done; try apply b64_char_not_ws; b64_arith.
Qed.

Lemma byte_of_Z_eq b z : z = Z_of_byte b -> byte_of_Z z = b.
Proof. intros ->. apply byte_of_Z_of_byte. Qed.

Lemma b64_quads_encode l : b64_decode_quads (b64_encode l) = Some l.
Proof.
  induction l as [|a|a b|a b c l IH] using list_ind3; cbn [b64_encode b64_decode_quads];
    cbv zeta; [done|..]; rewrite !b64_value_char by b64_arith; rewrite ?b64_pad_none; simpl.
  - do 2 f_equal. apply byte_of_Z_eq. b64_arith.
  - do 2 f_equal; [|f_equal]; apply byte_of_Z_eq; b64_arith.
  - rewrite IH. simpl. do 2 f_equal; [|f_equal; [|f_equal]]; apply byte_of_Z_eq; b64_arith.
Qed.

Lemma b64_roundtrip l : b64_decode (b64_encode l) = Some l.
Proof.
  unfold b64_decode. rewrite list_filter_all by apply b64_encode_no_ws. apply b64_quads_encode.
Qed.

(** ** Big-endian integers of [encoding/binary] *)

Definition be32 (z : Z) : list byte :=
  [byte_of_Z (z / 2 ^ 24); byte_of_Z (z / 2 ^ 16); byte_of_Z (z / 2 ^ 8); byte_of_Z z].

(** [io.ReadFull] of [n] bytes: [io.EOF] when nothing could be read,
    [io.ErrUnexpectedEOF] when the stream ended early. *)
Inductive read_err : Type := EOF | ErrUnexpectedEOF.

Definition read_full (n : nat) (s : list byte) : (list byte * list byte) + read_err :=
  if decide (n <= length s)%nat then inl (take n s, drop n s)
  else match s with [] => inr EOF | _ => inr ErrUnexpectedEOF end.

Definition be_value (l : list byte) : Z :=
  fold_left (fun acc b => acc * 256 + Z_of_byte b) l 0.

Definition read_u32 (s : list byte) : (Z * list byte) + read_err :=
  match read_full 4 s with
  | inl (bs, s') => inl (be_value bs, s')
  | inr e => inr e
  end.

Lemma read_full_app bs rest : read_full (length bs) (bs ++ rest) = inl (bs, rest).
Proof.
  unfold read_full. rewrite decide_True by (rewrite length_app; lia).
  by rewrite take_app_length, drop_app_length.
Qed.

Lemma be_value_be32 z : isU 32 z -> be_value (be32 z) = z.
Proof.
  unfold isU. intros Hz. unfold be_value, be32. cbn [fold_left].
  rewrite !Z_of_byte_of_Z. Z.to_euclidean_division_equations. lia.
Qed.

Lemma read_u32_be32 z rest : isU 32 z -> read_u32 (be32 z ++ rest) = inl (z, rest).
Proof.
  intros Hz. unfold read_u32. change 4%nat with (length (be32 z)).
  by rewrite read_full_app, be_value_be32.
Qed.

Lemma read_full_inv n s bs s' : read_full n s = inl (bs, s') -> s = bs ++ s' /\ length bs = n.
Proof.
  unfold read_full. case_decide; [|by destruct s]. intros [= <- <-].
  split; [by rewrite take_drop|]. rewrite length_take. lia.
Qed.

Lemma be32_be_value bs : length bs = 4%nat -> be32 (be_value bs) = bs.
Proof.
  destruct bs as [|a [|b [|c [|d [|]]]]]; try done. intros _.
  unfold be_value, be32. cbn [fold_left]. byte_bounds.
  f_equal; [|f_equal; [|f_equal; [|f_equal]]]; apply Z_of_byte_inj; rewrite Z_of_byte_of_Z;
    Z.to_euclidean_division_equations; lia.
Qed.

Lemma be_value_range bs : length bs = 4%nat -> isU 32 (be_value bs).
Proof.
  destruct bs as [|a [|b [|c [|d [|]]]]]; try done. intros _.
  unfold be_value, isU. cbn [fold_left]. byte_bounds. lia.
Qed.

Lemma be_value_1 b : be_value [b] = Z_of_byte b.
Proof. unfold be_value. cbn [fold_left]. lia. Qed.

(** ** [crc32.ChecksumIEEE]: reflected polynomial [0xEDB88320]. *)

Definition crc_poly : Z := 3988292384.

Definition crc_shift (c : Z) : Z :=
  if Z.odd c then Z.lxor (Z.shiftr c 1) crc_poly else Z.shiftr c 1.

Definition crc_byte (c : Z) (b : byte) : Z :=
  Nat.iter 8 crc_shift (Z.lxor c (Z_of_byte b)).

Definition ChecksumIEEE (data : list byte) : Z :=
  Z.lxor (fold_left crc_byte data 4294967295) 4294967295.

(** The check value of the algorithm. *)
Example ChecksumIEEE_check : ChecksumIEEE (String.list_byte_of_string "123456789") = 3421780262.
Proof. reflexivity. Qed.

(** ** Durations ([time]): nanoseconds in 64 bits; [Time.Sub] saturates *)

Definition Millisecond : Z := 1000000.
Definition Second : Z := 1000 * Millisecond.
Definition time_Sub (t u : Z) : Z := Z.max minInt64 (Z.min maxInt64 (t - u)).

Lemma time_Sub_range t u : isI64 (time_Sub t u).
Proof. unfold isI64, time_Sub, minInt64, maxInt64. lia. Qed.
End GoStd.
