(* ===== verification/GoStrings.v ===== *)
(** * The [strings] functions of Go's standard library that the code calls

    On byte strings, with the lemmas the SQL and logging code needs: how often a
    byte occurs, and what concatenation, joining and replacing do to that. *)

From stdpp Require Import sorting.
From S2P Require Import Prelude GoStd.
Import GoStd.

Module GoStrings.

(** How often [c] occurs in [s] ([strings.Count] of a one-byte string). *)
Fixpoint count (c : ascii) (s : string) : Z :=
  match s with
  | EmptyString => 0
  | String a s' => (if Ascii.eqb a c then 1 else 0) + count c s'
  end.

(** [strings.Split(s, sep)] for a one-byte separator. *)
Fixpoint split_loop (sep : ascii) (s cur : string) : list string :=
  match s with
  | EmptyString => [cur]
  | String a s' =>
      if Ascii.eqb a sep then cur :: split_loop sep s' EmptyString
      else split_loop sep s' (cur +:+ String a EmptyString)
  end.
Definition split (sep : ascii) (s : string) : list string := split_loop sep s EmptyString.

(** The order of bytes, and [sort.Strings]. *)
Definition str_le (s t : string) : Prop := String.leb s t = true.

#[export] Instance str_le_dec s t : Decision (str_le s t).
Proof. unfold str_le. apply _. Defined.

#[export] Instance str_le_total : base.Total str_le.
Proof. intros s t. unfold str_le. apply String.leb_total. Qed.

Definition sort_Strings (l : list string) : list string := merge_sort str_le l.

(** [strings.TrimLeft], [strings.Trim] with a cutset of one byte. *)
Fixpoint trim_left_char (c : ascii) (s : string) : string :=
  match s with
  | String a s' => if Ascii.eqb a c then trim_left_char c s' else s
  | EmptyString => EmptyString
  end.
Definition trim_right_char (c : ascii) (s : string) : string :=
  rev_string (trim_left_char c (rev_string s EmptyString)) EmptyString.
Definition trim_char (c : ascii) (s : string) : string := trim_right_char c (trim_left_char c s).

(** [strings.Trim(s, cutset)]; the cutset as a predicate. *)
Fixpoint trim_left_set (p : ascii -> bool) (s : string) : string :=
  match s with
  | String a s' => if p a then trim_left_set p s' else s
  | EmptyString => EmptyString
  end.
Definition trim_set (p : ascii -> bool) (s : string) : string :=
  rev_string (trim_left_set p (rev_string (trim_left_set p s) EmptyString)) EmptyString.

(** [strings.Replace(s, old, new, 1)] for a one-byte [old]. *)
Fixpoint replace_first (old : ascii) (new s : string) : string :=
  match s with
  | EmptyString => EmptyString
  | String a s' => if Ascii.eqb a old then new +:+ s' else String a (replace_first old new s')
  end.

(** [s[n:]] *)
Fixpoint skip (n : nat) (s : string) : string :=
  match n, s with
  | S n', String _ s' => skip n' s'
  | _, _ => s
  end.

(** [strings.ReplaceAll(s, old, new)] for a non-empty [old]; the fuel is [length s]. *)
Fixpoint replace_all_loop (fuel : nat) (old new s : string) : string :=
  match fuel, s with
  | S fuel', String a s' =>
      if String.prefix old s then new +:+ replace_all_loop fuel' old new (skip (String.length old) s)
      else String a (replace_all_loop fuel' old new s')
  | _, _ => s
  end.
Definition replace_all (old new s : string) : string := replace_all_loop (String.length s) old new s.

(** [strings.Split(s, sep)] for a non-empty separator. *)
Fixpoint split_on_loop (fuel : nat) (sep s cur : string) : list string :=
  match fuel, s with
  | S fuel', String a s' =>
      if String.prefix sep s then cur :: split_on_loop fuel' sep (skip (String.length sep) s) EmptyString
      else split_on_loop fuel' sep s' (cur +:+ String a EmptyString)
  | _, _ => [cur +:+ s]
  end.
Definition split_on (sep s : string) : list string := split_on_loop (String.length s) sep s EmptyString.

(** [strings.Index] and [strings.LastIndex] of a one-byte string; -1 if absent. *)
Fixpoint index_loop (c : ascii) (s : string) (i : Z) : Z :=
  match s with
  | EmptyString => -1
  | String a s' => if Ascii.eqb a c then i else index_loop c s' (i + 1)
  end.
Definition index_char (c : ascii) (s : string) : Z := index_loop c s 0.

Fixpoint last_index_loop (c : ascii) (s : string) (i found : Z) : Z :=
  match s with
  | EmptyString => found
  | String a s' => last_index_loop c s' (i + 1) (if Ascii.eqb a c then i else found)
  end.
Definition last_index_char (c : ascii) (s : string) : Z := last_index_loop c s 0 (-1).

(** [strings.HasSuffix] *)
Definition has_suffix (suf s : string) : bool :=
  String.prefix (rev_string suf EmptyString) (rev_string s EmptyString).

(** ** Counting *)

(** [time.ParseDuration]: a sign and numbers with units.  A fraction is taken exactly,
    which Go's floating point gives too when the unit divides by its scale. *)
Definition duration_unit (u : string) : option Z :=
  if decide (u = "ns") then Some 1
  else if decide (u = "us") then Some 1000
  else if decide (u = String "194" (String "181" "s")) then Some 1000
  else if decide (u = String "206" (String "188" "s")) then Some 1000
  else if decide (u = "ms") then Some 1000000
  else if decide (u = "s") then Some 1000000000
  else if decide (u = "m") then Some 60000000000
  else if decide (u = "h") then Some 3600000000000
  else None.

Fixpoint leading_int (s : string) (x : Z) : option (Z * string) :=
  match s with
  | String a s' =>
      match digit a with
      | Some d => if 2 ^ 63 / 10 <? x then None else
                  if 2 ^ 63 <? x * 10 + d then None else leading_int s' (x * 10 + d)
      | None => Some (x, s)
      end
  | EmptyString => Some (x, s)
  end.

Fixpoint leading_fraction (s : string) (x scale : Z) (overflow : bool) : Z * Z * string :=
  match s with
  | String a s' =>
      match digit a with
      | Some d =>
          if overflow || (maxInt64 / 10 <? x) || (2 ^ 63 <? x * 10 + d) then leading_fraction s' x scale true
          else leading_fraction s' (x * 10 + d) (scale * 10) false
      | None => (x, scale, s)
      end
  | EmptyString => (x, scale, s)
  end.

Definition is_digit (a : ascii) : bool := match digit a with Some _ => true | None => false end.

Fixpoint take_unit (s u : string) : string * string :=
  match s with
  | String a s' => if Ascii.eqb a "." || is_digit a then (u, s) else take_unit s' (u +:+ String a EmptyString)
  | EmptyString => (u, s)
  end.

Definition duration_part (s : string) : option (Z * string) :=
  match s with
  | String a _ =>
      if negb (Ascii.eqb a "." || is_digit a) then None else
      '(v, s1) ← leading_int s 0;
      let '(f, scale, s2) :=
        match s1 with
        | String "." s' => leading_fraction s' 0 1 false
        | _ => (0, 1, s1)
        end in
      if negb (is_digit a) && (scale =? 1) then None else
      let '(u, s3) := take_unit s2 EmptyString in
      if decide (u = EmptyString) then None else
      unit ← duration_unit u;
      if 2 ^ 63 / unit <? v then None else
      let v := v * unit + f * unit / scale in
      if 2 ^ 63 <? v then None else Some (v, s3)
  | EmptyString => None
  end.

(** The fuel is the length of the text. *)
Fixpoint duration_loop (fuel : nat) (s : string) (d : Z) : option Z :=
  match s, fuel with
  | EmptyString, _ => Some d
  | _, O => None
  | _, S fuel' =>
      '(v, s') ← duration_part s;
      if 2 ^ 63 <? d + v then None else duration_loop fuel' s' (d + v)
  end.

Definition ParseDuration (s : string) : option Z :=
  let '(neg, s) :=
    match s with
    | String "-" s' => (true, s')
    | String "+" s' => (false, s')
    | _ => (false, s)
    end in
  if decide (s = "0") then Some 0
  else if decide (s = EmptyString) then None
  else d ← duration_loop (String.length s) s 0;
       if neg then Some (- d) else if maxInt64 <? d then None else Some d.

Example ParseDuration_ex : map ParseDuration ["200ms"; "1.5s"; "-1h2m"; "5"; ".s"; "2540400h"] =
  [Some 200000000; Some 1500000000; Some (-3720000000000); None; None; Some 9145440000000000000].
Proof. vm_compute. reflexivity. Qed.


Lemma count_app c s t : count c (s +:+ t) = count c s + count c t.
Proof. induction s as [|a s IH]; simpl; [done|]. rewrite IH. lia. Qed.

Lemma count_nonneg c s : 0 <= count c s.
Proof. induction s as [|a s IH]; simpl; [done|]. destruct (Ascii.eqb a c); lia. Qed.

Definition counts (c : ascii) (l : list string) : Z := foldr (fun s n => count c s + n) 0 l.

Lemma counts_app c l k : counts c (l ++ k) = counts c l + counts c k.
Proof. unfold counts. induction l as [|s l IH]; simpl; [done|]. rewrite IH. lia. Qed.

Lemma count_join c sep l : count c sep = 0 -> count c (join sep l) = counts c l.
Proof.
  intros Hs. induction l as [|s [|t l] IH]; [done|simpl; lia|].
  change (join sep (s :: t :: l)) with (s +:+ sep +:+ join sep (t :: l)).
  rewrite !count_app, IH, Hs. simpl. lia.
Qed.

Lemma count_rev c s acc : count c (rev_string s acc) = count c s + count c acc.
Proof.
  revert acc. induction s as [|a s IH]; intros acc; simpl; [done|]. rewrite IH. simpl. lia.
Qed.

Lemma count_trim_left c d s : count c (trim_left_char d s) <= count c s.
Proof.
  induction s as [|a s IH]; simpl; [done|].
  destruct (Ascii.eqb a d); destruct (Ascii.eqb a c) eqn:E; simpl; rewrite ?E; lia.
Qed.

Lemma count_trim c d s : count c s = 0 -> count c (trim_char d s) = 0.
Proof.
  intros H. unfold trim_char, trim_right_char. rewrite count_rev. simpl.
  pose proof (count_trim_left c d s). pose proof (count_nonneg c (trim_left_char d s)).
  pose proof (count_trim_left c d (rev_string (trim_left_char d s) EmptyString)) as H2.
  rewrite count_rev in H2. simpl in H2.
  pose proof (count_nonneg c (trim_left_char d (rev_string (trim_left_char d s) EmptyString))). lia.
Qed.

(** ** Characters *)

Lemma string_app_assoc (s t u : string) : (s +:+ t) +:+ u = s +:+ t +:+ u.
Proof. induction s as [|a s IH]; [done|]. exact (f_equal (String a) IH). Qed.

Lemma string_app_nil (s : string) : s +:+ EmptyString = s.
Proof. induction s as [|a s IH]; [done|]. exact (f_equal (String a) IH). Qed.

Lemma join_empty_cons x l : join EmptyString (x :: l) = x +:+ join EmptyString l.
Proof. destruct l as [|y l]; [symmetry; apply string_app_nil|done]. Qed.

Lemma join_empty_snoc l x : join EmptyString (l ++ [x]) = join EmptyString l +:+ x.
Proof.
  induction l as [|y l IH]; [done|]. change ((y :: l) ++ [x]) with (y :: (l ++ [x])).
  by rewrite !join_empty_cons, IH, string_app_assoc.
Qed.

Lemma rev_string_app s t acc : rev_string (s +:+ t) acc = rev_string t (rev_string s acc).
Proof. revert acc. induction s as [|a s IH]; intros acc; [done|]. apply IH. Qed.

Lemma rev_string_rev s acc acc' : rev_string (rev_string s acc) acc' = rev_string acc (s +:+ acc').
Proof. revert acc. induction s as [|a s IH]; intros acc; [done|]. cbn [rev_string]. by rewrite IH. Qed.

Lemma rev_string_acc s acc : rev_string s acc = rev_string s EmptyString +:+ acc.
Proof.
  revert acc. induction s as [|a s IH]; intros acc; [done|]. cbn [rev_string].
  rewrite IH, (IH (String a EmptyString)). by rewrite string_app_assoc.
Qed.

Lemma prefix_app (s t : string) : String.prefix s (s +:+ t) = true.
Proof. induction s as [|a s IH]; [by destruct t|]. simpl. by destruct (ascii_dec a a). Qed.

Lemma prefix_inv (s t : string) : String.prefix s t = true -> exists u, t = s +:+ u.
Proof.
  revert t. induction s as [|a s IH]; intros t H; [by exists t|]. destruct t as [|b t]; [done|].
  cbn [String.prefix] in H. destruct (ascii_dec a b) as [<-|]; [|done].
  destruct (IH t H) as [u ->]. by exists u.
Qed.

(** ** Positions *)

Lemma string_length_app (s t : string) : String.length (s +:+ t) = (String.length s + String.length t)%nat.
Proof. induction s as [|a s IH]; [done|]. simpl. exact (f_equal S IH). Qed.

Lemma index_loop_found c s t i : count c s = 0 ->
  index_loop c (s +:+ String c t) i = i + Z.of_nat (String.length s).
Proof.
  revert i. induction s as [|a s IH]; intros i H; simpl.
  - rewrite Ascii.eqb_refl. lia.
  - simpl in H. pose proof (count_nonneg c s). destruct (Ascii.eqb a c); [lia|]. rewrite IH by lia. lia.
Qed.

Lemma index_char_found c s t : count c s = 0 -> index_char c (s +:+ String c t) = Z.of_nat (String.length s).
Proof. intros. unfold index_char. by rewrite index_loop_found. Qed.

Lemma index_loop_range c s i : i >= 0 -> -1 <= index_loop c s i < i + Z.of_nat (String.length s) \/ index_loop c s i = -1.
Proof.
  revert i. induction s as [|a s IH]; intros i Hi; simpl; [by right|].
  destruct (Ascii.eqb a c); [left; lia|]. destruct (IH (i + 1)) as [H|H]; [lia| |by right]. left; lia.
Qed.

Lemma index_char_range c s : -1 <= index_char c s < Z.of_nat (String.length s) \/ index_char c s = -1.
Proof. apply (index_loop_range c s 0). lia. Qed.

Lemma last_index_none c s i found : count c s = 0 -> last_index_loop c s i found = found.
Proof.
  revert i. induction s as [|a s IH]; intros i H; simpl; [done|]. simpl in H. pose proof (count_nonneg c s).
  destruct (Ascii.eqb a c); [lia|]. apply IH. lia.
Qed.

Lemma last_index_loop_found c s t i found : count c t = 0 ->
  last_index_loop c (s +:+ String c t) i found = i + Z.of_nat (String.length s).
Proof.
  intros Ht. revert i found. induction s as [|a s IH]; intros i found; simpl.
  - rewrite Ascii.eqb_refl, last_index_none by done. lia.
  - rewrite IH. lia.
Qed.

Lemma last_index_char_found c s t : count c t = 0 -> last_index_char c (s +:+ String c t) = Z.of_nat (String.length s).
Proof. intros. unfold last_index_char. by rewrite last_index_loop_found. Qed.

Lemma last_index_loop_range c s i found : found < i -> found <= last_index_loop c s i found < i + Z.of_nat (String.length s).
Proof.
  revert i found. induction s as [|a s IH]; intros i found H; simpl; [lia|].
  destruct (Ascii.eqb a c).
  - pose proof (IH (i + 1) i). lia.
  - pose proof (IH (i + 1) found). lia.
Qed.

Lemma last_index_char_range c s : -1 <= last_index_char c s < Z.of_nat (String.length s).
Proof. unfold last_index_char. pose proof (last_index_loop_range c s 0 (-1)). lia. Qed.

Lemma substring_prefix (s t : string) : String.substring 0 (String.length s) (s +:+ t) = s.
Proof. induction s as [|a s IH]; simpl; [by destruct t|]. exact (f_equal (String a) IH). Qed.

Lemma substring_middle (r s t : string) : String.substring (String.length r) (String.length s) (r +:+ s +:+ t) = s.
Proof. induction r as [|a r IH]; [exact (substring_prefix s t)|]. exact IH. Qed.

(** ** Numbers and separators *)

Lemma count_pretty_char c x : digit c = None -> (x < 10)%N -> Ascii.eqb (pretty_N_char x) c = false.
Proof. intros Hc Hx. apply Ascii.eqb_neq. intros <-. by rewrite digit_pretty in Hc. Qed.

Lemma count_pretty_go c x s : digit c = None -> count c (pretty_N_go x s) = count c s.
Proof.
  intros Hc. revert s. induction (N.lt_wf_0 x) as [x _ IH]; intros s.
  destruct (decide (x = 0)%N) as [->|Hne]; [done|]. rewrite pretty_N_go_step by lia.
  destruct (div_mod_10 x) as (q & r & -> & -> & Hqr & Hq & Hr); [lia|]. rewrite IH by done. cbn [count].
  by rewrite count_pretty_char.
Qed.

Lemma count_itoa c z : digit c = None -> c ≠ "-"%char -> count c (itoa z) = 0.
Proof.
  intros Hc Hm. destruct z as [|p|p]; unfold pretty, pretty_Z.
  - change (count c (String (pretty_N_char 0) EmptyString) = 0). cbn [count]. by rewrite count_pretty_char.
  - unfold pretty, pretty_positive, pretty, pretty_N. rewrite decide_False by done. by rewrite count_pretty_go.
  - change ("-" +:+ pretty p) with (String "-" (pretty (Npos p))). cbn [count].
    rewrite (proj2 (Ascii.eqb_neq "-" c)) by done.
    unfold pretty, pretty_N. rewrite decide_False by done. by rewrite count_pretty_go.
Qed.

Lemma prefix_other c sep a s : a ≠ c -> String.prefix (String c sep) (String a s) = false.
Proof. intros H. cbn [String.prefix]. by destruct (ascii_dec c a). Qed.

Lemma skip_app s t : skip (String.length s) (s +:+ t) = t.
Proof. induction s as [|a s IH]; [by destruct t|exact IH]. Qed.

Lemma split_on_loop_none n c sep s cur : count c s = 0 -> (String.length s <= n)%nat ->
  split_on_loop n (String c sep) s cur = [cur +:+ s].
Proof.
  revert s cur. induction n as [|n IH]; intros s cur Hs Hn; [done|]. destruct s as [|a s]; [done|].
  cbn [count] in Hs. pose proof (count_nonneg c s). destruct (Ascii.eqb_spec a c) as [->|Hne]; [lia|].
  cbn [split_on_loop]. rewrite prefix_other by done. cbn [String.length] in Hn. rewrite IH by lia.
  by rewrite string_app_assoc.
Qed.

Lemma split_on_loop_app n c sep s t cur : count c s = 0 -> count c t = 0 ->
  (String.length s + S (String.length sep) + String.length t <= n)%nat ->
  split_on_loop n (String c sep) (s +:+ String c sep +:+ t) cur = [cur +:+ s; t].
Proof.
  revert n cur. induction s as [|a s IH]; intros n cur Hs Ht Hn.
  - destruct n as [|n]; [simpl in Hn; lia|]. change (EmptyString +:+ String c sep +:+ t) with (String c (sep +:+ t)).
    cbn [split_on_loop]. change (String c (sep +:+ t)) with (String c sep +:+ t). rewrite prefix_app, skip_app.
    rewrite split_on_loop_none by (simpl in Hn; try done; lia). by rewrite string_app_nil.
  - cbn [count] in Hs. pose proof (count_nonneg c s). destruct (Ascii.eqb_spec a c) as [->|Hne]; [lia|].
    destruct n as [|n]; [simpl in Hn; lia|].
    change (String a s +:+ String c sep +:+ t) with (String a (s +:+ String c sep +:+ t)). cbn [split_on_loop].
    rewrite prefix_other by done. cbn [String.length] in Hn. rewrite IH by (try done; lia).
    by rewrite string_app_assoc.
Qed.

(** Splitting takes a text apart at the only separator it has. *)
Lemma split_on_app c sep s t : count c s = 0 -> count c t = 0 ->
  split_on (String c sep) (s +:+ String c sep +:+ t) = [s; t].
Proof.
  intros Hs Ht. unfold split_on. rewrite split_on_loop_app; [done|done|done|].
  rewrite !string_length_app. simpl. lia.
Qed.

Lemma string_app_inj (s s' t t' : string) : String.length s = String.length s' -> s +:+ t = s' +:+ t' -> s = s' /\ t = t'.
Proof.
  revert s'. induction s as [|a s IH]; intros [|b s'] Hl E; try done.
  injection E as -> E. injection Hl as Hl. by destruct (IH s' Hl E) as [-> ->].
Qed.

(** The last occurrence of a character takes a text apart. *)
Lemma last_sep_inj c s t s' t' : count c t = 0 -> count c t' = 0 ->
  s +:+ String c t = s' +:+ String c t' -> s = s' /\ t = t'.
Proof.
  intros Ht Ht' E. pose proof (last_index_char_found c s t Ht) as H1. pose proof (last_index_char_found c s' t' Ht') as H2.
  rewrite E in H1. destruct (string_app_inj s s' (String c t) (String c t')) as [-> [= ->]]; [lia|done|done].
Qed.
End GoStrings.
