(* ===== verification/GoTime.v ===== *)
(** * The parts of Go's [time] package the logging code calls

    An instant with the offset of its zone, the civil date and clock of an instant,
    and the two-digit layouts of [Format] and [Sprintf].  A location is a fixed
    offset from UTC: what [AddDate] does in an hour that a change of the clocks
    skips or repeats is not covered. *)

From S2P Require Import Prelude GoStd GoStrings.
Import GoStd GoStrings.

Module GoTime.

(** [UnixNano], and the offset of the location in seconds. *)
Record Time : Type := mkTime { UnixNano : Z; offset : Z }.

#[export] Instance Time_eq_dec : EqDecision Time.
Proof. solve_decision. Defined.

(** The second an instant lies in, counted in the zone. *)
Definition local_second (t : Time) : Z := UnixNano t / Second + offset t.

Definition day_seconds : Z := 86400.
Definition local_day (t : Time) : Z := local_second t / day_seconds.
Definition day_second (t : Time) : Z := local_second t mod day_seconds.

Definition Hour (t : Time) : Z := day_second t / 3600.
Definition Minute (t : Time) : Z := day_second t mod 3600 / 60.
Definition second (t : Time) : Z := day_second t mod 60.
Definition Nanosecond (t : Time) : Z := UnixNano t mod Second.

(** Year, month and day of a day counted from 1970-01-01 in the Gregorian calendar:
    years run from March, in eras of 400 years. *)
Definition civil (days : Z) : Z * Z * Z :=
  let z := days + 719468 in
  let era := z / 146097 in
  let doe := z mod 146097 in
  let yoe := (doe - doe / 1460 + doe / 36524 - doe / 146096) / 365 in
  let doy := doe - (365 * yoe + yoe / 4 - yoe / 100) in
  let mp := (5 * doy + 2) / 153 in
  let month := if mp <? 10 then mp + 3 else mp - 9 in
  (yoe + era * 400 + (if month <=? 2 then 1 else 0), month, doy - (153 * mp + 2) / 5 + 1).

Definition Year (t : Time) : Z := (civil (local_day t)).1.1.
Definition Month (t : Time) : Z := (civil (local_day t)).1.2.
Definition Day (t : Time) : Z := (civil (local_day t)).2.

(** [t.AddDate(0, 0, n)] and [t.Add(d)]. *)
Definition AddDays (n : Z) (t : Time) : Time := mkTime (UnixNano t + n * day_seconds * Second) (offset t).
Definition Add (d : Z) (t : Time) : Time := mkTime (UnixNano t + d) (offset t).

Definition Hour_ : Z := 3600 * Second.

Fixpoint zeros (n : nat) : string :=
  match n with O => EmptyString | S n' => String "0" (zeros n') end.

(** [%0wd] of a number that is not negative. *)
Definition zero_pad (w : nat) (z : Z) : string :=
  let s := itoa z in zeros (w - String.length s) +:+ s.

(** [Format("20060102")] and [Format("2006010215")] *)
Definition format_date (t : Time) : string := zero_pad 4 (Year t) +:+ zero_pad 2 (Month t) +:+ zero_pad 2 (Day t).
Definition format_date_hour (t : Time) : string := format_date t +:+ zero_pad 2 (Hour t).

Example civil_epoch : civil 0 = (1970, 1, 1). Proof. reflexivity. Qed.
Example civil_leap : civil 11016 = (2000, 2, 29). Proof. reflexivity. Qed.
Example civil_before : civil (-1) = (1969, 12, 31). Proof. reflexivity. Qed.
Example civil_century : civil 47540 = (2100, 2, 28) /\ civil 47541 = (2100, 3, 1). Proof. split; reflexivity. Qed.

Lemma Nanosecond_range t : 0 <= Nanosecond t < Second.
Proof. apply Z.mod_pos_bound. reflexivity. Qed.

(** The date and the clock down to the second depend on the second and the zone only. *)
Lemma same_second t u : UnixNano t / Second = UnixNano u / Second -> offset t = offset u ->
  local_second t = local_second u.
Proof. unfold local_second. by intros -> ->. Qed.

Lemma zeros_length n : String.length (zeros n) = n.
Proof. induction n as [|n IH]; simpl; congruence. Qed.

Lemma zeros_count c n : c ≠ "0"%char -> count c (zeros n) = 0.
Proof.
  intros Hc. induction n as [|n IH]; [done|]. cbn [zeros count]. rewrite IH.
  destruct (Ascii.eqb_spec "0" c); [congruence|lia].
Qed.

Lemma count_zero_pad c w z : digit c = None -> c ≠ "-"%char -> count c (zero_pad w z) = 0.
Proof.
  intros Hd Hc. unfold zero_pad. cbv zeta. rewrite count_app, count_itoa by done.
  rewrite zeros_count; [done|]. intros ->. done.
Qed.

End GoTime.
