(* ===== verification/GoUrl.v ===== *)
(** * The parts of Go's [net/url] and [net/http] the HTTP client calls

    Query strings with their escapes, and the canonical form of header names. *)

From stdpp Require Import sorting.
From S2P Require Import Prelude GoStd GoStrings.
Import GoStd GoStrings.

Module GoUrl.

Abbreviation Values := (gmap string (list string)).

(** The order in which a map is ranged over. *)
Class RangeOrder := {
  range : forall {A}, gmap string A -> list (string * A);
  range_perm : forall {A} (m : gmap string A), range m ≡ₚ map_to_list m
}.

(** [Values.Add] and [Header.Add] of a canonical key. *)
Definition add (k v : string) (m : Values) : Values := <[k := default [] (m !! k) ++ [v]]> m.

(** ** Escapes *)

Definition code (a : ascii) : Z := Z.of_N (N_of_ascii a).
Definition between (lo hi : ascii) (a : ascii) : bool := (code lo <=? code a) && (code a <=? code hi).
Definition is_upper (a : ascii) : bool := between "A" "Z" a.
Definition is_lower (a : ascii) : bool := between "a" "z" a.

Definition unreserved (a : ascii) : bool :=
  is_upper a || is_lower a || between "0" "9" a || Ascii.eqb a "-" || Ascii.eqb a "_" || Ascii.eqb a "." || Ascii.eqb a "~".

Definition hex_digit (z : Z) : ascii := ascii_of_N (Z.to_N (if z <? 10 then 48 + z else 55 + z)).

Definition escape_byte (a : ascii) : string :=
  if unreserved a then String a EmptyString
  else if Ascii.eqb a " " then "+"
  else String "%" (String (hex_digit (code a / 16)) (String (hex_digit (code a mod 16)) EmptyString)).

Fixpoint QueryEscape (s : string) : string :=
  match s with EmptyString => EmptyString | String a s' => escape_byte a +:+ QueryEscape s' end.

Definition unhex (a : ascii) : option Z :=
  if between "0" "9" a then Some (code a - 48)
  else if between "a" "f" a then Some (code a - 87)
  else if between "A" "F" a then Some (code a - 55)
  else None.

Fixpoint QueryUnescape (s : string) : option string :=
  match s with
  | EmptyString => Some EmptyString
  | String a s' =>
      if Ascii.eqb a "%" then
        match s' with
        | String h (String l s'') =>
            x ← unhex h; y ← unhex l; t ← QueryUnescape s'';
            Some (String (ascii_of_N (Z.to_N (16 * x + y))) t)
        | _ => None
        end
      else t ← QueryUnescape s'; Some (String (if Ascii.eqb a "+" then " "%char else a) t)
  end.

Lemma unescape_byte a t : QueryUnescape (escape_byte a +:+ t) = String a <$> QueryUnescape t.
Proof.
  assert (forall o : option string, o ≫= (fun t => Some (String a t)) = String a <$> o) as H by by intros [].
  rewrite <- H. clear H. by destruct a as [[] [] [] [] [] [] [] []].
Qed.

Lemma unescape_escape s : QueryUnescape (QueryEscape s) = Some s.
Proof. induction s as [|a s IH]; [done|]. cbn [QueryEscape]. by rewrite unescape_byte, IH. Qed.

Lemma count_escape c s : c = "&"%char \/ c = "="%char \/ c = ";"%char -> count c (QueryEscape s) = 0.
Proof.
  intros Hc. induction s as [|a s IH]; [done|]. cbn [QueryEscape]. rewrite count_app, IH.
  destruct Hc as [-> | [-> | ->]]; by destruct a as [[] [] [] [] [] [] [] []].
Qed.

(** ** Query strings *)

Definition pair_text (kv : string * string) : string := QueryEscape kv.1 +:+ "=" +:+ QueryEscape kv.2.

(** The keys in order, each with its values. *)
Definition sorted_pairs (m : Values) : list (string * string) :=
  concat (map (fun k => map (pair k) (default [] (m !! k))) (sort_Strings (elements (dom m)))).

Definition Encode (m : Values) : string := join "&" (map pair_text (sorted_pairs m)).

(** A part at its first [=]. *)
Fixpoint cut_eq (s : string) : string * string :=
  match s with
  | EmptyString => (EmptyString, EmptyString)
  | String a s' => if Ascii.eqb a "=" then (EmptyString, s') else let '(k, v) := cut_eq s' in (String a k, v)
  end.

(** Parts that do not decode are left out, and are an error. *)
Fixpoint parse_parts (parts : list string) (m : Values) : Values * bool :=
  match parts with
  | [] => (m, true)
  | EmptyString :: parts => parse_parts parts m
  | part :: parts =>
      let bad := ((parse_parts parts m).1, false) in
      if 0 <? count ";" part then bad else
      let '(k, v) := cut_eq part in
      match QueryUnescape k, QueryUnescape v with
      | Some k, Some v => parse_parts parts (add k v m)
      | _, _ => bad
      end
  end.

(** [url.ParseQuery], [None] for its error; and [URL.Query], which takes what there is. *)
Definition ParseQuery (s : string) : option Values :=
  let '(m, ok) := parse_parts (split "&" s) ∅ in if ok then Some m else None.
Definition parsed_query (s : string) : Values := (parse_parts (split "&" s) ∅).1.

Lemma split_loop_none c s cur : count c s = 0 -> split_loop c s cur = [cur +:+ s].
Proof.
  revert cur. induction s as [|a s IH]; intros cur H; cbn [split_loop]; [by rewrite string_app_nil|].
  cbn [count] in H. pose proof (count_nonneg c s). destruct (Ascii.eqb a c); [lia|]. rewrite IH by lia.
  by rewrite string_app_assoc.
Qed.

Lemma split_loop_sep c s t cur : count c s = 0 -> split_loop c (s +:+ String c t) cur = (cur +:+ s) :: split_loop c t EmptyString.
Proof.
  revert cur. induction s as [|a s IH]; intros cur H.
  - change (EmptyString +:+ String c t) with (String c t). cbn [split_loop]. by rewrite (proj2 (Ascii.eqb_eq c c) eq_refl), string_app_nil.
  - cbn [count] in H. pose proof (count_nonneg c s). change (String a s +:+ String c t) with (String a (s +:+ String c t)).
    cbn [split_loop]. destruct (Ascii.eqb a c); [lia|]. rewrite IH by lia. by rewrite string_app_assoc.
Qed.

Lemma split_join c parts : parts ≠ [] -> Forall (fun s => count c s = 0) parts ->
  split c (join (String c EmptyString) parts) = parts.
Proof.
  unfold split. intros Hne Hall. induction Hall as [|s parts Hs Hall IH]; [done|]. destruct parts as [|t parts].
  - by rewrite split_loop_none by done.
  - change (join (String c EmptyString) (s :: t :: parts)) with (s +:+ String c (join (String c EmptyString) (t :: parts))).
    rewrite split_loop_sep by done. f_equal. by apply IH.
Qed.

Lemma cut_eq_pair k v : count "=" k = 0 -> cut_eq (k +:+ "=" +:+ v) = (k, v).
Proof.
  induction k as [|a k IH]; intros H; [done|]. cbn [count] in H. pose proof (count_nonneg "=" k).
  change (String a k +:+ "=" +:+ v) with (String a (k +:+ "=" +:+ v)). cbn [cut_eq].
  destruct (Ascii.eqb a "="); [lia|]. by rewrite IH by lia.
Qed.

Lemma parse_parts_pairs l m : parse_parts (map pair_text l) m = (foldl (fun m kv => add kv.1 kv.2 m) m l, true).
Proof.
  revert m. induction l as [|[k v] l IH]; intros m; [done|]. cbn [map foldl fst snd].
  assert (count ";" (pair_text (k, v)) = 0) as Hc.
  { unfold pair_text. rewrite !count_app, !count_escape by auto. done. }
  assert (cut_eq (pair_text (k, v)) = (QueryEscape k, QueryEscape v)) as Hcut by (apply cut_eq_pair, count_escape; auto).
  destruct (pair_text (k, v)) as [|a part] eqn:E.
  { unfold pair_text in E. cbn in E. by destruct (QueryEscape k). }
  cbn [parse_parts]. rewrite Hc. cbn [Z.ltb Z.compare]. rewrite Hcut, !unescape_escape. apply IH.
Qed.

Lemma foldl_add_key k vs m : foldl (fun m kv => add kv.1 kv.2 m) m (map (pair k) vs) =
  match vs with [] => m | _ => <[k := default [] (m !! k) ++ vs]> m end.
Proof.
  revert m. induction vs as [|v vs IH]; intros m; [done|]. cbn [map foldl fst snd]. rewrite IH. unfold add.
  destruct vs as [|v' vs]; [done|]. rewrite lookup_insert_eq, insert_insert_eq. cbn. by rewrite <- app_assoc.
Qed.

(** The values of the keys of a list, added to an empty map. *)
Lemma foldl_add_keys (m : Values) ks k : NoDup ks ->
  foldl (fun m kv => add kv.1 kv.2 m) ∅ (concat (map (fun k => map (pair k) (default [] (m !! k))) ks)) !! k =
    if bool_decide (k ∈ ks) then (match default [] (m !! k) with [] => None | vs => Some vs end) else None.
Proof.
  induction ks as [|k' ks IH] using rev_ind; intros Hn.
  { by rewrite bool_decide_false by apply not_elem_of_nil. }
  apply NoDup_app in Hn as (Hn & Hd & _). rewrite map_app, concat_app, foldl_app. cbn [map concat]. rewrite app_nil_r, foldl_add_key.
  assert (k' ∉ ks) as Hk' by (intros Hk; apply (Hd k' Hk); by left).
  assert (foldl (fun m kv => add kv.1 kv.2 m) ∅ (concat (map (fun k => map (pair k) (default [] (m !! k))) ks)) !! k' = None) as Hnone.
  { clear IH. revert Hk'. generalize (∅ : Values) (lookup_empty (M := gmap string) (A := list string) k'). clear.
    induction ks as [|x ks IH]; intros m0 H0 Hk'; [done|]. apply not_elem_of_cons in Hk' as [Hx Hk'].
    cbn [map concat]. rewrite foldl_app, foldl_add_key. apply IH; [|done].
    destruct (default [] (m !! x)); [done|]. by rewrite lookup_insert_ne by done. }
  specialize (IH Hn). rewrite Hnone. cbn [default from_option app].
  destruct (decide (k = k')) as [->|Hk].
  - rewrite (bool_decide_true (k' ∈ ks ++ [k'])) by (apply elem_of_app; right; by left).
    destruct (default [] (m !! k')) as [|v vs]; [by rewrite Hnone|by rewrite lookup_insert_eq].
  - assert (bool_decide (k ∈ ks ++ [k']) = bool_decide (k ∈ ks)) as ->.
    { apply bool_decide_ext. rewrite elem_of_app, list_elem_of_singleton. naive_solver. }
    destruct (default [] (m !! k')) as [|v vs]; [by rewrite IH|by rewrite lookup_insert_ne, IH by done].
Qed.

(** What is encoded is parsed: a key keeps its values in order, and one without
    values is not sent. *)
Lemma ParseQuery_Encode (m : Values) : ParseQuery (Encode m) = Some (filter (fun kv => kv.2 ≠ []) m).
Proof.
  set (ks := sort_Strings (elements (dom m))).
  assert (ks ≡ₚ elements (dom m)) as Hks by apply merge_sort_Permutation.
  assert (NoDup ks) as Hn by (rewrite Hks; apply NoDup_elements).
  assert (parse_parts (map pair_text (sorted_pairs m)) ∅ = (filter (fun kv => kv.2 ≠ []) m, true)) as H.
  { rewrite parse_parts_pairs. f_equal. apply map_eq. intros k. unfold sorted_pairs. fold ks. rewrite foldl_add_keys by done.
    rewrite map_lookup_filter. destruct (m !! k) as [vs|] eqn:E; cbn.
    - rewrite bool_decide_true; [by destruct vs|]. rewrite Hks, elem_of_elements. by apply elem_of_dom_2 in E.
    - by destruct (bool_decide (k ∈ ks)). }
  unfold ParseQuery, Encode. destruct (sorted_pairs m) as [|kv l] eqn:E; [cbn in H; by injection H as <-|].
  rewrite split_join; [by rewrite H|done|]. apply Forall_map, Forall_forall. intros [k v] _. unfold pair_text.
  rewrite !count_app, !count_escape by auto. done.
Qed.

Definition filled (m : Values) : Prop := map_Forall (fun _ vs => vs ≠ []) m.

Lemma parse_parts_filled parts m : filled m -> filled (parse_parts parts m).1.
Proof.
  revert m. induction parts as [|[|a part] parts IH]; intros m Hm; [done|by apply IH|]. cbn [parse_parts].
  destruct (0 <? _); [by apply IH|]. destruct (cut_eq _) as [k v].
  destruct (QueryUnescape k) as [k'|]; [|by apply IH]. destruct (QueryUnescape v) as [v'|]; [|by apply IH].
  apply IH. unfold add. apply map_Forall_insert_2; [|done]. by destruct (default _ _).
Qed.

Lemma ParseQuery_filled s m : ParseQuery s = Some m -> filled m.
Proof.
  unfold ParseQuery. intros H. pose proof (parse_parts_filled (split "&" s) ∅ (map_Forall_empty _)) as Hf.
  destruct (parse_parts _ _) as [m' []]; [|done]. by injection H as <-.
Qed.

(** What is encoded is parsed. *)
Lemma ParseQuery_Encode_filled m : filled m -> ParseQuery (Encode m) = Some m.
Proof.
  intros Hm. rewrite ParseQuery_Encode. f_equal. apply map_filter_id. intros k vs Hk. by apply (Hm k).
Qed.

(** ** Header names *)

(** The bytes of a token. *)
Definition is_token (a : ascii) : bool :=
  is_upper a || is_lower a || between "0" "9" a || (0 <? count a "!#$%&'*+-.^_`|~").

Fixpoint all_bytes (p : ascii -> bool) (s : string) : bool :=
  match s with EmptyString => true | String a s' => p a && all_bytes p s' end.

Definition to_upper (a : ascii) : ascii := if is_lower a then ascii_of_N (Z.to_N (code a - 32)) else a.
Definition to_lower (a : ascii) : ascii := if is_upper a then ascii_of_N (Z.to_N (code a + 32)) else a.

Fixpoint canonical_loop (upper : bool) (s : string) : string :=
  match s with
  | EmptyString => EmptyString
  | String a s' => String (if upper then to_upper a else to_lower a) (canonical_loop (Ascii.eqb a "-") s')
  end.

(** [textproto.CanonicalMIMEHeaderKey] *)
Definition canonical (s : string) : string := if all_bytes is_token s then canonical_loop true s else s.

Definition header_Set (k v : string) (h : Values) : Values := <[canonical k := [v]]> h.
Definition header_Add (k v : string) (h : Values) : Values := add (canonical k) v h.
Definition header_Get (k : string) (h : Values) : string := default EmptyString (head (default [] (h !! canonical k))).

(** [strings.EqualFold] of ASCII texts. *)
Fixpoint map_bytes (f : ascii -> ascii) (s : string) : string :=
  match s with EmptyString => EmptyString | String a s' => String (f a) (map_bytes f s') end.
Definition EqualFold (s t : string) : bool := String.eqb (map_bytes to_lower s) (map_bytes to_lower t).

Example canonical_type : canonical "content-TYPE" = "Content-Type". Proof. reflexivity. Qed.

Lemma lower_cases a l u : to_upper l = u -> to_lower a = l -> a = l \/ a = u.
Proof.
  intros <- <-. destruct a as [[] [] [] [] [] [] [] []]; vm_compute; auto.
Qed.

Lemma canonical_loop_idem b s : all_bytes is_token s = true -> canonical_loop b (canonical_loop b s) = canonical_loop b s.
Proof.
  revert b. induction s as [|a s IH]; intros b H; [done|]. cbn [all_bytes] in H. apply andb_prop in H as [Ha Hs].
  cbn [canonical_loop].
  assert (Ascii.eqb (if b then to_upper a else to_lower a) "-" = Ascii.eqb a "-") as ->.
  { clear. by destruct b, a as [[] [] [] [] [] [] [] []]. }
  rewrite (IH _ Hs). f_equal. clear. by destruct b, a as [[] [] [] [] [] [] [] []].
Qed.

Lemma canonical_loop_token b s : all_bytes is_token s = true -> all_bytes is_token (canonical_loop b s) = true.
Proof.
  revert b. induction s as [|a s IH]; intros b H; [done|]. cbn [all_bytes] in H. apply andb_prop in H as [Ha Hs].
  cbn [canonical_loop all_bytes]. rewrite (IH _ Hs), andb_true_r. revert Ha. clear. by destruct b, a as [[] [] [] [] [] [] [] []].
Qed.

Lemma canonical_idem s : canonical (canonical s) = canonical s.
Proof.
  unfold canonical at 2 3. destruct (all_bytes is_token s) eqn:E; unfold canonical.
  - by rewrite canonical_loop_token, canonical_loop_idem.
  - by rewrite E.
Qed.

End GoUrl.
