(* ===== verification/Network.v ===== *)
(** * The address a request comes from ([utls/network/network.go])

    The parsing of addresses ([net.ParseIP]) is a parameter, and so are the
    addresses of the machine's interfaces. *)

From S2P Require Import Prelude GoStd GoStrings GoUrl.
Import GoStd GoStrings GoUrl.

Module Network.

Section ip.
Context (ParseIP : string -> bool).

(** What of an [http.Request] is looked at. *)
Record Request : Type := mkRequest { Header : Values; RemoteAddr : string }.

Definition nonempty (s : string) : bool := negb (String.eqb s EmptyString).

Definition forwarded (r : Request) : string :=
  let h := header_Get "X-Forwarded-For" (Header r) in
  if nonempty h then
    match split_on ", " h with x :: _ => if ParseIP x then x else EmptyString | [] => EmptyString end
  else EmptyString.

Definition real (r : Request) (ip : string) : string :=
  let h := header_Get "X-Real-IP" (Header r) in
  if String.eqb ip EmptyString && nonempty h && ParseIP h then h else ip.

Definition remote (r : Request) (ip : string) : string :=
  if String.eqb ip EmptyString && nonempty (RemoteAddr r) then
    match split ":" (RemoteAddr r) with [x; _] => if ParseIP x then x else ip | _ => ip end
  else ip.

(** [None] is the error. *)
(* [utls/network/network.go:25-54] GetRealIP *)
Definition GetRealIP (r : Request) : option string :=
  let ip := remote r (real r (forwarded r)) in
  if String.eqb ip EmptyString then None else Some ip.

(* [utls/network/network.go:13-22] IsLocalIP *)
Definition IsLocalIP (r : Request) : option bool :=
  ip ← GetRealIP r; Some (String.eqb ip "127.0.0.1").

(** An address of an interface: [None] for one that is not an [IPNet]. *)
Record IPNet : Type := mkIPNet { ip_text : string; IsLoopback : bool; To4 : bool }.

(* [utls/network/network.go:57-71] GetLocalIP *)
Fixpoint GetLocalIP (addrs : list (option IPNet)) : string :=
  match addrs with
  | [] => EmptyString
  | Some a :: addrs => if negb (IsLoopback a) && To4 a then ip_text a else GetLocalIP addrs
  | None :: addrs => GetLocalIP addrs
  end.

(** The address found is one, and comes from the first of the three places that
    holds an address. *)
Lemma GetRealIP_parsed r ip : GetRealIP r = Some ip -> ParseIP ip = true /\ ip ≠ EmptyString.
Proof.
  unfold GetRealIP. destruct (String.eqb _ _) eqn:E; [done|]. intros [= <-]. apply String.eqb_neq in E. split; [|done].
  unfold remote, real, forwarded in *. revert E. cbv zeta. split_matches; intros; simplify_eq; try done; try congruence.
  all: try by repeat match goal with H : _ && _ = true |- _ => apply andb_prop in H as [? ?] end.
Qed.

Lemma GetLocalIP_spec addrs : GetLocalIP addrs ≠ EmptyString ->
  exists a, Some a ∈ addrs /\ IsLoopback a = false /\ To4 a = true /\ GetLocalIP addrs = ip_text a.
Proof.
  induction addrs as [|[a|] addrs IH]; cbn; [done| |].
  - destruct (IsLoopback a) eqn:E1, (To4 a) eqn:E2; cbn; intros H.
    3: { exists a. split_and!; [by left|done..]. }
    all: destruct (IH H) as (a' & ? & ?); exists a'; split; [by right|done].
  - intros H. destruct (IH H) as (a' & ? & ?). exists a'. split; [by right|done].
Qed.

End ip.

(** A client of IPv6 without the headers has no address. *)
Example ipv6_unknown : GetRealIP (fun _ => true) (mkRequest ∅ "[::1]:8080") = None. Proof. reflexivity. Qed.

End Network.
