(* ===== verification/Derror.v ===== *)
(** * Coded errors ([derror])

    A [*CodeError] is a pointer to a mutable record: [SetMsg] writes through it.
    The package-level errors of the RPC layer are such shared pointers, so the
    records live in a store [errs] indexed by address. *)

From S2P Require Import Prelude.

Module Derror.

(* [derror/error.go:57-61] CodeError *)
Record CodeError : Type := mkCodeError { errCode : Z; errType : string; errMsg : string }.

#[export] Instance CodeError_eq_dec : EqDecision CodeError.
Proof. solve_decision. Defined.

Definition RpcSuccess : Z := 0.
Definition Success : Z := 200.
Definition SystemError : Z := 500.
Definition RpcTimeout : Z := 10001.
Definition RpcOverflow : Z := 10002.
Definition RpcInternalServerError : Z := 10003.
Definition RpcInvalidParam : Z := 10004.

(* [derror/error.go:29-46] ErrMap *)
Definition ErrMap : gmap Z string :=
  list_to_map
    [(RpcSuccess, "ok"); (Success, "ok"); (400, "bad request"); (401, "Unauthorized");
     (403, "Forbidden"); (404, "not found"); (SystemError, "system error");
     (600, "Parameter error"); (701, "db error"); (702, "cache error");
     (RpcTimeout, "timeout error"); (RpcOverflow, "overflow error");
     (RpcInternalServerError, "interval server error"); (RpcInvalidParam, "invalid param")].

Definition UnknownError : string := "unknown error".

(* [derror/error.go:49-55] GetErrorType *)
Definition GetErrorType (code : Z) : string := default UnknownError (ErrMap !! code).

(* [derror/error.go:63-65] CodeError.Code *)
Definition Code (e : CodeError) : Z := errCode e.
(* [derror/error.go:67-69] CodeError.Type *)
Definition Type_ (e : CodeError) : string := errType e.
(* [derror/error.go:71-73] CodeError.Error *)
Definition Error (e : CodeError) : string := errMsg e.

(* [derror/error.go:75-81] CodeError.Detail *)
Definition Detail (e : CodeError) : string :=
  if (errCode e =? Success) || (errCode e =? RpcSuccess) then Error e
  else "Type: " +:+ Type_ e +:+ ", Error: " +:+ Error e.

(* [derror/error.go:83-89] CodeError.String *)
Definition String_ (e : CodeError) : string :=
  if (errCode e =? Success) || (errCode e =? RpcSuccess)
  then "Code: " +:+ itoa (Code e) +:+ ", Type: " +:+ Type_ e +:+ ", Info: " +:+ Error e
  else "Code: " +:+ itoa (Code e) +:+ ", Type: " +:+ Type_ e +:+ ", Error: " +:+ Error e.

(* [derror/error.go:91-93] CodeError.ToString *)
Definition ToString (e : CodeError) : list byte :=
  String.list_byte_of_string ("MaeError[" +:+ Detail e +:+ "]").

(** ** The store of error objects *)

Abbreviation errp := positive.
Abbreviation errs := (gmap errp CodeError).

(* [derror/error.go:95-98] CodeError.SetMsg *)
Definition SetMsg (p : errp) (msg : string) : M errs errp :=
  st ← get;
  match (st : gmap errp CodeError) !! p with
  | Some e =>
      _ ← put (<[p := mkCodeError (errCode e) (errType e) msg]> (st : gmap errp CodeError));
      mret p
  | None => panic "nil pointer dereference"
  end.

(* [derror/error.go:100-106] SetCodeType *)
Definition SetCodeType (code : Z) (errType : string) : CodeError :=
  mkCodeError code errType EmptyString.

Section make.
(** [http.StatusText] and [fmt.Sprintf], as functions of their arguments. *)
Variable StatusText : Z -> string.
Context {arg : Type} (Sprintf : string -> list arg -> string).

(* [derror/error.go:108-117] MakeHttpErrorByStatusCode *)
Definition MakeHttpErrorByStatusCode (statusCode : Z) : CodeError :=
  let statusText := StatusText statusCode in
  mkCodeError statusCode statusText statusText.

(* [derror/error.go:119-132] NewCodeError *)
Definition NewCodeError (code : Z) (format : string) (args : list arg) : CodeError :=
  let eType := GetErrorType code in
  let msg :=
    if (0 <? Z.of_nat (String.length format)) && (0 <? len args)
    then Sprintf format args else format in
  mkCodeError code eType msg.

(* [derror/error.go:134-143] MakeCodeError *)
Definition MakeCodeError (code : Z) (e : string) : CodeError :=
  mkCodeError code (GetErrorType code) e.
End make.

(** ** Lemmas *)

Lemma SetMsg_eq (st : gmap errp CodeError) p e msg : st !! p = Some e ->
  SetMsg p msg st = (Ret p, <[p := mkCodeError (errCode e) (errType e) msg]> st).
Proof. intros Hp. unfold SetMsg. go_run. by rewrite Hp. Qed.

(** [SetMsg] changes the message of one object only, never a code or a type. *)
Lemma SetMsg_code (st st' : gmap errp CodeError) p q msg r :
  SetMsg p msg st = (Ret r, st') -> errCode <$> st' !! q = errCode <$> st !! q.
Proof.
  unfold SetMsg. go_run. destruct (st !! p) as [e|] eqn:E; [|done]. intros [= <- <-].
  destruct (decide (p = q)) as [->|].
  - rewrite lookup_insert_eq, E. done.
  - by rewrite lookup_insert_ne.
Qed.

End Derror.
