(* ===== verification/Utls.v ===== *)
(** * Utilities ([utls]): slices, conversions, dates, sizes, byte masking *)

From S2P Require Import Prelude GoStd.
From Stdlib Require Import Floats.SpecFloat.
Import GoStd.

Module Utls.

(** ** Slices ([slice_util.go], [convert_util.go]) *)

Section slices.
Context {S A : Type}.

(** The body shared by [StringArraySlice] and [Int64ArraySlice]; the sum
    [length+offset] wraps like a Go [int]. *)
Definition ArraySlice (array : list A) (offset length : Z) : M S (list A) :=
  let count := len array in
  if (count =? 0) || (count <=? offset) then mret []
  else if count <? i64 (length + offset) then slice array offset count
  else slice array offset (i64 (offset + length)).
End slices.

(* [utls/slice_util.go:8-19] StringArraySlice *)
Definition StringArraySlice {S} (array : list string) (offset length : Z) : M S (list string) :=
  ArraySlice array offset length.

(* [utls/slice_util.go:21-32] Int64ArraySlice *)
Definition Int64ArraySlice {S} (array : list Z) (offset length : Z) : M S (list Z) :=
  ArraySlice array offset length.

(** [for i := 0; i < groups; i++ { ... }] from [i] on, [n] rounds left. *)
Fixpoint cut_groups {S} (array : list string) (step i : Z) (n : nat) : M S (list (list string)) :=
  match n with
  | O => mret []
  | Datatypes.S n' =>
      subslice ← StringArraySlice array (i64 (i * step)) step;
      ret ← cut_groups array step (i + 1) n';
      mret (if 0 <? len subslice then subslice :: ret else ret)
  end.

(* [utls/slice_util.go:35-52] CutStringSliceByStep *)
Definition CutStringSliceByStep {S} (array : list string) (step : Z)
    : M S (Z * list (list string)) :=
  let slicelen := len array in
  if slicelen <=? step then mret (1, [array])
  else if step =? 0 then panic "integer divide by zero"
  else
    let groups := Z.quot slicelen step in
    let groups := if i64 (groups * step) <? slicelen then groups + 1 else groups in
    ret ← cut_groups array step 0 (Z.to_nat groups);
    mret (groups, ret).

(* [utls/slice_util.go:54-64] Int64ArrayToString *)
Definition Int64ArrayToString (list_ : list Z) (sep : string) : string :=
  if len list_ =? 0 then EmptyString else join sep (map (fun l => itoa l) list_).

(* [utls/slice_util.go:66-76] StringInSlice *)
Fixpoint StringInSlice (a : list string) (s : string) : bool :=
  match a with
  | [] => false
  | v :: a' => if String.eqb s v then true else StringInSlice a' s
  end.

(** What [reflect.ValueOf(v).Kind()] distinguishes in [SliceCutter]. *)
Inductive reflected (A : Type) : Type :=
| RSlice (l : list A)      (* Array, String or Slice *)
| ROther (kind : string).
Arguments RSlice {A} l.
Arguments ROther {A} kind.

Fixpoint cutter_loop {S A} (l : list A) (maxsize turns i : Z) (n : nat) : M S (list (list A)) :=
  match n with
  | O => mret []
  | Datatypes.S n' =>
      if i =? turns then
        if Z.rem (len l) maxsize =? 0 then cutter_loop l maxsize turns (i + 1) n'
        else
          part ← slice l (maxsize * i) (maxsize * i + Z.rem (len l) maxsize);
          ret ← cutter_loop l maxsize turns (i + 1) n';
          mret (part :: ret)
      else
        part ← slice l (maxsize * i) (maxsize * (i + 1));
        ret ← cutter_loop l maxsize turns (i + 1) n';
        mret (part :: ret)
  end.

(* [utls/convert_util.go:224-249] SliceCutter *)
Definition SliceCutter {S A} (v : reflected A) (maxsize : Z)
    : M S (list (list A) * option string) :=
  match v with
  | RSlice l =>
      if maxsize =? 0 then panic "integer divide by zero"
      else
        let turns := Z.quot (len l) maxsize in
        ret ← cutter_loop l maxsize turns 0 (Z.to_nat (turns + 1));
        mret (ret, None)
  | ROther kind => mret ([], Some ("not slice types,kind is " +:+ kind))
  end.

(** *** Correctness of the cutter *)

(** Reference: consecutive chunks of [n] elements, the last one shorter. *)
Fixpoint chunks {A} (n fuel : nat) (l : list A) : list (list A) :=
  match fuel with
  | O => []
  | Datatypes.S f => match l with [] => [] | _ => take n l :: chunks n f (drop n l) end
  end.

Lemma chunks_concat {A} n fuel (l : list A) :
  (0 < n)%nat -> (length l <= fuel)%nat -> concat (chunks n fuel l) = l.
Proof.
  intros Hn. revert l. induction fuel as [|f IH]; intros l Hf.
  { destruct l; simpl in *; [done|lia]. }
  destruct l as [|x l]; [done|]. simpl chunks. simpl concat.
  rewrite IH; [apply take_drop|]. rewrite length_drop. simpl in *. lia.
Qed.

Lemma chunks_fuel {A} n f1 f2 (l : list A) :
  (length l <= n * f1)%nat -> (length l <= n * f2)%nat -> chunks n f1 l = chunks n f2 l.
Proof.
  revert f2 l. induction f1 as [|f1 IH]; intros f2 l H1 H2.
  - destruct l; [by destruct f2|simpl in *; lia].
  - destruct l as [|x l]; [by destruct f2|]. destruct f2 as [|f2]; [simpl in *; lia|].
    cbn [chunks]. f_equal. apply IH; rewrite length_drop; lia.
Qed.

Lemma chunks_bound {A} n fuel (l : list A) :
  (0 < n)%nat -> Forall (fun c => 0 < length c <= n)%nat (chunks n fuel l).
Proof.
  intros Hn. revert l. induction fuel as [|f IH]; intros l; [by constructor|].
  destruct l as [|x l]; [by constructor|]. simpl chunks. constructor; [|done].
  rewrite length_take. simpl. lia.
Qed.

Lemma slice_eq {S A} (l : list A) (lo hi : Z) (s : S) :
  0 <= lo <= hi -> hi <= len l ->
  slice l lo hi s = (Ret (take (Z.to_nat (hi - lo)) (drop (Z.to_nat lo) l)), s).
Proof. intros. unfold slice. by rewrite bool_decide_true. Qed.

Lemma cutter_loop_eq {S A} (l : list A) (m i : Z) (n : nat) (s : S) :
  0 < m -> 0 <= i -> Z.of_nat n = len l / m + 1 - i ->
  cutter_loop l m (len l / m) i n s
    = (Ret (chunks (Z.to_nat m) n (drop (Z.to_nat (m * i)) l)), s).
Proof.
  intros Hm. revert i. induction n as [|n IH]; intros i Hi Hn; [done|].
  pose proof (len_nonneg l) as Hl. pose proof (Z.div_mod (len l) m) as Hdm.
  pose proof (Z.mod_pos_bound (len l) m Hm) as Hmod.
  assert (Z.rem (len l) m = len l mod m) as Hrem by (by apply Z.rem_mod_nonneg).
  cbn [cutter_loop]. destruct (i =? len l / m) eqn:E.
  - apply Z.eqb_eq in E. assert (n = 0)%nat as -> by lia. rewrite Hrem.
    destruct (Z.eqb_spec (len l mod m) 0) as [E0|E0].
    + simpl. rewrite (drop_ge l); [done|]. unfold len in *. nia.
    + go_run. rewrite slice_eq by nia.
      destruct (drop (Z.to_nat (m * i)) l) as [|x d] eqn:Ed.
      * apply (f_equal length) in Ed. rewrite length_drop in Ed. unfold len in *.
        simpl in Ed. nia.
      * rewrite take_ge, take_ge; [done|..]; rewrite <- Ed, length_drop; unfold len in *; nia.
  - apply Z.eqb_neq in E. go_run. rewrite slice_eq by nia. rewrite IH by lia.
    destruct (drop (Z.to_nat (m * i)) l) as [|x d] eqn:Ed.
    + apply (f_equal length) in Ed. rewrite length_drop in Ed. unfold len in *.
      simpl in Ed. nia.
    + rewrite <- Ed, drop_drop. do 3 f_equal; [f_equal; lia|]. do 2 f_equal. lia.
Qed.

(** SliceCutter with a positive chunk size never panics, splits the slice
    into non-empty chunks of at most that size, and their concatenation is the
    input. *)
Theorem SliceCutter_correct {S A} (l : list A) (maxsize : Z) (s : S) :
  0 < maxsize ->
  exists parts, SliceCutter (RSlice l) maxsize s = (Ret (parts, None), s) /\
    concat parts = l /\ Forall (fun p => 0 < len p <= maxsize) parts.
Proof.
  intros Hm. pose proof (len_nonneg l) as Hl. unfold SliceCutter.
  rewrite (proj2 (Z.eqb_neq maxsize 0)) by lia.
  assert (Z.quot (len l) maxsize = len l / maxsize) as -> by (by apply Z.quot_div_nonneg).
  assert (0 <= len l / maxsize) by (by apply Z.div_pos).
  unfold mbind, M_bind. rewrite cutter_loop_eq by lia.
  eexists. split; [done|]. rewrite Z.mul_0_r. change (Z.to_nat 0) with 0%nat. rewrite drop_0.
  split.
  - rewrite (chunks_fuel _ _ (Datatypes.S (length l))).
    + apply chunks_concat; lia.
    + pose proof (Z.div_mod (len l) maxsize). pose proof (Z.mod_pos_bound (len l) maxsize).
      unfold len in *. nia.
    + nia.
  - eapply Forall_impl; [apply chunks_bound; lia|]. intros c. unfold len. simpl. lia.
Qed.

Lemma SliceCutter_correct_witness :
  0 < 35 /\ exists parts, SliceCutter (RSlice (seq 0 80)) 35 tt = (Ret (parts, None), tt).
Proof.
  split; [lia|]. destruct (SliceCutter_correct (seq 0 80) 35 tt) as (p & E & _); [lia|].
  by exists p.
Defined.

(** ** Dynamically typed values ([convert_util.go])

    The type switches of the conversion functions.  Floats are IEEE values in
    the Standard Library's [spec_float]; [GOther] is any type no case names. *)

Inductive goval : Type :=
| GNil
| GString (s : string)
| GBytes (l : list byte)
| GInt64 (z : Z)
| GUint64 (z : Z)
| GInt32 (z : Z)
| GUint32 (z : Z)
| GInt (z : Z)
| GFloat32 (f : spec_float)
| GFloat64 (f : spec_float)
| GNumber (s : string)     (* json.Number *)
| GBool (b : bool)
| GOther.

(** A value of its Go type: the integers are in the range of their width. *)
Definition goval_ok (v : goval) : Prop :=
  match v with
  | GInt64 z | GInt z => isI64 z
  | GUint64 z => isU 64 z
  | GInt32 z => - 2 ^ 31 <= z < 2 ^ 31
  | GUint32 z => isU 32 z
  | _ => True
  end.

(** [tv > float64(math.MaxInt64)]; the constant rounds to [2^63]. *)
Definition float_gt_max (f : spec_float) : bool :=
  match f with
  | S754_infinity s => negb s
  | S754_finite s m e =>
      negb s && (if 0 <=? e then 2 ^ 63 <? Z.pos m * 2 ^ e else 2 ^ 63 * 2 ^ (- e) <? Z.pos m)
  | _ => false
  end.

(** The integer part; out of range the Go specification leaves the result to the
    implementation, and amd64 gives the smallest [int64]. *)
Definition float_trunc (f : spec_float) : option Z :=
  match f with
  | S754_zero _ => Some 0
  | S754_finite s m e =>
      let v := if 0 <=? e then Z.pos m * 2 ^ e else Z.pos m / 2 ^ (- e) in
      Some (if s then - v else v)
  | _ => None
  end.

Definition float_to_int64 (f : spec_float) : Z :=
  match float_trunc f with
  | Some z => if bool_decide (isI64 z) then z else minInt64
  | None => minInt64
  end.

Section strings_of_values.
(** [strconv.FormatFloat(f, 'f', -1, 64)] *)
Variable FormatFloat : spec_float -> string.

(* [utls/convert_util.go:14-44] MustString *)
Definition MustString (v : goval) (defaultValue : string) : string :=
  match v with
  | GString tv => tv
  | GBytes tv => String.string_of_list_byte tv
  | GInt64 tv => itoa tv
  | GUint64 tv => itoa tv
  | GInt32 tv => itoa tv
  | GUint32 tv => itoa tv
  | GInt tv => itoa tv
  | GFloat32 tv => FormatFloat tv
  | GFloat64 tv => FormatFloat tv
  | GNumber tv => tv
  | GBool tv => if tv then "true" else "false"
  | _ => defaultValue
  end.

(* [utls/convert_util.go:46-76] TryString *)
Definition TryString (v : goval) : string * bool :=
  match v with
  | GString tv => (tv, true)
  | GBytes tv => (String.string_of_list_byte tv, true)
  | GInt64 tv => (itoa tv, true)
  | GUint64 tv => (itoa tv, true)
  | GInt32 tv => (itoa tv, true)
  | GUint32 tv => (itoa tv, true)
  | GFloat32 tv => (FormatFloat tv, true)
  | GFloat64 tv => (FormatFloat tv, true)
  | GInt tv => (itoa tv, true)
  | GNumber tv => (tv, true)
  | GBool tv => if tv then ("true", true) else ("false", true)
  | _ => (EmptyString, false)
  end.

Fixpoint string_array (vs : list goval) (defaultValue ret : list string) : list string :=
  match vs with
  | [] => ret
  | val :: vs' =>
      match val with
      | GNil => defaultValue
      | _ =>
          let '(valStr, ok) := TryString val in
          if ok then string_array vs' defaultValue (ret ++ [valStr]) else defaultValue
      end
  end.

(* [utls/convert_util.go:251-271] MustStringArray *)
Definition MustStringArray (v : reflected goval) (defaultValue : list string) : list string :=
  match v with
  | RSlice l => string_array l defaultValue []
  | ROther _ => defaultValue
  end.
End strings_of_values.

(* [utls/convert_util.go:78-125] MustInt64 *)
Definition MustInt64 (v : goval) (defaultValue : Z) : Z :=
  match v with
  | GNil => defaultValue
  | GBytes tv =>
      match parse_int (String.string_of_list_byte tv) with
      | inl res => res | inr _ => defaultValue
      end
  | GString tv => match parse_int tv with inl res => res | inr _ => defaultValue end
  | GInt64 tv => tv
  | GUint64 tv => if maxInt64 <? tv then defaultValue else i64 tv
  | GInt32 tv => tv
  | GUint32 tv => tv
  | GInt tv => tv
  | GFloat32 tv => if float_gt_max tv then defaultValue else float_to_int64 tv
  | GFloat64 tv => if float_gt_max tv then defaultValue else float_to_int64 tv
  | GNumber tv => match parse_int tv with inl val => val | inr _ => defaultValue end
  | GBool _ => defaultValue
  | GOther => defaultValue
  end.

Inductive conv_err : Type :=
| EInputNil | EParse (e : num_err) | EOutOfRange | ETypeErr.

(* [utls/convert_util.go:173-222] ConvertToInt64 *)
Definition ConvertToInt64 (v : goval) : Z * option conv_err :=
  let defaultValue := -1 in
  match v with
  | GNil => (-1, Some EInputNil)
  | GBytes tv =>
      match parse_int (String.string_of_list_byte tv) with
      | inl res => (res, None)
      | inr err => (defaultValue, Some (EParse err))
      end
  | GString tv =>
      match parse_int tv with
      | inl res => (res, None)
      | inr err => (defaultValue, Some (EParse err))
      end
  | GInt64 tv => (tv, None)
  | GUint64 tv => if maxInt64 <? tv then (defaultValue, Some EOutOfRange) else (i64 tv, None)
  | GInt32 tv => (tv, None)
  | GUint32 tv => (tv, None)
  | GInt tv => (tv, None)
  | GFloat32 tv =>
      if float_gt_max tv then (defaultValue, Some EOutOfRange) else (float_to_int64 tv, None)
  | GFloat64 tv =>
      if float_gt_max tv then (defaultValue, Some EOutOfRange) else (float_to_int64 tv, None)
  | GNumber tv =>
      match parse_int tv with
      | inl val => (val, None)
      | inr err => (defaultValue, Some (EParse err))
      end
  | GBool _ => (defaultValue, Some ETypeErr)
  | GOther => (defaultValue, Some ETypeErr)
  end.

Fixpoint int64_array (vs : list goval) (defaultValue ret : list Z) : list Z :=
  match vs with
  | [] => ret
  | val :: vs' =>
      match val with
      | GNil => defaultValue
      | _ =>
          let valInt := MustInt64 val maxInt64 in
          if valInt =? maxInt64 then defaultValue
          else int64_array vs' defaultValue (ret ++ [valInt])
      end
  end.

(* [utls/convert_util.go:273-293] MustInt64Array *)
Definition MustInt64Array (v : reflected goval) (defaultValue : list Z) : list Z :=
  match v with
  | RSlice l => int64_array l defaultValue []
  | ROther _ => defaultValue
  end.

(** The integer a value denotes, when it denotes one exactly. *)
Definition int_value (v : goval) : option Z :=
  match v with
  | GInt64 z | GUint64 z | GInt32 z | GUint32 z | GInt z => Some z
  | GBytes l => match parse_int (String.string_of_list_byte l) with inl z => Some z | inr _ => None end
  | GString s | GNumber s => match parse_int s with inl z => Some z | inr _ => None end
  | GFloat32 f | GFloat64 f => float_trunc f
  | _ => None
  end.

Definition is_float (v : goval) : bool :=
  match v with GFloat32 _ | GFloat64 _ => true | _ => false end.

Lemma float_to_int64_range f : isI64 (float_to_int64 f).
Proof.
  unfold float_to_int64. destruct (float_trunc f); [case_bool_decide; [done|]|];
    unfold isI64, minInt64, maxInt64; lia.
Qed.

(** ConvertToInt64 always returns an int64; on a value that is not a float it
    succeeds exactly when the value denotes an integer that fits, and then
    returns that integer unchanged, otherwise it returns -1 with an error.
    MustInt64 is ConvertToInt64 with the error replaced by the default. *)
Theorem ConvertToInt64_exact (v : goval) (d : Z) :
  goval_ok v ->
  isI64 (ConvertToInt64 v).1 /\
  (is_float v = false ->
     match int_value v with
     | Some z => if bool_decide (isI64 z) then ConvertToInt64 v = (z, None)
                 else ConvertToInt64 v = (-1, Some EOutOfRange)
     | None => (ConvertToInt64 v).1 = -1 /\ (ConvertToInt64 v).2 ≠ None
     end) /\
  MustInt64 v d = match ConvertToInt64 v with (z, None) => z | (_, Some _) => d end.
Proof.
  assert (forall s z, parse_int s = inl z -> isI64 z) as Hp by apply parse_int_range.
  assert (isI64 (-1)) as Hm1 by (unfold isI64, minInt64, maxInt64; lia).
  intros Hv. destruct v as [|s|l|z|z|z|z|z|f|f|s|b|]; simpl in *;
    repeat match goal with
    | |- context [parse_int ?s] =>
        let E := fresh in destruct (parse_int s) eqn:E; [apply Hp in E|]; simpl
    | |- context [float_gt_max ?f] => destruct (float_gt_max f); simpl
    end; rewrite ?bool_decide_true by
      (try done; unfold isI64, isU, minInt64, maxInt64 in *; lia);
    try (split_and!; [first [done | apply float_to_int64_range | unfold isI64, isU, minInt64, maxInt64 in *; lia]| |done]; try done; by intros).
  destruct (Z.ltb_spec maxInt64 z) as [Hlt|Hle].
  - split_and!; [done| |done]. intros _. rewrite bool_decide_false; [done|].
    unfold isI64. lia.
  - assert (isI64 z) as Hz by (unfold isI64, isU, minInt64, maxInt64 in *; lia).
    rewrite i64_small, bool_decide_true by done. done.
Qed.

Lemma ConvertToInt64_exact_witness :
  goval_ok (GString "-42") /\ ConvertToInt64 (GString "-42") = (-42, None) /\
  isI64 (ConvertToInt64 (GString "-42")).1.
Proof.
  split; [exact I|]. split; [reflexivity|].
  exact (proj1 (ConvertToInt64_exact (GString "-42") 0 I)).
Defined.

(** The guard [tv > float64(math.MaxInt64)] compares with [2^63], which is not an
    [int64]: the float [2^63] passes it.  There is no guard on the negative side. *)
Definition float_2_63 : spec_float := S754_finite false 4503599627370496 11.

(** ConvertToInt64 reports success on the float64 2^63 and on -2^64, and
    returns the smallest int64 for both: its range check is off by one above and
    missing below. *)
Theorem ConvertToInt64_float_overflow :
  float_trunc float_2_63 = Some (2 ^ 63) /\
  ConvertToInt64 (GFloat64 float_2_63) = (minInt64, None) /\
  ConvertToInt64 (GFloat64 (S754_finite true 4503599627370496 12)) = (minInt64, None).
Proof. split_and!; reflexivity. Qed.

(** MustString is TryString with the failure replaced by the default. *)
Theorem MustString_TryString (FormatFloat : spec_float -> string) (v : goval) (d : string) :
  MustString FormatFloat v d = (let '(s, ok) := TryString FormatFloat v in if ok then s else d).
Proof. destruct v as [| | | | | | | | | | |[]|]; reflexivity. Qed.

(** ** Dates as integers ([time.go]) *)

(** [t.Date()] gives year, month and day; the arithmetic is on Go's [int]. *)
(* [utls/time.go:96-99] FromTime2TimeInt *)
Definition FromTime2TimeInt (y m d : Z) : Z := i64 (y * 10000 + m * 100 + d * 1).

(* [utls/time.go:101-103] SplitTimeInt *)
Definition SplitTimeInt (t : Z) : Z * Z * Z :=
  (Z.quot t 10000, Z.quot (Z.rem t 10000) 100, Z.rem t 100).

(* [utls/time.go:75-82] IsSameDay *)
Definition IsSameDay (d1 d2 : Z * Z * Z) : bool :=
  let '(year1, month1, day1) := d1 in
  let '(year2, month2, day2) := d2 in
  (year1 =? year2) && (month1 =? month2) && (day1 =? day2).

(** SplitTimeInt recovers the year, month and day FromTime2TimeInt packed. *)
Theorem SplitTimeInt_roundtrip (y m d : Z) :
  0 <= y < 2 ^ 40 -> 1 <= m <= 12 -> 1 <= d <= 31 ->
  SplitTimeInt (FromTime2TimeInt y m d) = (y, m, d).
Proof.
  intros Hy Hm Hd. unfold SplitTimeInt, FromTime2TimeInt.
  rewrite i64_small by (unfold isI64, minInt64, maxInt64; lia).
  f_equal; [f_equal|]; Z.to_euclidean_division_equations; lia.
Qed.

Lemma SplitTimeInt_roundtrip_witness :
  SplitTimeInt (FromTime2TimeInt 2021 12 31) = (2021, 12, 31).
Proof. apply SplitTimeInt_roundtrip; lia. Defined.

(** ** Memory sizes ([utls.go]) *)

(** The last byte of a string, and the rest. *)
Fixpoint split_last (s : string) : option (string * ascii) :=
  match s with
  | EmptyString => None
  | String c EmptyString => Some (EmptyString, c)
  | String c s' => match split_last s' with
                   | Some (r, l) => Some (String c r, l)
                   | None => None
                   end
  end.

(* [utls/utls.go:82-107] ParseMemorySize *)
Definition ParseMemorySize {S} (size : string) : M S (Z * option string) :=
  match split_last size with
  | None => panic "slice bounds out of range"
  | Some (num, sizeSuffix) =>
      mret match parse_int num with
           | inr _ => (0, None)
           | inl sizeNum =>
               if decide (sizeSuffix = "k" \/ sizeSuffix = "K")%char
               then (u64 (i64 (sizeNum * 1024)), None)
               else if decide (sizeSuffix = "m" \/ sizeSuffix = "M")%char
               then (u64 (i64 (i64 (sizeNum * 1024) * 1024)), None)
               else if decide (sizeSuffix = "g" \/ sizeSuffix = "G")%char
               then (u64 (i64 (i64 (i64 (sizeNum * 1024) * 1024) * 1024)), None)
               else (0, Some ("unsupport suffix:" +:+ String sizeSuffix EmptyString))
           end
  end.

(** ** Category settings ([settings_utils.go]) *)

(* [utls/settings_utils.go:8-18] lcs_talos_map *)
Definition lcs_talos_map : gmap string string :=
  list_to_map
    [("vru1", "awsvru0-talos"); ("fr1", "awsde0m-talos"); ("or1", "awsusor1-talos");
     ("sgp1", "awssgp1-talos"); ("sgp2", "awssgp1-talos"); ("c3", "cnbj1-talos");
     ("lugu", "cnbj1-talos"); ("c4", "cnbj1-talos")].

(* [utls/settings_utils.go:20-30] lcs_enabled *)
Definition lcs_enabled : gmap string bool :=
  list_to_map
    [("vru1", true); ("fr1", true); ("c3", false); ("lugu", false); ("sgp1", true);
     ("sgp2", true); ("or1", true); ("staging", false); ("c4", false)].

(* [utls/settings_utils.go:33-40] FixCategoryByIdc *)
Definition FixCategoryByIdc (idc category : string) : string :=
  match lcs_talos_map !! idc with
  | None => category
  | Some prefix => join "#" [prefix; category]
  end.

(* [utls/settings_utils.go:43-45] CheckIfUseLCSByIdc *)
Definition CheckIfUseLCSByIdc (idc : string) : bool := default false (lcs_enabled !! idc).

(** ** Running with recovery *)

(** The named result is what [recover] returned; the handler sees it. *)
(* [utls/utls.go:126-138] WithRecover *)
Definition WithRecover {S} (fn : M S unit) (errHandler : option (string -> M S unit))
    : M S (option string) :=
  recovering
    (fun err =>
       _ ← (match errHandler with Some h => h err | None => mret tt end);
       mret (Some err))
    (_ ← fn; mret None).

(** ** Byte masking ([utls.go]) *)

Definition xor_byte (a b : byte) : byte := byte_of_Z (Z.lxor (Z_of_byte a) (Z_of_byte b)).

(** [Bytes[i] ^ key[i%keyLen]] for all [i]; an empty key divides by zero. *)
Fixpoint xor_key {S} (bs key : list byte) (i : Z) : M S (list byte) :=
  match bs with
  | [] => mret []
  | b :: bs' =>
      if len key =? 0 then panic "integer divide by zero"
      else
        k ← index key (Z.rem i (len key));
        rest ← xor_key bs' key (i + 1);
        mret (xor_byte b k :: rest)
  end.

(* [utls/utls.go:197-205] GdEncode *)
Definition GdEncode {S} (Bytes key : list byte) : M S (list byte) :=
  encode ← xor_key Bytes key 0;
  mret (b64_encode encode).

(* [utls/utls.go:207-221] GdDecode *)
Definition GdDecode {S} (str key : list byte) : M S (list byte * option string) :=
  match b64_decode str with
  | None => mret ([], Some "illegal base64 data")
  | Some data => decode ← xor_key data key 0; mret (decode, None)
  end.

Lemma xor_byte_range a b : 0 <= Z.lxor (Z_of_byte a) (Z_of_byte b) < 256.
Proof. apply (lxor_range 8); apply Z_of_byte_range. Qed.

Lemma xor_byte_involutive a b : xor_byte (xor_byte a b) b = a.
Proof.
  unfold xor_byte. apply Z_of_byte_inj. rewrite !Z_of_byte_of_Z.
  rewrite (Z.mod_small (Z.lxor (Z_of_byte a) (Z_of_byte b))) by apply xor_byte_range.
  rewrite Z.lxor_assoc, Z.lxor_nilpotent, Z.lxor_0_r. apply Z.mod_small, Z_of_byte_range.
Qed.

Lemma xor_key_twice {S} (bs key : list byte) (i : Z) (s : S) :
  key ≠ [] -> 0 <= i ->
  exists enc, xor_key bs key i s = (Ret enc, s) /\ xor_key enc key i s = (Ret bs, s).
Proof.
  intros Hk. revert i. induction bs as [|b bs IH]; intros i Hi; [by exists []|].
  destruct (IH (i + 1)) as (enc & E1 & E2); [lia|].
  assert (0 < len key) as Hl by (unfold len; destruct key; simpl in *; [done|lia]).
  assert (exists k, index key (Z.rem i (len key)) s = (Ret k, s)) as [k Hidx].
  { unfold index. pose proof (Z.rem_bound_pos i (len key)).
    rewrite decide_True by lia.
    destruct (lookup_lt_is_Some_2 key (Z.to_nat (Z.rem i (len key)))) as [k ->];
      [unfold len in *; lia|]. by exists k. }
  exists (xor_byte b k :: enc). cbn [xor_key].
  rewrite (proj2 (Z.eqb_neq (len key) 0)) by lia.
  unfold mbind, M_bind. rewrite Hidx, E1, E2, xor_byte_involutive. done.
Qed.

(** With a non-empty key, GdEncode never panics and GdDecode with the same key
    gives back the bytes it was given. *)
Theorem GdDecode_GdEncode {S} (bs key : list byte) (s : S) :
  key ≠ [] ->
  exists enc, GdEncode bs key s = (Ret enc, s) /\ GdDecode enc key s = (Ret (bs, None), s).
Proof.
  intros Hk. destruct (xor_key_twice bs key 0 s Hk) as (x & E1 & E2); [lia|].
  exists (b64_encode x). unfold GdEncode, GdDecode, mbind, M_bind.
  rewrite E1, b64_roundtrip, E2. done.
Qed.

Lemma GdDecode_GdEncode_witness :
  [x6b] ≠ [] /\
  exists enc, GdEncode [x68; x69] [x6b] tt = (Ret enc, tt) /\
              GdDecode enc [x6b] tt = (Ret ([x68; x69], None), tt).
Proof. split; [discriminate|]. apply (GdDecode_GdEncode [x68; x69] [x6b] tt). discriminate. Defined.


End Utls.
