(* ===== verification/UtlsTime.v ===== *)
(** * Dates as texts ([utls/time.go])

    [Format] and [ParseInLocation] with the layout of the package, and the days of the
    calendar they stand on. *)

From S2P Require Import Prelude GoStd GoStrings GoTime Utls.
Import GoStd GoStrings GoTime.

Module UtlsTime.

(** ** The calendar backwards *)

Definition is_leap (y : Z) : bool := (y mod 4 =? 0) && (negb (y mod 100 =? 0) || (y mod 400 =? 0)).
Definition days_in (m y : Z) : Z :=
  if m =? 2 then (if is_leap y then 29 else 28)
  else if existsb (Z.eqb m) [4; 6; 9; 11] then 30 else 31.

(** The day of a date, counted from 1970-01-01. *)
Definition day_number (y m d : Z) : Z :=
  let y := if m <=? 2 then y - 1 else y in
  let mp := if m <=? 2 then m + 9 else m - 3 in
  let yoe := y mod 400 in
  y / 400 * 146097 + (yoe * 365 + yoe / 4 - yoe / 100 + ((153 * mp + 2) / 5 + d - 1)) - 719468.

(** ** Formatting and parsing *)

(** [Unix(v, 0)] in a zone. *)
Definition Unix (offset v : Z) : Time := mkTime (v * Second) offset.

(** The layout of the package; years have four digits up to 9999. *)
Definition format_layout (t : Time) : string :=
  zero_pad 4 (Year t) +:+ "-" +:+ zero_pad 2 (Month t) +:+ "-" +:+ zero_pad 2 (Day t) +:+ " " +:+
  zero_pad 2 (Hour t) +:+ ":" +:+ zero_pad 2 (Minute t) +:+ ":" +:+ zero_pad 2 (second t).

(** A number of two digits, or of one where the layout allows it. *)
Definition getnum (fixed : bool) (s : string) : option (Z * string) :=
  match s with
  | EmptyString => None
  | String a s' =>
      x ← digit a;
      match s' with
      | String b s'' =>
          match digit b with
          | Some y => Some (x * 10 + y, s'')
          | None => if fixed then None else Some (x, s')
          end
      | EmptyString => if fixed then None else Some (x, s')
      end
  end.

Definition get_year (s : string) : option (Z * string) :=
  match s with
  | String a (String b (String c (String e s'))) =>
      x ← digit a; y ← digit b; z ← digit c; w ← digit e;
      Some (x * 1000 + y * 100 + z * 10 + w, s')
  | _ => None
  end.

Definition literal (c : ascii) (s : string) : option string :=
  match s with String a s' => if Ascii.eqb a c then Some s' else None | EmptyString => None end.

(** A space of the layout stands for any number of them, none before the end. *)
Fixpoint cut_space (s : string) : string :=
  match s with String a s' => if Ascii.eqb a " " then cut_space s' else s | EmptyString => s end.
Definition spaces (s : string) : option string :=
  match s with String a _ => if Ascii.eqb a " " then Some (cut_space s) else None | EmptyString => Some s end.

Fixpoint cut_digits (s : string) : string :=
  match s with String a s' => if is_digit a then cut_digits s' else s | EmptyString => s end.

(** A fraction of a second is taken though the layout has none. *)
Definition cut_fraction (s : string) : string :=
  match s with
  | String a (String b _ as s') => if (Ascii.eqb a "." || Ascii.eqb a ",") && is_digit b then cut_digits s' else s
  | _ => s
  end.

(** Year, month, day, hour, minute and second; [None] is an error. *)
Definition Parse (s : string) : option (Z * Z * Z * (Z * Z * Z)) :=
  '(y, s) ← get_year s; s ← literal "-" s;
  '(mo, s) ← getnum true s; s ← literal "-" s;
  '(d, s) ← getnum true s; s ← spaces s;
  '(h, s) ← getnum false s; s ← literal ":" s;
  '(mi, s) ← getnum true s; s ← literal ":" s;
  '(sec, s) ← getnum true s;
  if String.eqb (cut_fraction s) EmptyString && (0 <? mo) && (mo <=? 12) && (h <? 24) && (mi <? 60) && (sec <? 60)
     && (1 <=? d) && (d <=? days_in mo y)
  then Some (y, mo, d, (h, mi, sec)) else None.

(* [utls/time.go:61-63] FromSecondToLocalDate *)
Definition FromSecondToLocalDate (offset v : Z) : string := format_layout (Unix offset v).

(** An error gives the zero time. *)
(* [utls/time.go:69-73] FromLocalDateToSecond *)
Definition FromLocalDateToSecond (offset : Z) (v : string) : Z :=
  match Parse v with
  | Some (y, mo, d, (h, mi, s)) => day_number y mo d * 86400 + h * 3600 + mi * 60 + s - offset
  | None => -62135596800
  end.

(* [utls/time.go:84-88] IsSameDayWithTimestamp *)
Definition IsSameDayWithTimestamp (offset d1 d2 : Z) : bool :=
  Utls.IsSameDay (civil (local_day (Unix offset d1))) (civil (local_day (Unix offset d2))).

(** The readings of the clock. *)
(* [utls/time.go:45-47] GetCurrentSecond *)
Definition GetCurrentSecond (now : Time) : Z := UnixNano now / Second.
(* [utls/time.go:49-51] GetCurrentMillisecond *)
Definition GetCurrentMillisecond (now : Time) : Z := Z.quot (UnixNano now) Millisecond.
(* [utls/time.go:53-55] GetCurrentMicrosecond *)
Definition GetCurrentMicrosecond (now : Time) : Z := Z.quot (UnixNano now) 1000.
(* [utls/time.go:57-59] GetCurrentNanosecond *)
Definition GetCurrentNanosecond (now : Time) : Z := UnixNano now.
(* [utls/time.go:65-67] GetCurrentTime *)
Definition GetCurrentTime (now : Time) : string := format_layout now.

(** Sleeping longer than 292 years ends at once. *)
(* [utls/time.go:109-111] Sleep *)
Definition Sleep (millisecond : Z) : Z := i64 (i64 millisecond * Millisecond).
(* [utls/time.go:113-115] Duration *)
Definition Duration (d : Z) : Z := i64 d.

(** Errors as the test sees them: one of a URL with what is in it, one of the network
    with whether it is a time-out, another. *)
Inductive go_err : Type := EUrl (err : option go_err) | ENet (timeout : bool) | EPlain.

(** An error of a URL is one of the network, a time-out if what is in it says so. *)
Fixpoint net_timeout (err : go_err) : option bool :=
  match err with
  | EUrl None => Some false
  | EUrl (Some err) => Some (default false (net_timeout err))
  | ENet t => Some t
  | EPlain => None
  end.

(* [utls/time.go:117-134] IsTimeoutError *)
Definition IsTimeoutError (err : option go_err) : bool :=
  match err with
  | None => false
  | Some (EUrl (Some err)) => match net_timeout err with Some t => t | None => false end
  | Some (EUrl None) => false
  | Some (ENet t) => t
  | Some EPlain => false
  end.

(** ** The calendar *)

(** The days before the year of an era, and the year of a day. *)
Definition before (y : Z) : Z := y * 365 + y / 4 - y / 100.
Definition year_of (doe : Z) : Z := (doe - doe / 1460 + doe / 36524 - doe / 146096) / 365.

Lemma year_of_mono a b : 0 <= a <= b -> b < 146096 -> year_of a <= year_of b.
Proof.
  intros H Hb. unfold year_of. rewrite (Z.div_small b 146096), (Z.div_small a 146096) by lia.
  apply Z.div_le_mono; [lia|]. assert (b / 1460 <= a / 1460 + (b - a)) by (Z.div_mod_to_equations; lia).
  pose proof (Z.div_le_mono a b 36524). lia.
Qed.

(** At the first and the last day of each year. *)
Definition years_checked : bool :=
  forallb (fun n => let y := Z.of_nat n in
    (year_of (before y) =? y) && (year_of (Z.min 146095 (before (y + 1) - 1)) =? y)) (seq 0 400).

Lemma years_checked_ok : years_checked = true.
Proof. vm_compute. reflexivity. Qed.

Lemma year_of_ends y : 0 <= y < 400 -> year_of (before y) = y /\ year_of (Z.min 146095 (before (y + 1) - 1)) = y.
Proof.
  intros Hy. pose proof years_checked_ok as H. unfold years_checked in H. rewrite forallb_forall in H.
  specialize (H (Z.to_nat y)). rewrite in_seq in H. specialize (H ltac:(lia)). cbv zeta in H. rewrite Z2Nat.id in H by lia.
  apply andb_true_iff in H as [H1%Z.eqb_eq H2%Z.eqb_eq]. done.
Qed.

Lemma before_next y : 0 <= y -> before y + 365 <= before (y + 1) <= before y + 366.
Proof. intros Hy. unfold before. Z.div_mod_to_equations. lia. Qed.

Lemma before_last y : 0 <= y <= 400 -> before y <= 146096.
Proof. intros Hy. unfold before. Z.div_mod_to_equations. lia. Qed.

Lemma year_of_days y doy : 0 <= y < 400 -> 0 <= doy -> before y + doy < before (y + 1) -> before y + doy < 146096 ->
  year_of (before y + doy) = y.
Proof.
  intros Hy Hd Hn Hl. destruct (year_of_ends y Hy) as [H1 H2]. pose proof (before_next y ltac:(lia)).
  assert (0 <= before y) by (unfold before; Z.div_mod_to_equations; lia).
  pose proof (year_of_mono (before y) (before y + doy) ltac:(lia) Hl).
  pose proof (year_of_mono (before y + doy) (Z.min 146095 (before (y + 1) - 1)) ltac:(lia) ltac:(lia)). lia.
Qed.

Lemma before_mono a b : 0 <= a <= b -> before a <= before b.
Proof.
  intros H. unfold before. assert (b / 100 <= a / 100 + (b - a)) by (Z.div_mod_to_equations; lia).
  pose proof (Z.div_le_mono a b 4). lia.
Qed.

(** Each day of an era lies in its year. *)
Lemma year_found doe : 0 <= doe < 146097 ->
  0 <= year_of doe < 400 /\ 0 <= doe - before (year_of doe) <= 365 /\
  (doe - before (year_of doe) = 365 -> is_leap (year_of doe + 1) = true).
Proof.
  intros Hd. destruct (decide (doe = 146096)) as [->|Hne]; [vm_compute; by split_and!|].
  assert (forall n, (n <= 400)%nat -> doe < before (Z.of_nat n) -> exists y, 0 <= y < Z.of_nat n /\ before y <= doe < before (y + 1)) as Hex.
  { induction n as [|n IH]; intros Hn Hlt; [change (before (Z.of_nat 0)) with 0 in Hlt; lia|].
    destruct (Z_lt_le_dec doe (before (Z.of_nat n))) as [Hl|Hg].
    - destruct (IH ltac:(lia) Hl) as (y & Hy & H). exists y. split; [lia|done].
    - exists (Z.of_nat n). split; [lia|]. replace (Z.of_nat n + 1) with (Z.of_nat (S n)) by lia. lia. }
  destruct (Hex 400%nat ltac:(lia)) as (y & Hy & Hb); [change (before (Z.of_nat 400)) with 146096; lia|].
  pose proof (before_next y ltac:(lia)) as Hnx.
  assert (year_of doe = y) as ->.
  { replace doe with (before y + (doe - before y)) by lia. apply year_of_days; lia. }
  split; [lia|]. split; [lia|]. intros E. assert (before (y + 1) = before y + 366) as Hl by lia. unfold before in Hl. unfold is_leap.
  assert ((y + 1) mod 4 = 0 /\ (y + 1) mod 100 ≠ 0) as [H4 H100] by (Z.div_mod_to_equations; lia).
  rewrite (proj2 (Z.eqb_eq _ _) H4), (proj2 (Z.eqb_neq _ _) H100). done.
Qed.

(** The days of a year that starts in March, with their months; the last is in
    leap years only. *)
Definition month_of (doy : Z) : Z := let mp := (5 * doy + 2) / 153 in if mp <? 10 then mp + 3 else mp - 9.
Definition day_of (doy : Z) : Z := doy - (153 * ((5 * doy + 2) / 153) + 2) / 5 + 1.

Definition days_checked : bool :=
  forallb (fun n => let doy := Z.of_nat n in
    let m := month_of doy in let d := day_of doy in
    (1 <=? m) && (m <=? 12) && (1 <=? d) && (d <=? days_in m (if doy =? 365 then 2000 else 2001)) &&
    (if doy =? 365 then m =? 2 else true) &&
    ((153 * (if m <=? 2 then m + 9 else m - 3) + 2) / 5 + d - 1 =? doy)) (seq 0 366).

Lemma days_checked_ok : days_checked = true.
Proof. vm_compute. reflexivity. Qed.

Lemma day_found doy : 0 <= doy <= 365 -> 1 <= month_of doy <= 12 /\ 1 <= day_of doy /\
  day_of doy <= days_in (month_of doy) (if doy =? 365 then 2000 else 2001) /\ (doy = 365 -> month_of doy = 2) /\
  (153 * (if month_of doy <=? 2 then month_of doy + 9 else month_of doy - 3) + 2) / 5 + day_of doy - 1 = doy.
Proof.
  intros Hd. pose proof days_checked_ok as H. unfold days_checked in H. rewrite forallb_forall in H.
  specialize (H (Z.to_nat doy)). rewrite in_seq in H. specialize (H ltac:(lia)). cbv zeta in H. rewrite Z2Nat.id in H by lia.
  repeat (apply andb_true_iff in H as [H ?]). rewrite ?Z.leb_le, ?Z.eqb_eq in *. split_and!; try done.
  intros ->. by apply Z.eqb_eq.
Qed.

Lemma days_in_least m y : days_in m 2001 <= days_in m y.
Proof. unfold days_in. change (is_leap 2001) with false. destruct (m =? 2), (is_leap y); lia. Qed.

Lemma is_leap_era y era : is_leap (y + era * 400) = is_leap y.
Proof.
  unfold is_leap. replace (y + era * 400) with (y + era * 4 * 100) at 2 by lia.
  replace (y + era * 400) with (y + era * 100 * 4) at 1 by lia. by rewrite !Z.mod_add by lia.
Qed.

Lemma civil_eq z : civil z = 
  let doe := (z + 719468) mod 146097 in let yoe := year_of doe in let doy := doe - before yoe in
  (yoe + (z + 719468) / 146097 * 400 + (if month_of doy <=? 2 then 1 else 0), month_of doy, day_of doy).
Proof.
  unfold civil, month_of, day_of, year_of, before. cbv zeta.
  by rewrite (Z.mul_comm 365), Z.add_sub_swap.
Qed.

(** A date is on the calendar, and it is the date of one day only. *)
Lemma civil_day_number z y m d : civil z = (y, m, d) ->
  day_number y m d = z /\ 1 <= m <= 12 /\ 1 <= d <= days_in m y.
Proof.
  rewrite civil_eq. cbv zeta. set (doe := (z + 719468) mod 146097). set (era := (z + 719468) / 146097).
  assert (0 <= doe < 146097) as Hdoe by (apply Z.mod_pos_bound; lia).
  assert (z = era * 146097 + doe - 719468) as Hz by (pose proof (Z.div_mod (z + 719468) 146097 ltac:(lia)); lia).
  destruct (year_found doe Hdoe) as (Hy & Hdoy & Hleap). set (yoe := year_of doe) in *. set (doy := doe - before yoe) in *.
  destruct (day_found doy ltac:(lia)) as (Hm & Hd1 & Hd2 & Hfeb & Hback). intros [= <- <- <-]. split; [|split; [done|]].
  - unfold day_number. set (m := month_of doy) in *.
    assert ((if m <=? 2 then yoe + era * 400 + (if m <=? 2 then 1 else 0) - 1 else yoe + era * 400 + (if m <=? 2 then 1 else 0))
      = yoe + era * 400) as -> by (destruct (m <=? 2); lia).
    rewrite Z.div_add, Z.mod_add, Z.div_small, Z.mod_small by lia.
    replace ((153 * (if m <=? 2 then m + 9 else m - 3) + 2) / 5 + day_of doy - 1) with doy by lia.
    unfold doy, before. lia.
  - split; [done|]. destruct (Z.eqb_spec doy 365) as [E|E].
    + rewrite (Hfeb E) in *. change (2 <=? 2) with true. cbn [Z.eqb]. unfold days_in in *. cbn in Hd2 |- *.
      replace (yoe + era * 400 + 1) with (yoe + 1 + era * 400) by lia. by rewrite is_leap_era, (Hleap E).
    + etransitivity; [exact Hd2|apply days_in_least].
Qed.

(** ** Digits *)

Lemma pad2 z : 0 <= z < 100 -> exists a b, zero_pad 2 z = String a (String b EmptyString) /\
  digit a = Some (z / 10) /\ digit b = Some (z mod 10).
Proof.
  intros Hz. assert (forallb (fun n => match zero_pad 2 (Z.of_nat n) with
    | String a (String b EmptyString) => bool_decide (digit a = Some (Z.of_nat n / 10)) && bool_decide (digit b = Some (Z.of_nat n mod 10))
    | _ => false end) (seq 0 100) = true) as H by (vm_compute; reflexivity).
  rewrite forallb_forall in H. specialize (H (Z.to_nat z)). rewrite in_seq in H. specialize (H ltac:(lia)).
  rewrite Z2Nat.id in H by lia. destruct (zero_pad 2 z) as [|a [|b [|]]]; try done.
  apply andb_true_iff in H as [H1%bool_decide_eq_true H2%bool_decide_eq_true]. by exists a, b.
Qed.

Lemma getnum_pad fixed z rest : 0 <= z < 100 -> getnum fixed (zero_pad 2 z +:+ rest) = Some (z, rest).
Proof.
  intros Hz. destruct (pad2 z Hz) as (a & b & -> & Ha & Hb).
  change (String a (String b EmptyString) +:+ rest) with (String a (String b rest)). unfold getnum. rewrite Ha, Hb. cbn.
  repeat f_equal. pose proof (Z.div_mod z 10 ltac:(lia)). lia.
Qed.

Definition years_padded : bool :=
  forallb (fun z => match get_year (zero_pad 4 z) with Some (y, EmptyString) => y =? z | _ => false end) (seqZ 0 10000).

Lemma years_padded_ok : years_padded = true.
Proof. vm_compute. reflexivity. Qed.

Lemma get_year_app s y rest : get_year s = Some (y, EmptyString) -> get_year (s +:+ rest) = Some (y, rest).
Proof.
  destruct s as [|a [|b [|c [|e s]]]]; try done. change (String a (String b (String c (String e s))) +:+ rest)
    with (String a (String b (String c (String e (s +:+ rest))))). unfold get_year.
  destruct (digit a), (digit b), (digit c), (digit e); try done. cbn. intros [= -> ->]. done.
Qed.

Lemma get_year_pad z rest : 0 <= z <= 9999 -> get_year (zero_pad 4 z +:+ rest) = Some (z, rest).
Proof.
  intros Hz. apply get_year_app. pose proof years_padded_ok as H. unfold years_padded in H. rewrite forallb_forall in H.
  specialize (H z). rewrite <- list_elem_of_In, elem_of_seqZ in H. specialize (H ltac:(lia)).
  destruct (get_year (zero_pad 4 z)) as [[y [|]]|]; try done. by apply Z.eqb_eq in H as ->.
Qed.

Lemma cut_space_pad z rest : 0 <= z < 100 -> spaces (" " +:+ zero_pad 2 z +:+ rest) = Some (zero_pad 2 z +:+ rest).
Proof.
  intros Hz. destruct (pad2 z Hz) as (a & b & -> & Ha & _). 
  change (spaces (" " +:+ String a (String b EmptyString) +:+ rest)) with (Some (cut_space (String a (String b rest)))).
  change (String a (String b EmptyString) +:+ rest) with (String a (String b rest)). cbn [cut_space].
  destruct (Ascii.eqb_spec a " ") as [->|_]; [by vm_compute in Ha|done].
Qed.

Lemma literal_app c s : literal c (String c EmptyString +:+ s) = Some s.
Proof. change (String c EmptyString +:+ s) with (String c s). unfold literal. by rewrite Ascii.eqb_refl. Qed.

(** One part of the layout is read, and the literal behind it. *)
Ltac part step := step; cbn [mbind option_bind]; rewrite ?literal_app; cbn [mbind option_bind].

(** ** Properties *)

(** Writing a second of the years 0 to 9999 as a date and reading the date gives the
    second back, in every zone with a fixed offset; so the text is that of one second
    only.  It rests on the calendar: the date of a day is the date of no other, and
    is one that the parser accepts. *)
Theorem local_date_roundtrip offset v : 0 <= Year (Unix offset v) <= 9999 ->
  FromLocalDateToSecond offset (FromSecondToLocalDate offset v) = v.
Proof.
  intros Hy. unfold FromSecondToLocalDate, FromLocalDateToSecond. set (t := Unix offset v) in *.
  assert (local_second t = v + offset) as Hs.
  { unfold local_second, t, Unix. cbn [UnixNano GoTime.offset]. by rewrite Z.div_mul by done. }
  destruct (civil (local_day t)) as [[y m] d] eqn:E. destruct (civil_day_number _ _ _ _ E) as (Hn & Hm & Hd).
  assert (days_in m y <= 31) as Hd31 by (unfold days_in; destruct (m =? 2), (is_leap y), (existsb (Z.eqb m) [4; 6; 9; 11]); lia).
  assert (0 <= day_second t < 86400) as Hds by (apply Z.mod_pos_bound; done).
  assert (0 <= Hour t < 24) as Hh by (unfold Hour; Z.div_mod_to_equations; lia).
  assert (0 <= Minute t < 60) as Hmi by (unfold Minute; Z.div_mod_to_equations; lia).
  assert (0 <= second t < 60) as Hse by (apply Z.mod_pos_bound; lia).
  assert (Parse (format_layout t) = Some (y, m, d, (Hour t, Minute t, second t))) as ->.
  { unfold format_layout. change (Year t) with (civil (local_day t)).1.1 in *. change (Month t) with (civil (local_day t)).1.2.
    change (Day t) with (civil (local_day t)).2. rewrite E in *. cbn [fst snd] in *. unfold Parse.
    part ltac:(rewrite get_year_pad by done).
    part ltac:(rewrite getnum_pad by lia).
    part ltac:(rewrite getnum_pad by lia).
    part ltac:(rewrite cut_space_pad by lia).
    part ltac:(rewrite getnum_pad by lia).
    part ltac:(rewrite getnum_pad by lia).
    rewrite <- (string_app_nil (zero_pad 2 (second t))), getnum_pad by lia. cbn -[days_in].
    repeat (rewrite (proj2 (Z.ltb_lt _ _)) by lia). repeat (rewrite (proj2 (Z.leb_le _ _)) by lia). done. }
  rewrite Hn. unfold Hour, Minute, second, local_day, day_second, day_seconds in *. rewrite Hs in *.
  Z.div_mod_to_equations. lia.
Qed.

Lemma local_date_roundtrip_witness :
  FromLocalDateToSecond 28800 (FromSecondToLocalDate 28800 1582992000) = 1582992000 /\
  FromSecondToLocalDate 28800 1582992000 = "2020-03-01 00:00:00".
Proof. split; [apply local_date_roundtrip; vm_compute; split; discriminate|vm_compute; reflexivity]. Defined.

(** What is no date is the first second of the year 1, and no error. *)
Example no_date : FromLocalDateToSecond 0 "2021-02-29 12:00:00" = -62135596800 /\
  FromLocalDateToSecond 0 "12:00:00" = -62135596800 /\
  FromLocalDateToSecond 0 "2021-02-28  1:00:00.5" = FromLocalDateToSecond 0 "2021-02-28 01:00:00".
Proof. vm_compute. done. Qed.

(** A time-out is recognised as it is, and in an error of a URL; not in one that is
    wrapped otherwise, and a URL's in a URL's as well. *)
Example timeouts : map IsTimeoutError
  [None; Some (ENet true); Some (EUrl (Some (ENet true))); Some (EUrl (Some (EUrl (Some (ENet true))))); Some EPlain; Some (EUrl None)]
  = [false; true; true; true; false; false].
Proof. reflexivity. Qed.

End UtlsTime.
