(* ===== verification/UtlsText.v ===== *)
(** * Texts and numbers ([utls]: convert_util.go, str.go and utls.go)

    What the standard library makes of a number, a format or a value is a parameter. *)

From Stdlib Require Import Floats.SpecFloat.
From S2P Require Import Prelude GoStd GoStrings Utls.
Import GoStd GoStrings Utls.

Module UtlsText.

(** [float64] of an integer *)
Definition float64 (z : Z) : spec_float := binary_normalize 53 1024 z 0 false.

(** [strconv.ParseFloat]; an error, of the range too, is [None]. *)
(* [utls/convert_util.go:127-162] MustFloat64 *)
Definition MustFloat64 (ParseFloat : string -> option spec_float) (v : goval) (defaultValue : spec_float) : spec_float :=
  match v with
  | GBytes tv => default defaultValue (ParseFloat (String.string_of_list_byte tv))
  | GString tv => default defaultValue (ParseFloat tv)
  | GInt64 tv => float64 tv
  | GUint64 tv => float64 tv
  | GInt32 tv => float64 tv
  | GUint32 tv => float64 tv
  | GInt tv => float64 tv
  | GFloat32 tv => tv
  | GFloat64 tv => tv
  | GNumber tv => default defaultValue (ParseFloat tv)
  | _ => defaultValue
  end.

(* [utls/convert_util.go:165-171] StringStringMap2StringInterfaceMap *)
Definition StringStringMap2StringInterfaceMap (input : gmap string string) : gmap string goval :=
  foldr (fun kv res => <[kv.1 := GString kv.2]> res) ∅ (map_to_list input).

(** The bytes are shared with the string. *)
(* [utls/str.go:10-14] Str2Bts *)
Definition Str2Bts (str : string) : list byte := String.list_byte_of_string str.
(* [utls/str.go:16-20] Bts2Str *)
Definition Bts2Str (bts : list byte) : string := String.string_of_list_byte bts.

(** [strings.Count] of a text of two different characters. *)
Fixpoint count_two (a b : ascii) (s : string) : Z :=
  match s with
  | String x (String y _ as s') => (if Ascii.eqb x a && Ascii.eqb y b then 1 else 0) + count_two a b s'
  | _ => 0
  end.

(* [utls/str.go:22-32] SafeSprintf *)
Definition SafeSprintf {A} (Sprintf : string -> list A -> string) (format : string) (args : list A) : string :=
  let strCount := count_two "%" "s" format in
  let intCount := count_two "%" "d" format in
  let floatCount := count_two "%" "f" format in
  let count := strCount + intCount + floatCount in
  let argsLen := len args in
  let count := if argsLen <? count then argsLen else count in
  Sprintf format (take (Z.to_nat count) args).

(** [filepath.Ext]: from the last point of what follows the last slash. *)
Definition Ext (name : string) : string :=
  let base := skip (Z.to_nat (last_index_char "/" name + 1)) name in
  let i := last_index_char "." base in
  if i <? 0 then EmptyString else skip (Z.to_nat i) base.

(** [caller] is the full name of the function [skip] calls up. *)
(* [utls/utls.go:56-60] FuncName *)
Definition FuncName (caller : string) : string :=
  match Ext caller with String "." s => s | s => s end.

(** What the encoder writes, or its error. *)
(* [utls/utls.go:110-124] Marshal *)
Definition Marshal {V E} (Encode : V -> list byte + E) (v : V) : list byte + E :=
  match Encode v with
  | inr err => inr err
  | inl bodyBts =>
      match last bodyBts with
      | Some x0a => inl (removelast bodyBts)
      | _ => inl bodyBts
      end
  end.

(* [utls/utls.go:223-223] letterRunes *)
Definition letterRunes : list ascii :=
  String.list_ascii_of_string "0123456789abcdefghipqrstuvwxyzABCDEFGHIJKLMNOPQRSTUVWXYZ".

(** [Intn i] is the [i]th number drawn, below its argument. *)
(* [utls/utls.go:225-232] RandString *)
Definition RandString {S} (Intn : nat -> Z -> Z) (n : Z) : M S string :=
  if n <? 0 then panic "makeslice: len out of range"
  else mret (String.string_of_list_ascii
         (map (fun i => default "0"%char (letterRunes !! Z.to_nat (Intn i (len letterRunes)))) (seq 0 (Z.to_nat n)))).

(** [hex.EncodeToString] *)
Definition hex_char (z : Z) : ascii := ascii_of_N (Z.to_N (if z <? 10 then 48 + z else 87 + z)).
Fixpoint hex_encode (l : list byte) : string :=
  match l with
  | [] => EmptyString
  | b :: l => String (hex_char (Z_of_byte b / 16)) (String (hex_char (Z_of_byte b mod 16)) (hex_encode l))
  end.

(** Two numbers drawn and the clock; [Sum] puts the hash behind its argument. *)
(* [utls/utls.go:273-282] TraceId *)
Definition TraceId (md5 : string -> list byte) (Int63 now Int31 : Z) : string :=
  hex_encode (Str2Bts "gd" ++ md5 (itoa Int63 +:+ "-" +:+ itoa now +:+ "-" +:+ itoa Int31)).

(** ** Properties *)

(** Above 53 bits an integer is rounded, as by [float64]. *)
Example floats_round : MustFloat64 (fun _ => None) (GInt64 (2 ^ 53 + 1)) (S754_zero false) = float64 (2 ^ 53) /\
  MustFloat64 (fun _ => None) (GString "x") (float64 7) = float64 7.
Proof. vm_compute. done. Qed.

Lemma StringStringMap_keys input : StringStringMap2StringInterfaceMap input = GString <$> input.
Proof.
  unfold StringStringMap2StringInterfaceMap. rewrite <- (list_to_map_to_list (M := gmap string) input) at 2.
  generalize (map_to_list input). intros l. induction l as [|[k v] l IH]; [done|]. cbn. by rewrite IH, fmap_insert.
Qed.

Lemma Bts2Str_Str2Bts s : Bts2Str (Str2Bts s) = s.
Proof. apply String.string_of_list_byte_of_string. Qed.

Lemma count_two_nonneg a b s : 0 <= count_two a b s.
Proof. induction s as [|x [|y s] IH]; [done|done|]. cbn [count_two] in *. destruct (_ && _); lia. Qed.

(** No format gets more values than it has verbs of the three kinds; values are only
    left out if there are too many. *)
Lemma SafeSprintf_args {A} (Sprintf : string -> list A -> string) format args : exists n,
  SafeSprintf Sprintf format args = Sprintf format (take n args) /\
  Z.of_nat n <= count_two "%" "s" format + count_two "%" "d" format + count_two "%" "f" format /\
  (len args <= count_two "%" "s" format + count_two "%" "d" format + count_two "%" "f" format -> take n args = args).
Proof.
  pose proof (count_two_nonneg "%" "s" format). pose proof (count_two_nonneg "%" "d" format).
  pose proof (count_two_nonneg "%" "f" format). pose proof (len_nonneg args). unfold SafeSprintf. cbv zeta. eexists. split; [done|].
  destruct (Z.ltb_spec (len args) (count_two "%" "s" format + count_two "%" "d" format + count_two "%" "f" format)).
  - split; [lia|]. intros _. apply take_ge. unfold len. lia.
  - split; [lia|]. intros Hle. apply take_ge. unfold len in *. lia.
Qed.

(** A verb of another kind loses its value: here [%v] is left without one. *)
Example other_verbs : SafeSprintf (fun _ args => itoa (len args)) "%v of %d" [1; 2] = "1".
Proof. vm_compute. reflexivity. Qed.

Lemma Marshal_newline {V E} (Encode : V -> list byte + E) v text : Encode v = inl (text ++ [x0a]) -> Marshal Encode v = inl text.
Proof. intros H. unfold Marshal. by rewrite H, last_snoc, removelast_last. Qed.

Lemma Marshal_newline_witness : Marshal (E := unit) (fun _ : unit => inl [x7b; x7d; x0a]) tt = inl [x7b; x7d].
Proof. by apply (Marshal_newline _ tt [x7b; x7d]). Defined.

(** Every character is one of the fifty-six, which leave out six letters. *)
Lemma RandString_letters {S} Intn n (s : S) : (forall i m, 0 < m -> 0 <= Intn i m < m) -> 0 <= n ->
  exists l, RandString Intn n s = (Ret (String.string_of_list_ascii l), s) /\ len l = n /\ Forall (fun c => c ∈ letterRunes) l.
Proof.
  intros Hi Hn. unfold RandString. destruct (Z.ltb_spec n 0); [lia|]. eexists. split; [done|]. split.
  - unfold len. rewrite length_map, length_seq. lia.
  - apply Forall_map, Forall_forall. intros i _. specialize (Hi i (len letterRunes) eq_refl).
    destruct (lookup_lt_is_Some_2 letterRunes (Z.to_nat (Intn i (len letterRunes)))) as [c Hc].
    { set (k := Intn i (len letterRunes)) in *. unfold len in Hi. lia. }
    rewrite Hc. cbn. by eapply list_elem_of_lookup_2.
Qed.

Lemma RandString_letters_witness : RandString (fun i _ => Z.of_nat i) 3 tt = (Ret "012"%string, tt) /\
  exists l, len l = 3 /\ Forall (fun c => c ∈ letterRunes) l.
Proof.
  split; [vm_compute; reflexivity|].
  destruct (RandString_letters (fun _ _ => 0) 3 tt) as (l & _ & H); [|lia|by exists l].
  intros i m Hm. lia.
Defined.

Example letters_left_out : Forall (fun c => c ∉ letterRunes) (String.list_ascii_of_string "jklmno").
Proof. apply (bool_decide_unpack _). vm_compute. exact I. Qed.

(** A trace id has 36 digits and starts with the same four. *)
Lemma TraceId_shape md5 a b c : (forall s, length (md5 s) = 16%nat) -> exists h,
  TraceId md5 a b c = "6764" +:+ h /\ String.length h = 32%nat.
Proof.
  intros Hm. unfold TraceId. set (l := md5 _). assert (length l = 16%nat) as Hl by apply Hm. exists (hex_encode l).
  split; [done|]. clearbody l.
  assert (String.length (hex_encode l) = (2 * length l)%nat) as ->; [|by rewrite Hl]. clear.
  induction l as [|b l IH]; [done|]. cbn. rewrite IH. lia.
Qed.

Example names : map FuncName ["main.main"; "github.com/gdp-org/gd/utls.(*T).Run"; "main.f.func1"]%string = ["main"; "Run"; "func1"]%string.
Proof. vm_compute. reflexivity. Qed.

End UtlsText.
