(* ===== verification/Files.v ===== *)
(** * Files ([utls]: filepath.go, and the file functions of utls.go and dump_panic.go)

    A file system of directories, symbolic links and hard links.  A path is the list
    of the names of a cleaned absolute path.  Besides what follows from the tree, any
    call of the system may fail. *)

From stdpp Require Import sorting.
From S2P Require Import Prelude GoStd GoStrings.
Import GoStd GoStrings.

Module Files.

Abbreviation path := (list string).

(** A name leads to a file by its number, so that two names may share one. *)
Inductive entry : Type := EFile (ino : nat) | EDir | ELink (target : path).

#[export] Instance entry_eq_dec : EqDecision entry.
Proof. solve_decision. Defined.

(** [open_files] counts the descriptors that have not been closed. *)
Record FS : Type := mkFS { names : gmap path entry; data : gmap nat (list byte); open_files : nat; logs : list string }.

Definition with_names (f : gmap path entry -> gmap path entry) (fs : FS) : FS := mkFS (f (names fs)) (data fs) (open_files fs) (logs fs).
Definition with_data (f : gmap nat (list byte) -> gmap nat (list byte)) (fs : FS) : FS := mkFS (names fs) (f (data fs)) (open_files fs) (logs fs).
Definition with_open (f : nat -> nat) (fs : FS) : FS := mkFS (names fs) (data fs) (f (open_files fs)) (logs fs).

(** Errors; [EOther] are those that do not follow from the tree. *)
Inductive os_err : Type := ENOENT | ENOTDIR | EISDIR | ELOOP | EEXIST | EOther (e : string) | ENonRegular (source : bool).

#[export] Instance os_err_eq_dec : EqDecision os_err.
Proof. solve_decision. Defined.

Definition IsNotExist (e : os_err) : bool := match e with ENOENT => true | _ => false end.

(** ** Paths *)

Definition entry_at (fs : FS) (p : path) : option entry := match p with [] => Some EDir | _ => names fs !! p end.

(** The walk from a directory along the names, with the number of symbolic links it
    may still follow: the path without links at which it ends, where there may be
    nothing, and the number left. *)
Fixpoint walk (fs : FS) (links : nat) : path -> path -> (path * nat) + os_err :=
  fix go (cur rest : path) {struct rest} :=
    match rest with
    | [] => inl (cur, links)
    | c :: rest' =>
        match names fs !! (cur ++ [c]) with
        | Some EDir => go (cur ++ [c]) rest'
        | Some (ELink t) => match links with O => inr ELOOP | S links => walk fs links [] (t ++ rest') end
        | Some (EFile _) => match rest' with [] => inl (cur ++ [c], links) | _ => inr ENOTDIR end
        | None => match rest' with [] => inl (cur ++ [c], links) | _ => inr ENOENT end
        end
    end.

(** Linux follows forty links. *)
Definition max_links : nat := 40.
Definition namei (fs : FS) (p : path) : path + os_err :=
  match walk fs max_links [] p with inl (q, _) => inl q | inr e => inr e end.

Definition child_name (q p : path) : option string :=
  c ← last p; if decide (p = q ++ [c]) then Some c else None.

(** What a directory lists, in the order of the names. *)
Definition children (fs : FS) (q : path) : list (string * entry) :=
  omap (fun c => e ← names fs !! (q ++ [c]); Some (c, e))
       (sort_Strings (omap (fun pe : path * entry => child_name q pe.1) (map_to_list (names fs)))).

Inductive call : Type := OStat | OLstat | OOpen | OReaddir | ORead | OCreate | OMkdir | ORemove.

Section calls.
Variable fails : call -> path -> option string.

Definition check {A} (c : call) (p : path) (r : A + os_err) : A + os_err :=
  match fails c p with Some e => inr (EOther e) | None => r end.

Definition found (fs : FS) (q : path) : entry + os_err :=
  match entry_at fs q with Some e => inl e | None => inr ENOENT end.

(** [os.Stat], [os.Lstat] *)
Definition Stat (fs : FS) (p : path) : entry + os_err :=
  check OStat p (match namei fs p with inl q => found fs q | inr e => inr e end).

Definition Lstat (fs : FS) (p : path) : entry + os_err :=
  check OLstat p
    (match last p with
     | None => inl EDir
     | Some c => match namei fs (removelast p) with inl q => found fs (q ++ [c]) | inr e => inr e end
     end).

(** [ioutil.ReadDir]: each name with what it is itself. *)
Definition ReadDir (fs : FS) (dir : path) : list (string * entry) + os_err :=
  check OReaddir dir
    (match namei fs dir with
     | inl q => match entry_at fs q with
                | Some EDir => inl (children fs q)
                | Some _ => inr ENOTDIR
                | None => inr ENOENT
                end
     | inr e => inr e
     end).

(** [os.Open]: a descriptor of a file or of a directory. *)
Inductive descriptor : Type := DFile (ino : nat) | DDir (q : path).

Definition Open (p : path) : M FS (descriptor + os_err) := fun fs =>
  match check OOpen p (match namei fs p with inl q => match found fs q with inl e => inl (q, e) | inr e => inr e end | inr e => inr e end) with
  | inl (_, EFile i) => (Ret (inl (DFile i)), with_open S fs)
  | inl (q, _) => (Ret (inl (DDir q)), with_open S fs)
  | inr e => (Ret (inr e), fs)
  end.

Definition close_fd : M FS unit := modify (with_open pred).

(** [ioutil.ReadAll] *)
Definition ReadAll (p : path) (d : descriptor) : M FS (list byte + os_err) := fun fs =>
  (Ret (check ORead p (match d with DFile i => inl (default [] (data fs !! i)) | DDir _ => inr EISDIR end)), fs).

(** [os.Create]: a new file, or an old one made empty. *)
Definition Create (p : path) : M FS (nat + os_err) := fun fs =>
  match check OCreate p (namei fs p) with
  | inr e => (Ret (inr e), fs)
  | inl q =>
      match entry_at fs q with
      | Some (EFile i) => (Ret (inl i), with_open S (with_data (insert i []) fs))
      | Some _ => (Ret (inr EISDIR), fs)
      | None =>
          let i := fresh (dom (data fs)) in
          (Ret (inl i), with_open S (with_names (insert q (EFile i)) (with_data (insert i []) fs)))
      end
  end.

(** ** [filepath.go] *)

(* [utls/filepath.go:16-23] Exists *)
Definition Exists_ (fs : FS) (p : path) : bool :=
  match Stat fs p with inr err => negb (IsNotExist err) | inl _ => true end.

(* [utls/utls.go:238-247] PathExists *)
Definition PathExists (fs : FS) (p : path) : bool :=
  match Stat fs p with inl _ => true | inr err => if IsNotExist err then false else false end.

(* [utls/filepath.go:25-32] IsLink *)
Definition IsLink (fs : FS) (p : path) : bool * option os_err :=
  match Lstat fs p with
  | inr err => (false, Some err)
  | inl st => (match st with ELink _ => true | _ => false end, None)
  end.

(** [Readdirnames(1)] *)
Definition Readdirnames (d : descriptor) (dir : path) : M FS (option string + option os_err) := fun fs =>
  (Ret (match check OReaddir dir (match d with DFile _ => inr ENOTDIR | DDir q => inl (children fs q) end) with
        | inr e => inr (Some e)
        | inl [] => inr None
        | inl ((c, _) :: _) => inl (Some c)
        end), fs).

(** The descriptor is not closed. *)
(* [utls/filepath.go:34-47] IsEmpty *)
Definition IsEmpty (dir : path) : M FS (bool * option os_err) :=
  f ← Open dir;
  match f with
  | inr err => mret (false, Some err)
  | inl f =>
      r ← Readdirnames f dir;
      mret (match r with
            | inl _ => (false, None)
            | inr None => (true, None)
            | inr (Some err) => (false, Some err)
            end)
  end.

(** The files of a listing; [rec] lists a directory. *)
Definition list_files (rec : path -> option (list path * option os_err)) (fs : FS) (dir : path) :
    list (string * entry) -> list path -> option (list path * option os_err) :=
  fix go files result :=
    match files with
    | [] => Some (result, None)
    | (name, file) :: files =>
        let p := dir ++ [name] in
        match (match file with ELink _ => Stat fs p | _ => inl file end) with
        | inr err => Some (result, Some err)
        | inl EDir =>
            if has_prefix "." name then go files result
            else match rec p with
                 | Some (r2, None) => go files (result ++ r2)
                 | Some (_, Some err) => Some (result, Some err)
                 | None => None
                 end
        | inl _ => go files (result ++ [p])
        end
    end.

(** The fuel is the depth of the calls. *)
(* [utls/filepath.go:49-77] ListDir *)
Fixpoint ListDir (fuel : nat) (fs : FS) (dir : path) : option (list path * option os_err) :=
  match fuel with
  | O => None
  | S fuel =>
      match ReadDir fs dir with
      | inr err => Some ([], Some err)
      | inl files => list_files (ListDir fuel fs) fs dir files []
      end
  end.

(** ** [utls.go] *)

(* [utls/utls.go:27-41] loadFile *)
Definition loadFile (filename : path) : M FS (option (list byte) * option os_err) :=
  file ← Open filename;
  match file with
  | inr err => mret (None, Some err)
  | inl file =>
      defer close_fd
        (buf ← ReadAll filename file;
         mret (match buf with inl buf => (Some buf, None) | inr err => (None, Some err) end))
  end.

(** What [json.Unmarshal] makes of the target is its result. *)
(* [utls/utls.go:43-54] LoadJsonToObject *)
Definition LoadJsonToObject {T} (Unmarshal : list byte -> T -> T * option string) (filename : path) (t : T) :
    M FS (T * option (os_err + string)) :=
  r ← loadFile filename;
  match r with
  | (Some buf, None) => let '(t, e) := Unmarshal buf t in mret (t, inr <$> e)
  | (_, e) => mret (t, inl <$> e)
  end.

Section copy.
(** Where writing the copy stops with an error, and whether [Sync] and [Close] give
    one. *)
Variables (copy_stops : option (nat * string)) (sync_error close_error : option string).

(* [utls/utls.go:174-195] copyFileContents *)
Definition copyFileContents (src dst : path) : M FS (option os_err) :=
  in_ ← Open src;
  match in_ with
  | inr err => mret (Some err)
  | inl in_ =>
      defer close_fd
        (out ← Create dst;
         match out with
         | inr err => mret (Some err)
         | inl out =>
             err ← (bytes ← ReadAll src in_;
                    match bytes with
                    | inr err => mret (Some err)
                    | inl bytes =>
                        match copy_stops with
                        | Some (n, e) => _ ← modify (with_data (insert out (take n bytes))); mret (Some (EOther e))
                        | None => _ ← modify (with_data (insert out bytes)); mret (EOther <$> sync_error)
                        end
                    end);
             _ ← close_fd;
             mret (match err with None => EOther <$> close_error | Some _ => err end)
         end)
  end.

(* [utls/utls.go:143-168] CopyFile *)
Definition CopyFile (src dst : path) : M FS (option os_err) := fun fs =>
  match Stat fs src with
  | inr err => (Ret (Some err), fs)
  | inl (EFile i) =>
      match Stat fs dst with
      | inr err => if negb (IsNotExist err) then (Ret (Some err), fs) else copyFileContents src dst fs
      | inl (EFile j) => if decide (i = j) then (Ret None, fs) else copyFileContents src dst fs
      | inl _ => (Ret (Some (ENonRegular false)), fs)
      end
  | inl _ => (Ret (Some (ENonRegular true)), fs)
  end.
End copy.

(** [os.Mkdir] and [os.MkdirAll]; the path is given from its end. *)
Definition Mkdir (p : path) : M FS (option os_err) := fun fs =>
  match last p with
  | None => (Ret (Some EEXIST), fs)
  | Some c =>
      match check OMkdir p (namei fs (removelast p)) with
      | inr e => (Ret (Some e), fs)
      | inl q =>
          match entry_at fs q, names fs !! (q ++ [c]) with
          | Some EDir, None => (Ret None, with_names (insert (q ++ [c]) EDir) fs)
          | Some EDir, Some _ => (Ret (Some EEXIST), fs)
          | Some _, _ => (Ret (Some ENOTDIR), fs)
          | None, _ => (Ret (Some ENOENT), fs)
          end
      end
  end.

Fixpoint mkdir_all (rp : path) : M FS (option os_err) := fun fs =>
  match Stat fs (rev rp) with
  | inl EDir => (Ret None, fs)
  | inl _ => (Ret (Some ENOTDIR), fs)
  | inr _ =>
      (err ← (match rp with [] => mret None | _ :: rp' => mkdir_all rp' end);
       match err with
       | Some e => mret (Some e)
       | None =>
           err ← Mkdir (rev rp);
           match err with
           | None => mret None
           | Some e => fs ← get; mret (match Lstat fs (rev rp) with inl EDir => None | _ => Some e end)
           end
       end) fs
  end.

(* [utls/utls.go:234-236] EnsureDir *)
Definition EnsureDir (dir : path) : M FS (option os_err) := mkdir_all (rev dir).

(** An empty content is logged, and written all the same. *)
(* [utls/utls.go:249-271] Store2File *)
Definition Store2File (write_stops : option (nat * string)) (file : path) (content : list byte) : M FS (option os_err) :=
  _ ← (match content with
       | [] => modify (fun fs => mkFS (names fs) (data fs) (open_files fs) (logs fs ++ ["write empty to file?"%string]))
       | _ => mret tt
       end);
  err ← EnsureDir (removelast file);
  match err with
  | Some err => mret (Some err)
  | None =>
      f ← Create file;
      match f with
      | inr err => mret (Some err)
      | inl f =>
          defer close_fd
            (match write_stops with
             | Some (n, e) => _ ← modify (with_data (insert f (take n content))); mret (Some (EOther e))
             | None => _ ← modify (with_data (insert f content)); mret None
             end)
      end
  end.

(** [os.Remove]: a link itself, and a directory when it is empty. *)
Definition Remove (p : path) : M FS (option os_err) := fun fs =>
  match last p with
  | None => (Ret (Some (EOther "operation not permitted")), fs)
  | Some c =>
      match check ORemove p (namei fs (removelast p)) with
      | inr e => (Ret (Some e), fs)
      | inl q =>
          match names fs !! (q ++ [c]), children fs (q ++ [c]) with
          | None, _ => (Ret (Some ENOENT), fs)
          | Some EDir, _ :: _ => (Ret (Some (EOther "directory not empty")), fs)
          | Some _, _ => (Ret None, with_names (delete (q ++ [c])) fs)
          end
      end
  end.

(** A file that was made for a dump: its number and the path it was opened by.  One
    that is empty is closed and removed. *)
(* [utls/dump_panic.go:18-28] ReviewDumpPanic *)
Definition ReviewDumpPanic (f : nat * path) (stat_error : option string) : M FS (option os_err) := fun fs =>
  match stat_error with
  | Some e => (Ret (Some (EOther e)), fs)
  | None =>
      match default [] (data fs !! f.1) with
      | [] =>
          let fs := with_open pred fs in
          Remove f.2 fs
      | _ => (Ret None, fs)
      end
  end.

(** ** Walks *)

Lemma walk_eq fs links cur c rest : walk fs links cur (c :: rest) =
  match names fs !! (cur ++ [c]) with
  | Some EDir => walk fs links (cur ++ [c]) rest
  | Some (ELink t) => match links with O => inr ELOOP | S links => walk fs links [] (t ++ rest) end
  | Some (EFile _) => match rest with [] => inl (cur ++ [c], links) | _ => inr ENOTDIR end
  | None => match rest with [] => inl (cur ++ [c], links) | _ => inr ENOENT end
  end.
Proof. by destruct links. Qed.

Lemma walk_nil fs links cur : walk fs links cur [] = inl (cur, links).
Proof. by destruct links. Qed.

Lemma entry_snoc fs q c : entry_at fs (q ++ [c]) = names fs !! (q ++ [c]).
Proof. by destruct q. Qed.

(** What holds of every walk that ends: by induction on the links left and the names. *)
Lemma walk_ind_ok fs (P : nat -> path -> path -> path * nat -> Prop) :
  (forall k cur, P k cur [] (cur, k)) ->
  (forall k cur c rest r, names fs !! (cur ++ [c]) = Some EDir -> walk fs k (cur ++ [c]) rest = inl r ->
     P k (cur ++ [c]) rest r -> P k cur (c :: rest) r) ->
  (forall k cur c rest t r, names fs !! (cur ++ [c]) = Some (ELink t) -> walk fs k [] (t ++ rest) = inl r ->
     P k [] (t ++ rest) r -> P (S k) cur (c :: rest) r) ->
  (forall k cur c, (names fs !! (cur ++ [c]) = None \/ exists i, names fs !! (cur ++ [c]) = Some (EFile i)) ->
     P k cur [c] (cur ++ [c], k)) ->
  forall k rest cur r, walk fs k cur rest = inl r -> P k cur rest r.
Proof.
  intros H0 Hd Hl Hf k. induction k as [k IHk] using lt_wf_ind. intros rest.
  induction rest as [|c rest IH]; intros cur r; [rewrite walk_nil; by intros [= <-]|]. rewrite walk_eq.
  destruct (names fs !! (cur ++ [c])) as [[i| |t]|] eqn:E.
  - destruct rest; [|done]. intros [= <-]. apply Hf. right. by exists i.
  - intros H. by apply Hd, IH.
  - destruct k as [|k]; [done|]. intros H. eapply Hl; [done..|]. apply IHk; [lia|done].
  - destruct rest; [|done]. intros [= <-]. apply Hf. by left.
Qed.

Lemma walk_links fs k rest cur q k' : walk fs k cur rest = inl (q, k') -> (k' <= k)%nat.
Proof.
  intros H. apply (walk_ind_ok fs (fun k _ _ r => (r.2 <= k)%nat)) in H; [done|..]; cbn; intros; lia.
Qed.

(** One more name: the walk goes on from the directory it had come to. *)
Lemma walk_snoc fs k rest cur q k' c : walk fs k cur rest = inl (q, k') -> entry_at fs q = Some EDir ->
  walk fs k cur (rest ++ [c]) = walk fs k' q [c].
Proof.
  intros H. refine (walk_ind_ok fs (fun k cur rest r => entry_at fs r.1 = Some EDir ->
    walk fs k cur (rest ++ [c]) = walk fs r.2 r.1 [c]) _ _ _ _ k rest cur (q, k') H).
  - done.
  - intros k1 cur1 c1 rest1 r1 E _ IH Hr. cbn [app]. rewrite walk_eq, E. by apply IH.
  - intros k1 cur1 c1 rest1 t r1 E _ IH Hr. cbn [app]. rewrite walk_eq, E, app_assoc. by apply IH.
  - intros k1 cur1 c1 E. cbn [fst]. rewrite entry_snoc. destruct E as [-> |[i ->]]; done.
Qed.

(** A new file in the place of nothing leaves the walks that ended as they were. *)
Lemma walk_new_file fs q i k rest cur r : names fs !! q = None -> walk fs k cur rest = inl r ->
  walk (with_names (insert q (EFile i)) fs) k cur rest = inl r.
Proof.
  intros Hq H. apply (walk_ind_ok fs (fun k cur rest r => walk (with_names (insert q (EFile i)) fs) k cur rest = inl r)) in H;
    [exact H|..].
  - intros. apply walk_nil.
  - intros k1 cur1 c1 rest1 r1 E _ IH. rewrite walk_eq. cbn [with_names names].
    rewrite lookup_insert_ne, E; [done|]. intros Heq. rewrite Heq, E in Hq. done.
  - intros k1 cur1 c1 rest1 t r1 E _ IH. rewrite walk_eq. cbn [with_names names].
    rewrite lookup_insert_ne, E; [done|]. intros Heq. rewrite Heq, E in Hq. done.
  - intros k1 cur1 c1 E. rewrite walk_eq. cbn [with_names names].
    destruct (decide (q = cur1 ++ [c1])) as [->|Hne]; [by rewrite lookup_insert_eq|].
    rewrite lookup_insert_ne by done. destruct E as [-> |[j ->]]; done.
Qed.

(** ** Listing *)

Definition depth (fs : FS) : nat := max_list (length <$> (map_to_list (names fs)).*1).
Definition list_fuel (fs : FS) : nat := S (max_links * S (depth fs) + depth fs).

Lemma depth_ok fs p e : names fs !! p = Some e -> (length p <= depth fs)%nat.
Proof.
  intros H. unfold depth. apply max_list_elem_of_le, list_elem_of_fmap. exists p. split; [done|].
  apply list_elem_of_fmap. exists (p, e). split; [done|]. by apply elem_of_map_to_list.
Qed.

Lemma depth_entry fs q e : entry_at fs q = Some e -> (length q <= depth fs)%nat.
Proof. destruct q; [cbn; lia|]. apply depth_ok. Qed.

Lemma child_name_Some q p c : child_name q p = Some c <-> p = q ++ [c].
Proof.
  unfold child_name. split.
  - intros (d & Hd & H)%bind_Some. case_decide; [|done]. by injection H as <-.
  - intros ->. rewrite last_snoc. cbn. by rewrite decide_True.
Qed.

Lemma elem_children fs q c e : (c, e) ∈ children fs q <-> names fs !! (q ++ [c]) = Some e.
Proof.
  unfold children. rewrite list_elem_of_omap. split.
  - intros (c' & _ & H). apply bind_Some in H as (e' & He & H). by injection H as <- <-.
  - intros H. exists c. split; [|by rewrite H]. unfold sort_Strings. rewrite (merge_sort_Permutation str_le).
    apply list_elem_of_omap. exists (q ++ [c], e). split; [by apply elem_of_map_to_list|]. by apply child_name_Some.
Qed.

(** What a name of a directory stands for. *)
Definition stands_for (fs : FS) (dir : path) (name : string) (file : entry) : entry + os_err :=
  match file with ELink _ => Stat fs (dir ++ [name]) | _ => inl file end.

Definition hidden (name : string) : bool := has_prefix "." name.

Lemma Stat_inl fs p e : Stat fs p = inl e -> exists q, namei fs p = inl q /\ entry_at fs q = Some e.
Proof.
  unfold Stat, check, found. destruct (fails OStat p); [done|]. destruct (namei fs p) as [q|]; [|done].
  destruct (entry_at fs q) eqn:E; [|done]. intros [= <-]. by exists q.
Qed.

Lemma ReadDir_inl fs dir files : ReadDir fs dir = inl files ->
  exists q k, walk fs max_links [] dir = inl (q, k) /\ entry_at fs q = Some EDir /\ files = children fs q.
Proof.
  unfold ReadDir, check, namei. destruct (fails OReaddir dir); [done|].
  destruct (walk fs max_links [] dir) as [[q k]|]; [|done].
  destruct (entry_at fs q) as [[]|] eqn:E; try done. intros [= <-]. by exists q, k.
Qed.

Lemma list_files_returns rec fs dir files result :
  (forall name file, (name, file) ∈ files -> stands_for fs dir name file = inl EDir -> is_Some (rec (dir ++ [name]))) ->
  is_Some (list_files rec fs dir files result).
Proof.
  revert result. induction files as [|[name file] files IH]; intros result H; [by eexists|].
  assert (forall result, is_Some (list_files rec fs dir files result)) as IH'.
  { intros r. apply IH. intros n f Hn. apply H. by right. }
  specialize (H name file ltac:(by left)). cbn [list_files]. unfold stands_for in H.
  destruct (match file with ELink _ => Stat fs (dir ++ [name]) | _ => inl file end) as [[i| |t]|e]; [apply IH'| |apply IH'|by eexists].
  destruct (has_prefix "." name); [apply IH'|]. destruct (H eq_refl) as [[r2 [e|]] ->]; [by eexists|apply IH'].
Qed.

(** Every directory below takes a link or is deeper. *)
Lemma ListDir_fuel fs n : forall dir, (match walk fs max_links [] dir with
    | inl (q, k) => entry_at fs q = Some EDir -> (k * S (depth fs) + (depth fs - length q) < n)%nat
    | inr _ => True end) -> (0 < n)%nat -> is_Some (ListDir n fs dir).
Proof.
  induction n as [|n IH]; intros dir Hb Hn; [lia|]. cbn [ListDir].
  destruct (ReadDir fs dir) as [files|e] eqn:E; [|by eexists].
  destruct (ReadDir_inl _ _ _ E) as (q & k & Hw & Hq & ->). rewrite Hw in Hb. specialize (Hb Hq).
  apply list_files_returns. intros name file Hc%elem_children Hs.
  pose proof (depth_ok _ _ _ Hc) as Hd. rewrite length_app in Hd. cbn in Hd.
  assert (walk fs max_links [] (dir ++ [name]) = walk fs k q [name]) as Hw1 by (by apply walk_snoc).
  rewrite walk_eq, Hc in Hw1. apply IH; [|lia]. rewrite Hw1. destruct file as [i| |t]; [done|..].
  - rewrite walk_nil. intros _. rewrite length_app. cbn. lia.
  - destruct k as [|k]; [done|]. destruct (walk fs k [] (t ++ [])) as [[q' k']|] eqn:Ew; [|done].
    apply walk_links in Ew. intros _. cbn in Hb. nia.
Qed.

(** What a listing is to contain: the files of the directory, and those of the
    directories below that are not hidden; a link counts as what it leads to. *)
Inductive listed (fs : FS) : path -> path -> Prop :=
| listed_file dir files name file e : ReadDir fs dir = inl files -> (name, file) ∈ files ->
    stands_for fs dir name file = inl e -> e ≠ EDir -> listed fs dir (dir ++ [name])
| listed_below dir files name file p : ReadDir fs dir = inl files -> (name, file) ∈ files ->
    stands_for fs dir name file = inl EDir -> hidden name = false -> listed fs (dir ++ [name]) p -> listed fs dir p.

Lemma list_files_elem rec fs dir files result l : list_files rec fs dir files result = Some (l, None) ->
  forall p, p ∈ l <-> p ∈ result \/ exists name file e, (name, file) ∈ files /\ stands_for fs dir name file = inl e /\
    (e ≠ EDir /\ p = dir ++ [name] \/
     e = EDir /\ hidden name = false /\ exists r2, rec (dir ++ [name]) = Some (r2, None) /\ p ∈ r2).
Proof.
  revert result. induction files as [|[name file] files IH]; intros result.
  { intros [= <-] p. split; [by left|]. intros [H|(? & ? & ? & H%not_elem_of_nil & _)]; done. }
  cbn [list_files]. fold (stands_for fs dir name file). intros H p.
  setoid_rewrite elem_of_cons.
  destruct (stands_for fs dir name file) as [e|] eqn:Es; [|done].
  assert (forall result' (Q : Prop), (p ∈ result' <-> p ∈ result \/ Q) ->
    (Q <-> e ≠ EDir /\ p = dir ++ [name] \/
       e = EDir /\ hidden name = false /\ exists r2, rec (dir ++ [name]) = Some (r2, None) /\ p ∈ r2) ->
    list_files rec fs dir files result' = Some (l, None) ->
    p ∈ l <-> p ∈ result \/ exists n f e, ((n, f) = (name, file) \/ (n, f) ∈ files) /\ stands_for fs dir n f = inl e /\
      (e ≠ EDir /\ p = dir ++ [n] \/
       e = EDir /\ hidden n = false /\ exists r2, rec (dir ++ [n]) = Some (r2, None) /\ p ∈ r2)) as Hstep.
  { intros result' Q Hr HQ Hl. rewrite (IH _ Hl p), Hr, HQ. split.
    - intros [[Hp|Hp]|(n & f & e' & Hf & Hs)]; [by left| |]; right.
      + exists name, file, e. auto.
      + exists n, f, e'. tauto.
    - intros [Hp|(n & f & e' & [[= -> ->]|Hf] & Hs & Hcase)]; [by left; left| |].
      + rewrite Es in Hs. injection Hs as <-. left. by right.
      + right. by exists n, f, e'. }
  destruct e as [i| |t].
  - apply (Hstep (result ++ [dir ++ [name]]) (p = dir ++ [name])); [by rewrite elem_of_app, list_elem_of_singleton| |done].
    split; [by left|]. intros [[_ ?]|[? _]]; done.
  - unfold hidden in *. destruct (has_prefix "." name) eqn:Eh.
    + apply (Hstep result False); [tauto| |done]. split; [done|]. intros [[? _]|(_ & ? & _)]; done.
    + destruct (rec (dir ++ [name])) as [[r2 [e|]]|] eqn:Er; [done| |done].
      apply (Hstep (result ++ r2) (p ∈ r2)); [by rewrite elem_of_app| |done].
      split; [intros Hp; right; split_and!; [done..|]; by exists r2|].
      intros [[? _]|(_ & _ & r & [= ->] & Hp)]; done.
  - apply (Hstep (result ++ [dir ++ [name]]) (p = dir ++ [name])); [by rewrite elem_of_app, list_elem_of_singleton| |done].
    split; [by left|]. intros [[_ ?]|[? _]]; done.
Qed.

Lemma list_files_rec rec fs dir files result l : list_files rec fs dir files result = Some (l, None) ->
  forall name file, (name, file) ∈ files -> stands_for fs dir name file = inl EDir -> hidden name = false ->
  exists r2, rec (dir ++ [name]) = Some (r2, None).
Proof.
  revert result. induction files as [|[n f] files IH]; intros result H name file; [by intros ?%not_elem_of_nil|].
  cbn [list_files] in H. fold (stands_for fs dir n f) in H. rewrite elem_of_cons. intros [[= -> ->]|Hin] Hs Hh.
  - rewrite Hs in H. unfold hidden in Hh. rewrite Hh in H.
    destruct (rec (dir ++ [n])) as [[r2 [e|]]|]; [done| |done]. by eexists.
  - destruct (stands_for fs dir n f) as [[i| |t]|]; try done; [by eapply IH| |by eapply IH].
    destruct (has_prefix "." n); [by eapply IH|].
    destruct (rec (dir ++ [n])) as [[r2 [e|]]|]; [done| |done]. by eapply IH.
Qed.

Lemma ListDir_elem fs n : forall dir l, ListDir n fs dir = Some (l, None) -> forall p, p ∈ l <-> listed fs dir p.
Proof.
  induction n as [|n IH]; intros dir l; [done|]. cbn [ListDir].
  destruct (ReadDir fs dir) as [files|e] eqn:E; [|done]. intros H p. rewrite (list_files_elem _ _ _ _ _ _ H p). split.
  - intros [Hp%not_elem_of_nil|(name & file & e & Hf & Hs & [[He ->]|(-> & Hh & r2 & Hr & Hp)])]; [done|..].
    + by eapply listed_file.
    + eapply listed_below; [done..|]. by apply (IH _ _ Hr).
  - intros Hl. right. inversion Hl as [? files' name file e HE Hf Hs He|? files' name file ? HE Hf Hs Hh Hbelow]; subst;
      rewrite E in HE; injection HE as <-.
    + exists name, file, e. split_and!; [done..|]. by left.
    + exists name, file, EDir. split_and!; [done..|]. right. split_and!; [done..|].
      destruct (list_files_rec _ _ _ _ _ _ H name file Hf Hs Hh) as [r2 Hr]. exists r2. split; [done|]. by apply (IH _ _ Hr).
Qed.

Lemma list_files_mono rec rec' fs dir files result r :
  (forall p r, rec p = Some r -> rec' p = Some r) ->
  list_files rec fs dir files result = Some r -> list_files rec' fs dir files result = Some r.
Proof.
  intros Hm. revert result. induction files as [|[name file] files IH]; intros result; [done|]. cbn [list_files].
  destruct (match file with ELink _ => Stat fs (dir ++ [name]) | _ => inl file end) as [[i| |t]|e]; [apply IH| |apply IH|done].
  destruct (has_prefix "." name); [apply IH|].
  destruct (rec (dir ++ [name])) as [[r2 e]|] eqn:E; [|done]. rewrite (Hm _ _ E). destruct e; [done|apply IH].
Qed.

Lemma ListDir_mono fs n m dir r : (n <= m)%nat -> ListDir n fs dir = Some r -> ListDir m fs dir = Some r.
Proof.
  revert m dir r. induction n as [|n IH]; intros [|m] dir r Hle; try done; [lia|]. cbn [ListDir].
  destruct (ReadDir fs dir); [|done]. apply list_files_mono. intros p r'. apply IH. lia.
Qed.

(** C23 Listing the files below a directory ends on every file system, cycles of links
    included, and one number of nested calls is enough whatever the directory.  If
    it reports no error, it lists exactly the files of the directory and of the
    directories below that are not hidden. *)
Theorem ListDir_lists fs dir : exists l err,
  (forall n, (list_fuel fs <= n)%nat -> ListDir n fs dir = Some (l, err)) /\
  (err = None -> forall p, p ∈ l <-> listed fs dir p).
Proof.
  destruct (ListDir_fuel fs (list_fuel fs) dir) as [[l err] E].
  - unfold list_fuel. destruct (walk fs max_links [] dir) as [[q k]|] eqn:Ew; [|done].
    apply walk_links in Ew. intros _. nia.
  - unfold list_fuel. lia.
  - exists l, err. split; [intros n Hn; by eapply ListDir_mono|]. intros ->. by eapply ListDir_elem.
Qed.

(** ** Contents *)

(** The file a path leads to, and what is in it. *)
Definition ino (fs : FS) (p : path) : option nat :=
  match namei fs p with inl q => match entry_at fs q with Some (EFile i) => Some i | _ => None end | inr _ => None end.
Definition content (fs : FS) (p : path) : option (list byte) := i ← ino fs p; data fs !! i.

(** No name leads to a file that is not there. *)
Definition wf (fs : FS) : Prop := forall p i, names fs !! p = Some (EFile i) -> is_Some (data fs !! i).

Lemma ino_Some fs p i : ino fs p = Some i <-> exists q, namei fs p = inl q /\ entry_at fs q = Some (EFile i).
Proof.
  unfold ino. destruct (namei fs p) as [q|]; [|by split; [|intros (? & ? & ?)]].
  destruct (entry_at fs q) as [[j| |t]|] eqn:E; split; try done; try (by intros (q' & [= <-] & H); rewrite E in H).
  - intros [= ->]. by exists q.
  - intros (q' & [= <-] & H). rewrite E in H. by injection H as ->.
Qed.

Lemma entry_file fs q i : entry_at fs q = Some (EFile i) -> names fs !! q = Some (EFile i).
Proof. by destruct q. Qed.

Lemma ino_wf fs p i : wf fs -> ino fs p = Some i -> is_Some (data fs !! i).
Proof. intros Hwf (q & _ & Hq)%ino_Some. by eapply Hwf, entry_file. Qed.

Lemma Stat_ino fs p i : Stat fs p = inl (EFile i) -> ino fs p = Some i.
Proof. intros H%Stat_inl. by apply ino_Some. Qed.

Lemma namei_new_file fs q i p p' : names fs !! q = None -> namei fs p = inl p' ->
  namei (with_names (insert q (EFile i)) fs) p = inl p'.
Proof.
  intros Hq. unfold namei. destruct (walk fs max_links [] p) as [[? ?]|] eqn:E; [|done]. intros [= ->].
  by rewrite (walk_new_file _ _ _ _ _ _ _ Hq E).
Qed.

Lemma walk_data fs f k rest cur : walk (with_data f fs) k cur rest = walk fs k cur rest.
Proof.
  revert rest cur. induction k as [k IHk] using lt_wf_ind. intros rest. induction rest as [|c rest IH]; intros cur.
  { by rewrite !walk_nil. }
  rewrite !walk_eq. cbn [with_data names]. destruct (names fs !! (cur ++ [c])) as [[i| |t]|]; [done|by apply IH| |done].
  destruct k; [done|]. apply IHk. lia.
Qed.

Lemma ino_data fs f p : ino (with_data f fs) p = ino fs p.
Proof. unfold ino, namei. by rewrite walk_data. Qed.

Lemma ino_open fs f p : ino (with_open f fs) p = ino fs p.
Proof. exact (ino_data (with_open f fs) id p). Qed.

(** Creating fails and changes nothing; or it gives the file that the path leads to
    or a new one, empty, and every other path leads where it led. *)
Lemma Create_cases fs dst : (exists e, Create dst fs = (Ret (inr e), fs)) \/
  exists i fs1, Create dst fs = (Ret (inl i), fs1) /\ ino fs1 dst = Some i /\ data fs1 = <[i := []]> (data fs) /\
    open_files fs1 = S (open_files fs) /\ (forall p j, ino fs p = Some j -> ino fs1 p = Some j) /\
    (ino fs dst = Some i \/ data fs !! i = None).
Proof.
  unfold Create, check. destruct (fails OCreate dst); [left; by eexists|].
  destruct (namei fs dst) as [q|e] eqn:En; [|left; by eexists].
  destruct (entry_at fs q) as [[i| |t]|] eqn:Eq; [|left; by eexists..|].
  - right. exists i, (with_open S (with_data (insert i []) fs)).
    assert (ino fs dst = Some i) as Hi by (apply ino_Some; by exists q).
    assert (forall p j, ino fs p = Some j -> ino (with_open S (with_data (insert i []) fs)) p = Some j) as Hk
      by (intros p j Hj; by rewrite ino_open, ino_data).
    split_and!; try done. by left.
  - right. set (i := fresh (dom (data fs))).
    exists i, (with_open S (with_names (insert q (EFile i)) (with_data (insert i []) fs))).
    assert (names fs !! q = None) as Hq by (by destruct q).
    assert (forall p p', namei fs p = inl p' -> namei (with_names (insert q (EFile i)) (with_data (insert i []) fs)) p = inl p') as Hn.
    { intros p p' Hp. apply (namei_new_file fs q i p p' Hq) in Hp. revert Hp. unfold namei.
      change (with_names (insert q (EFile i)) (with_data (insert i []) fs)) with (with_data (insert i []) (with_names (insert q (EFile i)) fs)).
      by rewrite walk_data. }
    split_and!; try done.
    + rewrite ino_open. apply ino_Some. exists q. split; [by apply Hn|]. destruct q; [done|]. cbn. by rewrite lookup_insert_eq.
    + intros p j (p' & Hp & He)%ino_Some. rewrite ino_open. apply ino_Some. exists p'. split; [by apply Hn|].
      destruct p' as [|c p']; [done|]. cbn [entry_at with_names names with_data] in *. rewrite lookup_insert_ne; [done|].
      intros ->. by rewrite He in Hq.
    + right. apply not_elem_of_dom, is_fresh.
Qed.

(** What copying and storing do to the files: [kept fs dst fs'] is what they leave as
    it was. *)
Definition kept (fs : FS) (dst : path) (fs' : FS) : Prop :=
  open_files fs' = open_files fs /\ (forall p j, ino fs p = Some j -> ino fs' p = Some j) /\
  (forall j x, data fs !! j = Some x -> ino fs dst ≠ Some j -> data fs' !! j = Some x).

Lemma kept_refl fs dst : kept fs dst fs.
Proof. by split_and!. Qed.

Lemma kept_content fs dst fs' p x : kept fs dst fs' -> content fs p = Some x -> ino fs p ≠ ino fs dst ->
  content fs' p = Some x.
Proof.
  intros (_ & Hi & Hd) (j & Hj & Hx)%bind_Some Hne. unfold content. rewrite (Hi p j Hj). cbn. apply Hd; [done|]. congruence.
Qed.

(** Written once it is made. *)
Lemma kept_written fs dst i fs1 bytes : ino fs1 dst = Some i -> data fs1 = <[i := []]> (data fs) ->
  open_files fs1 = S (open_files fs) -> (forall p j, ino fs p = Some j -> ino fs1 p = Some j) ->
  (ino fs dst = Some i \/ data fs !! i = None) -> forall (f : nat -> nat), f (S (open_files fs)) = open_files fs ->
  kept fs dst (with_open f (with_data (insert i bytes) fs1)) /\
  content (with_open f (with_data (insert i bytes) fs1)) dst = Some bytes.
Proof.
  intros Hd Hdata Ho Hi Hnew f Hf. split.
  - split_and!; [cbn; by rewrite Ho| |].
    + intros p j Hj. rewrite ino_open, ino_data. by apply Hi.
    + intros j x Hx Hne. cbn. rewrite Hdata. assert (i ≠ j) by (intros ->; destruct Hnew; congruence).
      by rewrite !lookup_insert_ne.
  - unfold content. rewrite ino_open, ino_data, Hd. cbn. by rewrite lookup_insert_eq.
Qed.

(** [Open] fails and changes nothing, or gives the file the path leads to. *)
Lemma Open_cases fs p i : ino fs p = Some i ->
  (exists e, Open p fs = (Ret (inr e), fs)) \/ Open p fs = (Ret (inl (DFile i)), with_open S fs).
Proof.
  intros (q & Hn & Hq)%ino_Some. unfold Open, check, found. rewrite Hn, Hq.
  destruct (fails OOpen p); [left; by eexists|by right].
Qed.

Lemma copyFileContents_ok stops sync cl src dst fs i bytes : ino fs src = Some i -> data fs !! i = Some bytes ->
  ino fs dst ≠ Some i -> exists r fs', copyFileContents stops sync cl src dst fs = (Ret r, fs') /\
    kept fs dst fs' /\ (r = None -> content fs' dst = Some bytes).
Proof.
  intros Hs Hb Hne. unfold copyFileContents, mbind, M_bind.
  destruct (Open_cases fs src i Hs) as [[e ->]| ->]; [by eexists _, _; split; [done|]; split; [apply kept_refl|]|].
  unfold defer, M_bind.
  destruct (Create_cases (with_open S fs) dst) as [[e ->]|(o & fs1 & -> & Hd & Hdata & Ho & Hi & Hnew)].
  { eexists _, _. split; [done|]. split; [|done]. by destruct fs. }
  assert (forall p j, ino fs p = Some j -> ino fs1 p = Some j) as Hi'
    by (intros p j Hj; apply Hi; by rewrite ino_open).
  rewrite ino_open in Hnew. cbn [with_open data open_files] in *.
  assert (o ≠ i) as Hoi by (intros ->; destruct Hnew; congruence).
  assert (forall bytes f, f (S (S (open_files fs))) = open_files fs ->
    kept fs dst (with_open f (with_data (insert o bytes) fs1)) /\
    content (with_open f (with_data (insert o bytes) fs1)) dst = Some bytes) as Hw.
  { intros bs f Hf. destruct (kept_written fs dst o (with_open pred fs1) bs) with (f := fun n => f (S n)) as [H1 H2];
      [by rewrite ino_open|done|cbn; lia|intros p j Hj; rewrite ino_open; by apply Hi'|done|done|].
    assert (with_open (fun n => f (S n)) (with_data (insert o bs) (with_open pred fs1)) =
      with_open f (with_data (insert o bs) fs1)) as <- by (unfold with_open, with_data; cbn; by rewrite Ho).
    done. }
  unfold ReadAll, check. rewrite Hdata, lookup_insert_ne, Hb by done. cbn [from_option id].
  destruct (fails ORead src) as [e|].
  { eexists _, _. split; [done|]. split; [|done]. destruct (Hw [] (fun n => pred (pred n)) eq_refl) as [Hk _].
    assert (with_open pred (with_open pred fs1) = with_open (fun n => pred (pred n)) (with_data (insert o []) fs1)) as ->; [|done].
    unfold with_open, with_data. cbn. by rewrite Hdata, insert_insert_eq. }
  destruct stops as [[n e]|]; eexists _, _; (split; [done|]).
  - split; [|done]. exact (proj1 (Hw (take n bytes) (fun n => pred (pred n)) eq_refl)).
  - destruct (Hw bytes (fun n => pred (pred n)) eq_refl) as [H1 H2]. split; [exact H1|]. intros _. exact H2.
Qed.

(** C28 Copying never loses data.  Whatever fails on the way, and whichever links lead
    from one path to the other: [CopyFile] returns, the source has its content, and
    so has every path that does not lead to the destination's file; no descriptor
    stays open.  If it reports no error, the destination has the source's content. *)
Theorem CopyFile_safe stops sync cl src dst fs : wf fs -> exists r fs',
  CopyFile stops sync cl src dst fs = (Ret r, fs') /\ open_files fs' = open_files fs /\
  (forall x, content fs src = Some x -> content fs' src = Some x) /\
  (forall p x, content fs p = Some x -> ino fs p ≠ ino fs dst -> content fs' p = Some x) /\
  (r = None -> exists x, content fs src = Some x /\ content fs' dst = Some x).
Proof.
  intros Hwf. unfold CopyFile.
  assert (forall r, r ≠ None -> exists r' fs', (@Ret (option os_err) r, fs) = (Ret r', fs') /\ open_files fs' = open_files fs /\
    (forall x, content fs src = Some x -> content fs' src = Some x) /\
    (forall p x, content fs p = Some x -> ino fs p ≠ ino fs dst -> content fs' p = Some x) /\
    (r' = None -> exists x, content fs src = Some x /\ content fs' dst = Some x)) as Herr.
  { intros r Hr. by exists r, fs. }
  destruct (Stat fs src) as [[i| |t]|e] eqn:Es; try by apply Herr.
  pose proof (Stat_ino _ _ _ Es) as Hs. destruct (ino_wf fs src i Hwf Hs) as [x Hx].
  assert (content fs src = Some x) as Hc by (unfold content; by rewrite Hs).
  assert (ino fs dst ≠ Some i -> exists r fs', copyFileContents stops sync cl src dst fs = (Ret r, fs') /\
    open_files fs' = open_files fs /\ (forall x, content fs src = Some x -> content fs' src = Some x) /\
    (forall p x, content fs p = Some x -> ino fs p ≠ ino fs dst -> content fs' p = Some x) /\
    (r = None -> exists x, content fs src = Some x /\ content fs' dst = Some x)) as Hcopy.
  { intros Hne. destruct (copyFileContents_ok stops sync cl src dst fs i x Hs Hx Hne) as (r & fs' & E & Hk & Hd).
    exists r, fs'. split; [done|]. split; [apply Hk|]. split; [|split].
    - intros y Hy. apply (kept_content fs dst fs' src y Hk Hy). congruence.
    - intros p y Hy. by apply (kept_content fs dst fs' p y Hk).
    - intros Hr. exists x. auto. }
  destruct (Stat fs dst) as [[j| |t]|e] eqn:Ed; [| by apply Herr| by apply Herr|].
  - apply Stat_ino in Ed. case_decide as Hij.
    + subst j. exists None, fs. split_and!; try done. intros _. exists x. unfold content. by rewrite Ed.
    + apply Hcopy. congruence.
  - destruct (IsNotExist e) eqn:Ee; cbn; [|by apply Herr]. apply Hcopy. intros (q & Hn & Hq)%ino_Some.
    unfold Stat, check, found in Ed. rewrite Hn, Hq in Ed. destruct (fails OStat dst); [|done]. by injection Ed as <-.
Qed.

(** What is stored is loaded, and neither leaves a descriptor open. *)
Lemma loadFile_content fs p x : content fs p = Some x -> fails OOpen p = None -> fails ORead p = None ->
  loadFile p fs = (Ret (Some x, None), fs).
Proof.
  intros (i & Hi & Hx)%bind_Some Ho Hr. unfold loadFile, mbind, M_bind.
  apply ino_Some in Hi as (q & Hn & Hq). unfold Open, check, found. rewrite Ho, Hn, Hq.
  unfold defer, ReadAll, check. rewrite Hr. cbn. rewrite Hx. by destruct fs.
Qed.

Lemma Store2File_load file c fs fs' : Store2File None file c fs = (Ret None, fs') ->
  fails OOpen file = None -> fails ORead file = None ->
  exists fs'', loadFile file fs' = (Ret (Some c, None), fs'').
Proof.
  intros H Ho Hr. exists fs'. apply loadFile_content; [|done..]. revert H. unfold Store2File.
  unfold mbind at 1, M_bind at 1. set (m := match c with [] => _ | _ => _ end).
  destruct (m fs) as [[u|] fs0]; [|done]. unfold mbind at 1, M_bind at 1.
  destruct (EnsureDir (removelast file) fs0) as [[[e|]|] fs1]; [done| |done]. unfold mbind at 1, M_bind at 1.
  destruct (Create_cases fs1 file) as [[e ->]|(i & fs2 & -> & Hd & _)]; [done|].
  unfold defer, mbind, M_bind. intros [= <-]. unfold content. rewrite ino_open, ino_data, Hd. cbn. by rewrite lookup_insert_eq.
Qed.

(** The two tests for a file differ exactly where the system gives another error than
    that there is none. *)
Lemma Exists_PathExists fs p : Exists_ fs p ≠ PathExists fs p <-> exists e, Stat fs p = inr e /\ e ≠ ENOENT.
Proof.
  unfold Exists_, PathExists. destruct (Stat fs p) as [e|e].
  - split; [done|]. intros (e' & H & _). done.
  - split.
    + intros H. exists e. split; [done|]. by intros ->.
    + intros (e' & [= <-] & H). by destruct e.
Qed.

(** Asking whether a directory is empty leaves its descriptor open. *)
Lemma IsEmpty_leaks dir fs b e fs' : IsEmpty dir fs = (Ret (b, e), fs') ->
  (exists d, Open dir fs = (Ret (inl d), fs')) /\ open_files fs' = S (open_files fs) \/ fs' = fs /\ b = false.
Proof.
  unfold IsEmpty, mbind, M_bind. destruct (Open dir fs) as [[[d|e']|] fs1] eqn:E; [|intros [= <- <- <-]|done].
  - intros H. left. unfold Open in E. destruct (check OOpen dir _) as [[q [i| |t]]|]; try done;
      injection E as <- <-; cbn in H; injection H as _ <-; by split; [eexists|].
  - right. unfold Open in E. destruct (check OOpen dir _) as [[q [i| |t]]|]; try done. by injection E as _ <-.
Qed.

End calls.

(** ** Examples *)

Module Tree.

Definition never : call -> path -> option string := fun _ _ => None.
Definition bytes (s : string) : list byte := String.list_byte_of_string s.

(** [/data/a] and [/b] are the same file, [/data/up] is a link to [/data], [/c] to
    nothing. *)
Definition tree : FS := mkFS
  {[ ["data"%string] := EDir; ["data"; "a"]%string := EFile 1; ["b"%string] := EFile 1;
     ["data"; ".git"]%string := EDir; ["data"; ".git"; "x"]%string := EFile 2;
     ["data"; "sub"]%string := EDir; ["data"; "sub"; ".h"]%string := EFile 2;
     ["data"; "up"]%string := ELink ["data"%string]; ["c"%string] := ELink ["data"; "new"]%string ]}
  {[ 1%nat := bytes "one"; 2%nat := bytes "two" ]} 0 [].

Lemma tree_wf : wf tree.
Proof.
  intros p i H%elem_of_map_to_list.
  assert (Forall (fun pe => match pe.2 with EFile i => bool_decide (is_Some (data tree !! i)) = true | _ => True end)
    (map_to_list (names tree))) as Hall by (vm_compute; repeat constructor).
  apply (proj1 (Forall_forall _ _) Hall) in H. by apply bool_decide_eq_true in H.
Qed.

(** Onto a hard link of itself nothing is done; through a link to nothing the file
    that the link names is made. *)
Lemma CopyFile_safe_witness : exists r fs', CopyFile never None None None ["b"%string] ["c"%string] tree = (Ret r, fs') /\
  content fs' ["b"%string] = Some (bytes "one") /\ content fs' ["data"; "new"]%string = Some (bytes "one").
Proof.
  destruct (CopyFile_safe never None None None ["b"%string] ["c"%string] tree tree_wf) as (r & fs' & E & _ & Hs & _).
  exists r, fs'. split; [exact E|]. split; [apply Hs; vm_compute; reflexivity|].
  vm_compute in E. injection E as <- <-. vm_compute. reflexivity.
Defined.

(** What would be below a file exists, by one of the two tests. *)
Example below_a_file : Exists_ never tree ["b"; "x"]%string = true /\ PathExists never tree ["b"; "x"]%string = false.
Proof. vm_compute. done. Qed.

Example copy_to_itself : CopyFile never None None None ["data"; "a"]%string ["b"%string] tree = (Ret None, tree).
Proof. vm_compute. reflexivity. Qed.

(** Without the comparison of the files the copy would be empty. *)
Example copy_contents_to_itself :
  content (copyFileContents never None None None ["data"; "a"]%string ["b"%string] tree).2 ["data"; "a"]%string = Some [].
Proof. vm_compute. reflexivity. Qed.

(** A cycle of links makes the listing fail, after forty rounds; so does one link to
    nothing.  What was found in the directory itself is returned. *)
Example cycle_fails : ListDir never (list_fuel tree) tree ["data"%string] =
  Some ([["data"; "a"]; ["data"; "sub"; ".h"]], Some ELOOP)%string.
Proof. vm_compute. reflexivity. Qed.

Definition dangling : FS := mkFS {[ ["a"%string] := EFile 1; ["b"%string] := ELink ["gone"%string]; ["c"%string] := EFile 1 ]}
  {[ 1%nat := [] ]} 0 [].

Example dangling_fails : ListDir never 2 dangling [] = Some ([["a"%string]], Some ENOENT).
Proof. vm_compute. reflexivity. Qed.

Example hidden_left_out : ListDir never (list_fuel tree) (with_names (delete ["data"; "up"]%string) tree) ["data"%string] =
  Some ([["data"; "a"]; ["data"; "sub"; ".h"]], None)%string.
Proof. vm_compute. reflexivity. Qed.

Lemma Store2File_load_witness : exists fs' fs'',
  Store2File never None ["x"; "y"; "f"]%string (bytes "text") tree = (Ret None, fs') /\
  loadFile never ["x"; "y"; "f"]%string fs' = (Ret (Some (bytes "text"), None), fs'').
Proof.
  destruct (Store2File never None ["x"; "y"; "f"]%string (bytes "text") tree) as [[[e|]|m] fs'] eqn:E;
    [exfalso; vm_compute in E; discriminate E| |exfalso; vm_compute in E; discriminate E].
  destruct (Store2File_load never ["x"; "y"; "f"]%string (bytes "text") tree fs' E eq_refl eq_refl) as [fs'' H].
  by exists fs', fs''.
Defined.

End Tree.

End Files.
