(* ===== verification/Stat.v ===== *)
(** * Statistics of calls ([runtime/stat/stat.go])

    Finished calls travel through a channel to one goroutine, which groups them by
    command and result and writes a table of them at every tick.  The current time,
    the process id and the text of floating point quotients are parameters, and so
    is what the file system allows. *)

From stdpp Require Import sorting.
From S2P Require Import Prelude GoStd GoStrings Derror.
Import GoStd GoStrings.

Module Stat.

Definition Microsecond : Z := 1000.

(* [runtime/stat/stat.go:23-33] StatValue *)
Record StatValue : Type := mkSV {
  Total : Z; SumVal : Z; Avg : Z; Max : Z; Min : Z; Gt10 : Z; Gt100 : Z; Gt500 : Z; TotalD : Z
}.

(* [runtime/stat/stat.go:35-40] Stat *)
Record Stat : Type := mkStat { cmd : string; b : Z; e : Z; ret : Z }.

(* [runtime/stat/stat.go:42-44] NewStat *)
Definition NewStat : Stat := mkStat EmptyString 0 0 0.

(* [runtime/stat/stat.go:53-57] BeginAt *)
Definition BeginAt (c : string) (begin : Z) (st : Stat) : Stat := mkStat c begin (e st) (ret st).

(* [runtime/stat/stat.go:46-50] Begin *)
Definition Begin (c : string) (now : Z) (st : Stat) : Stat := BeginAt c now st.

(** [funcName]: what [utls.FuncName] finds on the stack. *)
(* [runtime/stat/stat.go:60-71] BeginFuncCmd, BeginFuncCmdAt *)
Definition BeginFuncCmdAt (funcName : string) (begin : Z) (st : Stat) : Stat := BeginAt funcName begin st.

(* [runtime/stat/stat.go:74-78] beginFuncAt *)
Definition beginFuncAt (pre funcName : string) (begin : Z) (st : Stat) : Stat :=
  BeginAt (pre +:+ "." +:+ funcName) begin st.

(* [runtime/stat/stat.go:112-114] Elapse *)
Definition Elapse (st : Stat) : Z := time_Sub (e st) (b st).

(** A file: the bytes that were there before, and what was written since. *)
Record file : Type := mkFile { before : Z; written : string }.
Definition size (f : file) : Z := before f + Z.of_nat (String.length (written f)).

(** [consuming]: [Init] has started the goroutine that empties the channel. *)
(* [runtime/stat/stat.go:124-130] StatMgr *)
Record StatMgr : Type := mkMgr {
  m : gmap string StatValue; c : list Stat; statFile : option string; statGap : Z; maxCmdLen : Z;
  consuming : bool
}.

(** The package: its manager, the shared buffer, the files, and what it logs. *)
Record G : Type := mkG { statMgr : option StatMgr; buf : string; fs : gmap string file; logged : list string }.

Definition with_mgr (mgr : StatMgr) (g : G) : G := mkG (Some mgr) (buf g) (fs g) (logged g).
Definition dlog_Error (msg : string) : M G unit := modify (fun g => mkG (statMgr g) (buf g) (fs g) (logged g ++ [msg])).

Definition sep : string := "$$$".
Definition tt_ : Z := 1000.
Definition channel_size : Z := 4096.

(* [runtime/stat/stat.go:135-143] StatMgrInstance *)
Definition StatMgrInstance : M G StatMgr := fun g =>
  match statMgr g with
  | Some mgr => (Ret mgr, g)
  | None => let mgr := mkMgr ∅ [] None 0 0 false in (Ret mgr, with_mgr mgr g)
  end.

(** *** Grouping *)

Definition key (c : string) (r : Z) : string := c +:+ sep +:+ itoa r.

(** Microseconds. *)
Definition duration (st : Stat) : Z := Z.quot (Elapse st) Microsecond.

Definition bump (ds : Z) (v : StatValue) : StatValue :=
  let ms10 := Microsecond * 10 in
  let ms100 := Microsecond * 100 in
  let ms500 := Microsecond * 500 in
  if (ms10 <=? ds) && (ds <? ms100)
  then mkSV (Total v) (SumVal v) (Avg v) (Max v) (Min v) (i64 (Gt10 v + 1)) (Gt100 v) (Gt500 v) (TotalD v)
  else if (ms100 <=? ds) && (ds <? ms500)
  then mkSV (Total v) (SumVal v) (Avg v) (Max v) (Min v) (Gt10 v) (i64 (Gt100 v + 1)) (Gt500 v) (TotalD v)
  else if ms500 <=? ds
  then mkSV (Total v) (SumVal v) (Avg v) (Max v) (Min v) (Gt10 v) (Gt100 v) (i64 (Gt500 v + 1)) (TotalD v)
  else v.

(* [runtime/stat/stat.go:260-305] stat *)
Definition stat (st : Stat) (mgr : StatMgr) : StatMgr :=
  let cmdRet := key (cmd st) (ret st) in
  let ds := duration st in
  let v :=
    match m mgr !! cmdRet with
    | Some v => mkSV (i64 (Total v + 1)) (SumVal v) (Avg v) (Z.max ds (Max v)) (Z.min ds (Min v))
                     (Gt10 v) (Gt100 v) (Gt500 v) (i64 (TotalD v + ds))
    | None => mkSV 1 0 0 ds ds 0 0 0 ds
    end in
  mkMgr (<[cmdRet := bump ds v]> (m mgr)) (c mgr) (statFile mgr) (statGap mgr)
    (Z.max (maxCmdLen mgr) (Z.of_nat (String.length (cmd st)))) (consuming mgr).

(** *** The table *)

(** Padding counts characters: bytes that do not continue one. *)
Fixpoint rune_count (s : string) : Z :=
  match s with
  | EmptyString => 0
  | String a s' => (if (128 <=? Z.of_N (N_of_ascii a)) && (Z.of_N (N_of_ascii a) <? 192) then 0 else 1) + rune_count s'
  end.
Definition spaces (n : Z) : string := join EmptyString (replicate (Z.to_nat n) " ").
Definition pad_left (w : Z) (s : string) : string := spaces (w - rune_count s) +:+ s.
Definition pad_right (w : Z) (s : string) : string := s +:+ spaces (w - rune_count s).

Record totals : Type := mkTotals { t_total : Z; t_max : Z; t_min : Z; t_gt10 : Z; t_gt100 : Z; t_gt500 : Z }.

Definition no_totals : totals := mkTotals 0 0 maxInt64 0 0 0.

Definition add_totals (v : StatValue) (t : totals) : totals :=
  mkTotals (i64 (t_total t + Total v))
    (if t_max t <? Max v then Max v else t_max t)
    (if Min v <? t_min t then Min v else t_min t)
    (if 0 <? Gt10 v then i64 (t_gt10 t + Gt10 v) else t_gt10 t)
    (if 0 <? Gt100 v then i64 (t_gt100 t + Gt100 v) else t_gt100 t)
    (if 0 <? Gt500 v then i64 (t_gt500 t + Gt500 v) else t_gt500 t).

(** [fixed3 a b]: the quotient of the floats of [a] and [b], with three decimals;
    [writable], [openable]: what the file system allows. *)
Section manager.
Variable pid : Z.
Variable time_text : string.
Variable fixed3 : Z -> Z -> string.
Variable writable openable : string -> bool.

Definition newline : string := String "010" EmptyString.

Definition title (gap : Z) : string :=
  "===============PID " +:+ itoa pid +:+ ", Statistic in " +:+ itoa (Z.quot gap Second) +:+ "s, " +:+ time_text +:+
  "=====================" +:+ newline.

Definition row (w : Z) (name r total sumval avg max min recatmax gt10 gt100 gt500 : string) : string :=
  join "|" [pad_right w name; pad_left 8 r; pad_left 8 total; pad_left 8 sumval; pad_left 9 avg; pad_left 9 max;
            pad_left 9 min; pad_right 18 recatmax; pad_left 11 gt10; pad_left 11 gt100; pad_left 11 gt500; newline].

Definition head (w : Z) : string :=
  row w EmptyString "RESULT" "TOTAL" "SUMVAL" "AVG(ms)" "MAX(ms)" "MIN(ms)" "RECATMAX" ">10.000ms" ">100.000ms" ">500.000ms".

Definition content (w : Z) (cmd : string) (ret : Z) (v : StatValue) : string :=
  row w cmd (itoa ret) (itoa (Total v)) "0" (fixed3 (TotalD v) (i64 (Total v * tt_))) (fixed3 (Max v) tt_)
    (fixed3 (Min v) tt_) EmptyString (itoa (Gt10 v)) (itoa (Gt100 v)) (itoa (Gt500 v)).

Definition rule : string :=
  "----------------------------------------------------------------------------------------" +:+ newline.

Definition tail_row (w : Z) (t : totals) : string :=
  let min := if t_min t =? maxInt64 then 0 else t_min t in
  row w "ALL" "0" (itoa (t_total t)) "0" (fixed3 0 1) (fixed3 (t_max t) tt_) (fixed3 min tt_) EmptyString
    (itoa (t_gt10 t)) (itoa (t_gt100 t)) (itoa (t_gt500 t)).

(** The loop over the sorted keys: the text, the totals and what is logged. *)
Fixpoint dump_loop (w : Z) (vs : gmap string StatValue) (keys : list string) (t : totals)
  : string * totals * list string :=
  match keys with
  | [] => (EmptyString, t, [])
  | k :: keys' =>
      match vs !! k, split_on sep k with
      | Some v, [cmd; r] =>
          let ret := match parse_int r with inl ret => ret | inr _ => maxInt32 end in
          let '(text, t', errs) := dump_loop w vs keys' (add_totals v t) in
          (content w cmd ret v +:+ text, t', errs)
      | _, _ =>
          let '(text, t', errs) := dump_loop w vs keys' t in (text, t', "invalid stat key, " :: errs)
      end
  end.

Definition os_Rename (old new : string) (files : gmap string file) : gmap string file :=
  match files !! old with Some f => <[new := f]> (delete old files) | None => files end.

Definition numbered (name : string) (i : Z) : string := name +:+ "." +:+ itoa i.

Definition MaxStatFileSize : Z := 100 * 1024 * 1024.
Definition MaxStatFileCount : nat := 10.

(** [i] from [n] down to 1. *)
Fixpoint shift_files (name : string) (n : nat) (files : gmap string file) : gmap string file :=
  match n with
  | O => files
  | S n' => shift_files name n' (os_Rename (numbered name (Z.of_nat n)) (numbered name (Z.of_nat n + 1)) files)
  end.

(** [os.OpenFile] with [O_CREATE] and [O_APPEND]. *)
Definition open_append (name : string) (files : gmap string file) : option (gmap string file) :=
  if openable name then Some (match files !! name with Some _ => files | None => <[name := mkFile 0 EmptyString]> files end)
  else None.

Definition set_file (f : option string) (mgr : StatMgr) : StatMgr :=
  mkMgr (m mgr) (c mgr) f (statGap mgr) (maxCmdLen mgr) (consuming mgr).

(* [runtime/stat/stat.go:310-337] rotateFile *)
Definition rotateFile (mgr : StatMgr) (name : string) : M G unit := fun g =>
  match fs g !! name with
  | None => dlog_Error "stat failed." g
  | Some f =>
      if size f <? MaxStatFileSize then (Ret tt, g) else
      let files := shift_files name (MaxStatFileCount - 1) (fs g) in
      let files := os_Rename name (numbered name 1) files in
      match open_append name files with
      | Some files => (Ret tt, mkG (Some (set_file (Some name) mgr)) (buf g) files (logged g))
      | None => dlog_Error "rotate stat file failed" (mkG (Some (set_file None mgr)) (buf g) files (logged g))
      end
  end.

Definition append_file (name text : string) (files : gmap string file) : gmap string file :=
  alter (fun f => mkFile (before f) (written f +:+ text)) name files.

(** The write and, when it succeeds, the rotation. *)
Definition write_stat (mgr : StatMgr) (text : string) : M G unit :=
  match statFile mgr with
  | None => dlog_Error "write stat failed"
  | Some name =>
      if writable name then
        _ ← modify (fun g => mkG (statMgr g) (buf g) (append_file name text (fs g)) (logged g));
        rotateFile mgr name
      else dlog_Error "write stat failed"
  end.

Definition truncate_buf : M G unit := modify (fun g => mkG (statMgr g) EmptyString (fs g) (logged g)).

(* [runtime/stat/stat.go:175-258] dump *)
Definition dump : M G unit := fun g =>
  match statMgr g with
  | None => panic "nil pointer dereference" g
  | Some mgr =>
      defer truncate_buf
        (if decide (m mgr = ∅) then mret tt else
         let keys := sort_Strings (map_to_list (m mgr)).*1 in
         let w := maxCmdLen mgr in
         let '(body, t, errs) := dump_loop w (m mgr) keys no_totals in
         let mgr := mkMgr (foldl (fun vs k => delete k vs) (m mgr) keys) (c mgr) (statFile mgr) (statGap mgr)
                      (maxCmdLen mgr) (consuming mgr) in
         let text := buf g +:+ title (statGap mgr) +:+ head w +:+ body +:+ rule +:+ tail_row w t +:+ newline in
         _ ← modify (fun g => mkG (Some mgr) text (fs g) (logged g ++ errs));
         write_stat mgr text) g
  end.

(** *** The goroutine and its callers *)

(* [runtime/stat/stat.go:145-164] Init *)
Definition Init (statPath : string) (gap : Z) : M G unit := fun g =>
  match statMgr g with
  | None => panic "nil pointer dereference" g
  | Some mgr =>
      match open_append statPath (fs g) with
      | None => dlog_Error "init stat file failed" (mkG (Some (set_file None mgr)) (buf g) (fs g) (logged g))
      | Some files =>
          let g := mkG (Some (mkMgr (m mgr) (c mgr) (Some statPath) gap (maxCmdLen mgr) (consuming mgr)))
                     (buf g) files (logged g) in
          if gap <=? 0 then panic "non-positive interval for NewTicker" g
          else (Ret tt, mkG (Some (mkMgr (m mgr) (c mgr) (Some statPath) gap (maxCmdLen mgr) true)) (buf g) files (logged g))
      end
  end.

(** Sending waits for room in the channel: [None] when there is none. *)
(* [runtime/stat/stat.go:166-168] addStat *)
Definition addStat (st : Stat) (mgr : StatMgr) : option StatMgr :=
  if len (c mgr) <? channel_size
  then Some (mkMgr (m mgr) (c mgr ++ [st]) (statFile mgr) (statGap mgr) (maxCmdLen mgr) (consuming mgr))
  else None.

(* [runtime/stat/stat.go:80-89] End *)
Definition End_ (r now : Z) (st : Stat) (g : G) : option G :=
  let st := mkStat (cmd st) (b st) now r in
  match statMgr g with
  | None => Some (mkG None (buf g) (fs g) (logged g ++ ["StatMgr is not init."]))
  | Some mgr => mgr' ← addStat st mgr; Some (with_mgr mgr' g)
  end.

(** The kinds of error: none, a coded one (whose pointer may be nil), another. *)
Inductive error : Type := NoError | Coded (err : option Derror.CodeError) | OtherError.

(* [runtime/stat/stat.go:91-109] EndErr *)
Definition EndErr (err : error) (now : Z) (st : Stat) (g : G) : option G :=
  match err with
  | NoError | Coded None => End_ 0 now st g
  | Coded (Some e) => End_ (Derror.Code e) now st g
  | OtherError => End_ (-1) now st g
  end.

(* [runtime/stat/stat.go:116-118] DeferStat *)
Definition DeferStat (funcName : string) (begin : Z) (err : option Derror.CodeError) (now : Z) (g : G) : option G :=
  EndErr (Coded err) now (beginFuncAt EmptyString funcName begin NewStat) g.

(* [runtime/stat/stat.go:120-122] DeferAppStat *)
Definition DeferAppStat (appid : Z) (funcName : string) (begin : Z) (err : option Derror.CodeError) (now : Z) (g : G) : option G :=
  EndErr (Coded err) now (beginFuncAt (itoa appid) funcName begin NewStat) g.

(** The turns of the package's goroutine between the calls of others. *)
Inductive label : Type := LEnd (st : Stat) | LStat (st : Stat) | LTick.

Inductive step : G -> label -> G -> Prop :=
| step_End g st g' : End_ (ret st) (e st) st g = Some g' -> step g (LEnd st) g'
| step_stat g mgr st l : statMgr g = Some mgr -> consuming mgr = true -> c mgr = st :: l ->
    step g (LStat st) (with_mgr (stat st (mkMgr (m mgr) l (statFile mgr) (statGap mgr) (maxCmdLen mgr) true)) g)
| step_tick g mgr g' : statMgr g = Some mgr -> consuming mgr = true -> dump g = (Ret tt, g') -> step g LTick g'.
End manager.

(** ** Grouping refines a summary of the calls of each command and result *)

Lemma key_inj c r c' r' : key c r = key c' r' -> c = c' /\ r = r'.
Proof.
  unfold key, sep. intros E.
  destruct (last_sep_inj "$" (c +:+ "$$") (itoa r) (c' +:+ "$$") (itoa r')) as [Hc Hr];
    [by apply count_itoa|by apply count_itoa|by rewrite !string_app_assoc|].
  split; [|by apply (inj pretty) in Hr]. assert (String.length c = String.length c') as Hl.
  { apply (f_equal String.length) in Hc. rewrite !string_length_app in Hc. lia. }
  by destruct (string_app_inj c c' "$$" "$$" Hl Hc).
Qed.

Definition call_key (st : Stat) : string := key (cmd st) (ret st).
Definition same (c : string) (r : Z) (st : Stat) : bool := bool_decide (cmd st = c /\ ret st = r).
Definition group (c : string) (r : Z) (sts : list Stat) : list Stat := List.filter (same c r) sts.

(** Calls that took [lo] milliseconds or more, but less than [hi]. *)
Definition took (lo hi : Z) (st : Stat) : bool := (lo * Millisecond <=? Elapse st) && (Elapse st <? hi * Millisecond).
Definition took_long (lo : Z) (st : Stat) : bool := lo * Millisecond <=? Elapse st.
Definition number (p : Stat -> bool) (l : list Stat) : Z := i64 (len (List.filter p l)).
Definition sum (l : list Z) : Z := foldr Z.add 0 l.

Definition summary (l : list Stat) : option StatValue :=
  match map duration l with
  | [] => None
  | ds :: dss =>
      Some (mkSV (i64 (len l)) 0 0 (foldl Z.max ds dss) (foldl Z.min ds dss)
              (number (took 10 100) l) (number (took 100 500) l) (number (took_long 500) l) (i64 (sum (ds :: dss))))
  end.

Definition runs (sts : list Stat) (mgr : StatMgr) : StatMgr := foldl (fun mgr st => stat st mgr) mgr sts.

Lemma number_snoc p l st : number p (l ++ [st]) = if p st then i64 (number p l + 1) else number p l.
Proof.
  unfold number. rewrite List.filter_app, len_app. cbn [List.filter]. destruct (p st).
  - by rewrite i64_add_l.
  - rewrite len_nil. f_equal. lia.
Qed.

Lemma sum_snoc l x : sum (l ++ [x]) = sum l + x.
Proof. unfold sum. rewrite foldr_app. induction l as [|y l IH]; simpl in *; lia. Qed.

(** Microseconds and milliseconds: the thresholds are those the names promise. *)
Lemma duration_le t st : 0 < t -> (t * 1000 <=? duration st) = (t * Millisecond <=? Elapse st).
Proof.
  intros Ht. unfold duration, Microsecond, Millisecond. apply eq_iff_eq_true. rewrite !Z.leb_le.
  destruct (Z.leb_spec 0 (Elapse st)).
  - rewrite Z.quot_div_nonneg by lia. pose proof (Z.div_mod (Elapse st) 1000 ltac:(done)).
    pose proof (Z.mod_pos_bound (Elapse st) 1000 ltac:(done)). lia.
  - pose proof (Z.quot_opp_l (- Elapse st) 1000 ltac:(done)) as E. rewrite Z.opp_involutive in E.
    pose proof (Z.quot_pos (- Elapse st) 1000). lia.
Qed.

Lemma bump_spec st v :
  bump (duration st) v =
    mkSV (Total v) (SumVal v) (Avg v) (Max v) (Min v)
      (if took 10 100 st then i64 (Gt10 v + 1) else Gt10 v)
      (if took 100 500 st then i64 (Gt100 v + 1) else Gt100 v)
      (if took_long 500 st then i64 (Gt500 v + 1) else Gt500 v) (TotalD v).
Proof.
  unfold bump, took, took_long.
  change (Microsecond * 10) with (10 * 1000). change (Microsecond * 100) with (100 * 1000).
  change (Microsecond * 500) with (500 * 1000).
  rewrite !(Z.ltb_antisym _ (duration st)), !(Z.ltb_antisym _ (Elapse st)), !duration_le by lia.
  assert (forall a b, a <= b -> (b * Millisecond <=? Elapse st) = true -> (a * Millisecond <=? Elapse st) = true) as Hmono.
  { unfold Millisecond. intros a b Hab. rewrite !Z.leb_le. lia. }
  pose proof (Hmono 10 100 ltac:(lia)) as H1. pose proof (Hmono 100 500 ltac:(lia)) as H2. clear Hmono. destruct v.
  destruct (10 * Millisecond <=? Elapse st), (100 * Millisecond <=? Elapse st), (500 * Millisecond <=? Elapse st);
    try (by specialize (H1 eq_refl)); try (by specialize (H2 eq_refl)); reflexivity.
Qed.

Lemma summary_snoc l st : summary (l ++ [st]) = Some (bump (duration st)
  (match summary l with
   | Some v => mkSV (i64 (Total v + 1)) (SumVal v) (Avg v) (Z.max (duration st) (Max v)) (Z.min (duration st) (Min v))
                    (Gt10 v) (Gt100 v) (Gt500 v) (i64 (TotalD v + duration st))
   | None => mkSV 1 0 0 (duration st) (duration st) 0 0 0 (duration st)
   end)).
Proof.
  rewrite bump_spec. unfold summary. rewrite map_app, !number_snoc, len_app. cbn [map].
  destruct l as [|s0 l]; cbn [map app].
  - cbn [Total SumVal Avg Max Min Gt10 Gt100 Gt500 TotalD foldl]. unfold number. cbn [List.filter].
    assert (i64 (sum [duration st]) = duration st) as ->.
    { unfold sum. cbn [foldr]. rewrite Z.add_0_r. apply i64_small. unfold duration, Elapse, Microsecond.
      pose proof (time_Sub_range (e st) (b st)) as H. unfold isI64, minInt64, maxInt64 in *.
      Z.to_euclidean_division_equations. lia. }
    done.
  - cbn [Total SumVal Avg Max Min Gt10 Gt100 Gt500 TotalD]. rewrite !foldl_snoc.
    rewrite (Z.max_comm (duration st)), (Z.min_comm (duration st)).
    rewrite (app_comm_cons _ _ (duration s0)), sum_snoc, !i64_add_l. done.
Qed.

Lemma runs_snoc sts st mgr : runs (sts ++ [st]) mgr = stat st (runs sts mgr).
Proof. unfold runs. by rewrite foldl_snoc. Qed.

(** C22 Grouping is exact: after any finished calls, every command and result has the
    summary of its own calls and of no others (their number, longest, shortest and
    total time, and how many took 10, 100 and 500 milliseconds), and commands and
    results without calls have none. *)
Theorem stat_refines sts mgr c r : m mgr = ∅ ->
  m (runs sts mgr) !! key c r = summary (group c r sts) /\
  (forall k, is_Some (m (runs sts mgr) !! k) <-> exists st, st ∈ sts /\ k = call_key st) /\
  Forall (fun st => Z.of_nat (String.length (cmd st)) <= maxCmdLen (runs sts mgr)) sts.
Proof.
  intros Hm. induction sts as [|st sts (IHv & IHk & IHl)] using rev_ind.
  - unfold runs. cbn [foldl]. rewrite Hm, lookup_empty. split_and!; [done| |done].
    intros k. rewrite lookup_empty. split; [by intros []|]. intros (st & Hst & _). by apply elem_of_nil in Hst.
  - rewrite runs_snoc. unfold stat. cbn [m maxCmdLen]. fold (call_key st). split_and!.
    + unfold group. rewrite List.filter_app. cbn [List.filter]. fold (group c r sts).
      destruct (same c r st) eqn:Es.
      * apply bool_decide_eq_true in Es as [<- <-]. rewrite lookup_insert_eq, summary_snoc.
        unfold call_key. rewrite IHv. done.
      * rewrite app_nil_r, lookup_insert_ne; [exact IHv|]. intros [<- <-]%key_inj.
        unfold same in Es. by rewrite bool_decide_true in Es.
    + intros k. destruct (decide (call_key st = k)) as [<-|Hne].
      * rewrite lookup_insert_eq. split; [|done]. intros _. exists st. split; [|done]. apply elem_of_app. right. by left.
      * rewrite lookup_insert_ne, IHk by done. split; intros (x & Hx & ->); exists x; (split; [|done]).
        -- apply elem_of_app. by left.
        -- apply elem_of_app in Hx as [Hx|Hx]; [done|]. apply list_elem_of_singleton in Hx as ->. done.
    + apply Forall_app. split; [|apply Forall_singleton; lia].
      eapply Forall_impl; [exact IHl|]. intros x Hx. cbn beta in Hx |- *. lia.
Qed.

(** ** A report counts every call once *)

Lemma sum_cons x l : sum (x :: l) = x + sum l.
Proof. done. Qed.

Lemma sum_app l k : sum (l ++ k) = sum l + sum k.
Proof. unfold sum. induction l as [|x l IH]; simpl in *; lia. Qed.

Lemma sum_indicator (crs : list (string * Z)) st : NoDup crs ->
  sum (map (fun cr => if same cr.1 cr.2 st then 1 else 0) crs) =
    if decide ((cmd st, ret st) ∈ crs) then 1 else 0.
Proof.
  induction 1 as [|[c r] crs Hni Hnd IH]; [done|]. cbn [map]. rewrite sum_cons, IH. cbn [fst snd].
  unfold same. repeat case_decide; case_bool_decide; try done; set_solver.
Qed.

Lemma sum_map_add {A} (f g : A -> Z) l : sum (map (fun x => f x + g x) l) = sum (map f l) + sum (map g l).
Proof. induction l as [|x l IH]; [done|]. cbn [map]. rewrite !sum_cons. lia. Qed.

(** The groups of all commands and results that occur are a partition of the calls. *)
Lemma groups_partition (crs : list (string * Z)) sts : NoDup crs ->
  (forall st, st ∈ sts -> (cmd st, ret st) ∈ crs) -> sum (map (fun cr => len (group cr.1 cr.2 sts)) crs) = len sts.
Proof.
  intros Hnd. induction sts as [|st sts IH]; intros Hin.
  - clear. induction crs as [|cr crs IH]; [done|]. cbn [map]. rewrite sum_cons, IH. done.
  - rewrite len_cons, <- IH by (intros; apply Hin; by right).
    pose proof (sum_indicator crs st Hnd) as E. rewrite decide_True in E by (apply Hin; by left).
    rewrite <- E, <- sum_map_add. f_equal. apply map_ext.
    intros [c r]. cbn [fst snd]. unfold group. cbn [List.filter]. destruct (same c r st); rewrite ?len_cons; lia.
Qed.

Lemma add_totals_total vs t : t_total (foldl (fun t v => add_totals v t) t vs) mod 2 ^ 64 =
  (t_total t + sum (map Total vs)) mod 2 ^ 64.
Proof.
  revert t. induction vs as [|v vs IH]; intros t; [by rewrite Z.add_0_r|]. cbn [foldl map].
  rewrite IH, sum_cons. cbn [t_total add_totals].
  rewrite <- (Zplus_mod_idemp_l (i64 _)), i64_mod, Zplus_mod_idemp_l. f_equal. lia.
Qed.

Lemma add_totals_range vs t : isI64 (t_total t) -> isI64 (t_total (foldl (fun t v => add_totals v t) t vs)).
Proof.
  revert t. induction vs as [|v vs IH]; intros t Ht; [done|]. cbn [foldl]. apply IH. cbn [t_total add_totals]. apply i64_range.
Qed.

Lemma mod_sum (l : list Z) : sum (map i64 l) mod 2 ^ 64 = sum l mod 2 ^ 64.
Proof. induction l as [|x l IH]; [done|]. cbn [map]. by rewrite !sum_cons, Zplus_mod, i64_mod, IH, <- Zplus_mod. Qed.

Lemma summary_Total l v : summary l = Some v -> Total v = i64 (len l).
Proof. unfold summary. destruct (map duration l); [done|]. by intros [= <-]. Qed.

Section report.
Variable pid : Z.
Variable time_text : string.
Variable fixed3 : Z -> Z -> string.
Variable writable openable : string -> bool.

Definition plain (cr : string * Z) : Prop := count "$" cr.1 = 0 /\ isI64 cr.2.

Lemma split_key c r : count "$" c = 0 -> split_on sep (key c r) = [c; itoa r].
Proof. intros Hc. apply (split_on_app "$" "$$"); [done|]. by apply count_itoa. Qed.

(** The loop over keys that all have a value: a row for each. *)
Lemma dump_loop_rows w vs (crs : list (string * Z)) (val : string * Z -> StatValue) t : Forall plain crs ->
  Forall (fun cr => vs !! key cr.1 cr.2 = Some (val cr)) crs ->
  dump_loop fixed3 w vs (map (fun cr => key cr.1 cr.2) crs) t =
    (join EmptyString (map (fun cr => content fixed3 w cr.1 cr.2 (val cr)) crs),
     foldl (fun t v => add_totals v t) t (map val crs), []).
Proof.
  intros Hp Hv. revert t. induction Hp as [|[c r] crs [Hc Hr] Hp IH]; intros t; [done|].
  apply Forall_cons in Hv as [Hv Hvs]. cbn [fst snd map] in *. cbn [dump_loop].
  rewrite Hv, split_key by done. rewrite parse_int_itoa, (IH Hvs) by done. by rewrite join_empty_cons.
Qed.

(** The keys of a grouped map, in the order of the table, with their parts. *)
Lemma sorted_keys sts mgr : m mgr = ∅ -> exists crs,
  sort_Strings (map_to_list (m (runs sts mgr))).*1 = map (fun cr => key cr.1 cr.2) crs /\
  NoDup crs /\ (forall cr, cr ∈ crs <-> exists st, st ∈ sts /\ cr = (cmd st, ret st)) /\
  Sorted str_le (map (fun cr => key cr.1 cr.2) crs).
Proof.
  intros Hm. set (keys := sort_Strings _).
  assert (keys ≡ₚ (map_to_list (m (runs sts mgr))).*1) as Hperm by apply merge_sort_Permutation.
  assert (forall k, k ∈ keys <-> exists st, st ∈ sts /\ k = call_key st) as Hk.
  { intros k. destruct (stat_refines sts mgr EmptyString 0 Hm) as (_ & H & _). rewrite <- H, Hperm.
    rewrite list_elem_of_fmap. split.
    - intros ([k' v] & -> & Hin%elem_of_map_to_list). by exists v.
    - intros [v Hv]. exists (k, v). split; [done|]. by apply elem_of_map_to_list. }
  assert (NoDup keys) as Hnd by (rewrite Hperm; apply NoDup_fst_map_to_list).
  assert (Sorted str_le keys) as Hs by (apply Sorted_merge_sort; apply _).
  assert (exists crs, keys = map (fun cr => key cr.1 cr.2) crs) as [crs E].
  { clear -Hk. assert (forall k, k ∈ keys -> exists st, k = call_key st) as H by (intros k (st & _ & ->)%Hk; by exists st).
    clear Hk. clearbody keys. induction keys as [|k keys IH]; [by exists []|].
    destruct (H k ltac:(by left)) as [st ->]. destruct IH as [crs ->]; [intros; apply H; by right|].
    by exists ((cmd st, ret st) :: crs). }
  exists crs. rewrite E in *. split_and!; [done|by eapply NoDup_fmap_1| |done].
  intros [c r]. split.
  - intros Hin. destruct (proj1 (Hk (key c r))) as (st & Hst & [-> ->]%key_inj); [|by exists st].
    apply list_elem_of_fmap. by exists (c, r).
  - intros (st & Hst & [= -> ->]). pose proof (proj2 (Hk (call_key st))) as Hin.
    assert (call_key st ∈ map (fun cr => key cr.1 cr.2) crs) as (cr & Hkey & Hin')%list_elem_of_fmap
      by (apply Hin; by exists st).
    destruct cr as [c r]. cbn [fst snd] in Hkey. by apply key_inj in Hkey as [-> ->].
Qed.

Lemma delete_keys vs (keys : list string) : (forall k, is_Some (vs !! k) -> k ∈ keys) ->
  foldl (fun (vs : gmap string StatValue) k => delete k vs) vs keys = ∅.
Proof.
  intros H. apply map_eq. intros k. rewrite lookup_empty.
  assert (forall ks (us : gmap string StatValue), (k ∈ ks \/ us !! k = None) ->
    foldl (fun (vs : gmap string StatValue) k => delete k vs) us ks !! k = None) as Hgo.
  { induction ks as [|k' ks IH]; intros us Hk; cbn [foldl].
    - destruct Hk as [Hk|Hk]; [by apply elem_of_nil in Hk|done].
    - apply IH. destruct (decide (k = k')) as [->|Hne]; [right; by apply lookup_delete_eq|].
      destruct Hk as [[->|Hk]%elem_of_cons|Hk]; [done|by left|right; by rewrite lookup_delete_ne]. }
  apply Hgo. destruct (vs !! k) eqn:E; [left; apply H; by rewrite E|by right].
Qed.

(** The text of a report about [sts] with one row for each of [crs]. *)
Definition report_text (mgr : StatMgr) (sts : list Stat) (crs : list (string * Z)) (t : totals) : string :=
  title pid time_text (statGap mgr) +:+ head (maxCmdLen mgr) +:+
  join EmptyString (map (fun cr => content fixed3 (maxCmdLen mgr) cr.1 cr.2
    (default (mkSV 0 0 0 0 0 0 0 0 0) (summary (group cr.1 cr.2 sts)))) crs) +:+
  rule +:+ tail_row fixed3 (maxCmdLen mgr) t +:+ newline.

(** A report tells the whole truth: it has one row for each command and result
    that was called, in order, with the summary of those calls, and its total is
    their number; afterwards the groups are empty and the text is in the file
    (commands without a dollar sign, a file with room for the text). *)
Theorem dump_reports_all sts g mgr name f : statMgr g = Some (runs sts mgr) -> m mgr = ∅ -> buf g = EmptyString ->
  statFile (runs sts mgr) = Some name -> fs g !! name = Some f -> writable name = true -> sts ≠ [] ->
  Forall (fun st => plain (cmd st, ret st)) sts ->
  exists crs t, NoDup crs /\ (forall cr, cr ∈ crs <-> exists st, st ∈ sts /\ cr = (cmd st, ret st)) /\
    Sorted str_le (map (fun cr => key cr.1 cr.2) crs) /\ t_total t = i64 (len sts) /\
    let text := report_text (runs sts mgr) sts crs t in
    (size f + Z.of_nat (String.length text) < MaxStatFileSize ->
     exists g', dump pid time_text fixed3 writable openable g = (Ret tt, g') /\
       m <$> statMgr g' = Some ∅ /\ buf g' = EmptyString /\ fs g' = append_file name text (fs g)).
Proof.
  intros Hg Hm Hb Hfile Hf Hw Hne Hplain. set (rm := runs sts mgr) in *.
  destruct (sorted_keys sts mgr Hm) as (crs & Hsort & Hnd & Hcrs & Hsorted). fold rm in Hsort.
  set (val := fun cr : string * Z => default (mkSV 0 0 0 0 0 0 0 0 0) (summary (group cr.1 cr.2 sts))).
  set (t := foldl (fun t v => add_totals v t) no_totals (map val crs)).
  assert (forall cr, cr ∈ crs -> m rm !! key cr.1 cr.2 = Some (val cr) /\ summary (group cr.1 cr.2 sts) = Some (val cr)) as Hval.
  { intros [c r] Hin. destruct (stat_refines sts mgr c r Hm) as (Hv & Hk & _). fold rm in Hv, Hk. cbn [fst snd].
    apply Hcrs in Hin as (st & Hst & [= -> ->]).
    destruct (proj2 (Hk (call_key st))) as [v Ev]; [by exists st|]. unfold call_key in Ev. unfold val. cbn [fst snd].
    rewrite Hv in Ev |- *. by rewrite Ev. }
  exists crs, t. split_and!; [done..| |].
  { rewrite <- (i64_small (t_total t)) by (by apply add_totals_range). apply i64_congr. unfold t.
    rewrite add_totals_total. cbn [t_total no_totals]. rewrite Z.add_0_l, <- (groups_partition crs sts Hnd).
    - rewrite <- (mod_sum (map (fun cr => len (group cr.1 cr.2 sts)) crs)), !map_map. do 2 f_equal. apply map_ext_in. intros cr Hin%list_elem_of_In.
      apply summary_Total. by apply Hval.
    - intros st Hst. apply Hcrs. by exists st. }
  intros text Hsize. unfold dump. rewrite Hg. rewrite decide_False.
  2: { intros He. destruct sts as [|st sts]; [done|].
       destruct (stat_refines (st :: sts) mgr EmptyString 0 Hm) as (_ & Hk & _). fold rm in Hk.
       destruct (proj2 (Hk (call_key st))) as [v Ev]; [exists st; split; [by left|done]|].
       by rewrite He, lookup_empty in Ev. }
  cbv zeta. rewrite Hsort, (dump_loop_rows _ _ crs val).
  2: { apply Forall_forall. intros cr (st & Hst & ->)%Hcrs. rewrite Forall_forall in Hplain. by apply Hplain. }
  2: { apply Forall_forall. intros cr Hin. by apply Hval. }
  rewrite delete_keys.
  2: { intros k Hk. destruct (stat_refines sts mgr EmptyString 0 Hm) as (_ & Hkeys & _). fold rm in Hkeys.
       apply Hkeys in Hk as (st & Hst & ->). apply list_elem_of_fmap. exists (cmd st, ret st). split; [done|].
       apply Hcrs. by exists st. }
  rewrite Hb. change (EmptyString +:+ _) with text.
  unfold defer, write_stat. cbv [mbind M_bind modify]. cbn [statFile]. rewrite Hfile, Hw. cbn [statMgr buf fs logged].
  unfold rotateFile. cbn [fs]. unfold append_file at 1. rewrite lookup_alter_eq, Hf. cbn [fmap option_fmap option_map].
  assert ((size (mkFile (before f) (written f +:+ text)) <? MaxStatFileSize) = true) as ->.
  { apply Z.ltb_lt. unfold size in *. cbn [before written] in *. rewrite string_length_app. lia. }
  unfold truncate_buf, modify. eexists. split; [reflexivity|]. done.
Qed.
End report.

(** ** Rotation *)

Lemma numbered_inj name i j : numbered name i = numbered name j -> i = j.
Proof.
  unfold numbered. intros E. destruct (string_app_inj name name ("." +:+ itoa i) ("." +:+ itoa j)) as [_ E']; [done|done|].
  change ("." +:+ itoa i) with (String "." (itoa i)) in E'. change ("." +:+ itoa j) with (String "." (itoa j)) in E'.
  injection E' as E'. by apply (inj pretty) in E'.
Qed.

Lemma numbered_ne name i : numbered name i ≠ name.
Proof.
  unfold numbered. intros E. apply (f_equal String.length) in E. rewrite string_length_app in E. simpl in E. lia.
Qed.

Lemma rename_lookup old new files k : old ≠ new ->
  os_Rename old new files !! k =
    match files !! old with
    | Some f => if decide (k = new) then Some f else if decide (k = old) then None else files !! k
    | None => files !! k
    end.
Proof.
  intros Hne. unfold os_Rename. destruct (files !! old) as [f|]; [|done].
  destruct (decide (k = new)) as [->|Hn]; [by rewrite lookup_insert_eq|]. rewrite lookup_insert_ne by done.
  destruct (decide (k = old)) as [->|Ho]; [by rewrite lookup_delete_eq|by rewrite lookup_delete_ne].
Qed.

(** The loop moves every numbered file up by one; the last one is overwritten. *)
Lemma shift_files_lookup name n files k :
  (forall i, 1 <= i <= Z.of_nat n + 1 -> k ≠ numbered name i) -> shift_files name n files !! k = files !! k.
Proof.
  revert files. induction n as [|n IH]; intros files Hk; [done|]. cbn [shift_files].
  rewrite IH by (intros i Hi; apply Hk; lia). rewrite rename_lookup by (intros E%numbered_inj; lia).
  destruct (files !! numbered name _); [|done]. by do 2 rewrite decide_False by (apply Hk; lia).
Qed.

Lemma shift_files_numbered name n files i : 1 <= i <= Z.of_nat n ->
  shift_files name n files !! numbered name (i + 1) =
    match files !! numbered name i with
    | Some f => Some f
    | None => if decide (i = Z.of_nat n) then files !! numbered name (i + 1) else None
    end.
Proof.
  revert files i. induction n as [|n IH]; intros files i Hi; [lia|]. cbn [shift_files].
  set (j := Z.of_nat (S n)) in *. destruct (decide (i = j)) as [->|Hne].
  - rewrite shift_files_lookup by (intros i' Hi' E%numbered_inj; unfold j in *; lia).
    rewrite rename_lookup by (intros E%numbered_inj; lia).
    destruct (files !! numbered name j); [by rewrite decide_True|done].
  - assert (i <= Z.of_nat n) by (unfold j in *; lia). rewrite IH by lia.
    assert (forall k, k ≠ j -> k ≠ j + 1 -> os_Rename (numbered name j) (numbered name (j + 1)) files !! numbered name k =
      files !! numbered name k) as Hother.
    { intros k Hk Hk'. rewrite rename_lookup by (intros E%numbered_inj; lia). destruct (files !! numbered name j); [|done].
      by do 2 rewrite decide_False by (intros E%numbered_inj; lia). }
    rewrite Hother by lia. destruct (files !! numbered name i); [done|].
    destruct (decide (i = Z.of_nat n)) as [->|]; [|done].
    replace (Z.of_nat n + 1) with j by (unfold j; lia). rewrite rename_lookup by (intros E%numbered_inj; lia).
    destruct (files !! numbered name j) eqn:Ej; [|done]. rewrite decide_False by (intros E%numbered_inj; lia).
    by rewrite decide_True.
Qed.

Section rotation.
Context (writable openable : string -> bool).

(** Rotation keeps the last ten files: when a file is full, each numbered file has
    the content of the one before it, the first numbered one that of the file, which
    is empty again; nothing else changes but the oldest file, which is lost. *)
Theorem rotation_keeps_ten mgr name g f : fs g !! name = Some f -> MaxStatFileSize <= size f -> openable name = true ->
  exists g', rotateFile openable mgr name g = (Ret tt, g') /\ statMgr g' = Some (set_file (Some name) mgr) /\
    fs g' !! name = Some (mkFile 0 EmptyString) /\ fs g' !! numbered name 1 = Some f /\
    (forall i, 1 <= i < 9 -> fs g' !! numbered name (i + 1) = fs g !! numbered name i) /\
    (is_Some (fs g !! numbered name 9) -> fs g' !! numbered name 10 = fs g !! numbered name 9) /\
    (forall k, k ≠ name -> (forall i, 1 <= i <= 10 -> k ≠ numbered name i) -> fs g' !! k = fs g !! k).
Proof.
  intros Hf Hsize Hopen. unfold rotateFile. rewrite Hf, (proj2 (Z.ltb_ge _ _)) by done.
  set (files := shift_files name (MaxStatFileCount - 1) (fs g)).
  assert (files !! name = Some f) as Hname.
  { unfold files. rewrite shift_files_lookup; [done|]. intros i _ E. by apply (numbered_ne name i). }
  assert (name ≠ numbered name 1) as Hne by (intros E; by apply (numbered_ne name 1)).
  assert (forall k, os_Rename name (numbered name 1) files !! k =
    if decide (k = numbered name 1) then Some f else if decide (k = name) then None else files !! k) as Hren
    by (intros k; by rewrite rename_lookup, Hname).
  unfold open_append. rewrite Hopen, Hren, decide_False, decide_True by done.
  eexists. split; [reflexivity|]. cbn [statMgr fs]. split_and!.
  - done.
  - by rewrite lookup_insert_eq.
  - by rewrite lookup_insert_ne, Hren, decide_True.
  - intros i Hi. rewrite lookup_insert_ne by (intros E; by apply (numbered_ne name (i + 1))). rewrite Hren.
    rewrite decide_False by (intros E%numbered_inj; lia). rewrite decide_False by apply numbered_ne.
    unfold files. rewrite shift_files_numbered by (cbn; lia). rewrite decide_False by (cbn; lia).
    by destruct (fs g !! numbered name i).
  - intros [f9 H9]. rewrite lookup_insert_ne by (intros E; by apply (numbered_ne name 10)). rewrite Hren.
    rewrite decide_False by (intros E%numbered_inj; lia). rewrite decide_False by apply numbered_ne.
    unfold files. change 10 with (9 + 1). rewrite shift_files_numbered by (cbn; lia). by rewrite H9.
  - intros k Hk Hi. rewrite lookup_insert_ne, Hren by done. rewrite decide_False by (apply Hi; lia).
    rewrite decide_False by done. unfold files. apply shift_files_lookup. intros i Hi'. apply Hi. cbn in Hi'. lia.
Qed.
End rotation.

(** ** Without a file nothing empties the channel *)

Section blocking.
Context (pid : Z) (time_text : string) (fixed3 : Z -> Z -> string) (writable openable : string -> bool).
Abbreviation steps := (Prelude.steps (step pid time_text fixed3 writable openable)).

Definition ended (ls : list label) : Z := len (List.filter (fun l => match l with LEnd _ => true | _ => false end) ls).

(** When [Init] cannot open the file it starts no goroutine, and each call that
    ends occupies a place of the channel for ever: in every run at most 4096 calls
    end, and the next one waits without end. *)
Theorem end_blocks_without_file path gap g mgr g1 ls g2 : statMgr g = Some mgr -> consuming mgr = false -> c mgr = [] ->
  openable path = false -> Init openable path gap g = (Ret tt, g1) -> steps g1 ls g2 ->
  ended ls <= channel_size /\
  (ended ls = channel_size -> forall r now st, End_ r now st g2 = None).
Proof.
  intros Hg Hc Hch Hopen Hinit Hs. unfold Init, open_append in Hinit. rewrite Hg, Hopen in Hinit. injection Hinit as <-.
  set (I := fun n (g : G) => exists mgr, statMgr g = Some mgr /\ consuming mgr = false /\ len (c mgr) = n /\ n <= channel_size).
  assert (forall n g1, I n g1 -> steps g1 ls g2 -> I (n + ended ls) g2) as Hrun.
  { clear. intros n g1 HI Hs. revert n HI.
    induction Hs as [g|g l g' ls g'' Hstep Hs IH]; intros n HI; [by rewrite Z.add_0_r|].
    destruct HI as (mgr & Hm & Hcons & Hlen & Hle). destruct Hstep as [g st g' He|g mgr' st l' Hm' Hcons' _|g mgr' g' Hm' Hcons' _];
      [|congruence..].
    unfold End_ in He. rewrite Hm in He. unfold addStat in He. destruct (Z.ltb_spec (len (c mgr)) channel_size); [|done].
    injection He as <-. replace (n + ended (LEnd st :: ls)) with ((n + 1) + ended ls).
    - apply IH. eexists. split; [done|]. cbn [consuming c]. rewrite len_app. change (len [mkStat (cmd st) (b st) (e st) (ret st)]) with 1.
      split_and!; [done|lia|lia].
    - unfold ended. cbn [List.filter]. rewrite len_cons. lia. }
  apply (Hrun 0) in Hs as (mgr' & Hm & Hcons & Hlen & Hle); [|by exists (set_file None mgr); cbn; rewrite Hc, Hch].
  split; [lia|]. intros He r now st. unfold End_. rewrite Hm. unfold addStat.
  by rewrite (proj2 (Z.ltb_ge _ _)) by lia.
Qed.
End blocking.

(** ** Examples *)

Definition demo_mgr : StatMgr := mkMgr ∅ [] (Some "stat.log") (5 * Second) 0 true.

Definition demo_call (c : string) (r took : Z) : Stat := mkStat c 0 (took * Millisecond) r.

Definition demo_calls : list Stat :=
  [demo_call "pay" 0 7; demo_call "pay" 0 120; demo_call "get" 0 20; demo_call "pay" 500 900].

Lemma stat_refines_witness : m (runs demo_calls demo_mgr) !! "pay$$$0" =
  Some (mkSV 2 0 0 120000 7000 0 1 0 127000).
Proof.
  destruct (stat_refines demo_calls demo_mgr "pay" 0 eq_refl) as [E _].
  change ("pay$$$0") with (key "pay" 0). rewrite E. vm_compute. reflexivity.
Defined.

Definition demo_g : G :=
  mkG (Some (runs demo_calls demo_mgr)) EmptyString {["stat.log" := mkFile 10 EmptyString]} [].

Lemma dump_reports_all_witness : exists crs t, t_total t = 4 /\ ("pay", 500) ∈ crs /\
  let text := report_text 7 "now" (fun _ _ => "0.000") (runs demo_calls demo_mgr) demo_calls crs t in
  (10 + Z.of_nat (String.length text) < MaxStatFileSize ->
   exists g', dump 7 "now" (fun _ _ => "0.000") (fun _ => true) (fun _ => true) demo_g = (Ret tt, g') /\
     buf g' = EmptyString).
Proof.
  destruct (dump_reports_all 7 "now" (fun _ _ => "0.000") (fun _ => true) (fun _ => true) demo_calls demo_g demo_mgr
    "stat.log" (mkFile 10 EmptyString)) as (crs & t & _ & Hcrs & _ & Ht & Hd); try done.
  { apply Forall_forall. intros st Hst.
    repeat (apply elem_of_cons in Hst as [->|Hst]; [split; [reflexivity|split; vm_compute; discriminate]|]).
    by apply elem_of_nil in Hst. }
  exists crs, t. split; [exact Ht|]. split.
  - apply Hcrs. exists (demo_call "pay" 500 900). split; [|done]. do 3 right. left.
  - intros text Hs. destruct (Hd Hs) as (g' & E & _ & Hb & _). exists g'. split; [exact E|exact Hb].
Defined.

Definition full_g : G :=
  mkG (Some demo_mgr) EmptyString
    {["stat.log" := mkFile MaxStatFileSize EmptyString; "stat.log.9" := mkFile 3 "old"]} [].

Lemma rotation_keeps_ten_witness : exists g', rotateFile (fun _ => true) demo_mgr "stat.log" full_g = (Ret tt, g') /\
  fs g' !! "stat.log" = Some (mkFile 0 EmptyString) /\ fs g' !! "stat.log.10" = Some (mkFile 3 "old").
Proof.
  destruct (rotation_keeps_ten (fun _ => true) demo_mgr "stat.log" full_g (mkFile MaxStatFileSize EmptyString))
    as (g' & E & _ & H0 & _ & _ & H9 & _); [reflexivity|done|done|].
  exists g'. split_and!; [exact E|exact H0|]. apply H9. by exists (mkFile 3 "old").
Defined.

Definition idle_g : G := mkG (Some (mkMgr ∅ [] None 0 0 false)) EmptyString ∅ [].

Lemma end_blocks_without_file_witness : exists g1, Init (fun _ => false) "/stat.log" Second idle_g = (Ret tt, g1) /\
  forall ls g2, Prelude.steps (step 7 "now" (fun _ _ => "0.000") (fun _ => true) (fun _ => false)) g1 ls g2 -> ended ls <= 4096.
Proof.
  eexists. split; [reflexivity|]. intros ls g2 Hs.
  by destruct (end_blocks_without_file 7 "now" (fun _ _ => "0.000") (fun _ => true) (fun _ => false) "/stat.log" Second idle_g
    (mkMgr ∅ [] None 0 0 false) _ ls g2 eq_refl eq_refl eq_refl eq_refl eq_refl Hs) as [H _].
Defined.
End Stat.
