(* ===== verification/Pc.v ===== *)
(** * Performance counters ([runtime/pc/pc.go])

    Callers put increments and durations into two channels that drop what does not
    fit; goroutines empty them into a table of counters and a registry of timers; a
    third goroutine reports and resets all counters every minute.  The interleavings
    are the relation [step].  Timers (go-metrics), the host's name, the number of
    goroutines and the sending of a report are parameters. *)

From Stdlib Require Import Floats.SpecFloat.
From S2P Require Import Prelude GoStd GoStrings Utls.
Import GoStd GoStrings.
Import Utls.Utls.

Module Pc.

(* [runtime/pc/pc.go:57-60] pcReq *)
Record pcReq : Type := mkReq { Key : string; Val : Z }.

(* [runtime/pc/pc.go:62-65] costTimer *)
Record costTimer : Type := mkCost { Name : string; Cost_ : Z }.

(** A counter is a pointer: [Own] ones are made by the package, [Ext] ones come from
    the updater. *)
Inductive ptr : Type := Own (n : nat) | Ext (n : nat).

#[export] Instance ptr_eq_dec : EqDecision ptr.
Proof. solve_decision. Defined.
#[export] Instance ptr_countable : Countable ptr.
Proof.
  refine (inj_countable' (fun p => match p with Own n => inl n | Ext n => inr n end)
    (fun s => match s with inl n => Own n | inr n => Ext n end) _). by intros [].
Defined.

(** What a snapshot of a timer says: calls in the last minute and percentiles of
    their durations in nanoseconds, as integers. *)
Record snapshot : Type := mkSnap { rate60 : Z; p95 : Z; p99 : Z; p995 : Z; p999 : Z }.

(** One line of a report. *)
Record metric : Type := mkMetric { endpoint : string; timestamp : Z; value : Z; tags : string }.

(** The report in progress: waiting for the tick; setting the values of timers; about
    to look for an updater; about to call it; setting its counters; about to set the
    number of goroutines and to list the counters; reading and resetting those. *)
Inductive phase : Type :=
| PIdle
| PSet (l : list (string * Z))
| PCheck
| PCall
| PUps (l : list (string * ptr))
| PLast
| PSwap (host : string) (ct runPort : Z) (l : list (string * ptr)) (sent : list metric)
| PStopped.

(** The table of counters. *)
Record table : Type := mkTable { kMap : gmap string ptr; heap : gmap ptr Z; fresh : nat }.

Record channels : Type := mkChannels {
  perfCounterC : list pcReq; costTimerC : list costTimer; capacity : Z; registry : gmap string (list Z)
}.

(** [updater]: whether there is one. *)
Record control : Type := mkControl {
  closed : Z; initOnce : bool; closeOnce : bool; stop : bool; updater : bool;
  suffixDecider : option (string -> string)
}.

Record PC : Type := mkPC {
  tbl : table; ch : channels; ctl : control; walk : phase; sent_reports : list (list metric);
  alerts : Z; crashed : bool
}.

Definition with_tbl t s := mkPC t (ch s) (ctl s) (walk s) (sent_reports s) (alerts s) (crashed s).
Definition with_ch c s := mkPC (tbl s) c (ctl s) (walk s) (sent_reports s) (alerts s) (crashed s).
Definition with_ctl c s := mkPC (tbl s) (ch s) c (walk s) (sent_reports s) (alerts s) (crashed s).
Definition with_walk p s := mkPC (tbl s) (ch s) (ctl s) p (sent_reports s) (alerts s) (crashed s).
Definition alert s := mkPC (tbl s) (ch s) (ctl s) (walk s) (sent_reports s) (alerts s + 1) (crashed s).

(** *** Counters *)

Definition kSet (k : string) (p : ptr) (t : table) : table := mkTable (<[k := p]> (kMap t)) (heap t) (fresh t).

(** [kMap.Set(k, new)] of a new counter. *)
Definition set_new (k : string) (v : Z) (t : table) : table :=
  mkTable (<[k := Own (fresh t)]> (kMap t)) (<[Own (fresh t) := v]> (heap t)) (S (fresh t)).

(* [runtime/pc/pc.go:405-417] incr *)
Definition incr (key : string) (val : Z) (t : table) : table :=
  match kMap t !! key with
  | None => t
  | Some p => mkTable (kMap t) (alter (fun v => i64 (v + val)) p (heap t)) (fresh t)
  end.

(* [runtime/pc/pc.go:144-159] handlePc *)
Definition handlePc (c : pcReq) (t : table) : table :=
  let t := match kMap t !! Key c with None => set_new (Key c) 0 t | Some _ => t end in
  incr (Key c) (Val c) t.

(* [runtime/pc/pc.go:161-172] handleCostsNoPool *)
Definition handleCosts (c : costTimer) (r : gmap string (list Z)) : gmap string (list Z) :=
  <[Name c := default [] (r !! Name c) ++ [Cost_ c]]> r.

(* [runtime/pc/pc.go:388-403] Incr *)
Definition Incr (key : string) (val : Z) (s : PC) : PC :=
  if closed (ctl s) =? 0 then s
  else if len (perfCounterC (ch s)) <? capacity (ch s)
  then with_ch (mkChannels (perfCounterC (ch s) ++ [mkReq key val]) (costTimerC (ch s)) (capacity (ch s)) (registry (ch s))) s
  else alert s.

(* [runtime/pc/pc.go:378-381] CostFail *)
Definition CostFail (key : string) (val : Z) (s : PC) : PC := Incr (key +:+ ",sum=fail") val s.

(* [runtime/pc/pc.go:383-386] ErrorIncr *)
Definition ErrorIncr (key : string) (val : Z) (s : PC) : PC := Incr (key +:+ ",type=exceptionReport") val s.

(* [runtime/pc/pc.go:419-433] Cost *)
Definition Cost (name : string) (cost : Z) (s : PC) : PC :=
  if closed (ctl s) =? 0 then s
  else if len (costTimerC (ch s)) <? capacity (ch s)
  then with_ch (mkChannels (perfCounterC (ch s)) (costTimerC (ch s) ++ [mkCost name cost]) (capacity (ch s)) (registry (ch s))) s
  else alert s.

(** *** Start and close *)

Definition set_control (upd : bool) (d : option (string -> string)) (c : control) : control :=
  mkControl (closed c) (initOnce c) (closeOnce c) (stop c) upd d.

(* [runtime/pc/pc.go:132-136] SetSuffixDecider *)
Definition SetSuffixDecider (d : string -> string) (s : PC) : PC :=
  with_ctl (set_control (updater (ctl s)) (Some d) (ctl s)) s.

(* [runtime/pc/pc.go:124-130] SetRunPort *)
Definition SetRunPort (runPort : Z) (s : PC) : PC := SetSuffixDecider (fun _ => "-" +:+ itoa runPort) s.

(* [runtime/pc/pc.go:138-142] SetUpdater *)
Definition SetUpdater (upd : bool) (s : PC) : PC :=
  with_ctl (set_control upd (suffixDecider (ctl s)) (ctl s)) s.

Definition defaultWorkerCount : Z := 512000.

(* [runtime/pc/pc.go:88-122] initPerfCounter *)
Definition initPerfCounter (upd : bool) (initKeys : list string) (decideSuffix : string -> string) (workerCount : Z)
  (s : PC) : PC :=
  let workerCount := if workerCount <? defaultWorkerCount then defaultWorkerCount else workerCount in
  let s := with_ch (mkChannels [] [] workerCount (registry (ch s))) s in
  let s := with_tbl (foldl (fun t k => set_new k 0 t) (tbl s) initKeys) s in
  with_walk PIdle (SetSuffixDecider decideSuffix (SetUpdater upd s)).

(* [runtime/pc/pc.go:72-86] Init, InitPerfCounter *)
Definition InitPerfCounter (upd : bool) (initKeys : list string) (s : PC) : PC :=
  let decideSuffix := fun _ => EmptyString in
  let s :=
    if initOnce (ctl s) then s else
    let s := initPerfCounter upd initKeys decideSuffix defaultWorkerCount s in
    let c := ctl s in
    with_ctl (mkControl (i32 (closed c + 1)) true (closeOnce c) (stop c) (updater c) (suffixDecider c)) s in
  SetUpdater upd (SetSuffixDecider decideSuffix s).

(* [runtime/pc/pc.go:371-376] ClosePerfCounter *)
Definition ClosePerfCounter (s : PC) : PC :=
  let c := ctl s in
  if closeOnce c then s else with_ctl (mkControl 0 (initOnce c) true true (updater c) (suffixDecider c)) s.

(** *** The report *)

Definition f64 (z : Z) : spec_float := binary_normalize 53 1024 z 0 false.

(** Failures per ten thousand calls, in floating point. *)
Definition fail_rate (fails count : Z) : Z :=
  Utls.float_to_int64 (SFmul 53 1024 (SFdiv 53 1024 (f64 fails) (f64 count)) (f64 10000)).

(** The counters made from one timer. *)
(* [runtime/pc/pc.go:206-254] report, one timer *)
Definition timer_entries (name : string) (snap : snapshot) (fails : option Z) : list (string * Z) :=
  let count := rate60 snap in
  let skip := count <? 30 in
  let ms p := Z.quot p Millisecond in
  let cost := if skip then ",sum=skipCost_ms_" else ",sum=cost_ms_" in
  [(name +:+ ",sum=count", count); (name +:+ cost +:+ "p95", ms (p95 snap)); (name +:+ cost +:+ "p99", ms (p99 snap));
   (name +:+ cost +:+ "p995", ms (p995 snap)); (name +:+ cost +:+ "p999", ms (p999 snap))] ++
  match fails with
  | Some f => if 0 <? count
              then [(name +:+ (if skip then ",sum=skipFailRate" else ",sum=failRate"), fail_rate f count)] else []
  | None => []
  end.

Definition counter (t : table) (k : string) : option Z := p ← kMap t !! k; heap t !! p.

(** The map of all of them, in the order of an iteration. *)
Definition timer_map (snaps : list (string * snapshot)) (t : table) : list (string * Z) :=
  map_to_list (list_to_map (M := gmap string Z) (reverse (concat (map (fun ns =>
    timer_entries ns.1 ns.2 (counter t (ns.1 +:+ ",sum=fail")))
    (List.filter (fun ns => negb (bool_decide (ns.1 = EmptyString))) snaps))))).

Definition run_port (d : option (string -> string)) : Z :=
  match d with
  | None => -1
  | Some d =>
      match d EmptyString with
      | String "-" s => match parse_int s with inl rp => if 0 <? rp then rp else -1 | inr _ => -1 end
      | _ => -1
      end
  end.

Definition tag (runPort : Z) (k : string) : string :=
  "attr=" +:+ k +:+ (if 0 <? runPort then ",port=" +:+ itoa runPort else EmptyString).

(** The groups a report is sent in. *)
Definition cut (sent : list metric) : list (list metric) :=
  match outcome_of (SliceCutter (RSlice sent) 35) tt with Ret (parts, None) => parts | _ => [] end.

(** What each step of the system does.  [LUser] stands for the owner of the
    updater's counters. *)
Inductive label : Type :=
| LIncr (key : string) (val : Z) (taken : bool) | LCost (name : string) (cost : Z)
| LHandle (r : pcReq) | LHandleCost (r : costTimer) | LControl | LUser (n : nat)
| LTick | LSet (key : string) | LReport | LSwap (key : string) (m : metric) | LSent | LCrash.

(* [runtime/pc/pc.go:174-333] walk, report *)
Inductive step : PC -> label -> PC -> Prop :=
| step_Incr s k v : crashed s = false ->
    step s (LIncr k v (negb (closed (ctl s) =? 0) && (len (perfCounterC (ch s)) <? capacity (ch s)))) (Incr k v s)
| step_Cost s k v : crashed s = false -> step s (LCost k v) (Cost k v s)
| step_handlePc s r l : crashed s = false -> perfCounterC (ch s) = r :: l ->
    step s (LHandle r) (with_ch (mkChannels l (costTimerC (ch s)) (capacity (ch s)) (registry (ch s)))
      (with_tbl (handlePc r (tbl s)) s))
| step_handleCosts s r l : crashed s = false -> costTimerC (ch s) = r :: l ->
    step s (LHandleCost r)
      (with_ch (mkChannels (perfCounterC (ch s)) l (capacity (ch s)) (handleCosts r (registry (ch s)))) s)
| step_SetUpdater s upd : crashed s = false -> step s LControl (SetUpdater upd s)
| step_SetSuffixDecider s d : crashed s = false -> step s LControl (SetSuffixDecider d s)
| step_close s : crashed s = false -> step s LControl (ClosePerfCounter s)
| step_user s n v : crashed s = false ->
    step s (LUser n) (with_tbl (mkTable (kMap (tbl s)) (<[Ext n := v]> (heap (tbl s))) (fresh (tbl s))) s)
| step_stop s : crashed s = false -> walk s = PIdle -> stop (ctl s) = true -> step s LReport (with_walk PStopped s)
| step_tick s snaps : crashed s = false -> walk s = PIdle ->
    step s LTick (with_walk (PSet (timer_map snaps (tbl s))) s)
| step_timer s k v l : crashed s = false -> walk s = PSet ((k, v) :: l) ->
    step s (LSet k) (with_walk (PSet l) (with_tbl (set_new k v (tbl s)) s))
| step_timers_set s : crashed s = false -> walk s = PSet [] -> step s LReport (with_walk PCheck s)
| step_check s : crashed s = false -> walk s = PCheck ->
    step s LReport (with_walk (if updater (ctl s) then PCall else PLast) s)
| step_call s ups : crashed s = false -> walk s = PCall -> updater (ctl s) = true ->
    (forall k p, ups !! k = Some p -> exists n, p = Ext n) ->
    step s LReport (with_walk (PUps (map_to_list (ups : gmap string ptr))) s)
| step_call_nil s : crashed s = false -> walk s = PCall -> updater (ctl s) = false ->
    step s LCrash (mkPC (tbl s) (ch s) (ctl s) (walk s) (sent_reports s) (alerts s) true)
| step_updater s k p l : crashed s = false -> walk s = PUps ((k, p) :: l) ->
    step s (LSet k) (with_walk (PUps l) (with_tbl (kSet k p (tbl s)) s))
| step_updater_set s : crashed s = false -> walk s = PUps [] -> step s LReport (with_walk PLast s)
| step_last s goNums host ct : crashed s = false -> walk s = PLast ->
    let t := set_new "go_projects_goroutine_num" goNums (tbl s) in
    step s (LSet "go_projects_goroutine_num")
      (with_walk (match host with
                  | Some hn => PSwap hn ct (run_port (suffixDecider (ctl s))) (map_to_list (kMap t)) []
                  | None => PIdle
                  end) (with_tbl t s))
| step_swap s hn ct rp k p l sent v : crashed s = false -> walk s = PSwap hn ct rp ((k, p) :: l) sent ->
    heap (tbl s) !! p = Some v ->
    let m := mkMetric hn ct v (tag rp k) in
    step s (LSwap k m) (with_walk (PSwap hn ct rp l (sent ++ [m]))
      (with_tbl (mkTable (kMap (tbl s)) (<[p := 0]> (heap (tbl s))) (fresh (tbl s))) s))
| step_sent s hn ct rp sent : crashed s = false -> walk s = PSwap hn ct rp [] sent ->
    step s LSent (mkPC (tbl s) (ch s) (ctl s) PIdle (sent_reports s ++ cut sent) (alerts s) (crashed s)).

(** ** No increment is lost or counted twice *)

(** Equality modulo [2^64]. *)
Definition eqm (a b : Z) : Prop := exists q, a = b + q * 2 ^ 64.

Lemma eqm_i64 z : eqm (i64 z) z.
Proof.
  exists (- ((z + 2 ^ 63) / 2 ^ 64)). unfold wrapS. change (2 ^ (64 - 1)) with (2 ^ 63).
  pose proof (Z.div_mod (z + 2 ^ 63) (2 ^ 64) ltac:(done)). lia.
Qed.

Lemma i64_eqm a b : eqm a b -> i64 a = i64 b.
Proof. intros [q ->]. apply i64_congr. by rewrite Z.mod_add. Qed.

Lemma eqm_trans a b c : eqm a b -> eqm b c -> eqm a c.
Proof. intros [q ->] [r ->]. exists (q + r). lia. Qed.

Definition todo (s : PC) : list (string * ptr) := match walk s with PSwap _ _ _ l _ => l | _ => [] end.
Definition current (k : string) (t : table) : Z := default 0 (counter t k).
Definition req_of (k : string) (r : pcReq) : Z := if bool_decide (Key r = k) then Val r else 0.
Definition queued (k : string) (l : list pcReq) : Z := foldr (fun r n => req_of k r + n) 0 l.
Definition total (k : string) (s : PC) : Z := queued k (perfCounterC (ch s)) + current k (tbl s).

Definition accepted1 (k : string) (l : label) : Z :=
  match l with LIncr k' v true => if bool_decide (k' = k) then v else 0 | _ => 0 end.
Definition swapped1 (k : string) (l : label) : Z :=
  match l with LSwap k' m => if bool_decide (k' = k) then value m else 0 | _ => 0 end.
Definition over (f : label -> Z) (ls : list label) : Z := foldr (fun l n => f l + n) 0 ls.

Lemma queued_app k l l' : queued k (l ++ l') = queued k l + queued k l'.
Proof. unfold queued. induction l as [|r l IH]; simpl in *; lia. Qed.

(** Own counters are below [fresh] and have a value; that of [k] is nobody else's. *)
Record tinv (k : string) (t : table) (l : list (string * ptr)) : Prop := {
  t_own : forall k' n, kMap t !! k' = Some (Own n) -> (n < fresh t)%nat;
  t_heap : forall n, (n < fresh t)%nat -> is_Some (heap t !! Own n);
  t_todo : forall k' n, (k', Own n) ∈ l -> (n < fresh t)%nat;
  t_key : match kMap t !! k with
          | Some p => (exists n, p = Own n) /\ (forall k', kMap t !! k' = Some p -> k' = k) /\
                      (forall k' p', (k', p') ∈ l -> (k' = k <-> p' = p))
          | None => forall k' p', (k', p') ∈ l -> k' ≠ k
          end
}.

Lemma current_eq k t : current k t = match kMap t !! k with Some p => default 0 (heap t !! p) | None => 0 end.
Proof. unfold current, counter. by destruct (kMap t !! k). Qed.

Lemma set_new_tinv k k' v t l : tinv k t l -> (k' = k -> kMap t !! k = None \/ l = []) ->
  tinv k (set_new k' v t) l /\ current k (set_new k' v t) = if decide (k' = k) then v else current k t.
Proof.
  intros [Ho Hh Ht Hk] Hnew. split.
  - constructor; cbn [set_new kMap heap fresh].
    + intros k2 n. destruct (decide (k' = k2)) as [->|]; [rewrite lookup_insert_eq; intros [= <-]; lia|].
      rewrite lookup_insert_ne by done. intros H%Ho. lia.
    + intros n Hn. destruct (decide (n = fresh t)) as [->|]; [rewrite lookup_insert_eq; done|].
      rewrite lookup_insert_ne by congruence. apply Hh. lia.
    + intros k2 n H%Ht. lia.
    + destruct (decide (k' = k)) as [->|Hne].
      * rewrite lookup_insert_eq. split_and!; [by eexists| |].
        -- intros k2. destruct (decide (k = k2)) as [->|]; [done|]. rewrite lookup_insert_ne by done. intros H%Ho. lia.
        -- intros k2 p Hin. destruct (Hnew eq_refl) as [Hn| ->]; [|by apply elem_of_nil in Hin]. rewrite Hn in Hk.
           split; [intros ->; by destruct (Hk _ _ Hin)|]. intros ->. apply Ht in Hin. lia.
      * rewrite lookup_insert_ne by done. destruct (kMap t !! k) as [p|] eqn:Ek; [|done].
        destruct Hk as ([n ->] & Hu & Hl). split_and!; [by eexists| |done].
        intros k2. destruct (decide (k' = k2)) as [->|]; [|rewrite lookup_insert_ne by done; apply Hu].
        rewrite lookup_insert_eq. intros [= E]. apply Ho in Ek. lia.
  - rewrite !current_eq. cbn [set_new kMap heap]. destruct (decide (k' = k)) as [->|Hne].
    + by rewrite !lookup_insert_eq.
    + rewrite lookup_insert_ne by done. destruct (kMap t !! k) as [p|] eqn:Ek; [|done].
      destruct Hk as ([n ->] & _ & _). apply Ho in Ek. rewrite lookup_insert_ne; [done|]. intros [= E]. lia.
Qed.

(** Changing the value of a counter. *)
Lemma heap_tinv k t l f p : tinv k t l -> tinv k (mkTable (kMap t) (alter f p (heap t)) (fresh t)) l.
Proof.
  intros [Ho Hh Ht Hk]. constructor; cbn [kMap heap fresh]; try done.
  intros n Hn. apply Hh in Hn. destruct (decide (p = Own n)) as [->|]; [by rewrite lookup_alter_eq, fmap_is_Some|].
  by rewrite lookup_alter_ne.
Qed.

Lemma heap_value k t l p : tinv k t l -> kMap t !! k = Some p -> is_Some (heap t !! p).
Proof. intros [Ho Hh Ht Hk] Ek. rewrite Ek in Hk. destruct Hk as ([n ->] & _). apply Hh. by eapply Ho. Qed.

Lemma incr_tinv k k' v t l : tinv k t l -> tinv k (incr k' v t) l /\
  eqm (current k (incr k' v t))
      (current k t + if decide (k' = k /\ is_Some (kMap t !! k)) then v else 0).
Proof.
  intros Hi. unfold incr. destruct (kMap t !! k') as [p|] eqn:Ek'.
  - split; [by apply heap_tinv|]. rewrite !current_eq. cbn [kMap heap]. destruct (decide _) as [[-> _]|Hn].
    + rewrite Ek'. destruct (heap_value k t l p Hi Ek') as [x Ex]. rewrite lookup_alter_eq, Ex. apply eqm_i64.
    + rewrite Z.add_0_r. destruct (kMap t !! k) as [p2|] eqn:Ek; [|exists 0; lia].
      rewrite lookup_alter_ne; [exists 0; lia|]. intros ->. apply Hn. split; [|done].
      destruct Hi as [_ _ _ Hk]. rewrite Ek in Hk. by apply Hk.
  - split; [done|]. rewrite decide_False; [exists 0; lia|]. intros [-> [p Ep]]. congruence.
Qed.

Lemma handlePc_tinv k r t l : tinv k t l -> tinv k (handlePc r t) l /\
  eqm (current k (handlePc r t)) (current k t + req_of k r).
Proof.
  intros Hi. unfold handlePc. destruct (kMap t !! Key r) as [p|] eqn:Er.
  - destruct (incr_tinv k (Key r) (Val r) t l Hi) as [H1 H2]. split; [done|]. unfold req_of.
    destruct (decide _) as [[-> _]|Hn]; [by rewrite bool_decide_true|].
    rewrite bool_decide_false; [done|]. intros <-. apply Hn. by rewrite Er.
  - destruct (set_new_tinv k (Key r) 0 t l Hi) as [H1 H2]; [intros E; left; congruence|].
    destruct (incr_tinv k (Key r) (Val r) _ l H1) as [H3 H4]. split; [done|]. eapply eqm_trans; [exact H4|].
    rewrite H2. unfold req_of. destruct (decide (Key r = k)) as [Ek|Hn].
    + rewrite bool_decide_true by done. rewrite decide_True.
      * rewrite (current_eq k t), <- Ek, Er. exists 0. lia.
      * split; [done|]. cbn [set_new kMap]. rewrite Ek, lookup_insert_eq. done.
    + rewrite bool_decide_false, decide_False by naive_solver. exists 0. lia.
Qed.

Definition inv (k : string) (s : PC) : Prop := tinv k (tbl s) (todo s) /\
  match walk s with PUps l => Forall (fun kp => exists n, kp.2 = Ext n) l | _ => True end.

(** What one step does to the balance of [k]. *)
Definition balanced (k : string) (s : PC) (l : label) (s' : PC) : Prop :=
  inv k s' /\ eqm (total k s' + swapped1 k l) (total k s + accepted1 k l).

(** A step that changes neither the table nor the queue nor the list of the report. *)
Lemma balanced_idle k s l s' : inv k s -> tbl s' = tbl s -> perfCounterC (ch s') = perfCounterC (ch s) ->
  (forall x, x ∈ todo s' -> x ∈ todo s) -> swapped1 k l = 0 -> accepted1 k l = 0 ->
  match walk s' with PUps l => Forall (fun kp => exists n, kp.2 = Ext n) l | _ => True end -> balanced k s l s'.
Proof.
  intros [[Ho Hh Ht Hk] _] Etbl Ech Htodo Esw Eacc Hups. split.
  - split; [|done]. rewrite Etbl. constructor; [done|done| |].
    + intros k' n Hin. by eapply Ht, Htodo.
    + destruct (kMap (tbl s) !! k); [|intros k' p' Hin; by eapply Hk, Htodo].
      destruct Hk as (H1 & H2 & H3). split_and!; [done..|]. intros k' p' Hin. by apply H3, Htodo.
  - unfold total. rewrite Etbl, Ech, Esw, Eacc. exists 0. lia.
Qed.

Lemma Incr_balanced k s k' v : inv k s ->
  balanced k s (LIncr k' v (negb (closed (ctl s) =? 0) && (len (perfCounterC (ch s)) <? capacity (ch s)))) (Incr k' v s).
Proof.
  intros Hi. unfold Incr. destruct (closed (ctl s) =? 0); [apply balanced_idle; by destruct Hi|]. cbn [negb andb].
  destruct (_ <? _); [|apply balanced_idle; by destruct Hi]. split; [done|].
  unfold total. cbn [with_ch ch tbl perfCounterC accepted1 swapped1]. rewrite queued_app. cbn [queued foldr].
  unfold req_of. cbn [Key Val]. exists 0. destruct (bool_decide _); lia.
Qed.

Lemma swap_balanced k s hn ct rp k' p l sent v : inv k s -> walk s = PSwap hn ct rp ((k', p) :: l) sent ->
  heap (tbl s) !! p = Some v -> let m := mkMetric hn ct v (tag rp k') in
  balanced k s (LSwap k' m) (with_walk (PSwap hn ct rp l (sent ++ [m]))
    (with_tbl (mkTable (kMap (tbl s)) (<[p := 0]> (heap (tbl s))) (fresh (tbl s))) s)).
Proof.
  intros [[Ho Hh Ht Hk] _] Hw Hv m. unfold todo in Ht, Hk. rewrite Hw in Ht, Hk. split.
  - split; [|done]. constructor; cbn [with_walk with_tbl tbl todo walk kMap heap fresh].
    + done.
    + intros n Hn. destruct (decide (p = Own n)) as [->|]; [by rewrite lookup_insert_eq|]. rewrite lookup_insert_ne by done. auto.
    + intros k2 n Hin. apply (Ht k2). by right.
    + destruct (kMap (tbl s) !! k); [|intros k2 p2 Hin; apply (Hk k2 p2); by right].
      destruct Hk as (H1 & H2 & H3). split_and!; [done..|]. intros k2 p2 Hin. apply H3. by right.
  - unfold total. cbn [with_walk with_tbl tbl ch accepted1 swapped1]. rewrite !current_eq. cbn [kMap heap]. subst m.
    cbn [value]. destruct (kMap (tbl s) !! k) as [pk|] eqn:Ek.
    + destruct Hk as (_ & _ & H3). specialize (H3 k' p ltac:(by left)). case_bool_decide as Hkk.
      * apply H3 in Hkk as ->. rewrite lookup_insert_eq, Hv. exists 0. cbn. lia.
      * rewrite lookup_insert_ne; [exists 0; lia|]. intros ->. by apply Hkk, H3.
    + specialize (Hk k' p ltac:(by left)). rewrite bool_decide_false by done. exists 0. lia.
Qed.

(** The user writes a counter of the updater. *)
Lemma user_balanced k s n v : inv k s ->
  balanced k s (LUser n) (with_tbl (mkTable (kMap (tbl s)) (<[Ext n := v]> (heap (tbl s))) (fresh (tbl s))) s).
Proof.
  intros Hi. destruct Hi as [[Ho Hh Ht Hk] Hu]. split.
  - split; [|done]. constructor; cbn [with_tbl tbl kMap heap fresh]; [done| |done|done].
    intros n' Hn'. rewrite lookup_insert_ne by done. auto.
  - unfold total. cbn [with_tbl tbl ch]. rewrite !current_eq. cbn [kMap heap].
    destruct (kMap (tbl s) !! k) as [p|] eqn:Ek; [|exists 0; cbn; lia]. destruct Hk as ([n' ->] & _).
    rewrite lookup_insert_ne by done. exists 0. cbn. lia.
Qed.

(** A counter of the updater takes the place of another key's. *)
Lemma updater_balanced k s k' p l : inv k s -> walk s = PUps ((k', p) :: l) -> k' ≠ k ->
  balanced k s (LSet k') (with_walk (PUps l) (with_tbl (kSet k' p (tbl s)) s)).
Proof.
  intros Hi Hw Hne. destruct Hi as [[Ho Hh Ht Hk] Hu]. rewrite Hw in Hu. apply Forall_cons in Hu as [[n Hp] Hu]. cbn [snd] in Hp. subst p.
  split.
  - split; [|done]. unfold todo in *. rewrite Hw in *.
    constructor; cbn [with_walk with_tbl tbl kSet kMap heap fresh walk]; [|done|by intros ? ? ?%elem_of_nil|].
    * intros k2 n2. destruct (decide (k' = k2)) as [->|]; [by rewrite lookup_insert_eq|]. rewrite lookup_insert_ne by done. apply Ho.
    * rewrite lookup_insert_ne by done. destruct (kMap (tbl s) !! k) as [p|]; [|by intros ? ? ?%elem_of_nil].
      destruct Hk as ([n' ->] & H2 & _). split_and!; [by eexists| |by intros ? ? ?%elem_of_nil].
      intros k2. destruct (decide (k' = k2)) as [->|]; [by rewrite lookup_insert_eq|]. rewrite lookup_insert_ne by done. apply H2.
  - unfold total. cbn [with_walk with_tbl tbl ch]. rewrite !current_eq. cbn [kSet kMap heap].
    rewrite lookup_insert_ne by done. exists 0. cbn. lia.
Qed.

(** The number of goroutines is set, and the table taken for the report. *)
Lemma last_balanced k s goNums hn ct : inv k s -> walk s = PLast -> "go_projects_goroutine_num"%string ≠ k ->
  let t := set_new "go_projects_goroutine_num" goNums (tbl s) in
  balanced k s (LSet "go_projects_goroutine_num")
    (with_walk (match hn with
                | Some hn => PSwap hn ct (run_port (suffixDecider (ctl s))) (map_to_list (kMap t)) []
                | None => PIdle
                end) (with_tbl t s)).
Proof.
  intros Hi Hw Hk t. destruct Hi as [Ht Hu].
  assert (todo s = []) as Etodo by (unfold todo; by rewrite Hw).
  destruct (set_new_tinv k "go_projects_goroutine_num" goNums (tbl s) (todo s) Ht) as [H1 H2]; [congruence|].
  fold t in H1, H2. rewrite decide_False in H2 by done. split.
  - destruct hn as [hn|]; (split; [|done]); cbn [with_walk with_tbl tbl walk todo]; [|by rewrite Etodo in H1].
    destruct H1 as [Ho Hh _ Hk1]. constructor; cbn [with_walk with_tbl tbl walk todo]; [done|done| |].
    * intros k2 n Hin%elem_of_map_to_list. by eapply Ho.
    * destruct (kMap t !! k) as [p|] eqn:Ek.
      -- destruct Hk1 as (Hn & Hu1 & _). split_and!; [done..|]. intros k2 p2 Hin%elem_of_map_to_list.
         split; [intros ->; congruence|intros ->; by apply Hu1].
      -- intros k2 p2 Hin%elem_of_map_to_list ->. congruence.
  - unfold total. cbn [with_walk with_tbl tbl ch]. rewrite H2. exists 0. cbn. lia.
Qed.

Lemma step_balanced k s l s' : inv k s -> step s l s' -> l ≠ LSet k -> balanced k s l s'.
Proof.
  intros Hi Hstep Hne. destruct Hstep as [s k' v|s k' v|s r l Hc Hq|s r l Hc Hq|s upd|s d|s|s n v|s Hc Hw _|s snaps Hc Hw
    |s k' v l Hc Hw|s Hc Hw|s Hc Hw|s ups Hc Hw _ Hext|s Hc Hw _|s k' p l Hc Hw|s Hc Hw|s goNums hn ct Hc Hw t
    |s hn ct rp k' p l sent v Hc Hw Hv m|s hn ct rp sent Hc Hw].
  - by apply Incr_balanced.
  - unfold Cost. destruct (_ =? _); [|destruct (_ <? _)]; apply balanced_idle; by destruct Hi.
  - destruct Hi as [Ht Hu]. destruct (handlePc_tinv k r (tbl s) (todo s) Ht) as [H1 H2].
    split; [by split|]. unfold total. cbn [with_ch with_tbl ch tbl perfCounterC]. rewrite Hq. cbn [queued foldr].
    fold (queued k l). destruct H2 as [q E]. exists q. cbn [swapped1 accepted1]. rewrite E. lia.
  - apply balanced_idle; by destruct Hi.
  - apply balanced_idle; by destruct Hi.
  - apply balanced_idle; by destruct Hi.
  - unfold ClosePerfCounter. destruct (closeOnce _); apply balanced_idle; by destruct Hi.
  - by apply user_balanced.
  - apply balanced_idle; try done. cbn. intros x Hx. by apply elem_of_nil in Hx.
  - apply balanced_idle; try done. cbn. intros x Hx. by apply elem_of_nil in Hx.
  - destruct Hi as [Ht Hu]. destruct (set_new_tinv k k' v (tbl s) (todo s) Ht) as [H1 H2]; [congruence|].
    split; [split; [|done]|].
    + unfold todo in *. rewrite Hw in H1. exact H1.
    + unfold total. cbn [with_walk with_tbl tbl ch]. rewrite H2, decide_False by congruence. exists 0. cbn. lia.
  - apply balanced_idle; try done. cbn. intros x Hx. by apply elem_of_nil in Hx.
  - apply balanced_idle; try done; cbn; destruct (updater _); try done; intros x Hx; by apply elem_of_nil in Hx.
  - apply balanced_idle; try done; cbn; [intros x Hx; by apply elem_of_nil in Hx|].
    apply Forall_forall. intros [k' p] Hin%elem_of_map_to_list. by eapply Hext.
  - apply balanced_idle; try done. unfold todo. cbn. by rewrite Hw.
  - apply updater_balanced; [done..|congruence].
  - apply balanced_idle; try done. cbn. intros x Hx. by apply elem_of_nil in Hx.
  - apply last_balanced; [done..|congruence].
  - by apply (swap_balanced k s hn ct rp k' p l sent v).
  - apply balanced_idle; try done; cbn. intros x Hx. by apply elem_of_nil in Hx.
Qed.

(** The package before [InitPerfCounter], and after it. *)
Definition zero : PC :=
  mkPC (mkTable ∅ ∅ 0) (mkChannels [] [] 0 ∅) (mkControl 0 false false false false None) PIdle [] 0 false.
Definition started (upd : bool) (initKeys : list string) : PC := InitPerfCounter upd initKeys zero.

Lemma just_started k upd initKeys : inv k (started upd initKeys) /\ total k (started upd initKeys) = 0.
Proof.
  assert (forall t, tinv k t [] -> current k t = 0 ->
    tinv k (foldl (fun t k => set_new k 0 t) t initKeys) [] /\ current k (foldl (fun t k => set_new k 0 t) t initKeys) = 0) as H.
  { induction initKeys as [|k' ks IH]; intros t Ht Hc; [done|]. cbn [foldl].
    destruct (set_new_tinv k k' 0 t [] Ht) as [H1 H2]; [by right|]. apply IH; [done|]. rewrite H2. by destruct (decide _). }
  destruct (H (mkTable ∅ ∅ 0)) as [H1 H2].
  - constructor; cbn [kMap heap fresh]; [intros ? ?; by rewrite lookup_empty|intros; lia|by intros ? ? ?%elem_of_nil|].
    rewrite lookup_empty. by intros ? ? ?%elem_of_nil.
  - by rewrite current_eq.
  - split; [by split|]. unfold total. cbn. exact H2.
Qed.

(** C16 No increment is lost or counted twice: in every interleaving of callers, the
    goroutine of the counters and reports, what was accepted for a key is what is
    queued, plus what its counter holds, plus what reports took from it (modulo
    [2^64]), as long as no report sets the key to a value of its own. *)
Theorem increments_conserved upd initKeys ls s k : steps step (started upd initKeys) ls s -> LSet k ∉ ls ->
  i64 (total k s + over (swapped1 k) ls) = i64 (over (accepted1 k) ls).
Proof.
  intros Hs Hk. apply i64_eqm. destruct (just_started k upd initKeys) as [Hi H0].
  enough (eqm (total k s + over (swapped1 k) ls) (total k (started upd initKeys) + over (accepted1 k) ls)) as E
    by (by rewrite H0 in E).
  clear H0. revert Hi Hk. induction Hs as [s|s l s1 ls s2 Hstep Hs IH]; intros Hi Hk; [exists 0; cbn; lia|].
  apply not_elem_of_cons in Hk as [Hk1 Hk]. destruct (step_balanced k s l s1 Hi Hstep) as [Hi1 [q1 E1]]; [congruence|].
  destruct (IH Hi1 Hk) as [q2 E2]. exists (q1 + q2). cbn [over foldr]. fold (over (swapped1 k) ls). fold (over (accepted1 k) ls). lia.
Qed.

(** ** Reports are complete *)

Definition swap_of (l : label) : option metric := match l with LSwap _ m => Some m | _ => None end.
Definition in_progress (s : PC) : list metric := match walk s with PSwap _ _ _ _ sent => sent | _ => [] end.

Lemma cut_correct sent : concat (cut sent) = sent /\ Forall (fun p => 0 < len p <= 35) (cut sent).
Proof.
  destruct (SliceCutter_correct sent 35 tt) as (parts & E & H1 & H2); [lia|].
  unfold cut, outcome_of. by rewrite E.
Qed.

(** A step extends what is sent or being sent by the value it takes. *)
Lemma step_sends s l s' : step s l s' ->
  concat (sent_reports s') ++ in_progress s' =
    (concat (sent_reports s) ++ in_progress s) ++ match swap_of l with Some m => [m] | None => [] end /\
  (Forall (fun p => 0 < len p <= 35) (sent_reports s) -> Forall (fun p => 0 < len p <= 35) (sent_reports s')).
Proof.
  assert (forall s s' : PC, sent_reports s' = sent_reports s -> in_progress s' = in_progress s ->
    concat (sent_reports s') ++ in_progress s' = (concat (sent_reports s) ++ in_progress s) ++ [] /\
    (Forall (fun p => 0 < len p <= 35) (sent_reports s) -> Forall (fun p => 0 < len p <= 35) (sent_reports s'))) as Hidle
    by (intros a b E1 E2; by rewrite E1, E2, app_nil_r).
  intros Hstep. destruct Hstep; cbn [swap_of];
    try (apply Hidle; unfold Incr, Cost, ClosePerfCounter, in_progress;
         repeat match goal with
                | |- context [if ?b then _ else _] => destruct b
                | |- context [match ?h with Some _ => _ | None => _ end] => destruct h
                end; cbn;
         try match goal with H : walk _ = _ |- _ => rewrite H end; done).
  - unfold in_progress. cbn. match goal with H : walk _ = _ |- _ => rewrite H end. by rewrite app_assoc.
  - unfold in_progress. cbn. match goal with H : walk _ = _ |- _ => rewrite H end. rewrite app_nil_r, concat_app. destruct (cut_correct sent) as [-> HF].
    rewrite app_nil_r. split; [done|]. intros. by apply Forall_app.
Qed.

(** Every value taken from a counter is sent, once and in order, in groups of at
    most 35: the reports sent and the one in progress are the values taken. *)
Theorem reports_complete upd initKeys ls s : steps step (started upd initKeys) ls s ->
  concat (sent_reports s) ++ in_progress s = omap swap_of ls /\
  Forall (fun p => 0 < len p <= 35) (sent_reports s).
Proof.
  assert (forall s0 s, steps step s0 ls s ->
    concat (sent_reports s) ++ in_progress s = (concat (sent_reports s0) ++ in_progress s0) ++ omap swap_of ls /\
    (Forall (fun p => 0 < len p <= 35) (sent_reports s0) -> Forall (fun p => 0 < len p <= 35) (sent_reports s))) as H.
  { induction 1 as [s0|s0 l s1 ls s2 Hstep Hs [IH1 IH2]]; [by rewrite app_nil_r|].
    destruct (step_sends s0 l s1 Hstep) as [E HF]. rewrite IH1, E. split; [|by auto].
    rewrite <- (app_assoc _ _ (omap swap_of ls)). f_equal. cbn [omap list_omap]. by destruct (swap_of l). }
  intros Hs. destruct (H _ _ Hs) as [E HF]. split; [exact E|]. by apply HF.
Qed.

(** ** Examples *)

(** Two increments that overtake a report, which resets the counter in between. *)
Definition demo_trace : list label :=
  [LIncr "k" 3 true; LHandle (mkReq "k" 3); LTick; LReport; LReport; LSet "go_projects_goroutine_num"; LIncr "k" 4 true].

Lemma demo_reachable : exists s, steps step (started false []) demo_trace s.
Proof.
  eexists. unfold demo_trace.
  eapply steps_cons; [apply (step_Incr (started false []) "k" 3 eq_refl)|].
  eapply steps_cons; [by apply step_handlePc|].
  eapply steps_cons; [by apply (step_tick _ [])|].
  eapply steps_cons; [by apply step_timers_set|].
  eapply steps_cons; [by apply step_check|].
  eapply steps_cons; [by apply (step_last _ 5 (Some "h") 60)|].
  eapply steps_cons; [|apply steps_nil]. match goal with |- step ?s _ _ => exact (step_Incr s "k" 4 eq_refl) end.
Qed.

Lemma increments_conserved_witness : exists s, steps step (started false []) demo_trace s /\
  i64 (total "k" s + over (swapped1 "k") demo_trace) = 7.
Proof.
  destruct demo_reachable as [s Hs]. exists s. split; [exact Hs|].
  rewrite (increments_conserved false [] demo_trace s "k" Hs); [reflexivity|].
  intros Hin. unfold demo_trace in Hin. repeat (apply elem_of_cons in Hin as [Hin|Hin]; [discriminate|]).
  by apply elem_of_nil in Hin.
Defined.

Lemma reports_complete_witness : exists s, steps step (started false []) demo_trace s /\
  concat (sent_reports s) ++ in_progress s = [].
Proof.
  destruct demo_reachable as [s Hs]. exists s. split; [exact Hs|]. by destruct (reports_complete false [] demo_trace s Hs) as [-> _].
Defined.
End Pc.
