(* ===== verification/PcReport.v ===== *)
(** * Sending a report ([runtime/pc/pc.go]: sendPcReport)

    Each part of a report is posted by a goroutine of its own to an agent, and the
    answer is logged. *)

From S2P Require Import Prelude GoStd GoStrings UtlsText.
Import GoStd GoStrings.

Module PcReport.

(** The part of a response that is read; a length that is not known is [-1]. *)
Record Response : Type := mkResponse { StatusCode : Z; ContentLength : Z; Body : list byte }.

(** A line of the log: whether it is an error, with parameters, status and body. *)
Record line : Type := mkLine { failed : bool; params : option (list byte); httpStatus : Z; bodyStr : list byte }.

Section report.
Context {V : Type}.
(** The JSON encoder; the agent: a response, an error, or both; how much of a body one
    read gives of a buffer. *)
Variable Encode : V -> list byte + string.
Variable Do : list byte -> option Response * option string.
Variable Read : list byte -> nat -> nat.

(** [make([]byte, n)] and one read into it. *)
Definition read_body (resp : Response) : M (list line) (list byte) :=
  if ContentLength resp <? 0 then panic "makeslice: len out of range"
  else mret (take (Read (Body resp) (Z.to_nat (ContentLength resp)) `min` Z.to_nat (ContentLength resp)) (Body resp)).

Definition log (l : line) : M (list line) unit := modify (fun ls => ls ++ [l]).

(** The cost of the request is in the line too, and left out. *)
(* [runtime/pc/pc.go:335-369] sendPcReport *)
Definition sendPcReport (send : V) : M (list line) unit :=
  match UtlsText.Marshal Encode send with
  | inr _ => log (mkLine true None 0 [])
  | inl paramsBytes =>
      let '(resp, err) := Do paramsBytes in
      '(status, body) ← (match resp with
                         | Some resp => body ← read_body resp; mret (StatusCode resp, body)
                         | None => mret (0, [])
                         end);
      log (mkLine (match err with Some _ => true | None => false end) (Some paramsBytes) status body)
  end.

(** A report is sent at most once, and what came of it is one line; but an agent that
    answers without the length of its answer ends the program, since nobody
    recovers in that goroutine. *)
Lemma report_logged send ls :
  (exists l, sendPcReport send ls = (Ret tt, ls ++ [l])) \/
  sendPcReport send ls = (Panic "makeslice: len out of range", ls) /\
    exists b resp err, UtlsText.Marshal Encode send = inl b /\ Do b = (Some resp, err) /\ ContentLength resp < 0.
Proof.
  unfold sendPcReport. destruct (UtlsText.Marshal Encode send) as [b|e] eqn:Em; [|left; by eexists].
  destruct (Do b) as [[resp|] err] eqn:Ed; [|left; by eexists]. unfold read_body.
  destruct (Z.ltb_spec (ContentLength resp) 0) as [Hl|Hl]; [right|left; by eexists].
  split; [done|]. by exists b, resp, err.
Qed.

Lemma chunked_answer_crashes send ls b resp err : UtlsText.Marshal Encode send = inl b -> Do b = (Some resp, err) ->
  ContentLength resp < 0 -> sendPcReport send ls = (Panic "makeslice: len out of range", ls).
Proof.
  intros H1 H2 H3. unfold sendPcReport, read_body. rewrite H1, H2. by rewrite (proj2 (Z.ltb_lt _ _)) by done.
Qed.
End report.

(** A full answer, one whose length is greater than what a read gives, and a chunked
    one. *)
Example answers :
  let run n body := sendPcReport (fun _ : unit => inl [x5b; x5d; x0a]) (fun _ => (Some (mkResponse 200 n body), None))
    (fun body n => Nat.min n (length body)) tt [] in
  run 2 [x6f; x6b] = (Ret tt, [mkLine false (Some [x5b; x5d]) 200 [x6f; x6b]]) /\
  run 3 [x6f; x6b] = (Ret tt, [mkLine false (Some [x5b; x5d]) 200 [x6f; x6b]]) /\
  run (-1) [x6f; x6b] = (Panic "makeslice: len out of range", []).
Proof. vm_compute. done. Qed.

End PcReport.
