(* ===== verification/OrderedMap.v ===== *)
(** * Insertion-ordered map ([utls/orderedmap])

    The Go type keeps the pairs in a hash map [store] and their order in a
    circular doubly linked list threaded through a sentinel [root]; [mapper]
    finds the list node of a key.  Nodes are shared, mutable objects, so they
    live in an explicit heap. *)

From S2P Require Import Prelude.

(** Node addresses; [None] is the nil pointer. *)
Abbreviation loc := positive.

Module OrderedMap.

Section defs.
Context {K V : Type} `{Countable K}.

(* [utls/orderedmap/list.go:13-17] node *)
Record node : Type := mkNode { Prev : option loc; Next : option loc; Value : option K }.

(* [utls/orderedmap/orderedmap.go:12-15] KVPair *)
Record KVPair : Type := mkKV { Key : option K; KValue : option V }.

(* [utls/orderedmap/orderedmap.go:25-29] OrderedMap *)
Record OrderedMap : Type := mkOM {
  store : gmap K V;
  mapper : gmap K loc;
  root : loc;
  heap : gmap loc node;   (* the nodes of the list *)
  brk : loc               (* the next address the allocator hands out *)
}.

Definition with_heap (f : gmap loc node -> gmap loc node) (m : OrderedMap) : OrderedMap :=
  mkOM (store m) (mapper m) (root m) (f (heap m)) (brk m).
Definition with_store (f : gmap K V -> gmap K V) (m : OrderedMap) : OrderedMap :=
  mkOM (f (store m)) (mapper m) (root m) (heap m) (brk m).
Definition with_mapper (f : gmap K loc -> gmap K loc) (m : OrderedMap) : OrderedMap :=
  mkOM (store m) (f (mapper m)) (root m) (heap m) (brk m).

(** Pointer accesses: dereferencing nil (or an unallocated address) panics. *)
Definition deref (p : option loc) : M OrderedMap node :=
  m ← get;
  match p ≫= (fun l => heap m !! l) with
  | Some n => mret n
  | None => panic "nil pointer dereference"
  end.

Definition set_next (p q : option loc) : M OrderedMap unit :=
  n ← deref p;
  match p with
  | Some l => modify (with_heap <[l := mkNode (Prev n) q (Value n)]>)
  | None => mret tt
  end.

Definition set_prev (p q : option loc) : M OrderedMap unit :=
  n ← deref p;
  match p with
  | Some l => modify (with_heap <[l := mkNode q (Next n) (Value n)]>)
  | None => mret tt
  end.

(* [utls/orderedmap/list.go:26-28] newNode *)
Definition newNode (prev next : option loc) (key : K) : M OrderedMap (option loc) := fun m =>
  (Ret (Some (brk m)),
   mkOM (store m) (mapper m) (root m)
        (<[brk m := mkNode prev next (Some key)]> (heap m)) (Pos.succ (brk m))).

(* [utls/orderedmap/list.go:19-24] newRootNode *)
Definition newRootNode (l : loc) : node := mkNode (Some l) (Some l) None.

(* [utls/orderedmap/orderedmap.go:31-38] NewOrderedMap *)
Definition NewOrderedMap : OrderedMap :=
  mkOM ∅ ∅ 1%positive {[1%positive := newRootNode 1%positive]} 2%positive.

(** [root.Prev], [last.Next = newNode(last, root, key)], [root.Prev = last.Next]. *)
(* [utls/orderedmap/list.go:30-35] node.Add *)
Definition Add (n : loc) (value : K) : M OrderedMap (option loc) :=
  root_n ← deref (Some n);
  let last := Prev root_n in
  new ← newNode last (Some n) value;
  _ ← set_next last new;
  last_n ← deref last;
  _ ← set_prev (Some n) (Next last_n);
  mret (Next last_n).

(* [utls/orderedmap/orderedmap.go:52-61] OrderedMap.Set *)
Definition Set_ (key : K) (value : V) : M OrderedMap unit :=
  m ← get;
  _ ← (match store m !! key with
       | None =>
           root_n ← deref (Some (root m));
           let last := Prev root_n in
           new ← newNode last (Some (root m)) key;
           _ ← set_next last new;
           last_n ← deref last;
           _ ← set_prev (Some (root m)) (Next last_n);
           last_n' ← deref last;
           match Next last_n' with
           | Some l => modify (with_mapper <[key := l]>)
           | None => mret tt
           end
       | Some _ => mret tt
       end);
  modify (with_store <[key := value]>).

(* [utls/orderedmap/orderedmap.go:46-50] OrderedMap.update *)
Fixpoint update (args : list (K * V)) : M OrderedMap unit :=
  match args with
  | [] => mret tt
  | (k, v) :: args' => _ ← Set_ k v; update args'
  end.

(* [utls/orderedmap/orderedmap.go:40-44] NewOrderedMapWithArgs *)
Definition NewOrderedMapWithArgs (args : list (K * V)) : outcome unit * OrderedMap :=
  update args NewOrderedMap.

(* [utls/orderedmap/orderedmap.go:63-66] OrderedMap.Get *)
Definition Get (key : K) (m : OrderedMap) : option V := store m !! key.

(* [utls/orderedmap/orderedmap.go:68-80] OrderedMap.Delete *)
Definition Delete (key : K) : M OrderedMap unit :=
  m ← get;
  _ ← (match store m !! key with
       | Some _ => modify (with_store (delete key))
       | None => mret tt
       end);
  match mapper m !! key with
  | Some n =>
      root_n ← deref (Some n);
      let prev := Prev root_n in
      let next := Next root_n in
      _ ← set_next prev next;
      set_prev next prev
  | None => mret tt
  end.

(* [utls/orderedmap/orderedmap.go:153-155] OrderedMap.Len *)
Definition Len (m : OrderedMap) : Z := Z.of_nat (size (store m)).

(** The closures returned by [IterFunc]/[RevIterFunc] keep a cursor; a call
    returns the pair under the cursor, or nothing once it is back at [stop]. *)
Definition pair_at (m : OrderedMap) (n : node) : KVPair :=
  mkKV (Value n) (Value n ≫= (fun k => store m !! k)).

(* [utls/orderedmap/orderedmap.go:120-128] IterFunc closure *)
Definition iter_next (curr : option loc) : M OrderedMap (option KVPair * option loc) :=
  m ← get;
  if decide (curr = Some (root m)) then mret (None, curr)
  else n ← deref curr; mret (Some (pair_at m n), Next n).

(* [utls/orderedmap/orderedmap.go:116-119] OrderedMap.IterFunc *)
Definition IterFunc : M OrderedMap (option loc) :=
  m ← get; n ← deref (Some (root m)); mret (Next n).

(** [for kv, ok := iter(); ok; kv, ok = iter()], with fuel. *)
Fixpoint drain (next : option loc -> M OrderedMap (option KVPair * option loc))
    (fuel : nat) (curr : option loc) : M OrderedMap (list KVPair) :=
  match fuel with
  | O => panic "out of fuel"
  | S fuel' =>
      r ← next curr;
      match r with
      | (None, _) => mret []
      | (Some kv, curr') => l ← drain next fuel' curr'; mret (kv :: l)
      end
  end.

Definition iterate (fuel : nat) : M OrderedMap (list KVPair) :=
  c ← IterFunc; drain iter_next fuel c.

(* [utls/orderedmap/orderedmap.go:132-140] RevIterFunc search loop *)
Fixpoint rev_start (fuel : nat) (curr : option loc) : M OrderedMap (option loc) :=
  match fuel with
  | O => panic "out of fuel"
  | S fuel' =>
      m ← get;
      n ← deref curr;
      if bool_decide (Next n = None) || bool_decide (Next n = curr)
         || bool_decide (curr = Some (root m))
      then mret curr
      else rev_start fuel' (Next n)
  end.

(* [utls/orderedmap/orderedmap.go:142-150] RevIterFunc closure *)
Definition rev_next (start curr : option loc) : M OrderedMap (option KVPair * option loc) :=
  m ← get;
  if decide (curr = start) then mret (None, curr)
  else n ← deref curr; mret (Some (pair_at m n), Prev n).

(* [utls/orderedmap/orderedmap.go:131-151] OrderedMap.RevIterFunc *)
Definition RevIterFunc : M OrderedMap (option loc * option loc) :=
  m ← get;
  start ← rev_start 1 (Some (root m));
  n ← deref start;
  mret (start, Prev n).

Definition rev_iterate (fuel : nat) : M OrderedMap (list KVPair) :=
  '(start, c) ← RevIterFunc; drain (rev_next start) fuel c.

(** [String]: [builder] has [len(om.store)] slots, so a list longer than the
    store makes the indexed write panic. *)
(* [utls/orderedmap/orderedmap.go:82-93] OrderedMap.String *)
Definition to_string (show : KVPair -> string) (fuel : nat) : M OrderedMap (list string) :=
  kvs ← iterate fuel;
  m ← get;
  if decide (Z.of_nat (length kvs) <= Len m)
  then mret (map show kvs ++ replicate (size (store m) - length kvs) EmptyString)
  else panic "index out of range".
End defs.

Arguments node : clear implicits.
Arguments KVPair : clear implicits.
Arguments OrderedMap K V {_ _}.
#[global] Instance kv_inhabited {K V} : Inhabited (KVPair K V) := populate (mkKV None None).

(** ** The circular list

    [links h l]: consecutive addresses of [l] point at each other in [h].  The
    list of a map is [root :: locs ++ [root]]. *)

Section links.
Context {K : Type}.
Implicit Types (h : gmap loc (node K)) (l : list loc).

Definition nxt h p : option loc := h !! p ≫= Next.
Definition prv h p : option loc := h !! p ≫= Prev.
Definition val h p : option K := h !! p ≫= Value.

Fixpoint links h l : Prop :=
  match l with
  | x :: (y :: _) as l' => nxt h x = Some y /\ prv h y = Some x /\ links h l'
  | _ => True
  end.

Lemma links_cons2 h x y l :
  links h (x :: y :: l) <-> nxt h x = Some y /\ prv h y = Some x /\ links h (y :: l).
Proof. done. Qed.

Lemma links_app h l1 x l2 :
  links h (l1 ++ x :: l2) <-> links h (l1 ++ [x]) /\ links h (x :: l2).
Proof.
  induction l1 as [|y [|z l1] IH]; simpl app in *.
  - simpl. tauto.
  - rewrite !links_cons2. simpl. tauto.
  - rewrite !links_cons2. simpl in IH. tauto.
Qed.

Lemma links_frame h h' l z :
  (forall x, x ∈ l -> nxt h' x = nxt h x) ->
  (forall x, x ∈ tail (l ++ [z]) -> prv h' x = prv h x) ->
  links h (l ++ [z]) -> links h' (l ++ [z]).
Proof.
  induction l as [|x [|y l] IH]; intros Hn Hp HL; simpl app in *; [done|..];
    rewrite links_cons2 in *; destruct HL as (Hx & Hy & HL).
  - rewrite Hn, Hp by set_solver. done.
  - rewrite Hn, Hp by set_solver. split_and!; [done..|].
    apply IH; [set_solver..|done].
Qed.
End links.
Arguments links : simpl never.

(** ** Abstract specification: an association list in insertion order *)

Section spec.
Context {K V : Type} `{Countable K}.
Implicit Types (al : list (K * V)).

Definition a_get (k : K) al : option V := (list_to_map al : gmap K V) !! k.

Definition a_set (k : K) (v : V) al : list (K * V) :=
  if decide (k ∈ al.*1) then (fun kv => if decide (kv.1 = k) then (k, v) else kv) <$> al
  else al ++ [(k, v)].

Definition a_delete (k : K) al : list (K * V) := filter (fun kv => kv.1 ≠ k) al.

Definition a_pairs al : list (KVPair K V) := (fun kv => mkKV (Some kv.1) (Some kv.2)) <$> al.

Lemma a_set_fst_old k v al : k ∈ al.*1 -> (a_set k v al).*1 = al.*1.
Proof.
  intros Hk. unfold a_set. rewrite decide_True by done.
  rewrite <- list_fmap_compose. apply list_fmap_ext. intros i [k' v'] _. simpl.
  case_decide; naive_solver.
Qed.

Lemma a_set_new k v al : k ∉ al.*1 -> a_set k v al = al ++ [(k, v)].
Proof. intros Hk. unfold a_set. by rewrite decide_False. Qed.

Lemma a_set_nodup k v al : NoDup al.*1 -> NoDup (a_set k v al).*1.
Proof.
  intros Hnd. destruct (decide (k ∈ al.*1)) as [Hk|Hk].
  - by rewrite a_set_fst_old.
  - rewrite a_set_new by done. rewrite fmap_app. simpl.
    apply NoDup_app. split_and!; [done|set_solver|apply NoDup_singleton].
Qed.

Lemma a_get_set k v al : NoDup al.*1 -> a_get k (a_set k v al) = Some v.
Proof.
  intros Hnd. unfold a_get. apply elem_of_list_to_map_1.
  - by apply a_set_nodup.
  - destruct (decide (k ∈ al.*1)) as [Hk|Hk].
    + unfold a_set. rewrite decide_True by done.
      apply list_elem_of_fmap in Hk as ((k' & v') & -> & Hin).
      apply list_elem_of_fmap. exists (k', v'). simpl. by rewrite decide_True.
    + rewrite a_set_new by done. set_solver.
Qed.
End spec.

(** ** Representation *)

Section rep.
Context {K V : Type} `{Countable K}.
Implicit Types (m : OrderedMap K V) (l : list (loc * (K * V))) (al : list (K * V))
  (h : gmap loc (node K)) (p : loc).

Record rep_at m l : Prop := {
  rep_links : links (heap m) (root m :: l.*1 ++ [root m]);
  rep_nodup : NoDup (root m :: l.*1);
  rep_keys : NoDup l.*2.*1;
  rep_val : forall p k v, (p, (k, v)) ∈ l -> val (heap m) p = Some k;
  rep_mapper : forall p k v, (p, (k, v)) ∈ l -> mapper m !! k = Some p;
  rep_store : forall p k v, (p, (k, v)) ∈ l -> store m !! k = Some v;
  rep_dom : forall k v, store m !! k = Some v -> exists p, (p, (k, v)) ∈ l;
  rep_brk : forall p n, heap m !! p = Some n -> (p < brk m)%positive
}.

(** [m] represents the association list [al]. *)
Definition rep m al : Prop := exists l, rep_at m l /\ l.*2 = al.

Lemma nxt_Some h p (q : loc) : nxt h p = Some q ->
  exists n, h !! p = Some n /\ Next n = Some q.
Proof. unfold nxt. destruct (h !! p); naive_solver. Qed.

Lemma prv_Some h p (q : loc) : prv h p = Some q ->
  exists n, h !! p = Some n /\ Prev n = Some q.
Proof. unfold prv. destruct (h !! p); naive_solver. Qed.

Lemma val_Some h p k : val h p = Some k ->
  exists n, h !! p = Some n /\ Value n = Some k.
Proof. unfold val. destruct (h !! p); naive_solver. Qed.

(** The heap updates of [set_next] and [set_prev], and what they leave alone. *)
Definition h_next (p : loc) (q : option loc) (h : gmap loc (node K)) :=
  match h !! p with Some n => <[p := mkNode (Prev n) q (Value n)]> h | None => h end.
Definition h_prev (p : loc) (q : option loc) (h : gmap loc (node K)) :=
  match h !! p with Some n => <[p := mkNode q (Next n) (Value n)]> h | None => h end.

Ltac heap_tac :=
  unfold h_next, h_prev, nxt, prv, val; intros;
  repeat match goal with
  | H : is_Some _ |- _ => let x := fresh "n" in destruct H as [x H]; rewrite H in *
  | |- context [match ?h !! ?p with _ => _ end] => destruct (h !! p) eqn:?
  end; simplify_map_eq; try done.

Lemma nxt_h_next_eq p q h : is_Some (h !! p) -> nxt (h_next p q h) p = q.
Proof. heap_tac. Qed.
Lemma nxt_h_next_ne p q h x : x ≠ p -> nxt (h_next p q h) x = nxt h x.
Proof. heap_tac. Qed.
Lemma prv_h_next p q h x : prv (h_next p q h) x = prv h x.
Proof. destruct (decide (x = p)) as [->|]; heap_tac. Qed.
Lemma val_h_next p q h x : val (h_next p q h) x = val h x.
Proof. destruct (decide (x = p)) as [->|]; heap_tac. Qed.
Lemma prv_h_prev_eq p q h : is_Some (h !! p) -> prv (h_prev p q h) p = q.
Proof. heap_tac. Qed.
Lemma prv_h_prev_ne p q h x : x ≠ p -> prv (h_prev p q h) x = prv h x.
Proof. heap_tac. Qed.
Lemma nxt_h_prev p q h x : nxt (h_prev p q h) x = nxt h x.
Proof. destruct (decide (x = p)) as [->|]; heap_tac. Qed.
Lemma val_h_prev p q h x : val (h_prev p q h) x = val h x.
Proof. destruct (decide (x = p)) as [->|]; heap_tac. Qed.
Lemma dom_h_next p q h x : is_Some (h_next p q h !! x) <-> is_Some (h !! x).
Proof.
  unfold h_next. destruct (h !! p) eqn:E; [|done].
  rewrite lookup_insert_is_Some'. split; [intros [<-|]; [by rewrite E|done]|naive_solver].
Qed.
Lemma dom_h_prev p q h x : is_Some (h_prev p q h !! x) <-> is_Some (h !! x).
Proof.
  unfold h_prev. destruct (h !! p) eqn:E; [|done].
  rewrite lookup_insert_is_Some'. split; [intros [<-|]; [by rewrite E|done]|naive_solver].
Qed.
Lemma nxt_alloc b n h x : x ≠ b -> nxt (<[b := n]> h) x = nxt h x.
Proof. heap_tac. Qed.
Lemma prv_alloc b n h x : x ≠ b -> prv (<[b := n]> h) x = prv h x.
Proof. heap_tac. Qed.
Lemma val_alloc b n h x : x ≠ b -> val (<[b := n]> h) x = val h x.
Proof. heap_tac. Qed.

Lemma deref_eq m p n : heap m !! p = Some n -> deref (Some p) m = (Ret n, m).
Proof. intros Hp. unfold deref. go_run. by rewrite Hp. Qed.

Lemma set_next_eq m p q : is_Some (heap m !! p) ->
  set_next (Some p) q m = (Ret tt, with_heap (h_next p q) m).
Proof.
  intros [n Hp]. unfold set_next. go_run. rewrite (deref_eq _ _ n) by done.
  unfold with_heap, h_next. by rewrite Hp.
Qed.

Lemma set_prev_eq m p q : is_Some (heap m !! p) ->
  set_prev (Some p) q m = (Ret tt, with_heap (h_prev p q) m).
Proof.
  intros [n Hp]. unfold set_prev. go_run. rewrite (deref_eq _ _ n) by done.
  unfold with_heap, h_prev. by rewrite Hp.
Qed.

Lemma nxt_deref m p (q : loc) : nxt (heap m) p = Some q ->
  exists n, deref (Some p) m = (Ret n, m) /\ Next n = Some q.
Proof. intros (n & Hn & ?)%nxt_Some. exists n. by rewrite (deref_eq _ _ n). Qed.

Lemma prv_deref m p (q : loc) : prv (heap m) p = Some q ->
  exists n, deref (Some p) m = (Ret n, m) /\ Prev n = Some q.
Proof. intros (n & Hn & ?)%prv_Some. exists n. by rewrite (deref_eq _ _ n). Qed.

(** The last address before the sentinel, and the first one after it. *)
Lemma rep_last m l : rep_at m l -> exists ps last,
  root m :: l.*1 = ps ++ [last] /\ prv (heap m) (root m) = Some last /\
  links (heap m) (ps ++ [last]) /\ last ∈ root m :: l.*1 /\ last ∉ ps.
Proof.
  intros [HL Hnd _ _ _ _ _ _].
  destruct (exists_last (l := root m :: l.*1)) as (ps & last & E); [done|].
  exists ps, last. rewrite app_comm_cons, E in HL.
  rewrite <- app_assoc in HL. simpl in HL.
  apply links_app in HL as [HL1 (_ & HL2 & _)].
  rewrite E in Hnd |- *. apply NoDup_app in Hnd as (_ & Hnd & _).
  split_and!; [done..|set_solver|set_solver].
Qed.

Lemma rep_empty : rep (NewOrderedMap : OrderedMap K V) [].
Proof.
  exists []. split; [|done]. split; try set_solver.
  - by vm_compute.
  - apply NoDup_singleton.
  - apply NoDup_nil_2.
  - intros p n Hp. unfold NewOrderedMap in *. simpl in *.
    apply lookup_singleton_Some in Hp as [<- _]. lia.
Qed.

(** The state [Set_] leaves when the key is new. *)
Definition set_new_state (k : K) (v : V) (last : loc) m : OrderedMap K V :=
  let b := brk m in
  mkOM (<[k := v]> (store m)) (<[k := b]> (mapper m)) (root m)
    (h_prev (root m) (Some b) (h_next last (Some b)
      (<[b := mkNode (Some last) (Some (root m)) (Some k)]> (heap m))))
    (Pos.succ b).

Lemma Set_new_eq k v last m :
  store m !! k = None -> prv (heap m) (root m) = Some last -> is_Some (heap m !! last) ->
  heap m !! brk m = None ->
  Set_ k v m = (Ret tt, set_new_state k v last m).
Proof.
  intros Hk Hr Hl Hb. destruct (prv_deref _ _ _ Hr) as (nr & Hnr & Enr).
  assert (last ≠ brk m) as Hlb by (intros ->; destruct Hl; congruence).
  assert (root m ≠ brk m) as Hrb
    by (intros E; apply prv_Some in Hr as (? & ? & ?); congruence).
  unfold Set_. go_run. rewrite Hk, Hnr, Enr. simpl.
  rewrite set_next_eq by (simpl; by rewrite lookup_insert_ne).
  set (m1 := with_heap _ _).
  destruct (nxt_deref m1 last (brk m)) as (n1 & Hn1 & En1).
  { simpl. apply nxt_h_next_eq. by rewrite lookup_insert_ne. }
  rewrite Hn1, En1, set_prev_eq.
  2:{ simpl. apply dom_h_next. rewrite lookup_insert_ne by done.
      apply prv_Some in Hr as (? & -> & ?). done. }
  set (m2 := with_heap _ m1).
  destruct (nxt_deref m2 last (brk m)) as (n2 & Hn2 & En2).
  { simpl. rewrite nxt_h_prev. apply nxt_h_next_eq. by rewrite lookup_insert_ne. }
  by rewrite Hn2, En2.
Qed.

Lemma rep_alloc m l p : rep_at m l -> p ∈ root m :: l.*1 -> is_Some (heap m !! p).
Proof.
  intros Hrep Hp. destruct (rep_last m l Hrep) as (ps & last & _ & Hr & _ & _ & _).
  apply elem_of_cons in Hp as [->|Hp].
  - apply prv_Some in Hr as (n & Hn & _). by exists n.
  - apply list_elem_of_fmap in Hp as ((p' & k & v) & -> & Hin).
    apply (rep_val m l Hrep) in Hin. apply val_Some in Hin as (n & Hn & _). by exists n.
Qed.

Lemma rep_fresh m l : rep_at m l -> heap m !! brk m = None.
Proof.
  intros Hrep. destruct (heap m !! brk m) eqn:E; [|done].
  apply (rep_brk m l Hrep) in E. lia.
Qed.

Lemma rep_fresh_not_in m l : rep_at m l -> brk m ∉ root m :: l.*1.
Proof.
  intros Hrep Hin. apply (rep_alloc m l) in Hin as [n Hn]; [|done].
  by rewrite (rep_fresh m l Hrep) in Hn.
Qed.

Lemma rep_key_in m l k : rep_at m l -> k ∈ l.*2.*1 <-> is_Some (store m !! k).
Proof.
  intros Hrep. split.
  - intros Hk. apply list_elem_of_fmap in Hk as ((k' & v) & -> & Hk).
    apply list_elem_of_fmap in Hk as ((p & k'' & v') & [= -> ->] & Hk).
    exists v'. by apply (rep_store m l Hrep p).
  - intros [v Hv]. apply (rep_dom m l Hrep) in Hv as [p Hp].
    apply list_elem_of_fmap. exists (k, v). split; [done|].
    apply list_elem_of_fmap. by exists (p, (k, v)).
Qed.

Lemma rep_in_key l p k v : (p, (k, v)) ∈ l -> k ∈ l.*2.*1.
Proof.
  intros Hin. apply list_elem_of_fmap. exists (k, v). split; [done|].
  apply list_elem_of_fmap. by exists (p, (k, v)).
Qed.

Lemma rep_in_loc l p kv : (p, kv) ∈ l -> p ∈ l.*1.
Proof. intros Hin. apply list_elem_of_fmap. by exists (p, kv). Qed.

Lemma set_new_links k v last m l ps :
  rep_at m l -> root m :: l.*1 = ps ++ [last] -> links (heap m) (ps ++ [last]) ->
  last ∈ root m :: l.*1 -> last ∉ ps ->
  links (heap (set_new_state k v last m)) (root m :: (l ++ [(brk m, (k, v))]).*1 ++ [root m]).
Proof.
  intros Hrep E HL Hlast Hps. pose proof (rep_fresh_not_in m l Hrep) as Hb.
  assert (is_Some (heap m !! last)) as Hal by (by apply (rep_alloc m l)).
  assert (is_Some (heap m !! root m)) as Har by (apply (rep_alloc m l); [done|left]).
  pose proof (rep_nodup m l Hrep) as Hnd.
  rewrite fmap_app, <- app_assoc, app_comm_cons, E, <- app_assoc. simpl app.
  apply links_app. rewrite !links_cons2. split_and!.
  - assert (tail (ps ++ [last]) = l.*1) as Et by (by rewrite <- E).
    apply (links_frame (heap m)); [| |done]; intros x Hx; unfold set_new_state; simpl.
    + assert (x ≠ brk m) by (intros ->; apply Hb; rewrite E; set_solver).
      rewrite nxt_h_prev, nxt_h_next_ne, nxt_alloc; [done|done|by intros ->].
    + rewrite Et in Hx. inversion_clear Hnd.
      rewrite prv_h_prev_ne by (by intros ->). rewrite prv_h_next, prv_alloc; [done|].
      intros ->. apply Hb. by right.
  - simpl. rewrite nxt_h_prev, nxt_h_next_eq; [done|].
    rewrite lookup_insert_ne by (intros <-; done). done.
  - simpl. rewrite prv_h_prev_ne by (intros Eb; apply Hb; rewrite Eb; left).
    rewrite prv_h_next. unfold prv. by rewrite lookup_insert_eq.
  - simpl. rewrite nxt_h_prev, nxt_h_next_ne by (intros Eb; apply Hb; by rewrite Eb).
    unfold nxt. by rewrite lookup_insert_eq.
  - simpl. rewrite prv_h_prev_eq; [done|]. apply dom_h_next.
    rewrite lookup_insert_ne; [done|]. intros Eb. apply Hb. rewrite Eb. left.
  - done.
Qed.

Lemma set_new_rep k v last m l ps :
  rep_at m l -> store m !! k = None ->
  root m :: l.*1 = ps ++ [last] -> links (heap m) (ps ++ [last]) ->
  last ∈ root m :: l.*1 -> last ∉ ps ->
  rep_at (set_new_state k v last m) (l ++ [(brk m, (k, v))]).
Proof.
  intros Hrep Hk E HL Hlast Hps. pose proof (rep_fresh_not_in m l Hrep) as Hb.
  assert (k ∉ l.*2.*1) as Hkl by (rewrite (rep_key_in m) by done; rewrite Hk; intros [? [=]]).
  split.
  - by apply (set_new_links k v last m l ps).
  - unfold set_new_state. simpl. rewrite fmap_app, app_comm_cons. apply NoDup_app.
    split_and!; [apply (rep_nodup m l Hrep)|set_solver|apply NoDup_singleton].
  - rewrite !fmap_app. apply NoDup_app.
    split_and!; [apply (rep_keys m l Hrep)|set_solver|apply NoDup_singleton].
  - intros p k' v' [Hin|Hin]%elem_of_app; unfold set_new_state; simpl;
      rewrite val_h_prev, val_h_next.
    + rewrite val_alloc; [by apply (rep_val m l Hrep) in Hin|].
      intros ->. apply rep_in_loc in Hin. set_solver.
    + assert (p = brk m ∧ k' = k) as [-> ->] by set_solver.
      unfold val. by rewrite lookup_insert_eq.
  - intros p k' v' [Hin|Hin]%elem_of_app; unfold set_new_state; simpl.
    + rewrite lookup_insert_ne; [by apply (rep_mapper m l Hrep) in Hin|].
      intros <-. by apply rep_in_key in Hin.
    + assert (p = brk m ∧ k' = k) as [-> ->] by set_solver. apply lookup_insert_eq.
  - intros p k' v' [Hin|Hin]%elem_of_app; unfold set_new_state; simpl.
    + rewrite lookup_insert_ne; [by apply (rep_store m l Hrep) in Hin|].
      intros <-. by apply rep_in_key in Hin.
    + assert (k' = k ∧ v' = v) as [-> ->] by set_solver. apply lookup_insert_eq.
  - unfold set_new_state. simpl. intros k' v' Hk'.
    apply lookup_insert_Some in Hk' as [[<- <-]|[_ Hk']].
    + exists (brk m). set_solver.
    + apply (rep_dom m l Hrep) in Hk' as [p Hp]. exists p. set_solver.
  - unfold set_new_state. simpl. intros p n Hp.
    assert (is_Some (<[brk m := mkNode (Some last) (Some (root m)) (Some k)]> (heap m) !! p))
      as Hp' by (eapply dom_h_next, dom_h_prev; by rewrite Hp).
    apply lookup_insert_is_Some' in Hp' as [<-|[n' Hn']]; [lia|].
    apply (rep_brk m l Hrep) in Hn'. lia.
Qed.

(** Replacing the value of a present key only touches the store. *)
Definition upd k (v : V) (x : loc * (K * V)) : loc * (K * V) :=
  (x.1, if decide (x.2.1 = k) then (k, v) else x.2).

Lemma upd_fst k v l : (upd k v <$> l).*1 = l.*1.
Proof. rewrite <- list_fmap_compose. by apply list_fmap_ext. Qed.

Lemma upd_keys k v l : (upd k v <$> l).*2.*1 = l.*2.*1.
Proof.
  rewrite <- !list_fmap_compose. apply list_fmap_ext. intros i (p & k' & v') _.
  unfold upd. simpl. case_decide; naive_solver.
Qed.

Lemma upd_in k v l p k' v' : (p, (k', v')) ∈ upd k v <$> l ->
  exists v0, (p, (k', v0)) ∈ l /\ v' = (if decide (k' = k) then v else v0).
Proof.
  intros ((p0 & k0 & v0) & E & Hin)%list_elem_of_fmap. unfold upd in E. simpl in E.
  case_decide; simplify_eq; exists v0; by case_decide.
Qed.

Lemma set_old_rep k v m l v0 :
  rep_at m l -> store m !! k = Some v0 ->
  rep_at (with_store <[k := v]> m) (upd k v <$> l).
Proof.
  intros Hrep Hk. split; rewrite ?upd_fst, ?upd_keys; simpl; try apply Hrep.
  - intros p k' v' (v1 & Hin & _)%upd_in. by apply (rep_val m l Hrep) in Hin.
  - intros p k' v' (v1 & Hin & _)%upd_in. by apply (rep_mapper m l Hrep) in Hin.
  - intros p k' v' (v1 & Hin & ->)%upd_in. case_decide as E.
    + subst. apply lookup_insert_eq.
    + rewrite lookup_insert_ne by done. by apply (rep_store m l Hrep) in Hin.
  - intros k' v' [[<- <-]|[Hne Hk']]%lookup_insert_Some.
    + apply (rep_dom m l Hrep) in Hk as [p Hp]. exists p. apply list_elem_of_fmap.
      exists (p, (k, v0)). unfold upd. simpl. by rewrite decide_True.
    + apply (rep_dom m l Hrep) in Hk' as [p Hp]. exists p. apply list_elem_of_fmap.
      exists (p, (k', v')). unfold upd. simpl. by rewrite decide_False by done.
Qed.

Lemma Set_rep k v m al :
  rep m al -> exists m', Set_ k v m = (Ret tt, m') /\ rep m' (a_set k v al).
Proof.
  intros (l & Hrep & <-). destruct (store m !! k) as [v0|] eqn:Hk.
  - exists (with_store <[k := v]> m). split.
    + unfold Set_. go_run. by rewrite Hk.
    + exists (upd k v <$> l). split; [by apply (set_old_rep k v m l v0)|].
      unfold a_set. rewrite decide_True by (rewrite (rep_key_in m) by done; by rewrite Hk).
      rewrite <- !list_fmap_compose. by apply list_fmap_ext.
  - destruct (rep_last m l Hrep) as (ps & last & E & Hr & HL & Hin & Hnin).
    exists (set_new_state k v last m). split.
    + apply Set_new_eq; [done|done|by apply (rep_alloc m l)|by apply (rep_fresh m l)].
    + exists (l ++ [(brk m, (k, v))]). split; [by apply (set_new_rep k v last m l ps)|].
      rewrite fmap_app, a_set_new; [done|].
      rewrite (rep_key_in m) by done. rewrite Hk. by intros [].
Qed.

(** *** Delete *)

Lemma Delete_eq k m n p q :
  is_Some (store m !! k) -> mapper m !! k = Some n ->
  prv (heap m) n = Some p -> nxt (heap m) n = Some q ->
  is_Some (heap m !! p) -> is_Some (heap m !! q) ->
  Delete k m = (Ret tt, with_heap (fun h => h_prev q (Some p) (h_next p (Some q) h))
                                  (with_store (delete k) m)).
Proof.
  intros [v Hv] Hn Hp Hq Hap Haq. unfold Delete. go_run. rewrite Hv, Hn.
  set (m1 := with_store (delete k) m).
  destruct (prv_deref m1 n p) as (nn & Hnn & En); [done|].
  rewrite Hnn, En. apply nxt_Some in Hq as (n' & Hn' & Eq').
  rewrite (deref_eq m1 n n') in Hnn by done. injection Hnn as ->.
  rewrite set_next_eq by done. rewrite Eq', set_prev_eq; [done|].
  by apply dom_h_next.
Qed.

Lemma delete_links m (a b : list (loc * (K * V))) n kv p q :
  rep_at m (a ++ (n, kv) :: b) ->
  forall a' (b' : list loc), root m :: a.*1 = a' ++ [p] -> b.*1 ++ [root m] = q :: b' ->
  prv (heap m) n = Some p /\ nxt (heap m) n = Some q /\
  links (h_prev q (Some p) (h_next p (Some q) (heap m))) (root m :: a.*1 ++ b.*1 ++ [root m]).
Proof.
  intros Hrep a' b' Ea Eb. pose proof (rep_links _ _ Hrep) as HL.
  pose proof (rep_nodup _ _ Hrep) as Hnd.
  assert (p ∈ root m :: a.*1) as Hpa by (rewrite Ea; set_solver).
  assert (q ∈ b.*1 ++ [root m]) as Hqb by (rewrite Eb; set_solver).
  assert (is_Some (heap m !! p)) as Hap.
  { apply (rep_alloc _ _ _ Hrep). rewrite fmap_app. set_solver. }
  assert (is_Some (heap m !! q)) as Haq.
  { apply (rep_alloc _ _ _ Hrep). rewrite fmap_app. set_solver. }
  rewrite fmap_app, fmap_cons in HL, Hnd. simpl in HL, Hnd.
  rewrite <- app_assoc, app_comm_cons, Ea, <- app_assoc in HL. simpl in HL.
  rewrite Eb in HL. apply links_app in HL as [HLa HLn].
  apply (links_app _ [p] n (q :: b')) in HLn as [HLpn HLnb].
  destruct HLpn as (_ & Hpn & _). destruct HLnb as (Hnq & _ & HLb).
  apply NoDup_cons in Hnd as [Hr Hnd]. apply NoDup_app in Hnd as (Hnda & Hdis & Hndb).
  apply NoDup_cons in Hndb as [Hnb Hndb].
  split_and!; [done..|].
  rewrite app_comm_cons, Ea, Eb, <- app_assoc. simpl.
  apply links_app. rewrite links_cons2. split_and!.
  - apply (links_frame (heap m)); [| |done]; intros x Hx.
    + rewrite nxt_h_prev, nxt_h_next_ne; [done|]. intros ->.
      assert (NoDup (root m :: a.*1)) as Hra by (apply NoDup_cons; set_solver).
      rewrite Ea in Hra. apply NoDup_app in Hra as (_ & Hra & _). set_solver.
    + rewrite <- Ea in Hx. simpl in Hx.
      rewrite prv_h_prev_ne, prv_h_next; [done|]. intros ->. set_solver.
  - rewrite nxt_h_prev. by apply nxt_h_next_eq.
  - apply prv_h_prev_eq. by apply dom_h_next.
  - rewrite <- Eb. apply (links_frame (heap m)).
    + intros x Hx. rewrite nxt_h_prev, nxt_h_next_ne; [done|]. intros ->. set_solver.
    + intros x Hx. rewrite prv_h_prev_ne, prv_h_next; [done|]. intros ->.
      assert (NoDup (b.*1 ++ [root m])) as Hbr.
      { apply NoDup_app. split_and!; [done|set_solver|apply NoDup_singleton]. }
      rewrite Eb in Hx, Hbr. apply NoDup_cons in Hbr as [? _]. done.
    + by rewrite Eb.
Qed.

Lemma filter_key k l1 p v l2 :
  NoDup (l1 ++ (p, (k, v)) :: l2).*2.*1 ->
  filter (fun kv : K * V => kv.1 ≠ k) (l1 ++ (p, (k, v)) :: l2).*2 = (l1 ++ l2).*2.
Proof.
  rewrite !fmap_app, !fmap_cons. simpl. intros Hnd.
  apply NoDup_app in Hnd as (_ & Hd1 & Hnd). apply NoDup_cons in Hnd as [Hd2 _].
  rewrite filter_app, filter_cons_False by (simpl; tauto).
  rewrite !list_filter_all; [done|..]; apply Forall_forall;
    intros [k' v'] Hin%(list_elem_of_fmap_2 fst) [= ->]; simpl in *; set_solver.
Qed.

Lemma delete_rep m (a b : list (loc * (K * V))) n k v p q a' (b' : list loc) :
  rep_at m (a ++ (n, (k, v)) :: b) ->
  root m :: a.*1 = a' ++ [p] -> b.*1 ++ [root m] = q :: b' ->
  rep_at (with_heap (fun h => h_prev q (Some p) (h_next p (Some q) h))
            (with_store (delete k) m)) (a ++ b).
Proof.
  intros Hrep Ea Eb.
  destruct (delete_links m a b n (k, v) p q Hrep a' b' Ea Eb) as (_ & _ & HL).
  pose proof (rep_nodup _ _ Hrep) as Hnd. pose proof (rep_keys _ _ Hrep) as Hnk.
  assert (forall x, x ∈ a ++ b -> x ∈ a ++ (n, (k, v)) :: b) as Hsub by set_solver.
  assert (forall p' k' v', (p', (k', v')) ∈ a ++ b -> k' ≠ k) as Hne.
  { intros p' k' v' Hin ->. rewrite !fmap_app, !fmap_cons in Hnk. simpl in Hnk.
    apply NoDup_app in Hnk as (_ & Hd1 & Hnd'). apply NoDup_cons in Hnd' as [Hd2 _].
    apply elem_of_app in Hin as [Hin|Hin]; apply rep_in_key in Hin; set_solver. }
  split; simpl.
  - by rewrite fmap_app, <- app_assoc.
  - rewrite fmap_app, fmap_cons in Hnd. rewrite fmap_app. simpl in Hnd.
    apply NoDup_cons in Hnd as [Hr Hnd]. apply NoDup_cons. split; [set_solver|].
    apply NoDup_app in Hnd as (? & ? & Hnd). apply NoDup_cons in Hnd as [? ?].
    apply NoDup_app. set_solver.
  - rewrite !fmap_app, !fmap_cons in Hnk. rewrite !fmap_app. simpl in Hnk.
    apply NoDup_app in Hnk as (? & ? & Hnk). apply NoDup_cons in Hnk as [? ?].
    apply NoDup_app. set_solver.
  - intros p' k' v' Hin. rewrite val_h_prev, val_h_next. eapply rep_val; eauto.
  - intros p' k' v' Hin. eapply rep_mapper; eauto.
  - intros p' k' v' Hin. rewrite lookup_delete_ne by (by apply not_eq_sym, (Hne p' k' v')).
    eapply rep_store; eauto.
  - intros k' v' [Hk' Hv']%lookup_delete_Some.
    apply (rep_dom _ _ Hrep) in Hv' as [p' Hp']. exists p'. set_solver.
  - intros p' n' Hn'. assert (is_Some (heap m !! p')) as [n0 Hn0]
      by (eapply dom_h_next, dom_h_prev; by rewrite Hn').
    by apply (rep_brk _ _ Hrep) in Hn0.
Qed.

Lemma Delete_rep k v m al :
  rep m al -> a_get k al = Some v ->
  exists m', Delete k m = (Ret tt, m') /\ rep m' (a_delete k al).
Proof.
  intros (l & Hrep & <-) Hk.
  assert (exists n, (n, (k, v)) ∈ l) as [n Hn].
  { unfold a_get in Hk. apply elem_of_list_to_map_2, list_elem_of_fmap in Hk as ((n & kv) & E & Hin).
    exists n. simpl in E. by subst kv. }
  pose proof (rep_store _ _ Hrep _ _ _ Hn) as Hst.
  pose proof (rep_mapper _ _ Hrep _ _ _ Hn) as Hmp.
  apply list_elem_of_split in Hn as (a & b & ->).
  destruct (exists_last (l := root m :: a.*1)) as (a' & p & Ea); [done|].
  destruct (b.*1 ++ [root m]) as [|q b'] eqn:Eb; [by destruct (b.*1)|].
  destruct (delete_links m a b n (k, v) p q Hrep a' b' Ea Eb) as (Hp & Hq & _).
  eexists. split.
  - apply (Delete_eq k m n p q); [by rewrite Hst|done..| |].
    + apply (rep_alloc _ _ _ Hrep). rewrite fmap_app.
      assert (p ∈ root m :: a.*1) by (rewrite Ea; set_solver). set_solver.
    + apply (rep_alloc _ _ _ Hrep). rewrite fmap_app.
      assert (q ∈ b.*1 ++ [root m]) by (rewrite Eb; set_solver). set_solver.
  - exists (a ++ b). split; [by apply (delete_rep m a b n k v p q a' b')|].
    symmetry. apply filter_key, Hrep.
Qed.

Lemma Delete_absent k m : store m !! k = None -> mapper m !! k = None ->
  Delete k m = (Ret tt, m).
Proof. intros Hs Hm. unfold Delete. go_run. by rewrite Hs, Hm. Qed.

(** *** Reading *)

Lemma Get_rep k m al : rep m al -> Get k m = a_get k al.
Proof.
  intros (l & Hrep & <-). unfold Get, a_get. symmetry. apply option_eq. intros v.
  rewrite <- elem_of_list_to_map by apply Hrep. split.
  - intros ((p & kv) & E & Hin)%list_elem_of_fmap. simpl in E. subst kv.
    by apply (rep_store _ _ Hrep p).
  - intros [p Hp]%(rep_dom _ _ Hrep). apply list_elem_of_fmap. by exists (p, (k, v)).
Qed.

Lemma store_list m l : rep_at m l -> store m = list_to_map l.*2.
Proof.
  intros Hrep. apply map_eq. intros k. symmetry.
  change (a_get k l.*2 = store m !! k). symmetry. apply (Get_rep k m). by exists l.
Qed.

Lemma Len_rep m al : rep m al -> Len m = Z.of_nat (length al).
Proof.
  intros (l & Hrep & <-). unfold Len. rewrite (store_list m l Hrep).
  rewrite map_size_list_to_map by apply Hrep. done.
Qed.

Definition pairs (al : list (K * V)) : list (KVPair K V) := a_pairs al.

Lemma pair_at_rep m l p k v n :
  rep_at m l -> (p, (k, v)) ∈ l -> heap m !! p = Some n ->
  pair_at m n = mkKV (Some k) (Some v).
Proof.
  intros Hrep Hin Hn. pose proof (rep_val _ _ Hrep _ _ _ Hin) as Hv.
  unfold val in Hv. rewrite Hn in Hv. simpl in Hv. unfold pair_at. rewrite Hv. simpl.
  by rewrite (rep_store _ _ Hrep _ _ _ Hin).
Qed.

Lemma iter_next_eq m c n : c ≠ Some (root m) -> deref c m = (Ret n, m) ->
  iter_next c m = (Ret (Some (pair_at m n), Next n), m).
Proof.
  intros Hc Hd. unfold iter_next, mbind, M_bind, get.
  by rewrite decide_False, Hd by done.
Qed.

Lemma drain_forward m l1 l2 fuel :
  rep_at m (l1 ++ l2) -> (length l2 < fuel)%nat ->
  drain iter_next fuel (head (l2.*1 ++ [root m])) m = (Ret (a_pairs l2.*2), m).
Proof.
  revert l1 fuel. induction l2 as [|(p & k & v) l2 IH]; intros l1 fuel Hrep Hf;
    (destruct fuel as [|fuel]; [lia|]); simpl.
  - unfold iter_next. go_run. by rewrite decide_True by done.
  - assert (p ≠ root m) as Hpr.
    { pose proof (rep_nodup _ _ Hrep) as Hnd. apply NoDup_cons in Hnd as [Hnd _].
      intros ->. apply Hnd. rewrite fmap_app, fmap_cons. set_solver. }
    assert (nxt (heap m) p = head (l2.*1 ++ [root m])) as Hnx.
    { pose proof (rep_links _ _ Hrep) as HL. rewrite fmap_app, fmap_cons in HL. simpl in HL.
      rewrite <- app_assoc, app_comm_cons in HL. simpl in HL.
      apply (links_app _ (root m :: l1.*1) p) in HL as [_ HL].
      destruct (l2.*1); exact (proj1 HL). }
    assert (exists q, nxt (heap m) p = Some q) as [q Hq]
      by (rewrite Hnx; destruct (l2.*1); simpl; eauto).
    apply nxt_Some in Hq as (n & Hn & Eq).
    unfold mbind, M_bind.
    rewrite (iter_next_eq m _ n) by first [by apply deref_eq | congruence].
    assert (nxt (heap m) p = Next n) as <- by (unfold nxt; by rewrite Hn).
    rewrite Hnx, (IH (l1 ++ [(p, (k, v))])); [|by rewrite <- app_assoc|simpl in Hf; lia].
    by rewrite (pair_at_rep m _ p k v n Hrep) by set_solver.
Qed.

Lemma iterate_rep m al fuel :
  rep m al -> (length al < fuel)%nat -> iterate fuel m = (Ret (a_pairs al), m).
Proof.
  intros (l & Hrep & <-) Hf. rewrite length_fmap in Hf. unfold iterate, IterFunc.
  pose proof (rep_links _ _ Hrep) as HL.
  assert (nxt (heap m) (root m) = head (l.*1 ++ [root m])) as Hnx
    by (destruct (l.*1); exact (proj1 HL)).
  assert (exists q, nxt (heap m) (root m) = Some q) as [q Hq]
    by (rewrite Hnx; destruct (l.*1); simpl; eauto).
  destruct (nxt_deref m _ _ Hq) as (n & Hn & En). go_run. rewrite Hn.
  rewrite En, <- Hq, Hnx. by apply (drain_forward m [] l).
Qed.

Lemma rev_next_eq m c n : c ≠ Some (root m) -> deref c m = (Ret n, m) ->
  rev_next (Some (root m)) c m = (Ret (Some (pair_at m n), Prev n), m).
Proof.
  intros Hc Hd. unfold rev_next, mbind, M_bind, get.
  by rewrite decide_False, Hd by done.
Qed.

Lemma last_cons_snoc (r : loc) (ls : list loc) (p : loc) :
  last (r :: ls ++ [p]) = Some p.
Proof. rewrite app_comm_cons. apply last_snoc. Qed.

Lemma drain_backward m l1 l2 fuel :
  rep_at m (l1 ++ l2) -> (length l1 < fuel)%nat ->
  drain (rev_next (Some (root m))) fuel (last (root m :: l1.*1)) m
    = (Ret (a_pairs (reverse l1.*2)), m).
Proof.
  revert l2 fuel. induction l1 as [|(p & k & v) l1 IH] using rev_ind;
    intros l2 fuel Hrep Hf; (destruct fuel as [|fuel]; [lia|]); simpl.
  - unfold rev_next. go_run. by rewrite decide_True by done.
  - rewrite !fmap_app. simpl. rewrite last_cons_snoc, reverse_snoc.
    pose proof (rep_links _ _ Hrep) as HL.
    rewrite !fmap_app in HL. simpl in HL. rewrite <- !app_assoc in HL. simpl in HL.
    destruct (exists_last (l := root m :: l1.*1)) as (a' & q & Ea); [done|].
    assert (prv (heap m) p = Some q) as Hpv.
    { rewrite app_comm_cons, Ea, <- app_assoc in HL. simpl in HL.
      apply links_app in HL as [_ (_ & HL & _)]. done. }
    assert (last (root m :: l1.*1) = Some q) as Hlast by (rewrite Ea; apply last_snoc).
    assert (p ≠ root m) as Hpr.
    { pose proof (rep_nodup _ _ Hrep) as Hnd. apply NoDup_cons in Hnd as [Hnd _].
      intros ->. apply Hnd. rewrite !fmap_app. set_solver. }
    destruct (prv_deref _ _ _ Hpv) as (n & Hn & En). unfold mbind, M_bind.
    rewrite (rev_next_eq m _ n) by first [done | congruence].
    rewrite En, <- Hlast, (IH ((p, (k, v)) :: l2));
      [|by rewrite <- app_assoc in Hrep|rewrite length_app in Hf; simpl in Hf; lia].
    unfold deref, mbind, M_bind, get in Hn. simpl in Hn.
    destruct (heap m !! p) as [n'|] eqn:En'; [|done]. injection Hn as ->.
    by rewrite (pair_at_rep m _ p k v n Hrep) by set_solver.
Qed.

Lemma rev_iterate_rep m al fuel :
  rep m al -> (length al < fuel)%nat ->
  rev_iterate fuel m = (Ret (a_pairs (reverse al)), m).
Proof.
  intros (l & Hrep & <-) Hf. rewrite length_fmap in Hf.
  unfold rev_iterate, RevIterFunc, rev_start, mbind, M_bind, get, mret, M_ret.
  destruct (rep_last m l Hrep) as (ps & q & Ea & Hr & _).
  destruct (prv_deref _ _ _ Hr) as (n & Hn & En). rewrite Hn.
  rewrite (bool_decide_true (Some (root m) = Some (root m))) by done.
  rewrite orb_true_r, Hn, En.
  assert (last (root m :: l.*1) = Some q) as <- by (rewrite Ea; apply last_snoc).
  apply (drain_backward m l []); [by rewrite app_nil_r|done].
Qed.
End rep.

(** ** The interface clients program against *)

Class OrdMap (K V T : Type) `{Countable K} : Type := {
  om_new : T;
  om_set : K -> V -> M T unit;
  om_get : K -> T -> option V;
  om_delete : K -> M T unit;
  om_len : T -> Z;
  om_iter : nat -> M T (list (KVPair K V));
  om_rev_iter : nat -> M T (list (KVPair K V));
  om_rep : T -> list (K * V) -> Prop;
  om_new_rep : om_rep om_new [];
  om_set_rep k v t al : om_rep t al ->
    exists t', om_set k v t = (Ret tt, t') /\ om_rep t' (a_set k v al);
  om_delete_rep k v t al : om_rep t al -> a_get k al = Some v ->
    exists t', om_delete k t = (Ret tt, t') /\ om_rep t' (a_delete k al);
  om_get_rep k t al : om_rep t al -> om_get k t = a_get k al;
  om_len_rep t al : om_rep t al -> om_len t = Z.of_nat (length al);
  om_iter_rep t al fuel : om_rep t al -> (length al < fuel)%nat ->
    om_iter fuel t = (Ret (a_pairs al), t);
  om_rev_iter_rep t al fuel : om_rep t al -> (length al < fuel)%nat ->
    om_rev_iter fuel t = (Ret (a_pairs (reverse al)), t)
}.
Arguments om_new {K V T _ _ _}.
Arguments om_rep {K V T _ _ _}.

#[export] Instance OrderedMap_OrdMap {K V} `{Countable K} : OrdMap K V (OrderedMap K V) := {
  om_new := NewOrderedMap;
  om_set := Set_;
  om_get := Get;
  om_delete := Delete;
  om_len := Len;
  om_iter := iterate;
  om_rev_iter := rev_iterate;
  om_rep := rep;
  om_new_rep := rep_empty;
  om_set_rep k v t al := Set_rep k v t al;
  om_delete_rep k v t al := Delete_rep k v t al;
  om_get_rep k t al := Get_rep k t al;
  om_len_rep t al := Len_rep t al;
  om_iter_rep t al fuel := iterate_rep t al fuel;
  om_rev_iter_rep t al fuel := rev_iterate_rep t al fuel
}.

(** ** Whole histories

    A history of [Set]s and [Delete]s, run on the Go structure and on the
    association list.  [safe]: every [Delete] names a key that is present. *)

Section history.
Context {K V : Type} `{Countable K}.

Inductive op : Type := OSet (k : K) (v : V) | ODelete (k : K).

Definition run_op (o : op) : M (OrderedMap K V) unit :=
  match o with OSet k v => Set_ k v | ODelete k => Delete k end.

Fixpoint run_ops (os : list op) : M (OrderedMap K V) unit :=
  match os with [] => mret tt | o :: os' => _ ← run_op o; run_ops os' end.

Definition a_op (o : op) (al : list (K * V)) : list (K * V) :=
  match o with OSet k v => a_set k v al | ODelete k => a_delete k al end.

Fixpoint a_ops (os : list op) (al : list (K * V)) : list (K * V) :=
  match os with [] => al | o :: os' => a_ops os' (a_op o al) end.

Fixpoint safe (os : list op) (al : list (K * V)) : bool :=
  match os with
  | [] => true
  | o :: os' =>
      match o with OSet _ _ => true | ODelete k => bool_decide (is_Some (a_get k al)) end
      && safe os' (a_op o al)
  end.

Lemma run_ops_rep os m al : rep m al -> safe os al = true ->
  exists m', run_ops os m = (Ret tt, m') /\ rep m' (a_ops os al).
Proof.
  revert m al. induction os as [|o os IH]; intros m al Hrep Hsafe; [by exists m|].
  simpl in Hsafe. apply andb_true_iff in Hsafe as [Ho Hsafe].
  assert (exists m1, run_op o m = (Ret tt, m1) /\ rep m1 (a_op o al)) as (m1 & E1 & R1).
  { destruct o as [k v|k]; [by apply Set_rep|].
    apply bool_decide_eq_true in Ho as [v Hv]. by apply (Delete_rep k v). }
  destruct (IH m1 _ R1 Hsafe) as (m2 & E2 & R2). exists m2.
  split; [|done]. simpl. unfold mbind, M_bind. by rewrite E1.
Qed.

(** C5 Any history of Set and Delete calls that deletes only present keys never
    panics, and afterwards Get, Len, IterFunc and RevIterFunc answer exactly
    like the association list the history describes. *)
Theorem history_refines (os : list op) :
  safe os [] = true ->
  exists m, run_ops os NewOrderedMap = (Ret tt, m) /\
    (forall k, Get k m = a_get k (a_ops os [])) /\
    Len m = Z.of_nat (length (a_ops os [])) /\
    (forall fuel, (length (a_ops os []) < fuel)%nat ->
       iterate fuel m = (Ret (a_pairs (a_ops os [])), m) /\
       rev_iterate fuel m = (Ret (a_pairs (reverse (a_ops os []))), m)).
Proof.
  intros Hsafe. destruct (run_ops_rep os NewOrderedMap [] rep_empty Hsafe) as (m & E & R).
  exists m. split_and!; [done|..].
  - intros k. by apply Get_rep.
  - by apply Len_rep.
  - intros fuel Hf. split; [by apply iterate_rep|by apply rev_iterate_rep].
Qed.
End history.
Arguments op : clear implicits.

Definition example_history : list (op nat nat) :=
  [OSet 1%nat 10%nat; OSet 2%nat 20%nat; OSet 3%nat 30%nat; ODelete 2%nat;
   OSet 1%nat 11%nat; OSet 2%nat 22%nat].

Lemma history_refines_witness :
  safe example_history [] = true /\
  exists m, run_ops example_history NewOrderedMap = (Ret tt, m) /\ Len m = 3.
Proof.
  split; [reflexivity|].
  destruct (history_refines example_history) as (m & E & _ & L & _); [reflexivity|].
  exists m. split; [exact E|exact L].
Defined.

(** ** A second [Delete] of the same key

    [Delete] leaves the key in [mapper], so deleting an absent key unlinks a node
    that is no longer in the list. *)

Definition stale_history : list (op nat nat) :=
  [OSet 1%nat 10%nat; OSet 2%nat 20%nat; ODelete 2%nat; ODelete 1%nat; ODelete 2%nat;
   OSet 3%nat 30%nat].

(** Deleting a key twice corrupts the list: after the history above the map
    holds key 3, Len is 1 and Get finds it, yet IterFunc ends at once. *)
Theorem double_delete_loses_iteration (fuel : nat) :
  let m := exec (run_ops stale_history) NewOrderedMap in
  outcome_of (run_ops stale_history) NewOrderedMap = Ret tt /\
  safe stale_history [] = false /\
  Get 3%nat m = Some 30%nat /\ Len m = 1 /\ iterate (S fuel) m = (Ret [], m).
Proof. split_and!; reflexivity. Qed.

End OrderedMap.
