(* ===== verification/UnsafeIter.v ===== *)
(** * Iterating over a channel ([utls/orderedmap]: UnsafeIter, Iter)

    A goroutine walks the list and sends each pair; the reader takes as many as it
    likes. *)

From S2P Require Import Prelude OrderedMap.

Module UnsafeIter.
Import OrderedMap.

Section iter.
Context {K V : Type} `{EqDecision K, Countable K}.
Abbreviation OrderedMap := (OrderedMap K V).

(** The pair that is sent next; at the root the channel is closed. *)
Definition sends (curr : option loc) : M OrderedMap (option (KVPair K V)) :=
  m ← get;
  if decide (curr = Some (root m)) then mret None
  else n ← deref curr; mret (Some (pair_at m n)).

(** After the send the goroutine goes on from the node it stands at. *)
Definition goes_on (curr : option loc) : M OrderedMap (option loc) := n ← deref curr; mret (Next n).

(** What a reader gets that takes up to [n] pairs, and whether it saw the channel
    closed. *)
Fixpoint received (n : nat) (curr : option loc) : M OrderedMap (list (KVPair K V) * bool) :=
  match n with
  | O => mret ([], false)
  | S n =>
      kv ← sends curr;
      match kv with
      | None => mret ([], true)
      | Some kv => curr ← goes_on curr; r ← received n curr; mret (kv :: r.1, r.2)
      end
  end.

(* [utls/orderedmap/orderedmap.go:100-114] OrderedMap.UnsafeIter *)
Definition UnsafeIter (n : nat) : M OrderedMap (list (KVPair K V) * bool) :=
  m ← get; root ← deref (Some (root m)); received n (Next root).

(* [utls/orderedmap/orderedmap.go:95-98] OrderedMap.Iter *)
Definition Iter (n : nat) : M OrderedMap (list (KVPair K V) * bool) := UnsafeIter n.

Lemma received_drain n : forall fuel curr l (m m' : OrderedMap), drain iter_next fuel curr m = (Ret l, m') ->
  received n curr m = (Ret (take n l, bool_decide (length l < n)%nat), m).
Proof.
  induction n as [|n IH]; intros fuel curr l m m' Hd; [by rewrite bool_decide_false by lia|].
  destruct fuel as [|fuel]; [done|]. cbn [drain received] in *. unfold iter_next, sends, goes_on in *.
  unfold mbind, M_bind, get, mret, M_ret in *.
  destruct (decide (curr = Some (root m))) as [Hc|Hc].
  { cbn in Hd. injection Hd as <- <-. done. }
  destruct (deref curr m) as [[nd|] m1] eqn:Ed; [|done].
  assert (m1 = m) as ->.
  { unfold deref, get, panic, mret, M_ret, mbind, M_bind in Ed. destruct curr as [c|]; [|done]. cbn in Ed.
    destruct (heap m !! c); by injection Ed as <- <- || by injection Ed as _ <-. }
  destruct (drain _ fuel (Next nd) m) as [[l'|] m2] eqn:E; [|done]. injection Hd as <- <-.
  rewrite Ed. rewrite (IH fuel (Next nd) l' m m2 E). cbn. do 3 f_equal. apply bool_decide_ext. lia.
Qed.

(** As long as the map is not changed, a reader gets the pairs of [IterFunc] in their
    order, and sees the end if it takes one more.  A reader that takes fewer leaves
    the goroutine in its send. *)
Lemma UnsafeIter_iterates n fuel l (m m' : OrderedMap) : iterate fuel m = (Ret l, m') ->
  UnsafeIter n m = (Ret (take n l, bool_decide (length l < n)%nat), m).
Proof.
  unfold iterate, UnsafeIter, IterFunc, mbind, M_bind, get, mret, M_ret.
  destruct (deref (Some (root m)) m) as [[nd|] m1] eqn:Ed; [|done].
  assert (m1 = m) as ->.
  { unfold deref, get, panic, mret, M_ret, mbind, M_bind in Ed. cbn in Ed.
    destruct (heap m !! root m); by injection Ed as <- <- || by injection Ed as _ <-. }
  apply received_drain.
Qed.
End iter.

Module Three.

Definition m : OrderedMap string Z := exec (update [("a", 1); ("b", 2); ("c", 3)]%string) NewOrderedMap.

Lemma UnsafeIter_iterates_witness : UnsafeIter 4 m = (Ret ([mkKV (Some "a"%string) (Some 1); mkKV (Some "b"%string) (Some 2); mkKV (Some "c"%string) (Some 3)], true), m).
Proof. exact (UnsafeIter_iterates 4 4 _ m m eq_refl). Defined.

End Three.

End UnsafeIter.
