(* ===== verification/StaleMap.v ===== *)
(** * The ordered map when absent keys are deleted ([utls/orderedmap])

    [Delete] of a key that is not in the map unlinks the node the key once had, so
    that the representation of [OrderedMap] is lost.  What survives any history of
    calls is weaker: no pointer dangles, every [Prev] pointer leads to an older
    node, and the walk along them from the sentinel reaches every key added since
    the map was last empty.  [RevIterFunc] takes that walk. *)

From Stdlib Require Import Sorting.Sorted.
From S2P Require Import Prelude OrderedMap.
Import OrderedMap.

Module StaleMap.

Section weak.
Context {K V : Type} `{Countable K}.
Implicit Types (m : OrderedMap K V) (p q : loc).

Record weak m : Prop := {
  w_root : is_Some (heap m !! root m);
  w_min : forall p, is_Some (heap m !! p) -> p ≠ root m -> (root m < p)%positive;
  w_rootprev : exists q, prv (heap m) (root m) = Some q /\ is_Some (heap m !! q);
  w_prev : forall p, is_Some (heap m !! p) -> p ≠ root m ->
    exists q, prv (heap m) p = Some q /\ is_Some (heap m !! q) /\ (q < p)%positive;
  w_next : forall p, is_Some (heap m !! p) -> p ≠ root m ->
    exists q, nxt (heap m) p = Some q /\ is_Some (heap m !! q) /\ (q = root m \/ (p < q)%positive);
  w_val : forall p, is_Some (heap m !! p) -> p ≠ root m ->
    exists k p', val (heap m) p = Some k /\ mapper m !! k = Some p' /\ (p <= p')%positive;
  w_mapper : forall k p, mapper m !! k = Some p -> val (heap m) p = Some k /\ p ≠ root m;
  w_store : forall k, is_Some (store m !! k) -> is_Some (mapper m !! k);
  w_brk : forall p, is_Some (heap m !! p) -> (p < brk m)%positive
}.

(** The nodes on the walk along [Prev] from [p] to the sentinel. *)
Inductive chain m : loc -> list loc -> Prop :=
| chain_root : chain m (root m) []
| chain_step p q l : p ≠ root m -> prv (heap m) p = Some q -> chain m q l -> chain m p (p :: l).

(** The walk from the sentinel passes the node of every key in the map. *)
Definition live m : Prop := exists q l, prv (heap m) (root m) = Some q /\ chain m q l /\
  forall k p, is_Some (store m !! k) -> mapper m !! k = Some p -> p ∈ l.

Lemma val_in m p k : val (heap m) p = Some k -> is_Some (heap m !! p).
Proof. intros (n & -> & _)%val_Some. done. Qed.

Lemma prv_in m p q : prv (heap m) p = Some q -> is_Some (heap m !! p).
Proof. intros (n & -> & _)%prv_Some. done. Qed.

(** Walks exist, go down and are shorter than their start's address. *)
Lemma chain_exists m p : weak m -> is_Some (heap m !! p) -> exists l, chain m p l /\
  Forall (fun x => is_Some (heap m !! x) /\ x ≠ root m /\ (x <= p)%positive) l /\
  StronglySorted (fun a b => (b < a)%positive) l /\ (length l <= Pos.to_nat p)%nat.
Proof.
  intros Hw. induction p as [p IH] using (well_founded_induction (well_founded_ltof _ Pos.to_nat)). intros Hp.
  destruct (decide (p = root m)) as [->|Hne].
  { exists []. split_and!; [constructor..|simpl; lia]. }
  destruct (w_prev m Hw p Hp Hne) as (q & Hq & Hqi & Hlt).
  destruct (IH q ltac:(unfold ltof; lia) Hqi) as (l & Hc & Hf & Hs & Hl). exists (p :: l).
  assert (Forall (fun x => (x < p)%positive) l) as Hlow
    by (eapply Forall_impl; [exact Hf|]; intros x (_ & _ & ?); simpl; lia).
  split_and!; [by econstructor| |by constructor|simpl; lia].
  constructor; [split_and!; [done|done|lia]|].
  eapply Forall_impl; [exact Hf|]. intros x (? & ? & ?). split_and!; [done|done|lia].
Qed.

Lemma chain_det m p l l' : chain m p l -> chain m p l' -> l = l'.
Proof.
  intros Hc. revert l'. induction Hc as [|p q l Hne Hq Hc IH]; intros l' Hc'; inversion Hc'; simplify_eq; try done.
  f_equal. auto.
Qed.

(** What [RevIterFunc] answers at a node. *)
Definition kv_at m p : KVPair K V := mkKV (val (heap m) p) (val (heap m) p ≫= (fun k => store m !! k)).

Lemma pair_at_kv m p n : heap m !! p = Some n -> pair_at m n = kv_at m p.
Proof. intros Hn. unfold kv_at, val. by rewrite Hn. Qed.

Lemma drain_chain m p l fuel : chain m p l -> (length l < fuel)%nat ->
  drain (rev_next (Some (root m))) fuel (Some p) m = (Ret (map (kv_at m) l), m).
Proof.
  intros Hc. revert fuel. induction Hc as [|p q l Hne Hq Hc IH]; intros [|fuel] Hf; try (simpl in Hf; lia).
  - simpl. unfold rev_next. go_run. by rewrite decide_True by done.
  - simpl. apply prv_Some in Hq as (n & Hn & Eq). unfold mbind, M_bind.
    rewrite (rev_next_eq m _ n) by first [by apply deref_eq | congruence].
    rewrite Eq, IH by (simpl in Hf; lia). by rewrite (pair_at_kv m p n).
Qed.

Lemma rev_iterate_chain m q l fuel : prv (heap m) (root m) = Some q -> chain m q l ->
  (length l < fuel)%nat -> rev_iterate fuel m = (Ret (map (kv_at m) l), m).
Proof.
  intros Hq Hc Hf. unfold rev_iterate, RevIterFunc, rev_start, mbind, M_bind, get, mret, M_ret.
  destruct (prv_deref _ _ _ Hq) as (n & Hn & En). rewrite Hn.
  rewrite (bool_decide_true (Some (root m) = Some (root m))) by done.
  rewrite orb_true_r, Hn, En. by apply drain_chain.
Qed.

Lemma weak_empty : weak (NewOrderedMap : OrderedMap K V).
Proof.
  assert (forall p, is_Some (heap (NewOrderedMap : OrderedMap K V) !! p) -> p = 1%positive) as Hd.
  { intros p. simpl. intros [n Hn]. by apply lookup_singleton_Some in Hn as [<- _]. }
  split; simpl.
  - by eexists.
  - by intros p ->%Hd.
  - exists 1%positive. split; [done|by eexists].
  - by intros p ->%Hd.
  - by intros p ->%Hd.
  - by intros p ->%Hd.
  - intros k p Hp. by rewrite lookup_empty in Hp.
  - intros k [v Hv]. by rewrite lookup_empty in Hv.
  - by intros p ->%Hd.
Qed.

Lemma live_empty : live (NewOrderedMap : OrderedMap K V).
Proof.
  exists 1%positive, []. split_and!; [done|constructor|]. intros k p [v Hv].
  simpl in Hv. by rewrite lookup_empty in Hv.
Qed.
(** *** Updates of the heap *)

Lemma weak_heap_delete m n p q : weak m -> n ≠ root m ->
  prv (heap m) n = Some p -> nxt (heap m) n = Some q ->
  weak (with_heap (fun h => h_prev q (Some p) (h_next p (Some q) h)) m).
Proof.
  intros Hw Hn Hp Hq. pose proof (prv_in m n p Hp) as Hni.
  destruct (w_prev m Hw n Hni Hn) as (p' & Hp' & Hpi & Hpn). simplify_eq.
  destruct (w_next m Hw n Hni Hn) as (q' & Hq' & Hqi & Hnq). simplify_eq.
  assert (forall x, is_Some (h_prev q (Some p) (h_next p (Some q) (heap m)) !! x) <->
    is_Some (heap m !! x)) as Hd by (intros x; by rewrite dom_h_prev, dom_h_next).
  split; simpl.
  - by apply Hd, Hw.
  - intros x Hx. by apply Hw, Hd.
  - destruct (decide (q = root m)) as [->|Hne].
    + exists p. split; [apply prv_h_prev_eq; by apply dom_h_next|by apply Hd].
    + destruct (w_rootprev m Hw) as (r & Hr & Hri). exists r.
      rewrite prv_h_prev_ne, prv_h_next by done. split; [done|by apply Hd].
  - intros x Hx%Hd Hxr. destruct (decide (x = q)) as [->|Hne].
    + exists p. split_and!; [apply prv_h_prev_eq; by apply dom_h_next|by apply Hd|].
      destruct Hnq as [->|?]; [done|lia].
    + destruct (w_prev m Hw x Hx Hxr) as (y & Hy & Hyi & Hlt). exists y.
      rewrite prv_h_prev_ne, prv_h_next by done. split_and!; [done|by apply Hd|done].
  - intros x Hx%Hd Hxr. rewrite nxt_h_prev. destruct (decide (x = p)) as [->|Hne].
    + exists q. rewrite nxt_h_next_eq by done. split_and!; [done|by apply Hd|].
      destruct Hnq; [by left|right; lia].
    + destruct (w_next m Hw x Hx Hxr) as (y & Hy & Hyi & Hlt). exists y.
      rewrite nxt_h_next_ne by done. split_and!; [done|by apply Hd|done].
  - intros x Hx%Hd Hxr. rewrite val_h_prev, val_h_next. by apply Hw.
  - intros k x Hx. rewrite val_h_prev, val_h_next. by apply Hw.
  - apply Hw.
  - intros x Hx%Hd. by apply Hw.
Qed.

Lemma weak_store_sub m st : weak m -> (forall k, is_Some (st !! k) -> is_Some (mapper m !! k)) ->
  weak (with_store (fun _ => st) m).
Proof. intros Hw Hs. split; simpl; try apply Hw. exact Hs. Qed.

(** [Delete] of any key, present or not, returns. *)
Lemma Delete_weak k m : weak m -> exists m', Delete k m = (Ret tt, m') /\ weak m' /\
  store m' = delete k (store m) /\ mapper m' = mapper m /\ brk m' = brk m.
Proof.
  intros Hw. set (m1 := with_store (fun _ => delete k (store m)) m).
  assert (weak m1) as Hw1.
  { apply weak_store_sub; [done|]. intros k' [v [_ Hv]%lookup_delete_Some]. apply Hw. by eexists. }
  assert (forall A (rest : M (OrderedMap K V) A),
    (_ ← (match store m !! k with Some _ => modify (with_store (delete k)) | None => mret tt end); rest) m
    = rest m1) as Hfirst.
  { intros A rest. unfold mbind, M_bind, modify, mret, M_ret. destruct (store m !! k) eqn:E; [done|].
    unfold m1, with_store. rewrite delete_id by done. by destruct m. }
  unfold Delete. unfold mbind at 1, M_bind at 1, get. rewrite Hfirst.
  destruct (mapper m !! k) as [n|] eqn:Hn.
  - destruct (w_mapper m Hw k n Hn) as (Hv & Hnr). pose proof (val_in _ _ _ Hv) as Hni.
    destruct (w_prev m1 Hw1 n Hni Hnr) as (p & Hp & Hpi & _).
    destruct (w_next m1 Hw1 n Hni Hnr) as (q & Hq & Hqi & _).
    eexists. split.
    + destruct (prv_deref m1 n p Hp) as (nn & Hnn & En).
      pose proof Hq as (n' & Hn' & Eq')%nxt_Some.
      rewrite (deref_eq m1 n n') in Hnn by done. injection Hnn as ->.
      go_run. rewrite (deref_eq m1 n nn) by done. rewrite En, set_next_eq by done.
      rewrite Eq', set_prev_eq; [reflexivity|]. by apply dom_h_next.
    + split; [|done]. by apply (weak_heap_delete m1 n p q).
  - exists m1. by split_and!.
Qed.
Lemma weak_fresh m : weak m -> heap m !! brk m = None.
Proof.
  intros Hw. destruct (heap m !! brk m) eqn:E; [|done].
  pose proof (w_brk m Hw (brk m)) as Hlt. rewrite E in Hlt. specialize (Hlt ltac:(done)). lia.
Qed.

Section new_key.
Context (k : K) (v : V) (q : loc) (m : OrderedMap K V).
Hypothesis (Hw : weak m) (Hk : store m !! k = None) (Hq : prv (heap m) (root m) = Some q).
Let m' := set_new_state k v q m.

Lemma new_last : is_Some (heap m !! q).
Proof. destruct (w_rootprev m Hw) as (q' & Hq' & ?). congruence. Qed.

Lemma new_dom x : is_Some (heap m' !! x) <-> x = brk m \/ is_Some (heap m !! x).
Proof.
  unfold m', set_new_state. simpl. rewrite dom_h_prev, dom_h_next, lookup_insert_is_Some'.
  split; intros [->|]; auto.
Qed.

Lemma new_root_ne : root m ≠ brk m.
Proof. intros E. pose proof (w_brk m Hw _ (w_root m Hw)). lia. Qed.

Lemma new_q_ne : q ≠ brk m.
Proof. intros E. pose proof (w_brk m Hw _ new_last). lia. Qed.

Lemma new_prv x : x ≠ root m -> x ≠ brk m -> prv (heap m') x = prv (heap m) x.
Proof. intros Hr Hb. unfold m', set_new_state. simpl. by rewrite prv_h_prev_ne, prv_h_next, prv_alloc. Qed.

Lemma new_prv_root : prv (heap m') (root m) = Some (brk m).
Proof.
  unfold m', set_new_state. simpl. apply prv_h_prev_eq. apply dom_h_next.
  rewrite lookup_insert_ne by (apply not_eq_sym, new_root_ne). apply Hw.
Qed.

Lemma new_prv_brk : prv (heap m') (brk m) = Some q.
Proof.
  unfold m', set_new_state. simpl. rewrite prv_h_prev_ne by (apply not_eq_sym, new_root_ne).
  rewrite prv_h_next. unfold prv. by rewrite lookup_insert_eq.
Qed.

Lemma new_nxt x : x ≠ q -> x ≠ brk m -> nxt (heap m') x = nxt (heap m) x.
Proof. intros Hr Hb. unfold m', set_new_state. simpl. by rewrite nxt_h_prev, nxt_h_next_ne, nxt_alloc. Qed.

Lemma new_nxt_q : nxt (heap m') q = Some (brk m).
Proof.
  unfold m', set_new_state. simpl. rewrite nxt_h_prev. apply nxt_h_next_eq.
  rewrite lookup_insert_ne by (apply not_eq_sym, new_q_ne). apply new_last.
Qed.

Lemma new_nxt_brk : nxt (heap m') (brk m) = Some (root m).
Proof.
  unfold m', set_new_state. simpl. rewrite nxt_h_prev, nxt_h_next_ne by (apply not_eq_sym, new_q_ne).
  unfold nxt. by rewrite lookup_insert_eq.
Qed.

Lemma new_val x : x ≠ brk m -> val (heap m') x = val (heap m) x.
Proof. intros Hb. unfold m', set_new_state. simpl. by rewrite val_h_prev, val_h_next, val_alloc. Qed.

Lemma new_val_brk : val (heap m') (brk m) = Some k.
Proof.
  unfold m', set_new_state. simpl. rewrite val_h_prev, val_h_next. unfold val. by rewrite lookup_insert_eq.
Qed.

Lemma new_weak : weak m'.
Proof.
  pose proof new_root_ne as Hrb. pose proof new_q_ne as Hqb.
  assert (forall x, is_Some (heap m !! x) -> x ≠ brk m) as Hne
    by (intros x Hx ->; pose proof (w_brk m Hw _ Hx); lia).
  split.
  - apply new_dom. right. apply Hw.
  - intros x [->|Hx]%new_dom Hxr; [apply (w_brk m Hw), Hw|by apply Hw].
  - exists (brk m). split; [apply new_prv_root|apply new_dom; by left].
  - intros x [->|Hx]%new_dom Hxr.
    + exists q. rewrite new_prv_brk. split_and!; [done|apply new_dom; right; apply new_last|].
      apply (w_brk m Hw), new_last.
    + destruct (w_prev m Hw x Hx Hxr) as (y & Hy & Hyi & Hlt). exists y.
      rewrite new_prv by auto. split_and!; [done|apply new_dom; by right|done].
  - intros x [->|Hx]%new_dom Hxr.
    + exists (root m). rewrite new_nxt_brk. split_and!; [done|apply new_dom; right; apply Hw|by left].
    + destruct (decide (x = q)) as [->|Hxq].
      * exists (brk m). rewrite new_nxt_q. split_and!; [done|apply new_dom; by left|].
        right. by apply (w_brk m Hw).
      * destruct (w_next m Hw x Hx Hxr) as (y & Hy & Hyi & Hlt). exists y.
        rewrite new_nxt by auto. split_and!; [done|apply new_dom; by right|done].
  - intros x [->|Hx]%new_dom Hxr.
    + exists k, (brk m). rewrite new_val_brk. simpl. rewrite lookup_insert_eq. split_and!; [done..|lia].
    + destruct (w_val m Hw x Hx Hxr) as (k' & p' & Hv & Hm & Hle).
      rewrite new_val by auto. simpl. destruct (decide (k' = k)) as [->|Hkk].
      * exists k, (brk m). rewrite lookup_insert_eq. split_and!; [done..|].
        pose proof (w_brk m Hw x Hx). lia.
      * exists k', p'. by rewrite lookup_insert_ne.
  - intros k' x. simpl. intros [[<- <-]|[Hkk Hx]]%lookup_insert_Some.
    + split; [apply new_val_brk|]. apply not_eq_sym, new_root_ne.
    + destruct (w_mapper m Hw k' x Hx) as (Hv & Hxr). rewrite new_val; [by split|].
      by apply Hne, (val_in _ _ k').
  - intros k'. simpl. rewrite !lookup_insert_is_Some'. intros [?|?]; [by left|right]. by apply Hw.
  - intros x [->|Hx]%new_dom; simpl; [lia|]. pose proof (w_brk m Hw x Hx). lia.
Qed.

Lemma new_chain p l : chain m p l -> is_Some (heap m !! p) -> chain m' p l.
Proof.
  induction 1 as [|p q' l Hne Hq' Hc IH]; intros Hp.
  - change (root m) with (root m'). constructor.
  - assert (p ≠ brk m) by (intros ->; pose proof (w_brk m Hw _ Hp); lia).
    apply (chain_step m' p q' l); [done|by rewrite new_prv|].
    apply IH. destruct (w_prev m Hw p Hp Hne) as (y & Hy & Hyi & _). by simplify_eq.
Qed.

Lemma new_live : live m -> live m'.
Proof.
  intros (q' & l & Hq' & Hc & Hl). simplify_eq.
  exists (brk m), (brk m :: l). split_and!; [apply new_prv_root| |].
  - apply (chain_step m' (brk m) q); [apply not_eq_sym, new_root_ne|apply new_prv_brk|].
    apply new_chain; [done|apply new_last].
  - intros k' p. simpl. intros Hs [[<- <-]|[Hkk Hx]]%lookup_insert_Some; [by left|]. right.
    apply (Hl k'); [|done]. by rewrite lookup_insert_ne in Hs.
Qed.
End new_key.

(** [Set] returns; a new key gets the newest node. *)
Lemma Set_weak k v m : weak m -> live m -> exists m', Set_ k v m = (Ret tt, m') /\ weak m' /\ live m' /\
  store m' = <[k := v]> (store m) /\ (brk m <= brk m')%positive /\
  mapper m' = (if decide (is_Some (store m !! k)) then mapper m else <[k := brk m]> (mapper m)).
Proof.
  intros Hw Hl. destruct (store m !! k) as [v0|] eqn:Hk.
  - exists (with_store (fun _ => <[k := v]> (store m)) m). split_and!; try done.
    + unfold Set_. go_run. by rewrite Hk.
    + apply weak_store_sub; [done|]. intros k' [<-|Hk']%lookup_insert_is_Some'; [|by apply Hw].
      apply Hw. by rewrite Hk.
    + destruct Hl as (q & l & Hq & Hc & Hl). exists q, l. split_and!; [done| |].
      * clear -Hc. induction Hc as [|p q l Hne Hq Hc IH]; [exact (chain_root (with_store _ m))|].
        by apply (chain_step (with_store _ m) p q).
      * intros k' p. simpl. intros [<-|Hs]%lookup_insert_is_Some'; intros Hm; [|by apply (Hl k')].
        apply (Hl k); [by rewrite Hk|done].
  - destruct (w_rootprev m Hw) as (q & Hq & Hqi). exists (set_new_state k v q m). split_and!.
    + apply Set_new_eq; [done..|by apply weak_fresh].
    + by apply new_weak.
    + by apply new_live.
    + done.
    + simpl. lia.
    + rewrite decide_False by (by intros []). done.
Qed.

(** An empty map is live whatever its list looks like. *)
Lemma live_cleared m : weak m -> store m = ∅ -> live m.
Proof.
  intros Hw Hs. destruct (w_rootprev m Hw) as (q & Hq & Hqi).
  destruct (chain_exists m q Hw Hqi) as (l & Hc & _). exists q, l. split_and!; [done..|].
  intros k p. rewrite Hs, lookup_empty. by intros [].
Qed.

(** The fuel that is always enough to iterate. *)
Definition bound m : nat := S (Pos.to_nat (brk m)).

(** [RevIterFunc] visits nodes from the newest to the oldest, the node of every
    key in the map among them; at a node it answers the key's current value. *)
Lemma rev_iterate_weak m : weak m -> live m -> exists l, rev_iterate (bound m) m = (Ret (map (kv_at m) l), m) /\
  StronglySorted (fun a b => (b < a)%positive) l /\
  (forall p, p ∈ l -> exists k p', val (heap m) p = Some k /\ mapper m !! k = Some p' /\ (p <= p')%positive) /\
  (forall k p, is_Some (store m !! k) -> mapper m !! k = Some p -> p ∈ l).
Proof.
  intros Hw (q & l & Hq & Hc & Hl).
  assert (is_Some (heap m !! q)) as Hqi by (destruct (w_rootprev m Hw) as (q' & Hq' & ?); congruence).
  destruct (chain_exists m q Hw Hqi) as (l' & Hc' & Hf & Hs & Hlen).
  rewrite (chain_det m q l l' Hc Hc') in *. exists l'. split_and!; [|done| |done].
  - apply (rev_iterate_chain m q); [done..|]. unfold bound. pose proof (w_brk m Hw q Hqi). lia.
  - intros p Hp. rewrite Forall_forall in Hf. destruct (Hf p Hp) as (Hpi & Hpr & _). by apply Hw.
Qed.
End weak.
End StaleMap.
