(* ===== verification/Encoding.v ===== *)
(** * Wire formats of the RPC layer ([net/dogrpc/encoding.go])

    Two framings: [RpcPacket] (16-byte header) and [DogPacket] (24-byte header
    with a checksum over the JSON form of the packet).  A Go [[]byte] body is an
    [option (list byte)]: the nil slice and the empty slice hold the same bytes
    but marshal to different JSON. *)

From S2P Require Import Prelude GoStd.
Import GoStd.

Module Encoding.

Definition slice_bytes (b : option (list byte)) : list byte := default [] b.

(** ** Buffered writer and reader

    A [bufio.Writer] keeps the first error of the stream below it and refuses
    writes after it.  A reader is the bytes still to come. *)

Record Writer : Type := mkWriter { w_out : list byte; w_err : option string }.

(** [binary.Write(e.bw, binary.BigEndian, data)] *)
Definition binary_write (data : list byte) : M Writer (option string) := fun w =>
  match w_err w with
  | Some e => (Ret (Some e), w)
  | None => (Ret None, mkWriter (w_out w ++ data) None)
  end.

(** [if err := ...; err != nil { return err }] *)
Definition check {S} (m : M S (option string)) (k : M S (option string)) : M S (option string) :=
  err ← m; match err with Some e => mret (Some e) | None => k end.

Inductive dec_err : Type :=
| ERead (e : read_err)
| EMsg (m : string).

(** [io.ReadFull(d.br, buf)] with [len(buf) = n]; a failing read consumes all. *)
Definition read_bytes (n : nat) : M (list byte) (list byte + dec_err) := fun s =>
  match read_full n s with
  | inl (bs, s') => (Ret (inl bs), s')
  | inr e => (Ret (inr (ERead e)), [])
  end.

Definition read_field : M (list byte) (Z + dec_err) :=
  r ← read_bytes 4; mret (match r with inl bs => inl (be_value bs) | inr e => inr e end).

Definition try_ {S A B} (m : M S (A + dec_err)) (k : A -> M S (B + dec_err)) : M S (B + dec_err) :=
  r ← m; match r with inl a => k a | inr e => mret (inr e) end.

(** ** [RpcPacket] *)

(* [net/dogrpc/encoding.go:58-64] RpcPacket *)
Record RpcPacket : Type := mkRpc {
  r_Seq : Z; r_ErrCode : Z; r_Cmd : Z; r_PacketLen : Z; r_Body : option (list byte)
}.

(* [net/dogrpc/encoding.go:162-168] header constants *)
Definition HeaderLen : Z := 24.
Definition Version : Z := 1.
Definition Padding : Z := 0.
Definition SOH : Z := 16.
Definition EOH : Z := 36.

(* [net/dogrpc/encoding.go:175-185] Header *)
Record Header : Type := mkHeader {
  h_PacketLen : Z; h_Seq : Z; h_Cmd : Z; h_CheckSum : Z; h_ErrCode : Z;
  h_Version : Z; h_Padding : Z; h_SOH : Z; h_EOH : Z
}.

(* [net/dogrpc/encoding.go:170-173] DogPacket *)
Record DogPacket : Type := mkDog { d_Header : Header; d_Body : option (list byte) }.

(** The implementations of the [Packet] interface. *)
(* [net/dogrpc/encoding.go:18-21] Packet *)
Inductive Packet : Type := PRpc (p : RpcPacket) | PDog (p : DogPacket).

(* [net/dogrpc/encoding.go:66-68] RpcPacket.ID *)
Definition RpcPacket_ID (p : RpcPacket) : Z := r_Seq p.
(* [net/dogrpc/encoding.go:195-197] DogPacket.ID *)
Definition DogPacket_ID (p : DogPacket) : Z := h_Seq (d_Header p).
(* [net/dogrpc/encoding.go:70-72] RpcPacket.SetErrCode *)
Definition RpcPacket_SetErrCode (code : Z) (p : RpcPacket) : RpcPacket :=
  mkRpc (r_Seq p) code (r_Cmd p) (r_PacketLen p) (r_Body p).
(* [net/dogrpc/encoding.go:199-201] DogPacket.SetErrCode *)
Definition DogPacket_SetErrCode (code : Z) (p : DogPacket) : DogPacket :=
  let h := d_Header p in
  mkDog (mkHeader (h_PacketLen h) (h_Seq h) (h_Cmd h) (h_CheckSum h) code
           (h_Version h) (h_Padding h) (h_SOH h) (h_EOH h)) (d_Body p).

Definition ID (p : Packet) : Z :=
  match p with PRpc p => RpcPacket_ID p | PDog p => DogPacket_ID p end.
Definition SetErrCode (code : Z) (p : Packet) : Packet :=
  match p with
  | PRpc p => PRpc (RpcPacket_SetErrCode code p)
  | PDog p => PDog (DogPacket_SetErrCode code p)
  end.

(** The sequence counters [globalSeq] and [globalDogSeq]. *)
Record seqs : Type := mkSeqs { globalSeq : Z; globalDogSeq : Z }.

(* [net/dogrpc/encoding.go:50-52] nextSeq *)
Definition nextSeq : M seqs Z := fun g =>
  let n := u32 (globalSeq g + 1) in (Ret n, mkSeqs n (globalDogSeq g)).
(* [net/dogrpc/encoding.go:191-193] nextDogSeq *)
Definition nextDogSeq : M seqs Z := fun g =>
  let n := u32 (globalDogSeq g + 1) in (Ret n, mkSeqs (globalSeq g) n).

Definition defaultPacketLen : Z := 16.

Definition body_len (body : option (list byte)) : Z := len (slice_bytes body).

(* [net/dogrpc/encoding.go:83-91] NewRpcPacketWithRet *)
Definition NewRpcPacketWithRet (cmd : Z) (body : option (list byte)) (seq ret : Z) : RpcPacket :=
  mkRpc seq ret cmd (u32 (body_len body + defaultPacketLen)) body.

(* [net/dogrpc/encoding.go:79-81] NewRpcPacketWithSeq *)
Definition NewRpcPacketWithSeq (cmd : Z) (body : option (list byte)) (seq : Z) : RpcPacket :=
  NewRpcPacketWithRet cmd body seq 0.

(* [net/dogrpc/encoding.go:74-77] NewRpcPacket *)
Definition NewRpcPacket (cmd : Z) (body : option (list byte)) : M seqs RpcPacket :=
  seq ← nextSeq; mret (NewRpcPacketWithSeq cmd body seq).

(* [net/dogrpc/encoding.go:101-122] RpcPacketEncoder.Encode *)
Definition RpcEncode (p : Packet) : M Writer (option string) :=
  match p with
  | PRpc packet =>
      check (binary_write (be32 (r_Seq packet)))
      (check (binary_write (be32 (r_ErrCode packet)))
      (check (binary_write (be32 (r_Cmd packet)))
      (check (binary_write (be32 (r_PacketLen packet)))
      (check (binary_write (slice_bytes (r_Body packet)))
      (mret None)))))
  | _ => mret (Some "RpcPacketEncoder Encode occur error")
  end.

(* [net/dogrpc/encoding.go:124-147] RpcPacketDecoder.Decode *)
Definition RpcDecode : M (list byte) (RpcPacket + dec_err) :=
  try_ read_field (fun seq =>
  try_ read_field (fun errCode =>
  try_ read_field (fun cmd =>
  try_ read_field (fun packetLen =>
  let bodyLength := u32 (packetLen - defaultPacketLen) in
  try_ (read_bytes (Z.to_nat bodyLength)) (fun body =>
  mret (inl (mkRpc seq errCode cmd packetLen (Some body)))))))).

(** ** [DogPacket] *)

Definition dquote : string := String (ascii_of_N 34) EmptyString.
Definition quote (s : string) : string := dquote +:+ s +:+ dquote.

Definition json_uint (name : string) (v : Z) : string := quote name +:+ ":" +:+ itoa v.

(** [json.Marshal] of a byte slice: [null] or a base64 string. *)
Definition json_bytes (b : option (list byte)) : string :=
  match b with
  | None => "null"
  | Some l => quote (String.string_of_list_byte (b64_encode l))
  end.

(** [json.Marshal(packet)]: the embedded header's fields come first. *)
Definition Marshal (p : DogPacket) : list byte :=
  let h := d_Header p in
  String.list_byte_of_string
    ("{" +:+ join ","
       [json_uint "PacketLen" (h_PacketLen h); json_uint "Seq" (h_Seq h);
        json_uint "Cmd" (h_Cmd h); json_uint "CheckSum" (h_CheckSum h);
        json_uint "ErrCode" (h_ErrCode h); json_uint "Version" (h_Version h);
        json_uint "Padding" (h_Padding h); json_uint "SOH" (h_SOH h); json_uint "EOH" (h_EOH h);
        quote "Body" +:+ ":" +:+ json_bytes (d_Body p)] +:+ "}").

Definition set_checksum (c : Z) (p : DogPacket) : DogPacket :=
  let h := d_Header p in
  mkDog (mkHeader (h_PacketLen h) (h_Seq h) (h_Cmd h) c (h_ErrCode h)
           (h_Version h) (h_Padding h) (h_SOH h) (h_EOH h)) (d_Body p).

(* [net/dogrpc/encoding.go:212-233] NewDogPacketWithRet *)
Definition NewDogPacketWithRet (cmd : Z) (body : option (list byte)) (seq ret : Z) : DogPacket :=
  let packet :=
    mkDog (mkHeader (u32 (u32 (body_len body) + HeaderLen)) seq cmd 0 ret
             Version Padding SOH EOH) body in
  let packetByte := Marshal packet in
  let checkSum := ChecksumIEEE packetByte in
  set_checksum checkSum packet.

(* [net/dogrpc/encoding.go:208-210] NewDogPacketWithSeq *)
Definition NewDogPacketWithSeq (cmd : Z) (body : option (list byte)) (seq : Z) : DogPacket :=
  NewDogPacketWithRet cmd body seq 0.

(* [net/dogrpc/encoding.go:203-206] NewDogPacket *)
Definition NewDogPacket (cmd : Z) (body : option (list byte)) : M seqs DogPacket :=
  seq ← nextDogSeq; mret (NewDogPacketWithSeq cmd body seq).

(** [binary.Write] of the [Header] struct: its fields in order. *)
Definition header_bytes (h : Header) : list byte :=
  be32 (h_PacketLen h) ++ be32 (h_Seq h) ++ be32 (h_Cmd h) ++ be32 (h_CheckSum h) ++
  be32 (h_ErrCode h) ++
  [byte_of_Z (h_Version h); byte_of_Z (h_Padding h); byte_of_Z (h_SOH h); byte_of_Z (h_EOH h)].

(** [binary.Read] into a [Header]. *)
Definition header_of_bytes (l : list byte) : Header :=
  let f i := be_value (take 4 (drop (4 * i) l)) in
  let g i := be_value (take 1 (drop (20 + i) l)) in
  mkHeader (f 0%nat) (f 1%nat) (f 2%nat) (f 3%nat) (f 4%nat) (g 0%nat) (g 1%nat) (g 2%nat) (g 3%nat).

(* [net/dogrpc/encoding.go:243-255] DogPacketEncoder.Encode *)
Definition DogEncode (p : Packet) : M Writer (option string) :=
  match p with
  | PDog packet =>
      check (binary_write (header_bytes (d_Header packet)))
      (check (binary_write (slice_bytes (d_Body packet)))
      (mret None))
  | _ => mret (Some "DogPacketEncoder Encode occur error")
  end.

(* [net/dogrpc/encoding.go:257-295] DogPacketDecoder.Decode *)
Definition DogDecode : M (list byte) (DogPacket + dec_err) :=
  try_ (read_bytes (Z.to_nat HeaderLen)) (fun hb =>
  let header := header_of_bytes hb in
  if h_PacketLen header <? HeaderLen then mret (inr (EMsg "invalid packet")) else
  if negb (h_SOH header =? SOH) then mret (inr (EMsg "invalid SOH")) else
  if negb (h_EOH header =? EOH) then mret (inr (EMsg "invalid EOH")) else
  let bodyLen := u32 (h_PacketLen header - HeaderLen) in
  try_ (read_bytes (Z.to_nat bodyLen)) (fun body =>
  let packet := mkDog header (Some body) in
  let checkSum1 := h_CheckSum header in
  let packet0 := set_checksum 0 packet in
  let checkSum2 := ChecksumIEEE (Marshal packet0) in
  if negb (checkSum1 =? checkSum2) then mret (inr (EMsg "invalid CheckSum")) else
  mret (inl (set_checksum checkSum1 packet0)))).

(** [Flush]: a nil writer has nothing to flush, otherwise the stream's error. *)
(* [net/dogrpc/encoding.go:149-156] RpcPacketEncoder.Flush *)
Definition RpcFlush (bw : option Writer) : option string :=
  match bw with Some w => w_err w | None => None end.
(* [net/dogrpc/encoding.go:297-304] DogPacketEncoder.Flush *)
Definition DogFlush (bw : option Writer) : option string :=
  match bw with Some w => w_err w | None => None end.

(** ** The codec interface

    What the RPC client and server rely on: encoding into a healthy writer
    appends some bytes, and decoding those bytes gives the packet back and leaves
    what followed them.  [recv] is the packet as the peer sees it. *)

Class Codec (P : Type) := {
  encode : Packet -> M Writer (option string);
  decode : M (list byte) (P + dec_err);
  inject : P -> Packet;
  wf : P -> Prop;
  recv : P -> P;
  bytes_of : P -> list byte;
  encode_ok p out : wf p ->
    encode (inject p) (mkWriter out None) = (Ret None, mkWriter (out ++ bytes_of p) None);
  decode_ok p rest : wf p -> decode (bytes_of p ++ rest) = (Ret (inl (recv p)), rest)
}.

Section codec.
Context {P : Type} `{Codec P}.

(** The writer loop of a connection sends packets one after the other; the
    reader loop of the peer decodes until [n] packets have arrived. *)
Fixpoint encode_all (ps : list P) : M Writer (option string) :=
  match ps with
  | [] => mret None
  | p :: ps' => check (encode (inject p)) (encode_all ps')
  end.

Fixpoint decode_n (n : nat) : M (list byte) (list P + dec_err) :=
  match n with
  | O => mret (inl [])
  | S n' => try_ decode (fun p => try_ (decode_n n') (fun ps => mret (inl (p :: ps))))
  end.

Lemma encode_all_ok ps out : Forall wf ps ->
  encode_all ps (mkWriter out None) = (Ret None, mkWriter (out ++ concat (map bytes_of ps)) None).
Proof.
  intros Hps. revert out. induction Hps as [|p ps Hp Hps IH]; intros out; simpl.
  - by rewrite app_nil_r.
  - unfold check, mbind, M_bind. rewrite encode_ok by done. rewrite IH, <- app_assoc. done.
Qed.

Lemma decode_n_ok ps rest : Forall wf ps ->
  decode_n (length ps) (concat (map bytes_of ps) ++ rest) = (Ret (inl (map recv ps)), rest).
Proof.
  induction 1 as [|p ps Hp Hps IH]; [done|]. simpl. rewrite <- app_assoc.
  unfold try_, mbind, M_bind in *. rewrite decode_ok by done. rewrite IH. done.
Qed.

Lemma codec_stream ps :
  Forall wf ps ->
  exists out, encode_all ps (mkWriter [] None) = (Ret None, mkWriter out None) /\
    decode_n (length ps) out = (Ret (inl (map recv ps)), []).
Proof.
  intros Hps. exists (concat (map bytes_of ps)). split; [by apply encode_all_ok|].
  rewrite <- (app_nil_r (concat _)) at 1. by apply decode_n_ok.
Qed.
End codec.

(** ** The two instances *)

Definition rpc_bytes (p : RpcPacket) : list byte :=
  be32 (r_Seq p) ++ be32 (r_ErrCode p) ++ be32 (r_Cmd p) ++ be32 (r_PacketLen p) ++
  slice_bytes (r_Body p).

Definition rpc_wf (p : RpcPacket) : Prop :=
  isU 32 (r_Seq p) /\ isU 32 (r_ErrCode p) /\ isU 32 (r_Cmd p) /\
  r_PacketLen p = body_len (r_Body p) + defaultPacketLen /\ isU 32 (r_PacketLen p).

Definition rpc_recv (p : RpcPacket) : RpcPacket :=
  mkRpc (r_Seq p) (r_ErrCode p) (r_Cmd p) (r_PacketLen p) (Some (slice_bytes (r_Body p))).

Definition dog_bytes (p : DogPacket) : list byte :=
  header_bytes (d_Header p) ++ slice_bytes (d_Body p).

Definition header_wf (h : Header) : Prop :=
  isU 32 (h_PacketLen h) /\ isU 32 (h_Seq h) /\ isU 32 (h_Cmd h) /\ isU 32 (h_CheckSum h) /\
  isU 32 (h_ErrCode h) /\ isU 8 (h_Version h) /\ isU 8 (h_Padding h) /\
  isU 8 (h_SOH h) /\ isU 8 (h_EOH h).

(** A packet a peer accepts: lengths and markers agree, the body is not nil, and
    the checksum is the one of the packet with the checksum field zeroed. *)
Definition dog_wf (p : DogPacket) : Prop :=
  let h := d_Header p in
  header_wf h /\ h_PacketLen h = body_len (d_Body p) + HeaderLen /\
  h_SOH h = SOH /\ h_EOH h = EOH /\ is_Some (d_Body p) /\
  h_CheckSum h = ChecksumIEEE (Marshal (set_checksum 0 p)).

Lemma read_bytes_app n bs rest : length bs = n ->
  read_bytes n (bs ++ rest) = (Ret (inl bs), rest).
Proof. intros <-. unfold read_bytes. by rewrite read_full_app. Qed.

Lemma read_field_be32 z rest : isU 32 z -> read_field (be32 z ++ rest) = (Ret (inl z), rest).
Proof.
  intros Hz. unfold read_field, mbind, M_bind. rewrite read_bytes_app by done.
  by rewrite be_value_be32.
Qed.

Lemma try_ok {S A B} (m : M S (A + dec_err)) (k : A -> M S (B + dec_err)) s a s' :
  m s = (Ret (inl a), s') -> try_ m k s = k a s'.
Proof. intros Hm. unfold try_, mbind, M_bind. by rewrite Hm. Qed.

Lemma try_inv {S A B} (m : M S (A + dec_err)) (k : A -> M S (B + dec_err)) s b s' :
  try_ m k s = (Ret (inl b), s') -> exists a s1, m s = (Ret (inl a), s1) /\ k a s1 = (Ret (inl b), s').
Proof.
  unfold try_, mbind, M_bind. destruct (m s) as [[[a|e]|e] s1]; try done. intros Hk.
  by exists a, s1.
Qed.

Lemma binary_write_ok data out k :
  check (binary_write data) k (mkWriter out None) = k (mkWriter (out ++ data) None).
Proof. done. Qed.

Lemma RpcDecode_bytes p rest : rpc_wf p ->
  RpcDecode (rpc_bytes p ++ rest) = (Ret (inl (rpc_recv p)), rest).
Proof.
  intros (H1 & H2 & H3 & H4 & H5). unfold RpcDecode, rpc_bytes. rewrite <- !app_assoc.
  do 4 (erewrite try_ok; [|by apply read_field_be32]). cbv zeta.
  assert (u32 (r_PacketLen p - defaultPacketLen) = body_len (r_Body p)) as ->.
  { rewrite H4. rewrite H4 in H5. unfold body_len, defaultPacketLen, len, isU in *.
    rewrite wrapU_small; unfold isU; lia. }
  erewrite try_ok; [|apply read_bytes_app; unfold body_len, len; lia]. done.
Qed.

Lemma RpcEncode_bytes p out : rpc_wf p ->
  RpcEncode (PRpc p) (mkWriter out None) = (Ret None, mkWriter (out ++ rpc_bytes p) None).
Proof.
  intros _. unfold RpcEncode. rewrite !binary_write_ok. unfold rpc_bytes.
  by rewrite <- !app_assoc.
Qed.

#[export] Instance RpcCodec : Codec RpcPacket := {
  encode := RpcEncode;
  decode := RpcDecode;
  inject := PRpc;
  wf := rpc_wf;
  recv := rpc_recv;
  bytes_of := rpc_bytes;
  encode_ok := RpcEncode_bytes;
  decode_ok := RpcDecode_bytes
}.

Lemma header_roundtrip h : header_wf h -> header_of_bytes (header_bytes h) = h.
Proof.
  intros (H1 & H2 & H3 & H4 & H5 & H6 & H7 & H8 & H9). destruct h. simpl in *.
  assert (forall z, isU 8 z -> be_value [byte_of_Z z] = z) as H.
  { intros z Hz. rewrite be_value_1, Z_of_byte_of_Z. by apply Z.mod_small. }
  unfold header_of_bytes, header_bytes. cbn -[be_value byte_of_Z].
  f_equal; first [by apply H | by apply be_value_be32].
Qed.

Lemma header_bytes_length h : length (header_bytes h) = 24%nat.
Proof. done. Qed.

Lemma DogDecode_bytes p rest : dog_wf p ->
  DogDecode (dog_bytes p ++ rest) = (Ret (inl p), rest).
Proof.
  destruct p as [h [body|]]; intros (Hh & Hl & Hs & He & Hb & Hc);
    cbn [d_Header d_Body] in *; [|by destruct Hb].
  unfold DogDecode, dog_bytes. cbn [d_Header d_Body slice_bytes default]. rewrite <- app_assoc.
  erewrite try_ok; [|apply read_bytes_app, header_bytes_length]. cbv zeta.
  assert (h_PacketLen h - HeaderLen = len body) as Hbl
    by (rewrite Hl; unfold body_len; cbn [slice_bytes default id]; lia).
  pose proof (len_nonneg body).
  rewrite header_roundtrip, Hs, He by done.
  rewrite (proj2 (Z.ltb_ge _ _)) by lia. rewrite !Z.eqb_refl. cbn [negb].
  rewrite Hbl, wrapU_small
    by (destruct Hh as (Hp & _); unfold isU, HeaderLen in *; lia).
  erewrite try_ok; [|apply read_bytes_app; unfold len; symmetry; apply Nat2Z.id].
  rewrite Hc, Z.eqb_refl. cbn [negb].
  rewrite <- Hc. by destruct h.
Qed.

Lemma DogEncode_bytes p out : dog_wf p ->
  DogEncode (PDog p) (mkWriter out None) = (Ret None, mkWriter (out ++ dog_bytes p) None).
Proof.
  intros _. unfold DogEncode. rewrite !binary_write_ok. unfold dog_bytes.
  by rewrite <- !app_assoc.
Qed.

#[export] Instance DogCodec : Codec DogPacket := {
  encode := DogEncode;
  decode := DogDecode;
  inject := PDog;
  wf := dog_wf;
  recv := fun p => p;
  bytes_of := dog_bytes;
  encode_ok := DogEncode_bytes;
  decode_ok := DogDecode_bytes
}.

(** The packets the constructors build are well formed. *)
Lemma NewRpcPacketWithRet_wf cmd body seq ret :
  isU 32 cmd -> isU 32 seq -> isU 32 ret -> body_len body + 16 < 2 ^ 32 ->
  rpc_wf (NewRpcPacketWithRet cmd body seq ret).
Proof.
  intros Hc Hs Hr Hl.
  assert (isU 32 (body_len body + 16)) by (unfold isU, body_len, len in *; lia).
  unfold rpc_wf. simpl. unfold defaultPacketLen. by rewrite wrapU_small.
Qed.

Lemma crc_shift_range c : isU 32 c -> isU 32 (crc_shift c).
Proof.
  unfold isU, crc_shift. intros Hc. rewrite Z.shiftr_div_pow2 by lia.
  assert (0 <= c / 2 ^ 1 < 2 ^ 32) as Hd by (Z.to_euclidean_division_equations; lia).
  destruct (Z.odd c); [|done]. by apply lxor_range.
Qed.

Lemma crc_byte_range c b : isU 32 c -> isU 32 (crc_byte c b).
Proof.
  intros Hc. unfold crc_byte. cbn [Nat.iter]. do 8 apply crc_shift_range.
  unfold isU in *. apply lxor_range; [done|]. pose proof (Z_of_byte_range b). lia.
Qed.

Lemma ChecksumIEEE_range data : isU 32 (ChecksumIEEE data).
Proof.
  unfold ChecksumIEEE. apply lxor_range; [|done].
  assert (isU 32 4294967295) as H by done. revert H. generalize 4294967295.
  induction data as [|b data IH]; intros c Hc; [done|]. simpl. by apply IH, crc_byte_range.
Qed.

Lemma NewDogPacketWithRet_wf cmd body seq ret :
  isU 32 cmd -> isU 32 seq -> isU 32 ret -> len body + 24 < 2 ^ 32 ->
  dog_wf (NewDogPacketWithRet cmd (Some body) seq ret).
Proof.
  intros Hc Hs Hr Hl. pose proof (len_nonneg body).
  assert (u32 (u32 (body_len (Some body)) + HeaderLen) = len body + 24) as Hlen.
  { unfold body_len, HeaderLen. simpl. rewrite (wrapU_small 32 (len body)) by (unfold isU; lia).
    rewrite wrapU_small by (unfold isU; lia). done. }
  unfold dog_wf, header_wf, NewDogPacketWithRet. cbn -[u32 Marshal ChecksumIEEE body_len isU].
  rewrite Hlen. split_and!; try done; try apply ChecksumIEEE_range.
  unfold isU. lia.
Qed.

Lemma body_len_None : body_len None = 0.
Proof. done. Qed.

(** ** Properties of the streams *)

(** The arguments of the constructors as the callers pass them. *)
Record call : Type := mkCall { c_cmd : Z; c_body : option (list byte); c_seq : Z; c_ret : Z }.

Definition call_ok (header : Z) (c : call) : Prop :=
  isU 32 (c_cmd c) /\ isU 32 (c_seq c) /\ isU 32 (c_ret c) /\ body_len (c_body c) + header < 2 ^ 32.

Definition rpc_packet_of (c : call) : RpcPacket :=
  NewRpcPacketWithRet (c_cmd c) (c_body c) (c_seq c) (c_ret c).
Definition dog_packet_of (c : call) : DogPacket :=
  NewDogPacketWithRet (c_cmd c) (c_body c) (c_seq c) (c_ret c).

(** C39 Any sequence of [RpcPacket]s built by the constructors, encoded one after
    the other on a connection, is decoded by the peer into the same sequence (a
    nil body arrives as an empty one), with nothing left over. *)
Theorem rpc_stream_roundtrip (cs : list call) :
  Forall (call_ok 16) cs ->
  exists out, encode_all (map rpc_packet_of cs) (mkWriter [] None) = (Ret None, mkWriter out None) /\
    decode_n (length cs) out = (Ret (inl (map (fun c => rpc_recv (rpc_packet_of c)) cs)), []).
Proof.
  intros Hcs. assert (Forall wf (map rpc_packet_of cs)) as Hwf.
  { apply Forall_fmap. eapply Forall_impl; [exact Hcs|]. intros c (H1 & H2 & H3 & H4).
    by apply NewRpcPacketWithRet_wf. }
  destruct (codec_stream _ Hwf) as (out & He & Hd). exists out. split; [done|].
  rewrite length_map, map_map in Hd. exact Hd.
Qed.

Lemma rpc_stream_roundtrip_witness :
  exists out, encode_all (map rpc_packet_of [mkCall 7 (Some [x41; x42]) 1 0; mkCall 8 None 2 10003])
      (mkWriter [] None) = (Ret None, mkWriter out None) /\
    decode_n 2 out = (Ret (inl [mkRpc 1 0 7 18 (Some [x41; x42]); mkRpc 2 10003 8 16 (Some [])]), []).
Proof.
  apply (rpc_stream_roundtrip [mkCall 7 (Some [x41; x42]) 1 0; mkCall 8 None 2 10003]).
  repeat constructor; done.
Defined.

(** Any sequence of [DogPacket]s with non-nil bodies built by the constructors
    survives the wire unchanged, checksum included. *)
Theorem dog_stream_roundtrip (cs : list call) :
  Forall (call_ok 24) cs -> Forall (fun c => is_Some (c_body c)) cs ->
  exists out, encode_all (map dog_packet_of cs) (mkWriter [] None) = (Ret None, mkWriter out None) /\
    decode_n (length cs) out = (Ret (inl (map dog_packet_of cs)), []).
Proof.
  intros Hcs Hb. assert (Forall wf (map dog_packet_of cs)) as Hwf.
  { apply Forall_fmap. eapply Forall_impl; [apply Forall_and; split; [exact Hcs|exact Hb]|].
    intros [cmd body seq ret] ((H1 & H2 & H3 & H4) & [b Hbody]). cbn in *. subst body.
    by apply NewDogPacketWithRet_wf. }
  destruct (codec_stream _ Hwf) as (out & He & Hd). exists out. split; [done|].
  cbn [recv DogCodec] in Hd. rewrite length_map, map_id in Hd. exact Hd.
Qed.

Lemma dog_stream_roundtrip_witness :
  exists out, encode_all (map dog_packet_of [mkCall 7 (Some [x41; x42]) 1 0; mkCall 8 (Some []) 2 5])
      (mkWriter [] None) = (Ret None, mkWriter out None) /\
    decode_n 2 out =
      (Ret (inl (map dog_packet_of [mkCall 7 (Some [x41; x42]) 1 0; mkCall 8 (Some []) 2 5])), []).
Proof.
  apply (dog_stream_roundtrip [mkCall 7 (Some [x41; x42]) 1 0; mkCall 8 (Some []) 2 5]);
    repeat constructor; first [done | by eexists].
Defined.

(** ** What the decoders accept *)

Lemma read_bytes_inv n s bs s' :
  read_bytes n s = (Ret (inl bs), s') -> s = bs ++ s' /\ length bs = n.
Proof.
  unfold read_bytes. destruct (read_full n s) as [[bs0 s0]|] eqn:E; [|done].
  intros [= -> ->]. by apply read_full_inv.
Qed.

Lemma header_bytes_of l : length l = 24%nat -> header_bytes (header_of_bytes l) = l.
Proof.
  intros Hl. assert (forall b, byte_of_Z (be_value [b]) = b) as H1.
  { intros b. rewrite be_value_1. apply byte_of_Z_of_byte. }
  do 24 (destruct l as [|? l]; [discriminate Hl|]).
  destruct l; [|discriminate Hl].
  unfold header_bytes, header_of_bytes. cbn -[be32 be_value byte_of_Z].
  rewrite !H1. do 5 (rewrite be32_be_value by reflexivity). reflexivity.
Qed.

Lemma header_of_bytes_wf l : length l = 24%nat -> header_wf (header_of_bytes l).
Proof.
  intros Hl. assert (forall b, isU 8 (be_value [b])) as H1.
  { intros b. rewrite be_value_1. apply Z_of_byte_range. }
  do 24 (destruct l as [|? l]; [discriminate Hl|]).
  destruct l; [|discriminate Hl].
  unfold header_wf, header_of_bytes. cbn -[be_value isU].
  split_and!; first [by apply be_value_range | apply H1].
Qed.

Lemma set_checksum_idem a b p : set_checksum a (set_checksum b p) = set_checksum a p.
Proof. done. Qed.

Lemma set_checksum_self p : set_checksum (h_CheckSum (d_Header p)) p = p.
Proof. by destruct p as [[] ?]. Qed.

Lemma DogDecode_sound s p s' :
  DogDecode s = (Ret (inl p), s') -> s = dog_bytes p ++ s' /\ dog_wf p.
Proof.
  intros (hb & s1 & Hh & H)%try_inv. apply read_bytes_inv in Hh as [-> Hlen]. revert H. cbv zeta.
  destruct (h_PacketLen (header_of_bytes hb) <? HeaderLen) eqn:El; [done|].
  destruct (h_SOH (header_of_bytes hb) =? SOH) eqn:Es; [|done].
  destruct (h_EOH (header_of_bytes hb) =? EOH) eqn:Ee; [|done]. cbn [negb].
  intros (body & s2 & Hb & H)%try_inv. apply read_bytes_inv in Hb as [-> Hbl]. revert H.
  destruct (_ =? ChecksumIEEE _) eqn:Ec; [|done]. cbn [negb].
  rewrite set_checksum_idem.
  change (h_CheckSum (header_of_bytes hb)) with
    (h_CheckSum (d_Header (mkDog (header_of_bytes hb) (Some body)))).
  rewrite set_checksum_self. intros [= <- <-].
  apply Z.ltb_ge in El. apply Z.eqb_eq in Es, Ee, Ec.
  pose proof (header_of_bytes_wf _ Hlen) as Hwf. split.
  - unfold dog_bytes. cbn [d_Header d_Body slice_bytes default id].
    by rewrite header_bytes_of, <- app_assoc.
  - unfold dog_wf. cbn [d_Header d_Body]. split_and!; try done.
    destruct Hwf as (Hp & _). revert Hbl. rewrite wrapU_small by (unfold isU, HeaderLen in *; lia).
    unfold body_len, len. cbn [slice_bytes default id]. lia.
Qed.

(** C6 The checked decoder accepts exactly the frames of well-formed packets: it
    returns [p] leaving [s'] if and only if the input is the encoding of [p]
    followed by [s'] and [p] has consistent length, markers and checksum. *)
Theorem DogDecode_exact s p s' :
  DogDecode s = (Ret (inl p), s') <-> s = dog_bytes p ++ s' /\ dog_wf p.
Proof.
  split; [apply DogDecode_sound|]. intros [-> Hwf]. by apply DogDecode_bytes.
Qed.

(** A request whose body is nil ([DogInvoke] without a request value) is
    encoded without error and refused by every peer: the constructor's checksum
    covers the JSON [null], the decoder's covers the empty string. *)
Theorem nil_body_rejected :
  let p := (run (NewDogPacket 9 None) (mkSeqs 0 0)).1 in
  exists pkt out, p = Ret pkt /\
    run (DogEncode (PDog pkt)) (mkWriter [] None) = (Ret None, mkWriter out None) /\
    run DogDecode out = (Ret (inr (EMsg "invalid CheckSum")), []).
Proof.
  exists (NewDogPacketWithSeq 9 None 1), (dog_bytes (NewDogPacketWithSeq 9 None 1)).
  split_and!; vm_compute; reflexivity.
Qed.

(** [RpcDecode] has no lower bound on the length field: a frame announcing
    fewer than the 16 header bytes makes the decoder wait for a body of almost
    [2^32] bytes, so on any shorter stream it fails after swallowing all of it. *)
Theorem RpcDecode_short_length seq err cmd l rest :
  isU 32 seq -> isU 32 err -> isU 32 cmd -> 0 <= l < 16 -> len rest < 2 ^ 32 - 16 ->
  exists e, RpcDecode (be32 seq ++ be32 err ++ be32 cmd ++ be32 l ++ rest) = (Ret (inr (ERead e)), []).
Proof.
  intros H1 H2 H3 H4 H5. unfold RpcDecode.
  do 4 (erewrite try_ok; [|apply read_field_be32; unfold isU in *; lia]). cbv zeta.
  assert (u32 (l - defaultPacketLen) = 2 ^ 32 + l - 16) as ->.
  { unfold wrapU, defaultPacketLen. symmetry. apply (Z.mod_unique _ _ (-1)); lia. }
  unfold try_ at 1, read_bytes, read_full, mbind, M_bind.
  rewrite decide_False by (unfold len in H5; lia).
  destruct rest; by eexists.
Qed.

Lemma RpcDecode_short_length_witness :
  exists e, RpcDecode (be32 1 ++ be32 0 ++ be32 9 ++ be32 3 ++ [x41]) = (Ret (inr (ERead e)), []).
Proof. by apply RpcDecode_short_length. Defined.

End Encoding.
