(* ===== verification/Gl.v ===== *)
(** * Goroutine-local data ([runtime/gl])

    A [ConcurrentMap] of shards (map.go) holds one Go map per goroutine, keyed by
    the decimal goroutine id; the package functions (global.go) look the caller's
    map up and work on it.  Shard operations run under the shard's lock and a
    goroutine's map is touched by that goroutine alone, so a history is a sequence
    of operations, each with the id of the goroutine that runs it. *)

From S2P Require Import Prelude GoStd.
Import GoStd.

Module Gl.

(** ** The hash *)

(* [runtime/gl/map.go:62-70] fnv32 *)
Fixpoint fnv32_loop (key : string) (hash : Z) : Z :=
  match key with
  | EmptyString => hash
  | String c key' =>
      fnv32_loop key' (Z.lxor (u32 (hash * 16777619)) (Z.of_N (N_of_ascii c)))
  end.

Definition fnv32 (key : string) : Z := fnv32_loop key 2166136261.

Example fnv32_a : fnv32 "a" = 84696446.
Proof. reflexivity. Qed.

Lemma fnv32_range key : isU 32 (fnv32 key).
Proof.
  unfold fnv32. assert (isU 32 2166136261) as H by done. revert H. generalize 2166136261.
  induction key as [|c key IH]; intros h Hh; [done|]. apply IH. apply lxor_range.
  - by apply wrapU_range.
  - pose proof (N_ascii_bounded c). lia.
Qed.

(** ** The store interface

    What the package functions need of the map of goroutines: a string-keyed
    store whose operations do not panic and act as those of a finite map. *)

Class StrStore (C V : Type) := {
  snew : C;
  sget : string -> M C (option V);
  sset : string -> V -> M C unit;
  sremove : string -> M C unit;
  models : C -> gmap string V -> Prop;
  snew_ok : models snew ∅;
  sget_ok c g k : models c g -> sget k c = (Ret (g !! k), c);
  sset_ok c g k v : models c g -> exists c', sset k v c = (Ret tt, c') /\ models c' (<[k := v]> g);
  sremove_ok c g k : models c g -> exists c', sremove k c = (Ret tt, c') /\ models c' (delete k g)
}.

(** ** The sharded map *)

Section shards.
Context {V : Type}.

(* [runtime/gl/map.go:10-18] ConcurrentMap *)
Record ConcurrentMap : Type := mkCM { s : list (gmap string V); shardCount : Z }.

(* [runtime/gl/map.go:20-33] NewShard *)
Definition NewShard (count : Z) : ConcurrentMap :=
  let count := if count <=? 0 then 32 else count in
  mkCM (replicate (Z.to_nat count) ∅) count.

(** The shard of a key, as its position in [s]. *)
(* [runtime/gl/map.go:35-37] GetShard *)
Definition GetShard (key : string) : M ConcurrentMap nat :=
  m ← get;
  if shardCount m =? 0 then panic "integer divide by zero" else
  let i := Z.to_nat (fnv32 key mod shardCount m) in
  match s m !! i with
  | Some _ => mret i
  | None => panic "index out of range"
  end.

(* [runtime/gl/map.go:39-45] ConcurrentMap.Set *)
Definition cm_Set (key : string) (value : V) : M ConcurrentMap unit :=
  i ← GetShard key;
  modify (fun m => mkCM (alter (insert key value) i (s m)) (shardCount m)).

(* [runtime/gl/map.go:47-53] ConcurrentMap.Get *)
Definition cm_Get (key : string) : M ConcurrentMap (option V) :=
  i ← GetShard key;
  gets (fun m => s m !! i ≫= (.!! key)).

(* [runtime/gl/map.go:55-60] ConcurrentMap.Remove *)
Definition cm_Remove (key : string) : M ConcurrentMap unit :=
  i ← GetShard key;
  modify (fun m => mkCM (alter (delete key) i (s m)) (shardCount m)).

Definition cm_wf (m : ConcurrentMap) : Prop :=
  0 < shardCount m /\ length (s m) = Z.to_nat (shardCount m).

Definition shard_of (m : ConcurrentMap) (key : string) : nat :=
  Z.to_nat (fnv32 key mod shardCount m).

Definition view (m : ConcurrentMap) (key : string) : option V :=
  s m !! shard_of m key ≫= (.!! key).

Definition cm_models (m : ConcurrentMap) (g : gmap string V) : Prop :=
  cm_wf m /\ forall key, view m key = g !! key.

Lemma shard_of_lt m key : cm_wf m -> (shard_of m key < length (s m))%nat.
Proof.
  intros [Hc Hl]. rewrite Hl. unfold shard_of.
  pose proof (Z.mod_pos_bound (fnv32 key) _ Hc). lia.
Qed.

Lemma GetShard_ok m key : cm_wf m -> GetShard key m = (Ret (shard_of m key), m).
Proof.
  intros Hwf. pose proof (shard_of_lt m key Hwf) as Hlt.
  unfold GetShard, mbind, M_bind, get. destruct Hwf as [Hc _].
  rewrite (proj2 (Z.eqb_neq _ _)) by lia.
  apply lookup_lt_is_Some in Hlt as [d Hd]. unfold shard_of in *. by rewrite Hd.
Qed.

(** Writing the shard of [key] changes the view at [key] alone. *)
Lemma alter_models (f : gmap string V -> gmap string V) m g g' key :
  cm_models m g ->
  (forall d, f d !! key = g' !! key) ->
  (forall d key', key' ≠ key -> f d !! key' = d !! key') ->
  (forall key', key' ≠ key -> g' !! key' = g !! key') ->
  cm_models (mkCM (alter f (shard_of m key) (s m)) (shardCount m)) g'.
Proof.
  intros [Hwf Hv] Hf Hf' Hg. split.
  { destruct Hwf. split; [done|]. simpl. by rewrite length_alter. }
  intros key'. pose proof (shard_of_lt m key Hwf) as [d Hd]%lookup_lt_is_Some.
  unfold view. simpl. change (shard_of (mkCM _ (shardCount m)) key') with (shard_of m key').
  destruct (decide (key' = key)) as [->|Hne].
  { rewrite list_lookup_alter, decide_True by done. rewrite Hd. apply Hf. }
  rewrite Hg, <- Hv by done. unfold view.
  destruct (decide (shard_of m key' = shard_of m key)) as [->|Hs].
  - rewrite list_lookup_alter, decide_True by done. rewrite Hd. simpl. by apply Hf'.
  - by rewrite list_lookup_alter, decide_False by done.
Qed.

Lemma NewShard_models count : cm_models (NewShard count) ∅.
Proof.
  unfold NewShard. set (n := if count <=? 0 then 32 else count).
  assert (0 < n) by (unfold n; destruct (Z.leb_spec count 0); lia).
  split; [split; simpl; [done|apply length_replicate]|].
  intros key. unfold view. simpl. rewrite lookup_empty.
  destruct (_ !! _) as [d|] eqn:E; [|done].
  apply lookup_replicate in E as [-> _]. simpl. apply lookup_empty.
Qed.

Lemma cm_Get_ok m g k : cm_models m g -> cm_Get k m = (Ret (g !! k), m).
Proof.
  intros [Hwf Hv]. unfold cm_Get, mbind, M_bind. rewrite GetShard_ok by done.
  unfold gets. rewrite <- Hv. done.
Qed.

Lemma cm_Set_ok m g k v : cm_models m g ->
  exists m', cm_Set k v m = (Ret tt, m') /\ cm_models m' (<[k := v]> g).
Proof.
  intros Hm. unfold cm_Set, mbind, M_bind. rewrite GetShard_ok by apply Hm.
  eexists. split; [reflexivity|]. eapply alter_models; [done|..].
  - intros d. by rewrite !lookup_insert_eq.
  - intros d k' Hne. by rewrite lookup_insert_ne.
  - intros k' Hne. by rewrite lookup_insert_ne.
Qed.

Lemma cm_Remove_ok m g k : cm_models m g ->
  exists m', cm_Remove k m = (Ret tt, m') /\ cm_models m' (delete k g).
Proof.
  intros Hm. unfold cm_Remove, mbind, M_bind. rewrite GetShard_ok by apply Hm.
  eexists. split; [reflexivity|]. eapply alter_models; [done|..].
  - intros d. by rewrite !lookup_delete_eq.
  - intros d k' Hne. by rewrite lookup_delete_ne.
  - intros k' Hne. by rewrite lookup_delete_ne.
Qed.
End shards.
Arguments ConcurrentMap V : clear implicits.

Definition shardCount_gl : Z := 1024.

#[global] Instance ShardStore V : StrStore (ConcurrentMap V) V := {
  snew := NewShard shardCount_gl;
  sget := cm_Get;
  sset := cm_Set;
  sremove := cm_Remove;
  models := cm_models;
  snew_ok := NewShard_models shardCount_gl;
  sget_ok := cm_Get_ok;
  sset_ok := cm_Set_ok;
  sremove_ok := cm_Remove_ok
}.

(** ** The package functions *)

(** Keys and values are [interface{}]: strings and integers among the keys;
    among the values those the package treats differently. *)
Inductive key : Type := KStr (k : string) | KInt (k : Z).

#[global] Instance key_eq_dec : EqDecision key.
Proof. solve_decision. Defined.
#[global] Instance KStr_inj : Inj (=) (=) KStr.
Proof. by intros ?? [= ->]. Qed.
#[global] Instance key_countable : Countable key.
Proof.
  refine (inj_countable' (fun k => match k with KStr k => inl k | KInt k => inr k end)
    (fun k => match k with inl k => KStr k | inr k => KInt k end) _).
  by intros [].
Defined.

(** [fmt.Sprintf("%v", k)] *)
Definition kStr (k : key) : string :=
  match k with KStr k => k | KInt k => itoa k end.

Inductive value : Type :=
| VNil | VPtr (addr : positive) | VInt64 (z : Z) | VStr (v : string) | VOther (tag : nat).

Abbreviation glmap := (gmap key value).

Inductive event : Type :=
| EDebug (msg : string) | EError (msg : string) | EStderr (msg : string).

(* [runtime/gl/goid.go:13-15] getGoId *)
Definition getGoId (goid : Z) : string := itoa goid.

(** [gl.js.Json]: an object node of the JSON library, through the three calls used. *)
Class SimpleJson (J : Type) := {
  js_New : J;
  js_Set : string -> value -> J -> J;
  MustMap : J -> gmap string value;
  MustMap_New : MustMap js_New = ∅;
  MustMap_Set k v j : MustMap (js_Set k v j) = <[k := v]> (MustMap j)
}.

#[global] Instance gmap_json : SimpleJson (gmap string value).
Proof. refine {| js_New := ∅; js_Set := insert; MustMap := id |}; done. Defined.

(* [runtime/gl/global.go:213-220] isPtrOrInterface *)
Definition isPtrOrInterface (v : value) : bool :=
  match v with VNil => true | VPtr _ => true | _ => false end.

Definition ClientIp : string := "glClientIp".
Definition Tag : string := "glTag".
Definition LogId : string := "glLogId".
Definition Url : string := "glUrl".
Definition Server : string := "glServer".
Definition SecretKey : string := "glSecretKey".
Definition GdToken : string := "gdToken".

Definition hidden (k : string) : bool :=
  bool_decide (k ∈ [ClientIp; Tag; LogId; Url; GdToken; SecretKey; Server]).

Section ops.
Context {C : Type} `{!StrStore C glmap} {J : Type} `{!SimpleJson J}.

(** [_gl], whether a [Logger] is set, and what has been logged. *)
(* [runtime/gl/gl.go:10-16] goroutineLocal *)
Record gstate : Type := mkG { _gl : C; log : bool; events : list event }.

Definition on_gl {A} (m : M C A) : M gstate A := fun st =>
  match m (_gl st) with (r, c) => (r, mkG c (log st) (events st)) end.

Definition emit (e : event) : M gstate unit :=
  modify (fun st => mkG (_gl st) (log st) (events st ++ [e])).

(** [if log != nil { log.Debug(..) }] *)
Definition debug (msg : string) : M gstate unit :=
  b ← gets log; if b : bool then emit (EDebug msg) else mret tt.

(** The package's maps hold non-nil [map[interface{}]interface{}] only, so the
    checks on [glObj] come down to the presence of the entry. *)
(* [runtime/gl/gl.go:18-33] getGl *)
Definition getGl (goid : Z) : M gstate (option glmap) := on_gl (sget (getGoId goid)).

(** [cc[key] = val]: the map is only reachable through the store's entry. *)
Definition write (goid : Z) (cc : glmap) : M gstate unit := on_gl (sset (getGoId goid) cc).

(* [runtime/gl/global.go:19-41] Init *)
Definition Init (goid : Z) : M gstate unit :=
  let goId := getGoId goid in
  glObj ← on_gl (sget goId);
  match glObj with
  | None =>
      _ ← on_gl (sset goId (∅ : glmap));
      debug ("init gl goId: " +:+ goId)
  | Some _ =>
      _ ← on_gl (sset goId (∅ : glmap));
      b ← gets log;
      let msg := "double INIT!init replace gl for goId: " +:+ goId in
      if b : bool then emit (EError msg) else emit (EStderr msg)
  end.

(* [runtime/gl/global.go:43-63] Close *)
Definition Close (goid : Z) : M gstate unit :=
  glObj ← getGl goid;
  match glObj with
  | None => mret tt
  | Some _ =>
      _ ← write goid ∅;
      _ ← on_gl (sremove (getGoId goid));
      debug ("clear gl goId:" +:+ getGoId goid)
  end.

(* [runtime/gl/global.go:66-69] Exist *)
Definition Exist (goid : Z) : M gstate bool :=
  glObj ← getGl goid; mret (bool_decide (is_Some glObj)).

(** The early return of the functions below when the goroutine has no data. *)
Definition with_gl {A} (goid : Z) (none : A) (k : glmap -> M gstate A) : M gstate A :=
  cc ← getGl goid; match cc with None => mret none | Some cc => k cc end.

(* [runtime/gl/global.go:71-77] Del *)
Definition Del (goid : Z) (k : key) : M gstate unit :=
  with_gl goid tt (fun cc => write goid (delete k cc)).

(* [runtime/gl/global.go:79-86] Get *)
Definition Get (goid : Z) (k : key) : M gstate (option value) :=
  with_gl goid None (fun cc => mret (cc !! k)).

(* [runtime/gl/global.go:88-101] BatchGet *)
Definition BatchGet (goid : Z) (ks : list key) : M gstate (option glmap) :=
  with_gl goid None (fun cc =>
    mret (Some (foldl (fun ret k => match cc !! k with
                                    | Some v => <[k := v]> ret
                                    | None => ret
                                    end) (∅ : glmap) ks))).

(* [runtime/gl/global.go:103-110] Set *)
Definition Set_ (goid : Z) (k : key) (v : value) : M gstate unit :=
  with_gl goid tt (fun cc => write goid (<[k := v]> cc)).

(* [runtime/gl/global.go:238-257] Incr *)
Definition Incr (goid : Z) (k : key) (count : Z) : M gstate Z :=
  with_gl goid (-1) (fun cc =>
    match cc !! k with
    | Some (VInt64 vc) => _ ← write goid (<[k := VInt64 (i64 (vc + count))]> cc); mret vc
    | _ => _ ← write goid (<[k := VInt64 count]> cc); mret 0
    end).

(* [runtime/gl/global.go:259-278] Decr *)
Definition Decr (goid : Z) (k : key) (count : Z) : M gstate Z :=
  with_gl goid (-1) (fun cc =>
    match cc !! k with
    | Some (VInt64 vc) => _ ← write goid (<[k := VInt64 (i64 (vc - count))]> cc); mret vc
    | _ => _ ← write goid (<[k := VInt64 (i64 (0 - count))]> cc); mret 0
    end).


(* [runtime/gl/global.go:222-224] IncrCost *)
Definition IncrCost (goid : Z) (k : key) (cost : Z) : M gstate Z :=
  Incr goid k (Z.quot cost Millisecond).
(* [runtime/gl/global.go:226-228] IncrCostKey *)
Definition IncrCostKey (goid : Z) (k : string) (cost : Z) : M gstate Z :=
  Incr goid (KStr (k +:+ "_cost")) (Z.quot cost Millisecond).
(* [runtime/gl/global.go:230-232] IncrCountKey *)
Definition IncrCountKey (goid : Z) (k : string) (val : Z) : M gstate Z :=
  Incr goid (KStr (k +:+ "_count")) val.
(* [runtime/gl/global.go:234-236] IncrFailKey *)
Definition IncrFailKey (goid : Z) (k : string) (val : Z) : M gstate Z :=
  Incr goid (KStr (k +:+ "_fail")) val.

(** The loops over a Go map take its entries in the order met. *)
Definition copy_visible (l : list (key * value)) : gmap string value :=
  foldl (fun ret kv => if hidden (kStr kv.1) then ret else <[kStr kv.1 := kv.2]> ret) ∅ l.

Definition json_entry (kv : key * value) : value :=
  if isPtrOrInterface kv.2 then VStr "@#" else kv.2.

Definition json_loop (skip : bool) (l : list (key * value)) (j : J) : J :=
  foldl (fun j kv => if skip && hidden (kStr kv.1) then j
                     else js_Set (kStr kv.1) (json_entry kv) j) j l.

(* [runtime/gl/global.go:112-138] GetCurrentGlData *)
Definition GetCurrentGlData (goid : Z) : M gstate (gmap string value) :=
  with_gl goid {["info" := VStr "no gl"]} (fun gl =>
    _ ← debug ("gid,gl = " +:+ getGoId goid);
    mret (copy_visible (map_to_list gl))).

(* [runtime/gl/global.go:140-169] JsonCurrentGlData *)
Definition JsonCurrentGlData (goid : Z) : M gstate J :=
  with_gl goid (js_Set "_info" (VStr "no gl") js_New) (fun gl =>
    _ ← debug ("json gl " +:+ getGoId goid);
    mret (json_loop true (map_to_list gl) js_New)).

(* [runtime/gl/global.go:171-197] GetGlData *)
Definition GetGlData (goid : Z) : M gstate J :=
  with_gl goid (js_Set "_info" (VStr "no gl") js_New) (fun gl =>
    _ ← debug ("json gl " +:+ getGoId goid);
    mret (json_loop false (map_to_list gl) js_New)).

Definition copy_entry (goid : Z) (k : string) (v : value) : M gstate unit :=
  if contains "cost" k then
    match v with
    | VInt64 valueInt => _ ← Incr goid (KStr k) valueInt; mret tt
    | _ => Set_ goid (KStr k) v
    end
  else Set_ goid (KStr k) v.

Fixpoint copy_loop (goid : Z) (l : list (string * value)) : M gstate unit :=
  match l with
  | [] => mret tt
  | (k, v) :: l' => _ ← copy_entry goid k v; copy_loop goid l'
  end.

(* [runtime/gl/global.go:199-211] CopyGlData *)
Definition CopyGlData (goid : Z) (glJsonObj : J) : M gstate unit :=
  copy_loop goid (map_to_list (MustMap glJsonObj)).
End ops.
Arguments gstate C : clear implicits.

(** ** Specification: one private machine per goroutine

    The calls of a goroutine act on its own optional map and on nothing else. *)

Inductive op (J : Type) : Type :=
| OInit | OClose | OExist | ODel (k : key) | OGet (k : key) | OBatchGet (ks : list key)
| OSet (k : key) (v : value) | OIncr (k : key) (count : Z) | ODecr (k : key) (count : Z)
| OIncrCost (k : key) (cost : Z) | OIncrCostKey (k : string) (cost : Z)
| OIncrCountKey (k : string) (val : Z) | OIncrFailKey (k : string) (val : Z)
| OCurrent | OJsonCurrent | OJson | OCopy (j : J).
Arguments OInit {J}. Arguments OClose {J}. Arguments OExist {J}. Arguments ODel {J} k.
Arguments OGet {J} k. Arguments OBatchGet {J} ks. Arguments OSet {J} k v.
Arguments OIncr {J} k count. Arguments ODecr {J} k count. Arguments OIncrCost {J} k cost.
Arguments OIncrCostKey {J} k cost. Arguments OIncrCountKey {J} k val.
Arguments OIncrFailKey {J} k val. Arguments OCurrent {J}. Arguments OJsonCurrent {J}.
Arguments OJson {J}. Arguments OCopy {J} j.

Inductive res (J : Type) : Type :=
| RUnit | RBool (b : bool) | RVal (v : option value) | RMap (m : option glmap) | RInt (z : Z)
| RData (m : gmap string value) | RJson (j : J).
Arguments RUnit {J}. Arguments RBool {J} b. Arguments RVal {J} v. Arguments RMap {J} m.
Arguments RInt {J} z. Arguments RData {J} m. Arguments RJson {J} j.

Definition counter (v : option value) : option Z :=
  match v with Some (VInt64 z) => Some z | _ => None end.

(** What [CopyGlData] makes of the entry [k] when [v] arrives over [old]. *)
Definition copy_val (k : string) (old : option value) (v : value) : value :=
  match v, counter old with
  | VInt64 z, Some o => if contains "cost" k then VInt64 (i64 (o + z)) else v
  | _, _ => v
  end.

Definition copy_merge (j : gmap string value) (cc : glmap) : glmap :=
  kmap KStr (map_imap (fun k v => Some (copy_val k (cc !! KStr k) v)) j) ∪ cc.

Section spec.
Context {J : Type} `{!SimpleJson J}.

Definition l_incr (k : key) (d : Z) (o : option glmap) : res J * option glmap :=
  match o with
  | None => (RInt (-1), None)
  | Some cc =>
      let old := default 0 (counter (cc !! k)) in
      (RInt old, Some (<[k := VInt64 (i64 (old + d))]> cc))
  end.

Definition l_read {A} (none : res J) (f : A -> res J) (g : glmap -> A) (o : option glmap)
    : res J * option glmap :=
  (match o with None => none | Some cc => f (g cc) end, o).

Definition l_op (c : op J) (o : option glmap) : res J * option glmap :=
  match c with
  | OInit => (RUnit, Some ∅)
  | OClose => (RUnit, None)
  | OExist => (RBool (bool_decide (is_Some o)), o)
  | ODel k => (RUnit, delete k <$> o)
  | OGet k => (RVal (o ≫= lookup k), o)
  | OBatchGet ks => (RMap (filter (fun kv => kv.1 ∈ ks) <$> o), o)
  | OSet k v => (RUnit, insert k v <$> o)
  | OIncr k count => l_incr k count o
  | ODecr k count => l_incr k (- count) o
  | OIncrCost k cost => l_incr k (Z.quot cost Millisecond) o
  | OIncrCostKey k cost => l_incr (KStr (k +:+ "_cost")) (Z.quot cost Millisecond) o
  | OIncrCountKey k val => l_incr (KStr (k +:+ "_count")) val o
  | OIncrFailKey k val => l_incr (KStr (k +:+ "_fail")) val o
  | OCurrent =>
      l_read (RData {["info" := VStr "no gl"]}) RData (fun cc => copy_visible (map_to_list cc)) o
  | OJsonCurrent =>
      l_read (RJson (js_Set "_info" (VStr "no gl") js_New)) RJson
        (fun cc => json_loop true (map_to_list cc) js_New) o
  | OJson =>
      l_read (RJson (js_Set "_info" (VStr "no gl") js_New)) RJson
        (fun cc => json_loop false (map_to_list cc) js_New) o
  | OCopy j => (RUnit, copy_merge (MustMap j) <$> o)
  end.

(** Counter arguments are [int64] values, and so are the integers of a JSON object. *)
Definition val_ok (v : value) : Prop := forall z, v = VInt64 z -> isI64 z.

Definition op_ok (c : op J) : Prop :=
  match c with
  | OCopy j => map_Forall (fun _ v => val_ok v) (MustMap j)
  | OIncr _ n | ODecr _ n | OIncrCost _ n | OIncrCostKey _ n
  | OIncrCountKey _ n | OIncrFailKey _ n => isI64 n
  | _ => True
  end.

Fixpoint l_run (cs : list (op J)) (o : option glmap) : list (res J) :=
  match cs with
  | [] => []
  | c :: cs' => (l_op c o).1 :: l_run cs' (l_op c o).2
  end.
End spec.

Section refinement.
Context {C : Type} `{!StrStore C glmap} {J : Type} `{!SimpleJson J}.
Implicit Types A : gmap Z glmap.

Definition do_op (goid : Z) (c : op J) : M (gstate C) (res J) :=
  match c with
  | OInit => _ ← Init goid; mret RUnit
  | OClose => _ ← Close goid; mret RUnit
  | OExist => b ← Exist goid; mret (RBool b)
  | ODel k => _ ← Del goid k; mret RUnit
  | OGet k => v ← Get goid k; mret (RVal v)
  | OBatchGet ks => m ← BatchGet goid ks; mret (RMap m)
  | OSet k v => _ ← Set_ goid k v; mret RUnit
  | OIncr k count => z ← Incr goid k count; mret (RInt z)
  | ODecr k count => z ← Decr goid k count; mret (RInt z)
  | OIncrCost k cost => z ← IncrCost goid k cost; mret (RInt z)
  | OIncrCostKey k cost => z ← IncrCostKey goid k cost; mret (RInt z)
  | OIncrCountKey k val => z ← IncrCountKey goid k val; mret (RInt z)
  | OIncrFailKey k val => z ← IncrFailKey goid k val; mret (RInt z)
  | OCurrent => m ← GetCurrentGlData goid; mret (RData m)
  | OJsonCurrent => j ← JsonCurrentGlData goid; mret (RJson j)
  | OJson => j ← GetGlData goid; mret (RJson j)
  | OCopy j => _ ← CopyGlData goid j; mret RUnit
  end.

(** A history: the goroutine of each call, in the order the locks are taken. *)
Fixpoint run_history (h : list (Z * op J)) : M (gstate C) (list (Z * res J)) :=
  match h with
  | [] => mret []
  | (g, c) :: h' => r ← do_op g c; rs ← run_history h'; mret ((g, r) :: rs)
  end.

Definition gmodels (st : gstate C) (A : gmap Z glmap) : Prop :=
  models (_gl st) (kmap (M2 := gmap string) (fun z : Z => itoa z) A).

(** A call behaves as [f] on the caller's entry: [does goid m f]. *)
Definition does {B} (goid : Z) (m : M (gstate C) B) (f : option glmap -> B * option glmap) : Prop :=
  forall st A, gmodels st A ->
    exists st', m st = (Ret (f (A !! goid)).1, st') /\ gmodels st' (partial_alter (fun _ => (f (A !! goid)).2) goid A).

Lemma gmodels_read st A goid : gmodels st A -> on_gl (sget (getGoId goid)) st = (Ret (A !! goid), st).
Proof.
  intros H. unfold on_gl. rewrite (sget_ok _ _ _ H). unfold getGoId.
  change (itoa goid) with ((fun z : Z => itoa z) goid). rewrite lookup_kmap by apply _.
  by destruct st.
Qed.

Lemma gmodels_write st A goid cc : gmodels st A ->
  exists st', on_gl (sset (getGoId goid) cc) st = (Ret tt, st') /\ gmodels st' (<[goid := cc]> A).
Proof.
  intros H. destruct (sset_ok _ _ (getGoId goid) cc H) as (c' & Hc & Hm). unfold on_gl.
  rewrite Hc. eexists. split; [done|]. unfold gmodels. by rewrite kmap_insert by apply _.
Qed.

Lemma gmodels_remove st A goid : gmodels st A ->
  exists st', on_gl (sremove (getGoId goid)) st = (Ret tt, st') /\ gmodels st' (delete goid A).
Proof.
  intros H. destruct (sremove_ok _ _ (getGoId goid) H) as (c' & Hc & Hm). unfold on_gl.
  rewrite Hc. eexists. split; [done|]. unfold gmodels. by rewrite kmap_delete by apply _.
Qed.

Lemma gmodels_emit st A e : gmodels st A ->
  exists st', emit e st = (Ret tt, st') /\ gmodels st' A.
Proof. intros H. by eexists. Qed.

Lemma gmodels_debug st A msg : gmodels st A ->
  exists st', debug msg st = (Ret tt, st') /\ gmodels st' A.
Proof.
  intros H. unfold debug, mbind, M_bind, gets. destruct (log st); [by apply gmodels_emit|].
  by eexists.
Qed.

Lemma does_ext {B} goid (m : M (gstate C) B) f f' :
  does goid m f -> (forall o, f o = f' o) -> does goid m f'.
Proof. intros Hm Hf st A H. destruct (Hm _ _ H) as (st' & ? & ?). exists st'. by rewrite <- Hf. Qed.

Lemma does_keep {B} goid (m : M (gstate C) B) b :
  (forall st A, gmodels st A -> exists st', m st = (Ret b, st') /\ gmodels st' A) ->
  does goid m (fun o => (b, o)).
Proof.
  intros Hm st A H. destruct (Hm _ _ H) as (st' & ? & ?). exists st'. split; [done|].
  simpl. by rewrite partial_alter_self.
Qed.

Lemma does_ret {B} goid (b : B) : does goid (mret b) (fun o => (b, o)).
Proof. apply does_keep. intros st A H. by exists st. Qed.

Lemma does_bind {B B'} goid (m : M (gstate C) B) (k : B -> M (gstate C) B') f h :
  does goid m f -> (forall b, does goid (k b) (h b)) ->
  does goid (m ≫= k) (fun o => h (f o).1 (f o).2).
Proof.
  intros Hm Hk st A H. destruct (Hm _ _ H) as (st1 & H1 & HA1).
  destruct (Hk (f (A !! goid)).1 _ _ HA1) as (st2 & H2 & HA2). exists st2.
  unfold mbind, M_bind. rewrite H1, H2, lookup_partial_alter_eq in *. split; [done|].
  by rewrite partial_alter_partial_alter_eq in HA2.
Qed.

Lemma does_read goid : does goid (on_gl (sget (getGoId goid))) (fun o => (o, o)).
Proof.
  intros st A H. exists st. rewrite (gmodels_read _ _ _ H). split; [done|].
  simpl. by rewrite partial_alter_self.
Qed.

Lemma does_write goid cc : does goid (on_gl (sset (getGoId goid) cc)) (fun _ => (tt, Some cc)).
Proof. intros st A H. apply (gmodels_write _ _ goid cc H). Qed.

Lemma does_remove goid : does goid (on_gl (sremove (getGoId goid))) (fun _ => (tt, None)).
Proof. intros st A H. apply (gmodels_remove _ _ goid H). Qed.

Lemma does_debug goid msg : does goid (debug msg) (fun o => (tt, o)).
Proof. apply does_keep. intros. by apply gmodels_debug. Qed.

Lemma does_log goid e1 e2 :
  does goid (b ← gets log; if b : bool then emit e1 else emit e2) (fun o => (tt, o)).
Proof. apply does_keep. intros st A H. unfold mbind, M_bind, gets. by destruct (log st); eexists. Qed.

Lemma does_with_gl {B} goid (none : B) (k : glmap -> M (gstate C) B) h :
  (forall cc, does goid (k cc) (h cc)) ->
  does goid (with_gl goid none k)
    (fun o => match o with None => (none, None) | Some cc => h cc (Some cc) end).
Proof.
  intros Hk. eapply does_ext; [apply does_bind; [apply does_read|]|].
  - intros o. instantiate (1 := fun o => match o with None => fun o' => (none, o') | Some cc => h cc end).
    destruct o; [apply Hk|apply does_ret].
  - by intros [].
Qed.

Lemma does_seq {B} goid (m : M (gstate C) unit) (k : M (gstate C) B) F h :
  does goid m (fun o => (tt, F o)) -> does goid k h ->
  does goid (_ ← m; k) (fun o => h (F o)).
Proof.
  intros Hm Hk. eapply does_ext; [eapply (does_bind _ _ _ _ (fun _ => h)); [exact Hm|done]|done].
Qed.

(** The calls, one by one. *)
Lemma does_Init goid : does goid (Init goid) (fun _ => (tt, Some ∅)).
Proof.
  eapply does_ext.
  - eapply (does_bind _ _ _ _ (fun _ _ => (tt, Some ∅))); [apply does_read|intros o].
    destruct o; (eapply does_ext;
      [apply does_seq; [apply does_write|first [apply does_log | apply does_debug]]|done]).
  - done.
Qed.

Lemma does_Close goid : does goid (Close goid) (fun _ => (tt, None)).
Proof.
  eapply does_ext.
  - eapply (does_bind _ _ _ _ (fun o o' => (tt, match o with None => o' | Some _ => None end)));
      [apply does_read|intros o].
    destruct o; [|apply does_ret]. eapply does_ext.
    + apply does_seq; [apply does_write|]. apply does_seq; [apply does_remove|apply does_debug].
    + done.
  - by intros [].
Qed.

Lemma does_Incr goid k d :
  isI64 d -> does goid (Incr goid k d)
    (fun o => match o with
              | None => (-1, None)
              | Some cc => (default 0 (counter (cc !! k)),
                  Some (<[k := VInt64 (i64 (default 0 (counter (cc !! k)) + d))]> cc))
              end).
Proof.
  intros Hd. eapply does_ext.
  - apply (does_with_gl _ _ _ (fun cc _ => (default 0 (counter (cc !! k)),
       Some (<[k := VInt64 (i64 (default 0 (counter (cc !! k)) + d))]> cc)))).
    intros cc. destruct (cc !! k) as [[]|];
      (eapply does_ext; [apply does_seq; [apply does_write|apply does_ret]|]);
      intros o; cbn [counter default id]; rewrite ?Z.add_0_l, ?(i64_small d) by done; done.
  - done.
Qed.

Lemma does_Decr goid k d :
  does goid (Decr goid k d) (fun o => match o with
    | None => (-1, None)
    | Some cc => (default 0 (counter (cc !! k)),
        Some (<[k := VInt64 (i64 (default 0 (counter (cc !! k)) + - d))]> cc))
    end).
Proof.
  eapply does_ext.
  - apply (does_with_gl _ _ _ (fun cc _ => (default 0 (counter (cc !! k)),
       Some (<[k := VInt64 (i64 (default 0 (counter (cc !! k)) + - d))]> cc)))).
    intros cc. destruct (cc !! k) as [[]|];
      (eapply does_ext; [apply does_seq; [apply does_write|apply does_ret]|]); done.
  - done.
Qed.

Lemma does_local_write goid (F : glmap -> glmap) :
  does goid (with_gl goid tt (fun cc => write goid (F cc))) (fun o => (tt, F <$> o)).
Proof.
  eapply does_ext; [apply (does_with_gl _ _ _ (fun cc _ => (tt, Some (F cc))))|].
  - intros cc. apply does_write.
  - by intros [].
Qed.

Lemma does_pure {B} goid (none : B) (F : glmap -> B) :
  does goid (with_gl goid none (fun cc => mret (F cc)))
    (fun o => (match o with None => none | Some cc => F cc end, o)).
Proof.
  eapply does_ext; [apply (does_with_gl _ _ _ (fun cc o => (F cc, o))); intros cc; apply does_ret|].
  by intros [].
Qed.

Lemma does_dump {B} goid (none : B) msg (F : glmap -> B) :
  does goid (with_gl goid none (fun cc => _ ← debug msg; mret (F cc)))
    (fun o => (match o with None => none | Some cc => F cc end, o)).
Proof.
  eapply does_ext; [apply (does_with_gl _ _ _ (fun cc o => (F cc, o))); intros cc|].
  - eapply does_ext; [apply does_seq; [apply does_debug|apply does_ret]|done].
  - by intros [].
Qed.

Lemma does_Exist goid : does goid (Exist goid) (fun o => (bool_decide (is_Some o), o)).
Proof.
  eapply does_ext.
  - eapply (does_bind _ _ _ _ (fun b o => (bool_decide (is_Some b), o))); [apply does_read|].
    intros o. apply does_ret.
  - done.
Qed.

(** [BatchGet]'s loop is a filter. *)
Lemma BatchGet_loop (cc : glmap) ks :
  foldl (fun ret k => match cc !! k with Some v => <[k := v]> ret | None => ret end) (∅ : glmap) ks
  = filter (fun kv => kv.1 ∈ ks) cc.
Proof.
  apply map_eq. intros k.
  assert (forall ret : glmap,
    foldl (fun ret k => match cc !! k with Some v => <[k := v]> ret | None => ret end) ret ks !! k
    = if decide (k ∈ ks) then match cc !! k with Some v => Some v | None => ret !! k end
      else ret !! k) as ->.
  { induction ks as [|k' ks IH]; intros ret; [by rewrite decide_False by apply not_elem_of_nil|].
    cbn [foldl]. rewrite IH. destruct (decide (k = k')) as [<-|Hne].
    - rewrite (decide_True (P := k ∈ k :: ks)) by apply list_elem_of_here.
      destruct (cc !! k); [rewrite lookup_insert_eq|]; by destruct (decide _).
    - destruct (decide (k ∈ ks)), (decide (k ∈ k' :: ks)); destruct (cc !! k'), (cc !! k);
        rewrite ?lookup_insert_ne by done; set_solver. }
  rewrite map_lookup_filter, lookup_empty. destruct (decide (k ∈ ks)) as [Hk|Hk].
  - destruct (cc !! k); simpl; [|done]. by rewrite option_guard_True.
  - destruct (cc !! k); simpl; [|done]. by rewrite option_guard_False.
Qed.

Lemma does_copy_entry goid k v :
  val_ok v ->
  does goid (copy_entry goid k v)
    (fun o => (tt, (fun cc : glmap => <[KStr k := copy_val k (cc !! KStr k) v]> cc) <$> o)).
Proof.
  intros Hv. unfold copy_entry, Set_.
  assert (does goid (with_gl goid tt (fun cc => write goid (<[KStr k := v]> cc)))
    (fun o => (tt, insert (KStr k) v <$> o))) as Hset by apply does_local_write.
  destruct (contains "cost" k) eqn:Hc; [|eapply does_ext; [exact Hset|]].
  - destruct v as [|a|z|w|t]; try (eapply does_ext; [exact Hset|]; intros [cc|]; done).
    eapply does_ext.
    + eapply (does_bind _ _ _ _ (fun _ o => (tt, o))); [by apply does_Incr, Hv|].
      intros ?. apply does_ret.
    + intros [cc|]; [|done]. cbn [fst snd fmap option_fmap option_map]. unfold copy_val.
      rewrite Hc. destruct (counter (cc !! KStr k)) as [c|]; [done|].
      simpl. by rewrite Z.add_0_l, i64_small by (by apply Hv).
  - intros [cc|]; [|done]. cbn [fmap option_fmap option_map]. unfold copy_val. rewrite Hc.
    by destruct v, (counter (cc !! KStr k)).
Qed.

Definition copy_step (cc : glmap) (kv : string * value) : glmap :=
  <[KStr kv.1 := copy_val kv.1 (cc !! KStr kv.1) kv.2]> cc.

Lemma does_copy_loop goid l :
  Forall (fun kv => val_ok kv.2) l ->
  does goid (copy_loop goid l) (fun o => (tt, (fun cc => foldl copy_step cc l) <$> o)).
Proof.
  induction 1 as [|[k v] l Hv Hl IH]; simpl.
  - eapply does_ext; [apply does_ret|]. by intros [].
  - eapply does_ext; [apply does_seq; [by apply does_copy_entry|exact IH]|]. by intros [].
Qed.

Lemma lookup_kmap_KInt {B} (m : gmap string B) z : (kmap KStr m : gmap key B) !! KInt z = None.
Proof. apply (lookup_kmap_None KStr). intros k. discriminate. Qed.

Lemma copy_merge_KStr (j : gmap string value) cc k :
  copy_merge j cc !! KStr k =
    match j !! k with Some v => Some (copy_val k (cc !! KStr k) v) | None => cc !! KStr k end.
Proof.
  unfold copy_merge. rewrite lookup_union, (lookup_kmap KStr), map_lookup_imap by apply _.
  destruct (j !! k); simpl; by destruct (cc !! KStr k).
Qed.

Lemma copy_merge_KInt (j : gmap string value) cc z : copy_merge j cc !! KInt z = cc !! KInt z.
Proof.
  unfold copy_merge. rewrite lookup_union, lookup_kmap_KInt. by destruct (cc !! KInt z).
Qed.

Lemma foldl_copy l cc : NoDup l.*1 -> foldl copy_step cc l = copy_merge (list_to_map l) cc.
Proof.
  revert cc. induction l as [|[k v] l IH]; intros cc Hnd; simpl.
  - apply map_eq. intros [k|z]; [by rewrite copy_merge_KStr, lookup_empty|by rewrite copy_merge_KInt].
  - apply NoDup_cons in Hnd as [Hk Hnd]. rewrite IH by done. apply map_eq.
    unfold copy_step. cbn [fst snd].
    intros [k'|z]; [rewrite !copy_merge_KStr|by rewrite !copy_merge_KInt, lookup_insert_ne].
    destruct (decide (k' = k)) as [->|Hne].
    + rewrite not_elem_of_list_to_map_1 by done. by rewrite !lookup_insert_eq.
    + rewrite !lookup_insert_ne by congruence. done.
Qed.

Lemma does_CopyGlData goid (j : J) :
  map_Forall (fun _ v => val_ok v) (MustMap j) ->
  does goid (CopyGlData goid j) (fun o => (tt, copy_merge (MustMap j) <$> o)).
Proof.
  intros Hj. eapply does_ext; [apply does_copy_loop|].
  - apply Forall_forall. intros [k v] Hin. apply elem_of_map_to_list in Hin. by eapply Hj.
  - intros [cc|]; [|done]. cbn [fmap option_fmap option_map]. do 3 f_equal.
    by rewrite foldl_copy, list_to_map_to_list by apply NoDup_fst_map_to_list.
Qed.

Lemma does_result {B} goid (m : M (gstate C) B) (w : B -> res J) f :
  does goid m f -> does goid (x ← m; mret (w x)) (fun o => (w (f o).1, (f o).2)).
Proof.
  intros Hm. eapply does_ext.
  - eapply (does_bind _ _ _ _ (fun x o => (w x, o))); [exact Hm|]. intros x. apply does_ret.
  - done.
Qed.

Lemma quot_ms_I64 z : isI64 z -> isI64 (Z.quot z Millisecond).
Proof.
  unfold isI64, minInt64, maxInt64, Millisecond. intros Hz.
  pose proof (Z.quot_rem' z 1000000). pose proof (Z.rem_bound_abs z 1000000).
  Z.to_euclidean_division_equations. lia.
Qed.

Lemma do_op_ok goid c : op_ok c -> does goid (do_op goid c) (l_op c).
Proof.
  intros Hc. destruct c; cbn [do_op op_ok] in *.
  all: try (eapply does_ext; [apply does_result|];
    [first [apply does_Init | apply does_Close | apply does_Exist | apply does_local_write
           | apply does_pure | by apply does_Incr | apply does_Decr | by apply does_Incr, quot_ms_I64
           | apply does_dump | by apply does_CopyGlData]|]).
  all: try done.
  all: intros [cc|]; cbn; rewrite ?BatchGet_loop; try done.
Qed.

Lemma run_history_ok h st A : gmodels st A -> Forall (fun gc => op_ok gc.2) h ->
  exists rs st', run_history h st = (Ret rs, st') /\ rs.*1 = h.*1 /\
    forall g, (filter (fun gr => gr.1 = g) rs).*2 = l_run (filter (fun gc => gc.1 = g) h).*2 (A !! g).
Proof.
  revert st A. induction h as [|[g0 c] h IH]; intros st A HA Hh.
  { exists [], st. done. }
  apply Forall_cons in Hh as [Hc Hh]. destruct (do_op_ok g0 c Hc st A HA) as (st1 & H1 & HA1).
  destruct (IH _ _ HA1 Hh) as (rs & st2 & H2 & Hf & Hr).
  exists ((g0, (l_op c (A !! g0)).1) :: rs), st2. split_and!.
  - cbn [run_history]. unfold mbind, M_bind in *. rewrite H1. by rewrite H2.
  - cbn [fmap list_fmap fst]. by f_equal.
  - intros g. rewrite !filter_cons. cbn [fst]. destruct (decide (g0 = g)) as [->|Hne].
    + cbn [fmap list_fmap snd l_run]. rewrite Hr, lookup_partial_alter_eq. done.
    + by rewrite Hr, lookup_partial_alter_ne.
Qed.
End refinement.

(** ** Properties of the package *)

Definition new_gl (logger : bool) : gstate (ConcurrentMap glmap) :=
  mkG snew logger [].

Lemma new_gl_models logger : gmodels (new_gl logger) ∅.
Proof. unfold gmodels. rewrite kmap_empty. apply snew_ok. Qed.

(** C7 Goroutine-local data is local: in any interleaving of calls by any number
    of goroutines on the 1024-shard map, no call panics and each goroutine reads
    exactly what its own calls, taken alone, produce on a private map. *)
Theorem goroutines_isolated (logger : bool) (h : list (Z * op (gmap string value))) :
  Forall (fun gc => op_ok gc.2) h ->
  exists rs st, run_history h (new_gl logger) = (Ret rs, st) /\ rs.*1 = h.*1 /\
    forall g, (filter (fun gr => gr.1 = g) rs).*2 = l_run (filter (fun gc => gc.1 = g) h).*2 None.
Proof.
  intros Hh. destruct (run_history_ok h _ _ (new_gl_models logger) Hh) as (rs & st & H1 & H2 & H3).
  exists rs, st. split_and!; [done..|]. intros g. by rewrite H3, lookup_empty.
Qed.

Lemma goroutines_isolated_witness :
  let h := [(1, OInit); (7, OInit); (1, OIncr (KStr "a_count") 2); (7, OIncr (KStr "a_count") 5);
            (1, OIncr (KStr "a_count") 3); (7, OClose); (1, OGet (KStr "a_count"))] in
  exists rs st, run_history h (new_gl true) = (Ret rs, st) /\ rs.*1 = h.*1 /\
    forall g, (filter (fun gr => gr.1 = g) rs).*2 = l_run (filter (fun gc => gc.1 = g) h).*2 None.
Proof. apply goroutines_isolated. repeat constructor; done. Defined.

Example gl_demo :
  (fun r => match r with Ret l => l | _ => [] end)
    (outcome_of (run_history (J := gmap string value)
      [(1, OInit); (1, OIncr (KStr "n") maxInt64); (2, OIncr (KStr "n") 1); (1, OIncr (KStr "n") 1);
       (1, OGet (KStr "n"))]) (new_gl false))
  = [(1, RUnit); (1, RInt 0); (2, RInt (-1)); (1, RInt maxInt64); (1, RVal (Some (VInt64 minInt64)))].
Proof. vm_compute. reflexivity. Qed.

Section transfer.
Context {C : Type} `{!StrStore C glmap} {J : Type} `{!SimpleJson J}.

(** Carrying the caller's data into another goroutine, as the clients do. *)
Definition transfer (g g' : Z) : M (gstate C) unit :=
  j ← GetGlData (J := J) g; _ ← Init g'; CopyGlData g' j.

Lemma MustMap_json_loop l (j : J) :
  MustMap (json_loop false l j) =
    foldl (fun (m : gmap string value) kv => <[kStr kv.1 := json_entry kv]> m) (MustMap j) l.
Proof.
  revert j. induction l as [|kv l IH]; intros j; [done|].
  cbn [json_loop foldl andb]. unfold json_loop in IH. rewrite IH.
  cbn [andb]. by rewrite MustMap_Set.
Qed.

Lemma foldl_insert_lookup (l : list (key * value)) (m : gmap string value) k :
  NoDup (map (fun kv => kStr kv.1) l) ->
  foldl (fun (m : gmap string value) kv => <[kStr kv.1 := json_entry kv]> m) m l !! k =
    match list_find (fun kv => kStr kv.1 = k) l with
    | Some (_, kv) => Some (json_entry kv)
    | None => m !! k
    end.
Proof.
  revert m. induction l as [|kv l IH]; intros m Hnd; [done|].
  cbn [map] in Hnd. apply NoDup_cons in Hnd as [Hk Hnd]. cbn [foldl list_find].
  rewrite IH by done. destruct (decide (kStr kv.1 = k)) as [<-|Hne].
  - destruct (list_find _ l) as [[i kv']|] eqn:E.
    + apply list_find_Some in E as (Hi & He & _). destruct Hk. rewrite <- He.
      apply list_elem_of_fmap. exists kv'. split; [done|]. by eapply list_elem_of_lookup_2.
    + by rewrite lookup_insert_eq.
  - rewrite lookup_insert_ne by done. by destruct (list_find _ l) as [[i kv']|].
Qed.

Lemma json_of_strings (m : gmap string value) :
  map_Forall (fun _ v => isPtrOrInterface v = false) m ->
  MustMap (json_loop false (map_to_list (kmap KStr m : glmap)) (js_New : J)) = m.
Proof.
  intros Hm. rewrite MustMap_json_loop, MustMap_New. apply map_eq. intros k.
  assert (forall kv, kv ∈ map_to_list (kmap KStr m : glmap) ->
    exists s, kv.1 = KStr s /\ m !! s = Some kv.2) as Hkv.
  { intros [k' v] Hin. apply elem_of_map_to_list in Hin.
    apply (lookup_kmap_Some KStr) in Hin as (s & -> & Hs). by exists s. }
  rewrite foldl_insert_lookup.
  - destruct (list_find _ _) as [[i kv]|] eqn:E.
    + apply list_find_Some in E as (Hi & He & _). apply list_elem_of_lookup_2 in Hi.
      destruct (Hkv _ Hi) as (s & Hs & Hms). destruct kv as [k' v]. cbn in *. subst k' k.
      cbn. unfold json_entry. cbn. rewrite Hms. by rewrite (Hm _ _ Hms).
    + rewrite lookup_empty. symmetry. destruct (m !! k) as [v|] eqn:Ek; [|done].
      apply list_find_None in E. rewrite Forall_forall in E.
      destruct (E (KStr k, v)); [|done]. apply elem_of_map_to_list.
      apply (lookup_kmap_Some KStr). by exists k.
  - assert (NoDup (map_to_list (kmap KStr m : glmap)).*1) as Hnd by apply NoDup_fst_map_to_list.
    revert Hnd Hkv. generalize (map_to_list (kmap KStr m : glmap)). intros l.
    induction l as [|[k' v] l IH]; intros Hnd Hkv; [constructor|].
    cbn in *. apply NoDup_cons in Hnd as [Hk Hnd]. constructor.
    + intros ((k2 & v2) & He & Hin)%list_elem_of_fmap. cbn in *.
      destruct (Hkv (k', v)) as (s & Hs & _); [by left|].
      destruct (Hkv (k2, v2)) as (s2 & Hs2 & _); [by right|]. cbn in *. subst. cbn in *. subst.
      destruct Hk. apply list_elem_of_fmap. by exists (KStr s2, v2).
    + apply IH; [done|]. intros kv Hin. apply Hkv. by right.
Qed.

Lemma copy_merge_empty (m : gmap string value) : copy_merge m ∅ = kmap KStr m.
Proof.
  apply map_eq. intros [k|z].
  - rewrite copy_merge_KStr, lookup_empty, (lookup_kmap KStr). destruct (m !! k) as [[]|]; done.
  - by rewrite copy_merge_KInt, lookup_kmap_KInt.
Qed.

(** Data survives the hand-over to another goroutine: when a goroutine holds
    string-keyed data without pointers, [GetGlData] there followed by [Init] and
    [CopyGlData] elsewhere leaves the other goroutine with the same map, and the
    first one and all the others unchanged. *)
Theorem transfer_copies (st : gstate C) (A : gmap Z glmap) g g' (m : gmap string value) :
  gmodels st A -> A !! g = Some (kmap KStr m) ->
  map_Forall (fun _ v => isPtrOrInterface v = false /\ val_ok v) m ->
  exists st', transfer g g' st = (Ret tt, st') /\ gmodels st' (<[g' := kmap KStr m]> A).
Proof.
  intros HA Hg Hm.
  assert (map_Forall (fun _ v => isPtrOrInterface v = false) m) as Hp
    by (eapply map_Forall_impl; [exact Hm|]; naive_solver).
  assert (map_Forall (fun _ v => val_ok v) m) as Hv
    by (eapply map_Forall_impl; [exact Hm|]; naive_solver).
  destruct (does_dump g (js_Set "_info" (VStr "no gl") js_New) ("json gl " +:+ getGoId g)
    (fun gl => json_loop false (map_to_list gl) js_New) st A HA) as (st1 & H1 & HA1).
  rewrite Hg in H1, HA1. cbn [fst snd] in H1, HA1.
  rewrite <- Hg, partial_alter_self in HA1.
  destruct (does_Init g' st1 A HA1) as (st2 & H2 & HA2).
  destruct (does_CopyGlData (J := J) g' (json_loop false (map_to_list (kmap KStr m)) js_New)) with
    (st := st2) (A := <[g' := ∅ : glmap]> A) as (st3 & H3 & HA3); [by rewrite json_of_strings|done|].
  exists st3. unfold transfer, mbind, M_bind. change (GetGlData g st = (Ret (json_loop false
    (map_to_list (kmap KStr m : glmap)) js_New), st1)) in H1. rewrite H1, H2.
  split; [exact H3|]. revert HA3. rewrite lookup_insert_eq. cbn [fst snd fmap option_fmap option_map].
  rewrite json_of_strings, copy_merge_empty by done.
  rewrite <- (insert_insert_eq A g' (kmap KStr m) ∅). done.
Qed.
End transfer.

Lemma transfer_copies_witness :
  exists (st st' : gstate (ConcurrentMap glmap)) (A : gmap Z glmap),
    A !! 1 = Some (kmap KStr ({["a" := VStr "x"]} : gmap string value)) /\
    transfer (J := gmap string value) 1 2 st = (Ret tt, st') /\
    gmodels st' (<[2 := kmap KStr {["a" := VStr "x"]}]> A).
Proof.
  destruct (gmodels_write (new_gl true) ∅ 1 (kmap KStr ({["a" := VStr "x"]} : gmap string value))
    (new_gl_models true)) as (st & _ & Hst).
  destruct (transfer_copies (J := gmap string value) st
    (<[1 := kmap KStr ({["a" := VStr "x"]} : gmap string value)]> ∅) 1 2 {["a" := VStr "x"]})
    as (st' & H & H'); [done|done|by apply map_Forall_singleton|].
  by exists st, st', (<[1 := kmap KStr ({["a" := VStr "x"]} : gmap string value)]> ∅).
Defined.

End Gl.
