(* ===== verification/DlogFormat.v ===== *)
(** * Log records and their text ([dlog/pattlog.go], levels of [dlog/log4go.go])

    The text of a record follows a format with codes such as [%T].  The texts of
    its date and time are kept in a cache that is renewed when the second changes:
    the cache is the state of the formatting operations. *)

From S2P Require Import Prelude GoStd GoStrings GoTime.
Import GoStd GoStrings GoTime.

Module DlogFormat.

(** ** Levels and records *)

Definition FINEST : Z := 0.
Definition FINE : Z := 1.
Definition DEBUG : Z := 2.
Definition TRACE : Z := 3.
Definition INFO : Z := 4.
Definition WARNING : Z := 5.
Definition ERROR : Z := 6.
Definition CRITICAL : Z := 7.

(* [dlog/log4go.go:71-87] Level, levelStrings *)
Definition levelStrings : list string :=
  ["FNST"; "FINE"; "DEBUG"; "TRACE"; "INFO"; "WARN"; "ERROR"; "FATAL"].

(* [dlog/log4go.go:89-94] Level.String *)
Definition Level_String {S} (l : Z) : M S string :=
  if (l <? 0) || (len levelStrings <? l) then mret "UNKNOWN" else index levelStrings l.

(* [dlog/log4go.go:106-116] LogRecord *)
Record LogRecord : Type := mkRecord {
  Level : Z; Created : Time; Source : string; Message : string;
  Tag : string; Ip : string; LogId : string; Url : string
}.

(** ** Formats *)

(* [dlog/pattlog.go:16-20] FORMAT_DEFAULT, FORMAT_SHORT, FORMAT_ABBREV *)
Definition FORMAT_DEFAULT : string := "[%D %T] [%L] (%S) %M".
Definition FORMAT_SHORT : string := "[%t %d] [%L] %M".
Definition FORMAT_ABBREV : string := "[%L] %M".

(* [dlog/pattlog.go:22-26] formatCacheType *)
Record formatCacheType : Type := mkCache {
  LastUpdateSeconds : Z; shortTime : string; shortDate : string; longTime : string; longDate : string
}.

Definition new_cache : formatCacheType := mkCache 0 EmptyString EmptyString EmptyString EmptyString.

Definition seconds (rec : LogRecord) : Z := Z.quot (UnixNano (Created rec)) Second.

Definition clock_text (t : Time) (milliseconds : Z) : string :=
  zero_pad 2 (Hour t) +:+ ":" +:+ zero_pad 2 (Minute t) +:+ ":" +:+ zero_pad 2 (second t) +:+ "." +:+
  zero_pad 3 milliseconds.

Definition milliseconds (t : Time) : Z := Z.quot (Nanosecond t) 1000000.

(* [dlog/pattlog.go:54-69] FormatLogRecord, the texts of a new second *)
Definition updated_cache (rec : LogRecord) : formatCacheType :=
  let t := Created rec in
  mkCache (seconds rec)
    (zero_pad 2 (Hour t) +:+ ":" +:+ zero_pad 2 (Minute t))
    (zero_pad 2 (Day t) +:+ "/" +:+ zero_pad 2 (Month t) +:+ "/" +:+ zero_pad 2 (Z.rem (Year t) 100))
    (clock_text t (milliseconds t))
    (zero_pad 4 (Year t) +:+ zero_pad 2 (Month t) +:+ zero_pad 2 (Day t)).

Definition or_default (s d : string) : string :=
  match s with EmptyString => d | _ => s end.

(** The last element of a list that [strings.Split] returned. *)
Definition last_piece (l : list string) : string := default EmptyString (last l).

(** What a code stands for; unknown codes for nothing. *)
(* [dlog/pattlog.go:77-115] FormatLogRecord, one code *)
Definition code_text {S} (cache : formatCacheType) (rec : LogRecord) (code : ascii) : M S string :=
  match code with
  | "T" => mret (longTime cache)
  | "t" => mret (shortTime cache)
  | "D" => mret (longDate cache)
  | "d" => mret (shortDate cache)
  | "L" => index levelStrings (Level rec)
  | "S" => mret (Source rec)
  | "s" => mret (last_piece (split "/" (Source rec)))
  | "M" => mret (Message rec)
  | "c" => mret (itoa (seconds rec))
  | "G" => mret (or_default (Tag rec) "NONE")
  | "I" => mret (or_default (Ip rec) "127.0.0.1")
  | "l" => mret (or_default (LogId rec) "NONE")
  | _ => mret EmptyString
  end%char.

(** The pieces after the first one. *)
(* [dlog/pattlog.go:75-122] FormatLogRecord, the loop *)
Fixpoint format_pieces {S} (cache : formatCacheType) (rec : LogRecord) (pieces : list string) : M S string :=
  match pieces with
  | [] => mret EmptyString
  | EmptyString :: pieces => format_pieces cache rec pieces
  | String code rest :: pieces =>
      text ← code_text cache rec code;
      out ← format_pieces cache rec pieces;
      mret (text +:+ rest +:+ out)
  end.

Definition newline : string := String "010" EmptyString.

(** A nil record is [None]. *)
(* [dlog/pattlog.go:43-126] FormatLogRecord *)
Definition FormatLogRecord (format : string) (rec : option LogRecord) : M formatCacheType string :=
  match rec with
  | None => mret "<nil>"
  | Some rec =>
      match format with
      | EmptyString => mret EmptyString
      | _ =>
          cache ← get;
          let cache := if LastUpdateSeconds cache =? seconds rec then cache else updated_cache rec in
          _ ← put cache;
          match split "%" format with
          | [] => mret newline
          | first :: pieces =>
              out ← format_pieces cache rec pieces;
              mret (first +:+ out +:+ newline)
          end
      end
  end.

(** ** A record formatted by reading its format once

    The reference: no cache, no pieces.  A percent sign before another one, or at
    the end, stands for nothing. *)

Definition level_text (l : Z) : string := default EmptyString (levelStrings !! Z.to_nat l).

(** What a code shows of a record, its time with the given milliseconds. *)
Definition shown (ms : Z) (rec : LogRecord) (code : ascii) : string :=
  let t := Created rec in
  match code with
  | "T" => clock_text t ms
  | "t" => zero_pad 2 (Hour t) +:+ ":" +:+ zero_pad 2 (Minute t)
  | "D" => zero_pad 4 (Year t) +:+ zero_pad 2 (Month t) +:+ zero_pad 2 (Day t)
  | "d" => zero_pad 2 (Day t) +:+ "/" +:+ zero_pad 2 (Month t) +:+ "/" +:+ zero_pad 2 (Z.rem (Year t) 100)
  | "L" => level_text (Level rec)
  | "S" => Source rec
  | "s" => last_piece (split "/" (Source rec))
  | "M" => Message rec
  | "c" => itoa (seconds rec)
  | "G" => or_default (Tag rec) "NONE"
  | "I" => or_default (Ip rec) "127.0.0.1"
  | "l" => or_default (LogId rec) "NONE"
  | _ => EmptyString
  end%char.

Fixpoint render (show : ascii -> string) (format : string) : string :=
  match format with
  | EmptyString => EmptyString
  | String a f' =>
      if Ascii.eqb a "%" then
        match f' with
        | EmptyString => EmptyString
        | String code f'' => if Ascii.eqb code "%" then render show f' else show code +:+ render show f''
        end
      else String a (render show f')
  end.

Definition line (ms : Z) (format : string) (rec : LogRecord) : string :=
  render (shown ms rec) format +:+ newline.

Definition level_ok (rec : LogRecord) : Prop := 0 <= Level rec < 8.

(** The cache holds the texts of [rec]'s second, with [ms] milliseconds. *)
Definition holds (ms : Z) (rec : LogRecord) (cache : formatCacheType) : Prop :=
  forall S code (s : S), level_ok rec -> code_text cache rec code s = (Ret (shown ms rec code), s).

Lemma level_index {S} l (s : S) : 0 <= l < 8 -> index levelStrings l s = (Ret (level_text l), s).
Proof.
  intros H. assert (l = 0 \/ l = 1 \/ l = 2 \/ l = 3 \/ l = 4 \/ l = 5 \/ l = 6 \/ l = 7) as E by lia.
  by destruct E as [->|[->|[->|[->|[->|[->|[->| ->]]]]]]].
Qed.

Lemma holds_texts ms rec cache :
  longTime cache = clock_text (Created rec) ms -> shortTime cache = shortTime (updated_cache rec) ->
  longDate cache = longDate (updated_cache rec) -> shortDate cache = shortDate (updated_cache rec) ->
  holds ms rec cache.
Proof.
  intros H1 H2 H3 H4 S code s Hl.
  destruct code as [[] [] [] [] [] [] [] []]; try reflexivity;
    cbn [code_text shown]; rewrite ?H1, ?H2, ?H3, ?H4; try reflexivity; by apply level_index.
Qed.

(** Every piece that [split] makes starts with what was collected before. *)
Lemma split_loop_cur sep f cur : exists piece pieces,
  split_loop sep f EmptyString = piece :: pieces /\ split_loop sep f cur = (cur +:+ piece) :: pieces.
Proof.
  revert cur. induction f as [|a f IH]; intros cur; cbn [split_loop].
  - exists EmptyString, []. by rewrite string_app_nil.
  - destruct (Ascii.eqb a sep).
    + exists EmptyString, (split_loop sep f EmptyString). by rewrite string_app_nil.
    + destruct (IH (String a EmptyString)) as (p & ps & H1 & H2).
      destruct (IH (cur +:+ String a EmptyString)) as (p' & ps' & H1' & H3).
      rewrite H1 in H1'. injection H1' as <- <-.
      eexists _, ps. split; [exact H2|]. by rewrite H3, string_app_assoc.
Qed.

(** Pieces are rendered as the format they are cut from, with or without a percent
    sign before it. *)
Lemma pieces_render {S} ms rec cache f (s : S) : level_ok rec -> holds ms rec cache ->
  exists piece pieces out, split "%" f = piece :: pieces /\
    format_pieces cache rec pieces s = (Ret out, s) /\ piece +:+ out = render (shown ms rec) f /\
    format_pieces cache rec (piece :: pieces) s = (Ret (render (shown ms rec) (String "%" f)), s).
Proof.
  intros Hl Hh. unfold split. induction f as [|a f (p & ps & out & Hs & Hf & Ho & Hp)].
  { by exists EmptyString, [], EmptyString. }
  cbn [split_loop]. destruct (Ascii.eqb_spec a "%") as [->|Ha].
  - rewrite Hs. exists EmptyString, (p :: ps). eexists. split; [done|]. split; [exact Hp|]. by split.
  - change (EmptyString +:+ String a EmptyString) with (String a EmptyString).
    destruct (split_loop_cur "%" f (String a EmptyString)) as (p' & ps' & H1 & ->).
    rewrite Hs in H1. injection H1 as <- <-. exists (String a p), ps, out. apply Ascii.eqb_neq in Ha.
    split; [done|]. split; [done|]. cbn [render]. rewrite Ha, <- Ho. split; [done|].
    cbn [format_pieces]. unfold mbind, M_bind. rewrite (Hh S a s Hl), Hf.
    reflexivity.
Qed.

Lemma FormatLogRecord_cached ms format rec cache : level_ok rec -> format ≠ EmptyString ->
  let cache' := if LastUpdateSeconds cache =? seconds rec then cache else updated_cache rec in
  holds ms rec cache' ->
  FormatLogRecord format (Some rec) cache = (Ret (line ms format rec), cache').
Proof.
  intros Hl Hf cache' Hh. unfold FormatLogRecord. destruct format as [|a f]; [done|].
  unfold mbind, M_bind, get, put. fold cache'.
  destruct (pieces_render ms rec cache' (String a f) cache' Hl Hh) as (p & ps & out & -> & Hp & Ho & _).
  cbv zeta. rewrite Hp. unfold line. rewrite <- Ho, string_app_assoc. reflexivity.
Qed.

(** ** Many records through one cache *)

Fixpoint format_all (l : list (string * LogRecord)) : M formatCacheType (list string) :=
  match l with
  | [] => mret []
  | (format, rec) :: l =>
      s ← FormatLogRecord format (Some rec);
      rest ← format_all l;
      mret (s :: rest)
  end.

(** Every line shows the milliseconds of the first record of a run of records of
    the same second. *)
Fixpoint lines (first : option LogRecord) (l : list (string * LogRecord)) : list string :=
  match l with
  | [] => []
  | (format, rec) :: l =>
      let a := match first with Some a => if seconds a =? seconds rec then a else rec | None => rec end in
      line (milliseconds (Created a)) format rec :: lines (Some a) l
  end.

(** Created after 1970 in one location. *)
Definition dated (zone : Z) (rec : LogRecord) : Prop :=
  Second <= UnixNano (Created rec) /\ offset (Created rec) = zone.

Lemma seconds_div rec zone : dated zone rec -> seconds rec = UnixNano (Created rec) / Second.
Proof. intros [H _]. unfold seconds. apply Z.quot_div_nonneg; [|done]. unfold Second, Millisecond in *. lia. Qed.

Lemma updated_same zone a rec : dated zone a -> dated zone rec -> seconds a = seconds rec ->
  holds (milliseconds (Created a)) rec (updated_cache a).
Proof.
  intros Ha Hr Hs. assert (local_second (Created a) = local_second (Created rec)) as Hl.
  { apply same_second; [by rewrite <- !(seconds_div _ zone)|]. by destruct Ha as [_ ->], Hr as [_ ->]. }
  assert (day_second (Created a) = day_second (Created rec)) as Hd by (unfold day_second; by rewrite Hl).
  assert (local_day (Created a) = local_day (Created rec)) as Hday by (unfold local_day; by rewrite Hl).
  apply holds_texts; cbn [updated_cache longTime shortTime longDate shortDate];
    unfold clock_text, Hour, Minute, second, Year, Month, Day; by rewrite ?Hd, ?Hday.
Qed.

Definition caches (first : option LogRecord) (cache : formatCacheType) : Prop :=
  match first with Some a => cache = updated_cache a | None => LastUpdateSeconds cache = 0 end.

(** The record whose time the cache holds once [rec] is formatted. *)
Definition anchor (first : option LogRecord) (rec : LogRecord) : LogRecord :=
  match first with Some a => if seconds a =? seconds rec then a else rec | None => rec end.

Lemma FormatLogRecord_anchor zone first cache format rec : caches first cache ->
  (forall a, first = Some a -> dated zone a) -> format ≠ EmptyString -> dated zone rec -> level_ok rec ->
  FormatLogRecord format (Some rec) cache =
    (Ret (line (milliseconds (Created (anchor first rec))) format rec), updated_cache (anchor first rec)) /\
  dated zone (anchor first rec).
Proof.
  intros Hc Hd Hf Hr Hl. set (a := anchor first rec).
  assert (dated zone a) as Hda.
  { unfold a, anchor. destruct first as [b|]; [|done]. destruct (_ =? _); [by apply Hd|done]. }
  assert ((if LastUpdateSeconds cache =? seconds rec then cache else updated_cache rec) = updated_cache a /\
          seconds a = seconds rec) as [Hcache Hs].
  { unfold a, anchor. destruct first as [b|]; simpl in Hc.
    - subst cache. cbn [updated_cache LastUpdateSeconds]. by destruct (Z.eqb_spec (seconds b) (seconds rec)).
    - rewrite Hc. destruct (Z.eqb_spec 0 (seconds rec)) as [E|]; [|done]. exfalso.
      rewrite (seconds_div _ zone Hr) in E. destruct Hr as [Hr _].
      unfold Second, Millisecond in *. Z.to_euclidean_division_equations; lia. }
  split; [|done]. rewrite (FormatLogRecord_cached (milliseconds (Created a))); [by rewrite Hcache|done|done|].
  rewrite Hcache. by apply (updated_same zone).
Qed.

Lemma format_all_lines zone l first cache : caches first cache ->
  (forall a, first = Some a -> dated zone a) ->
  Forall (fun fr => fr.1 ≠ EmptyString /\ dated zone fr.2 /\ level_ok fr.2) l ->
  (format_all l cache).1 = Ret (lines first l).
Proof.
  revert first cache. induction l as [|[format rec] l IH]; intros first cache Hc Hd; [done|].
  intros [(Hf & Hr & Hl) Hall]%Forall_cons. cbn [fst snd] in *.
  destruct (FormatLogRecord_anchor zone first cache format rec) as [Hrec Ha]; [done..|].
  cbn [format_all lines]. fold (anchor first rec). cbv zeta. unfold mbind, M_bind. rewrite Hrec.
  specialize (IH (Some (anchor first rec)) (updated_cache (anchor first rec))).
  destruct (format_all l (updated_cache (anchor first rec))) as [r c'] eqn:E.
  cbn in IH. rewrite IH; [done|done| |done]. by intros ? [= <-].
Qed.

(** ** What the text of a record is *)

(** C18 A writer formats the records it takes one after another with one cache.
    Whatever the formats, each line is the record rendered by reading its format
    once: every code is replaced by the record's own field, date or time, except
    that the milliseconds of [%T] are those of the first record of the current
    second: the cache is renewed when the second changes only.  For records of
    after 1970 in one location with one of the eight levels. *)
Theorem lines_rendered zone l : Forall (fun fr => fr.1 ≠ EmptyString /\ dated zone fr.2 /\ level_ok fr.2) l ->
  (format_all l new_cache).1 = Ret (lines None l).
Proof. by apply format_all_lines. Qed.

(** The bound in [String] lets the level after the last one through. *)
Lemma Level_String_cases {S} (l : Z) (s : S) :
  outcome_of (Level_String l) s =
    if (0 <=? l) && (l <? 8) then Ret (level_text l)
    else if l =? 8 then outcome_of (index levelStrings 8) s else Ret "UNKNOWN".
Proof.
  unfold Level_String, outcome_of. change (len levelStrings) with 8.
  destruct (Z.leb_spec 0 l), (Z.ltb_spec l 8); cbn [andb].
  - destruct (Z.ltb_spec l 0), (Z.ltb_spec 8 l); try lia. cbn [orb].
    by rewrite level_index.
  - destruct (Z.eqb_spec l 8) as [->|]; [done|]. destruct (Z.ltb_spec l 0), (Z.ltb_spec 8 l); try lia; done.
  - destruct (Z.ltb_spec l 0), (Z.eqb_spec l 8); try lia; done.
  - lia.
Qed.

(** ** Examples *)

Definition demo_record (nanoseconds : Z) (level : Z) (message : string) : LogRecord :=
  mkRecord level (mkTime (1581936896 * Second + nanoseconds) 28800) "app/main.go:12" message EmptyString "10.0.0.7"
    EmptyString EmptyString.

Definition demo_lines : list (string * LogRecord) :=
  [(FORMAT_DEFAULT, demo_record 1000000 INFO "a"); ("%T %s %% %q%M %I %l%", demo_record 999000000 ERROR "b");
   (FORMAT_SHORT, demo_record 2000000000 DEBUG "c")].

Lemma lines_rendered_witness : (format_all demo_lines new_cache).1 =
  Ret ["[20200217 18:54:56.001] [INFO] (app/main.go:12) a" +:+ newline;
       "18:54:56.001 main.go:12 b 10.0.0.7 NONE" +:+ newline;
       "[18:54 17/02/20] [DEBUG] c" +:+ newline].
Proof.
  rewrite (lines_rendered 28800); [vm_compute; reflexivity|].
  repeat constructor; unfold level_ok; vm_compute; congruence.
Defined.

End DlogFormat.
