(* ===== verification/Dlog.v ===== *)
(** * Loggers: filters and the logging methods ([dlog/log4go.go])

    A logger is a map from names to filters; a filter is a level and a writer.  A
    message is made into one record that is handed to the writer of every filter
    whose level lets it through.  The writers are behind the interface [LogWriter];
    what the methods are proved to do rests on the laws of [Inbox]. *)

From S2P Require Import Prelude GoStd GoTime DlogFormat.
Import GoTime DlogFormat.

Module Dlog.

(* [dlog/log4go.go:120-128] LogWriter *)
Class LogWriter (W S : Type) := {
  LogWrite : W -> LogRecord -> M S unit;
  Close_writer : W -> M S unit
}.

(** Where a logging function runs: the names and lines of the functions on the
    goroutine's stack, the innermost first, and the time. *)
Record env : Type := mkEnv { frames : list string; now : Time }.

(** The environment of a function called from [e]. *)
Definition enter (name : string) (e : env) : env := mkEnv (name :: frames e) (now e).

(** [runtime.Caller]: 0 is the function that asks. *)
Definition Caller (skip : nat) (e : env) : string := default EmptyString (frames e !! skip).

(** [strings.Repeat(" %v", n)] *)
Definition repeat_v (n : nat) : string := join EmptyString (replicate n " %v").

Section logger.
Context {W S : Type} `{!LogWriter W S}.

(** Values handed to the formatter, and [fmt.Sprintf] and [fmt.Sprint], which run
    the methods of such values. *)
Context {any : Type}.
Variable Sprintf : string -> list any -> string.
Variable Sprint : any -> string.

(** The first argument of a logging method, by its type. *)
Inductive arg : Type := AString (first : string) | AClosure (first : M S string) | AOther (first : any).

(* [dlog/log4go.go:132-137] Filter *)
Record Filter : Type := mkFilter { filter_Level : Z; writer : W }.

(* [dlog/log4go.go:139-141] Logger *)
Definition Logger : Type := gmap string Filter.

Definition filters (log : Logger) : list Filter := (map_to_list log).*2.

(* [dlog/log4go.go:183-188] AddFilter *)
Definition AddFilter (name : string) (lvl : Z) (w : W) (log : Logger) : Logger := <[name := mkFilter lvl w]> log.

Fixpoint close_all (l : list Filter) : M S unit :=
  match l with
  | [] => mret tt
  | filt :: l => _ ← Close_writer (writer filt); close_all l
  end.

(* [dlog/log4go.go:170-180] Logger.Close *)
Definition Close (log : Logger) : M S unit := close_all (filters log).

(* [dlog/log4go.go:530-539] IsEnabledFor *)
Definition IsEnabledFor (lvl : Z) (log : Logger) : bool := existsb (fun filt => filter_Level filt <=? lvl) (filters log).

(** The loop that all the functions below end with. *)
Fixpoint dispatch_loop (lvl : Z) (rec : LogRecord) (l : list Filter) : M S unit :=
  match l with
  | [] => mret tt
  | filt :: l =>
      if lvl <? filter_Level filt then dispatch_loop lvl rec l
      else _ ← LogWrite (writer filt) rec; dispatch_loop lvl rec l
  end.
Definition dispatch (lvl : Z) (rec : LogRecord) (log : Logger) : M S unit := dispatch_loop lvl rec (filters log).

Definition message (format : string) (args : list any) : string :=
  match args with [] => format | _ => Sprintf format args end.

(* [dlog/log4go.go:190-242] intLogf *)
Definition intLogf (e : env) (lvl : Z) (format : string) (args : list any) (log : Logger) : M S unit :=
  let e := enter "intLogf" e in
  if negb (IsEnabledFor lvl log) then mret tt else
  dispatch lvl (mkRecord lvl (now e) (Caller 3 e) (message format args) EmptyString EmptyString EmptyString EmptyString) log.

(* [dlog/log4go.go:244-297] intLogfTag *)
Definition intLogfTag (e : env) (tag clientIp logId : string) (lvl : Z) (format : string) (args : list any)
  (log : Logger) : M S unit :=
  let e := enter "intLogfTag" e in
  if negb (IsEnabledFor lvl log) then mret tt else
  dispatch lvl (mkRecord lvl (now e) (Caller 3 e) (message format args) tag clientIp logId EmptyString) log.

(* [dlog/log4go.go:299-353] IntLogfTagUrl *)
Definition IntLogfTagUrl (e : env) (tag clientIp logId url : string) (lvl : Z) (format : string) (args : list any)
  (log : Logger) : M S unit :=
  let e := enter "IntLogfTagUrl" e in
  if negb (IsEnabledFor lvl log) then mret tt else
  dispatch lvl (mkRecord lvl (now e) (Caller 3 e) (message format args) tag clientIp logId url) log.

(* [dlog/log4go.go:355-401] intLogc *)
Definition intLogc (e : env) (lvl : Z) (closure : M S string) (log : Logger) : M S unit :=
  let e := enter "intLogc" e in
  if negb (IsEnabledFor lvl log) then mret tt else
  msg ← closure;
  dispatch lvl (mkRecord lvl (now e) (Caller 3 e) msg EmptyString EmptyString EmptyString EmptyString) log.

(* [dlog/log4go.go:403-451] intLogcTag *)
Definition intLogcTag (e : env) (tag clientIp logId : string) (lvl : Z) (closure : M S string) (log : Logger) : M S unit :=
  let e := enter "intLogcTag" e in
  if negb (IsEnabledFor lvl log) then mret tt else
  msg ← closure;
  dispatch lvl (mkRecord lvl (now e) (Caller 3 e) msg tag clientIp logId EmptyString) log.

(* [dlog/log4go.go:453-483] Log *)
Definition Log (e : env) (lvl : Z) (source msg : string) (log : Logger) : M S unit :=
  if negb (IsEnabledFor lvl log) then mret tt else
  dispatch lvl (mkRecord lvl (now e) source msg EmptyString EmptyString EmptyString EmptyString) log.

(* [dlog/log4go.go:485-516] LogWithTag *)
Definition LogWithTag (e : env) (tag : string) (lvl : Z) (source msg : string) (log : Logger) : M S unit :=
  if negb (IsEnabledFor lvl log) then mret tt else
  dispatch lvl (mkRecord lvl (now e) source msg tag EmptyString EmptyString EmptyString) log.

(* [dlog/log4go.go:518-522] Logf *)
Definition Logf (e : env) (lvl : Z) (format : string) (args : list any) (log : Logger) : M S unit :=
  intLogf (enter "Logf" e) lvl format args log.

(* [dlog/log4go.go:524-528] Logc *)
Definition Logc (e : env) (lvl : Z) (closure : M S string) (log : Logger) : M S unit :=
  intLogc (enter "Logc" e) lvl closure log.

(** The body of the five methods below, which differ in their level. *)
Definition log_at (lvl : Z) (e : env) (arg0 : arg) (args : list any) (log : Logger) : M S unit :=
  if negb (IsEnabledFor lvl log) then mret tt else
  match arg0 with
  | AString first => intLogf e lvl first args log
  | AClosure first => intLogc e lvl first log
  | AOther v => intLogf e lvl (Sprint v +:+ repeat_v (length args)) args log
  end.

(* [dlog/log4go.go:541-563] Finest *)
Definition Finest (e : env) : arg -> list any -> Logger -> M S unit := log_at FINEST (enter "Finest" e).

(* [dlog/log4go.go:565-587] Fine *)
Definition Fine (e : env) : arg -> list any -> Logger -> M S unit := log_at FINE (enter "Fine" e).

(* [dlog/log4go.go:589-621] Debug *)
Definition Debug (e : env) : arg -> list any -> Logger -> M S unit := log_at DEBUG (enter "Debug" e).

(* [dlog/log4go.go:623-645] Trace *)
Definition Trace (e : env) : arg -> list any -> Logger -> M S unit := log_at TRACE (enter "Trace" e).

(* [dlog/log4go.go:647-669] Info *)
Definition Info (e : env) : arg -> list any -> Logger -> M S unit := log_at INFO (enter "Info" e).

(** The body of the three methods below: the text is made in any case and returned
    as an error. *)
Definition log_error_at (lvl : Z) (e : env) (arg0 : arg) (args : list any) (log : Logger) : M S string :=
  msg ← match arg0 with
        | AString first => mret (Sprintf first args)
        | AClosure first => first
        | AOther v => mret (Sprintf (Sprint v +:+ repeat_v (length args)) args)
        end;
  _ ← intLogf e lvl msg [] log;
  mret msg.

(* [dlog/log4go.go:671-694] Warn *)
Definition Warn (e : env) : arg -> list any -> Logger -> M S string := log_error_at WARNING (enter "Warn" e).

(* [dlog/log4go.go:696-717] Error *)
Definition Error (e : env) : arg -> list any -> Logger -> M S string := log_error_at ERROR (enter "Error" e).

(* [dlog/log4go.go:719-740] Critical *)
Definition Critical (e : env) : arg -> list any -> Logger -> M S string := log_error_at CRITICAL (enter "Critical" e).

(** ** What the loggers promise

    The laws of a writer: a write to a writer with room adds the record to its
    inbox, takes one place of its room, and leaves the other writers alone. *)

Class Inbox `{!EqDecision W} := {
  delivered : W -> S -> list LogRecord;
  room : W -> S -> nat;
  LogWrite_delivers w r s : (0 < room w s)%nat -> exists s', LogWrite w r s = (Ret tt, s') /\
    (forall w', delivered w' s' = delivered w' s ++ (if decide (w' = w) then [r] else [])) /\
    (forall w', room w' s' = (room w' s - (if decide (w' = w) then 1 else 0))%nat)
}.

Section promise.
Context `{!EqDecision W} {IB : Inbox}.

(** How many filters hand a record of level [lvl] to [w]. *)
Definition times (w : W) (lvl : Z) (l : list Filter) : nat :=
  length (List.filter (fun filt => bool_decide (writer filt = w) && (filter_Level filt <=? lvl)) l).

(** Every writer has room for what it is handed. *)
Definition has_room (lvl : Z) (log : Logger) (s : S) : Prop := forall w, (times w lvl (filters log) <= room w s)%nat.

Definition hands (rec : LogRecord) (lvl : Z) (log : Logger) (s s' : S) : Prop :=
  forall w, delivered w s' = delivered w s ++ replicate (times w lvl (filters log)) rec.

Lemma times_cons w lvl filt l : times w lvl (filt :: l) =
  ((if bool_decide (writer filt = w) && (filter_Level filt <=? lvl)%Z then 1 else 0) + times w lvl l)%nat.
Proof. unfold times. simpl. by destruct (_ && _). Qed.

Lemma dispatch_loop_hands lvl rec l s : (forall w, (times w lvl l <= room w s)%nat) ->
  exists s', dispatch_loop lvl rec l s = (Ret tt, s') /\
    forall w, delivered w s' = delivered w s ++ replicate (times w lvl l) rec.
Proof.
  revert s. induction l as [|filt l IH]; intros s Hr.
  { exists s. split; [done|]. intros w. cbn. by rewrite app_nil_r. }
  cbn [dispatch_loop]. destruct (Z.ltb_spec lvl (filter_Level filt)) as [Hl|Hl].
  - assert (forall w, times w lvl (filt :: l) = times w lvl l) as Ht.
    { intros w. rewrite times_cons. destruct (Z.leb_spec (filter_Level filt) lvl); [lia|]. by rewrite andb_false_r. }
    destruct (IH s) as (s' & Hd & Hs). { intros w. rewrite <- Ht. apply Hr. }
    exists s'. split; [done|]. intros w. by rewrite Hs, Ht.
  - assert (forall w, times w lvl (filt :: l) = ((if decide (w = writer filt) then 1 else 0) + times w lvl l)%nat) as Ht.
    { intros w. rewrite times_cons. destruct (Z.leb_spec (filter_Level filt) lvl); [|lia]. rewrite andb_true_r.
      case_bool_decide; destruct (decide (w = writer filt)); congruence. }
    destruct (LogWrite_delivers (writer filt) rec s) as (s1 & Hw & Hd & Hm).
    { specialize (Hr (writer filt)). rewrite Ht, decide_True in Hr by done. lia. }
    destruct (IH s1) as (s' & Hl' & Hs). { intros w. specialize (Hr w). rewrite Ht in Hr. rewrite Hm. lia. }
    exists s'. unfold mbind, M_bind. rewrite Hw. split; [done|].
    intros w. rewrite Hs, Hd, Ht, <- app_assoc. by destruct (decide (w = writer filt)).
Qed.

(** No filter lets the level through. *)
Definition silent (lvl : Z) (log : Logger) : Prop := Forall (fun filt => lvl < filter_Level filt) (filters log).

Lemma enabled_or_silent lvl log : if IsEnabledFor lvl log then ~ silent lvl log else silent lvl log.
Proof.
  unfold IsEnabledFor, silent. induction (filters log) as [|filt l IH]; [constructor|]. cbn [existsb].
  destruct (Z.leb_spec (filter_Level filt) lvl) as [Hle|Hgt]; cbn [orb].
  - intros [Hlt _]%Forall_cons_1. lia.
  - destruct (existsb _ l); [|by constructor]. by intros [_ Hl]%Forall_cons_1.
Qed.

Lemma IsEnabledFor_silent lvl log : silent lvl log -> IsEnabledFor lvl log = false.
Proof. intros Hs. pose proof (enabled_or_silent lvl log). by destruct (IsEnabledFor lvl log). Qed.

Lemma IsEnabledFor_not_silent lvl log : ~ silent lvl log -> IsEnabledFor lvl log = true.
Proof. intros Hs. pose proof (enabled_or_silent lvl log). by destruct (IsEnabledFor lvl log). Qed.

Lemma not_enabled_times lvl log w : IsEnabledFor lvl log = false -> times w lvl (filters log) = 0%nat.
Proof.
  unfold IsEnabledFor, times. induction (filters log) as [|filt l IH]; [done|]. simpl.
  intros [-> H]%orb_false_iff. by rewrite andb_false_r, IH.
Qed.

Lemma dispatch_hands lvl rec log s : has_room lvl log s ->
  exists s', dispatch lvl rec log s = (Ret tt, s') /\ hands rec lvl log s s'.
Proof. apply dispatch_loop_hands. Qed.

(** The text that a first argument and the others stand for; a closure changes the
    state. *)
Definition says (arg0 : arg) (args : list any) (s : S) (msg : string) (s' : S) : Prop :=
  match arg0 with
  | AString first => msg = message first args /\ s' = s
  | AClosure first => first s = (Ret msg, s')
  | AOther v => msg = message (Sprint v +:+ repeat_v (length args)) args /\ s' = s
  end.

Definition record (e : env) (lvl : Z) (msg : string) : LogRecord :=
  mkRecord lvl (now e) (default EmptyString (frames e !! 1%nat)) msg EmptyString EmptyString EmptyString EmptyString.

Definition methods : list (Z * (env -> arg -> list any -> Logger -> M S unit)) :=
  [(FINEST, Finest); (FINE, Fine); (DEBUG, Debug); (TRACE, Trace); (INFO, Info)].

Definition error_methods : list (Z * (env -> arg -> list any -> Logger -> M S string)) :=
  [(WARNING, Warn); (ERROR, Error); (CRITICAL, Critical)].

Lemma methods_log_at lvl m : (lvl, m) ∈ methods -> exists name, forall e, m e = log_at lvl (enter name e).
Proof.
  unfold methods. rewrite !elem_of_cons, elem_of_nil.
  intros [[= -> ->]|[[= -> ->]|[[= -> ->]|[[= -> ->]|[[= -> ->]|[]]]]]]; eexists; intros e; unfold Finest, Fine, Debug, Trace, Info; reflexivity.
Qed.

Lemma error_methods_at lvl m : (lvl, m) ∈ error_methods -> exists name, forall e, m e = log_error_at lvl (enter name e).
Proof.
  unfold error_methods. rewrite !elem_of_cons, elem_of_nil.
  intros [[= -> ->]|[[= -> ->]|[[= -> ->]|[]]]]; eexists; intros e; unfold Warn, Error, Critical; reflexivity.
Qed.

(** Finest, Fine, Debug, Trace and Info: when no filter lets the level through
    nothing happens, and a closure does not run.  Otherwise the closure runs once,
    and the writer of each filter that lets the level through receives the record,
    once for each such filter, while every other writer receives nothing.  The text
    is the format itself when there are no arguments, and the source is the caller
    of the function that logged.  For writers that have room. *)
Theorem enabled_filters_receive lvl m e arg0 args log s : (lvl, m) ∈ methods ->
  (silent lvl log -> m e arg0 args log s = (Ret tt, s)) /\
  (forall msg s1, ~ silent lvl log -> says arg0 args s msg s1 -> has_room lvl log s1 ->
    exists s', m e arg0 args log s = (Ret tt, s') /\ hands (record e lvl msg) lvl log s1 s').
Proof.
  intros [name ->]%methods_log_at. unfold log_at. split.
  { intros Hs. by rewrite (IsEnabledFor_silent lvl log Hs). }
  intros msg s1 He%IsEnabledFor_not_silent Hs Hr. rewrite He. cbn [negb].
  destruct (dispatch_hands lvl (record e lvl msg) log s1 Hr) as (s' & Hd & Hh). exists s'. split; [|done].
  unfold intLogf, intLogc. rewrite He.
  destruct arg0 as [f|c|v]; cbn [says] in Hs; [destruct Hs as [-> ->]; exact Hd| |destruct Hs as [-> ->]; exact Hd].
  cbn [negb]. unfold mbind, M_bind. by rewrite Hs.
Qed.

(** Warn, Error and Critical return the text they log: the formatted text (a
    closure runs whether or not a filter lets the level through) is both the
    returned error and, unchanged by a second formatting, the message of the record
    that every filter of the level receives. *)
Theorem returned_error_is_logged lvl m e arg0 args log s msg s1 : (lvl, m) ∈ error_methods ->
  match arg0 with
  | AString first => msg = Sprintf first args /\ s1 = s
  | AClosure first => first s = (Ret msg, s1)
  | AOther v => msg = Sprintf (Sprint v +:+ repeat_v (length args)) args /\ s1 = s
  end -> has_room lvl log s1 ->
  exists s', m e arg0 args log s = (Ret msg, s') /\ hands (record e lvl msg) lvl log s1 s'.
Proof.
  intros [name ->]%error_methods_at Hs Hr. unfold log_error_at, mbind, M_bind.
  assert (exists s', intLogf (enter name e) lvl msg [] log s1 = (Ret tt, s') /\ hands (record e lvl msg) lvl log s1 s')
    as (s' & Hi & Hh).
  { unfold intLogf. destruct (IsEnabledFor lvl log) eqn:He; cbn [negb]; [by apply dispatch_hands|].
    exists s1. split; [done|]. intros w. by rewrite not_enabled_times, app_nil_r. }
  exists s'. split; [|done].
  destruct arg0 as [f|c|v]; [destruct Hs as [-> ->]| |destruct Hs as [-> ->]]; cbn; rewrite ?Hs, ?Hi; done.
Qed.

End promise.
End logger.

End Dlog.
