(* ===== verification/DlogWrapper.v ===== *)
(** * The package's functions over the global logger ([dlog/wrapper.go])

    Most of them add the client's address and the number of the request to a
    record, from the data of the goroutine they run on ([runtime/gl]). *)

From S2P Require Import Prelude GoStd GoTime Gl DlogFormat Dlog.
Import GoTime DlogFormat Dlog.

Module DlogWrapper.

Section wrapper.
Context {C : Type} `{!Gl.StrStore C Gl.glmap} {W S : Type} `{!LogWriter W S} {any : Type}.
Variable Sprintf : string -> list any -> string.
Variable Sprint : any -> string.

(** The goroutines' data, the global logger, and the state of the writers. *)
Record program : Type := mkProgram { gl_data : Gl.gstate C; Global : Logger (W := W); writers : S }.

Definition on_writers {A} (m : M S A) : M program A := fun p =>
  match m (writers p) with (r, s) => (r, mkProgram (gl_data p) (Global p) s) end.

Definition on_gl_data {A} (m : M (Gl.gstate C) A) : M program A := fun p =>
  match m (gl_data p) with (r, g) => (r, mkProgram g (Global p) (writers p)) end.

Definition set_Global (log : Logger (W := W)) : M program unit :=
  modify (fun p => mkProgram (gl_data p) log (writers p)).

(** A method of the global logger. *)
Definition on_Global {A} (m : Logger (W := W) -> M S A) : M program A := log ← gets Global; on_writers (m log).

Abbreviation arg := (Dlog.arg (S := S) (any := any)).

(** ** Administration *)

(* [dlog/wrapper.go:32-35] AddFilter *)
Definition AddFilter (name : string) (lvl : Z) (w : W) : M program unit :=
  log ← gets Global; set_Global (Dlog.AddFilter name lvl w log).

(* [dlog/wrapper.go:37-40] Close *)
Definition Close : M program unit := on_Global Dlog.Close.

(* [dlog/wrapper.go:51-53] IsEnabledFor *)
Definition IsEnabledFor (lvl : Z) : M program bool := log ← gets Global; mret (Dlog.IsEnabledFor lvl log).

Fixpoint levels_text (l : list (string * Filter (W := W))) (ret : string) : M program string :=
  match l with
  | [] => mret ret
  | (tag, filt) :: l =>
      text ← Level_String (filter_Level filt);
      levels_text l (ret +:+ tag +:+ ":" +:+ text +:+ ",")
  end.

(* [dlog/wrapper.go:102-108] GetLevel *)
Definition GetLevel : M program string := log ← gets Global; levels_text (map_to_list log) EmptyString.

(* [dlog/wrapper.go:110-115] SetLevel *)
Definition SetLevel (lvl : Z) : M program unit :=
  log ← gets Global; set_Global ((fun filt => mkFilter lvl (writer filt)) <$> log).

(** ** Messages without the goroutine's data *)

(** [strings.Repeat(" %v", n)[1:]] *)
Definition joined_v (n : nat) : string := join " " (replicate n "%v").

Definition intLogf (e : env) (lvl : Z) (format : string) (args : list any) : M program unit :=
  on_Global (Dlog.intLogf Sprintf e lvl format args).

(* [dlog/wrapper.go:42-49] Crash *)
Definition Crash (e : env) (args : list any) : M program unit :=
  match args with
  | [] => panic "[]"
  | _ =>
      _ ← intLogf (enter "Crash" e) CRITICAL (joined_v (length args)) args;
      panic (Sprintf (joined_v (length args)) args)
  end.

(* [dlog/wrapper.go:55-60] Crashf *)
Definition Crashf (e : env) (format : string) (args : list any) : M program unit :=
  _ ← intLogf (enter "Crashf" e) CRITICAL format args;
  _ ← Close;
  panic (Sprintf format args).

(** The code the process exits with. *)
(* [dlog/wrapper.go:62-69] Exit *)
Definition Exit (e : env) (args : list any) : M program Z :=
  _ ← match args with [] => mret tt | _ => intLogf (enter "Exit" e) ERROR (joined_v (length args)) args end;
  _ ← Close;
  mret 0.

(* [dlog/wrapper.go:71-76] Exitf *)
Definition Exitf (e : env) (format : string) (args : list any) : M program Z :=
  _ ← intLogf (enter "Exitf" e) ERROR format args;
  _ ← Close;
  mret 0.

(* [dlog/wrapper.go:78-83] Stderr *)
Definition Stderr (e : env) (args : list any) : M program unit :=
  match args with [] => mret tt | _ => intLogf (enter "Stderr" e) ERROR (joined_v (length args)) args end.

(* [dlog/wrapper.go:85-88] Stderrf *)
Definition Stderrf (e : env) (format : string) (args : list any) : M program unit :=
  intLogf (enter "Stderrf" e) ERROR format args.

(* [dlog/wrapper.go:90-95] Stdout *)
Definition Stdout (e : env) (args : list any) : M program unit :=
  match args with [] => mret tt | _ => intLogf (enter "Stdout" e) INFO (joined_v (length args)) args end.

(* [dlog/wrapper.go:97-100] Stdoutf *)
Definition Stdoutf (e : env) (format : string) (args : list any) : M program unit :=
  intLogf (enter "Stdoutf" e) INFO format args.

(* [dlog/wrapper.go:117-121] Log *)
Definition Log (e : env) (lvl : Z) (source msg : string) : M program unit := on_Global (Dlog.Log e lvl source msg).

(* [dlog/wrapper.go:123-127] Logf *)
Definition Logf (e : env) (lvl : Z) (format : string) (args : list any) : M program unit :=
  intLogf (enter "Logf" e) lvl format args.

(* [dlog/wrapper.go:129-133] Logc *)
Definition Logc (e : env) (lvl : Z) (closure : M S string) : M program unit :=
  on_Global (Dlog.intLogc (enter "Logc" e) lvl closure).

Definition log_plain (lvl : Z) (e : env) (arg0 : arg) (args : list any) : M program unit :=
  match arg0 with
  | AString first => intLogf e lvl first args
  | AClosure first => on_Global (Dlog.intLogc e lvl first)
  | AOther v => intLogf e lvl (Sprint v +:+ repeat_v (length args)) args
  end.

(* [dlog/wrapper.go:135-152] Finest *)
Definition Finest (e : env) : arg -> list any -> M program unit := log_plain FINEST (enter "Finest" e).

(* [dlog/wrapper.go:154-171] Fine *)
Definition Fine (e : env) : arg -> list any -> M program unit := log_plain FINE (enter "Fine" e).

(** ** Messages with the goroutine's data *)

Definition as_string (v : option Gl.value) : string :=
  match v with Some (Gl.VStr s) => s | _ => EmptyString end.

(* [dlog/wrapper.go:420-439] batchGetGl *)
Definition batchGetGl (goid : Z) : M program (string * string) :=
  vs ← on_gl_data (Gl.BatchGet goid [Gl.KStr Gl.ClientIp; Gl.KStr Gl.LogId]);
  mret (match vs with
        | None => (EmptyString, EmptyString)
        | Some vs => (as_string (vs !! Gl.KStr Gl.ClientIp), as_string (vs !! Gl.KStr Gl.LogId))
        end).

Definition log_tagged (lvl : Z) (goid : Z) (tag : string) (e : env) (arg0 : arg) (args : list any) : M program unit :=
  ids ← batchGetGl goid;
  let '(clientIp, logId) := ids in
  match arg0 with
  | AString first => on_Global (Dlog.intLogfTag Sprintf e tag clientIp logId lvl first args)
  | AClosure first => on_Global (Dlog.intLogcTag e tag clientIp logId lvl first)
  | AOther v => on_Global (Dlog.intLogfTag Sprintf e tag clientIp logId lvl (Sprint v +:+ repeat_v (length args)) args)
  end.

(* [dlog/wrapper.go:173-195] Debug *)
Definition Debug (goid : Z) (e : env) : arg -> list any -> M program unit :=
  log_tagged DEBUG goid EmptyString (enter "Debug" e).

(* [dlog/wrapper.go:197-213] DebugT *)
Definition DebugT (goid : Z) (tag : string) (e : env) : arg -> list any -> M program unit :=
  log_tagged DEBUG goid tag (enter "DebugT" e).

(* [dlog/wrapper.go:215-234] Trace *)
Definition Trace (goid : Z) (e : env) : arg -> list any -> M program unit :=
  log_tagged TRACE goid EmptyString (enter "Trace" e).

(* [dlog/wrapper.go:236-252] TraceT *)
Definition TraceT (goid : Z) (tag : string) (e : env) : arg -> list any -> M program unit :=
  log_tagged TRACE goid tag (enter "TraceT" e).

(* [dlog/wrapper.go:254-273] Info *)
Definition Info (goid : Z) (e : env) : arg -> list any -> M program unit :=
  log_tagged INFO goid EmptyString (enter "Info" e).

(* [dlog/wrapper.go:275-291] InfoT *)
Definition InfoT (goid : Z) (tag : string) (e : env) : arg -> list any -> M program unit :=
  log_tagged INFO goid tag (enter "InfoT" e).

(** The functions of the higher levels run a closure before anything else.
    [box] makes a value of a string. *)
Variable box : string -> any.

Definition log_tagged_error (lvl : Z) (goid : Z) (tag : string) (e : env) (arg0 : arg) (args : list any) : M program unit :=
  ids ← batchGetGl goid;
  let '(clientIp, logId) := ids in
  match arg0 with
  | AString first => on_Global (Dlog.intLogfTag Sprintf e tag clientIp logId lvl first args)
  | AClosure first =>
      str ← on_writers first;
      on_Global (Dlog.intLogfTag Sprintf e tag clientIp logId lvl "%s" [box str])
  | AOther v => on_Global (Dlog.intLogfTag Sprintf e tag clientIp logId lvl (Sprint v +:+ repeat_v (length args)) args)
  end.

(* [dlog/wrapper.go:293-314] Warn *)
Definition Warn (goid : Z) (e : env) : arg -> list any -> M program unit :=
  log_tagged_error WARNING goid EmptyString (enter "Warn" e).

(* [dlog/wrapper.go:316-333] WarnT *)
Definition WarnT (goid : Z) (tag : string) (e : env) : arg -> list any -> M program unit :=
  log_tagged_error WARNING goid tag (enter "WarnT" e).

(* [dlog/wrapper.go:335-356] Error *)
Definition Error (goid : Z) (e : env) : arg -> list any -> M program unit :=
  log_tagged_error ERROR goid EmptyString (enter "Error" e).

(* [dlog/wrapper.go:358-375] ErrorT *)
Definition ErrorT (goid : Z) (tag : string) (e : env) : arg -> list any -> M program unit :=
  log_tagged_error ERROR goid tag (enter "ErrorT" e).

(* [dlog/wrapper.go:377-398] Critical *)
Definition Critical (goid : Z) (e : env) : arg -> list any -> M program unit :=
  log_tagged_error CRITICAL goid EmptyString (enter "Critical" e).

(* [dlog/wrapper.go:400-418] CriticalT *)
Definition CriticalT (goid : Z) (tag : string) (e : env) : arg -> list any -> M program unit :=
  log_tagged_error CRITICAL goid tag (enter "CriticalT" e).

(** ** What a record of a request says *)

Section tags.
Context `{!EqDecision W} {IB : Inbox (W := W) (S := S)}.

(** [Sprintf("%s", str)] is the string itself. *)
Hypothesis Sprintf_s : forall str, Sprintf "%s" [box str] = str.

(** The functions that carry a tag. *)
Definition tagged : list (Z * (Z -> string -> env -> arg -> list any -> M program unit)) :=
  [(DEBUG, DebugT); (TRACE, TraceT); (INFO, InfoT); (WARNING, WarnT); (ERROR, ErrorT); (CRITICAL, CriticalT)].

(** The ones without do the same with an empty one. *)
Definition untagged : list (Z * (Z -> env -> arg -> list any -> M program unit)) :=
  [(DEBUG, Debug); (TRACE, Trace); (INFO, Info); (WARNING, Warn); (ERROR, Error); (CRITICAL, Critical)].

(** The twelve functions as the goroutine [goid] calls them, each with its level and
    the tag it puts into the record. *)
Inductive request_call (goid : Z) (tag : string) : Z -> string -> (env -> arg -> list any -> M program unit) -> Prop :=
  | call_with_tag lvl m : (lvl, m) ∈ tagged -> request_call goid tag lvl tag (m goid tag)
  | call_without lvl m : (lvl, m) ∈ untagged -> request_call goid tag lvl EmptyString (m goid).

Definition request_record (e : env) (lvl : Z) (tag : string) (data : option Gl.glmap) (msg : string) : LogRecord :=
  let get k := as_string (cc ← data; cc !! Gl.KStr k) in
  mkRecord lvl (now e) (default EmptyString (frames e !! 1%nat)) msg tag (get Gl.ClientIp) (get Gl.LogId) EmptyString.

Lemma batchGetGl_ok p (A : gmap Z Gl.glmap) goid : Gl.gmodels (gl_data p) A ->
  batchGetGl goid p = (Ret (as_string (cc ← A !! goid; cc !! Gl.KStr Gl.ClientIp),
                            as_string (cc ← A !! goid; cc !! Gl.KStr Gl.LogId)), p).
Proof.
  intros Hg. unfold batchGetGl, on_gl_data, Gl.BatchGet, Gl.with_gl, Gl.getGl, mbind, M_bind.
  rewrite (Gl.gmodels_read _ A goid Hg). destruct p as [g log s]. cbn [gl_data].
  destruct (A !! goid) as [cc|] eqn:E; cbn [option_bind mret M_ret]; [|done].
  rewrite Gl.BatchGet_loop, !map_lookup_filter.
  by destruct (cc !! Gl.KStr Gl.ClientIp), (cc !! Gl.KStr Gl.LogId).
Qed.

Lemma request_call_cases goid tag lvl tag' m : request_call goid tag lvl tag' m -> exists name,
  (forall e, m e = log_tagged lvl goid tag' (enter name e) /\ lvl < WARNING) \/
  (forall e, m e = log_tagged_error lvl goid tag' (enter name e) /\ WARNING <= lvl).
Proof.
  unfold DEBUG, TRACE, INFO, WARNING, ERROR, CRITICAL.
  intros [lvl' m' Hin|lvl' m' Hin]; unfold tagged, untagged in Hin; rewrite !elem_of_cons, elem_of_nil in Hin;
    destruct Hin as [[= -> ->]|[[= -> ->]|[[= -> ->]|[[= -> ->]|[[= -> ->]|[[= -> ->]|[]]]]]]]; eexists;
    (by left; intros e; split; [unfold DebugT, TraceT, InfoT, Debug, Trace, Info|]) ||
    (by right; intros e; split; [unfold WarnT, ErrorT, CriticalT, Warn, Error, Critical|]).
Qed.

(** The rest of a call once the text is there. *)
Lemma tagged_dispatch name e lvl tag ip id format args p msg :
  message Sprintf format args = msg -> Dlog.IsEnabledFor lvl (Global p) = true -> has_room lvl (Global p) (writers p) ->
  let rec := mkRecord lvl (now e) (default EmptyString (frames e !! 1%nat)) msg tag ip id EmptyString in
  exists s', on_Global (Dlog.intLogfTag Sprintf (enter name e) tag ip id lvl format args) p =
      (Ret tt, mkProgram (gl_data p) (Global p) s') /\ hands rec lvl (Global p) (writers p) s'.
Proof.
  intros <- He Hr rec. destruct (dispatch_hands lvl rec _ _ Hr) as (s' & Hd & Hh). exists s'. split; [|done].
  unfold on_Global, on_writers, gets, mbind, M_bind, Dlog.intLogfTag. rewrite He. cbn [negb].
  unfold rec in Hd. cbv zeta.
  change (Caller 3 (enter "intLogfTag" (enter name e))) with (default EmptyString (frames e !! 1%nat)).
  cbn [now enter]. by rewrite Hd.
Qed.

(** What the body of such a function does once its text is known: the source is the
    caller of whoever called the function [name]. *)
Lemma tagged_records lvl goid tag (m : env -> arg -> list any -> M program unit) name e arg0 args p A msg s1 :
  m = log_tagged lvl goid tag \/ m = log_tagged_error lvl goid tag -> Gl.gmodels (gl_data p) A ->
  says Sprintf Sprint arg0 args (writers p) msg s1 -> has_room lvl (Global p) s1 -> ~ silent lvl (Global p) ->
  exists s', m (enter name e) arg0 args p = (Ret tt, mkProgram (gl_data p) (Global p) s') /\
    hands (request_record e lvl tag (A !! goid) msg) lvl (Global p) s1 s'.
Proof.
  intros Hm Hg Hs Hr He%IsEnabledFor_not_silent. pose proof (batchGetGl_ok p A goid Hg) as Hb.
  set (ip := as_string (cc ← A !! goid; cc !! Gl.KStr Gl.ClientIp)) in *.
  set (id := as_string (cc ← A !! goid; cc !! Gl.KStr Gl.LogId)) in *.
  destruct arg0 as [f|c|v]; cbn [says] in Hs; [destruct Hs as [-> ->]| |destruct Hs as [-> ->]];
    destruct Hm as [Hm|Hm]; rewrite Hm; unfold log_tagged, log_tagged_error, mbind, M_bind; rewrite Hb;
    try (by apply tagged_dispatch).
  - destruct (dispatch_hands lvl (request_record e lvl tag (A !! goid) msg) _ _ Hr) as (s' & Hd & Hh).
    exists s'. split; [|done].
    unfold on_Global, on_writers, gets, mbind, M_bind, Dlog.intLogcTag. rewrite He. cbn [negb].
    unfold mbind, M_bind. rewrite Hs. unfold request_record in Hd. cbv zeta.
    change (Caller 3 (enter "intLogcTag" (enter name e))) with (default EmptyString (frames e !! 1%nat)).
    cbn [now enter]. fold ip id in Hd. by rewrite Hd.
  - unfold on_writers at 1. rewrite Hs.
    destruct (tagged_dispatch name e lvl tag ip id "%s" [box msg] (mkProgram (gl_data p) (Global p) s1) msg)
      as (s' & Hd & Hh); [by apply Sprintf_s|done|done|]. by exists s'.
Qed.

(** At a level no filter lets through, nothing reaches a writer: the lower functions do
    nothing at all, the higher ones still run a closure. *)
Lemma tagged_silent lvl goid tag (m : env -> arg -> list any -> M program unit) e arg0 args p A :
  Gl.gmodels (gl_data p) A -> silent lvl (Global p) ->
  (m = log_tagged lvl goid tag -> m e arg0 args p = (Ret tt, p)) /\
  (m = log_tagged_error lvl goid tag -> forall msg s1, says Sprintf Sprint arg0 args (writers p) msg s1 ->
   m e arg0 args p = (Ret tt, mkProgram (gl_data p) (Global p) s1)).
Proof.
  intros Hg He%IsEnabledFor_silent. pose proof (batchGetGl_ok p A goid Hg) as Hb.
  assert (forall e' ip id f v q, Global q = Global p ->
    on_Global (Dlog.intLogfTag Sprintf e' tag ip id lvl f v) q = (Ret tt, q)) as Hf.
  { intros e' ip id f v [g log s] [= ->]. unfold on_Global, on_writers, gets, mbind, M_bind, Dlog.intLogfTag.
    cbn [Global writers gl_data]. by rewrite He. }
  split; intros ->.
  - unfold log_tagged, mbind, M_bind. rewrite Hb. destruct arg0 as [f|c|v]; [by apply Hf| |by apply Hf].
    destruct p as [g log s]. cbn [Global] in He. unfold on_Global, on_writers, gets, mbind, M_bind, Dlog.intLogcTag.
    cbn [Global writers gl_data]. by rewrite He.
  - intros msg s1 Hs. unfold log_tagged_error, mbind, M_bind. rewrite Hb.
    destruct arg0 as [f|c|v]; cbn [says] in Hs.
    1, 3: destruct Hs as [-> ->]; rewrite Hf by done; by destruct p.
    unfold on_writers. rewrite Hs. by apply Hf.
Qed.

(** C21 The twelve functions from Debug to Critical, with and without a tag, put the
    request into the record.  Called at a level some filter lets through, and with room
    left in the writers, each one hands to the writer of every such filter, and to no
    other, one record whose text is the formatted message or the text of the closure,
    whose client address and log number are those the calling goroutine has stored (empty
    when it has none, and nobody else's), and whose tag is the tag of the call (empty
    for the functions without one).  At a level no filter lets through, Debug, Trace and
    Info do nothing, not even run the closure, while Warn, Error and Critical run it and
    write nothing.  The goroutines' data and the logger stay as they are. *)
Theorem records_carry_request (goid : Z) (tag tag' : string) (lvl : Z) (m : env -> arg -> list any -> M program unit)
  (e : env) (arg0 : arg) (args : list any) (p : program) (A : gmap Z Gl.glmap) :
  request_call goid tag lvl tag' m -> Gl.gmodels (gl_data p) A ->
  (silent lvl (Global p) -> lvl < WARNING -> m e arg0 args p = (Ret tt, p)) /\
  (forall msg s1, says Sprintf Sprint arg0 args (writers p) msg s1 ->
    (silent lvl (Global p) -> WARNING <= lvl -> m e arg0 args p = (Ret tt, mkProgram (gl_data p) (Global p) s1)) /\
    (~ silent lvl (Global p) -> has_room lvl (Global p) s1 ->
     exists s', m e arg0 args p = (Ret tt, mkProgram (gl_data p) (Global p) s') /\
       hands (request_record e lvl tag' (A !! goid) msg) lvl (Global p) s1 s')).
Proof.
  intros [name Hm]%request_call_cases Hg.
  destruct Hm as [Hm|Hm]; destruct (Hm e) as [-> Hl]; (split; [intros Hs Hl'; try lia|intros msg s1 Hsay; split]).
  - by eapply tagged_silent.
  - intros; lia.
  - intros He Hr. by eapply tagged_records; [left|..].
  - intros Hs _. by eapply tagged_silent.
  - intros He Hr. by eapply tagged_records; [right|..].
Qed.

(** SetLevel gives every filter the level; level 8 silences the program, and then
    GetLevel panics, because [String] lets it through ([levelStrings] has eight
    entries). *)
Lemma SetLevel_8 p : Global p ≠ ∅ -> exists p', SetLevel 8 p = (Ret tt, p') /\
  (forall lvl, lvl < 8 -> outcome_of (IsEnabledFor lvl) p' = Ret false) /\
  outcome_of GetLevel p' = outcome_of (index (S := program) levelStrings 8) p'.
Proof.
  intros Hne. eexists. split; [reflexivity|]. split.
  - intros lvl Hl. unfold outcome_of, IsEnabledFor, gets, mbind, M_bind. cbn. f_equal.
    unfold Dlog.IsEnabledFor, filters. apply not_true_iff_false. intros (f & Hf & Hle)%existsb_exists.
    apply list_elem_of_In, list_elem_of_fmap in Hf as ([k f'] & -> & Hf). apply (elem_of_map_to_list (M := gmap string)) in Hf.
    rewrite lookup_fmap in Hf. apply fmap_Some in Hf as (? & _ & ->). cbn in Hle. apply Z.leb_le in Hle. lia.
  - unfold outcome_of, GetLevel, gets, mbind, M_bind. cbn [Global].
    match goal with |- context [levels_text ?l] => assert (forall kf, kf ∈ l -> filter_Level kf.2 = 8) as H8;
      [|destruct l as [|[k f] l'] eqn:E] end.
    + intros [k f] Hf%(elem_of_map_to_list (M := gmap string)). rewrite lookup_fmap in Hf.
      by apply fmap_Some in Hf as (? & _ & ->).
    + apply (map_to_list_empty_iff (M := gmap string)), fmap_empty_inv in E. done.
    + cbn [levels_text]. assert (filter_Level f = 8) as -> by (apply (H8 (k, f)); left). reflexivity.
Qed.

End tags.
End wrapper.

End DlogWrapper.
