(* ===== verification/DlogConsole.v ===== *)
(** * The console writer ([dlog/termlog.go]) and the default logger

    A console writer is a channel that a goroutine empties into the standard
    output.  The writers live at addresses of a store; they have an [Inbox]. *)

From S2P Require Import Prelude GoStd GoStrings GoTime Gl DlogFormat Dlog DlogWrapper.
Import GoStd GoStrings GoTime DlogFormat Dlog.

Module DlogConsole.

(* [dlog/log4go.go:96-101] LogBufferLength *)
Definition LogBufferLength : Z := 50480.

(** [w] is the queue of the channel and [closed] what [closeOnce] guards. *)
(* [dlog/termlog.go:18-24] ConsoleLogWriter *)
Record ConsoleLogWriter : Type := mkConsole {
  format : string; w : list LogRecord; closed : bool; formatCache : formatCacheType
}.

Record terminal : Type := mkTerminal { consoles : gmap positive ConsoleLogWriter; stdout : string; stderr : list LogRecord }.

Definition set_console (p : positive) (c : ConsoleLogWriter) (t : terminal) : terminal :=
  mkTerminal (<[p := c]> (consoles t)) (stdout t) (stderr t).

(** A method on a writer that is there; a nil pointer panics. *)
Definition on_console {A} (p : positive) (k : ConsoleLogWriter -> M terminal A) : M terminal A := fun t =>
  match consoles t !! p with
  | Some c => k c t
  | None => (Panic "invalid memory address or nil pointer dereference", t)
  end.

Definition default_format : string :=
  "%L" +:+ String "009" ("%D %T" +:+ String "009" ("%M" +:+ String "009" "%S")).

(* [dlog/termlog.go:26-35] NewConsoleLogWriter *)
Definition NewConsoleLogWriter : M terminal positive := fun t =>
  let p := fresh (dom (consoles t)) in
  (Ret p, set_console p (mkConsole default_format [] false new_cache) t).

(* [dlog/termlog.go:36-38] SetFormat *)
Definition SetFormat (p : positive) (f : string) : M terminal unit :=
  on_console p (fun c => modify (set_console p (mkConsole f (w c) (closed c) (formatCache c)))).

(** One turn of the loop. *)
(* [dlog/termlog.go:39-43] run *)
Definition run_turn (p : positive) : M terminal unit :=
  on_console p (fun c =>
    match w c with
    | [] => mret tt
    | rec :: q => fun t =>
        match FormatLogRecord (format c) (Some rec) (formatCache c) with
        | (Ret text, cache) =>
            (Ret tt, set_console p (mkConsole (format c) q (closed c) cache)
                       (mkTerminal (consoles t) (stdout t +:+ text) (stderr t)))
        | (Panic e, cache) => (Panic e, set_console p (mkConsole (format c) q (closed c) cache) t)
        end
    end).

Fixpoint run_turns (n : nat) (p : positive) : M terminal unit :=
  match n with
  | O => mret tt
  | S n => _ ← run_turn p; run_turns n p
  end.

(** A send on a full channel is given up after two milliseconds; when the loop makes
    room in that time, its turn comes before the send. *)
(* [dlog/termlog.go:45-58] LogWrite *)
Definition console_LogWrite (p : positive) (rec : LogRecord) : M terminal unit :=
  on_console p (fun c =>
    if closed c then panic "send on closed channel"
    else if len (w c) <? LogBufferLength
    then modify (set_console p (mkConsole (format c) (w c ++ [rec]) (closed c) (formatCache c)))
    else modify (fun t => mkTerminal (consoles t) (stdout t) (stderr t ++ [rec]))).

(* [dlog/termlog.go:60-67] Close *)
Definition console_Close (p : positive) : M terminal unit :=
  on_console p (fun c => modify (set_console p (mkConsole (format c) (w c) true (formatCache c)))).

#[export] Instance console_writer : LogWriter positive terminal :=
  {| LogWrite := console_LogWrite; Close_writer := console_Close |}.

Definition console_room (p : positive) (t : terminal) : nat :=
  match consoles t !! p with
  | Some c => if closed c then 0%nat else Z.to_nat (LogBufferLength - len (w c))
  | None => 0%nat
  end.

Definition console_inbox (p : positive) (t : terminal) : list LogRecord :=
  match consoles t !! p with Some c => w c | None => [] end.

#[export] Instance console_is_inbox : Inbox (W := positive) (S := terminal).
Proof.
  refine {| delivered := console_inbox; room := console_room |}.
  intros p r t. unfold console_room at 1. destruct (consoles t !! p) as [c|] eqn:E; [|lia].
  destruct (closed c) eqn:Hc; [lia|]. intros Hr.
  exists (set_console p (mkConsole (format c) (w c ++ [r]) (closed c) (formatCache c)) t).
  split.
  { cbn [LogWrite console_writer]. unfold console_LogWrite, on_console. rewrite E, Hc.
    destruct (Z.ltb_spec (len (w c)) LogBufferLength); [done|lia]. }
  split; intros p'; unfold console_inbox, console_room, set_console; cbn [consoles];
    (destruct (decide (p' = p)) as [->|Hp]; [rewrite lookup_insert_eq, E; cbn|rewrite lookup_insert_ne by done]).
  - done.
  - by rewrite app_nil_r.
  - rewrite Hc, len_app. change (len [r]) with 1. lia.
  - destruct (consoles t !! p') as [c'|]; [destruct (closed c')|]; lia.
Defined.

(** ** Default loggers *)

(* [dlog/log4go.go:162-168] NewDefaultLogger *)
Definition NewDefaultLogger (lvl : Z) : M terminal (Logger (W := positive)) :=
  p ← NewConsoleLogWriter; mret {["stdout" := mkFilter lvl p]}.

(* [dlog/log4go.go:151-160] NewConsoleLogger *)
Definition NewConsoleLogger (lvl : Z) : M terminal (Logger (W := positive)) := NewDefaultLogger lvl.

(** ** What the console shows *)

(** A console whose format is not empty prints the records it was handed, in order,
    each as one line. *)
Lemma run_turns_format p q : forall t c texts cache, consoles t !! p = Some c -> w c = q ->
  format_all (map (pair (format c)) q) (formatCache c) = (Ret texts, cache) ->
  exists t', run_turns (length q) p t = (Ret tt, t') /\ stdout t' = stdout t +:+ join EmptyString texts /\
    console_inbox p t' = [].
Proof.
  induction q as [|rec q IH]; intros t c texts cache Hc Hw; cbn [map format_all].
  { intros [= <- _]. exists t. unfold console_inbox. rewrite Hc, string_app_nil. done. }
  unfold mbind, M_bind. destruct (FormatLogRecord (format c) (Some rec) (formatCache c)) as [[text|] cache1] eqn:Ef; [|done].
  destruct (format_all (map (pair (format c)) q) cache1) as [[rest|] cache2] eqn:Ea; [|done]. intros [= <- <-].
  edestruct (IH (set_console p (mkConsole (format c) q (closed c) cache1)
    (mkTerminal (consoles t) (stdout t +:+ text) (stderr t)))) as (t' & Hr & Hs & Hi).
  { apply lookup_insert_eq. } { done. } { exact Ea. }
  exists t'. cbn [length run_turns]. unfold mbind, M_bind, run_turn at 1, on_console. rewrite Hc, Hw, Ef.
  split; [done|]. split; [|done]. rewrite Hs, join_empty_cons. cbn. by rewrite string_app_assoc.
Qed.

(** The default logger's messages reach the standard output, in order, one line for
    each message of an enabled level, once the console's goroutine has run. *)
Lemma console_prints zone p t c : consoles t !! p = Some c -> formatCache c = new_cache -> format c ≠ EmptyString ->
  Forall (fun rec => dated zone rec /\ level_ok rec) (w c) ->
  exists t', run_turns (length (w c)) p t = (Ret tt, t') /\
    stdout t' = stdout t +:+ join EmptyString (lines None (map (pair (format c)) (w c))) /\ console_inbox p t' = [].
Proof.
  intros Hc Hnew Hf Hall.
  assert ((format_all (map (pair (format c)) (w c)) (formatCache c)).1 = Ret (lines None (map (pair (format c)) (w c)))) as Ha.
  { rewrite Hnew. apply (format_all_lines zone); [done|done|]. apply Forall_map. eapply Forall_impl; [exact Hall|].
    intros rec [? ?]. done. }
  destruct (format_all _ _) as [r cache] eqn:E in Ha. cbn in Ha. subst r. by eapply run_turns_format.
Qed.

(** ** Examples *)

Definition demo_any : Type := string.
Definition demo_Sprintf (format : string) (args : list demo_any) : string :=
  if String.eqb format "%s" then join EmptyString args else join " " (format :: args).
Definition demo_Sprint (v : demo_any) : string := v.

Definition demo_env : env := mkEnv ["main.serve:31"; "main.main:12"] (mkTime (1581936896 * Second) 28800).

Definition demo_terminal : terminal := exec NewConsoleLogWriter (mkTerminal ∅ EmptyString []).
Definition demo_logger : Logger (W := positive) := {["stdout" := mkFilter DEBUG 1%positive]}.

Lemma demo_not_silent lvl : DEBUG <= lvl -> ~ silent lvl demo_logger.
Proof.
  intros Hl. unfold silent. change (filters demo_logger) with [mkFilter DEBUG 1%positive].
  intros [H _]%Forall_cons_1. cbn in H. lia.
Qed.

Lemma demo_room lvl : has_room lvl demo_logger demo_terminal.
Proof.
  intros p. change (filters demo_logger) with [mkFilter DEBUG 1%positive]. rewrite times_cons. cbn [writer].
  case_bool_decide as Hp; [subst p|cbn; lia]. change (room 1%positive demo_terminal) with (Z.to_nat (LogBufferLength - 0)).
  change (times _ lvl []) with 0%nat. unfold LogBufferLength. destruct (_ && _); lia.
Qed.

Lemma enabled_filters_receive_witness : exists t',
  Info demo_Sprintf demo_Sprint demo_env (AString "started") [] demo_logger demo_terminal = (Ret tt, t') /\
  console_inbox 1 t' = [record demo_env INFO "started"] /\
  Finest demo_Sprintf demo_Sprint demo_env (AClosure (panic "not run")) [] demo_logger demo_terminal = (Ret tt, demo_terminal).
Proof.
  destruct (enabled_filters_receive demo_Sprintf demo_Sprint INFO (Info demo_Sprintf demo_Sprint) demo_env (AString "started")
    [] demo_logger demo_terminal) as [_ H]; [by do 4 right; left|].
  destruct (H "started" demo_terminal) as (t' & Ht & Hh).
  { by apply demo_not_silent. } { done. }
  { by apply demo_room. }
  exists t'. split; [exact Ht|]. split.
  - specialize (Hh 1%positive). exact Hh.
  - destruct (enabled_filters_receive demo_Sprintf demo_Sprint FINEST (Finest demo_Sprintf demo_Sprint) demo_env
      (AClosure (panic "not run")) [] demo_logger demo_terminal) as [H' _]; [by left|]. apply H'. unfold silent.
    change (filters demo_logger) with [mkFilter DEBUG 1%positive]. by constructor.
Defined.

Lemma returned_error_is_logged_witness : exists t',
  Warn demo_Sprintf demo_Sprint demo_env (AString "disk at 90%%") [] demo_logger demo_terminal = (Ret "disk at 90%%", t') /\
  console_inbox 1 t' = [record demo_env WARNING "disk at 90%%"].
Proof.
  destruct (returned_error_is_logged demo_Sprintf demo_Sprint WARNING (Warn demo_Sprintf demo_Sprint) demo_env
    (AString "disk at 90%%") [] demo_logger demo_terminal "disk at 90%%" demo_terminal) as (t' & Ht & Hh);
    [by left|done|apply demo_room|].
  exists t'. split; [exact Ht|]. exact (Hh 1%positive).
Defined.

(** A goroutine that serves a request. *)
Definition demo_data : Gl.glmap := {[Gl.KStr Gl.ClientIp := Gl.VStr "10.0.0.7"; Gl.KStr Gl.LogId := Gl.VStr "77"]}.

Lemma records_carry_request_witness : exists (p : DlogWrapper.program (C := Gl.ConcurrentMap Gl.glmap)) t',
  DlogWrapper.ErrorT demo_Sprintf demo_Sprint id 5 "pay" demo_env (AClosure (mret "late")) [] p =
    (Ret tt, DlogWrapper.mkProgram (DlogWrapper.gl_data p) (DlogWrapper.Global p) t') /\
  console_inbox 1 t' = [mkRecord ERROR (now demo_env) "main.main:12" "late" "pay" "10.0.0.7" "77" EmptyString].
Proof.
  destruct (Gl.gmodels_write (Gl.new_gl true) ∅ 5 demo_data (Gl.new_gl_models true)) as (st & _ & Hst).
  exists (DlogWrapper.mkProgram st demo_logger demo_terminal).
  destruct (DlogWrapper.records_carry_request demo_Sprintf demo_Sprint id (fun str => eq_refl) 5 "pay" "pay" ERROR
    (DlogWrapper.ErrorT demo_Sprintf demo_Sprint id 5 "pay") demo_env (AClosure (mret "late")) []
    (DlogWrapper.mkProgram st demo_logger demo_terminal) (<[5 := demo_data]> ∅)) as [_ Hrec];
    [apply DlogWrapper.call_with_tag; by do 4 right; left|exact Hst|].
  destruct (Hrec "late" demo_terminal eq_refl) as [_ Hsent].
  destruct (Hsent (demo_not_silent ERROR ltac:(by vm_compute)) (demo_room ERROR)) as (t' & Ht & Hh).
  exists t'. split; [exact Ht|]. exact (Hh 1%positive).
Defined.

End DlogConsole.
