(* ===== verification/ChanLog.v ===== *)
(** * Writers behind a channel ([dlog/socklog.go], [FormatLogWriter] of [dlog/pattlog.go])

    Loggers send their records into a channel with a bounded buffer; a goroutine takes
    them out, one after the other, until the channel is closed and empty or it fails.
    What it does with a record is the parameter [consume]. *)

From S2P Require Import Prelude GoStd GoStrings GoTime DlogFormat DlogConsole.
Import DlogFormat.

Module ChanLog.

Section writer.
(** What the goroutine works on; [false] ends it. *)
Context {W : Type}.
Variable consume : LogRecord -> W -> W * bool.
Variable finish : W -> W.

(** The buffer, whether the channel is closed and the goroutine runs, the record at
    which it failed, and the records whose sends have ended, in their order. *)
Record State : Type := mkState {
  queue : list LogRecord; closed : bool; running : bool; failed : option LogRecord; world : W;
  written : list LogRecord; taken : list LogRecord
}.

Definition init (w : W) : State := mkState [] false true None w [] [].

(** A send that has to wait is made by a later step; one that waits when the channel is
    closed panics. *)
(* [dlog/socklog.go:19-21] SocketLogWriter.LogWrite *)
Definition LogWrite (rec : LogRecord) (s : State) : option State :=
  if closed s then None
  else if len (queue s) <? DlogConsole.LogBufferLength
  then Some (mkState (queue s ++ [rec]) (closed s) (running s) (failed s) (world s) (written s ++ [rec]) (taken s))
  else None.

(** A turn of the loop. *)
(* [dlog/socklog.go:43-56] NewSocketLogWriter, the goroutine *)
Definition turn (s : State) : option State :=
  if negb (running s) then None
  else
    match queue s with
    | rec :: q =>
        let '(w, ok) := consume rec (world s) in
        Some (if ok : bool then mkState q (closed s) true (failed s) w (written s) (taken s ++ [rec])
              else mkState q (closed s) false (Some rec) (finish w) (written s) (taken s))
    | [] => if closed s then Some (mkState [] true false (failed s) (finish (world s)) (written s) (taken s)) else None
    end.

(** [Close] of a channel that is closed panics. *)
Definition Close (s : State) : option State :=
  if closed s then None else Some (mkState (queue s) true (running s) (failed s) (world s) (written s) (taken s)).

Inductive label : Type := Written (rec : LogRecord) | Turned | Closed.

Inductive step : State -> label -> State -> Prop :=
| step_write s rec s' : LogWrite rec s = Some s' -> step s (Written rec) s'
| step_turn s s' : turn s = Some s' -> step s Turned s'
| step_close s s' : Close s = Some s' -> step s Closed s'.

Definition lost (s : State) : list LogRecord := match failed s with Some rec => [rec] | None => [] end.

Definition inv (s : State) : Prop :=
  written s = taken s ++ lost s ++ queue s /\ len (queue s) <= DlogConsole.LogBufferLength /\
  (failed s ≠ None -> running s = false).

Lemma step_inv s l s' : inv s -> step s l s' -> inv s'.
Proof.
  intros (Hw & Hb & Hf) Hs. destruct Hs as [s rec s' H|s s' H|s s' H].
  - unfold LogWrite in H. destruct (closed s); [done|]. destruct (Z.ltb_spec (len (queue s)) DlogConsole.LogBufferLength); [|done].
    injection H as <-. split_and!; cbn; [by rewrite Hw, <- !app_assoc| |done]. rewrite len_app. change (len [rec]) with 1. lia.
  - unfold turn in H. destruct (running s) eqn:Er; [|done]. cbn in H.
    assert (failed s = None) as Hn by (destruct (failed s); [exfalso; by assert (true = false) by (by apply Hf)|done]).
    unfold lost in Hw. rewrite Hn in Hw. destruct (queue s) as [|rec q] eqn:Eq.
    + destruct (closed s); [|done]. injection H as <-. unfold inv, lost. cbn. by rewrite Hn.
    + destruct (consume rec (world s)) as [w [|]]; injection H as <-; unfold inv, lost; cbn; rewrite ?Hn;
        rewrite len_cons in Hb; split_and!; try done; try lia. by rewrite Hw, <- app_assoc.
  - unfold Close in H. destruct (closed s); [done|]. by injection H as <-.
Qed.

Lemma chan_reachable w ls s : steps step (init w) ls s -> inv s.
Proof.
  apply (steps_invariant step inv); [intros a l b; apply step_inv|]. split_and!; [done| |done].
  by vm_compute.
Qed.

(** The records are taken in the order they were written, each once, and at most the
    one at which the goroutine fails is lost on the way. *)
Lemma taken_in_order w ls s : steps step (init w) ls s ->
  exists q, written s = taken s ++ lost s ++ q /\ len q <= DlogConsole.LogBufferLength.
Proof. intros (Hw & Hb & _)%chan_reachable. by exists (queue s). Qed.

(** What is written to a goroutine that is gone stays in the buffer; *)
Lemma stopped_keeps s ls s' : running s = false -> steps step s ls s' ->
  running s' = false /\ exists more, queue s' = queue s ++ more /\ written s' = written s ++ more /\
    world s' = world s /\ taken s' = taken s.
Proof.
  intros Hr Hs. induction Hs as [s|s l s1 ls s2 Hst _ IH]; [split; [done|]; exists []; by rewrite !app_nil_r|].
  assert (running s1 = false /\ exists more, queue s1 = queue s ++ more /\ written s1 = written s ++ more /\
    world s1 = world s /\ taken s1 = taken s) as (H1 & m1 & Hq & Hw & Hwo & Ht).
  { destruct Hst as [s rec s' H|s s' H|s s' H].
    - unfold LogWrite in H. destruct (closed s); [done|]. destruct (_ <? _); [|done]. injection H as <-. split; [done|]. by exists [rec].
    - unfold turn in H. by rewrite Hr in H.
    - unfold Close in H. destruct (closed s); [done|]. injection H as <-. split; [done|]. exists []. by rewrite !app_nil_r. }
  destruct (IH H1) as (H2 & m2 & Hq2 & Hw2 & Hwo2 & Ht2). split; [done|]. exists (m1 ++ m2).
  rewrite Hq2, Hw2, Hwo2, Ht2, Hq, Hw, Hwo, Ht. by rewrite !app_assoc.
Qed.

(** One failure of the goroutine and the program stands still: after it no record
    is handed on any more, at most as many can be written as the buffer holds, and
    once it is full every logger that writes to it waits, and waits until the
    channel is closed, which panics in it. *)
Theorem failed_writer_blocks w ls s ls' s' rec : steps step (init w) ls s -> failed s = Some rec -> steps step s ls' s' ->
  taken s' = taken s /\ world s' = world s /\
  (exists more, written s' = written s ++ more /\ len more <= DlogConsole.LogBufferLength) /\
  (len (queue s') = DlogConsole.LogBufferLength ->
    forall r ls'' s'', steps step s' ls'' s'' -> LogWrite r s'' = None /\ Forall (eq Closed) ls'').
Proof.
  intros (Hw & Hb & Hf)%chan_reachable Hfail Hs. assert (running s = false) as Hr by (apply Hf; by rewrite Hfail).
  assert (inv s') as (Hw' & Hb' & _). { eapply (steps_invariant step inv); [intros a l b; apply step_inv|by split_and!|exact Hs]. }
  destruct (stopped_keeps s ls' s' Hr Hs) as (Hr' & more & Hq & Hwr & Hwo & Ht). split_and!; try done.
  - exists more. split; [done|]. rewrite Hq, len_app in Hb'. pose proof (len_nonneg (queue s)). lia.
  - intros Hfull r ls'' s'' Hs''. clear -Hr' Hfull Hs''. induction Hs'' as [s|s l s1 ls s2 Hst _ IH].
    + split; [|done]. unfold LogWrite. destruct (closed s); [done|]. by rewrite (proj2 (Z.ltb_ge _ _)) by lia.
    + assert (l = Closed /\ running s1 = false /\ queue s1 = queue s) as (-> & H1 & H2).
      { destruct Hst as [s rec s' H|s s' H|s s' H].
        - unfold LogWrite in H. destruct (closed s); [done|]. by rewrite (proj2 (Z.ltb_ge _ _)) in H by lia.
        - unfold turn in H. by rewrite Hr' in H.
        - unfold Close in H. destruct (closed s); [done|]. by injection H as <-. }
      rewrite H2 in IH. destruct (IH H1 Hfull). split; [done|]. by constructor.
Qed.

End writer.

(** ** The socket *)

(** What was sent, whether the socket is open, and how often a failure was reported. *)
Record Socket : Type := mkSocket { sent : list (list byte); sock_open : bool; reported : nat }.

Section socket.
Variables (Marshal : LogRecord -> list byte + string) (Write : list (list byte) -> list byte -> option string) (proto : string).

(* [dlog/socklog.go:45-55] NewSocketLogWriter, a record *)
Definition send_record (rec : LogRecord) (s : Socket) : Socket * bool :=
  match Marshal rec with
  | inr _ => (mkSocket (sent s) (sock_open s) (S (reported s)), false)
  | inl js =>
      match Write (sent s) js with
      | Some _ => (mkSocket (sent s) (sock_open s) (S (reported s)), false)
      | None => (mkSocket (sent s ++ [js]) (sock_open s) (reported s), true)
      end
  end.

(** Only a stream is closed. *)
(* [dlog/socklog.go:37-41] NewSocketLogWriter, the end *)
Definition close_socket (s : Socket) : Socket :=
  if String.eqb proto "tcp" then mkSocket (sent s) false (reported s) else s.

(** What is on the wire is the JSON of the records taken. *)
Lemma sent_is_taken ls s : steps (step send_record close_socket) (init (mkSocket [] true 0)) ls s ->
  Forall2 (fun rec js => Marshal rec = inl js) (taken s) (sent (world s)).
Proof.
  apply (steps_invariant (step send_record close_socket) (fun s => Forall2 (fun rec js => Marshal rec = inl js) (taken s) (sent (world s))));
    [|constructor].
  intros a l b HI Hs. destruct Hs as [s' rec s'' H|s' s'' H|s' s'' H].
  - unfold LogWrite in H. destruct (closed s'); [done|]. destruct (_ <? _); [|done]. by injection H as <-.
  - unfold turn in H. destruct (running s'); [|done]. cbn in H. assert (forall w, sent (close_socket w) = sent w) as Hc
      by (intros w; unfold close_socket; by destruct (String.eqb _ _)).
    destruct (queue s') as [|rec q]; [destruct (closed s'); [|done]; injection H as <-; cbn; by rewrite Hc|].
    unfold send_record in H. destruct (Marshal rec) as [js|] eqn:Em; [destruct (Write (sent (world s')) js)|]; injection H as <-;
      cbn; rewrite ?Hc; try done. by apply Forall2_app; [|constructor].
  - unfold Close in H. destruct (closed s'); [done|]. by injection H as <-.
Qed.
End socket.

(** ** The writer of formats *)

Section formats.
Variable format : string.

(** The text that was written, and the cache; a panic of the formatting ends the
    program. *)
(* [dlog/pattlog.go:144-148] FormatLogWriter.run *)
Definition print_record (rec : LogRecord) (s : string * formatCacheType) : (string * formatCacheType) * bool :=
  match FormatLogRecord format (Some rec) s.2 with
  | (Ret text, cache) => ((s.1 +:+ text, cache), true)
  | (Panic _, cache) => ((s.1, cache), false)
  end.

(* [dlog/pattlog.go:135-142] NewFormatLogWriter *)
Definition NewFormatLogWriter : State (W := string * formatCacheType) := init (EmptyString, new_cache).
End formats.

(** ** A socket that breaks *)

Module Broken.

Definition rec (m : string) : LogRecord := mkRecord 0 (GoTime.mkTime 0 0) EmptyString m EmptyString EmptyString EmptyString EmptyString.
Definition json (r : LogRecord) : list byte + string := inl (String.list_byte_of_string (Message r)).
Definition once (sent : list (list byte)) (_ : list byte) : option string :=
  match sent with [] => None | _ => Some "broken pipe"%string end.
Abbreviation step_ := (step (send_record json once) (close_socket "tcp")).

Definition run : list label := [Written (rec "a"); Turned; Written (rec "b"); Turned].

Lemma failed_writer_blocks_witness : exists s s', steps step_ (init (mkSocket [] true 0)) run s /\
  steps step_ s [Written (rec "c")] s' /\ sent (world s') = [String.list_byte_of_string "a"] /\ sock_open (world s') = false.
Proof.
  pose (w := mkSocket [String.list_byte_of_string "a"] false 1).
  pose (s4 := mkState [] false false (Some (rec "b")) w [rec "a"; rec "b"] [rec "a"]).
  pose (s5 := mkState [rec "c"] false false (Some (rec "b")) w [rec "a"; rec "b"; rec "c"] [rec "a"]).
  assert (steps step_ (init (mkSocket [] true 0)) run s4) as Hrun.
  { econstructor; [apply step_write; reflexivity|]. econstructor; [apply step_turn; reflexivity|].
    econstructor; [apply step_write; reflexivity|]. econstructor; [apply step_turn; reflexivity|]. constructor. }
  assert (steps step_ s4 [Written (rec "c")] s5) as H2 by (econstructor; [apply step_write; reflexivity|constructor]).
  exists s4, s5. split; [exact Hrun|]. split; [exact H2|].
  destruct (failed_writer_blocks (send_record json once) (close_socket "tcp") (mkSocket [] true 0) run s4
    [Written (rec "c")] s5 (rec "b") Hrun eq_refl H2) as (_ & Hw & _). rewrite Hw. done.
Defined.

End Broken.

End ChanLog.
