(* ===== verification/GdLog.v ===== *)
(** * The engine's logging functions ([log.go])

    They call the ones of [dlog] by the same name, from a frame of their own. *)

From S2P Require Import Prelude GoStd GoTime GoStrings Gl DlogFormat Dlog DlogWrapper DlogConsole.
Import GoStrings GoTime DlogFormat Dlog DlogConsole.

Module GdLog.

Section log.
Context {C : Type} `{!Gl.StrStore C Gl.glmap} {W S : Type} `{!LogWriter W S} {any : Type}.
Variable Sprintf : string -> list any -> string.
Variable Sprint : any -> string.
Variable box : string -> any.

Abbreviation program := (DlogWrapper.program (C := C) (W := W) (S := S)).
Abbreviation arg := (Dlog.arg (S := S) (any := any)).

(* [log.go:126-128] LogClose *)
Definition LogClose : M program unit := DlogWrapper.Close.

(* [log.go:134-136] Crash *)
Definition Crash (e : env) : list any -> M program unit := DlogWrapper.Crash Sprintf (enter "gd.Crash" e).
(* [log.go:138-140] Crashf *)
Definition Crashf (e : env) : string -> list any -> M program unit := DlogWrapper.Crashf Sprintf (enter "gd.Crashf" e).
(* [log.go:142-144] Exit *)
Definition Exit (e : env) : list any -> M program Z := DlogWrapper.Exit Sprintf (enter "gd.Exit" e).
(* [log.go:146-148] Exitf *)
Definition Exitf (e : env) : string -> list any -> M program Z := DlogWrapper.Exitf Sprintf (enter "gd.Exitf" e).
(* [log.go:150-152] Stderr *)
Definition Stderr (e : env) : list any -> M program unit := DlogWrapper.Stderr Sprintf (enter "gd.Stderr" e).
(* [log.go:154-156] Stderrf *)
Definition Stderrf (e : env) : string -> list any -> M program unit := DlogWrapper.Stderrf Sprintf (enter "gd.Stderrf" e).
(* [log.go:158-160] Stdout *)
Definition Stdout (e : env) : list any -> M program unit := DlogWrapper.Stdout Sprintf (enter "gd.Stdout" e).
(* [log.go:162-164] Stdoutf *)
Definition Stdoutf (e : env) : string -> list any -> M program unit := DlogWrapper.Stdoutf Sprintf (enter "gd.Stdoutf" e).
(* [log.go:166-168] GetLevel *)
Definition GetLevel : M program string := DlogWrapper.GetLevel.
(* [log.go:170-172] SetLevel *)
Definition SetLevel (lvl : Z) : M program unit := DlogWrapper.SetLevel lvl.
(* [log.go:174-176] Log *)
Definition Log (e : env) : Z -> string -> string -> M program unit := DlogWrapper.Log (enter "gd.Log" e).
(* [log.go:178-180] Logf *)
Definition Logf (e : env) : Z -> string -> list any -> M program unit := DlogWrapper.Logf Sprintf (enter "gd.Logf" e).
(* [log.go:182-184] Logc *)
Definition Logc (e : env) : Z -> M S string -> M program unit := DlogWrapper.Logc (enter "gd.Logc" e).
(* [log.go:186-188] Finest *)
Definition Finest (e : env) : arg -> list any -> M program unit := DlogWrapper.Finest Sprintf Sprint (enter "gd.Finest" e).
(* [log.go:190-192] Fine *)
Definition Fine (e : env) : arg -> list any -> M program unit := DlogWrapper.Fine Sprintf Sprint (enter "gd.Fine" e).

(* [log.go:130-132] Debug *)
Definition Debug (goid : Z) (e : env) : arg -> list any -> M program unit := DlogWrapper.Debug Sprintf Sprint goid (enter "gd.Debug" e).
(* [log.go:194-196] DebugT *)
Definition DebugT (goid : Z) (tag : string) (e : env) : arg -> list any -> M program unit :=
  DlogWrapper.DebugT Sprintf Sprint goid tag (enter "gd.DebugT" e).
(* [log.go:198-200] Trace *)
Definition Trace (goid : Z) (e : env) : arg -> list any -> M program unit := DlogWrapper.Trace Sprintf Sprint goid (enter "gd.Trace" e).
(* [log.go:202-204] TraceT *)
Definition TraceT (goid : Z) (tag : string) (e : env) : arg -> list any -> M program unit :=
  DlogWrapper.TraceT Sprintf Sprint goid tag (enter "gd.TraceT" e).
(* [log.go:206-208] Info *)
Definition Info (goid : Z) (e : env) : arg -> list any -> M program unit := DlogWrapper.Info Sprintf Sprint goid (enter "gd.Info" e).
(* [log.go:210-212] InfoT *)
Definition InfoT (goid : Z) (tag : string) (e : env) : arg -> list any -> M program unit :=
  DlogWrapper.InfoT Sprintf Sprint goid tag (enter "gd.InfoT" e).
(* [log.go:214-216] Warn *)
Definition Warn (goid : Z) (e : env) : arg -> list any -> M program unit := DlogWrapper.Warn Sprintf Sprint box goid (enter "gd.Warn" e).
(* [log.go:218-220] WarnT *)
Definition WarnT (goid : Z) (tag : string) (e : env) : arg -> list any -> M program unit :=
  DlogWrapper.WarnT Sprintf Sprint box goid tag (enter "gd.WarnT" e).
(* [log.go:222-224] Error *)
Definition Error (goid : Z) (e : env) : arg -> list any -> M program unit := DlogWrapper.Error Sprintf Sprint box goid (enter "gd.Error" e).
(* [log.go:226-228] ErrorT *)
Definition ErrorT (goid : Z) (tag : string) (e : env) : arg -> list any -> M program unit :=
  DlogWrapper.ErrorT Sprintf Sprint box goid tag (enter "gd.ErrorT" e).
(* [log.go:230-232] Critical *)
Definition Critical (goid : Z) (e : env) : arg -> list any -> M program unit :=
  DlogWrapper.Critical Sprintf Sprint box goid (enter "gd.Critical" e).
(* [log.go:234-236] CriticalT *)
Definition CriticalT (goid : Z) (tag : string) (e : env) : arg -> list any -> M program unit :=
  DlogWrapper.CriticalT Sprintf Sprint box goid tag (enter "gd.CriticalT" e).

(** The functions that log with the request's data, with the tag they give. *)
Definition tagged (tag : string) : list (Z * string * (Z -> env -> arg -> list any -> M program unit)) :=
  [(DEBUG, EmptyString, Debug); (TRACE, EmptyString, Trace); (INFO, EmptyString, Info);
   (WARNING, EmptyString, Warn); (ERROR, EmptyString, Error); (CRITICAL, EmptyString, Critical);
   (DEBUG, tag, fun goid => DebugT goid tag); (TRACE, tag, fun goid => TraceT goid tag); (INFO, tag, fun goid => InfoT goid tag);
   (WARNING, tag, fun goid => WarnT goid tag); (ERROR, tag, fun goid => ErrorT goid tag); (CRITICAL, tag, fun goid => CriticalT goid tag)].

Context `{!EqDecision W} {IB : Inbox (W := W) (S := S)}.
Hypothesis Sprintf_s : forall str, Sprintf "%s" [box str] = str.

Lemma tagged_calls tag lvl tag' (m : Z -> env -> arg -> list any -> M program unit) : (lvl, tag', m) ∈ tagged tag ->
  exists name gname (k : Z -> env -> arg -> list any -> M program unit),
    (k = (fun goid => DlogWrapper.log_tagged Sprintf Sprint lvl goid tag') \/
     k = (fun goid => DlogWrapper.log_tagged_error Sprintf Sprint box lvl goid tag')) /\
    forall goid e, m goid e = k goid (enter name (enter gname e)).
Proof.
  intros Hm. repeat (apply elem_of_cons in Hm as [[= -> -> ->]|Hm];
    [eexists _, _, _; first [split; [by left|intros goid e; reflexivity]|split; [by right|intros goid e; reflexivity]]|]).
  - by apply elem_of_nil in Hm.
  Unshelve. all: exact EmptyString.
Qed.

(** A line that is logged with the engine's functions shows where it comes from:
    every function reaches the writers of the filters that let its level through with
    the text, the address and the number of the request of the calling goroutine, the
    tag, and, as its source, the function that called the engine's. *)
Theorem lines_show_caller tag lvl tag' (m : Z -> env -> arg -> list any -> M program unit) goid e caller
  arg0 args p A msg s1 : (lvl, tag', m) ∈ tagged tag -> Gl.gmodels (DlogWrapper.gl_data p) A ->
  says Sprintf Sprint arg0 args (DlogWrapper.writers p) msg s1 -> has_room lvl (DlogWrapper.Global p) s1 ->
  ~ silent lvl (DlogWrapper.Global p) -> head (frames e) = Some caller ->
  exists s' rec, m goid e arg0 args p = (Ret tt, DlogWrapper.mkProgram (DlogWrapper.gl_data p) (DlogWrapper.Global p) s') /\
    hands rec lvl (DlogWrapper.Global p) s1 s' /\
    Source rec = caller /\ Message rec = msg /\ Tag rec = tag' /\
    Ip rec = DlogWrapper.as_string (cc ← A !! goid; cc !! Gl.KStr Gl.ClientIp) /\
    LogId rec = DlogWrapper.as_string (cc ← A !! goid; cc !! Gl.KStr Gl.LogId).
Proof.
  intros (name & gname & k & Hk & Hm)%tagged_calls Hg Hs Hr He Hc. rewrite Hm.
  destruct (DlogWrapper.tagged_records Sprintf Sprint box Sprintf_s lvl goid tag' (k goid) name (enter gname e) arg0 args p A msg s1)
    as (s' & Hrun & Hh); [by destruct Hk as [->| ->]; [left|right]|done..|].
  eexists s', _. split; [exact Hrun|]. split; [exact Hh|].
  destruct e as [[|f fs] t]; [done|]. injection Hc as <-. done.
Qed.

End log.
End GdLog.

(** ** A program that serves a request *)

Module GdDemo.

Definition data : Gl.glmap :=
  {[Gl.KStr Gl.ClientIp := Gl.VStr "10.0.0.7"; Gl.KStr Gl.LogId := Gl.VStr "77"; Gl.KStr Gl.Url := Gl.VStr "/Billing/Pay"]}.

(** Goroutine 5 of a program that logs to the console. *)
Lemma serving : exists p : DlogWrapper.program (C := Gl.ConcurrentMap Gl.glmap),
  Gl.gmodels (DlogWrapper.gl_data p) (<[5 := data]> ∅) /\ DlogWrapper.Global p = demo_logger /\
  DlogWrapper.writers p = demo_terminal.
Proof.
  destruct (Gl.gmodels_write (Gl.new_gl true) ∅ 5 data (Gl.new_gl_models true)) as (st & _ & Hst).
  by exists (DlogWrapper.mkProgram st demo_logger demo_terminal).
Defined.

Lemma lines_show_caller_witness : exists (p : DlogWrapper.program (C := Gl.ConcurrentMap Gl.glmap)) s' rec,
  GdLog.InfoT demo_Sprintf demo_Sprint 5 "pay" demo_env (AString "paid") [] p =
    (Ret tt, DlogWrapper.mkProgram (DlogWrapper.gl_data p) (DlogWrapper.Global p) s') /\
  console_inbox 1 s' = [rec] /\ Source rec = "main.serve:31"%string /\ Message rec = "paid"%string /\
  Ip rec = "10.0.0.7"%string /\ LogId rec = "77"%string.
Proof.
  destruct serving as (p & Hg & Hl & Hw).
  destruct (GdLog.lines_show_caller demo_Sprintf demo_Sprint id (fun str => eq_refl) "pay" INFO "pay"
    (fun goid => GdLog.InfoT demo_Sprintf demo_Sprint goid "pay") 5 demo_env "main.serve:31"%string (AString "paid") [] p
    (<[5 := data]> ∅) "paid" (DlogWrapper.writers p)) as (s' & rec & Hrun & Hh & Hs & Hm & _ & Hip & Hid);
    [by do 8 right; left|done|done|rewrite Hl, Hw; apply demo_room|rewrite Hl; by apply demo_not_silent|done|].
  rewrite Hl, Hw in Hh. exists p, s', rec. split_and!; [exact Hrun|exact (Hh 1%positive)|exact Hs|exact Hm|exact Hip|exact Hid].
Defined.

End GdDemo.
