(* ===== verification/GrpcLog.v ===== *)
(** * The logger of the gRPC library ([net/dgrpc/log.go])

    What the library logs goes to the program's own logger, with the data of the
    goroutine that serves the request. *)

From S2P Require Import Prelude GoStd GoTime GoStrings Gl Utls DlogFormat Dlog DlogWrapper DlogConsole GdLog.
From Stdlib Require Import Floats.SpecFloat.
Import GoStrings GoTime DlogFormat Dlog DlogConsole.

Module GrpcLog.

Section grpclog.
Context {C : Type} `{!Gl.StrStore C Gl.glmap} {W S : Type} `{!LogWriter W S} {any : Type}.
Variable Sprintf : string -> list any -> string.
(** [fmt.Sprint] of several values; a text as a value; what a value is for the
    conversions. *)
Variable Sprint : list any -> string.
Variable box : string -> any.
Variable FormatFloat : spec_float -> string.
Variable kind : any -> Utls.goval.

Abbreviation program := (DlogWrapper.program (C := C) (W := W) (S := S)).

(* [net/dgrpc/log.go:25-34] infoLog, warningLog, errorLog, fatalLog *)
Definition infoLog : Z := 0.
Definition warningLog : Z := 1.
Definition errorLog : Z := 2.
Definition fatalLog : Z := 3.

Definition LogTag : string := "GRPC_PROCESS".

(* [net/dgrpc/log.go:226-251] batchGetCtx *)
Definition batchGetCtx (goid : Z) : M program (string * string * string) :=
  vs ← DlogWrapper.on_gl_data (Gl.BatchGet goid [Gl.KStr Gl.LogId; Gl.KStr Gl.Url; Gl.KStr Gl.ClientIp]);
  mret (match vs with
        | None => (EmptyString, EmptyString, EmptyString)
        | Some vs => (DlogWrapper.as_string (vs !! Gl.KStr Gl.Url), DlogWrapper.as_string (vs !! Gl.KStr Gl.ClientIp),
                      DlogWrapper.as_string (vs !! Gl.KStr Gl.LogId))
        end).

(* [net/dgrpc/log.go:213-224] GrpcLogger.LogWithDepthAndLevel *)
Definition LogWithDepthAndLevel (goid : Z) (e : env) (level : Z) (args : list any) : M program unit :=
  let e := enter "LogWithDepthAndLevel" e in
  match args with
  | [] => mret tt
  | a :: rest =>
      ctx ← batchGetCtx goid;
      let '(url, ip, logId) := ctx in
      let first := Utls.MustString FormatFloat (kind a) EmptyString in
      DlogWrapper.on_Global (Dlog.IntLogfTagUrl Sprintf e LogTag ip logId url level first rest)
  end.

Definition log_values (level : Z) (name : string) (goid : Z) (e : env) (args : list any) : M program unit :=
  LogWithDepthAndLevel goid (enter name e) level [box (Sprint args)].
Definition log_format (level : Z) (name : string) (goid : Z) (e : env) (format : string) (args : list any) : M program unit :=
  LogWithDepthAndLevel goid (enter name e) level [box (Sprintf format args)].

(* [net/dgrpc/log.go:141-144] GrpcLogger.Info *)
Definition Info := log_values INFO "Info".
(* [net/dgrpc/log.go:146-149] GrpcLogger.Infoln *)
Definition Infoln := log_values INFO "Infoln".
(* [net/dgrpc/log.go:151-154] GrpcLogger.Infof *)
Definition Infof := log_format INFO "Infof".
(* [net/dgrpc/log.go:156-159] GrpcLogger.Warning *)
Definition Warning := log_values WARNING "Warning".
(* [net/dgrpc/log.go:161-164] GrpcLogger.Warningln *)
Definition Warningln := log_values WARNING "Warningln".
(* [net/dgrpc/log.go:166-169] GrpcLogger.Warningf *)
Definition Warningf := log_format WARNING "Warningf".
(* [net/dgrpc/log.go:171-174] GrpcLogger.Error *)
Definition Error := log_values ERROR "Error".
(* [net/dgrpc/log.go:176-179] GrpcLogger.Errorln *)
Definition Errorln := log_values ERROR "Errorln".
(* [net/dgrpc/log.go:181-184] GrpcLogger.Errorf *)
Definition Errorf := log_format ERROR "Errorf".

(* [net/dgrpc/log.go:186-188] GrpcLogger.Fatal *)
Definition Fatal (e : env) (args : list any) : M program unit := DlogWrapper.Crash Sprintf (enter "Fatal" e) args.
(* [net/dgrpc/log.go:190-192] GrpcLogger.Fatalln *)
Definition Fatalln (e : env) (args : list any) : M program unit := DlogWrapper.Crash Sprintf (enter "Fatalln" e) args.
(** The format is dropped. *)
(* [net/dgrpc/log.go:194-196] GrpcLogger.Fatalf *)
Definition Fatalf (e : env) (format : string) (args : list any) : M program unit :=
  DlogWrapper.Crash Sprintf (enter "Fatalf" e) args.

(* [net/dgrpc/log.go:198-211] GrpcLogger.V *)
Definition V (level : Z) : M program bool :=
  if level =? infoLog then DlogWrapper.IsEnabledFor INFO
  else if level =? warningLog then DlogWrapper.IsEnabledFor WARNING
  else if level =? errorLog then DlogWrapper.IsEnabledFor ERROR
  else mret (level =? fatalLog).

(** *** What reaches the writers *)

Context `{!EqDecision W} {IB : Inbox (W := W) (S := S)}.
Hypothesis kind_box : forall str, kind (box str) = Utls.GString str.

Lemma batchGetCtx_ok p (A : gmap Z Gl.glmap) goid : Gl.gmodels (DlogWrapper.gl_data p) A ->
  let get k := DlogWrapper.as_string (cc ← A !! goid; cc !! Gl.KStr k) in
  batchGetCtx goid p = (Ret (get Gl.Url, get Gl.ClientIp, get Gl.LogId), p).
Proof.
  intros Hg. cbv zeta. unfold batchGetCtx, DlogWrapper.on_gl_data, Gl.BatchGet, Gl.with_gl, Gl.getGl, mbind, M_bind.
  rewrite (Gl.gmodels_read _ A goid Hg). destruct p as [g log s]. cbn [DlogWrapper.gl_data].
  destruct (A !! goid) as [cc|] eqn:E; cbn [option_bind mret M_ret]; [|done].
  rewrite Gl.BatchGet_loop, !map_lookup_filter.
  by destruct (cc !! Gl.KStr Gl.ClientIp), (cc !! Gl.KStr Gl.LogId), (cc !! Gl.KStr Gl.Url).
Qed.

(** The methods with a severity, and the text each makes of a format and values. *)
Definition severities : list (Z * Z * (Z -> env -> string -> list any -> M program unit) * (string -> list any -> string)) :=
  [(infoLog, INFO, fun g e _ => Info g e, fun _ => Sprint); (infoLog, INFO, fun g e _ => Infoln g e, fun _ => Sprint);
   (infoLog, INFO, Infof, Sprintf);
   (warningLog, WARNING, fun g e _ => Warning g e, fun _ => Sprint); (warningLog, WARNING, fun g e _ => Warningln g e, fun _ => Sprint);
   (warningLog, WARNING, Warningf, Sprintf);
   (errorLog, ERROR, fun g e _ => Error g e, fun _ => Sprint); (errorLog, ERROR, fun g e _ => Errorln g e, fun _ => Sprint);
   (errorLog, ERROR, Errorf, Sprintf)].

Definition grpc_record (e : env) (lvl : Z) (data : option Gl.glmap) (msg : string) : LogRecord :=
  let get k := DlogWrapper.as_string (cc ← data; cc !! Gl.KStr k) in
  mkRecord lvl (now e) (default EmptyString (frames e !! 0%nat)) msg LogTag (get Gl.ClientIp) (get Gl.LogId) (get Gl.Url).

Lemma severities_log sev lvl m text : (sev, lvl, m, text) ∈ severities ->
  (forall p, V sev p = DlogWrapper.IsEnabledFor lvl p) /\ exists name, forall goid e f args,
    m goid e f args = LogWithDepthAndLevel goid (enter name e) lvl [box (text f args)].
Proof.
  intros Hm. repeat (apply elem_of_cons in Hm as [[= -> -> -> ->]|Hm]; [split; [done|eexists; intros goid e f args;
    unfold Info, Infoln, Infof, Warning, Warningln, Warningf, Error, Errorln, Errorf, log_values, log_format; reflexivity]|]).
  by apply elem_of_nil in Hm.
Qed.

(** The logger of the gRPC library says of a severity whether its records would
    reach any writer, and is right: where it says no, the methods of the severity do
    nothing; where it says yes, the writers of the filters of that level receive the
    text once each, with the tag of the library, its caller as the source, and the
    address, number and method that the request's goroutine has stored. *)
Theorem severity_matches sev lvl m text goid e f args p A : (sev, lvl, m, text) ∈ severities ->
  Gl.gmodels (DlogWrapper.gl_data p) A ->
  exists b, V sev p = (Ret b, p) /\
    if b : bool then has_room lvl (DlogWrapper.Global p) (DlogWrapper.writers p) ->
      exists s', m goid e f args p = (Ret tt, DlogWrapper.mkProgram (DlogWrapper.gl_data p) (DlogWrapper.Global p) s') /\
        hands (grpc_record e lvl (A !! goid) (text f args)) lvl (DlogWrapper.Global p) (DlogWrapper.writers p) s'
    else m goid e f args p = (Ret tt, p).
Proof.
  intros [HV [name Hm]]%severities_log Hg. exists (Dlog.IsEnabledFor lvl (DlogWrapper.Global p)). split; [by rewrite HV|].
  rewrite Hm. unfold LogWithDepthAndLevel. rewrite (bind_run _ _ _ _ _ (batchGetCtx_ok p A goid Hg)), kind_box.
  cbn [Utls.MustString]. unfold DlogWrapper.on_Global, DlogWrapper.on_writers, gets, mbind, M_bind, Dlog.IntLogfTagUrl.
  destruct (Dlog.IsEnabledFor lvl _) eqn:He; cbn [negb]; [|by destruct p].
  intros Hr. destruct (dispatch_hands lvl (grpc_record e lvl (A !! goid) (text f args)) _ _ Hr) as (s' & Hd & Hh).
  exists s'. split; [|done]. match goal with |- context [dispatch ?l ?r ?g ?w] =>
    change (dispatch l r g w) with (dispatch lvl (grpc_record e lvl (A !! goid) (text f args)) g w) end. by rewrite Hd.
Qed.

(** [Fatalf] panics with its values joined: the format is not part of the message. *)
Lemma Fatalf_format e f f' args p : Fatalf e f args p = Fatalf e f' args p.
Proof. done. Qed.

(** Without values nothing is logged. *)
Lemma Fatalf_empty e f p : Fatalf e f [] p = (Panic "[]", p).
Proof. done. Qed.

End grpclog.
(** ** A program that serves a request *)

Module Demo.
Import GdDemo.

Lemma severity_matches_witness : exists (p : DlogWrapper.program (C := Gl.ConcurrentMap Gl.glmap)) b s',
  V warningLog p = (Ret b, p) /\ b = true /\
  Warningf demo_Sprintf id (fun _ => EmptyString) Utls.GString 5 demo_env "lost %s" ["peer"%string] p =
    (Ret tt, DlogWrapper.mkProgram (DlogWrapper.gl_data p) (DlogWrapper.Global p) s') /\
  console_inbox 1 s' = [mkRecord WARNING (now demo_env) "main.serve:31" (demo_Sprintf "lost %s" ["peer"%string]) "GRPC_PROCESS"
    "10.0.0.7" "77" "/Billing/Pay"].
Proof.
  destruct serving as (p & Hg & Hl & Hw).
  destruct (severity_matches demo_Sprintf (join " ") id (fun _ => EmptyString) Utls.GString (fun str => eq_refl)
    warningLog WARNING (Warningf demo_Sprintf id (fun _ => EmptyString) Utls.GString) demo_Sprintf 5 demo_env
    "lost %s" ["peer"%string] p (<[5 := data]> ∅)) as (b & HV & Hb);
    [by do 5 right; left|done|].
  assert (b = true) as Hbt.
  { change (V warningLog p) with (Ret (Dlog.IsEnabledFor WARNING (DlogWrapper.Global p)), p) in HV.
    assert (Dlog.IsEnabledFor WARNING demo_logger = true) as He by (vm_compute; reflexivity).
    rewrite Hl, He in HV. by injection HV as <-. }
  rewrite Hbt in Hb. destruct Hb as (s' & Hrun & Hh); [rewrite Hl, Hw; apply demo_room|].
  specialize (Hh 1%positive). rewrite Hl, Hw, lookup_insert_eq in Hh.
  exists p, b, s'. split_and!; [exact HV|exact Hbt|exact Hrun|]. exact Hh.
Defined.

End Demo.
End GrpcLog.
