(* ===== verification/FileLog.v ===== *)
(** * The file writer and its rotation ([dlog/filelog.go])

    A file writer is a channel of records and a goroutine that writes them to a
    file, which it renames and opens anew when a bound is reached or the day or the
    hour changes.  The files are a map from names to contents; whether a system call
    succeeds is a parameter. *)

From S2P Require Import Prelude GoStd GoStrings GoTime DlogFormat.
Import GoStd GoStrings GoTime DlogFormat.

Module FileLog.

(** The fields that do not change while the goroutine runs. *)
(* [dlog/filelog.go:17-56] FileLogWriter, settings *)
Record settings : Type := mkSettings {
  filename : string; format : string; header : string; trailer : string;
  maxLines : Z; maxsize : Z; daily : bool; hourly : bool; rotate : bool; ScribeCategory : string
}.

(** [*os.File]: nil, closed, or open for appending to [filename]. *)
Inductive handle : Type := HNil | HClosed | HOpen.

(* [dlog/filelog.go:17-56] FileLogWriter, state *)
Record FileLogWriter : Type := mkWriter {
  file : handle; maxLinesCurLines : Z; maxsizeCurSize : Z; dailyOpenDate : Z; hourlyOpenHour : Z;
  formatCache : formatCacheType
}.

(** The writer with the files and directories it works on. *)
Record world : Type := mkWorld { writer : FileLogWriter; files : gmap string string; dirs : gset string }.

Definition with_writer (w : FileLogWriter) (s : world) : world := mkWorld w (files s) (dirs s).
Definition with_files (fs : gmap string string) (s : world) : world := mkWorld (writer s) fs (dirs s).

Definition with_file (h : handle) (w : FileLogWriter) : FileLogWriter :=
  mkWriter h (maxLinesCurLines w) (maxsizeCurSize w) (dailyOpenDate w) (hourlyOpenHour w) (formatCache w).
Definition with_cache (c : formatCacheType) (w : FileLogWriter) : FileLogWriter :=
  mkWriter (file w) (maxLinesCurLines w) (maxsizeCurSize w) (dailyOpenDate w) (hourlyOpenHour w) c.
Definition with_counts (lines size : Z) (w : FileLogWriter) : FileLogWriter :=
  mkWriter (file w) lines size (dailyOpenDate w) (hourlyOpenHour w) (formatCache w).
Definition opened (now : Time) (w : FileLogWriter) : FileLogWriter :=
  mkWriter (file w) 0 0 (Day now) (Hour now) (formatCache w).

Definition exists_file (fs : gmap string string) (name : string) : bool := bool_decide (is_Some (fs !! name)).

(** The first of [n] numbers whose file name is free. *)
Fixpoint free_name (fs : gmap string string) (name : Z -> string) (num : Z) (n : nat) : option string :=
  match n with
  | O => None
  | S n => if exists_file fs (name num) then free_name fs name (num + 1) n else Some (name num)
  end.

(** A text that the number 0 leaves as it is. *)
Definition dated_name (base stamp : string) (num : Z) : string :=
  if num =? 0 then base +:+ "." +:+ stamp else base +:+ "." +:+ stamp +:+ "." +:+ zero_pad 3 num.

(** A directory and those above it. *)
Definition parents (path : string) : list string :=
  map (fun n => join "/" (take n (split "/" path))) (seq 1 (length (split "/" path))).

Section writer.
Variable cfg : settings.
Variable writable creatable openable makeable : string -> bool.
Variable renamable : string -> string -> bool.

Definition log_record (created : Time) : LogRecord :=
  mkRecord 0 created EmptyString EmptyString EmptyString EmptyString EmptyString EmptyString.

Definition format_text (f : string) (rec : LogRecord) : M world string := fun s =>
  match FormatLogRecord f (Some rec) (formatCache (writer s)) with
  | (r, c) => (r, with_writer (with_cache c (writer s)) s)
  end.

(** [fmt.Fprint(w.file, text)]: the number of bytes, or an error. *)
Definition Fprint (text : string) : M world (option Z) := fun s =>
  match file (writer s) with
  | HOpen =>
      if writable (filename cfg)
      then (Ret (Some (Z.of_nat (String.length text))), with_files (alter (fun c => c +:+ text) (filename cfg) (files s)) s)
      else (Ret None, s)
  | _ => (Ret None, s)
  end.

(** [w.file.Close()]: a nil file stays nil. *)
Definition close_file : M world unit :=
  modify (fun s => with_writer (match file (writer s) with HNil => writer s | _ => with_file HClosed (writer s) end) s).

(** The trailer and the close, at the time [clock]. *)
(* [dlog/filelog.go:184-190] intRotateTime, the file that is open *)
Definition finish_file (clock : Time) : M world unit :=
  s ← get;
  match file (writer s) with
  | HNil => mret tt
  | _ => text ← format_text (trailer cfg) (log_record clock); _ ← Fprint text; close_file
  end.

(* [dlog/filelog.go:200-228] intRotateTime, the next name *)
Definition next_name (now : Time) (w : FileLogWriter) (fs : gmap string string) : option string :=
  if daily cfg && negb (Day now =? dailyOpenDate w)
  then free_name fs (dated_name (filename cfg) (format_date (AddDays (-1) now))) 0 1000
  else if hourly cfg && negb (Hour now =? hourlyOpenHour w)
  then free_name fs (dated_name (filename cfg) (format_date_hour (Add (- Hour_) now))) 0 1000
  else free_name fs (fun num => filename cfg +:+ "." +:+ format_date_hour now +:+ "." +:+ zero_pad 3 num) 0 1000.

(** An error is its text. *)
(* [dlog/filelog.go:196-242] intRotateTime, the old file *)
Definition keep_old (now : Time) : M world (option string) :=
  s ← get;
  if rotate cfg && exists_file (files s) (filename cfg) then
    match next_name now (writer s) (files s) with
    | None => mret (Some ("Rotate: Cannot find free log number to rename " +:+ filename cfg))
    | Some fName =>
        _ ← close_file;
        if renamable (filename cfg) fName then
          _ ← modify (fun s => with_files (match files s !! filename cfg with
                                           | Some c => <[fName := c]> (delete (filename cfg) (files s))
                                           | None => files s
                                           end) s);
          mret None
        else mret (Some "Rotate: rename")
    end
  else mret None.

(** [os.Create] *)
Definition os_Create : M world bool :=
  if creatable (filename cfg)
  then _ ← modify (fun s => with_files (<[filename cfg := EmptyString]> (files s)) s); mret true
  else mret false.

Definition create_file : M world (option string) :=
  ok ← os_Create; mret (if ok : bool then None else Some "create").

(** A directory that is missing is made, and the file in it. *)
(* [dlog/filelog.go:244-261] intRotateTime, the directory *)
Definition make_dir : M world (option string) :=
  match removelast (split "/" (filename cfg)) with
  | [] => mret None
  | ss =>
      let dir := join "/" ss in
      s ← get;
      if bool_decide (dir ∈ dirs s) then mret None
      else if negb (makeable dir) || bool_decide (dir = EmptyString) then mret (Some "mkdir")
      else
        _ ← modify (fun s => mkWorld (writer s) (files s) (list_to_set (parents dir) ∪ dirs s));
        create_file
  end.

(* [dlog/filelog.go:244-269] intRotateTime, the directory and the file *)
Definition make_file : M world (option string) :=
  r ← make_dir;
  match r with
  | Some err => mret (Some err)
  | None => s ← get; if exists_file (files s) (filename cfg) then mret None else create_file
  end.

(** [now] may be nil; [clock] is what [time.Now] says. *)
(* [dlog/filelog.go:183-290] intRotateTime *)
Definition intRotateTime (clock : Time) (now : option Time) : M world (option string) :=
  _ ← finish_file clock;
  let now := default clock now in
  r ← keep_old now;
  match r with
  | Some err => mret (Some err)
  | None =>
      r ← make_file;
      match r with
      | Some err => mret (Some err)
      | None =>
          if openable (filename cfg) then
            _ ← modify (fun s => with_writer (with_file HOpen (writer s)) s);
            text ← format_text (header cfg) (log_record now);
            _ ← Fprint text;
            _ ← modify (fun s => with_writer (opened now (writer s)) s);
            mret None
          else mret (Some "open")
      end
  end.

(* [dlog/filelog.go:177-181] intRotate *)
Definition intRotate (clock : Time) : M world (option string) := intRotateTime clock (Some clock).

(* [dlog/filelog.go:138-142] NewFileLogWriter, whether a record starts a new file *)
Definition must_rotate (now : Time) (w : FileLogWriter) : bool :=
  ((0 <? maxLines cfg) && (maxLines cfg <=? maxLinesCurLines w)) ||
  ((0 <? maxsize cfg) && (maxsize cfg <=? maxsizeCurSize w)) ||
  (daily cfg && negb (Day now =? dailyOpenDate w)) ||
  (hourly cfg && negb (Hour now =? hourlyOpenHour w)).

(** [panic] when a file cannot be rotated or written. *)
Definition or_panic (r : option string) : M world unit :=
  match r with Some err => panic ("FileLogWriter: " +:+ err) | None => mret tt end.

(* [dlog/filelog.go:134-162] NewFileLogWriter, one record *)
Definition write_record (clock : Time) (rec : LogRecord) : M world unit :=
  s ← get;
  let now := Created rec in
  _ ← (if must_rotate now (writer s) then r ← intRotateTime clock (Some now); or_panic r else mret tt);
  toWrite ← format_text (format cfg) rec;
  n ← Fprint toWrite;
  match n with
  | None => panic "FileLogWriter: write"
  | Some n =>
      modify (fun s => with_writer (with_counts (i64 (maxLinesCurLines (writer s) + 1))
                                      (i64 (maxsizeCurSize (writer s) + n)) (writer s)) s)
  end.

(* [dlog/filelog.go:127-133] NewFileLogWriter, a request to rotate *)
Definition rotate_now (clock : Time) : M world unit := r ← intRotate clock; or_panic r.

(** The end of the goroutine. *)
(* [dlog/filelog.go:114-121] NewFileLogWriter, the deferred call *)
Definition finish (clock : Time) : M world unit := finish_file clock.

End writer.

(** ** Making and adjusting a writer *)

(* [dlog/filelog.go:95-105] NewFileLogWriter, the settings *)
Definition new_settings (fileName : string) (rotate daily hourly : bool) : settings :=
  mkSettings fileName "[%D %T] [%L] (%S) %M" EmptyString EmptyString 0 0 daily hourly rotate EmptyString.

Definition new_writer : FileLogWriter := mkWriter HNil 0 0 0 0 new_cache.

(* [dlog/filelog.go:292-297] SetFormat *)
Definition SetFormat (format : string) (c : settings) : settings :=
  mkSettings (filename c) format (header c) (trailer c) (maxLines c) (maxsize c) (daily c) (hourly c) (rotate c) (ScribeCategory c).

(* [dlog/filelog.go:310-316] SetRotateLines *)
Definition SetRotateLines (maxLines : Z) (c : settings) : settings :=
  mkSettings (filename c) (format c) (header c) (trailer c) maxLines (maxsize c) (daily c) (hourly c) (rotate c) (ScribeCategory c).

(* [dlog/filelog.go:318-324] SetRotateSize *)
Definition SetRotateSize (maxsize : Z) (c : settings) : settings :=
  mkSettings (filename c) (format c) (header c) (trailer c) (maxLines c) maxsize (daily c) (hourly c) (rotate c) (ScribeCategory c).

(* [dlog/filelog.go:326-332] SetRotateDaily *)
Definition SetRotateDaily (daily : bool) (c : settings) : settings :=
  mkSettings (filename c) (format c) (header c) (trailer c) (maxLines c) (maxsize c) daily (hourly c) (rotate c) (ScribeCategory c).

(* [dlog/filelog.go:334-338] SetRotateHourly *)
Definition SetRotateHourly (hourly : bool) (c : settings) : settings :=
  mkSettings (filename c) (format c) (header c) (trailer c) (maxLines c) (maxsize c) (daily c) hourly (rotate c) (ScribeCategory c).

(* [dlog/filelog.go:340-348] SetRotate *)
Definition SetRotate (rotate : bool) (c : settings) : settings :=
  mkSettings (filename c) (format c) (header c) (trailer c) (maxLines c) (maxsize c) (daily c) (hourly c) rotate (ScribeCategory c).

Section system.
Variable writable creatable openable makeable : string -> bool.
Variable renamable : string -> string -> bool.

(** The settings, or nil when the file cannot be opened. *)
(* [dlog/filelog.go:94-167] NewFileLogWriter *)
Definition NewFileLogWriter (fileName : string) (rotate daily hourly : bool) (clock : Time) : M world (option settings) :=
  let cfg := new_settings fileName rotate daily hourly in
  r ← intRotate cfg writable creatable openable makeable renamable clock;
  mret (match r with Some _ => None | None => Some cfg end).

(** The header of the new file, unless lines were written. *)
(* [dlog/filelog.go:299-308] SetHeadFoot *)
Definition SetHeadFoot (head foot : string) (clock : Time) (c : settings) : M world settings :=
  let c := mkSettings (filename c) (format c) head foot (maxLines c) (maxsize c) (daily c) (hourly c) (rotate c) (ScribeCategory c) in
  s ← get;
  if maxLinesCurLines (writer s) =? 0 then
    text ← format_text head (log_record clock);
    _ ← Fprint c writable text;
    mret c
  else mret c.

Definition nl : string := String "010" EmptyString.
Definition tab : string := String "009" EmptyString.
Definition quote : string := String (ascii_of_nat 34) EmptyString.

Definition xml_format : string :=
  tab +:+ "<record level=" +:+ quote +:+ "%L" +:+ quote +:+ ">" +:+ nl +:+ tab +:+ tab +:+ "<timestamp>%D %T</timestamp>" +:+
  nl +:+ tab +:+ tab +:+ "<source>%S</source>" +:+ nl +:+ tab +:+ tab +:+ "<message>%M</message>" +:+ nl +:+ tab +:+ "</record>".

(** The chain of calls on a nil writer panics. *)
(* [dlog/filelog.go:350-359] NewXMLLogWriter *)
Definition NewXMLLogWriter (fName : string) (rotate : bool) (clock : Time) : M world settings :=
  c ← NewFileLogWriter fName rotate false true clock;
  match c with
  | None => panic "invalid memory address or nil pointer dereference"
  | Some c => SetHeadFoot ("<log created=" +:+ quote +:+ "%D %T" +:+ quote +:+ ">") "</log>" clock (SetFormat xml_format c)
  end.

(** ** The channel and the goroutine *)

Definition LogBufferLength : Z := 50480.

(** [dropped]: records that were reported on the standard error instead. *)
Record sys : Type := mkSys {
  disk : world; queue : list LogRecord; stopped : bool; ended : bool; dropped : list LogRecord
}.

Inductive label : Type :=
| LWrite (rec : LogRecord) (taken : bool) | LTake (clock : Time) (rec : LogRecord) | LRotate (clock : Time)
| LClose | LEnd (clock : Time).

Variable cfg : settings.

(** With the channel [stop] closed, select takes either branch of [LogWrite] that is
    ready. *)
(* [dlog/filelog.go:58-83] LogWrite, Close *)
Inductive step : sys -> label -> sys -> Prop :=
| step_write s rec : len (queue s) < LogBufferLength ->
    step s (LWrite rec true) (mkSys (disk s) (queue s ++ [rec]) (stopped s) (ended s) (dropped s))
| step_refuse s rec : stopped s = true \/ LogBufferLength <= len (queue s) ->
    step s (LWrite rec false) (mkSys (disk s) (queue s) (stopped s) (ended s) (dropped s ++ [rec]))
| step_close s : step s LClose (mkSys (disk s) (queue s) true (ended s) (dropped s))
| step_take s clock rec q d : ended s = false -> queue s = rec :: q ->
    write_record cfg writable creatable openable makeable renamable clock rec (disk s) = (Ret tt, d) ->
    step s (LTake clock rec) (mkSys d q (stopped s) (ended s) (dropped s))
| step_rotate s clock d : ended s = false ->
    rotate_now cfg writable creatable openable makeable renamable clock (disk s) = (Ret tt, d) ->
    step s (LRotate clock) (mkSys d (queue s) (stopped s) (ended s) (dropped s))
| step_end s clock d : ended s = false -> stopped s = true -> finish cfg writable clock (disk s) = (Ret tt, d) ->
    step s (LEnd clock) (mkSys d (queue s) (stopped s) true (dropped s)).

(** ** What is on the disk *)

(** The text of a file: what it began with, its lines, what it ends with. *)
Record segment : Type := mkSegment { s_head : string; s_recs : list LogRecord; s_lines : list string; s_tail : string }.

Definition text (g : segment) : string := s_head g +:+ join EmptyString (s_lines g) +:+ s_tail g.

Definition line_of (rec : LogRecord) (t : string) : Prop := exists ms, t = line ms (format cfg) rec.

(** Within the bounds of the settings. *)
Definition segment_ok (g : segment) : Prop :=
  Forall2 line_of (s_recs g) (s_lines g) /\
  (0 < maxLines cfg -> len (s_recs g) <= maxLines cfg) /\
  (daily cfg = true -> forall r r', r ∈ s_recs g -> r' ∈ s_recs g -> Day (Created r) = Day (Created r')) /\
  (hourly cfg = true -> forall r r', r ∈ s_recs g -> r' ∈ s_recs g -> Hour (Created r) = Hour (Created r')).

(** The files: [old] and then, one for each rotation, the archives and the current
    file. *)
Record on_disk (old : gmap string string) (archives : list (string * segment)) (current : segment)
  (fs : gmap string string) : Prop := {
  d_current : fs !! filename cfg = Some (text current);
  d_names : NoDup archives.*1;
  d_fresh : forall n g, (n, g) ∈ archives -> n ≠ filename cfg /\ old !! n = None;
  d_archives : forall n g, (n, g) ∈ archives -> fs !! n = Some (text g);
  d_others : forall n, n ≠ filename cfg -> n ∉ archives.*1 -> fs !! n = old !! n
}.

(** *** The steps of a rotation *)

Section zone.
Variable zone : Z.

Definition cache_ok (c : formatCacheType) : Prop :=
  exists first, caches first c /\ forall a, first = Some a -> dated zone a.

Definition time_ok (t : Time) : Prop := Second <= UnixNano t /\ offset t = zone.

Lemma format_text_ok f rec s : dated zone rec -> level_ok rec -> cache_ok (formatCache (writer s)) ->
  exists t c, format_text f rec s = (Ret t, with_writer (with_cache c (writer s)) s) /\ cache_ok c /\
    (f ≠ EmptyString -> exists ms, t = line ms f rec).
Proof.
  intros Hd Hl (first & Hc & Ha). unfold format_text. destruct (decide (f = EmptyString)) as [->|Hf].
  - exists EmptyString, (formatCache (writer s)). split; [done|]. split; [by exists first|done].
  - destruct (FormatLogRecord_anchor zone first _ f rec Hc Ha Hf Hd Hl) as [-> Hda].
    eexists _, _. split; [done|]. split; [|by eexists]. exists (Some (anchor first rec)). split; [done|].
    by intros ? [= <-].
Qed.

(** Writing to the open file adds to it, or nothing when the write fails. *)
Lemma Fprint_open t s : file (writer s) = HOpen -> exists n added, Fprint cfg writable t s =
  (Ret n, with_files (alter (fun c => c +:+ added) (filename cfg) (files s)) s) /\
  (is_Some n -> added = t /\ n = Some (Z.of_nat (String.length t))).
Proof.
  intros Ho. unfold Fprint. rewrite Ho. destruct (writable (filename cfg)).
  - eexists _, t. split; [done|]. by intros _.
  - exists None, EmptyString. split; [|by intros []]. destruct s as [w fs ds]. unfold with_files. cbn [files writer dirs].
    do 2 f_equal. symmetry. apply map_eq. intros k. destruct (decide (k = filename cfg)) as [->|Hk].
    + rewrite lookup_alter_eq. destruct (fs !! filename cfg) as [c|]; [|done]. cbn. by rewrite string_app_nil.
    + by rewrite lookup_alter_ne by done.
Qed.

(** The parts of the writer that [must_rotate] and [next_name] read. *)
Definition same_opening (w w' : FileLogWriter) : Prop :=
  dailyOpenDate w' = dailyOpenDate w /\ hourlyOpenHour w' = hourlyOpenHour w.

Lemma log_record_ok t : time_ok t -> dated zone (log_record t) /\ level_ok (log_record t).
Proof. intros [? ?]. split; [done|]. unfold level_ok, log_record. cbn. lia. Qed.

Lemma finish_file_open clock s : time_ok clock -> file (writer s) = HOpen -> cache_ok (formatCache (writer s)) ->
  exists tail w', finish_file cfg writable clock s =
      (Ret tt, mkWorld w' (alter (fun c => c +:+ tail) (filename cfg) (files s)) (dirs s)) /\
    file w' = HClosed /\ cache_ok (formatCache w') /\ same_opening (writer s) w'.
Proof.
  intros Ht Ho Hc. destruct (log_record_ok clock Ht) as [Hd Hl].
  destruct (format_text_ok (trailer cfg) (log_record clock) s Hd Hl Hc) as (t & c & Hf & Hc' & _).
  destruct (Fprint_open t (with_writer (with_cache c (writer s)) s) Ho) as (n & tail & Hp & _).
  eexists tail, _. unfold finish_file, get, mbind, M_bind. rewrite Ho, Hf, Hp.
  unfold close_file, modify. cbn [writer with_files with_writer file with_cache]. rewrite Ho. done.
Qed.

Lemma free_name_free fs name num n f : free_name fs name num n = Some f -> fs !! f = None.
Proof.
  revert num. induction n as [|n IH]; intros num; cbn [free_name]; [done|].
  unfold exists_file. case_bool_decide as Hex; [apply IH|]. intros [= <-]. by apply eq_None_not_Some.
Qed.

Lemma next_name_free now w fs f : next_name cfg now w fs = Some f -> fs !! f = None.
Proof. unfold next_name. destruct (_ && _); [|destruct (_ && _)]; apply free_name_free. Qed.

(** A file that is there moves to a name that was free. *)
Lemma keep_old_ok now s s' : rotate cfg = true -> keep_old cfg renamable now s = (Ret None, s') ->
  dirs s' = dirs s /\ formatCache (writer s') = formatCache (writer s) /\ files s' !! filename cfg = None /\
  match files s !! filename cfg with
  | Some c => exists n, files s !! n = None /\ files s' = <[n := c]> (delete (filename cfg) (files s))
  | None => files s' = files s
  end.
Proof.
  intros Hr. unfold keep_old, get, mbind, M_bind. rewrite Hr. cbn [andb]. unfold exists_file.
  case_bool_decide as Hex.
  2: { intros [= <-]. assert (files s !! filename cfg = None) as E by (by apply eq_None_not_Some). by rewrite E. }
  destruct Hex as [c Hc]. destruct (next_name _ _ _ _) as [n|] eqn:En; [|done]. apply next_name_free in En.
  unfold close_file, modify. destruct (renamable _ _); [|done]. intros [= <-].
  assert (n ≠ filename cfg) as Hn by congruence.
  cbn [with_files with_writer files dirs writer]. rewrite Hc.
  split; [done|]. split; [by destruct (file (writer s))|]. split; [|by exists n].
  rewrite lookup_insert_ne by done. apply lookup_delete_eq.
Qed.

Lemma create_file_ok s s' : create_file cfg creatable s = (Ret None, s') ->
  s' = with_files (<[filename cfg := EmptyString]> (files s)) s.
Proof. unfold create_file, os_Create, modify, mbind, M_bind. by destruct (creatable _); intros [= <-]. Qed.

Lemma make_dir_ok s s' : make_dir cfg creatable makeable s = (Ret None, s') -> writer s' = writer s /\
  (files s' = files s \/ files s' = <[filename cfg := EmptyString]> (files s)).
Proof.
  unfold make_dir. destruct (removelast _) as [|a l]; [intros [= <-]; auto|].
  unfold get, modify, mbind, M_bind. case_bool_decide; [intros [= <-]; auto|].
  destruct (_ || _); [done|]. intros ->%create_file_ok. auto.
Qed.

Lemma make_file_ok s s' : files s !! filename cfg = None -> make_file cfg creatable makeable s = (Ret None, s') ->
  writer s' = writer s /\ files s' = <[filename cfg := EmptyString]> (files s).
Proof.
  intros Hn. unfold make_file, get, mbind, M_bind.
  destruct (make_dir _ _ _ s) as [[[]|] s1] eqn:Ed; [done| |done]. apply make_dir_ok in Ed as [Hw Hf].
  unfold exists_file. case_bool_decide as Hex.
  - intros [= <-]. split; [done|]. destruct Hf as [Hf|Hf]; [|done]. rewrite Hf, Hn in Hex. by destruct Hex.
  - intros ->%create_file_ok. cbn. split; [done|]. destruct Hf as [->| ->]; [done|]. apply insert_insert_eq.
Qed.

(** A rotation: what was in the file is under a new name, with what was added to it
    at the end, and the file begins with its header. *)
Lemma intRotateTime_keeps clock now s s' : rotate cfg = true -> time_ok clock -> time_ok now ->
  file (writer s) ≠ HClosed -> cache_ok (formatCache (writer s)) ->
  intRotateTime cfg writable creatable openable makeable renamable clock (Some now) s = (Ret None, s') ->
  exists head w', writer s' = w' /\ file w' = HOpen /\ cache_ok (formatCache w') /\
    maxLinesCurLines w' = 0 /\ dailyOpenDate w' = Day now /\ hourlyOpenHour w' = Hour now /\
    match files s !! filename cfg with
    | None => files s' = <[filename cfg := head]> (files s)
    | Some c => exists n tail, files s !! n = None /\ (file (writer s) = HNil -> tail = EmptyString) /\
        files s' = <[filename cfg := head]> (<[n := c +:+ tail]> (files s))
    end.
Proof.
  intros Hr Hclock Hnow Hfile Hc. unfold intRotateTime. unfold mbind at 1, M_bind at 1.
  assert (exists tail w1, finish_file cfg writable clock s =
    (Ret tt, mkWorld w1 (alter (fun c => c +:+ tail) (filename cfg) (files s)) (dirs s)) /\
    cache_ok (formatCache w1) /\ (file (writer s) = HNil -> tail = EmptyString)) as (tail & w1 & -> & Hc1 & Ht).
  { destruct (file (writer s)) eqn:Ef; [|done|].
    - exists EmptyString, (writer s). unfold finish_file, get, mbind, M_bind. rewrite Ef. split; [|done].
      destruct s as [w fs ds]. cbn. do 2 f_equal. symmetry. apply map_eq. intros k.
      destruct (decide (k = filename cfg)) as [->|Hk]; [|by rewrite lookup_alter_ne by done].
      rewrite lookup_alter_eq. destruct (fs !! _) as [c|]; [|done]. cbn. by rewrite string_app_nil.
    - destruct (finish_file_open clock s Hclock Ef Hc) as (tail & w1 & -> & _ & Hc1 & _). by exists tail, w1. }
  change (default clock (Some now)) with now. unfold mbind at 1, M_bind at 1.
  destruct (keep_old _ _ _ _) as [[[]|] s2] eqn:Ek; [done| |done].
  apply keep_old_ok in Ek as (_ & Hc2 & Hn2 & Hf2); [|done]. cbn [files dirs writer] in *.
  unfold mbind at 1, M_bind at 1. destruct (make_file _ _ _ s2) as [[[]|] s3] eqn:Em; [done| |done].
  apply make_file_ok in Em as [Hw3 Hf3]; [|done].
  destruct (openable _); [|done]. unfold mbind, M_bind, modify. cbv beta.
  destruct (log_record_ok now Hnow) as [Hd Hl].
  destruct (format_text_ok (header cfg) (log_record now) (with_writer (with_file HOpen (writer s3)) s3) Hd Hl)
    as (t & c & -> & Hc4 & _).
  { cbn. by rewrite Hw3, Hc2. }
  destruct (Fprint_open t (with_writer (with_cache c (writer (with_writer (with_file HOpen (writer s3)) s3)))
    (with_writer (with_file HOpen (writer s3)) s3)) eq_refl) as (n & head & -> & _).
  intros [= <-]. exists head. eexists. split; [reflexivity|]. cbn.
  do 5 (split; [done|]). rewrite Hf3, alter_insert_eq. cbn.
  rewrite lookup_alter_eq in Hf2. destruct (files s !! filename cfg) as [c0|] eqn:E; cbn in Hf2.
  - destruct Hf2 as (m & Hm & ->). assert (m ≠ filename cfg) as Hne.
    { intros ->. rewrite lookup_alter_eq, E in Hm. done. }
    exists m, tail. split; [by rewrite lookup_alter_ne in Hm by done|]. split; [done|].
    rewrite (insert_insert_ne (delete _ _)) by done.
    apply map_eq. intros k. destruct (decide (k = filename cfg)) as [->|Hk].
    + by rewrite lookup_insert_ne, !lookup_insert_eq by done.
    + rewrite (lookup_insert_ne (<[m:=_]> _)) by done.
      destruct (decide (k = m)) as [->|Hkm]; [by rewrite !lookup_insert_eq|].
      rewrite !lookup_insert_ne, lookup_delete_ne, lookup_alter_ne by done. done.
  - rewrite Hf2. apply map_eq. intros k. destruct (decide (k = filename cfg)) as [->|Hk].
    + by rewrite !lookup_insert_eq.
    + by rewrite !lookup_insert_ne, lookup_alter_ne by done.
Qed.

(** *** The state of a writer that is at work *)

Record held (old : gmap string string) (archives : list (string * segment)) (current : segment) (s : world) : Prop := {
  h_disk : on_disk old archives current (files s);
  h_open : file (writer s) = HOpen;
  h_cache : cache_ok (formatCache (writer s));
  h_segments : Forall segment_ok (archives.*2 ++ [current]);
  h_tail : s_tail current = EmptyString;
  h_count : 0 < maxLines cfg -> maxLinesCurLines (writer s) = len (s_recs current);
  h_day : daily cfg = true -> forall r, r ∈ s_recs current -> Day (Created r) = dailyOpenDate (writer s);
  h_hour : hourly cfg = true -> forall r, r ∈ s_recs current -> Hour (Created r) = hourlyOpenHour (writer s)
}.

Definition recs_of (archives : list (string * segment)) (current : segment) : list LogRecord :=
  concat (map s_recs (archives.*2 ++ [current])).

Definition finished (tail : string) (g : segment) : segment := mkSegment (s_head g) (s_recs g) (s_lines g) tail.
Definition begun (head : string) : segment := mkSegment head [] [] EmptyString.

Lemma begun_ok head : segment_ok (begun head).
Proof.
  split; [constructor|]. split; [change (len (s_recs (begun head))) with 0; lia|].
  by split; intros _ r r' Hr%elem_of_nil.
Qed.

Lemma text_finished g tail : s_tail g = EmptyString -> text (finished tail g) = text g +:+ tail.
Proof. intros Hg. unfold text. cbn. rewrite Hg, string_app_nil. by rewrite string_app_assoc. Qed.

Lemma finished_ok tail g : segment_ok g -> segment_ok (finished tail g).
Proof. done. Qed.

(** The current file becomes an archive. *)
Lemma on_disk_archive old archives current fs n tail head : on_disk old archives current fs ->
  s_tail current = EmptyString -> fs !! n = None ->
  on_disk old (archives ++ [(n, finished tail current)]) (begun head)
    (<[filename cfg := head]> (<[n := text current +:+ tail]> fs)).
Proof.
  intros [Hc Hn Hf Ha Ho] Ht Hfree. assert (n ≠ filename cfg) as Hne by congruence.
  assert (n ∉ archives.*1) as Hnew.
  { intros ([k g] & -> & Hk)%list_elem_of_fmap. apply Ha in Hk. cbn in Hfree. congruence. }
  split.
  - rewrite lookup_insert_eq. unfold text, begun. cbn. by rewrite string_app_nil.
  - rewrite fmap_app. apply NoDup_app. split; [done|]. split; [|apply NoDup_singleton].
    cbn. intros k Hk ->%list_elem_of_singleton. done.
  - intros k g [Hk|[= -> ->]%list_elem_of_singleton]%elem_of_app; [by apply (Hf k g)|]. split; [done|].
    rewrite <- (Ho n) by done. done.
  - intros k g [Hk|[= -> ->]%list_elem_of_singleton]%elem_of_app.
    + destruct (Hf k g Hk) as [Hkf _]. rewrite !lookup_insert_ne; [by apply Ha| |done].
      intros ->. apply Hnew. apply list_elem_of_fmap. by exists (k, g).
    + rewrite lookup_insert_ne, lookup_insert_eq by done. by rewrite text_finished.
  - intros k Hk Hin. rewrite fmap_app, not_elem_of_app in Hin. destruct Hin as [Hin Hk'].
    cbn in Hk'. rewrite list_elem_of_singleton in Hk'. rewrite !lookup_insert_ne by done. by apply Ho.
Qed.

Lemma rotate_held old archives current clock now s s' : rotate cfg = true -> time_ok clock -> time_ok now ->
  held old archives current s ->
  intRotateTime cfg writable creatable openable makeable renamable clock (Some now) s = (Ret None, s') ->
  exists n tail head, held old (archives ++ [(n, finished tail current)]) (begun head) s' /\
    maxLinesCurLines (writer s') = 0 /\ dailyOpenDate (writer s') = Day now /\ hourlyOpenHour (writer s') = Hour now.
Proof.
  intros Hr Hclock Hnow [Hd Ho Hc Hs Ht _ _ _] H.
  apply intRotateTime_keeps in H as (head & w' & Hw & Hopen & Hcache & Hlines & Hday & Hhour & Hf); [|done..|by rewrite Ho|done].
  rewrite (d_current _ _ _ _ Hd) in Hf. destruct Hf as (n & tail & Hfree & _ & Hf).
  exists n, tail, head. rewrite Hw. split; [|done]. split; rewrite ?Hw; [|done..| | done| | |].
  - rewrite Hf. by apply on_disk_archive.
  - rewrite fmap_app. apply Forall_app in Hs as [Hs1 [Hs2 _]%Forall_cons_1].
    apply Forall_app_2; [apply Forall_app_2; [done|]|]; constructor; try done; apply begun_ok.
  - intros _. rewrite Hlines. done.
  - by intros _ r Hin%elem_of_nil.
  - by intros _ r Hin%elem_of_nil.
Qed.

Definition with_line (rec : LogRecord) (t : string) (g : segment) : segment :=
  mkSegment (s_head g) (s_recs g ++ [rec]) (s_lines g ++ [t]) (s_tail g).

Lemma text_with_line rec t g : s_tail g = EmptyString -> text (with_line rec t g) = text g +:+ t.
Proof. intros Hg. unfold text. cbn. by rewrite Hg, !string_app_nil, join_empty_snoc, string_app_assoc. Qed.

(** The writer is within the bounds for one more record of the time [now]. *)
Definition has_place (now : Time) (w : FileLogWriter) : Prop :=
  (0 < maxLines cfg -> maxLinesCurLines w < maxLines cfg) /\ (daily cfg = true -> Day now = dailyOpenDate w) /\
  (hourly cfg = true -> Hour now = hourlyOpenHour w).

Lemma must_rotate_place now w : must_rotate cfg now w = false -> has_place now w.
Proof.
  unfold must_rotate. intros [[[H1 H2]%orb_false_iff H3]%orb_false_iff H4]%orb_false_iff. repeat split.
  - intros Hm. destruct (Z.ltb_spec 0 (maxLines cfg)); [|lia]. cbn in H1. destruct (Z.leb_spec (maxLines cfg) (maxLinesCurLines w)); [done|lia].
  - intros Hd. rewrite Hd in H3. cbn in H3. apply negb_false_iff in H3. by apply Z.eqb_eq.
  - intros Hh. rewrite Hh in H4. cbn in H4. apply negb_false_iff in H4. by apply Z.eqb_eq.
Qed.

Lemma opened_place now w : maxLinesCurLines w = 0 -> dailyOpenDate w = Day now -> hourlyOpenHour w = Hour now -> has_place now w.
Proof. unfold has_place. by intros -> -> ->. Qed.

Lemma same_field {A} (f : LogRecord -> A) v recs rec : (forall r, r ∈ recs -> f r = v) -> f rec = v ->
  forall r, r ∈ recs ++ [rec] -> f r = v.
Proof. intros Hr Hrec r [Hin| ->%list_elem_of_singleton]%elem_of_app; [by apply Hr|done]. Qed.

Lemma on_disk_line old archives current fs rec t : on_disk old archives current fs -> s_tail current = EmptyString ->
  on_disk old archives (with_line rec t current) (alter (fun c => c +:+ t) (filename cfg) fs).
Proof.
  intros [Hc Hn Hf Ha Ho] Ht. split; [|done..| |].
  - rewrite lookup_alter_eq, Hc. cbn. by rewrite text_with_line.
  - intros n g Hin. rewrite lookup_alter_ne; [by apply Ha|]. by destruct (Hf n g Hin).
  - intros n Hne Hin. rewrite lookup_alter_ne by done. by apply Ho.
Qed.

Lemma segment_ok_line rec t g w : segment_ok g -> line_of rec t -> has_place (Created rec) w ->
  (0 < maxLines cfg -> maxLinesCurLines w = len (s_recs g)) ->
  (daily cfg = true -> forall r, r ∈ s_recs g -> Day (Created r) = dailyOpenDate w) ->
  (hourly cfg = true -> forall r, r ∈ s_recs g -> Hour (Created r) = hourlyOpenHour w) ->
  segment_ok (with_line rec t g).
Proof.
  intros (Hl & Hm & _ & _) Ht (P1 & P2 & P3) Hc Hd Hh. split; [|split; [|split]]; cbn.
  - apply Forall2_app; [done|]. by repeat constructor.
  - intros Hpos. rewrite len_app. change (len [rec]) with 1. specialize (P1 Hpos). specialize (Hc Hpos). lia.
  - intros E r r' Hr Hr'. pose proof (same_field (fun r => Day (Created r)) _ _ rec (Hd E) (P2 E)) as Hs. cbn in Hs. by rewrite (Hs r), (Hs r').
  - intros E r r' Hr Hr'. pose proof (same_field (fun r => Hour (Created r)) _ _ rec (Hh E) (P3 E)) as Hs. cbn in Hs. by rewrite (Hs r), (Hs r').
Qed.

Hypothesis format_set : format cfg ≠ EmptyString.
Hypothesis maxLines_int : maxLines cfg <= maxInt64.

(** The record is written, and counted. *)
Lemma add_line old archives current rec s r s' : held old archives current s -> has_place (Created rec) (writer s) ->
  dated zone rec -> level_ok rec ->
  (toWrite ← format_text (format cfg) rec; n ← Fprint cfg writable toWrite;
   match n with
   | None => panic "FileLogWriter: write"
   | Some n =>
       modify (fun s => with_writer (with_counts (i64 (maxLinesCurLines (writer s) + 1))
                                       (i64 (maxsizeCurSize (writer s) + n)) (writer s)) s)
   end) s = (Ret r, s') ->
  exists t, held old archives (with_line rec t current) s'.
Proof.
  intros [Hd Ho Hc Hs Ht Hcount Hday Hhour] Hp Hdr Hl. unfold mbind, M_bind.
  destruct (format_text_ok (format cfg) rec s Hdr Hl Hc) as (t & c & -> & Hc' & Hline).
  destruct (Fprint_open t (with_writer (with_cache c (writer s)) s) Ho) as ([n|] & added & -> & Hadd); [|done].
  destruct Hadd as [-> _]; [by eexists|]. unfold modify. intros [= _ <-]. exists t.
  apply Forall_app in Hs as [Hs1 [Hs2 _]%Forall_cons_1].
  split; cbn; try done.
  - by apply on_disk_line.
  - apply Forall_app_2; [done|]. constructor; [|done]. apply (segment_ok_line _ _ _ (writer s)); auto. exact (Hline format_set).
  - intros Hm. rewrite len_app. change (len [rec]) with 1. rewrite (Hcount Hm). destruct Hp as [P1 _].
    specialize (P1 Hm). rewrite Hcount in P1 by done. apply i64_small.
    pose proof (len_nonneg (s_recs current)). unfold isI64, minInt64 in *. lia.
  - intros E. destruct Hp as (_ & P2 & _). apply (same_field (fun r => Day (Created r))); auto.
  - intros E. destruct Hp as (_ & _ & P3). apply (same_field (fun r => Hour (Created r))); auto.
Qed.

Lemma recs_of_line archives current rec t : recs_of archives (with_line rec t current) = recs_of archives current ++ [rec].
Proof. unfold recs_of. rewrite !map_app, !concat_app. cbn. by rewrite !app_nil_r, app_assoc. Qed.

Lemma recs_of_archive archives current n tail head :
  recs_of (archives ++ [(n, finished tail current)]) (begun head) = recs_of archives current.
Proof. unfold recs_of. rewrite fmap_app, !map_app, !concat_app. cbn. by rewrite !app_nil_r. Qed.

Lemma write_held old archives current clock rec s r s' : rotate cfg = true -> time_ok clock -> dated zone rec -> level_ok rec ->
  held old archives current s ->
  write_record cfg writable creatable openable makeable renamable clock rec s = (Ret r, s') ->
  exists more current', held old (archives ++ more) current' s' /\
    recs_of (archives ++ more) current' = recs_of archives current ++ [rec].
Proof.
  intros Hr Hclock Hd Hl Hh. unfold write_record, get. unfold mbind at 1, M_bind at 1.
  destruct (must_rotate cfg (Created rec) (writer s)) eqn:Em; unfold mbind at 1, M_bind at 1.
  - unfold mbind at 1, M_bind at 1.
    destruct (intRotateTime _ _ _ _ _ _ _ _ s) as [[[]|] s1] eqn:Er; [done| |done].
    apply (rotate_held old archives current) in Er as (n & tail & head & Hh1 & E1 & E2 & E3); [|done..].
    cbn [or_panic mret M_ret]. intros (t & Ht)%(add_line old (archives ++ [(n, finished tail current)]) (begun head));
      [|done|by apply opened_place|done..].
    eexists _, _. split; [exact Ht|]. by rewrite recs_of_line, recs_of_archive.
  - cbn [mret M_ret]. intros (t & Ht)%(add_line old archives current); [|done|by apply must_rotate_place|done..].
    exists [], (with_line rec t current). rewrite app_nil_r. split; [exact Ht|]. apply recs_of_line.
Qed.

Lemma rotate_now_held old archives current clock s r s' : rotate cfg = true -> time_ok clock -> held old archives current s ->
  rotate_now cfg writable creatable openable makeable renamable clock s = (Ret r, s') ->
  exists more current', held old (archives ++ more) current' s' /\ recs_of (archives ++ more) current' = recs_of archives current.
Proof.
  intros Hr Hclock Hh. unfold rotate_now, intRotate, mbind, M_bind.
  destruct (intRotateTime _ _ _ _ _ _ _ _ s) as [[[]|] s1] eqn:Er; [done| |done]. intros [= _ <-].
  apply (rotate_held old archives current) in Er as (n & tail & head & Hh1 & _); [|done..].
  eexists _, _. split; [exact Hh1|]. apply recs_of_archive.
Qed.

Lemma finish_on_disk old archives current clock s r s' : time_ok clock -> held old archives current s ->
  finish cfg writable clock s = (Ret r, s') ->
  exists tail, on_disk old archives (finished tail current) (files s').
Proof.
  intros Hclock [[Hc Hn Hf Ha Ho] Hopen Hcache _ Ht _ _ _]. unfold finish.
  destruct (finish_file_open clock s Hclock Hopen Hcache) as (tail & w' & -> & _). intros [= _ <-].
  exists tail. cbn [files]. split; [|done..| |].
  - rewrite lookup_alter_eq, Hc. cbn. by rewrite text_finished.
  - intros n g Hin. rewrite lookup_alter_ne; [by apply Ha|]. by destruct (Hf n g Hin).
  - intros n Hne Hin. rewrite lookup_alter_ne by done. by apply Ho.
Qed.

End zone.
End system.

(** ** No record is lost *)

Section conserved.
Variable writable creatable openable makeable : string -> bool.
Variable renamable : string -> string -> bool.
Variable cfg : settings.
Variable zone : Z.
Hypothesis rotate_set : rotate cfg = true.
Hypothesis format_set : format cfg ≠ EmptyString.
Hypothesis maxLines_int : maxLines cfg <= maxInt64.

Abbreviation NewFileLogWriter := (NewFileLogWriter writable creatable openable makeable renamable).
Abbreviation step := (step writable creatable openable makeable renamable cfg).

(** A new writer: a file that was there is an archive now. *)
Lemma new_held old ds d h clock c w : time_ok zone clock ->
  NewFileLogWriter (filename cfg) true d h clock (mkWorld new_writer old ds) = (Ret (Some c), w) ->
  exists archives head, held cfg zone old archives (begun head) w /\ recs_of archives (begun head) = [] /\
    forall t, old !! filename cfg = Some t -> exists n, (n, mkSegment t [] [] EmptyString) ∈ archives.
Proof.
  intros Hclock. unfold FileLog.NewFileLogWriter, mbind, M_bind, intRotate.
  destruct (intRotateTime _ _ _ _ _ _ _ _ _) as [[[]|] w1] eqn:Er; [done| |done]. intros [= _ <-].
  apply (intRotateTime_keeps _ _ _ _ _ _ zone) in Er as (head & w' & Hw & Ho & Hc & Hl & Hday & Hhour & Hf);
    [|done..|by exists None].
  cbn [files filename new_settings] in Hf.
  assert (forall fs archives, on_disk cfg old archives (begun head) fs -> files w1 = fs -> Forall (segment_ok cfg) archives.*2 ->
    held cfg zone old archives (begun head) w1) as Hheld.
  { intros fs archives Hd Hfs Ha. split; rewrite ?Hw, ?Hfs; try done.
    - apply Forall_app_2; [done|]. constructor; [apply begun_ok|done].
    - by intros _ r Hr%elem_of_nil.
    - by intros _ r Hr%elem_of_nil. }
  destruct (old !! filename cfg) as [t|] eqn:Eold.
  - destruct Hf as (n & tail & Hfree & Ht & Hf). rewrite (Ht eq_refl), string_app_nil in Hf.
    exists [(n, mkSegment t [] [] EmptyString)], head. split; [|split; [done|]].
    + eapply Hheld; [|exact Hf|constructor; [apply (begun_ok cfg t)|done]].
      assert (n ≠ filename cfg) as Hne by congruence. split; cbn.
      * rewrite lookup_insert_eq. unfold text. cbn. by rewrite string_app_nil.
      * apply NoDup_singleton.
      * intros k g [= -> ->]%list_elem_of_singleton. done.
      * intros k g [= -> ->]%list_elem_of_singleton. rewrite lookup_insert_ne, lookup_insert_eq by done.
        unfold text. cbn. by rewrite string_app_nil.
      * intros k Hk Hin. rewrite list_elem_of_singleton in Hin. by rewrite !lookup_insert_ne by done.
    + intros ? [= <-]. exists n. by apply list_elem_of_singleton.
  - exists [], head. split; [|by split]. eapply Hheld; [|exact Hf|constructor]. split; cbn.
    + rewrite lookup_insert_eq. unfold text. cbn. by rewrite string_app_nil.
    + constructor.
    + by intros k g Hin%elem_of_nil.
    + by intros k g Hin%elem_of_nil.
    + intros k Hk _. by rewrite lookup_insert_ne by done.
Qed.

Definition accepted (ls : list label) : list LogRecord :=
  omap (fun l => match l with LWrite rec true => Some rec | _ => None end) ls.

Definition rec_ok (rec : LogRecord) : Prop := dated zone rec /\ level_ok rec.

(** Records are of after 1970, of one location and of the eight levels, and so is
    the clock. *)
Definition label_ok (l : label) : Prop :=
  match l with
  | LWrite rec _ => rec_ok rec
  | LTake clock _ | LRotate clock | LEnd clock => time_ok zone clock
  | LClose => True
  end.

(** What holds after [acc] was accepted. *)
Record conserved (old : gmap string string) (acc : list LogRecord) (s : sys) : Prop := {
  c_queue : Forall rec_ok (queue s);
  c_files : exists archives current, on_disk cfg old archives current (files (disk s)) /\
    Forall (segment_ok cfg) (archives.*2 ++ [current]) /\ acc = recs_of archives current ++ queue s /\
    (forall t, old !! filename cfg = Some t -> exists n, (n, mkSegment t [] [] EmptyString) ∈ archives) /\
    (ended s = false -> held cfg zone old archives current (disk s))
}.

Lemma step_conserves old acc s l s' : conserved old acc s -> label_ok l -> step s l s' ->
  conserved old (acc ++ accepted [l]) s'.
Proof.
  intros [Hq (archives & current & Hd & Hs & Hacc & Hold & Hheld)] Hl Hstep.
  destruct Hstep as [s rec Hroom|s rec Hfull|s|s clock rec q d He Hqueue Hw|s clock d He Hw|s clock d He Hstop Hw];
    cbn [accepted omap list_omap label_ok] in *; rewrite ?app_nil_r.
  - split; cbn [queue disk ended]; [apply Forall_app_2; [done|by constructor]|].
    exists archives, current. rewrite Hacc, app_assoc. done.
  - split; [done|]. by exists archives, current.
  - split; [done|]. by exists archives, current.
  - rewrite Hqueue in *. apply Forall_cons_1 in Hq as [[Hr1 Hr2] Hq]. split; [done|]. cbn [disk queue ended].
    apply (write_held _ _ _ _ _ cfg zone format_set maxLines_int old archives current) in Hw
      as (more & current' & Hh & Hrecs); [|done..|by apply Hheld].
    exists (archives ++ more), current'. split; [by apply h_disk in Hh|]. split; [by apply h_segments in Hh|].
    split; [by rewrite Hrecs, <- app_assoc|]. split; [|done].
    intros t [n Hn]%Hold. exists n. apply elem_of_app. by left.
  - split; [done|]. cbn [disk queue ended].
    apply (rotate_now_held _ _ _ _ _ cfg zone old archives current) in Hw as (more & current' & Hh & Hrecs); [|done..|by apply Hheld].
    exists (archives ++ more), current'. split; [by apply h_disk in Hh|]. split; [by apply h_segments in Hh|].
    split; [by rewrite Hrecs|]. split; [|done].
    intros t [n Hn]%Hold. exists n. apply elem_of_app. by left.
  - split; [done|]. cbn [disk queue ended].
    apply (finish_on_disk _ cfg zone old archives current) in Hw as [tail Hd']; [|done|by apply Hheld].
    exists archives, (finished tail current). split; [done|]. split; [|split; [|done]].
    + apply Forall_app in Hs as [Hs1 [Hs2 _]%Forall_cons_1]. apply Forall_app_2; [done|]. by constructor.
    + rewrite Hacc. unfold recs_of. by rewrite !map_app.
Qed.

Lemma steps_conserve old acc s ls s' : conserved old acc s -> Forall label_ok ls -> steps step s ls s' ->
  conserved old (acc ++ accepted ls) s'.
Proof.
  intros Hc Hls Hs. revert acc Hc Hls. induction Hs as [s|s l s1 ls s2 Hl Hs IH]; intros acc Hc Hls.
  { cbn. by rewrite app_nil_r. }
  apply Forall_cons_1 in Hls as [Hok Hls].
  replace (acc ++ accepted (l :: ls)) with ((acc ++ accepted [l]) ++ accepted ls).
  - apply IH; [|done]. by eapply step_conserves.
  - rewrite <- app_assoc. f_equal. change (l :: ls) with ([l] ++ ls). unfold accepted. by rewrite omap_app.
Qed.

(** C15 No log record is lost, written twice or reordered while rotation is on: in
    every interleaving of callers, rotation requests, Close and the goroutine, the
    records accepted so far are, in order, those in the archives in the order they
    were made, those in the current file, and those in the channel.  An archive gets
    a name that was free, so that no file is overwritten; the log of an earlier run
    is kept as an archive; no other file changes.  A file has at most maxLines
    records, and with daily (hourly) rotation records of one day of the month (hour
    of the day) only. *)
Theorem records_on_disk old ds d h clock c w ls s : time_ok zone clock -> Forall label_ok ls ->
  NewFileLogWriter (filename cfg) true d h clock (mkWorld new_writer old ds) = (Ret (Some c), w) ->
  steps step (mkSys w [] false false []) ls s ->
  exists archives current, on_disk cfg old archives current (files (disk s)) /\
    Forall (segment_ok cfg) (archives.*2 ++ [current]) /\ accepted ls = recs_of archives current ++ queue s /\
    (forall t, old !! filename cfg = Some t -> exists n, (n, mkSegment t [] [] EmptyString) ∈ archives).
Proof.
  intros Hclock Hls Hnew Hsteps.
  assert (conserved old [] (mkSys w [] false false [])) as H0.
  { apply new_held in Hnew as (archives & head & Hh & Hr & Hold); [|done]. split; [constructor|]. cbn.
    exists archives, (begun head). rewrite Hr. split; [by apply h_disk in Hh|]. split; [by apply h_segments in Hh|]. done. }
  apply (steps_conserve old [] _ ls s) in H0 as [_ (archives & current & ? & ? & ? & ? & _)]; [|done..].
  by exists archives, current.
Qed.

(** *** Close *)

(** Nothing happens to the files once the goroutine has ended. *)
Lemma ended_step s l s' : ended s = true -> step s l s' ->
  ended s' = true /\ disk s' = disk s /\ queue s `prefix_of` queue s'.
Proof.
  intros He Hstep. destruct Hstep; try congruence; cbn; (split; [done|]); (split; [done|]).
  - by apply prefix_app_r.
  - done.
  - done.
Qed.

(** Close loses the records that are still in the channel: once stop is closed
    the goroutine may end whatever is queued, and from then on nothing that was or
    will be accepted reaches a file, although the callers are not told. *)
Theorem close_drops_queue old archives current s clock : held cfg zone old archives current (disk s) ->
  ended s = false -> time_ok zone clock -> exists s1, steps step s [LClose; LEnd clock] s1 /\ queue s1 = queue s /\
    forall ls s', steps step s1 ls s' -> files (disk s') = files (disk s1) /\ queue s `prefix_of` queue s'.
Proof.
  intros Hh He Hclock.
  destruct (finish_file_open writable cfg zone clock (disk s) Hclock (h_open _ _ _ _ _ _ Hh) (h_cache _ _ _ _ _ _ Hh))
    as (tail & w' & Hf & _).
  eexists. split; [|split].
  - eapply steps_cons; [apply step_close|]. eapply steps_cons; [|apply steps_nil].
    eapply step_end; [exact He|done|exact Hf].
  - done.
  - match goal with |- forall ls s', steps step ?s1 ls s' -> _ => set (s1' := s1) end.
    assert (ended s1' = true) as He1 by done. change (queue s) with (queue s1'). clearbody s1'.
    intros ls s' Hs. induction Hs as [s0|s0 l s2 ls s3 Hl Hs IH]; [done|].
    destruct (ended_step _ _ _ He1 Hl) as (He2 & Hd & Hq). destruct (IH He2) as [Hf' Hq'].
    split; [by rewrite Hf', Hd|]. by etrans.
Qed.

End conserved.


(** ** Examples *)

Definition demo_time (nanoseconds : Z) : Time := mkTime (1581936896 * Second + nanoseconds) 28800.
Definition demo_rec (nanoseconds : Z) (msg : string) : LogRecord :=
  mkRecord INFO (demo_time nanoseconds) "main.go:7" msg EmptyString EmptyString EmptyString EmptyString.

Definition yes (_ : string) : bool := true.
Definition yes2 (_ _ : string) : bool := true.

Definition demo_settings : settings := SetFormat "%M" (SetRotateLines 2 (new_settings "app.log" true false false)).

(** Three records through a writer that holds two in a file, over the log of an
    earlier run. *)
Definition demo_start : outcome (option settings) * world :=
  NewFileLogWriter yes yes yes yes yes2 "app.log" true false false (demo_time 0) (mkWorld new_writer {["app.log" := "old"]} ∅).

Definition demo_labels : list label :=
  [LWrite (demo_rec 1 "a") true; LWrite (demo_rec 2 "b") true; LTake (demo_time 3) (demo_rec 1 "a");
   LWrite (demo_rec 4 "c") true; LTake (demo_time 5) (demo_rec 2 "b"); LTake (demo_time 6) (demo_rec 4 "c")].

Lemma demo_rec_ok n msg : 0 <= n -> rec_ok 28800 (demo_rec n msg).
Proof.
  intros Hn. split; [split; [|done]|unfold level_ok; cbn; unfold INFO; lia].
  unfold demo_rec, demo_time, Second, Millisecond. cbn [Created UnixNano]. lia.
Qed.

Lemma demo_time_ok n : 0 <= n -> time_ok 28800 (demo_time n).
Proof. intros Hn. split; [|done]. unfold demo_time, Second, Millisecond. cbn [UnixNano]. lia. Qed.

Lemma demo_labels_ok : Forall (label_ok 28800) demo_labels.
Proof.
  unfold demo_labels. rewrite !Forall_cons, Forall_nil. cbn [label_ok].
  repeat split; apply demo_rec_ok || apply demo_time_ok; lia.
Qed.

Lemma records_on_disk_witness : exists s archives current,
  accepted demo_labels = recs_of archives current /\ files (disk s) !! "app.log.2020021718.000" = Some "old" /\
  files (disk s) !! "app.log.2020021718.001" = Some ("a" +:+ newline +:+ "b" +:+ newline) /\
  files (disk s) !! "app.log" = Some ("c" +:+ newline).
Proof.
  assert (exists s, steps (step yes yes yes yes yes2 demo_settings) (mkSys demo_start.2 [] false false []) demo_labels s /\
    queue s = [] /\ files (disk s) !! "app.log.2020021718.000" = Some "old" /\
    files (disk s) !! "app.log.2020021718.001" = Some ("a" +:+ newline +:+ "b" +:+ newline) /\
    files (disk s) !! "app.log" = Some ("c" +:+ newline)) as (s & Hs & Hq & Hfiles).
  { eexists. split.
    - eapply steps_cons; [by apply step_write|]. eapply steps_cons; [by apply step_write|].
      eapply steps_cons; [eapply step_take; [reflexivity..|vm_compute; reflexivity]|].
      eapply steps_cons; [by apply step_write|].
      eapply steps_cons; [eapply step_take; [reflexivity..|vm_compute; reflexivity]|].
      eapply steps_cons; [eapply step_take; [reflexivity..|vm_compute; reflexivity]|]. apply steps_nil.
    - by vm_compute. }
  destruct (records_on_disk yes yes yes yes yes2 demo_settings 28800 eq_refl ltac:(done) ltac:(vm_compute; congruence)
    {["app.log" := "old"]} ∅ false false (demo_time 0) (new_settings "app.log" true false false) demo_start.2 demo_labels s)
    as (archives & current & _ & _ & Hacc & _); [by apply demo_time_ok|apply demo_labels_ok|by vm_compute|exact Hs|].
  exists s, archives, current. rewrite Hq, app_nil_r in Hacc. done.
Defined.

Lemma close_drops_queue_witness : exists s1,
  steps (step yes yes yes yes yes2 demo_settings) (mkSys demo_start.2 [demo_rec 1 "a"] false false [])
    [LClose; LEnd (demo_time 2)] s1 /\ queue s1 = [demo_rec 1 "a"] /\
  forall ls s', steps (step yes yes yes yes yes2 demo_settings) s1 ls s' -> files (disk s') = files (disk s1).
Proof.
  assert (NewFileLogWriter yes yes yes yes yes2 (filename demo_settings) true false false (demo_time 0)
    (mkWorld new_writer {["app.log" := "old"]} ∅) = (Ret (Some (new_settings "app.log" true false false)), demo_start.2))
    as Hnew by (by vm_compute).
  apply (new_held _ _ _ _ _ demo_settings 28800) in Hnew as (archives & head & Hh & _); [|by apply demo_time_ok].
  destruct (close_drops_queue yes yes yes yes yes2 demo_settings 28800 {["app.log" := "old"]} archives (begun head)
    (mkSys demo_start.2 [demo_rec 1 "a"] false false []) (demo_time 2) Hh eq_refl) as (s1 & Hs & Hq & Hlast);
    [by apply demo_time_ok|].
  exists s1. split; [exact Hs|]. split; [exact Hq|]. intros ls s' H. by apply Hlast in H as [? _].
Defined.

(** With rotation off the file is opened again and again at its end: it is not
    overwritten and grows beyond its bound. *)
Example rotation_off_grows :
  let c := SetRotate false demo_settings in
  let put n msg := write_record c yes yes yes yes yes2 (demo_time n) (demo_rec n msg) in
  files ((_ ← put 1 "a"; _ ← put 2 "b"; put 3 "c")
    (mkWorld (with_file HOpen new_writer) {["app.log" := "old."]} ∅)).2
  = {["app.log" := "old.a" +:+ newline +:+ "b" +:+ newline +:+ "c" +:+ newline]}.
Proof. by vm_compute. Qed.

(** A daily log that is opened again on the same day is put away as the log of the
    day before. *)
Example restart_misdates :
  files (NewFileLogWriter yes yes yes yes yes2 "app.log" true true false (demo_time 0)
    (mkWorld new_writer {["app.log" := "17 February"]} ∅)).2
  = {["app.log.20200216" := "17 February"; "app.log" := EmptyString]}.
Proof. by vm_compute. Qed.

(** A log file in the root directory cannot be opened. *)
Example root_directory_fails :
  (NewFileLogWriter yes yes yes yes yes2 "/app.log" true false false (demo_time 0) (mkWorld new_writer ∅ {["/"]})).1 = Ret None.
Proof. by vm_compute. Qed.

End FileLog.
