(* ===== verification/DlogConfig.v ===== *)
(** * Loading a configuration ([dlog/config.go])

    The filters of an XML file, parsed by the library into [XmlLoggerConfig], become
    writers of three kinds in a table of filters that replaces the logger's. *)

From S2P Require Import Prelude GoStd GoStrings GoTime DlogFormat Dlog DlogConsole FileLog.
Import GoStd GoStrings GoTime DlogFormat.

Module DlogConfig.

(* [dlog/config.go:18-21] XmlProperty *)
Record XmlProperty : Type := mkProperty { Name : string; Value : string }.

(* [dlog/config.go:23-29] XmlFilter *)
Record XmlFilter : Type := mkXmlFilter {
  Enabled : string; Tag : string; Level : string; Type_ : string; Property : list XmlProperty
}.

(* [dlog/config.go:31-34] XmlLoggerConfig *)
Record XmlLoggerConfig : Type := mkXml { ScribeCategory : string; Filter : list XmlFilter }.

(** ** Numbers with a suffix *)

(** [strconv.Atoi] without its error: 0, or the bound a number is beyond. *)
Definition atoi_value (s : string) : Z :=
  match parse_int s with
  | inl n => n
  | inr ErrSyntax => 0
  | inr ErrRange => if String.prefix "-" s then minInt64 else maxInt64
  end.

(** The last byte of a text and what is before it. *)
Definition last_byte (s : string) : option (string * ascii) :=
  match rev_string s EmptyString with
  | EmptyString => None
  | String a r => Some (rev_string r EmptyString, a)
  end.

Definition suffix_power (a : ascii) : option nat :=
  if Ascii.eqb a "G" || Ascii.eqb a "g" then Some 3%nat
  else if Ascii.eqb a "M" || Ascii.eqb a "m" then Some 2%nat
  else if Ascii.eqb a "K" || Ascii.eqb a "k" then Some 1%nat
  else None.

Fixpoint times_mult (n : nat) (mult num : Z) : Z :=
  match n with O => num | S n => times_mult n mult (i64 (num * mult)) end.

(* [dlog/config.go:194-212] strToNumSuffix *)
Definition strToNumSuffix (str : string) (mult : Z) : Z :=
  let '(str, num) :=
    if (1 <? String.length str)%nat then
      match last_byte str with
      | Some (init, a) =>
          match suffix_power a with
          | Some n => (init, times_mult n mult 1)
          | None => (str, 1)
          end
      | None => (str, 1)
      end
    else (str, 1) in
  i64 (atoi_value str * num).

Lemma last_byte_snoc s a : last_byte (s +:+ String a EmptyString) = Some (s, a).
Proof. unfold last_byte. rewrite rev_string_app. cbn [rev_string]. by rewrite rev_string_rev, string_app_nil. Qed.

Lemma last_byte_some s i a : last_byte s = Some (i, a) -> s = i +:+ String a EmptyString.
Proof.
  unfold last_byte. destruct (rev_string s EmptyString) as [|b r] eqn:E; [done|]. intros [= <- <-].
  pose proof (rev_string_rev s EmptyString EmptyString) as H. rewrite E, string_app_nil in H. cbn [rev_string] in H.
  by rewrite <- H, rev_string_acc.
Qed.

Lemma times_mult_power n mult num : i64 (times_mult n mult num) = i64 (num * mult ^ Z.of_nat n).
Proof.
  revert num. induction n as [|n IH]; intros num; [by rewrite Z.mul_1_r|].
  cbn [times_mult]. rewrite IH, Nat2Z.inj_succ, Z.pow_succ_r by lia.
  apply i64_congr. rewrite Zmult_mod, i64_mod, <- Zmult_mod. f_equal. ring.
Qed.

Lemma suffix_not_digit a n : suffix_power a = Some n -> digit a = None /\ a ≠ "-"%char.
Proof. unfold suffix_power. by destruct a as [[] [] [] [] [] [] [] []]. Qed.

Lemma itoa_length n : isI64 n -> (0 < String.length (itoa n))%nat.
Proof. intros H%parse_int_itoa. destruct (itoa n); [done|]. cbn. lia. Qed.

(** A number with a suffix is the number times a power of the base, on 64 bits. *)
Lemma strToNumSuffix_suffix n a p mult : isI64 n -> suffix_power a = Some p ->
  strToNumSuffix (itoa n +:+ String a EmptyString) mult = i64 (n * mult ^ Z.of_nat p).
Proof.
  intros Hn Ha. unfold strToNumSuffix. pose proof (itoa_length n Hn) as Hl.
  destruct (Nat.ltb_spec 1 (String.length (itoa n +:+ String a EmptyString))) as [_|H].
  2: { rewrite string_length_app in H. cbn in H. lia. }
  rewrite last_byte_snoc, Ha. unfold atoi_value. rewrite parse_int_itoa by done.
  apply i64_congr. rewrite Zmult_mod, <- (i64_mod (times_mult p mult 1)), times_mult_power, Z.mul_1_l, i64_mod.
  by rewrite <- Zmult_mod.
Qed.

Lemma strToNumSuffix_plain n mult : isI64 n -> strToNumSuffix (itoa n) mult = n.
Proof.
  intros Hn. unfold strToNumSuffix.
  assert ((if (1 <? String.length (itoa n))%nat
           then match last_byte (itoa n) with
                | Some (init, a) => match suffix_power a with Some p => (init, times_mult p mult 1) | None => (itoa n, 1) end
                | None => (itoa n, 1)
                end
           else (itoa n, 1)) = (itoa n, 1)) as ->.
  { destruct (1 <? _)%nat; [|done]. destruct (last_byte (itoa n)) as [[init a]|] eqn:El; [|done].
    destruct (suffix_power a) as [p|] eqn:Es; [|done]. exfalso.
    apply suffix_not_digit in Es as [Hd Hm]. pose proof (count_itoa a n Hd Hm) as Hc.
    apply last_byte_some in El. rewrite El, count_app in Hc. cbn in Hc. rewrite Ascii.eqb_refl in Hc.
    pose proof (count_nonneg a init). lia. }
  unfold atoi_value. rewrite parse_int_itoa by done. by rewrite Z.mul_1_r, i64_small.
Qed.

(** ** Writers *)

(** [strings.Trim(value, " \r\n")] *)
Definition blank (a : ascii) : bool := Ascii.eqb a " " || Ascii.eqb a "013" || Ascii.eqb a "010".
Definition trim (s : string) : string := trim_set blank s.
Definition not_false (p : XmlProperty) : bool := negb (String.eqb (trim (Value p)) "false").

(** The properties of a file. *)
Record file_props : Type := mkProps {
  p_file : string; p_format : string; p_maxLines : Z; p_maxsize : Z; p_daily : bool; p_hourly : bool; p_rotate : bool
}.

Definition default_pattern : string := "[%D %T] [%L] (%S) %M".

(** A property by its name; [lines] is the name of the bound on lines, and the
    format is one of the properties or not. *)
Definition set_prop (lines : string) (with_format : bool) (p : XmlProperty) (f : file_props) : file_props :=
  let '(mkProps file format maxLines maxsize daily hourly rotate) := f in
  if String.eqb (Name p) "filename" then mkProps (trim (Value p)) format maxLines maxsize daily hourly rotate
  else if with_format && String.eqb (Name p) "format" then mkProps file (trim (Value p)) maxLines maxsize daily hourly rotate
  else if String.eqb (Name p) lines
  then mkProps file format (strToNumSuffix (trim (Value p)) 1000) maxsize daily hourly rotate
  else if String.eqb (Name p) "maxsize"
  then mkProps file format maxLines (strToNumSuffix (trim (Value p)) 1024) daily hourly rotate
  else if String.eqb (Name p) "daily" then mkProps file format maxLines maxsize (not_false p) hourly rotate
  else if String.eqb (Name p) "hourly" then mkProps file format maxLines maxsize daily (not_false p) rotate
  else if String.eqb (Name p) "rotate" then mkProps file format maxLines maxsize daily hourly (not_false p)
  else f.

Definition read_props (lines : string) (with_format : bool) (props : list XmlProperty) : file_props :=
  foldl (fun f p => set_prop lines with_format p f) (mkProps EmptyString default_pattern 0 0 false false false) props.

(** A file writer that was made, with what it stands at; and a socket's channel,
    nil when the address did not answer. *)
Inductive log_writer : Type := WConsole (p : positive) | WFile (n : nat) | WSocket (channel : option nat).

(** Everything the configuration touches: consoles, file writers, sockets (whether
    the channel is closed), files and directories. *)
Record system : Type := mkSystem {
  consoles : DlogConsole.terminal; writers : list (FileLog.settings * FileLog.FileLogWriter * bool);
  sockets : list bool; files : gmap string string; dirs : gset string
}.

Section config.
Variable writable creatable openable makeable : string -> bool.
Variable renamable : string -> string -> bool.
(** Which addresses answer; what a send to a writer does (see [DlogConsole] and
    [FileLog]; one on a socket's channel may block). *)
Variable dials : string -> string -> bool.
Variable send : log_writer -> LogRecord -> M system unit.

Definition on_consoles {A} (m : M DlogConsole.terminal A) : M system A := fun s =>
  match m (consoles s) with (r, t) => (r, mkSystem t (writers s) (sockets s) (files s) (dirs s)) end.

(** A computation that makes a file writer. *)
Definition making_file (m : M FileLog.world FileLog.settings) : M system log_writer := fun s =>
  match m (FileLog.mkWorld FileLog.new_writer (files s) (dirs s)) with
  | (Ret c, w) => (Ret (WFile (length (writers s))),
      mkSystem (consoles s) (writers s ++ [(c, FileLog.writer w, false)]) (sockets s) (FileLog.files w) (FileLog.dirs w))
  | (Panic e, w) => (Panic e, mkSystem (consoles s) (writers s) (sockets s) (FileLog.files w) (FileLog.dirs w))
  end.

Definition nil_dereference : string := "invalid memory address or nil pointer dereference".

(* [dlog/config.go:171-192] xmlToConsoleLogWriter *)
Definition xmlToConsoleLogWriter (props : list XmlProperty) (enabled : bool) : M system (option log_writer * bool) :=
  let format := foldl (fun f p => if String.eqb (Name p) "format" then trim (Value p) else f) default_pattern props in
  if negb enabled then mret (None, true) else
  p ← on_consoles DlogConsole.NewConsoleLogWriter;
  _ ← on_consoles (DlogConsole.SetFormat p format);
  mret (Some (WConsole p), true).

(* [dlog/config.go:214-263] xmlToFileLogWriter *)
Definition xmlToFileLogWriter (clock : Time) (props : list XmlProperty) (enabled : bool) : M system (option log_writer * bool) :=
  let f := read_props "maxLines" true props in
  if String.eqb (p_file f) EmptyString then mret (None, false) else
  if negb enabled then mret (None, true) else
  w ← making_file (
    c ← FileLog.NewFileLogWriter writable creatable openable makeable renamable (p_file f) (p_rotate f) (p_daily f) (p_hourly f) clock;
    match c with
    | None => panic nil_dereference
    | Some c => mret (FileLog.SetRotateHourly (p_hourly f) (FileLog.SetRotateDaily (p_daily f)
        (FileLog.SetRotateSize (p_maxsize f) (FileLog.SetRotateLines (p_maxLines f) (FileLog.SetFormat (p_format f) c)))))
    end);
  mret (Some w, true).

(* [dlog/config.go:265-310] xmlToXMLLogWriter *)
Definition xmlToXMLLogWriter (clock : Time) (props : list XmlProperty) (enabled : bool) : M system (option log_writer * bool) :=
  let f := read_props "maxrecords" false props in
  if String.eqb (p_file f) EmptyString then mret (None, false) else
  if negb enabled then mret (None, true) else
  w ← making_file (
    c ← FileLog.NewXMLLogWriter writable creatable openable makeable renamable (p_file f) (p_rotate f) clock;
    mret (FileLog.SetRotateHourly (p_hourly f) (FileLog.SetRotateDaily (p_daily f)
      (FileLog.SetRotateSize (p_maxsize f) (FileLog.SetRotateLines (p_maxLines f) c)))));
  mret (Some w, true).

(* [dlog/socklog.go:27-34] NewSocketLogWriter *)
Definition NewSocketLogWriter (proto hostport : string) : M system (option nat) := fun s =>
  if dials proto hostport
  then (Ret (Some (length (sockets s))), mkSystem (consoles s) (writers s) (sockets s ++ [false]) (files s) (dirs s))
  else (Ret None, s).

(* [dlog/config.go:312-340] xmlToSocketLogWriter *)
Definition xmlToSocketLogWriter (props : list XmlProperty) (enabled : bool) : M system (option log_writer * bool) :=
  let '(endpoint, protocol) :=
    foldl (fun ep p => if String.eqb (Name p) "endpoint" then (trim (Value p), ep.2)
                       else if String.eqb (Name p) "protocol" then (ep.1, trim (Value p)) else ep) (EmptyString, "udp") props in
  if String.eqb endpoint EmptyString then mret (None, false) else
  if negb enabled then mret (None, true) else
  c ← NewSocketLogWriter protocol endpoint;
  mret (Some (WSocket c), true).

(** [Close] of a writer: once for consoles and files; on a socket's channel it
    panics when the channel is nil or closed. *)
(* [dlog/socklog.go:23-25] SocketLogWriter.Close *)
Definition close_writer (w : log_writer) : M system unit :=
  match w with
  | WConsole p => on_consoles (DlogConsole.console_Close p)
  | WFile n => modify (fun s => mkSystem (consoles s) (alter (fun x => (x.1, true)) n (writers s)) (sockets s) (files s) (dirs s))
  | WSocket None => panic "close of nil channel"
  | WSocket (Some i) =>
      s ← get;
      if default true (sockets s !! i) then panic "close of closed channel"
      else modify (fun s => mkSystem (consoles s) (writers s) (<[i := true]> (sockets s)) (files s) (dirs s))
  end.

#[local] Instance config_writer : Dlog.LogWriter log_writer system :=
  {| Dlog.LogWrite := send; Dlog.Close_writer := close_writer |}.

Abbreviation Logger := (Dlog.Logger (W := log_writer)).

(** ** Filters *)

(* [dlog/config.go:107-127] _loadConfiguration, the level *)
Definition level_of (s : string) : option Z :=
  if String.eqb s "FINEST" then Some FINEST
  else if String.eqb s "FINE" then Some FINE
  else if String.eqb s "DEBUG" then Some DEBUG
  else if String.eqb s "TRACE" then Some TRACE
  else if String.eqb s "INFO" then Some INFO
  else if String.eqb s "WARNING" then Some WARNING
  else if String.eqb s "ERROR" then Some ERROR
  else if String.eqb s "CRITICAL" then Some CRITICAL
  else None.

Definition is_empty (s : string) : bool := String.eqb s EmptyString.
Definition enabled (f : XmlFilter) : bool := negb (String.eqb (Enabled f) "false").

(** The required attribute and children; [None] when something is missing. *)
(* [dlog/config.go:87-132] _loadConfiguration, the checks *)
Definition checked_level (f : XmlFilter) : option Z :=
  if is_empty (Enabled f) || is_empty (Tag f) || is_empty (Type_ f) || is_empty (Level f) then None else level_of (Level f).

Definition set_scribe (category : string) (x : FileLog.settings * FileLog.FileLogWriter * bool) :
  FileLog.settings * FileLog.FileLogWriter * bool :=
  let c := x.1.1 in
  (FileLog.mkSettings (FileLog.filename c) (FileLog.format c) (FileLog.header c) (FileLog.trailer c) (FileLog.maxLines c)
     (FileLog.maxsize c) (FileLog.daily c) (FileLog.hourly c) (FileLog.rotate c) category, x.1.2, x.2).

Definition note_category (category : string) (r : option log_writer * bool) : M system unit :=
  match r with
  | (Some (WFile n), true) =>
      modify (fun s => mkSystem (consoles s) (alter (set_scribe category) n (writers s)) (sockets s) (files s) (dirs s))
  | _ => mret tt
  end.

(** The writer of a filter and whether its properties are complete; [None] for an
    unknown type. *)
(* [dlog/config.go:134-151] _loadConfiguration, the writer *)
Definition make_writer (clock : Time) (category : string) (f : XmlFilter) : M system (option (option log_writer * bool)) :=
  if String.eqb (Type_ f) "console" then r ← xmlToConsoleLogWriter (Property f) (enabled f); mret (Some r)
  else if String.eqb (Type_ f) "file" then
    r ← xmlToFileLogWriter clock (Property f) (enabled f);
    _ ← note_category category r;
    mret (Some r)
  else if String.eqb (Type_ f) "xml" then r ← xmlToXMLLogWriter clock (Property f) (enabled f); mret (Some r)
  else if String.eqb (Type_ f) "socket" then r ← xmlToSocketLogWriter (Property f) (enabled f); mret (Some r)
  else mret None.

(** [None]: the process exits with code 1. *)
(* [dlog/config.go:81-164] _loadConfiguration, the loop *)
Fixpoint load_filters (clock : Time) (category : string) (l : list XmlFilter) (newLoggers : Logger) : M system (option Logger) :=
  match l with
  | [] => mret (Some newLoggers)
  | f :: l =>
      match checked_level f with
      | None => mret None
      | Some lvl =>
          r ← make_writer clock category f;
          match r with
          | Some (filt, true) =>
              match filt with
              | Some w => if enabled f then load_filters clock category l (<[Tag f := Dlog.mkFilter lvl w]> newLoggers)
                          else load_filters clock category l newLoggers
              | None => load_filters clock category l newLoggers
              end
          | _ => mret None
          end
      end
  end.

(** The old writers are closed before anything is read. *)
(* [dlog/config.go:75-169] _loadConfiguration *)
Definition _loadConfiguration (clock : Time) (xc : XmlLoggerConfig) (log : Logger) : M system (option Logger) :=
  _ ← Dlog.Close log;
  load_filters clock (ScribeCategory xc) (Filter xc) ∅.

(* [dlog/config.go:65-73] LoadConfigurationByXml *)
Definition LoadConfigurationByXml (clock : Time) (xc : XmlLoggerConfig) (log : Logger) : M system (option Logger) :=
  _loadConfiguration clock xc log.

(** [xml.Unmarshal] of a file's contents. *)
Variable Unmarshal : string -> option XmlLoggerConfig.

(* [dlog/config.go:36-63] LoadConfiguration *)
Definition LoadConfiguration (clock : Time) (filename : string) (log : Logger) : M system (option Logger) :=
  s ← get;
  match (c ← files s !! filename; Unmarshal c) with
  | None => mret None
  | Some xc => _loadConfiguration clock xc log
  end.

(** ** What is loaded *)

Definition known_type (f : XmlFilter) : bool :=
  existsb (String.eqb (Type_ f)) ["console"; "file"; "xml"; "socket"].

(** What every filter of the file has, enabled or not. *)
Definition complete (f : XmlFilter) : Prop :=
  Enabled f ≠ EmptyString /\ Tag f ≠ EmptyString /\ is_Some (level_of (Level f)) /\ known_type f = true.

Lemma checked_level_some f lvl : checked_level f = Some lvl ->
  Enabled f ≠ EmptyString /\ Tag f ≠ EmptyString /\ level_of (Level f) = Some lvl.
Proof.
  unfold checked_level, is_empty. destruct (String.eqb_spec (Enabled f) EmptyString); [done|].
  destruct (String.eqb_spec (Tag f) EmptyString); [done|]. by destruct (_ || _).
Qed.

(** A writer is made exactly for enabled filters. *)
Definition makes (f : XmlFilter) (m : M system (option log_writer * bool)) : Prop :=
  forall s r s', m s = (Ret r, s') -> r.2 = true -> is_Some r.1 <-> enabled f = true.

Lemma makes_console f : makes f (xmlToConsoleLogWriter (Property f) (enabled f)).
Proof.
  intros s r s'. unfold xmlToConsoleLogWriter, mbind, M_bind. destruct (enabled f); cbn [negb].
  - destruct (on_consoles _ s) as [[p|] s1]; [|done]. destruct (on_consoles _ s1) as [[[]|] s2]; [|done]. by intros [= <- _].
  - intros [= <- _] _. split; [by intros []|done].
Qed.

Lemma makes_file f clock : makes f (xmlToFileLogWriter clock (Property f) (enabled f)).
Proof.
  intros s r s'. unfold xmlToFileLogWriter, mbind at 1, M_bind at 1. destruct (String.eqb _ _); [by intros [= <- _]|].
  destruct (enabled f); cbn [negb].
  - destruct (making_file _ s) as [[w|] s1]; [|done]. by intros [= <- _].
  - intros [= <- _] _. split; [by intros []|done].
Qed.

Lemma makes_xml f clock : makes f (xmlToXMLLogWriter clock (Property f) (enabled f)).
Proof.
  intros s r s'. unfold xmlToXMLLogWriter, mbind at 1, M_bind at 1. destruct (String.eqb _ _); [by intros [= <- _]|].
  destruct (enabled f); cbn [negb].
  - destruct (making_file _ s) as [[w|] s1]; [|done]. by intros [= <- _].
  - intros [= <- _] _. split; [by intros []|done].
Qed.

Lemma makes_socket f : makes f (xmlToSocketLogWriter (Property f) (enabled f)).
Proof.
  intros s r s'. unfold xmlToSocketLogWriter. destruct (foldl _ _ _) as [endpoint protocol].
  destruct (String.eqb _ _); [by intros [= <- _]|]. destruct (enabled f); cbn [negb].
  - unfold mbind, M_bind. destruct (NewSocketLogWriter _ _ s) as [[w|] s1]; [|done]. by intros [= <- _].
  - intros [= <- _] _. split; [by intros []|done].
Qed.

Lemma make_writer_ok clock category f s r s' : make_writer clock category f s = (Ret (Some r), s') -> r.2 = true ->
  known_type f = true /\ (is_Some r.1 <-> enabled f = true).
Proof.
  unfold make_writer, known_type. cbn [existsb]. unfold mbind, M_bind.
  destruct (String.eqb (Type_ f) "console").
  { destruct (xmlToConsoleLogWriter _ _ s) as [[r1|] s1] eqn:E; [|done]. intros [= <- _] Hr. split; [done|]. by eapply makes_console. }
  destruct (String.eqb (Type_ f) "file").
  { destruct (xmlToFileLogWriter _ _ _ s) as [[r1|] s1] eqn:E; [|done].
    destruct (note_category _ _ s1) as [[[]|] s2]; [|done].
    intros [= <- _] Hr. split; [done|]. by eapply makes_file. }
  destruct (String.eqb (Type_ f) "xml").
  { destruct (xmlToXMLLogWriter _ _ _ s) as [[r1|] s1] eqn:E; [|done]. intros [= <- _] Hr. split; [done|]. by eapply makes_xml. }
  destruct (String.eqb (Type_ f) "socket"); [|done].
  destruct (xmlToSocketLogWriter _ _ s) as [[r1|] s1] eqn:E; [|done]. intros [= <- _] Hr. split; [done|]. by eapply makes_socket.
Qed.

(** The levels by tag: of two enabled filters with one tag, the later one counts. *)
Definition levels (l : list XmlFilter) (m : gmap string Z) : gmap string Z :=
  foldl (fun m f => if enabled f then <[Tag f := default 0 (level_of (Level f))]> m else m) m l.

Lemma load_filters_ok clock category l log s log' s' : load_filters clock category l log s = (Ret (Some log'), s') ->
  Forall complete l /\
  Dlog.filter_Level <$> log' = levels l (Dlog.filter_Level <$> log).
Proof.
  revert log s. induction l as [|f l IH]; intros log s; cbn [load_filters].
  { by intros [= <- _]. }
  destruct (checked_level f) as [lvl|] eqn:Ec; [|done]. unfold mbind, M_bind.
  destruct (make_writer clock category f s) as [[[[filt [|]]|]|] s1] eqn:Em; try done.
  destruct (make_writer_ok clock category f s (filt, true) s1 Em eq_refl) as [Ht He]. cbn in He.
  apply checked_level_some in Ec as (He1 & He2 & Ec).
  assert (complete f) as Hf by (unfold complete; rewrite Ec; eauto).
  cbn [levels foldl]. rewrite Ec. cbn [default from_option id].
  destruct filt as [w|].
  - destruct He as [He _]. rewrite He by done. intros [Hall Hl]%IH. split; [by constructor|].
    rewrite Hl. unfold Dlog.Logger in *. by rewrite fmap_insert.
  - destruct (enabled f); [destruct He as [_ He]; by destruct (He eq_refl)|].
    intros [Hall Hl]%IH. split; [by constructor|]. done.
Qed.

Lemma load_xml_ok clock xc log s log' s' :
  LoadConfigurationByXml clock xc log s = (Ret (Some log'), s') ->
  Forall complete (Filter xc) /\ Dlog.filter_Level <$> log' = levels (Filter xc) ∅.
Proof.
  unfold LoadConfigurationByXml, _loadConfiguration, mbind, M_bind.
  destruct (Dlog.Close log s) as [[[]|] s1]; [|done]. intros [Hall Hl]%load_filters_ok. split; [done|].
  rewrite Hl. unfold Dlog.Logger. by rewrite fmap_empty.
Qed.

(** A configuration that loads leaves exactly the enabled filters of the file, each
    under its tag with its level, whatever the logger had before: the levels are
    those of the file, the last filter of a tag counting.  A file loads only when all
    its filters, enabled or not, name a tag, a known type, a known level and whether
    they are enabled. *)
Theorem configuration_loads clock xc log s log' s' :
  LoadConfigurationByXml clock xc log s = (Ret (Some log'), s') ->
  Dlog.filter_Level <$> log' = levels (Filter xc) ∅ /\
  Forall complete (Filter xc).
Proof. intros H. by destruct (load_xml_ok _ _ _ _ _ _ H). Qed.

End config.

(** ** Examples *)

Definition demo_xml : XmlLoggerConfig := mkXml "app"
  [mkXmlFilter "true" "out" "INFO" "console" [mkProperty "format" " %M "];
   mkXmlFilter "true" "log" "DEBUG" "file" [mkProperty "filename" "app.log"; mkProperty "maxLines" "2K"; mkProperty "rotate" "true"];
   mkXmlFilter "false" "net" "ERROR" "socket" [mkProperty "endpoint" "10.0.0.9:514"]].

Definition demo_system : system := mkSystem (DlogConsole.mkTerminal ∅ EmptyString []) [] [] ∅ ∅.

Definition demo_load (dials : string -> string -> bool) (xc : XmlLoggerConfig) :
  Dlog.Logger (W := log_writer) -> M system (option (Dlog.Logger (W := log_writer))) :=
  LoadConfigurationByXml FileLog.yes FileLog.yes FileLog.yes FileLog.yes FileLog.yes2 dials (fun _ _ => mret tt)
    (FileLog.demo_time 0) xc.

Lemma configuration_loads_witness : exists log s, demo_load (fun _ _ => false) demo_xml ∅ demo_system = (Ret (Some log), s) /\
  Dlog.filter_Level <$> log = {["out" := INFO; "log" := DEBUG]} /\
  map (fun x => FileLog.maxLines x.1.1) (writers s) = [2000] /\ dom (files s) = {["app.log"]}.
Proof.
  destruct (demo_load (fun _ _ => false) demo_xml ∅ demo_system) as [r s] eqn:E.
  assert (exists log, r = Ret (Some log) /\ map (fun x => FileLog.maxLines x.1.1) (writers s) = [2000] /\
    dom (files s) = {["app.log"]}) as (log & -> & Hs).
  { vm_compute in E. injection E as <- <-. eexists. split; [reflexivity|]. by vm_compute. }
  exists log, s. split; [done|]. split; [|done].
  unfold demo_load in E. apply configuration_loads in E as [-> _]. reflexivity.
Defined.

(** A socket whose address does not answer is a filter with a nil channel; closing
    the logger, as the next load does first, panics. *)
Example dead_socket_reload :
  let xc := mkXml EmptyString [mkXmlFilter "true" "net" "ERROR" "socket" [mkProperty "endpoint" "10.0.0.9:514"]] in
  (r ← demo_load (fun _ _ => false) xc ∅; demo_load (fun _ _ => false) xc (default ∅ r)) demo_system
  = (Panic "close of nil channel", demo_system).
Proof. by vm_compute. Qed.

End DlogConfig.
