(* ===== verification/RpcServer.v ===== *)
(** * The RPC server ([net/dogrpc]: server.go, rpc_server.go, dog_server.go,
    filter.go, gl_filter.go, log_filter.go, wrap.go, common.go)

    Registration of handlers, the filter chain, the two dispatchers, the wrapping
    of typed functions, and a connection as a step relation. *)

From S2P Require Import Prelude Derror GoStd Encoding Gl.
Import Derror GoStd Encoding.

Module RpcServer.

Definition bytes : Type := option (list byte).

(** ** Constants ([common.go]) *)

Definition second : Z := 1000000000.
Definition DefaultConcurrency : Z := 8 * 1024.
Definition DefaultRequestTimeout : Z := 20 * second.
Definition DefaultPendingMessages : Z := 32 * 1024.
Definition DefaultFlushDelay : Z := -1.
Definition DefaultBufferSize : Z := 64 * 1024.

(* [net/dogrpc/common.go:23-28] shared errors *)
Definition shared_errors : list CodeError :=
  [SetCodeType 10001 "timeout error."; SetCodeType 10002 "overflow error.";
   SetCodeType 10003 "interval server error."; SetCodeType 10004 "invalid param"].

Definition InternalServerError_code : Z := 10003.
Definition InvalidParam_code : Z := 10004.

(** ** Server configuration ([server.go]) *)

Record Server : Type := mkServer {
  s_Addr : string; s_Handler : bool; Concurrency : Z; FlushDelay : Z; PendingResponses : Z;
  SendBufferSize : Z; RecvBufferSize : Z; s_Listener : bool; running : bool;
  Encoder : bool; Decoder : bool
}.

Definition dflt (v d : Z) : Z := if v <=? 0 then d else v.

(** The configuration [Start] runs with; [listen] is the result of the listener's
    [Init].  The error written is [InternalServerError.SetMsg(..)]. *)
(* [net/dogrpc/server.go:37-82] Server.Start *)
Definition Start (listen : string -> option string) : M Server (option string) :=
  s ← get;
  if negb (s_Handler s) then panic "Server.Handler cannot be nil" else
  if running s then panic "server is already running. Stop it before starting it again" else
  _ ← put (mkServer (s_Addr s) true (dflt (Concurrency s) DefaultConcurrency)
             (if FlushDelay s =? 0 then DefaultFlushDelay else FlushDelay s)
             (dflt (PendingResponses s) DefaultPendingMessages)
             (dflt (SendBufferSize s) DefaultBufferSize)
             (dflt (RecvBufferSize s) DefaultBufferSize) true true true true);
  match listen (s_Addr s) with
  | Some err => mret (Some ("[" +:+ s_Addr s +:+ "]. Cannot listen to: [" +:+ err +:+ "]"))
  | None => mret None
  end.

(* [net/dogrpc/server.go:102-110] Server.Stop *)
Definition Stop : M Server unit :=
  s ← get;
  if negb (running s) then panic "server must be started before stopping it" else
  put (mkServer (s_Addr s) (s_Handler s) (Concurrency s) (FlushDelay s) (PendingResponses s)
         (SendBufferSize s) (RecvBufferSize s) (s_Listener s) false (Encoder s) (Decoder s)).

(* [net/dogrpc/server.go:315-317] isClientDisconnect *)
Definition isClientDisconnect (e : dec_err) : bool :=
  match e with ERead ErrUnexpectedEOF | ERead EOF => true | _ => false end.

(* [net/dogrpc/common.go:37-50] getFlushChan *)
Definition flush_immediately (flushDelay : Z) : bool := flushDelay <=? 0.

(** ** Starting an [RpcServer] ([rpc_server.go]) *)

Section start.
(** The certificate files: [tls.LoadX509KeyPair] (its error), [ioutil.ReadFile] and
    [AppendCertsFromPEM]. *)
Variable LoadX509KeyPair : string -> string -> option string.
Variable ReadFile : string -> list byte + string.
Variable AppendCertsFromPEM : list byte -> bool.

Record RpcServerConf : Type := mkConf {
  Addr : Z; UseTls : bool; RpcCaPemFile : string; RpcServerKeyFile : string;
  RpcServerPemFile : string; ss_Addr : string; tls_listener : bool; serving : bool
}.

Definition or_default (v d : string) : string := if decide (v = EmptyString) then d else v.

(* [net/dogrpc/rpc_server.go:49-100] RpcServer.Start *)
Definition RpcServer_Start : M RpcServerConf (option string) :=
  s ← get;
  let s := mkConf (Addr s) (UseTls s) (RpcCaPemFile s) (RpcServerKeyFile s) (RpcServerPemFile s)
             (":" +:+ itoa (Addr s)) (tls_listener s) (serving s) in
  let serve s := _ ← put (mkConf (Addr s) (UseTls s) (RpcCaPemFile s) (RpcServerKeyFile s)
                            (RpcServerPemFile s) (ss_Addr s) (tls_listener s) true); mret None in
  if UseTls s then
    let s := mkConf (Addr s) true (or_default (RpcCaPemFile s) "conf/ca.pem")
               (or_default (RpcServerKeyFile s) "conf/server.key")
               (or_default (RpcServerPemFile s) "conf/server.pem") (ss_Addr s)
               (tls_listener s) (serving s) in
    _ ← put s;
    match LoadX509KeyPair (RpcServerPemFile s) (RpcServerKeyFile s) with
    | Some err => panic ("Cannot load TLS certificates: [" +:+ err +:+ "]")
    | None =>
        match ReadFile (RpcCaPemFile s) with
        | inr err => mret (Some err)
        | inl ca =>
            if AppendCertsFromPEM ca then
              serve (mkConf (Addr s) true (RpcCaPemFile s) (RpcServerKeyFile s)
                       (RpcServerPemFile s) (ss_Addr s) true (serving s))
            else mret (Some "certPool.AppendCertsFromPEM err")
        end
    end
  else serve s.
End start.

(** ** Requests, filters and handlers *)

Section server.
Context {C : Type} {SS : Gl.StrStore C Gl.glmap} {U : Type}.

(** What a request can read and change: goroutine-local data, the log, the clock
    (a handler takes time) and the handlers' own state [U]. *)
Record LogData : Type := mkLogData {
  l_code : Z; l_ret : bytes; l_cost : Z; l_args : bytes; l_seq : Z
}.

Inductive level : Type := Warn | Info | Err.

Record line : Type := mkLine {
  l_level : level; l_tag : string; l_method : string; l_data : option LogData
}.

Record W : Type := mkW { gls : Gl.gstate C; lines : list line; clock : Z; user : U }.

Definition RpcHandlerFunc : Type := bytes -> M W (Z * bytes).

(* [net/dogrpc/context.go:8-14] Context *)
Record Context_ : Type := mkContext {
  ClientAddr : string; ctx_Seq : Z; Method : string; ctx_Handler : RpcHandlerFunc; ctx_Req : bytes;
  goid : Z                  (* the goroutine that serves the request *)
}.

(** A filter is an object with a mutable [next]; besides the two filters of the
    package, any implementation that may call its successor. *)
Inductive filter_kind : Type :=
| GlFilter (IfLogAll : bool) (SlowCostThreshold : Z)
| LogFilter (IfLogAll : bool) (SlowCostThreshold : Z)
| OtherFilter (handle : M W (Z * bytes) -> Context_ -> M W (Z * bytes)).

Definition fid : Type := positive.
Record filter_obj : Type := mkFilter { f_next : option fid; f_kind : filter_kind }.

(** The filter objects and [globalFilter.Filters]. *)
Record filters : Type := mkFilters { fheap : gmap fid filter_obj; Filters : list fid }.

Definition emit (l : line) : M W unit :=
  modify (fun w => mkW (gls w) (lines w ++ [l]) (clock w) (user w)).

Definition on_gls {A} (m : M (Gl.gstate C) A) : M W A := fun w =>
  match m (gls w) with (r, g) => (r, mkW g (lines w) (clock w) (user w)) end.

Definition now : M W Z := gets clock.

(** A panic becomes the code 10003 with the nil response of the named result. *)
(* [net/dogrpc/filter.go:44-57] handlerWithRecover *)
Definition handlerWithRecover (f : RpcHandlerFunc) (req : bytes) : M W (Z * bytes) :=
  recovering (fun _ =>
    _ ← emit (mkLine Err "handlerWithRecover" EmptyString None);
    mret (InternalServerError_code, None)) (f req).

(** [SetNext] of the filters writes [next]. *)
(* [net/dogrpc/gl_filter.go:22-24] SetNext *)
Definition SetNext (f next : fid) (h : gmap fid filter_obj) : gmap fid filter_obj :=
  alter (fun o => mkFilter (Some next) (f_kind o)) f h.

Fixpoint Use_loop (front : option fid) (fs : list fid) (st : filters) : filters :=
  match fs with
  | [] => st
  | f :: fs' =>
      let h := match front with
               | Some p => SetNext p f (fheap st)
               | None => fheap st
               end in
      Use_loop (Some f) fs' (mkFilters h (Filters st ++ [f]))
  end.

(* [net/dogrpc/filter.go:25-34] Use *)
Definition Use (fs : list fid) (st : filters) : filters := Use_loop None fs st.


(** [json.Marshal] of the log data: its error branch is kept. *)
Variable Marshal : LogData -> option string.

(* [net/dogrpc/log_filter.go:27-62] LogFilter.Handle *)
Definition LogFilter_Handle (SlowCostThreshold : Z) (next : M W (Z * bytes)) (ctx : Context_)
    : M W (Z * bytes) :=
  st ← now;
  r ← next;
  t ← now;
  let cost := time_Sub t st in
  let logData := mkLogData r.1 r.2 (Z.quot cost Millisecond) (ctx_Req ctx) (ctx_Seq ctx) in
  match Marshal logData with
  | None => _ ← emit (mkLine Warn EmptyString EmptyString None); mret (SystemError, r.2)
  | Some _ =>
      _ ← (if negb (r.1 =? RpcSuccess)
           then emit (mkLine Warn "SESSION" (Method ctx) (Some logData))
           else emit (mkLine Info "SESSION" (Method ctx) (Some logData)));
      _ ← (if (0 <? SlowCostThreshold) && (i64 (SlowCostThreshold * Millisecond) <? cost)
           then emit (mkLine Warn "SERVER_SLOW" (Method ctx) (Some logData)) else mret tt);
      mret r
  end.

(* [net/dogrpc/gl_filter.go:26-41] GlFilter.Handle *)
Definition GlFilter_Handle (next : M W (Z * bytes)) (ctx : Context_) : M W (Z * bytes) :=
  _ ← on_gls (Gl.Init (goid ctx));
  defer (on_gls (Gl.Close (goid ctx)))
    (st ← now;
     _ ← on_gls (Gl.Set_ (goid ctx) (Gl.KStr Gl.LogId) (Gl.VStr (itoa st)));
     _ ← on_gls (Gl.Set_ (goid ctx) (Gl.KStr Gl.ClientIp) (Gl.VStr (ClientAddr ctx)));
     next).

Definition kind_Handle (k : filter_kind) (next : M W (Z * bytes)) (ctx : Context_)
    : M W (Z * bytes) :=
  match k with
  | GlFilter _ _ => GlFilter_Handle next ctx
  | LogFilter _ t => LogFilter_Handle t next ctx
  | OtherFilter handle => handle next ctx
  end.

(** Calls follow the [next] pointers; a chain longer than the fuel is the stack
    overflow of a cyclic chain. *)
Fixpoint filter_Handle (fuel : nat) (h : gmap fid filter_obj) (f : fid) (ctx : Context_)
    : M W (Z * bytes) :=
  match fuel with
  | O => panic "stack overflow"
  | Datatypes.S fuel' =>
      match h !! f with
      | None => panic "nil pointer dereference"
      | Some o =>
          kind_Handle (f_kind o)
            (match f_next o with
             | None => handlerWithRecover (ctx_Handler ctx) (ctx_Req ctx)
             | Some n => filter_Handle fuel' h n ctx
             end) ctx
      end
  end.

(* [net/dogrpc/filter.go:36-42] Filters.Handle *)
Definition Filters_Handle (st : filters) (ctx : Context_) : M W (Z * bytes) :=
  match Filters st with
  | [] => handlerWithRecover (ctx_Handler ctx) (ctx_Req ctx)
  | f :: _ => filter_Handle (Datatypes.S (size (fheap st))) (fheap st) f ctx
  end.

(** ** Registration and dispatch ([rpc_server.go], [dog_server.go]) *)

(* [net/dogrpc/rpc_server.go:106-118] AddHandler *)
Definition AddHandler (headCmd : Z) (f : RpcHandlerFunc) (hs : gmap Z RpcHandlerFunc)
    : gmap Z RpcHandlerFunc :=
  match hs !! headCmd with
  | Some _ => hs
  | None => <[headCmd := f]> hs
  end.

(* [net/dogrpc/rpc_server.go:120-139] dispatchPacket *)
Definition dispatchPacket (hs : gmap Z RpcHandlerFunc) (st : filters) (g : Z)
    (clientAddr : string) (req : Packet) : M W Packet :=
  match req with
  | PRpc packet =>
      let headCmd := r_Cmd packet in
      match hs !! headCmd with
      | None =>
          _ ← emit (mkLine Err "dispatch" (itoa headCmd) None);
          mret (PRpc (NewRpcPacketWithRet headCmd (Some []) (r_Seq packet) InvalidParam_code))
      | Some f =>
          r ← Filters_Handle st
                (mkContext clientAddr (r_Seq packet) (itoa headCmd) f (r_Body packet) g);
          mret (PRpc (NewRpcPacketWithRet (r_Cmd packet) r.2 (r_Seq packet) r.1))
      end
  | _ => panic "interface conversion"
  end.

(* [net/dogrpc/dog_server.go:63-82] dogDispatchPacket *)
Definition dogDispatchPacket (hs : gmap Z RpcHandlerFunc) (st : filters) (g : Z)
    (clientAddr : string) (req : Packet) : M W Packet :=
  match req with
  | PDog packet =>
      let headCmd := h_Cmd (d_Header packet) in
      let seq := h_Seq (d_Header packet) in
      match hs !! headCmd with
      | None =>
          _ ← emit (mkLine Err "dispatchPacket" (itoa headCmd) None);
          mret (PDog (NewDogPacketWithRet headCmd (Some []) seq InvalidParam_code))
      | Some f =>
          r ← Filters_Handle st (mkContext clientAddr seq (itoa headCmd) f (d_Body packet) g);
          mret (PDog (NewDogPacketWithRet headCmd r.2 seq r.1))
      end
  | _ => panic "interface conversion"
  end.

(** The deferred function runs [rsp.SetErrCode] on the named result, which is the
    nil interface when the handler has panicked. *)
(* [net/dogrpc/server.go:248-260] callHandlerWithRecover *)
Definition callHandlerWithRecover (handler : string -> Packet -> M W Packet)
    (clientAddr : string) (req : Packet) : M W (option Packet) :=
  recovering (fun _ => panic "nil pointer dereference")
    (rsp ← handler clientAddr req; mret (Some rsp)).

(** ** Typed handlers ([wrap.go]) *)

(** A Go value seen through reflection: whether it is a function, whether its
    first parameter is a pointer, the kinds of its results, and its behaviour.
    [A] are decoded requests, [R] the fourth results. *)
Variables A R : Type.

Inductive in_kind : Type := InPtr | InVal.
Inductive out_kind : Type := KUint32 | KString | KIface (is_error : bool) | KOther.
Inductive arg : Type := ArgNil | ArgPtr (a : A) | ArgZero.
(** A result of a named uint32 or string type fails the type assertion. *)
Inductive outv : Type :=
| OUint32 (named : bool) (z : Z) | OString (named : bool) (s : string)
| OErr (e : option string) | OAny (r : R).

Record Func : Type := mkFunc {
  fn_in : list in_kind; fn_out : list out_kind; fn_call : arg -> M W (list outv)
}.
Inductive toWrap : Type := NotFunc | IsFunc (f : Func).

(** [json.Unmarshal] into a pointer, and [json.Marshal] of the reply object (nil
    when it fails). *)
Variable Unmarshal : list byte -> A + string.
Variable MarshalReply : Z -> string -> option R -> bytes.

Definition Return_msg (message : string) (err : option string) : string := default message err.

(* [net/dogrpc/wrap.go:117-129] Return *)
Definition Return (code : Z) (message : string) (err : option string) (result : option R) : bytes :=
  MarshalReply code (Return_msg message err) result.

Definition out_code (o : outv) : Z := match o with OUint32 false z => z | _ => 0 end.
Definition out_message (o : outv) : string := match o with OString false s => s | _ => EmptyString end.
Definition out_err (o : outv) : option string := match o with OErr e => e | _ => None end.
Definition out_ret (o : outv) : option R := match o with OAny r => Some r | _ => None end.

(** The argument of the call: [inr] when the request cannot be decoded.  Decoding
    into a value that is not a pointer always fails. *)
Definition decode_arg (k : in_kind) (req : bytes) : arg + string :=
  match slice_bytes req with
  | [] => inl (match k with InPtr => ArgNil | InVal => ArgZero end)
  | l => match k with
         | InPtr => match Unmarshal l with inl a => inl (ArgPtr a) | inr e => inr e end
         | InVal => inr "json: Unmarshal(non-pointer)"
         end
  end.

(** [reflect.Value.Call] panics on the zero [Value]s of the further parameters. *)
Definition reflect_Call (f : Func) (a : arg) : M W (list outv) :=
  if 1 <? len (fn_in f) then panic "reflect: Call using zero Value argument" else fn_call f a.

(* [net/dogrpc/wrap.go:45-112] wrapped *)
Definition wrapped (f : Func) (inType : in_kind) : RpcHandlerFunc := fun req =>
  match decode_arg inType req with
  | inr _ =>
      _ ← emit (mkLine Info "wrap" EmptyString None);
      mret (0, None)
  | inl a =>
      out ← reflect_Call f a;
      match out with
      | [o0; o1; o2; o3] =>
          let code := out_code o0 in
          mret (code, Return code (out_message o1) (out_err o2) (out_ret o3))
      | _ =>
          _ ← emit (mkLine Err "wrap" EmptyString None);
          mret (RpcInternalServerError, Return RpcInternalServerError "ret not 4!" None None)
      end
  end.

(* [net/dogrpc/wrap.go:18-115] wrap *)
Definition wrap (v : toWrap) : RpcHandlerFunc + string :=
  match v with
  | NotFunc => inr "toWrap must be func"
  | IsFunc f =>
      match fn_in f, fn_out f with
      | [], _ => inr "params in count must > 1"
      | inType :: _, k0 :: k1 :: k2 :: _ :: _ =>
          match k0, k1, k2 with
          | KUint32, KString, KIface true => inl (wrapped f inType)
          | KUint32, KString, KIface false => inr "params out 4 must be derror"
          | KUint32, KString, _ => inr "params out 3 must be interface"
          | KUint32, _, _ => inr "params out 2 must be string"
          | _, _, _ => inr "params out 1 must be uint32"
          end
      | _, _ => inr "params out count must > 4"
      end
  end.

(* [net/dogrpc/rpc_server.go:25-35] RpcServer *)
Record RpcServer : Type := mkRpcServer {
  defaultHandler : gmap Z RpcHandlerFunc; wrapHandler : gmap Z toWrap
}.

(* [net/dogrpc/dog_server.go:37-49] AddDogHandler *)
Definition AddDogHandler (headCmd : Z) (f : toWrap) (s : RpcServer) : RpcServer :=
  match wrapHandler s !! headCmd with
  | Some _ => s
  | None => mkRpcServer (defaultHandler s) (<[headCmd := f]> (wrapHandler s))
  end.

(** A new server with its configuration: the default codec is set by [Start], the
    other protocol's from the beginning. *)
(* [net/dogrpc/rpc_server.go:37-47] NewRpcServer *)
Definition NewRpcServer : RpcServer * Server := (mkRpcServer ∅ ∅, mkServer EmptyString true 0 0 0 0 0 false false false false).

(* [net/dogrpc/dog_server.go:19-35] NewDogRpcServer *)
Definition NewDogRpcServer : RpcServer * Server := (mkRpcServer ∅ ∅, mkServer EmptyString true 0 0 0 0 0 false false true true).

(** The loop over the map [wrapHandler], its entries in the order met. *)
Fixpoint register_loop (l : list (Z * toWrap)) : M RpcServer (option string) :=
  match l with
  | [] => mret None
  | (k, v) :: l' =>
      match wrap v with
      | inr err => mret (Some err)
      | inl wf =>
          _ ← modify (fun s => mkRpcServer (AddHandler k wf (defaultHandler s)) (wrapHandler s));
          register_loop l'
      end
  end.

(* [net/dogrpc/dog_server.go:51-61] DogRpcRegister *)
Definition DogRpcRegister (order : gmap Z toWrap -> list (Z * toWrap)) : M RpcServer (option string) :=
  s ← get; register_loop (order (wrapHandler s)).

(** ** Lemmas: dispatch *)

Lemma recovering_ret {T} (h : string -> M W T) m w a w' :
  m w = (Ret a, w') -> recovering h m w = (Ret a, w').
Proof. intros Hm. unfold recovering. by rewrite Hm. Qed.

Lemma handlerWithRecover_total f req w : exists r w', handlerWithRecover f req w = (Ret r, w').
Proof.
  unfold handlerWithRecover, recovering. destruct (f req w) as [[r|e] w']; by do 2 eexists.
Qed.

Lemma AddHandler_lookup k f hs k' :
  AddHandler k f hs !! k' =
    match hs !! k' with Some f' => Some f' | None => if decide (k' = k) then Some f else None end.
Proof.
  unfold AddHandler. destruct (hs !! k) as [f0|] eqn:Ek.
  - destruct (hs !! k') eqn:Ek'; [done|]. by rewrite decide_False by congruence.
  - destruct (decide (k' = k)) as [->|Hne].
    + by rewrite lookup_insert_eq, Ek.
    + rewrite lookup_insert_ne by done. by destruct (hs !! k').
Qed.

(** *** The filter chain *)

(** The handler of a chain of filter kinds: each wraps the rest, the innermost is
    the recovered handler. *)
Fixpoint chain (ks : list filter_kind) (ctx : Context_) : M W (Z * bytes) :=
  match ks with
  | [] => handlerWithRecover (ctx_Handler ctx) (ctx_Req ctx)
  | k :: ks' => kind_Handle k (chain ks' ctx) ctx
  end.

(** [linked h fs ks]: the objects [fs] are linked in order, the last has no
    successor, and their kinds are [ks]. *)
Fixpoint linked (h : gmap fid filter_obj) (fs : list fid) (ks : list filter_kind) : Prop :=
  match fs, ks with
  | [], [] => True
  | f :: fs', k :: ks' => h !! f = Some (mkFilter (head fs') k) /\ linked h fs' ks'
  | _, _ => False
  end.

Lemma filter_Handle_chain h fs ks f ctx fuel :
  linked h (f :: fs) ks -> (length (f :: fs) <= fuel)%nat ->
  filter_Handle fuel h f ctx = chain ks ctx.
Proof.
  revert f ks fuel. induction fs as [|f' fs IH]; intros f ks fuel Hl Hf.
  - destruct ks as [|k [|k2 ks]]; [done| |by destruct Hl as [_ []]]. destruct Hl as [Hh _].
    destruct fuel as [|fuel]; [simpl in Hf; lia|]. simpl. rewrite Hh. done.
  - destruct ks as [|k ks]; [done|]. destruct Hl as [Hh Hl].
    destruct fuel as [|fuel]; [simpl in Hf; lia|]. cbn [filter_Handle]. rewrite Hh.
    cbn [f_next f_kind head chain]. erewrite IH; [done|exact Hl|simpl in *; lia].
Qed.

Lemma linked_insert_ne h fs ks f o : f ∉ fs -> linked h fs ks -> linked (<[f := o]> h) fs ks.
Proof.
  revert ks. induction fs as [|f' fs IH]; intros [|k ks] Hf Hl; try done.
  destruct Hl as [Hh Hl]. apply not_elem_of_cons in Hf as [Hne Hf]. split; [|by apply IH].
  by rewrite lookup_insert_ne.
Qed.

(** Fresh filter objects: present, without successor. *)
Definition fresh (h : gmap fid filter_obj) (fs : list fid) (ks : list filter_kind) : Prop :=
  Forall2 (fun f k => h !! f = Some (mkFilter None k)) fs ks.

Lemma fresh_alter h fs ks f g : f ∉ fs -> fresh h fs ks -> fresh (alter g f h) fs ks.
Proof.
  intros Hf Hfr. induction Hfr as [|f' k fs ks Hh Hfr IH]; constructor.
  - apply not_elem_of_cons in Hf as [Hne _]. by rewrite lookup_alter_ne.
  - apply IH. by apply not_elem_of_cons in Hf as [].
Qed.

Lemma Use_loop_other front fs st f : f ∉ fs -> front ≠ Some f ->
  fheap (Use_loop front fs st) !! f = fheap st !! f.
Proof.
  revert front st. induction fs as [|f' fs IH]; intros front st Hf Hfr; [done|].
  apply not_elem_of_cons in Hf as [Hne Hf]. simpl. rewrite IH by (done || congruence). simpl.
  destruct front as [p|]; [|done]. unfold SetNext. by rewrite lookup_alter_ne by congruence.
Qed.

Lemma Use_loop_Filters front fs st : Filters (Use_loop front fs st) = Filters st ++ fs.
Proof.
  revert front st. induction fs as [|f fs IH]; intros front st; simpl; [by rewrite app_nil_r|].
  rewrite IH. simpl. by rewrite <- app_assoc.
Qed.

Lemma Use_loop_linked front fs ks st :
  NoDup fs -> fresh (fheap st) fs ks -> (forall p, front = Some p -> p ∉ fs) ->
  linked (fheap (Use_loop front fs st)) fs ks.
Proof.
  intros Hnd. revert front ks st.
  induction Hnd as [|f fs Hf Hnd IH]; intros front ks st Hfr Hp.
  { apply Forall2_nil_inv_l in Hfr as ->. done. }
  destruct ks as [|k ks]; [by apply Forall2_nil_inv_r in Hfr|].
  cbn [Use_loop]. set (h := match front with Some p => SetNext p f (fheap st) | None => fheap st end).
  assert (fresh h (f :: fs) (k :: ks)) as Hh.
  { unfold h. destruct front as [p|]; [|done]. apply fresh_alter; [by apply Hp|done]. }
  apply Forall2_cons in Hh as [Hk Hrest]. split.
  - destruct fs as [|f2 fs]; [done|]. cbn [Use_loop head]. rewrite Use_loop_other.
    + cbn [fheap]. unfold SetNext at 1. by rewrite lookup_alter_eq, Hk.
    + apply NoDup_cons in Hnd as [? _]. apply not_elem_of_cons in Hf. naive_solver.
    + apply not_elem_of_cons in Hf. naive_solver.
  - apply IH; [done|]. naive_solver.
Qed.

Lemma Use_loop_size front fs st : size (fheap (Use_loop front fs st)) = size (fheap st).
Proof.
  revert front st. induction fs as [|f fs IH]; intros front st; [done|]. cbn [Use_loop].
  rewrite IH. cbn [fheap]. destruct front as [p|]; [|done].
  unfold SetNext. rewrite <- !(size_dom (D := gset fid)). f_equal. apply dom_alter_L.
Qed.

Lemma fresh_length h fs ks : NoDup fs -> fresh h fs ks -> (length fs <= size h)%nat.
Proof.
  intros Hnd Hfr. rewrite <- (size_list_to_set (C := gset fid)) by done.
  rewrite <- (size_dom (D := gset fid)).
  apply subseteq_size. intros f Hf. apply elem_of_list_to_set, list_elem_of_lookup in Hf as [i Hi].
  apply elem_of_dom. eapply Forall2_lookup_l in Hfr as (k & _ & Hk); [|exact Hi]. by eexists.
Qed.
End server.
Arguments mkFunc {C U A R} _ _ _.
Arguments fn_in {C U A R} _.
Arguments fn_out {C U A R} _.
Arguments fn_call {C U A R} _ _ _.
Arguments IsFunc {C U A R} _.
Arguments NotFunc {C U A R}.
Arguments wrap {C U A R} _ _ _.
Arguments wrapped {C U A R} _ _ _ _ _ _.
Arguments decode_arg {A} _ _ _.
Arguments ArgNil {A}.
Arguments ArgZero {A}.
Arguments ArgPtr {A} _.
Arguments OUint32 {R} _ _.
Arguments OString {R} _ _.
Arguments OErr {R} _.
Arguments OAny {R} _.

(** ** The running server ([server.go]: serverHandler .. serverWriter)

    Connections are numbered.  A packet in flight is tagged with its connection;
    the lists below hold, in order, the requests not yet decoded, the requests
    being served (one goroutine and one slot of [workersCh] each), the responses
    waiting in the [responsesChan]s, those in the writers' buffers, those flushed
    to the streams and those given up because the connection was stopping. *)

Section running.
Context {W : Type}.
Variable handler : string -> Packet -> M W (option Packet).
Variable addr : nat -> string.
Variables (MaxConcurrency MaxPending : nat).

Abbreviation tagged := (nat * Packet)%type.

Record State : Type := mkState {
  incoming : list tagged; active : list tagged; queue : list tagged;
  buffered : list tagged; sent : list tagged; dropped : list tagged;
  workers : nat;               (* the slots taken in [workersCh] *)
  armed : gset nat;            (* connections whose [flushChan] is set *)
  stopped : gset nat;          (* connections whose [stopChan] is closed *)
  crashed : bool;              (* a goroutine died with a panic *)
  world : W
}.

Definition of_conn (c : nat) (l : list tagged) : list tagged := filter (fun x => x.1 = c) l.
Definition not_conn (c : nat) (l : list tagged) : list tagged := filter (fun x => x.1 ≠ c) l.

Inductive label : Type :=
| LRead (c : nat) | LFinish (c : nat) | LDrop (c : nat) | LCrash (c : nat)
| LWrite (c : nat) | LFlush (c : nat) | LStop (c : nat).

(** One transition of one goroutine: the reader of a connection takes a worker
    slot and starts the request; [serverRequest] runs the handler and queues the
    response (or gives up when stopping) and frees the slot; the writer encodes a
    response and arms the flush; the flush empties the buffer. *)
(* [net/dogrpc/server.go:156-313] serverHandleConnection, serverReader, serverRequest, serverWriter *)
Inductive step : State -> label -> State -> Prop :=
| step_read c p l1 l2 ac q b se d w ar st wo :
    c ∉ l1.*1 -> (w < MaxConcurrency)%nat ->
    step (mkState (l1 ++ (c, p) :: l2) ac q b se d w ar st false wo) (LRead c)
         (mkState (l1 ++ l2) (ac ++ [(c, p)]) q b se d (Datatypes.S w) ar st false wo)
| step_finish c p rsp inc l1 l2 q b se d w ar st wo wo' :
    handler (addr c) p wo = (Ret (Some rsp), wo') ->
    (length (of_conn c q) < MaxPending)%nat ->
    step (mkState inc (l1 ++ (c, p) :: l2) q b se d (Datatypes.S w) ar st false wo) (LFinish c)
         (mkState inc (l1 ++ l2) (q ++ [(c, rsp)]) b se d w ar st false wo')
| step_drop c p rsp inc l1 l2 q b se d w ar st wo wo' :
    handler (addr c) p wo = (Ret (Some rsp), wo') -> c ∈ st ->
    step (mkState inc (l1 ++ (c, p) :: l2) q b se d (Datatypes.S w) ar st false wo) (LDrop c)
         (mkState inc (l1 ++ l2) q b se (d ++ [(c, rsp)]) w ar st false wo')
| step_crash c p inc l1 l2 q b se d w ar st wo wo' e :
    handler (addr c) p wo = (Panic e, wo') ->
    step (mkState inc (l1 ++ (c, p) :: l2) q b se d w ar st false wo) (LCrash c)
         (mkState inc (l1 ++ (c, p) :: l2) q b se d w ar st true wo')
| step_write c rsp inc ac l1 l2 b se d w ar st wo :
    c ∉ l1.*1 ->
    step (mkState inc ac (l1 ++ (c, rsp) :: l2) b se d w ar st false wo) (LWrite c)
         (mkState inc ac (l1 ++ l2) (b ++ [(c, rsp)]) se d w ({[c]} ∪ ar) st false wo)
| step_flush c inc ac q b se d w ar st wo :
    c ∈ ar ->
    step (mkState inc ac q b se d w ar st false wo) (LFlush c)
         (mkState inc ac q (not_conn c b) (se ++ of_conn c b) d w (ar ∖ {[c]}) st false wo)
| step_stop c inc ac q b se d w ar st wo :
    step (mkState inc ac q b se d w ar st false wo) (LStop c)
         (mkState inc ac q b se d w ar ({[c]} ∪ st) false wo).

Definition init (reqs : list tagged) (wo : W) : State :=
  mkState reqs [] [] [] [] [] 0 ∅ ∅ false wo.

(** What identifies a packet to the client: its connection and its sequence number. *)
Definition key_of (x : tagged) : nat * Z := (x.1, ID x.2).

Definition in_flight (s : State) : list tagged :=
  sent s ++ dropped s ++ buffered s ++ queue s ++ active s ++ incoming s.

Definition inv (reqs : list tagged) (s : State) : Prop :=
  workers s = length (active s) /\ (workers s <= MaxConcurrency)%nat /\
  (forall c, (length (of_conn c (queue s)) <= MaxPending)%nat) /\
  (forall c, c ∈ armed s <-> of_conn c (buffered s) ≠ []) /\
  map key_of (in_flight s) ≡ₚ map key_of reqs.

Hypothesis handler_echoes : forall a req w rsp w',
  handler a req w = (Ret (Some rsp), w') -> ID rsp = ID req.

Lemma of_conn_app c l k : of_conn c (l ++ k) = of_conn c l ++ of_conn c k.
Proof. apply filter_app. Qed.

Lemma of_conn_one c c' p : of_conn c [(c', p)] = if decide (c' = c) then [(c', p)] else [].
Proof. unfold of_conn. rewrite filter_cons. by destruct (decide _). Qed.

Lemma split_conn c l : of_conn c l ++ not_conn c l ≡ₚ l.
Proof.
  induction l as [|[c' p] l IH]; [done|]. unfold of_conn, not_conn in *.
  rewrite !filter_cons. cbn [fst]. destruct (decide (c' = c)) as [->|Hne].
  - rewrite decide_False by naive_solver. simpl. by rewrite IH.
  - rewrite decide_True by done. by rewrite <- Permutation_middle, IH.
Qed.

Lemma of_conn_not_conn c c' l : of_conn c (not_conn c' l) = if decide (c = c') then [] else of_conn c l.
Proof.
  induction l as [|[c0 p] l IH]; [by destruct (decide _)|]. unfold of_conn, not_conn in *.
  rewrite !filter_cons. cbn [fst].
  destruct (decide (c0 = c')) as [->|Hne].
  - rewrite (decide_False (P := c' ≠ c')) by naive_solver. rewrite IH. destruct (decide (c = c')) as [->|]; [done|].
    by rewrite decide_False by congruence.
  - rewrite (decide_True (P := c0 ≠ c')) by done. rewrite filter_cons. cbn [fst]. rewrite IH.
    destruct (decide (c = c')) as [->|]; [by rewrite decide_False|done].
Qed.

Lemma of_conn_mid c c' p l1 l2 : (length (of_conn c (l1 ++ l2)) <= length (of_conn c (l1 ++ (c', p) :: l2)))%nat.
Proof.
  rewrite (of_conn_app c l1 ((c', p) :: l2)), of_conn_app. change ((c', p) :: l2) with ([(c', p)] ++ l2).
  rewrite of_conn_app, !length_app. lia.
Qed.

Ltac perm_solve :=
  simpl; rewrite ?map_app; simpl; rewrite ?map_app; simpl; solve_Permutation.

Lemma same_key c p w rsp w' :
  handler (addr c) p w = (Ret (Some rsp), w') -> key_of (c, rsp) = key_of (c, p).
Proof. intros Hh. unfold key_of. cbn [fst snd]. by erewrite handler_echoes. Qed.

Lemma inv_init reqs wo : inv reqs (init reqs wo).
Proof.
  split_and!; simpl; try done; try lia.
Qed.

Lemma inv_step reqs s l s' : inv reqs s -> step s l s' -> inv reqs s'.
Proof.
  intros (Hw & Hc & Hq & Ha & Hp) Hs. unfold in_flight in Hp.
  destruct Hs; cbn [incoming active queue buffered sent dropped workers armed] in *;
    (split_and!; cbn [incoming active queue buffered sent dropped workers armed];
     [| |intros c0; specialize (Hq c0)|intros c0; specialize (Ha c0)|]).
  all: try done; try lia.
  all: try (rewrite !length_app in *; simpl in *; lia).
  all: try (rewrite <- Hp; unfold in_flight;
    cbn [incoming active queue buffered sent dropped];
    rewrite ?map_app; cbn [map];
    try erewrite same_key by eassumption; solve_Permutation).
  - rewrite of_conn_app, of_conn_one, length_app. destruct (decide (c = c0)) as [->|]; simpl; lia.
  - pose proof (of_conn_mid c0 c rsp l1 l2). lia.
  - rewrite of_conn_app, of_conn_one, elem_of_union, elem_of_singleton.
    destruct (decide (c = c0)) as [->|Hne].
    + split; [intros _; by destruct (of_conn c0 b)|by left].
    + rewrite app_nil_r. naive_solver.
  - rewrite of_conn_not_conn, elem_of_difference, elem_of_singleton.
    destruct (decide (c0 = c)); naive_solver.
  - rewrite <- Hp. unfold in_flight. cbn [incoming active queue buffered sent dropped].
    rewrite <- (split_conn c b) at 3. rewrite ?map_app. solve_Permutation.
Qed.

Lemma reachable_inv reqs wo ls s : steps step (init reqs wo) ls s -> inv reqs s.
Proof. apply steps_invariant; [apply inv_step|apply inv_init]. Qed.

(** *** Termination and progress *)

Definition measure (s : State) : nat :=
  (4 * length (incoming s) + 3 * length (active s) + 2 * length (queue s) + length (buffered s))%nat.

Definition no_stop (l : label) : Prop :=
  match l with LStop _ | LCrash _ => False | _ => True end.

Lemma split_conn_length c l : (length (of_conn c l) + length (not_conn c l) = length l)%nat.
Proof. by rewrite <- length_app, split_conn. Qed.

Lemma step_measure reqs s l s' :
  inv reqs s -> no_stop l -> step s l s' -> (measure s' < measure s)%nat.
Proof.
  intros (_ & _ & _ & Ha & _) Hl Hs. unfold measure.
  destruct Hs; try done; cbn [incoming active queue buffered armed] in *;
    rewrite ?length_app; cbn [length]; try lia.
  pose proof (split_conn_length c b). specialize (Ha c).
  assert (length (of_conn c b) ≠ 0)%nat; [|lia].
  intros Hz%nil_length_inv. naive_solver.
Qed.

(** The first packet of a connection in a list. *)
Lemma first_of (l : list tagged) : l ≠ [] -> exists c p l2, l = [] ++ (c, p) :: l2 /\ c ∉ ([] : list tagged).*1.
Proof. destruct l as [|[c p] l]; [done|]. intros _. exists c, p, l. split; [done|]. apply not_elem_of_nil. Qed.

Lemma of_conn_first c l : of_conn c l ≠ [] ->
  exists p l1 l2, l = l1 ++ (c, p) :: l2 /\ c ∉ l1.*1.
Proof.
  induction l as [|[c' p] l IH]; [done|]. unfold of_conn in *. rewrite filter_cons. cbn [fst].
  destruct (decide (c' = c)) as [->|Hne]; intros H.
  - exists p, [], l. split; [done|]. apply not_elem_of_nil.
  - destruct (IH H) as (q & l1 & l2 & -> & Hn). exists q, ((c', p) :: l1), l2. split; [done|].
    cbn. apply not_elem_of_cons. naive_solver.
Qed.

Variable good : Packet -> Prop.
Hypothesis handler_total : forall a req w, good req ->
  exists rsp w', handler a req w = (Ret (Some rsp), w').

Definition all_good (s : State) : Prop := Forall (fun x => good x.2) (active s ++ incoming s).

Lemma all_good_step s l s' : all_good s -> step s l s' -> all_good s'.
Proof.
  unfold all_good. intros Hg Hs. destruct Hs; cbn [active incoming] in *;
    rewrite ?Forall_app, ?Forall_cons, ?Forall_app in *; try done; naive_solver.
Qed.
Hypothesis some_worker : (0 < MaxConcurrency)%nat.
Hypothesis some_pending : (0 < MaxPending)%nat.

(** While nothing has stopped, work in flight can always move on. *)
Lemma progress reqs s :
  inv reqs s -> all_good s -> stopped s = ∅ -> crashed s = false -> measure s ≠ 0%nat ->
  exists l s', no_stop l /\ step s l s'.
Proof.
  intros (Hw & Hc & Hq & Ha & Hp) Hg Hst Hcr Hm. unfold all_good in Hg. destruct s as [inc ac q b se d w ar st cr wo].
  cbn [incoming active queue buffered armed workers stopped crashed] in *. subst st cr.
  destruct (decide (b = [])) as [->|Hb].
  2: { destruct (first_of b Hb) as (c & p & l2 & -> & _). exists (LFlush c). eexists. split; [done|].
       constructor. apply Ha. cbn [app]. unfold of_conn. rewrite filter_cons.
       by rewrite decide_True. }
  destruct (decide (q = [])) as [->|Hq'].
  2: { destruct (first_of q Hq') as (c & p & l2 & -> & Hn). exists (LWrite c). eexists. split; [done|].
       by constructor. }
  destruct (decide (ac = [])) as [->|Hac].
  2: { destruct (first_of ac Hac) as (c & p & l2 & -> & Hn). cbn [app length] in Hw. subst w.
       destruct (handler_total (addr c) p wo) as (rsp & wo' & Hh);
         [by apply Forall_cons in Hg as [? _]|].
       exists (LFinish c). eexists. split; [done|]. eapply (step_finish c p rsp _ []); [done|].
       simpl. lia. }
  destruct (decide (inc = [])) as [->|Hi]; [done|].
  destruct (first_of inc Hi) as (c & p & l2 & -> & Hn). simpl in Hw. subst w.
  exists (LRead c). eexists. split; [done|]. constructor; [done|lia].
Qed.

Lemma no_stop_keeps s l s' : no_stop l -> step s l s' ->
  stopped s' = stopped s /\ crashed s' = crashed s /\ (stopped s = ∅ -> dropped s' = dropped s).
Proof. intros Hl Hs. destruct Hs; try done; cbn. split_and!; try done. set_solver. Qed.

Lemma no_stop_steps s ls s' : Forall no_stop ls -> steps step s ls s' ->
  stopped s = ∅ -> crashed s = false -> dropped s = [] ->
  stopped s' = ∅ /\ crashed s' = false /\ dropped s' = [].
Proof.
  intros Hls Hs. revert Hls. induction Hs as [|s l s1 ls s2 H1 Hs IH]; [done|].
  intros [Hl Hls]%Forall_cons Hst Hcr Hd. destruct (no_stop_keeps _ _ _ Hl H1) as (H2 & H3 & H4).
  apply IH; try done; [congruence..|]. rewrite H4; done.
Qed.

Lemma bounded_run reqs s ls s' : inv reqs s -> Forall no_stop ls -> steps step s ls s' ->
  (length ls + measure s' <= measure s)%nat.
Proof.
  intros Hi Hls Hs. revert Hi Hls. induction Hs as [|s l s1 ls s2 H1 Hs IH]; intros Hi Hls; [simpl; lia|].
  apply Forall_cons in Hls as [Hl Hls]. pose proof (step_measure _ _ _ _ Hi Hl H1).
  specialize (IH (inv_step _ _ _ _ Hi H1) Hls). simpl. lia.
Qed.

Lemma quiescent_sent reqs s :
  inv reqs s -> measure s = 0%nat -> dropped s = [] -> map key_of (sent s) ≡ₚ map key_of reqs.
Proof.
  intros (_ & _ & _ & _ & Hp) Hm Hd. unfold in_flight, measure in *.
  destruct (incoming s), (active s), (queue s), (buffered s); try (simpl in Hm; lia).
  rewrite Hd in Hp. simpl in Hp. by rewrite !app_nil_r in Hp.
Qed.

(** A run without stops is short, and answers everything if it goes as far as it can. *)
Lemma run_answers_all reqs wo ls s :
  Forall (fun x => good x.2) reqs -> Forall no_stop ls -> steps step (init reqs wo) ls s ->
  (length ls <= 4 * length reqs)%nat /\
  ((forall l s', no_stop l -> ~ step s l s') ->
    dropped s = [] /\ map key_of (sent s) ≡ₚ map key_of reqs).
Proof.
  intros Hg Hls Hs. pose proof (bounded_run reqs _ _ _ (inv_init reqs wo) Hls Hs) as Hb.
  split; [unfold measure at 2 in Hb; simpl in Hb; lia|]. intros Hmax.
  destruct (no_stop_steps _ _ _ Hls Hs) as (Hst & Hcr & Hd); try done. split; [done|].
  apply quiescent_sent; [by eapply reachable_inv| |done].
  destruct (decide (measure s = 0%nat)) as [|Hm]; [done|].
  assert (all_good s) as Hgs.
  { revert Hs. apply (steps_invariant step); [apply all_good_step|]. done. }
  destruct (progress reqs s) as (l & s' & Hl & Hstep); try done; [by eapply reachable_inv|].
  by destruct (Hmax l s').
Qed.
End running.

(** ** Properties of the server *)

Section properties.
Context {C : Type} {SS : Gl.StrStore C Gl.glmap} {U : Type}.
Variable Marshal : LogData -> option string.
Implicit Types (w : @W C U) (hs : gmap Z (@RpcHandlerFunc C U)) (st : @filters C U).

Lemma dispatch_reply hs st g a p w rsp w' :
  dispatchPacket Marshal hs st g a (PRpc p) w = (Ret rsp, w') ->
  exists body code, rsp = PRpc (NewRpcPacketWithRet (r_Cmd p) body (r_Seq p) code).
Proof.
  unfold dispatchPacket. destruct (hs !! r_Cmd p).
  - unfold mbind, M_bind. destruct (Filters_Handle _ _ _ _) as [[[code body]|e] w1]; [|done].
    intros [= <- <-]. by exists body, code.
  - intros [= <- <-]. by do 2 eexists.
Qed.

Lemma dog_dispatch_reply hs st g a p w rsp w' :
  dogDispatchPacket Marshal hs st g a (PDog p) w = (Ret rsp, w') ->
  exists body code,
    rsp = PDog (NewDogPacketWithRet (h_Cmd (d_Header p)) body (h_Seq (d_Header p)) code).
Proof.
  unfold dogDispatchPacket. destruct (hs !! h_Cmd (d_Header p)).
  - unfold mbind, M_bind. destruct (Filters_Handle _ _ _ _) as [[[code body]|e] w1]; [|done].
    intros [= <- <-]. by exists body, code.
  - intros [= <- <-]. by do 2 eexists.
Qed.

(** The handler of a running server: the dispatcher behind [callHandlerWithRecover];
    [gid] gives each request the goroutine that serves it. *)
Definition serve hs st (gid : Packet -> Z) (a : string) (p : Packet) : M (@W C U) (option Packet) :=
  callHandlerWithRecover (dispatchPacket Marshal hs st (gid p)) a p.
Definition dog_serve hs st (gid : Packet -> Z) (a : string) (p : Packet) : M (@W C U) (option Packet) :=
  callHandlerWithRecover (dogDispatchPacket Marshal hs st (gid p)) a p.

Lemma callHandler_inv (h : string -> Packet -> M (@W C U) Packet) a p w rsp w' :
  callHandlerWithRecover h a p w = (Ret (Some rsp), w') -> h a p w = (Ret rsp, w').
Proof.
  unfold callHandlerWithRecover, recovering, mbind, M_bind.
  destruct (h a p w) as [[r|e] w1]; [|done]. by intros [= -> ->].
Qed.

Lemma serve_echoes hs st gid a p w rsp w' :
  serve hs st gid a p w = (Ret (Some rsp), w') -> ID rsp = ID p.
Proof.
  intros H%callHandler_inv. destruct p as [p|p]; [|done].
  by apply dispatch_reply in H as (body & code & ->).
Qed.

Lemma dog_serve_echoes hs st gid a p w rsp w' :
  dog_serve hs st gid a p w = (Ret (Some rsp), w') -> ID rsp = ID p.
Proof.
  intros H%callHandler_inv. destruct p as [p|p]; [done|].
  by apply dog_dispatch_reply in H as (body & code & ->).
Qed.

(** C3 Whatever the registered handlers and filters do, in every reachable state
    of a server with any number of connections: the requests being served never
    exceed the configured concurrency nor a connection's queue its bound, and the
    responses sent, given up or on their way together with the requests still
    open are, up to order, one per request received, on the same connection with
    the same sequence number. *)
Theorem responses_match_requests hs st gid addr nc np reqs w ls s :
  steps (step (serve hs st gid) addr nc np) (init reqs w) ls s ->
  (length (active s) <= nc)%nat /\ (forall c, (length (of_conn c (queue s)) <= np)%nat) /\
  map key_of (sent s ++ dropped s ++ buffered s ++ queue s ++ active s ++ incoming s)
    ≡ₚ map key_of reqs.
Proof.
  intros Hs. destruct (reachable_inv (serve hs st gid) addr nc np (serve_echoes hs st gid)
    _ _ _ _ Hs) as (Hw & Hc & Hq & _ & Hp). split_and!; [lia|done|done].
Qed.

Lemma serve_total hs st gid a p w :
  Filters st = [] -> (exists q, p = PRpc q) -> exists rsp w', serve hs st gid a p w = (Ret (Some rsp), w').
Proof.
  intros Hst [q ->]. unfold serve, callHandlerWithRecover, dispatchPacket, Filters_Handle.
  rewrite Hst. destruct (hs !! r_Cmd q) as [f|]; [|by do 2 eexists].
  set (ctx := mkContext _ _ _ _ _ _).
  destruct (handlerWithRecover_total (ctx_Handler ctx) (ctx_Req ctx) w) as (r & w' & Hr).
  do 2 eexists. apply recovering_ret. unfold mbind, M_bind. rewrite Hr. done.
Qed.

(** C26 A server without filters answers everything: whatever the handlers do,
    panics included, a run in which nothing is stopped has at most four steps per
    request, and when none is left to take every request of every connection has
    been answered with its sequence number. *)
Theorem server_answers_all hs st gid addr nc np reqs w ls s :
  Filters st = [] -> (0 < nc)%nat -> (0 < np)%nat ->
  Forall (fun x => exists q, x.2 = PRpc q) reqs ->
  Forall no_stop ls -> steps (step (serve hs st gid) addr nc np) (init reqs w) ls s ->
  (length ls <= 4 * length reqs)%nat /\
  ((forall l s', no_stop l -> ~ step (serve hs st gid) addr nc np s l s') ->
    dropped s = [] /\ map key_of (sent s) ≡ₚ map key_of reqs).
Proof.
  intros Hst Hnc Hnp Hr. apply run_answers_all with (good := fun p => exists q, p = PRpc q); try done.
  - apply serve_echoes.
  - intros a req w0 Hq. by apply serve_total.
Qed.

(** Dispatch, branch by branch (no filter installed): an unregistered command
    is answered with code 10004 and an empty body, a handler's result is passed
    on, and a panicking handler gives code 10003 and a nil body; command and
    sequence number are always those of the request. *)
Theorem dispatchPacket_cases hs st g a p w :
  Filters st = [] ->
  let reply body code := PRpc (mkRpc (r_Seq p) code (r_Cmd p) (u32 (body_len body + 16)) body) in
  match hs !! r_Cmd p with
  | None =>
      exists l, dispatchPacket Marshal hs st g a (PRpc p) w =
        (Ret (reply (Some []) 10004), mkW (gls w) (lines w ++ [l]) (clock w) (user w))
  | Some f =>
      match f (r_Body p) w with
      | (Ret (code, body), w') => dispatchPacket Marshal hs st g a (PRpc p) w = (Ret (reply body code), w')
      | (Panic _, w') =>
          exists l, dispatchPacket Marshal hs st g a (PRpc p) w =
            (Ret (reply None 10003), mkW (gls w') (lines w' ++ [l]) (clock w') (user w'))
      end
  end.
Proof.
  intros Hst reply. unfold dispatchPacket, Filters_Handle. rewrite Hst.
  destruct (hs !! r_Cmd p) as [f|]; [|by eexists].
  unfold mbind, M_bind, handlerWithRecover, recovering. cbn [ctx_Handler ctx_Req].
  destruct (f (r_Body p) w) as [[[code body]|e] w']; [done|by eexists].
Qed.

(** Installing filters once, distinct and freshly made, makes every request go
    through all of them in the order given, the handler innermost. *)
Theorem Use_builds_chain (fs : list fid) (ks : list (@filter_kind C U)) h ctx :
  NoDup fs -> fresh h fs ks -> fs ≠ [] ->
  Filters_Handle Marshal (Use fs (mkFilters h [])) ctx = chain Marshal ks ctx.
Proof.
  intros Hnd Hfr Hne. unfold Filters_Handle, Use. rewrite Use_loop_Filters. cbn [Filters app].
  destruct fs as [|f fs]; [done|]. rewrite Use_loop_size. cbn [fheap].
  apply filter_Handle_chain with (fs := fs).
  - by apply Use_loop_linked.
  - pose proof (fresh_length _ _ _ Hnd Hfr). lia.
Qed.

Lemma linked_ext (h h' : gmap fid (@filter_obj C U)) fs ks :
  (forall f, f ∈ fs -> h' !! f = h !! f) -> linked h fs ks -> linked h' fs ks.
Proof.
  revert ks. induction fs as [|f fs IH]; intros [|k ks] He Hl; try done.
  destruct Hl as [Hh Hl]. split; [rewrite He by left; done|]. apply IH; [|done].
  intros f' Hf'. apply He. by right.
Qed.

(** A second call of [Use] has no effect on any request: its filters are
    listed, but the chain of the first call never reaches them. *)
Theorem second_Use_ignored (fs fs2 : list fid) (ks : list (@filter_kind C U)) h ctx :
  NoDup fs -> fresh h fs ks -> fs ≠ [] -> (forall f, f ∈ fs -> f ∉ fs2) ->
  Filters_Handle Marshal (Use fs2 (Use fs (mkFilters h []))) ctx = chain Marshal ks ctx.
Proof.
  intros Hnd Hfr Hne Hdis. unfold Filters_Handle, Use. rewrite !Use_loop_Filters. cbn [Filters app].
  destruct fs as [|f fs]; [done|]. cbn [app]. rewrite !Use_loop_size. cbn [fheap].
  apply filter_Handle_chain with (fs := fs).
  - apply (linked_ext (fheap (Use_loop None (f :: fs) (mkFilters h [])))); [|by apply Use_loop_linked].
    intros f' Hf'. apply Use_loop_other; [by apply Hdis|done].
  - pose proof (fresh_length _ _ _ Hnd Hfr). lia.
Qed.

Lemma union_Some_keep {T} (x : T) (o : option T) : Some x ∪ o = Some x.
Proof. by destruct o. Qed.

(** Registration: of several handlers for one command the first stays, so a
    sequence of [AddHandler] calls builds the map from each command to its first
    handler. *)
Theorem AddHandler_first_wins (l : list (Z * @RpcHandlerFunc C U)) :
  foldl (fun hs kf => AddHandler kf.1 kf.2 hs) ∅ l = list_to_map l.
Proof.
  assert (forall hs, foldl (fun hs kf => AddHandler kf.1 kf.2 hs) hs l = hs ∪ list_to_map l) as H.
  { induction l as [|[k f] l IH]; intros hs; cbn [foldl list_to_map foldr].
    - by rewrite map_union_empty.
    - rewrite IH. apply map_eq. intros k'. rewrite !lookup_union, AddHandler_lookup.
      destruct (hs !! k') as [f'|].
      + by rewrite !union_Some_keep.
      + cbn [list_to_map foldr fst snd uncurry]. destruct (decide (k' = k)) as [->|Hne].
        * rewrite lookup_insert_eq. by destruct (list_to_map l !! k).
        * by rewrite lookup_insert_ne. }
  rewrite H. apply map_empty_union.
Qed.

(** [GlFilter] scopes its data: with no goroutine-local data left over the
    rest of the chain starts with exactly the log id and the client address, and
    once it returns or panics the goroutine has no data again, whatever the chain
    stored; other goroutines' data is as the chain left it. *)
Theorem GlFilter_scoped (next : M (@W C U) (Z * bytes)) ctx w A :
  Gl.gmodels (gls w) A ->
  exists w1, Gl.gmodels (gls w1) (<[goid ctx := {[Gl.KStr Gl.ClientIp := Gl.VStr (ClientAddr ctx);
      Gl.KStr Gl.LogId := Gl.VStr (itoa (clock w))]}]> A) /\ user w1 = user w /\
    forall r w2 A2, next w1 = (r, w2) -> Gl.gmodels (gls w2) A2 ->
      exists w3, GlFilter_Handle next ctx w = (r, w3) /\ Gl.gmodels (gls w3) (delete (goid ctx) A2).
Proof.
  intros HA. destruct (Gl.does_Init (goid ctx) _ _ HA) as (g1 & H1 & HA1).
  set (st := clock w).
  destruct (Gl.does_local_write (goid ctx) (insert (Gl.KStr Gl.LogId) (Gl.VStr (itoa st))) _ _ HA1)
    as (g2 & H2 & HA2).
  destruct (Gl.does_local_write (goid ctx) (insert (Gl.KStr Gl.ClientIp) (Gl.VStr (ClientAddr ctx)))
    _ _ HA2) as (g3 & H3 & HA3).
  rewrite !lookup_partial_alter_eq in HA3. rewrite !partial_alter_partial_alter_eq in HA3.
  exists (mkW g3 (lines w) (clock w) (user w)). split_and!; [exact HA3|done|].
  intros r w2 A2 Hn HA2'. destruct (Gl.does_Close (goid ctx) _ _ HA2') as (g4 & H4 & HA4).
  exists (mkW g4 (lines w2) (clock w2) (user w2)). split; [|exact HA4].
  unfold GlFilter_Handle, defer, on_gls, now, gets, mbind, M_bind in *.
  rewrite H1. cbn [gls lines clock user]. fold st. unfold Gl.Set_ in *.
  rewrite H2. cbn [gls lines clock user]. rewrite H3. cbn [gls lines clock user]. unfold st. rewrite Hn.
  by rewrite H4.
Qed.

(** A panic that reaches [callHandlerWithRecover] is not recovered: the
    deferred function calls [SetErrCode] on the nil response and panics again, so
    the goroutine, and with it the process, dies instead of answering 10003. *)
Theorem callHandler_panic_escapes (handler : string -> Packet -> M (@W C U) Packet) a p w e w' :
  handler a p w = (Panic e, w') ->
  callHandlerWithRecover handler a p w = (Panic "nil pointer dereference", w').
Proof.
  intros Hh. unfold callHandlerWithRecover, recovering, mbind, M_bind. by rewrite Hh.
Qed.

Section wrapping.
Context {A R : Type}.
Variable Unmarshal : list byte -> A + string.
Variable MarshalReply : Z -> string -> option R -> bytes.
Implicit Types (f : @Func C U A R).

(** A request the wrapper of a typed handler cannot decode never reaches the
    handler and is answered with code 0 (success) and a nil body: the reply built
    for it is thrown away.  A handler whose parameter is not a pointer is in this
    case for every non-empty request. *)
Theorem wrap_undecodable f k ks wf b l w :
  fn_in f = k :: ks -> wrap Unmarshal MarshalReply (IsFunc f) = inl wf ->
  (k = InVal \/ exists e, Unmarshal (b :: l) = inr e) ->
  exists line, wf (Some (b :: l)) w = (Ret (0, None), mkW (gls w) (lines w ++ [line]) (clock w) (user w)).
Proof.
  intros Hin Hw Hk. unfold wrap in Hw. rewrite Hin in Hw.
  destruct (fn_out f) as [|o0 [|o1 [|o2 [|o3 os]]]]; try done.
  destruct o0; try done; destruct o1; try done; destruct o2 as [| |[]|]; try done.
  injection Hw as <-.
  assert (exists e, decode_arg Unmarshal k (Some (b :: l)) = inr e) as [e He].
  { unfold decode_arg. cbn [slice_bytes default id].
    destruct Hk as [->|[e He]]; [by eexists|]. destruct k; [rewrite He|]; by eexists. }
  unfold wrapped. rewrite He. by eexists.
Qed.
End wrapping.
End properties.

(** ** Concrete runs *)

Section demo.

Abbreviation C := (Gl.ConcurrentMap Gl.glmap).
Abbreviation World := (@W C unit).

Definition w0 : World := mkW (Gl.new_gl true) [] 0 tt.
Definition marshal_ok : LogData -> option string := fun _ => Some EmptyString.
Definition echo : @RpcHandlerFunc C unit := fun req => mret (0, req).
Definition boom : @RpcHandlerFunc C unit := fun _ => panic "boom".
Definition demo_handlers : gmap Z (@RpcHandlerFunc C unit) := <[1 := echo]> {[2 := boom]}.
Definition no_filters : @filters C unit := mkFilters ∅ [].
Definition req1 : Packet := PRpc (NewRpcPacketWithSeq 1 (Some [x41]) 77).
Definition rsp1 : Packet := PRpc (NewRpcPacketWithRet 1 (Some [x41]) 77 0).

Abbreviation demo_serve := (serve marshal_ok demo_handlers no_filters (fun _ => 0)).

Lemma demo_run :
  steps (step demo_serve (fun _ => "peer") 1 1) (init [(0%nat, req1)] w0)
    [LRead 0; LFinish 0; LWrite 0; LFlush 0]
    (mkState [] [] [] [] [(0%nat, rsp1)] [] 0 ∅ ∅ false w0).
Proof.
  econstructor; [eapply (step_read _ _ _ _ 0%nat req1 [] []); [apply not_elem_of_nil|lia]|].
  econstructor; [eapply (step_finish _ _ _ _ 0%nat req1 rsp1 [] [] []); [reflexivity|simpl; lia]|].
  econstructor; [eapply (step_write _ _ _ _ 0%nat rsp1 [] [] [] []); apply not_elem_of_nil|].
  econstructor; [eapply step_flush; set_solver|].
  assert ((({[0%nat]} ∪ ∅) ∖ {[0%nat]} : gset nat) = ∅) as -> by set_solver.
  apply steps_nil.
Qed.

Lemma responses_match_requests_witness :
  let s := mkState [] [] [] [] [(0%nat, rsp1)] [] 0 ∅ ∅ false w0 in
  (length (active s) <= 1)%nat /\ (forall c, (length (of_conn c (queue s)) <= 1)%nat) /\
  map key_of (sent s ++ dropped s ++ buffered s ++ queue s ++ active s ++ incoming s)
    ≡ₚ map key_of [(0%nat, req1)].
Proof. apply (responses_match_requests _ _ _ _ _ _ _ _ _ _ _ demo_run). Defined.

Lemma server_answers_all_witness :
  let s := mkState [] [] [] [] [(0%nat, rsp1)] [] 0 ∅ ∅ false w0 in
  (4 <= 4 * 1)%nat /\
  ((forall l s', no_stop l -> ~ step demo_serve (fun _ => "peer") 1 1 s l s') ->
    dropped s = [] /\ map key_of (sent s) ≡ₚ map key_of [(0%nat, req1)]).
Proof.
  apply (server_answers_all marshal_ok demo_handlers no_filters (fun _ => 0) (fun _ => "peer") 1 1
    [(0%nat, req1)] w0 [LRead 0; LFinish 0; LWrite 0; LFlush 0]); [done|lia|lia| | |apply demo_run].
  - repeat constructor. by eexists.
  - by repeat constructor.
Defined.

Lemma dispatchPacket_cases_witness :
  let p := NewRpcPacketWithSeq 2 None 5 in
  exists l, dispatchPacket marshal_ok demo_handlers no_filters 0 "peer" (PRpc p) w0 =
    (Ret (PRpc (mkRpc 5 10003 2 16 None)), mkW (gls w0) (lines w0 ++ [l]) (clock w0) (user w0)).
Proof.
  exact (dispatchPacket_cases marshal_ok demo_handlers no_filters 0 "peer"
    (NewRpcPacketWithSeq 2 None 5) w0 eq_refl).
Defined.

Definition demo_kinds : list (@filter_kind C unit) := [GlFilter true 0; LogFilter true 5].
Definition demo_heap : gmap fid (@filter_obj C unit) :=
  <[1%positive := mkFilter None (GlFilter true 0)]> {[2%positive := mkFilter None (LogFilter true 5)]}.
Definition demo_ctx : @Context_ C unit := mkContext "peer" 77 "1" echo (Some [x41]) 3.

Lemma demo_fresh : fresh demo_heap [1%positive; 2%positive] demo_kinds.
Proof. by repeat constructor. Qed.

Lemma demo_nodup : NoDup [1%positive; 2%positive].
Proof. repeat constructor; set_solver. Qed.

Lemma Use_builds_chain_witness :
  Filters_Handle marshal_ok (Use [1%positive; 2%positive] (mkFilters demo_heap [])) demo_ctx =
  chain marshal_ok demo_kinds demo_ctx.
Proof. apply Use_builds_chain; [apply demo_nodup|apply demo_fresh|done]. Defined.

Lemma second_Use_ignored_witness :
  Filters_Handle marshal_ok (Use [3%positive] (Use [1%positive; 2%positive] (mkFilters demo_heap []))) demo_ctx =
  chain marshal_ok demo_kinds demo_ctx.
Proof. apply second_Use_ignored; [apply demo_nodup|apply demo_fresh|done|set_solver]. Defined.

Lemma GlFilter_scoped_witness :
  exists w1, Gl.gmodels (gls w1) (<[3 := {[Gl.KStr Gl.ClientIp := Gl.VStr "peer";
      Gl.KStr Gl.LogId := Gl.VStr "0"]}]> ∅) /\ user w1 = tt /\
    forall r w2 A2, echo (Some []) w1 = (r, w2) -> Gl.gmodels (gls w2) A2 ->
      exists w3, GlFilter_Handle (echo (Some [])) demo_ctx w0 = (r, w3) /\
        Gl.gmodels (gls w3) (delete 3 A2).
Proof. apply (GlFilter_scoped (echo (Some [])) demo_ctx w0 ∅), (Gl.new_gl_models true). Defined.

Lemma callHandler_panic_escapes_witness :
  callHandlerWithRecover (dispatchPacket marshal_ok demo_handlers no_filters 0) "peer"
    (PDog (NewDogPacketWithSeq 1 None 1)) w0 = (Panic "nil pointer dereference", w0).
Proof. by eapply callHandler_panic_escapes. Defined.

(** A typed handler that takes its request by value. *)
Definition by_value : @Func C unit nat nat :=
  mkFunc [InVal] [KUint32; KString; KIface true; KOther]
    (fun _ => mret [OUint32 false 7; OString false "ok"; OErr None; OAny 3%nat]).

Lemma wrap_undecodable_witness :
  exists wf line,
    wrap (fun _ => inl 0%nat) (fun _ _ _ => Some [x41]) (IsFunc by_value) = inl wf /\
    wf (Some [x7b; x7d]) w0 = (Ret (0, None), mkW (gls w0) (lines w0 ++ [line]) (clock w0) (user w0)).
Proof.
  destruct (wrap_undecodable (fun _ => inl 0%nat) (fun _ _ _ => Some [x41]) by_value InVal []
    (wrapped (fun _ => inl 0%nat) (fun _ _ _ => Some [x41]) by_value InVal) x7b [x7d] w0)
    as [line H]; [done|done|by left|].
  eexists _, line. split; [reflexivity|exact H].
Defined.

(** When a handler of a dog server panics, the reply (code 10003, nil body) is
    sent, and the client's decoder refuses it with a checksum error: the caller
    never sees the code. *)
Theorem dog_panic_reply_rejected :
  exists rsp w out,
    dog_serve marshal_ok demo_handlers no_filters (fun _ => 0) "peer"
      (PDog (NewDogPacketWithSeq 2 (Some [x41]) 1)) w0 = (Ret (Some (PDog rsp)), w) /\
    h_ErrCode (d_Header rsp) = 10003 /\
    DogEncode (PDog rsp) (mkWriter [] None) = (Ret None, mkWriter out None) /\
    DogDecode out = (Ret (inr (EMsg "invalid CheckSum")), []).
Proof.
  exists (NewDogPacketWithRet 2 None 1 10003), (mkW (gls w0) [mkLine Err "handlerWithRecover" EmptyString None] 0 tt),
    (dog_bytes (NewDogPacketWithRet 2 None 1 10003)).
  split_and!; [reflexivity|reflexivity|vm_compute; reflexivity|vm_compute; reflexivity].
Qed.
End demo.

End RpcServer.
