(* ===== verification/RpcClient.v ===== *)
(** * The RPC client ([net/dogrpc]: client.go, rpc_client.go, dog_client.go)

    One connection of a [Client] and the goroutines that call through it, as
    atomic operations on a shared state; the retry loop of [CallTimeout]; the
    connection table of an [RpcClient]; and the stop protocol. *)

From S2P Require Import Prelude Derror GoStd Encoding RpcServer.
Import Derror GoStd Encoding.

Module RpcClient.

(** ** Configuration ([Client.Start]) *)

Record ClientConf : Type := mkConf {
  c_Addr : string; Conns : Z; DialRetryTime : Z; PendingRequests : Z; FlushDelay : Z;
  RequestTimeout : Z; SendBufferSize : Z; RecvBufferSize : Z
}.

Definition DefaultDialRetryTime : Z := 0.
Definition DefaultConnectNumbers : Z := 1.

(* [net/dogrpc/client.go:39-89] Client.Start *)
Definition Start (c : ClientConf) : ClientConf :=
  mkConf (c_Addr c)
    (RpcServer.dflt (Conns c) DefaultConnectNumbers)
    (if DialRetryTime c <? 0 then DefaultDialRetryTime else DialRetryTime c)
    (RpcServer.dflt (PendingRequests c) RpcServer.DefaultPendingMessages)
    (if FlushDelay c =? 0 then RpcServer.DefaultFlushDelay else FlushDelay c)
    (RpcServer.dflt (RequestTimeout c) RpcServer.DefaultRequestTimeout)
    (RpcServer.dflt (SendBufferSize c) RpcServer.DefaultBufferSize)
    (RpcServer.dflt (RecvBufferSize c) RpcServer.DefaultBufferSize).

(** ** Shared state *)

(** The [Done] channel of a result. *)
Inductive chan : Type := CNil | COpen | CClosed.

#[global] Instance chan_eq_dec : EqDecision chan.
Proof. solve_decision. Defined.

(** [m.Error]: the shared overflow error or an error of its own. *)
Inductive aerr : Type := EShared (p : errp) | EText (msg : string).

(* [net/dogrpc/client.go:431-439] AsyncResult *)
Record AsyncResult : Type := mkAR {
  Response : option Packet; ar_Error : option aerr; Done : chan; Request : option Packet;
  canceled : bool; skipResponse : bool
}.

Definition aid : Type := positive.

(** The package's error objects, by their addresses in the store. *)
Definition TimeOutError : errp := 1%positive.
Definition OverflowError : errp := 2%positive.
Definition InternalServerError : errp := 3%positive.
Definition init_errs : errs := list_to_map (zip [1; 2; 3; 4]%positive RpcServer.shared_errors).

(** Where the writer of the connection is in its turn: at the head of its loop;
    after it has filed a request and released [pendingRequestLock], before the
    clean-up and before the second test of the number of pending requests; before
    [enc.Encode]; or returned. *)
Inductive wstate : Type :=
| WIdle | WClean (m : aid) (msgID : Z) | WCheck (m : aid) | WEncode (m : aid)
| WDone (err : string).

(** [callers] are the goroutines waiting in [CallTimeout], named by their result. *)
Record CS : Type := mkCS {
  results : gmap aid AsyncResult; next : aid; pool : list aid;
  requestsChan : list aid; pendingRequests : gmap Z aid; pendingRequestsCount : Z;
  written : list Packet; callers : gset aid; writer : wstate; cerrs : errs
}.

Definition set_results f s := mkCS (f (results s)) (next s) (pool s) (requestsChan s)
  (pendingRequests s) (pendingRequestsCount s) (written s) (callers s) (writer s) (cerrs s).
Definition set_pool f s := mkCS (results s) (next s) (f (pool s)) (requestsChan s)
  (pendingRequests s) (pendingRequestsCount s) (written s) (callers s) (writer s) (cerrs s).
Definition set_queue f s := mkCS (results s) (next s) (pool s) (f (requestsChan s))
  (pendingRequests s) (pendingRequestsCount s) (written s) (callers s) (writer s) (cerrs s).
Definition set_pending f s := mkCS (results s) (next s) (pool s) (requestsChan s)
  (f (pendingRequests s)) (pendingRequestsCount s) (written s) (callers s) (writer s) (cerrs s).
Definition set_count f s := mkCS (results s) (next s) (pool s) (requestsChan s)
  (pendingRequests s) (f (pendingRequestsCount s)) (written s) (callers s) (writer s) (cerrs s).
Definition set_written f s := mkCS (results s) (next s) (pool s) (requestsChan s)
  (pendingRequests s) (pendingRequestsCount s) (f (written s)) (callers s) (writer s) (cerrs s).
Definition set_callers f s := mkCS (results s) (next s) (pool s) (requestsChan s)
  (pendingRequests s) (pendingRequestsCount s) (written s) (f (callers s)) (writer s) (cerrs s).
Definition set_writer f s := mkCS (results s) (next s) (pool s) (requestsChan s)
  (pendingRequests s) (pendingRequestsCount s) (written s) (callers s) (f (writer s)) (cerrs s).

Definition on_errs {A} (m : M errs A) : M CS A := fun s =>
  match m (cerrs s) with
  | (r, e) => (r, mkCS (results s) (next s) (pool s) (requestsChan s) (pendingRequests s)
                    (pendingRequestsCount s) (written s) (callers s) (writer s) e)
  end.

Definition init : CS := mkCS ∅ 1%positive [] [] ∅ 0 [] ∅ WIdle init_errs.

Definition load (a : aid) : M CS AsyncResult :=
  s ← get;
  match (results s : gmap aid AsyncResult) !! a with
  | Some m => mret m
  | None => panic "nil pointer dereference"
  end.

Definition update (a : aid) (f : AsyncResult -> AsyncResult) : M CS unit :=
  m ← load a; modify (set_results (insert a (f m))).

(** [close(m.Done)] *)
Definition close_Done (a : aid) : M CS unit :=
  m ← load a;
  match Done m with
  | COpen => modify (set_results (insert a (mkAR (Response m) (ar_Error m) CClosed (Request m)
                                              (canceled m) (skipResponse m))))
  | CClosed => panic "close of closed channel"
  | CNil => panic "close of nil channel"
  end.

Definition set_Error (a : aid) (e : option aerr) : M CS unit :=
  update a (fun m => mkAR (Response m) e (Done m) (Request m) (canceled m) (skipResponse m)).

(* [net/dogrpc/client.go:441-443] Cancel *)
Definition Cancel (a : aid) : M CS unit :=
  update a (fun m => mkAR (Response m) (ar_Error m) (Done m) (Request m) true (skipResponse m)).

(* [net/dogrpc/client.go:455-461] acquireAsyncResult *)
Definition acquireAsyncResult : M CS aid := fun s =>
  match pool s with
  | a :: p => (Ret a, set_pool (fun _ => p) s)
  | [] => (Ret (next s),
           mkCS (<[next s := mkAR None None CNil None false false]> (results s))
             (Pos.succ (next s)) [] (requestsChan s) (pendingRequests s)
             (pendingRequestsCount s) (written s) (callers s) (writer s) (cerrs s))
  end.

(** [&AsyncResult{}] *)
Definition new_result : M CS aid := fun s =>
  (Ret (next s),
   mkCS (<[next s := mkAR None None CNil None false false]> (results s))
     (Pos.succ (next s)) (pool s) (requestsChan s) (pendingRequests s)
     (pendingRequestsCount s) (written s) (callers s) (writer s) (cerrs s)).

(* [net/dogrpc/client.go:465-472] releaseAsyncResult *)
Definition releaseAsyncResult (a : aid) : M CS unit :=
  _ ← update a (fun m => mkAR None None CNil None (canceled m) (skipResponse m));
  modify (set_pool (cons a)).

(** The results of a call: a packet and an error object. *)
Abbreviation call_result := (option Packet * option errp)%type.

Section client.
Variable conf : ClientConf.

(** Non-blocking send on [requestsChan]. *)
Definition try_send (a : aid) : M CS bool := fun s =>
  if len (requestsChan s) <? PendingRequests conf
  then (Ret true, set_queue (fun q => q ++ [a]) s) else (Ret false, s).

(** Non-blocking receive. *)
Definition try_recv : M CS (option aid) := fun s =>
  match requestsChan s with
  | [] => (Ret None, s)
  | a :: q => (Ret (Some a), set_queue (fun _ => q) s)
  end.

(** The eviction of the oldest queued request, when there is one. *)
(* [net/dogrpc/client.go:407-418] callAsync, overflow branch *)
Definition evict (usePool : bool) : M CS unit :=
  mm ← try_recv;
  match mm with
  | Some mm =>
      r ← load mm;
      if decide (Done r = CNil) then
        if usePool then releaseAsyncResult mm else mret tt
      else
        _ ← set_Error mm (Some (EShared OverflowError)); close_Done mm
  | None => mret tt
  end.

(* [net/dogrpc/client.go:382-429] callAsync *)
Definition callAsync (req : Packet) (skip usePool : bool) : M CS (aid + errp) :=
  let usePool := skip || usePool in
  m ← (if usePool then acquireAsyncResult else new_result);
  _ ← update m (fun r => mkAR (Response r) (ar_Error r) (if skip then Done r else COpen)
                          (Some req) (canceled r) skip);
  ok ← try_send m;
  if ok : bool then mret (inl m)
  else if skip then
    _ ← releaseAsyncResult m; mret (inr TimeOutError)
  else
    _ ← evict usePool;
    ok ← try_send m;
    if ok : bool then mret (inl m)
    else
      _ ← (if usePool then releaseAsyncResult m else mret tt);
      mret (inr OverflowError).

Definition dec_count : M CS unit := modify (set_count (fun n => u32 (n + (2 ^ 32 - 1)))).

(** The clean-up loop over [pendingRequests], its entries in the order met; [msgID]
    is the identifier of the request being written. *)
Fixpoint clean_loop (msgID : Z) (l : list (Z * aid)) : M CS unit :=
  match l with
  | [] => mret tt
  | (_, a) :: l' =>
      _ ← dec_count;
      r ← load a;
      _ ← (if canceled r then modify (set_pending (delete msgID)) else mret tt);
      clean_loop msgID l'
  end.

Definition writer_at (w : wstate) : M CS unit := modify (set_writer (fun _ => w)).

(** [enc.Encode(m.Request)]: both encoders answer an error to a nil packet.
    [enc_ok]: whether the encoder can write. *)
Definition encode (a : aid) (enc_ok : bool) : M CS unit :=
  r ← load a;
  match Request r with
  | Some p =>
      if enc_ok then _ ← modify (set_written (fun w => w ++ [p])); writer_at WIdle
      else writer_at (WDone "encode error")
  | None => writer_at (WDone "encode error")
  end.

(** From the queue to the release of [pendingRequestLock]. *)
(* [net/dogrpc/client.go:218-263] clientWriter, up to the clean-up *)
Definition clientWriter_file : M CS unit :=
  mm ← try_recv;
  match mm with
  | None => mret tt
  | Some m =>
      r ← load m;
      if canceled r then
        if decide (Done r = CNil) then releaseAsyncResult m
        else _ ← set_Error m (Some (EText "canceled error")); close_Done m
      else if skipResponse r then writer_at (WEncode m)
      else
        match Request r with
        | None => panic "nil pointer dereference"
        | Some req =>
            let msgID := ID req in
            n ← gets (fun s => Z.of_nat (size (pendingRequests s : gmap Z aid)));
            _ ← modify (set_pending (insert msgID m));
            _ ← modify (set_count (fun k => u32 (k + 1)));
            writer_at (if 3 * PendingRequests conf <? n then WClean m msgID else WEncode m)
        end
  end.

(** The next piece of the writer's loop that runs without a gap: the filing, the
    clean-up under the lock, the second test, the encoding.  Between two pieces the
    other goroutines may do anything. *)
(* [net/dogrpc/client.go:218-285] clientWriter *)
Definition clientWriter_step (enc_ok : bool) : M CS unit :=
  s ← get;
  match writer s with
  | WIdle => clientWriter_file
  | WClean m msgID =>
      _ ← clean_loop msgID (map_to_list (pendingRequests s : gmap Z aid)); writer_at (WCheck m)
  | WCheck m =>
      writer_at (if 3 * PendingRequests conf <? Z.of_nat (size (pendingRequests s : gmap Z aid))
                 then WDone "too many pending requests" else WEncode m)
  | WEncode m => encode m enc_ok
  | WDone _ => mret tt
  end.

(** One decoded packet in the reader's loop.  After the entry is removed, under
    the lock, no other goroutine holds the result but its caller, who waits for the
    channel to close and can at most set [canceled], and the writer, who reads its
    request. *)
(* [net/dogrpc/client.go:288-328] clientReader *)
Definition clientReader_turn (packet : Packet) : M CS unit :=
  let msgID := ID packet in
  mm ← gets (fun s => (pendingRequests s : gmap Z aid) !! msgID);
  match mm with
  | None => mret tt
  | Some m =>
      _ ← modify (set_pending (delete msgID));
      _ ← dec_count;
      _ ← update m (fun r => mkAR (Some packet) (ar_Error r) (Done r) (Request r) (canceled r)
                              (skipResponse r));
      close_Done m
  end.

Fixpoint drain_loop (err : option string) (l : list (Z * aid)) : M CS unit :=
  match l with
  | [] => mret tt
  | (_, m) :: l' =>
      _ ← dec_count;
      _ ← set_Error m (EText <$> err);
      r ← load m;
      _ ← (if decide (Done r = CNil) then mret tt else close_Done m);
      drain_loop err l'
  end.

(** The end of a connection: every pending request gets [err], which is nil when
    the connection ends because the client is stopped.  It is reached after both the
    reader and the writer have returned.  The next connection starts with a fresh
    map and a new writer. *)
(* [net/dogrpc/client.go:163-202] clientHandleConnection *)
Definition clientHandleConnection_end (err : option string) : M CS unit :=
  l ← gets (fun s => map_to_list (pendingRequests s : gmap Z aid));
  _ ← drain_loop err l;
  _ ← modify (set_pending (fun _ => ∅));
  writer_at WIdle.

(** *** The caller *)

Definition aerr_text (e : aerr) : M CS string :=
  match e with
  | EText msg => mret msg
  | EShared p =>
      s ← get;
      match (cerrs s : gmap errp CodeError) !! p with
      | Some ce => mret (Error ce)
      | None => panic "nil pointer dereference"
      end
  end.

(** [case <-m.Done] of the select. *)
Definition on_Done (m : aid) : M CS call_result :=
  r ← load m;
  res ← match ar_Error r with
        | None => mret (Response r, None)
        | Some e =>
            msg ← aerr_text e;
            p ← on_errs (SetMsg InternalServerError msg);
            mret (Response r, Some p)
        end;
  _ ← releaseAsyncResult m;
  mret res.

(** [case <-t.C] of the select. *)
Definition on_timeout (m : aid) : M CS call_result :=
  _ ← Cancel m;
  p ← on_errs (SetMsg TimeOutError
        ("[" +:+ c_Addr conf +:+ "]. Cannot obtain response during timeout"));
  mret (None, Some p).

Definition err_Code (p : errp) : M CS Z :=
  s ← get;
  match (cerrs s : gmap errp CodeError) !! p with
  | Some ce => mret (Code ce)
  | None => panic "nil pointer dereference"
  end.

(** [wait i m]: what the other goroutines do while attempt [i] waits, and whether
    the timer fires first. *)
Variable wait : nat -> aid -> M CS bool.

(** The [retry:] loop; [None] when the fuel, one unit per attempt, is used up. *)
(* [net/dogrpc/client.go:346-376] CallTimeout *)
Fixpoint CallTimeout (fuel : nat) (i : nat) (req : Packet) (retryNum tryNum : Z)
    : M CS (option call_result) :=
  match fuel with
  | O => mret None
  | S fuel' =>
      m ← callAsync req false true;
      match m with
      | inr err => mret (Some (None, Some err))
      | inl m =>
          fired ← wait i m;
          res ← (if fired : bool then on_timeout m else on_Done m);
          match res.2 with
          | Some err =>
              c ← err_Code err;
              t ← err_Code TimeOutError;
              if c =? t then
                let tryNum := u32 (tryNum + 1) in
                if tryNum <=? retryNum then CallTimeout fuel' (S i) req retryNum tryNum
                else mret (Some res)
              else mret (Some res)
          | None => mret (Some res)
          end
      end
  end.

(* [net/dogrpc/client.go:334-336] CallRetry *)
Definition CallRetry (fuel : nat) (req : Packet) (retryNum : Z) : M CS (option call_result) :=
  CallTimeout fuel 0 req retryNum 0.

(* [net/dogrpc/client.go:330-332] Call *)
Definition Call (fuel : nat) (req : Packet) : M CS (option call_result) := CallRetry fuel req 0.

(* [net/dogrpc/client.go:378-380] CallAsync *)
Definition CallAsync (req : Packet) (skip : bool) : M CS (aid + errp) := callAsync req skip false.

(* [net/dogrpc/client.go:339-344] SendUDP *)
Definition SendUDP (req : Packet) : M CS (option errp) :=
  m ← CallAsync req true;
  mret (match m with inl _ => None | inr err => Some err end).

End client.

(** ** The connection table ([rpc_client.go], [dog_client.go]) *)

Inductive codec : Type := RpcCodecK | DogCodecK.

(** A connected [Client]: its codec, its configuration after [Start], whether it
    dials with TLS, and whether it is started. *)
Record client_entry : Type := mkEntry {
  ce_codec : codec; ce_conf : ClientConf; ce_tls : bool; ce_started : bool
}.

(* [net/dogrpc/rpc_client.go:26-38] RpcClient *)
Record RpcClient : Type := mkRpcClient {
  Cm : gmap string client_entry; addrs : list string; Timeout : Z; RetryNum : Z; TlsCfg : bool;
  RpcCaPemFile : string; RpcClientKeyFile : string; RpcClientPemFile : string
}.

Section table.
(** [tls.LoadX509KeyPair], [ioutil.ReadFile], [AppendCertsFromPEM] and
    [net.ResolveTCPAddr] (the address as printed, or an error). *)
Variable LoadX509KeyPair : string -> string -> option string.
Variable ReadFile : string -> list byte + string.
Variable AppendCertsFromPEM : list byte -> bool.
Variable ResolveTCPAddr : string -> string + string.

(** [None] is the nil client of the error paths. *)
(* [net/dogrpc/rpc_client.go:40-88] NewClient *)
Definition NewClient (timeout retryNum : Z) (useTls cfg : bool) (ca serverKey serverPem : string)
    : option RpcClient :=
  if useTls && negb cfg then
    let ca := RpcServer.or_default ca "conf/ca.pem" in
    let key := RpcServer.or_default serverKey "conf/client.key" in
    let pem := RpcServer.or_default serverPem "conf/client.pem" in
    match LoadX509KeyPair pem key with
    | Some _ => None
    | None =>
        match ReadFile ca with
        | inr _ => None
        | inl data =>
            if AppendCertsFromPEM data
            then Some (mkRpcClient ∅ [] timeout retryNum true ca key pem) else None
        end
    end
  else Some (mkRpcClient ∅ [] timeout retryNum cfg ca serverKey serverPem).

(* [net/dogrpc/rpc_client.go:91-98] AddAddr *)
Definition AddAddr (addr : string) (c : RpcClient) : RpcClient :=
  match ResolveTCPAddr addr with
  | inr _ => c
  | inl a => mkRpcClient (Cm c) (addrs c ++ [a]) (Timeout c) (RetryNum c) (TlsCfg c)
               (RpcCaPemFile c) (RpcClientKeyFile c) (RpcClientPemFile c)
  end.
End table.

(** [rand.Intn(len(addrs))] gives [idx].  The result is the address under which
    the client is found in the table. *)
Definition connect_with (k : codec) (timeout : Z) (idx : nat) : M RpcClient (string + errp) :=
  c ← get;
  match addrs c !! idx with
  | None => mret (inr InternalServerError)
  | Some addr =>
      let save e := modify (fun c => mkRpcClient (<[addr := e]> (Cm c)) (addrs c) (Timeout c)
                              (RetryNum c) (TlsCfg c) (RpcCaPemFile c) (RpcClientKeyFile c)
                              (RpcClientPemFile c)) in
      match Cm c !! addr with
      | None =>
          _ ← save (mkEntry k (Start (mkConf addr 0 0 0 0 timeout 0 0)) (TlsCfg c) true);
          mret (inl addr)
      | Some cc =>
          _ ← (if ce_started cc then mret tt
               else save (mkEntry (ce_codec cc) (Start (ce_conf cc)) (ce_tls cc) true));
          mret (inl addr)
      end
  end.

(* [net/dogrpc/rpc_client.go:111-154] Connect *)
Definition Connect (idx : nat) : M RpcClient (string + errp) :=
  c ← get; connect_with RpcCodecK (Timeout c) idx.

(** [time.Millisecond * time.Duration(c.Timeout)] *)
(* [net/dogrpc/dog_client.go:25-74] DogConnect *)
Definition DogConnect (idx : nat) : M RpcClient (string + errp) :=
  c ← get; connect_with DogCodecK (i64 (1000000 * Timeout c)) idx.

Definition invoke_result : Type := Z * option (list byte) * option errp.

(** [conn]: the connected client's [CallRetry], or the error of [Connect]. *)
(* [net/dogrpc/rpc_client.go:157-181] Invoke *)
Definition Invoke (conn : (Packet -> outcome call_result) + errp) (cmd : Z) (req : option (list byte))
    : M seqs invoke_result :=
  match conn with
  | inr _ => mret (0, None, Some InternalServerError)
  | inl CallRetry =>
      reqPkt ← NewRpcPacket cmd req;
      match CallRetry (PRpc reqPkt) with
      | Panic e => panic e
      | Ret (_, Some err) => mret (0, None, Some err)
      | Ret (Some (PRpc rsp), None) => mret (r_ErrCode rsp, r_Body rsp, None)
      | Ret (_, None) => panic "interface conversion"
      end
  end.

(** [Marshal]: [json.Marshal] of a request; its error is ignored. *)
(* [net/dogrpc/dog_client.go:77-106] DogInvoke *)
Definition DogInvoke {R} (Marshal : R -> option (list byte))
    (conn : (Packet -> outcome call_result) + errp) (cmd : Z) (req : option R)
    : M seqs invoke_result :=
  match conn with
  | inr _ => mret (0, None, Some InternalServerError)
  | inl CallRetry =>
      reqPkt ← NewDogPacket cmd (req ≫= Marshal);
      match CallRetry (PDog reqPkt) with
      | Panic e => panic e
      | Ret (_, Some err) => mret (0, None, Some err)
      | Ret (Some (PDog rsp), None) => mret (h_ErrCode (d_Header rsp), d_Body rsp, None)
      | Ret (_, None) => panic "interface conversion"
      end
  end.

(** ** The invariant *)

(** What holds of a result in each place it can be. *)
Definition queued_ok (r : AsyncResult) : Prop :=
  is_Some (Request r) /\ Done r = (if skipResponse r then CNil else COpen).
Definition pending_ok (k : Z) (r : AsyncResult) : Prop :=
  (exists p, Request r = Some p /\ ID p = k) /\ Done r = COpen.
Definition pooled_ok (r : AsyncResult) : Prop :=
  Done r = CNil /\ canceled r = false /\ Response r = None /\ ar_Error r = None.
Definition caller_ok (r : AsyncResult) : Prop := Done r ≠ CNil /\ canceled r = false.
Definition any_ok (r : AsyncResult) : Prop :=
  (forall p, Response r = Some p -> exists q, Request r = Some q /\ ID q = ID p) /\
  (canceled r = true -> Done r ≠ CNil) /\
  (forall p, ar_Error r = Some (EShared p) -> p = OverflowError).

Definition errs_ok (e : errs) : Prop :=
  (errCode <$> (e : gmap errp CodeError) !! TimeOutError) = Some 10001 /\
  (errCode <$> (e : gmap errp CodeError) !! OverflowError) = Some 10002 /\
  (errCode <$> (e : gmap errp CodeError) !! InternalServerError) = Some 10003.

(** A result with a role in the state has the matching properties. *)
Definition role_ok (s : CS) (a : aid) (r : AsyncResult) : Prop :=
  (a ∈ requestsChan s -> queued_ok r) /\
  (forall k, pendingRequests s !! k = Some a -> pending_ok k r) /\
  (a ∈ pool s -> pooled_ok r) /\ (a ∈ callers s -> caller_ok r) /\ any_ok r.

(** The result the writer has in its hands.  Once it is filed the writer does not
    own it: nothing is known of it but that it exists. *)
Definition writing (w : wstate) : option aid :=
  match w with
  | WClean m _ | WCheck m | WEncode m => Some m
  | WIdle | WDone _ => None
  end.

Record inv (s : CS) : Prop := {
  i_next : forall a, is_Some (results s !! a) <-> (a < next s)%positive;
  i_role : forall a r, results s !! a = Some r -> role_ok s a r;
  i_queue : forall a, a ∈ requestsChan s -> is_Some (results s !! a);
  i_pend : forall k a, pendingRequests s !! k = Some a -> is_Some (results s !! a) /\ (a ∉ requestsChan s);
  i_pool : forall a, a ∈ pool s -> is_Some (results s !! a) /\ (a ∉ requestsChan s) /\ (a ∉ callers s);
  i_callers : forall a, a ∈ callers s -> is_Some (results s !! a);
  i_nodup : NoDup (requestsChan s) /\ NoDup (pool s);
  i_writer : forall m, writing (writer s) = Some m -> is_Some (results s !! m);
  i_errs : errs_ok (cerrs s)
}.

(** A result in none of the shared structures. *)
Definition detached (s : CS) (a : aid) : Prop :=
  (a ∉ requestsChan s) /\ (forall k, pendingRequests s !! k ≠ Some a) /\ (a ∉ pool s).

Lemma init_inv : inv init.
Proof.
  split; simpl; try done.
  - intros a. rewrite lookup_empty. split; [by intros [? ?]|lia].
  - intros a Ha. by apply elem_of_nil in Ha.
  - intros a Ha. by apply elem_of_nil in Ha.
  - split; constructor.
Qed.

(** Rewriting the record of one result keeps the invariant when its roles allow. *)
Lemma inv_update s a r r' : inv s -> results s !! a = Some r -> role_ok s a r' ->
  inv (set_results (insert a r') s).
Proof.
  intros [] Ha Hr'. assert (forall b, is_Some (<[a := r']> (results s) !! b) <-> is_Some (results s !! b)) as He.
  { intros b. destruct (decide (b = a)) as [->|]; [|by rewrite lookup_insert_ne].
    rewrite lookup_insert_eq, Ha. split; by eexists. }
  split; cbn [results next pool requestsChan pendingRequests callers writer cerrs set_results]; try done.
  - intros b. by rewrite He.
  - intros b rb. destruct (decide (b = a)) as [->|].
    + rewrite lookup_insert_eq. by intros [= <-].
    + rewrite lookup_insert_ne by done. apply i_role0.
  - intros b Hb. rewrite He. eauto.
  - intros k b Hb. rewrite He. eauto.
  - intros b Hb. rewrite He. eauto.
  - intros b Hb. rewrite He. eauto.
  - intros b Hb. rewrite He. eauto.
Qed.

Lemma role_detached s a r : inv s -> results s !! a = Some r -> detached s a ->
  forall r', (a ∈ callers s -> caller_ok r') -> any_ok r' -> role_ok s a r'.
Proof. intros Hi Ha (Hq & Hp & Hl) r' Hc Hany. split_and!; try done. intros k Hk. by destruct (Hp k). Qed.

Lemma load_spec a (P : CS -> Prop) (Q : AsyncResult -> CS -> Prop) :
  (forall s, P s -> exists r, results s !! a = Some r /\ Q r s) -> triple P (load a) Q.
Proof.
  intros H s Hs. destruct (H s Hs) as (r & Hr & HQ). exists r, s.
  unfold load, mbind, M_bind, get. by rewrite Hr.
Qed.

Lemma update_spec a f (P : CS -> Prop) (Q : unit -> CS -> Prop) :
  (forall s, P s -> exists r, results s !! a = Some r /\ Q tt (set_results (insert a (f r)) s)) ->
  triple P (update a f) Q.
Proof.
  intros H s Hs. destruct (H s Hs) as (r & Hr & HQ). exists tt. eexists.
  unfold update, load, mbind, M_bind, get. by rewrite Hr.
Qed.

Lemma close_spec a (P : CS -> Prop) (Q : unit -> CS -> Prop) :
  (forall s, P s -> exists r, results s !! a = Some r /\ Done r = COpen /\
     Q tt (set_results (insert a (mkAR (Response r) (ar_Error r) CClosed (Request r) (canceled r)
                                   (skipResponse r))) s)) ->
  triple P (close_Done a) Q.
Proof.
  intros H s Hs. destruct (H s Hs) as (r & Hr & Hd & HQ). exists tt. eexists.
  unfold close_Done, load, mbind, M_bind, get. rewrite Hr. unfold mret, M_ret. by rewrite Hd.
Qed.

(** Changing the message of a shared error keeps the codes. *)
Lemma SetMsg_errs_ok (e : gmap errp CodeError) p msg : errs_ok e -> is_Some (e !! p) ->
  exists e', SetMsg p msg e = (Ret p, e') /\ errs_ok e'.
Proof.
  intros He [c Hc]. rewrite (SetMsg_eq _ _ _ _ Hc). eexists. split; [done|].
  assert (forall q, (errCode <$> <[p := mkCodeError (errCode c) (errType c) msg]> e !! q) =
    (errCode <$> e !! q)) as Hq.
  { intros q. destruct (decide (p = q)) as [<-|]; [by rewrite lookup_insert_eq, Hc|].
    by rewrite lookup_insert_ne. }
  unfold errs_ok in *. by rewrite !Hq.
Qed.

(** *** Moving a result from one place to another *)

Ltac unfold_set := unfold set_results, set_pool, set_queue, set_pending, set_count, set_written,
  set_callers, set_writer in *; cbn [results next pool requestsChan pendingRequests
  pendingRequestsCount written callers writer cerrs] in *.

Lemma role_mono s s' a r :
  (a ∈ requestsChan s' -> a ∈ requestsChan s) ->
  (forall k, pendingRequests s' !! k = Some a -> pendingRequests s !! k = Some a) ->
  (a ∈ pool s' -> a ∈ pool s) -> (a ∈ callers s' -> a ∈ callers s) ->
  role_ok s a r -> role_ok s' a r.
Proof. intros H1 H2 H3 H4 (R1 & R2 & R3 & R4 & R5). split_and!; eauto. Qed.

Lemma inv_count s f : inv s -> inv (set_count f s).
Proof. intros []. by split. Qed.

Lemma inv_written s f : inv s -> inv (set_written f s).
Proof. intros []. by split. Qed.

(** The writer takes up a result that exists. *)
Lemma inv_set_writer s w : inv s -> (forall m, writing w = Some m -> is_Some (results s !! m)) ->
  inv (set_writer (fun _ => w) s).
Proof. intros [] Hw. by split. Qed.

Lemma inv_pool_pop s a p : inv s -> pool s = a :: p ->
  inv (set_pool (fun _ => p) s) /\ detached (set_pool (fun _ => p) s) a /\ (a ∉ callers s) /\
  exists r, results s !! a = Some r /\ pooled_ok r.
Proof.
  intros Hi Hp. destruct Hi. rewrite Hp in *. destruct (i_pool0 a) as ([r Hr] & Hq & Hc); [by left|].
  destruct i_nodup0 as [Hnq [Ha Hnp]%NoDup_cons].
  assert (pooled_ok r) as Hpo. { apply (i_role0 _ _ Hr). rewrite Hp. by left. }
  split_and!; [|split_and!|done|by exists r]; unfold_set; try done.
  - split; unfold_set; try done.
    + intros b rb Hb. eapply role_mono; [..|by apply i_role0]; try done. rewrite Hp. by right.
    + intros b Hb. apply i_pool0. by right.
  - intros k Hk. destruct (i_role0 _ _ Hr) as (_ & Hpe & _). destruct (Hpe k Hk) as [_ Hd].
    destruct Hpo as [Hd' _]. congruence.
Qed.

Lemma inv_queue_pop s a q : inv s -> requestsChan s = a :: q ->
  inv (set_queue (fun _ => q) s) /\ detached (set_queue (fun _ => q) s) a /\
  exists r, results s !! a = Some r /\ queued_ok r.
Proof.
  intros Hi Hq. destruct Hi. rewrite Hq in *. destruct (i_queue0 a) as [r Hr]; [by left|].
  destruct i_nodup0 as [[Ha Hnq]%NoDup_cons Hnp].
  split_and!; [|split_and!|exists r; split; [done|apply (i_role0 _ _ Hr); rewrite Hq; by left]];
    unfold_set; try done.
  - split; unfold_set; try done.
    + intros b rb Hb. eapply role_mono; [..|by apply i_role0]; try done. cbn. rewrite Hq. by right.
    + intros b Hb. apply i_queue0. by right.
    + intros k b Hb. destruct (i_pend0 k b Hb) as [? [? ?]%not_elem_of_cons]. done.
    + intros b Hb. destruct (i_pool0 b Hb) as (? & [? ?]%not_elem_of_cons & ?). done.
  - intros k Hk. destruct (i_pend0 k a Hk) as [_ Hn]. destruct Hn. by left.
  - intros Hp. destruct (i_pool0 a Hp) as (_ & Hn & _). destruct Hn. by left.
Qed.

Lemma inv_queue_push s a r : inv s -> detached s a -> results s !! a = Some r -> queued_ok r ->
  inv (set_queue (fun q => q ++ [a]) s).
Proof.
  intros [] (Hq & Hp & Hl) Ha Hr. split; unfold_set; try done.
  - intros b rb Hb. pose proof (i_role0 _ _ Hb) as (R1 & R2 & R3 & R4 & R5).
    split_and!; unfold_set; try done. intros [Hbq|Hbq%list_elem_of_singleton]%elem_of_app; [by apply R1|].
    by simplify_eq.
  - intros b [Hbq|Hbq%list_elem_of_singleton]%elem_of_app; [by apply i_queue0|subst b; by eexists].
  - intros k b Hb. destruct (i_pend0 k b Hb) as [? ?]. split; [done|].
    rewrite not_elem_of_app, list_elem_of_singleton. split; [done|]. intros ->. by destruct (Hp k).
  - intros b Hb. destruct (i_pool0 b Hb) as (? & ? & ?). split_and!; try done.
    rewrite not_elem_of_app, list_elem_of_singleton. split; [done|]. by intros ->.
  - destruct i_nodup0. split; [|done]. apply NoDup_app. split_and!; [done| |apply NoDup_singleton].
    intros b Hb Hba%list_elem_of_singleton. by subst b.
Qed.

Lemma inv_pool_push s a r : inv s -> detached s a -> a ∉ callers s -> results s !! a = Some r ->
  pooled_ok r -> inv (set_pool (cons a) s).
Proof.
  intros [] (Hq & Hp & Hl) Hc Ha Hr. split; unfold_set; try done.
  - intros b rb Hb. pose proof (i_role0 _ _ Hb) as (R1 & R2 & R3 & R4 & R5).
    split_and!; unfold_set; try done. intros [Hba|Hbp]%elem_of_cons; [by simplify_eq|by apply R3].
  - intros b [Hba|Hb]%elem_of_cons; [|by apply i_pool0]. subst b. split_and!; [by eexists|done|done].
  - destruct i_nodup0. split; [done|]. by apply NoDup_cons.
Qed.

Lemma inv_pending_insert s k a r : inv s -> detached s a -> results s !! a = Some r ->
  pending_ok k r -> inv (set_pending (insert k a) s).
Proof.
  intros [] (Hq & Hp & Hl) Ha Hr. split; unfold_set; try done.
  - intros b rb Hb. pose proof (i_role0 _ _ Hb) as (R1 & R2 & R3 & R4 & R5).
    split_and!; unfold_set; try done. intros k' Hk. destruct (decide (k' = k)) as [->|].
    + rewrite lookup_insert_eq in Hk. by simplify_eq.
    + rewrite lookup_insert_ne in Hk by done. by apply R2.
  - intros k' b Hk. destruct (decide (k' = k)) as [->|].
    + rewrite lookup_insert_eq in Hk. simplify_eq. split; [by eexists|done].
    + rewrite lookup_insert_ne in Hk by done. by eapply i_pend0.
Qed.

Lemma inv_pending_sub s f : inv s ->
  (forall k a, f (pendingRequests s) !! k = Some a -> pendingRequests s !! k = Some a) ->
  inv (set_pending f s).
Proof.
  intros [] Hf. split; unfold_set; try done.
  - intros b rb Hb. eapply role_mono; [..|by apply i_role0]; try done. intros k. apply Hf.
  - intros k b Hk. by eapply i_pend0, Hf.
Qed.

Lemma delete_sub (m : gmap Z aid) k k' a : delete k m !! k' = Some a -> m !! k' = Some a.
Proof. intros H%lookup_delete_Some. by destruct H. Qed.

Lemma inv_callers_add s a r : inv s -> results s !! a = Some r -> caller_ok r ->
  inv (set_callers (union {[a]}) s).
Proof.
  intros [] Ha Hr. assert (a ∉ pool s) as Hap.
  { intros Hp. destruct (i_role0 _ _ Ha) as (_ & _ & R3 & _). destruct (R3 Hp) as [Hd _].
    by destruct Hr. }
  split; unfold_set; try done.
  - intros b rb Hb. pose proof (i_role0 _ _ Hb) as (R1 & R2 & R3 & R4 & R5).
    split_and!; unfold_set; try done.
    intros [Hba%elem_of_singleton|Hc]%elem_of_union; [by simplify_eq|by apply R4].
  - intros b Hb. destruct (i_pool0 b Hb) as (? & ? & ?). split_and!; try done.
    rewrite elem_of_union, elem_of_singleton. intros [->|?]; done.
  - intros b [Hba%elem_of_singleton|Hc]%elem_of_union; [subst b; by eexists|by apply i_callers0].
Qed.

Lemma inv_callers_remove s a : inv s -> inv (set_callers (fun c => c ∖ {[a]}) s).
Proof.
  intros []. split; unfold_set; try done.
  - intros b rb Hb. eapply role_mono; [..|by apply i_role0]; try done. unfold_set. set_solver.
  - intros b Hb. destruct (i_pool0 b Hb) as (? & ? & ?). split_and!; try done. set_solver.
  - intros b Hb. apply i_callers0. set_solver.
Qed.

Definition blank : AsyncResult := mkAR None None CNil None false false.

Lemma inv_alloc s : inv s ->
  let s' := mkCS (<[next s := blank]> (results s)) (Pos.succ (next s)) (pool s) (requestsChan s)
              (pendingRequests s) (pendingRequestsCount s) (written s) (callers s) (writer s) (cerrs s) in
  inv s' /\ detached s' (next s) /\ (next s ∉ callers s).
Proof.
  intros Hi. assert (results s !! next s = None) as Hn.
  { apply eq_None_not_Some. rewrite (i_next _ Hi). lia. }
  assert (forall a, is_Some (results s !! a) -> a ≠ next s) as Hne by (intros a [? ?] ->; congruence).
  destruct Hi. split_and!; [|split_and!|]; unfold_set; try done.
  - split; unfold_set; try done.
    + intros a. destruct (decide (a = next s)) as [->|].
      * rewrite lookup_insert_eq. split; [lia|by eexists].
      * rewrite lookup_insert_ne, i_next0 by done. lia.
    + intros a r. destruct (decide (a = next s)) as [->|].
      * rewrite lookup_insert_eq. intros [= <-]. split_and!; unfold_set.
        -- intros Hq. by destruct (Hne (next s)); auto.
        -- intros k Hk. destruct (i_pend0 _ _ Hk) as [Hs _]. by destruct (Hne (next s)).
        -- done.
        -- intros Hc. by destruct (Hne (next s)); auto.
        -- by split.
      * rewrite lookup_insert_ne by done. apply i_role0.
    + intros a Ha. rewrite lookup_insert_ne by (symmetry; auto). auto.
    + intros k a Ha. destruct (i_pend0 _ _ Ha) as [? ?]. rewrite lookup_insert_ne by (symmetry; auto). auto.
    + intros a Ha. destruct (i_pool0 _ Ha) as (? & ? & ?). rewrite lookup_insert_ne by (symmetry; auto). auto.
    + intros a Ha. rewrite lookup_insert_ne by (symmetry; auto). auto.
    + intros a Ha. rewrite lookup_insert_ne by (symmetry; auto). auto.
  - intros Hq. by destruct (Hne (next s)); auto.
  - intros k Hk. destruct (i_pend0 _ _ Hk) as [Hs _]. by destruct (Hne (next s)).
  - intros Hq. destruct (i_pool0 _ Hq) as [Hs _]. by destruct (Hne (next s)).
  - intros Hq. by destruct (Hne (next s)); auto.
Qed.

(** *** The operations keep the invariant *)

(** [s'] differs from [s] at most in the result [a] and its place in the pool. *)
Definition same_except (a : aid) (s s' : CS) : Prop :=
  (forall b, b ≠ a -> results s' !! b = results s !! b) /\ requestsChan s' = requestsChan s /\
  pendingRequests s' = pendingRequests s /\ callers s' = callers s /\ cerrs s' = cerrs s /\
  (forall b, b ≠ a -> b ∈ pool s' <-> b ∈ pool s).

(** A result held by one goroutine alone, ready to be queued. *)
Definition ready (s : CS) (m : aid) (skip : bool) : Prop :=
  inv s /\ detached s m /\ (m ∉ callers s) /\
  exists r, results s !! m = Some r /\ queued_ok r /\ canceled r = false /\ skipResponse r = skip /\
    Response r = None.

Lemma ready_frame s s' a m skip : ready s m skip -> same_except a s s' -> inv s' -> a ≠ m ->
  ready s' m skip.
Proof.
  intros (Hi & (Hq & Hp & Hl) & Hc & r & Hr & Hr') (S1 & S2 & S3 & S4 & S5 & S6) Hi' Hne.
  split; [done|]. split_and!; [split_and!| |].
  - by rewrite S2.
  - by rewrite S3.
  - by rewrite S6.
  - by rewrite S4.
  - exists r. by rewrite S1.
Qed.

Lemma same_except_insert a s r : same_except a s (set_results (insert a r) s).
Proof. split_and!; try done. intros b Hb. by apply lookup_insert_ne. Qed.

Lemma same_except_trans a s1 s2 s3 : same_except a s1 s2 -> same_except a s2 s3 -> same_except a s1 s3.
Proof.
  intros (A1 & A2 & A3 & A4 & A5 & A6) (B1 & B2 & B3 & B4 & B5 & B6). split_and!; try congruence.
  - intros b Hb. by rewrite B1, A1.
  - intros b Hb. by rewrite B6, A6.
Qed.

Lemma detached_results s a f : detached s a -> detached (set_results f s) a.
Proof. done. Qed.

(** Rewriting a detached result: any record that keeps the global conditions. *)
Lemma inv_rewrite s a r r' : inv s -> results s !! a = Some r -> detached s a ->
  (a ∈ callers s -> caller_ok r') -> any_ok r' -> inv (set_results (insert a r') s).
Proof. intros. eapply inv_update; [done..|]. by eapply role_detached. Qed.

Lemma release_run s a r : inv s -> results s !! a = Some r -> detached s a -> a ∉ callers s ->
  canceled r = false ->
  exists s', releaseAsyncResult a s = (Ret tt, s') /\ inv s' /\ same_except a s s'.
Proof.
  intros Hi Ha Hd Hc Hcan. set (r' := mkAR None None CNil None (canceled r) (skipResponse r)).
  exists (set_pool (cons a) (set_results (insert a r') s)).
  split; [|split].
  - unfold releaseAsyncResult, update, load, mbind, M_bind, get. by rewrite Ha.
  - apply (inv_pool_push _ _ r'); [|done|done|apply lookup_insert_eq|done].
    eapply inv_rewrite; try done. split; [done|]. unfold r'. cbn. by rewrite Hcan.
  - split_and!; try done.
    + intros b Hb. cbn. by rewrite lookup_insert_ne.
    + intros b Hb. unfold_set. rewrite elem_of_cons. naive_solver.
Qed.

(** [m.Error = e; close(m.Done)] on a detached result whose channel is open. *)
Definition failed (r : AsyncResult) (e : option aerr) : AsyncResult :=
  mkAR (Response r) e CClosed (Request r) (canceled r) (skipResponse r).

Lemma fail_run s a r e : inv s -> results s !! a = Some r -> detached s a -> Done r = COpen ->
  (forall p, e = Some (EShared p) -> p = OverflowError) ->
  exists s', (_ ← set_Error a e; close_Done a) s = (Ret tt, s') /\ inv s' /\ same_except a s s' /\
    results s' !! a = Some (failed r e).
Proof.
  intros Hi Ha Hd Ho He. exists (set_results (insert a (failed r e)) s).
  pose proof (i_role _ Hi _ _ Ha) as (_ & _ & _ & R4 & R5 & R6 & R7).
  split; [|split; [|split; [apply same_except_insert|apply lookup_insert_eq]]].
  - unfold set_Error, close_Done, update, load, mbind, M_bind, get, mret, M_ret, modify. rewrite Ha.
    unfold_set. rewrite lookup_insert_eq. cbn [Done]. rewrite Ho. unfold_set. by rewrite insert_insert_eq.
  - eapply inv_rewrite; [done|done|done| |by split_and!]. intros Hc. destruct (R4 Hc). by split.
Qed.

Lemma acquire_run s : inv s ->
  exists a s', acquireAsyncResult s = (Ret a, s') /\ inv s' /\ detached s' a /\ (a ∉ callers s') /\
    callers s' = callers s /\ cerrs s' = cerrs s /\
    exists r, results s' !! a = Some r /\ pooled_ok r.
Proof.
  intros Hi. unfold acquireAsyncResult. destruct (pool s) as [|a p] eqn:Hp.
  - destruct (inv_alloc s Hi) as (H1 & H2 & H3). rewrite Hp in *. do 2 eexists. split; [done|].
    split_and!; try done. eexists. split; [by apply lookup_insert_eq|done].
  - destruct (inv_pool_pop s a p Hi Hp) as (H1 & H2 & H3 & H4). do 2 eexists. split; [done|].
    by split_and!.
Qed.

Lemma new_run s : inv s ->
  exists a s', new_result s = (Ret a, s') /\ inv s' /\ detached s' a /\ (a ∉ callers s') /\
    callers s' = callers s /\ cerrs s' = cerrs s /\
    exists r, results s' !! a = Some r /\ pooled_ok r.
Proof.
  intros Hi. unfold new_result. destruct (inv_alloc s Hi) as (H1 & H2 & H3). do 2 eexists.
  split; [done|]. split_and!; try done. eexists. split; [by apply lookup_insert_eq|done].
Qed.

Section ops.
Variable conf : ClientConf.

(** Sending a ready result: it is queued, or stays with the caller. *)
Lemma send_run s m skip : ready s m skip ->
  exists b s', try_send conf m s = (Ret b, s') /\ callers s' = callers s /\ cerrs s' = cerrs s /\
    if b : bool then inv s' /\ (m ∉ callers s') /\ exists r, results s' !! m = Some r /\ queued_ok r /\
        canceled r = false /\ skipResponse r = skip
    else s' = s.
Proof.
  intros (Hi & Hd & Hc & r & Hr & Hq & Hcan & Hs & Hresp). unfold try_send.
  destruct (len (requestsChan s) <? PendingRequests conf).
  - do 2 eexists. split; [done|]. split_and!; try done.
    + by eapply inv_queue_push.
    + by exists r.
  - do 2 eexists. split; [done|]. done.
Qed.

(** What [callAsync] gives back. *)
Definition call_post (skip : bool) (s : CS) (res : aid + errp) (s' : CS) : Prop :=
  inv s' /\ callers s' = callers s /\ cerrs s' = cerrs s /\
  match res with
  | inl m => (m ∉ callers s') /\
      exists r, results s' !! m = Some r /\ queued_ok r /\ canceled r = false /\ skipResponse r = skip
  | inr e => e = (if skip then TimeOutError else OverflowError)
  end.

Lemma queued_not_caller s a r : inv s -> results s !! a = Some r -> Done r = CNil ->
  (a ∉ callers s) /\ canceled r = false.
Proof.
  intros Hi Ha Hd. destruct (i_role _ Hi _ _ Ha) as (_ & _ & _ & R4 & _ & R6 & _). split.
  - intros Hc. by destruct (R4 Hc).
  - destruct (canceled r); [|done]. by destruct R6.
Qed.

Lemma evict_run s m skip usePool : ready s m skip ->
  exists s', evict usePool s = (Ret tt, s') /\ ready s' m skip /\ callers s' = callers s /\
    cerrs s' = cerrs s.
Proof.
  intros Hr. destruct Hr as (Hi & (Hdq & Hdp & Hdl) & Hc & Hm). unfold evict, try_recv.
  destruct (requestsChan s) as [|mm q] eqn:Hq.
  { exists s. unfold mbind, M_bind. rewrite Hq. rewrite <- Hq in Hdq. by split_and!. }
  destruct (inv_queue_pop s mm q Hi Hq) as (H1 & H2 & r & Hmm & Hqo).
  assert (mm ≠ m) as Hne by (intros ->; destruct Hdq; by left).
  assert (ready (set_queue (fun _ => q) s) m skip) as Hr1.
  { split_and!; [done|split_and!|..]; unfold_set; try done. intros Hin. destruct Hdq. by right. }
  unfold mbind, M_bind. rewrite Hq. unfold load at 1, mbind, M_bind, get. unfold_set. rewrite Hmm.
  unfold mret, M_ret. destruct (decide (Done r = CNil)) as [Hd|Hd].
  - destruct (queued_not_caller s mm r Hi Hmm Hd) as [Hnc Hcan].
    destruct usePool; [|by exists (set_queue (fun _ => q) s)].
    destruct (release_run _ mm r H1 Hmm H2 Hnc Hcan) as (s' & He & Hi' & Hs).
    exists s'. split_and!; [exact He|by eapply ready_frame|apply Hs..].
  - assert (Done r = COpen) as Ho by (destruct Hqo as [_ Hdn]; rewrite Hdn in *; by destruct (skipResponse r)).
    destruct (fail_run _ mm r (Some (EShared OverflowError)) H1 Hmm H2 Ho) as (s' & He & Hi' & Hs & _);
      [by intros p [= <-]|].
    exists s'. split_and!; [exact He|by eapply ready_frame|apply Hs..].
Qed.

Lemma callAsync_run s req skip usePool : inv s ->
  exists res s', callAsync conf req skip usePool s = (Ret res, s') /\ call_post skip s res s'.
Proof.
  intros Hi. unfold callAsync. set (up := skip || usePool).
  assert (exists a s1, (if up then acquireAsyncResult else new_result) s = (Ret a, s1) /\ inv s1 /\
    detached s1 a /\ (a ∉ callers s1) /\ callers s1 = callers s /\ cerrs s1 = cerrs s /\
    exists r, results s1 !! a = Some r /\ pooled_ok r)
    as (m & s1 & E1 & Hi1 & Hd1 & Hc1 & Hcs & Hes & r & Hr & Hpo)
    by (destruct up; [by apply acquire_run|by apply new_run]).
  destruct Hpo as (Hdn & Hcan & Hresp & Herr).
  set (r' := mkAR (Response r) (ar_Error r) (if skip then Done r else COpen) (Some req) (canceled r) skip).
  set (s2 := set_results (insert m r') s1).
  assert (ready s2 m skip) as Hr2.
  { split_and!; [|done|done|].
    - eapply inv_rewrite; try done. split_and!; cbn; [by rewrite Hresp|by rewrite Hcan|by rewrite Herr].
    - exists r'. split; [apply lookup_insert_eq|]. split_and!; try done.
      cbn. destruct skip; [done|done]. }
  assert (update m (fun r => mkAR (Response r) (ar_Error r) (if skip then Done r else COpen)
    (Some req) (canceled r) skip) s1 = (Ret tt, s2)) as E2.
  { unfold update, load, mbind, M_bind, get. by rewrite Hr. }
  destruct (send_run s2 m skip Hr2) as (b & s3 & E3 & Hc3 & He3 & Hb).
  unfold mbind at 1, M_bind at 1. rewrite E1. unfold mbind at 1, M_bind at 1. rewrite E2.
  unfold mbind at 1, M_bind at 1. rewrite E3. destruct b.
  { destruct Hb as [Hi3 Hm3]. do 2 eexists. split; [done|]. split; [done|split; [by rewrite Hc3|split; [by rewrite He3|exact Hm3]]]. }
  subst s3. destruct skip.
  { destruct Hr2 as (Hi2 & Hd2 & Hc2 & r2 & Hm2 & _ & Hcan2 & _).
    destruct (release_run s2 m r2 Hi2 Hm2 Hd2 Hc2 Hcan2) as (s4 & E4 & Hi4 & Hs4).
    unfold mbind, M_bind. rewrite E4. do 2 eexists. split; [done|].
    destruct Hs4 as (_ & _ & _ & A4 & A5 & _). split_and!; [done|by rewrite A4|by rewrite A5|done]. }
  destruct (evict_run s2 m false up Hr2) as (s4 & E4 & Hr4 & Hc4 & He4).
  destruct (send_run s4 m false Hr4) as (b & s5 & E5 & Hc5 & He5 & Hb5).
  unfold mbind at 1, M_bind at 1. rewrite E4. unfold mbind at 1, M_bind at 1. rewrite E5.
  destruct b.
  { destruct Hb5 as [Hi5 Hm5]. do 2 eexists. split; [done|].
    split; [done|split; [by rewrite Hc5, Hc4|split; [by rewrite He5, He4|exact Hm5]]]. }
  subst s5. destruct Hr4 as (Hi4 & Hd4 & Hn4 & r4 & Hm4 & _ & Hcan4 & _).
  destruct up.
  - destruct (release_run s4 m r4 Hi4 Hm4 Hd4 Hn4 Hcan4) as (s5 & E6 & Hi5 & Hs5).
    unfold mbind, M_bind. rewrite E6. do 2 eexists. split; [done|].
    destruct Hs5 as (_ & _ & _ & A4 & A5 & _).
    split_and!; [done|by rewrite A4, Hc4|by rewrite A5, He4|done].
  - do 2 eexists. split; [done|]. split_and!; [done|by rewrite Hc4|by rewrite He4|done].
Qed.

Lemma fail_eq s a r e : results s !! a = Some r -> Done r = COpen ->
  (_ ← set_Error a e; close_Done a) s = (Ret tt, set_results (insert a (failed r e)) s).
Proof.
  intros Ha Ho.
  unfold set_Error, close_Done, update, load, mbind, M_bind, get, mret, M_ret, modify. rewrite Ha.
  unfold_set. rewrite lookup_insert_eq. cbn [Done]. rewrite Ho. unfold_set. by rewrite insert_insert_eq.
Qed.

Lemma queued_open r : queued_ok r -> Done r ≠ CNil -> Done r = COpen.
Proof. intros [_ Hd] Hn. rewrite Hd in *. by destruct (skipResponse r). Qed.

Lemma pend_detached s k m : inv s -> pendingRequests s !! k = Some m ->
  inv (set_pending (delete k) s) /\ detached (set_pending (delete k) s) m /\
  exists r, results s !! m = Some r /\ pending_ok k r.
Proof.
  intros Hi Hk. destruct (i_pend _ Hi _ _ Hk) as [[r Hr] Hq].
  pose proof (i_role _ Hi _ _ Hr) as (R1 & R2 & R3 & R4 & R5). split; [|split].
  - apply inv_pending_sub; [done|]. intros k' a. apply delete_sub.
  - split_and!; unfold_set; [done| |].
    + intros k' [Hne Hk']%lookup_delete_Some. destruct (R2 _ Hk) as [(p & Hp & Hid) _].
      destruct (R2 _ Hk') as [(p' & Hp' & Hid') _]. congruence.
    + intros Hp. destruct (R3 Hp) as [Hd _]. destruct (R2 _ Hk) as [_ Hd']. congruence.
  - exists r. auto.
Qed.

(** The clean-up deletes at most the entry being written. *)
Lemma clean_run msgID l s : inv s -> Forall (fun ka => is_Some (results s !! ka.2)) l ->
  exists s', clean_loop msgID l s = (Ret tt, s') /\ inv s' /\ results s' = results s /\
    callers s' = callers s /\ cerrs s' = cerrs s.
Proof.
  revert s. induction l as [|[k a] l IH]; intros s Hi Hl; [by exists s|].
  apply Forall_cons in Hl as [[r Hr] Hl]. cbn [snd] in Hr.
  set (s1 := set_count (fun n => u32 (n + (2 ^ 32 - 1))) s).
  set (s2 := if canceled r then set_pending (delete msgID) s1 else s1).
  assert (inv s1) as Hi1 by by apply inv_count.
  assert (inv s2 /\ results s2 = results s /\ callers s2 = callers s /\ cerrs s2 = cerrs s)
    as (Hi2 & H1 & H2 & H3).
  { unfold s2. destruct (canceled r); [|done]. split; [|done].
    apply inv_pending_sub; [done|]. intros k' b. apply delete_sub. }
  destruct (IH s2 Hi2) as (s' & E & Hi' & R1 & R2 & R3); [by rewrite H1|].
  exists s'. split; [|by rewrite R1, R2, R3].
  cbn [clean_loop]. unfold dec_count, load, mbind, M_bind, modify, get. fold s1.
  change (results s1) with (results s). rewrite Hr. unfold mret, M_ret.
  rewrite <- E. unfold s2. by destruct (canceled r).
Qed.

Lemma encode_run m enc_ok s : inv s -> is_Some (results s !! m) ->
  exists s', encode m enc_ok s = (Ret tt, s') /\ inv s' /\ callers s' = callers s /\ cerrs s' = cerrs s.
Proof.
  intros Hi [r Hr]. unfold encode, load, mbind, M_bind, get. rewrite Hr. unfold mret, M_ret.
  destruct (Request r) as [p|]; [destruct enc_ok|]; (eexists; split; [done|]; split; [|done]);
    by apply inv_set_writer; try apply inv_written.
Qed.

Definition frame (s s' : CS) : Prop := inv s' /\ callers s' = callers s /\ cerrs s' = cerrs s.

Lemma file_run s : inv s -> exists s', clientWriter_file conf s = (Ret tt, s') /\ frame s s'.
Proof.
  intros Hi. unfold clientWriter_file, try_recv, mbind at 1, M_bind at 1.
  destruct (requestsChan s) as [|m q] eqn:Hq; [by eexists|].
  destruct (inv_queue_pop s m q Hi Hq) as (H1 & H2 & r & Hm & Hqo).
  set (s1 := set_queue (fun _ => q) s) in *.
  unfold mbind at 1, M_bind at 1, load at 1, mbind at 1, M_bind at 1, get.
  change (results s1) with (results s). rewrite Hm. unfold mret at 1, M_ret at 1.
  destruct (canceled r) eqn:Hcan.
  { destruct (decide (Done r = CNil)) as [Hd|Hd].
    { destruct (queued_not_caller s m r Hi Hm Hd) as [_ ?]. congruence. }
    destruct (fail_run s1 m r (Some (EText "canceled error")) H1 Hm H2) as (s2 & E2 & Hi2 & Hs2 & _);
      [by apply queued_open|by intros p [=]|].
    exists s2. split; [exact E2|]. by split_and!; [done|apply Hs2..]. }
  destruct Hqo as [[p Hp] Hd]. destruct (skipResponse r) eqn:Hsk.
  { eexists. split; [done|]. split_and!; [|done|done]. apply inv_set_writer; [done|].
    intros b [= <-]. by exists r. }
  rewrite Hp. unfold mbind, M_bind, gets, modify.
  set (s2 := set_pending (insert (ID p) m) s1). set (s3 := set_count (fun k => u32 (k + 1)) s2).
  assert (inv s3) as Hi3.
  { apply inv_count. eapply inv_pending_insert; [done|done|exact Hm|]. split; [by exists p|done]. }
  eexists. split; [done|]. split_and!; [|done|done]. apply inv_set_writer; [done|].
  intros b Hb. assert (b = m) as -> by (destruct (3 * _ <? _); by injection Hb). by exists r.
Qed.

Lemma clientWriter_run enc_ok s : inv s ->
  exists s', clientWriter_step conf enc_ok s = (Ret tt, s') /\ frame s s'.
Proof.
  intros Hi. pose proof (i_writer _ Hi) as Hw. unfold clientWriter_step, mbind at 1, M_bind at 1, get.
  destruct (writer s) as [|m msgID|m|m|err]; cbn [writing] in Hw.
  - by apply file_run.
  - destruct (clean_run msgID (map_to_list (pendingRequests s)) s Hi) as (s1 & E1 & Hi1 & Hr1 & Hc1 & He1).
    { apply Forall_forall. intros [k a] Hin%elem_of_map_to_list. by apply (i_pend _ Hi k a). }
    unfold mbind, M_bind. rewrite E1. eexists. split; [done|]. split_and!; [|done|done].
    apply inv_set_writer; [done|]. intros b [= <-]. rewrite Hr1. auto.
  - eexists. split; [done|]. split_and!; [|done|done]. apply inv_set_writer; [done|].
    intros b. destruct (3 * _ <? _); [done|]. intros [= <-]. auto.
  - destruct (encode_run m enc_ok s Hi) as (s1 & E1 & H1); [auto|]. by exists s1.
  - by exists s.
Qed.

(** The record a response leaves behind. *)
Definition answered (r : AsyncResult) (packet : Packet) : AsyncResult :=
  mkAR (Some packet) (ar_Error r) CClosed (Request r) (canceled r) (skipResponse r).

Lemma clientReader_run packet s : inv s ->
  exists s', clientReader_turn packet s = (Ret tt, s') /\ frame s s' /\
    match pendingRequests s !! ID packet with
    | None => s' = s
    | Some m => exists r, results s !! m = Some r /\
        results s' = <[m := answered r packet]> (results s) /\
        pendingRequests s' = delete (ID packet) (pendingRequests s)
    end.
Proof.
  intros Hi. unfold clientReader_turn, mbind at 1, M_bind at 1, gets.
  destruct (pendingRequests s !! ID packet) as [m|] eqn:Hm; [|by exists s].
  destruct (pend_detached s _ m Hi Hm) as (H1 & H2 & r & Hr & Hpo).
  set (s1 := set_pending (delete (ID packet)) s) in *.
  set (s2 := set_count (fun n => u32 (n + (2 ^ 32 - 1))) s1).
  exists (set_results (insert m (answered r packet)) s2).
  assert (inv s2) as Hi2 by by apply inv_count.
  pose proof (i_role _ Hi _ _ Hr) as (_ & _ & _ & R4 & R5 & R6 & R7).
  destruct Hpo as [(p & Hp & Hid) Hd]. split; [|split].
  - unfold update, dec_count, close_Done, load, mbind, M_bind, modify, get, mret, M_ret.
    fold s1. fold s2. change (results s2) with (results s). rewrite Hr. unfold_set.
    rewrite lookup_insert_eq. cbn [Done]. rewrite Hd. unfold_set. by rewrite insert_insert_eq.
  - split_and!; try done. eapply inv_rewrite; [done|exact Hr|done| |].
    + intros Hc. destruct (R4 Hc). by split.
    + split_and!; try done. intros q [= <-]. exists p. split; [done|congruence].
  - by exists r.
Qed.

Lemma drain_run err l s :
  inv (set_pending (fun _ => ∅) s) -> NoDup l.*2 ->
  Forall (fun ka => exists r, results s !! ka.2 = Some r /\ Done r = COpen /\ (ka.2 ∉ requestsChan s) /\
     (ka.2 ∉ pool s)) l ->
  exists s', drain_loop err l s = (Ret tt, s') /\ inv (set_pending (fun _ => ∅) s') /\
    callers s' = callers s /\ cerrs s' = cerrs s.
Proof.
  revert s. induction l as [|[k m] l IH]; intros s Hi Hnd Hl; [by exists s|].
  apply Forall_cons in Hl as [(r & Hr & Hd & Hq & Hp) Hl]. cbn [fmap list_fmap snd] in *.
  apply NoDup_cons in Hnd as [Hm Hnd].
  set (s1 := set_count (fun n => u32 (n + (2 ^ 32 - 1))) s).
  set (s2 := set_results (insert m (failed r (EText <$> err))) s1).
  assert (inv (set_pending (fun _ => ∅) s2)) as Hi2.
  { pose proof (i_role _ Hi _ _ Hr) as (_ & _ & _ & R4 & R5 & R6 & R7).
    change (inv (set_results (insert m (failed r (EText <$> err)))
      (set_count (fun n => u32 (n + (2 ^ 32 - 1))) (set_pending (fun _ => ∅) s)))).
    eapply inv_rewrite; [by apply inv_count|exact Hr| | |].
    - split_and!; unfold_set; try done.
    - intros Hc. destruct (R4 Hc). by split.
    - split_and!; try done. intros p. by destruct err. }
  destruct (IH s2 Hi2 Hnd) as (s' & E & Hi' & Hc' & He').
  { eapply Forall_impl; [apply Forall_and; split; [exact Hl|]|].
    - apply Forall_forall. intros x Hx. exact (list_elem_of_fmap_2 snd _ _ Hx).
    - intros [k' a] [(ra & Hra & Hrest) Hin]. cbn [snd] in *. exists ra. split; [|done].
      unfold s2. unfold_set. rewrite lookup_insert_ne; [done|]. by intros <-. }
  exists s'. split; [|by split_and!]. cbn [drain_loop]. rewrite <- E.
  unfold dec_count, set_Error, update, close_Done, load, mbind, M_bind, modify, get, mret, M_ret.
  fold s1. change (results s1) with (results s). rewrite Hr. unfold_set. rewrite lookup_insert_eq.
  cbn [Done]. rewrite Hd. destruct (decide (COpen = CNil)); [done|].
  unfold_set. rewrite lookup_insert_eq. cbn [Done]. unfold_set. rewrite insert_insert_eq.
  unfold s2, s1, failed. unfold_set. done.
Qed.

Lemma end_run err s : inv s ->
  exists s', clientHandleConnection_end err s = (Ret tt, s') /\ frame s s'.
Proof.
  intros Hi. unfold clientHandleConnection_end, mbind at 1, M_bind at 1, gets.
  destruct (drain_run err (map_to_list (pendingRequests s)) s) as (s' & E & Hi' & Hc & He).
  - by apply inv_pending_sub.
  - apply NoDup_fmap_2_strong; [|apply NoDup_map_to_list].
    intros [k a] [k' a'] Hin%elem_of_map_to_list Hin'%elem_of_map_to_list Heq. cbn in *. subst a'.
    destruct (i_pend _ Hi _ _ Hin) as [[r Hr] _]. pose proof (i_role _ Hi _ _ Hr) as (_ & R2 & _).
    destruct (R2 _ Hin) as [(p & Hp & <-) _], (R2 _ Hin') as [(p' & Hp' & <-) _].
    f_equal. congruence.
  - apply Forall_forall. intros [k a] Hin%elem_of_map_to_list. cbn [snd].
    destruct (i_pend _ Hi _ _ Hin) as [[r Hr] Hq]. pose proof (i_role _ Hi _ _ Hr) as (_ & R2 & R3 & _).
    exists r. destruct (R2 _ Hin) as [_ Hd]. split_and!; try done.
    intros Hp. destruct (R3 Hp) as [Hd' _]. congruence.
  - exists (set_writer (fun _ => WIdle) (set_pending (fun _ => ∅) s')). unfold mbind, M_bind. rewrite E.
    split; [done|]. split_and!; [by apply inv_set_writer|done|done].
Qed.

(** *** The caller's side *)

(** What a finished call hands to its caller. *)
Definition result_ok (r : AsyncResult) (res : call_result) : Prop :=
  match ar_Error r with
  | None => res = (Response r, None)
  | Some _ => res = (Response r, Some InternalServerError)
  end.

Lemma with_errs_inv s e : inv s -> errs_ok e ->
  inv (mkCS (results s) (next s) (pool s) (requestsChan s) (pendingRequests s)
        (pendingRequestsCount s) (written s) (callers s) (writer s) e).
Proof. intros [] He. by split. Qed.

Lemma on_Done_run m s r : inv s -> results s !! m = Some r -> Done r = CClosed -> m ∉ callers s ->
  canceled r = false ->
  exists res s', on_Done m s = (Ret res, s') /\ inv s' /\ callers s' = callers s /\ result_ok r res.
Proof.
  intros Hi Hr Hd Hc Hcan. pose proof (i_role _ Hi _ _ Hr) as (R1 & R2 & R3 & _ & _ & _ & R7).
  assert (detached s m) as Hdet.
  { split_and!.
    - intros Hq. destruct (R1 Hq) as [_ Hd']. rewrite Hd in Hd'. by destruct (skipResponse r).
    - intros k Hk. destruct (R2 _ Hk) as [_ Hd']. congruence.
    - intros Hp. destruct (R3 Hp) as [Hd' _]. congruence. }
  unfold on_Done, load at 1, mbind at 1, M_bind at 1, mbind at 1, M_bind at 1, get. rewrite Hr.
  unfold mret at 1, M_ret at 1. unfold result_ok.
  destruct (ar_Error r) as [e|].
  - assert (exists msg, aerr_text e s = (Ret msg, s)) as [msg Hmsg].
    { destruct e as [p|t]; [|by exists t]. rewrite (R7 p) by done. destruct (i_errs _ Hi) as (_ & He & _).
      unfold aerr_text, mbind, M_bind, get.
      destruct (cerrs s !! OverflowError) as [ce|]; [by eexists|done]. }
    assert (is_Some (cerrs s !! InternalServerError)) as Hint.
    { destruct (i_errs _ Hi) as (_ & _ & He). destruct (cerrs s !! InternalServerError); [by eexists|done]. }
    destruct (SetMsg_errs_ok (cerrs s) InternalServerError msg (i_errs _ Hi) Hint) as (e' & He' & Hok).
    destruct (release_run _ m r (with_errs_inv s e' Hi Hok) Hr Hdet Hc Hcan) as (s' & E & Hi' & Hs).
    exists (Response r, Some InternalServerError), s'. split_and!; [|done|apply Hs|done].
    unfold mbind, M_bind. rewrite Hmsg. unfold on_errs. rewrite He'. unfold mret, M_ret. by rewrite E.
  - destruct (release_run s m r Hi Hr Hdet Hc Hcan) as (s' & E & Hi' & Hs).
    exists (Response r, None), s'. split_and!; [|done|apply Hs|done].
    unfold mbind, M_bind, mret, M_ret. by rewrite E.
Qed.

Lemma on_timeout_run m s r : inv s -> results s !! m = Some r -> Done r ≠ CNil -> m ∉ callers s ->
  m ∉ pool s ->
  exists s', on_timeout conf m s = (Ret (None, Some TimeOutError), s') /\ inv s' /\ callers s' = callers s.
Proof.
  intros Hi Hr Hd Hc Hp. pose proof (i_role _ Hi _ _ Hr) as (R1 & R2 & R3 & R4 & R5 & R6 & R7).
  set (r' := mkAR (Response r) (ar_Error r) (Done r) (Request r) true (skipResponse r)).
  assert (inv (set_results (insert m r') s)) as Hi1.
  { eapply inv_update; [done|done|]. split_and!; try done. }
  set (msg := "[" +:+ c_Addr conf +:+ "]. Cannot obtain response during timeout").
  destruct (SetMsg_errs_ok (cerrs s) TimeOutError msg (i_errs _ Hi)) as (e' & He' & Hok).
  { destruct (i_errs _ Hi) as (He & _). destruct (cerrs s !! TimeOutError); [by eexists|done]. }
  eexists. split; [|split; [exact (with_errs_inv _ e' Hi1 Hok)|done]].
  unfold on_timeout, Cancel, update, load, mbind, M_bind, get. rewrite Hr.
  unfold mret, M_ret, modify, on_errs. unfold_set. fold msg. by rewrite He'.
Qed.

(** ** Interleavings

    A label is one action of one goroutine: a caller entering [CallTimeout],
    [CallAsync] or [SendUDP], a piece of the writer's turn, a packet read by the
    reader, the end of the connection, a waiting caller seeing [Done] closed or its
    timer fire.  A label that is not enabled changes nothing. *)

Inductive label : Type :=
| LCall (req : Packet) | LAsync (req : Packet) (skip : bool)
| LWrite (enc_ok : bool) | LRead (p : Packet) | LEnd (err : option string)
| LTake (m : aid) | LTimer (m : aid).

(** What an action shows: a returning call with its request and results. *)
Inductive event : Type :=
| EvNone | EvReturn (req : option Packet) (res : call_result).

Definition act (l : label) : M CS event :=
  match l with
  | LCall req =>
      res ← callAsync conf req false true;
      match res with
      | inl m => _ ← modify (set_callers (union {[m]})); mret EvNone
      | inr e => mret (EvReturn (Some req) (None, Some e))
      end
  | LAsync req skip => _ ← callAsync conf req skip false; mret EvNone
  | LWrite enc_ok => _ ← clientWriter_step conf enc_ok; mret EvNone
  | LRead p => _ ← clientReader_turn p; mret EvNone
  | LEnd err =>
      s ← get;
      match writing (writer s) with
      | Some _ => mret EvNone
      | None => _ ← clientHandleConnection_end err; mret EvNone
      end
  | LTake m =>
      s ← get;
      if decide (m ∈ callers s) then
        r ← load m;
        if decide (Done r = CClosed) then
          _ ← modify (set_callers (fun c => c ∖ {[m]}));
          res ← on_Done m; mret (EvReturn (Request r) res)
        else mret EvNone
      else mret EvNone
  | LTimer m =>
      s ← get;
      if decide (m ∈ callers s) then
        r ← load m;
        _ ← modify (set_callers (fun c => c ∖ {[m]}));
        res ← on_timeout conf m; mret (EvReturn (Request r) res)
      else mret EvNone
  end.

Fixpoint run_labels (ls : list label) : M CS (list event) :=
  match ls with
  | [] => mret []
  | l :: ls' => e ← act l; es ← run_labels ls'; mret (e :: es)
  end.

(** A returned response is for the request of the call, and comes without an
    error unless the error is one of the package's. *)
Definition event_ok (e : event) : Prop :=
  match e with
  | EvNone => True
  | EvReturn req (rsp, err) =>
      (forall p, rsp = Some p -> exists q, req = Some q /\ ID q = ID p) /\
      (forall e, err = Some e -> e ∈ [TimeOutError; OverflowError; InternalServerError])
  end.

Lemma act_ok l s : inv s -> exists e s', act l s = (Ret e, s') /\ inv s' /\ event_ok e.
Proof.
  intros Hi. destruct l as [req|req skip|enc_ok|p|err|m|m]; cbn [act]; unfold mbind at 1, M_bind at 1.
  - destruct (callAsync_run s req false true Hi) as (res & s1 & E & H1 & H2 & H3 & H4).
    rewrite E. destruct res as [m|e].
    + destruct H4 as (_ & r & Hr & [_ Hd] & Hcan & Hs). do 2 eexists. split; [done|]. split; [|done].
      eapply inv_callers_add; [done|exact Hr|]. rewrite Hs in Hd. by split; [rewrite Hd|].
    + do 2 eexists. split; [done|]. split; [done|]. subst e. split; [done|].
      intros e [= <-]. right. by left.
  - destruct (callAsync_run s req skip false Hi) as (res & s1 & E & H1 & _).
    rewrite E. by do 2 eexists.
  - destruct (clientWriter_run enc_ok s Hi) as (s1 & E & H1 & _). rewrite E. by do 2 eexists.
  - destruct (clientReader_run p s Hi) as (s1 & E & [H1 _] & _). rewrite E. by do 2 eexists.
  - unfold get. destruct (writing (writer s)); [by do 2 eexists|].
    destruct (end_run err s Hi) as (s1 & E & [H1 _]).
    unfold mbind, M_bind. rewrite E. by do 2 eexists.
  - unfold get. destruct (decide (m ∈ callers s)) as [Hm|]; [|by do 2 eexists].
    destruct (i_callers _ Hi m Hm) as [r Hr].
    unfold load at 1, mbind at 1, M_bind at 1, mbind at 1, M_bind at 1, get. rewrite Hr.
    unfold mret at 1, M_ret at 1.
    destruct (decide (Done r = CClosed)) as [Hd|]; [|by do 2 eexists].
    pose proof (i_role _ Hi _ _ Hr) as (_ & _ & _ & R4 & R5 & _). destruct (R4 Hm) as [_ Hcan].
    destruct (on_Done_run m (set_callers (fun c => c ∖ {[m]}) s) r (inv_callers_remove s m Hi) Hr Hd)
      as (res & s1 & E & Hi1 & _ & Hres); [unfold_set; set_solver|done|].
    unfold mbind at 1, M_bind at 1, modify at 1. unfold mbind at 1, M_bind at 1. rewrite E.
    do 2 eexists. split; [done|]. split; [done|].
    unfold result_ok in Hres. destruct (ar_Error r); subst res; (split; [done|]); [|done].
    intros e0 [= <-]. right. right. by left.
  - unfold get. destruct (decide (m ∈ callers s)) as [Hm|]; [|by do 2 eexists].
    destruct (i_callers _ Hi m Hm) as [r Hr].
    unfold load at 1, mbind at 1, M_bind at 1, mbind at 1, M_bind at 1, get. rewrite Hr.
    unfold mret at 1, M_ret at 1.
    pose proof (i_role _ Hi _ _ Hr) as (_ & _ & R3 & R4 & R5 & _). destruct (R4 Hm) as [Hd _].
    destruct (on_timeout_run m (set_callers (fun c => c ∖ {[m]}) s) r (inv_callers_remove s m Hi) Hr Hd)
      as (s1 & E & Hi1 & _); [unfold_set; set_solver| |].
    { intros Hp. destruct (R3 Hp) as [Hd' _]. done. }
    unfold mbind at 1, M_bind at 1, modify at 1. unfold mbind at 1, M_bind at 1. rewrite E.
    do 2 eexists. split; [done|]. split; [done|]. split; [done|]. intros e [= <-]. by left.
Qed.

Lemma run_labels_ok ls s : inv s ->
  exists es s', run_labels ls s = (Ret es, s') /\ inv s' /\ Forall event_ok es.
Proof.
  revert s. induction ls as [|l ls IH]; intros s Hi; [by exists [], s|].
  destruct (act_ok l s Hi) as (e & s1 & E1 & Hi1 & He).
  destruct (IH s1 Hi1) as (es & s2 & E2 & Hi2 & Hes).
  exists (e :: es), s2. split; [|split; [done|by constructor]].
  cbn [run_labels]. unfold mbind, M_bind. rewrite E1. unfold mbind, M_bind in E2. by rewrite E2.
Qed.
End ops.

(** ** Properties *)

(** C2 In every interleaving of callers, timeouts, cancelled and evicted requests,
    writer and reader turns and connection losses, no goroutine of the client
    panics (no [Done] channel is closed twice or while nil), and every call that returns a response returns one with the
    identifier of its own request; every error returned is one of the package's.
    The writer's turn is cut where it holds no lock: after a request is filed, after
    the clean-up, and before it is encoded. *)
Theorem client_calls_match conf ls :
  exists es s', run_labels conf ls init = (Ret es, s') /\
    Forall (fun e => match e with
      | EvNone => True
      | EvReturn req (rsp, err) =>
          (forall p, rsp = Some p -> exists q, req = Some q /\ ID q = ID p) /\
          (forall e, err = Some e -> e ∈ [TimeOutError; OverflowError; InternalServerError])
      end) es.
Proof.
  destruct (run_labels_ok conf ls init init_inv) as (es & s & E & _ & Hes). exists es, s. done.
Qed.

(** A response is handed to the pending request with its identifier: that
    request's channel is closed with the response in place and the entry is
    removed, nothing else changes; a response nobody waits for is dropped. *)
Theorem reader_delivers conf ls s packet :
  (exists es, run_labels conf ls init = (Ret es, s)) ->
  exists s', clientReader_turn packet s = (Ret tt, s') /\
    match pendingRequests s !! ID packet with
    | None => s' = s
    | Some m => exists r, results s !! m = Some r /\ Done r = COpen /\
        (exists req, Request r = Some req /\ ID req = ID packet) /\
        results s' = <[m := answered r packet]> (results s) /\
        pendingRequests s' = delete (ID packet) (pendingRequests s)
    end.
Proof.
  intros [es Hrun]. destruct (run_labels_ok conf ls init init_inv) as (es' & s1 & E & Hi & _).
  rewrite Hrun in E. simplify_eq.
  destruct (clientReader_run packet s1 Hi) as (s' & E & _ & Hd). exists s'. split; [done|].
  destruct (pendingRequests s1 !! ID packet) as [m|] eqn:Hm; [|done].
  destruct Hd as (r & Hr & Hrest). exists r. split; [done|].
  destruct (i_role _ Hi _ _ Hr) as (_ & R2 & _). destruct (R2 _ Hm) as [Hp Hd].
  exact (conj Hd (conj Hp Hrest)).
Qed.

(** A concrete client and its runs. *)
Definition demo_conf : ClientConf := Start (mkConf "srv:1" 0 0 1 0 0 0 0).
Definition demo_req (i : Z) : Packet := PRpc (NewRpcPacketWithSeq 9 (Some []) i).
Definition demo_rsp (i : Z) : Packet := PRpc (NewRpcPacketWithRet 9 (Some [x6f; x6b]) i 0).

Lemma reader_delivers_witness :
  let s := exec (run_labels demo_conf [LCall (demo_req 5); LWrite true]) init in
  exists s', clientReader_turn (demo_rsp 5) s = (Ret tt, s') /\
    match pendingRequests s !! ID (demo_rsp 5) with
    | None => s' = s
    | Some m => exists r, results s !! m = Some r /\ Done r = COpen /\
        (exists req, Request r = Some req /\ ID req = ID (demo_rsp 5)) /\
        results s' = <[m := answered r (demo_rsp 5)]> (results s) /\
        pendingRequests s' = delete (ID (demo_rsp 5)) (pendingRequests s)
    end.
Proof.
  apply (reader_delivers demo_conf [LCall (demo_req 5); LWrite true]).
  exists [EvNone; EvNone]. vm_compute. reflexivity.
Defined.

Example demo_call :
  (fun r => match r with Ret l => l | _ => [] end) (outcome_of (run_labels demo_conf
    [LCall (demo_req 5); LWrite true; LWrite true; LRead (demo_rsp 5); LTake 1%positive]) init) =
  [EvNone; EvNone; EvNone; EvNone; EvReturn (Some (demo_req 5)) (Some (demo_rsp 5), None)].
Proof. vm_compute. reflexivity. Qed.

(** The writer encodes [m.Request] after it has released the lock, and by then the
    result may have been given back: when an attempt is made again under its old
    identifier, the late response to the first attempt lets the caller of the second
    recycle its result before the writer encodes it.  The encoder then gets a nil
    request and the connection ends in an error; or, if another call has taken the
    result up, that call's request is sent, and sent again at its own turn. *)
Definition recycled_ls : list label :=
  [LCall (demo_req 1); LWrite true; LWrite true; LTimer 1%positive; LCall (demo_req 1);
   LWrite true; LRead (demo_rsp 1); LTake 2%positive].

Theorem writer_encodes_recycled :
  writer (exec (run_labels demo_conf (recycled_ls ++ [LWrite true])) init) = WDone "encode error" /\
  written (exec (run_labels demo_conf
    (recycled_ls ++ [LCall (demo_req 5); LWrite true; LWrite true; LWrite true])) init) =
    [demo_req 1; demo_req 5; demo_req 5].
Proof. split; vm_compute; reflexivity. Qed.

(** *** The retry loop *)

Section retry.
Variable conf : ClientConf.
Variable wait : nat -> aid -> M CS bool.

(** While a caller waits the others keep the invariant and leave its result to
    it; the [Done] branch is taken only when the channel is closed. *)
Definition wait_ok : Prop := forall i m s r,
  inv s -> results s !! m = Some r -> caller_ok r -> m ∉ callers s ->
  exists b s' r', wait i m s = (Ret b, s') /\ inv s' /\ (m ∉ callers s') /\
    results s' !! m = Some r' /\ caller_ok r' /\ (b = false -> Done r' = CClosed).

Lemma err_Code_run p s c : (errCode <$> (cerrs s !! p)) = Some c -> err_Code p s = (Ret c, s).
Proof.
  intros H. unfold err_Code, mbind, M_bind, get.
  destruct (cerrs s !! p) as [ce|]; [|done]. injection H as <-. done.
Qed.

Lemma attempt_run i m s r : wait_ok -> inv s -> results s !! m = Some r -> caller_ok r -> m ∉ callers s ->
  exists res s', (fired ← wait i m; (if fired : bool then on_timeout conf m else on_Done m)) s = (Ret res, s') /\
    inv s' /\ (forall e, res.2 = Some e -> e = TimeOutError \/ e = InternalServerError).
Proof.
  intros Hw Hi Hr Hco Hc. destruct (Hw i m s r Hi Hr Hco Hc) as (b & s1 & r1 & E1 & Hi1 & Hc1 & Hr1 & Hco1 & Hb).
  destruct Hco1 as [Hd1 Hcan1]. unfold mbind, M_bind. rewrite E1. destruct b.
  - destruct (on_timeout_run conf m s1 r1 Hi1 Hr1 Hd1 Hc1) as (s2 & E2 & Hi2 & _).
    { intros Hp. destruct (i_role _ Hi1 _ _ Hr1) as (_ & _ & R3 & _). by destruct (R3 Hp) as [? _]. }
    do 2 eexists. split; [exact E2|]. split; [done|]. intros e [= <-]. by left.
  - destruct (on_Done_run m s1 r1 Hi1 Hr1 (Hb eq_refl) Hc1 Hcan1) as (res & s2 & E2 & Hi2 & _ & Hres).
    do 2 eexists. split; [exact E2|]. split; [done|]. intros e He. right.
    unfold result_ok in Hres. destruct (ar_Error r1); subst res; [by injection He as <-|done].
Qed.

Lemma errs_code s : inv s -> err_Code TimeOutError s = (Ret 10001, s) /\
  err_Code InternalServerError s = (Ret 10003, s).
Proof. intros Hi. destruct (i_errs _ Hi) as (H1 & _ & H3). split; by apply err_Code_run. Qed.

Lemma CallTimeout_run fuel i req retryNum tryNum s :
  wait_ok -> inv s -> 0 <= tryNum <= retryNum -> retryNum < 2 ^ 32 - 1 ->
  (Z.to_nat (retryNum - tryNum) < fuel)%nat ->
  exists res s', CallTimeout conf wait fuel i req retryNum tryNum s = (Ret (Some res), s') /\ inv s'.
Proof.
  intros Hw. revert i tryNum s. induction fuel as [|fuel IH]; intros i tryNum s Hi Ht Hr Hf; [lia|].
  cbn [CallTimeout]. unfold mbind at 1, M_bind at 1.
  destruct (callAsync_run conf s req false true Hi) as (m & s1 & E1 & Hi1 & Hc1 & He1 & Hm).
  rewrite E1. destruct m as [m|e]; [|by do 2 eexists].
  destruct Hm as (Hmc & r & Hr1 & [_ Hd] & Hcan & Hs). rewrite Hs in Hd.
  destruct (attempt_run i m s1 r Hw Hi1 Hr1) as (res & s2 & E2 & Hi2 & Hres);
    [by split; [rewrite Hd|]|done|].
  unfold mbind, M_bind in E2. unfold mbind at 1, M_bind at 1.
  destruct (wait i m s1) as [[fired|e] s1']; [|done].
  unfold mbind at 1, M_bind at 1. rewrite E2.
  destruct res as [rsp [e|]]; [|by do 2 eexists]. cbn [snd] in *.
  destruct (errs_code s2 Hi2) as [Ht2 Hi2'].
  assert (exists c, err_Code e s2 = (Ret c, s2)) as [c Hc]
    by (destruct (Hres e eq_refl) as [-> | ->]; by eexists).
  unfold mbind at 1, M_bind at 1. rewrite Hc. unfold mbind at 1, M_bind at 1. rewrite Ht2.
  destruct (c =? 10001); [|by do 2 eexists].
  rewrite (wrapU_small 32 (tryNum + 1)) by (unfold isU; lia).
  destruct (Z.leb_spec (tryNum + 1) retryNum); [|by do 2 eexists].
  apply IH; [done|lia|done|lia].
Qed.
End retry.

(** [CallTimeout] with a retry bound below [2^32 - 1] returns: whatever the
    other goroutines do while it waits, at most [retryNum + 1] attempts are made. *)
Theorem CallTimeout_returns conf wait req retryNum ls :
  wait_ok wait -> 0 <= retryNum < 2 ^ 32 - 1 ->
  exists es s0 res s', run_labels conf ls init = (Ret es, s0) /\
    CallTimeout conf wait (S (Z.to_nat retryNum)) 0 req retryNum 0 s0 = (Ret (Some res), s').
Proof.
  intros Hw Hr. destruct (run_labels_ok conf ls init init_inv) as (es & s0 & E & Hi & _).
  destruct (CallTimeout_run conf wait (S (Z.to_nat retryNum)) 0 req retryNum 0 s0 Hw Hi)
    as (res & s' & E' & _); [lia|lia|lia|]. by exists es, s0, res, s'.
Qed.

Lemma CallTimeout_returns_witness :
  exists es s0 res s', run_labels demo_conf [LCall (demo_req 1)] init = (Ret es, s0) /\
    CallTimeout demo_conf (fun _ _ => mret true) 3 0 (demo_req 2) 2 0 s0 = (Ret (Some res), s').
Proof.
  apply (CallTimeout_returns demo_conf (fun _ _ => mret true) (demo_req 2) 2 [LCall (demo_req 1)]); [|lia].
  intros i m s r Hi Hr Hc Hm. exists true, s, r. split_and!; try done; apply Hc.
Defined.

(** Stopping the client while a call is in flight ends the call with neither a
    response nor an error, and [Invoke] then panics on the nil response. *)
Theorem stop_in_flight_panics :
  let req := demo_req 1 in
  outcome_of (run_labels demo_conf [LCall req; LWrite true; LWrite true; LEnd None; LTake 1%positive]) init =
    Ret [EvNone; EvNone; EvNone; EvNone; EvReturn (Some req) (None, None)] /\
  outcome_of (Invoke (inl (fun _ => Ret (None, None))) 9 (Some [])) (mkSeqs 0 0) =
    Panic "interface conversion".
Proof. split; vm_compute; reflexivity. Qed.

(** Time-outs share one error object: after a second client's call times out,
    the error the first caller holds reads like the second's. *)
Theorem timeout_errors_shared confA confB a b s1 s2 s3 e1 e2 :
  cerrs s1 !! TimeOutError = Some e1 ->
  on_timeout confA a s1 = (Ret (None, Some e2), s2) ->
  outcome_of (on_timeout confB b) s2 = Ret (None, Some TimeOutError) -> exec (on_timeout confB b) s2 = s3 ->
  e2 = TimeOutError /\
  (errMsg <$> cerrs s2 !! e2) = Some ("[" +:+ c_Addr confA +:+ "]. Cannot obtain response during timeout") /\
  (errMsg <$> cerrs s3 !! e2) = Some ("[" +:+ c_Addr confB +:+ "]. Cannot obtain response during timeout").
Proof.
  assert (forall conf m s r s', on_timeout conf m s = (Ret r, s') -> is_Some (cerrs s !! TimeOutError) ->
    r = (None, Some TimeOutError) /\
    (errMsg <$> cerrs s' !! TimeOutError) =
      Some ("[" +:+ c_Addr conf +:+ "]. Cannot obtain response during timeout")) as H.
  { intros conf m s r s' Ht [e He]. unfold on_timeout, Cancel, update, load, mbind, M_bind, get in Ht.
    destruct (results s !! m); [|done]. unfold mret, M_ret, modify, on_errs in Ht. unfold_set.
    rewrite (SetMsg_eq _ _ e) in Ht by done. injection Ht as <- <-. split; [done|].
    unfold_set. by rewrite lookup_insert_eq. }
  intros H1 Ht1 Ht2 Ht3. destruct (H _ _ _ _ _ Ht1) as [[= ->] Hm1]; [by eexists|].
  split; [done|]. split; [done|].
  assert (on_timeout confB b s2 = (Ret (None, Some TimeOutError), s3)) as Ht
    by (unfold outcome_of, exec in *; destruct (on_timeout confB b s2); simpl in *; congruence).
  apply (H _ _ _ _ _ Ht). destruct (cerrs s2 !! TimeOutError); [by eexists|done].
Qed.

Definition confB : ClientConf := Start (mkConf "srv:2" 0 0 1 0 0 0 0).
Definition two_calls : CS := exec (run_labels demo_conf [LCall (demo_req 1); LCall (demo_req 2)]) init.

Lemma timeout_errors_shared_witness :
  exists s2 s3, on_timeout demo_conf 1%positive two_calls = (Ret (None, Some TimeOutError), s2) /\
  TimeOutError = TimeOutError /\
  (errMsg <$> cerrs s2 !! TimeOutError) = Some "[srv:1]. Cannot obtain response during timeout" /\
  (errMsg <$> cerrs s3 !! TimeOutError) = Some "[srv:2]. Cannot obtain response during timeout".
Proof.
  exists (exec (on_timeout demo_conf 1%positive) two_calls),
    (exec (on_timeout confB 2%positive) (exec (on_timeout demo_conf 1%positive) two_calls)).
  split; [vm_compute; reflexivity|].
  apply (timeout_errors_shared demo_conf confB 1%positive 2%positive two_calls _ _
    (SetCodeType 10001 "timeout error.")); vm_compute; reflexivity.
Defined.

(** *** The clean-up of the pending requests *)

Lemma clean_pending msgID l s r s' : clean_loop msgID l s = (Ret r, s') ->
  results s' = results s /\
  (pendingRequests s' = pendingRequests s \/ pendingRequests s' = delete msgID (pendingRequests s)).
Proof.
  revert s. induction l as [|[k a] l IH]; intros s; [intros [= <- <-]; auto|].
  cbn [clean_loop]. unfold dec_count, load, mbind, M_bind, modify, get. unfold_set.
  destruct (results s !! a) as [ra|]; [|done]. unfold mret, M_ret.
  destruct (canceled ra); intros H; destruct (IH _ H) as [H1 H2]; unfold_set; (split; [done|]).
  - destruct H2 as [->| ->]; right; [done|apply delete_delete_eq].
  - destruct H2 as [->| ->]; auto.
Qed.

Lemma clean_written msgID l s r s' : clean_loop msgID l s = (Ret r, s') -> written s' = written s.
Proof.
  revert s. induction l as [|[k a] l IH]; intros s; [by intros [= <- <-]|].
  cbn [clean_loop]. unfold dec_count, load, mbind, M_bind, modify, get. unfold_set.
  destruct (results s !! a) as [ra|]; [|done]. unfold mret, M_ret.
  destruct (canceled ra); intros H; by rewrite (IH _ H).
Qed.

(** The writer's turn when no other goroutine comes in between. *)
Definition clientWriter_turn (conf : ClientConf) : M CS unit :=
  _ ← clientWriter_step conf true; _ ← clientWriter_step conf true; clientWriter_step conf true.

(** The clean-up of cancelled requests never frees anything: when the writer
    finds more than [3 * PendingRequests] entries and takes a new request, it gives
    the whole connection up, even if every entry belongs to a cancelled call (the
    loop only ever deletes the entry just added). *)
Theorem cleanup_never_helps conf s m q r p :
  inv s -> writer s = WIdle -> requestsChan s = m :: q -> results s !! m = Some r -> Request r = Some p ->
  canceled r = false -> skipResponse r = false -> pendingRequests s !! ID p = None ->
  3 * PendingRequests conf < Z.of_nat (size (pendingRequests s)) ->
  exists s', clientWriter_turn conf s = (Ret tt, s') /\
    writer s' = WDone "too many pending requests" /\ written s' = written s.
Proof.
  intros Hi Hw Hq Hr Hp Hcan Hsk Hid Hn.
  destruct (file_run conf s Hi) as (s2 & E2 & Hi2 & _).
  assert (s2 = set_writer (fun _ => WClean m (ID p)) (set_count (fun k => u32 (k + 1))
    (set_pending (insert (ID p) m) (set_queue (fun _ => q) s)))) as Hs2.
  { unfold clientWriter_file, try_recv, load, mbind, M_bind, get, gets, modify in E2. rewrite Hq in E2.
    unfold_set. rewrite Hr in E2. unfold mret, M_ret in E2. rewrite Hcan, Hsk, Hp in E2.
    rewrite (proj2 (Z.ltb_lt _ _)) in E2 by done. by injection E2. }
  unfold clientWriter_turn, clientWriter_step, mbind, M_bind, get, modify, writer_at. rewrite Hw, E2.
  assert (writer s2 = WClean m (ID p)) as -> by by rewrite Hs2.
  destruct (clean_run (ID p) (map_to_list (pendingRequests s2)) s2 Hi2) as (s3 & E3 & _).
  { apply Forall_forall. intros [k a] Hin%elem_of_map_to_list. by apply (i_pend _ Hi2 k a). }
  rewrite E3. cbn [writer set_writer]. destruct (clean_pending _ _ _ _ _ E3) as [_ Hpend].
  assert (Z.of_nat (size (pendingRequests s)) <= Z.of_nat (size (pendingRequests s3))) as Hsz.
  { assert (pendingRequests s2 = <[ID p := m]> (pendingRequests s)) as H2 by by rewrite Hs2.
    rewrite H2 in Hpend. destruct Hpend as [-> | ->].
    - rewrite map_size_insert_None by done. lia.
    - by rewrite delete_insert_id. }
  unfold modify, mret, M_ret. unfold_set. rewrite (proj2 (Z.ltb_lt _ _)) by lia. eexists. split; [done|]. split; [done|].
  cbn [written]. rewrite (clean_written _ _ _ _ _ E3). by rewrite Hs2.
Qed.

Definition tiny_conf : ClientConf := mkConf "srv:1" 1 0 1 (-1) 1 1 1.
Definition crowded_ls : list label :=
  [LCall (demo_req 1); LWrite true; LWrite true; LCall (demo_req 2); LWrite true; LWrite true;
   LCall (demo_req 3); LWrite true; LWrite true; LCall (demo_req 4); LWrite true; LWrite true;
   LTimer 1%positive; LTimer 2%positive; LTimer 3%positive; LTimer 4%positive; LCall (demo_req 5)].
Definition crowded : CS := exec (run_labels tiny_conf crowded_ls) init.

Lemma cleanup_never_helps_witness :
  exists s', clientWriter_turn tiny_conf crowded = (Ret tt, s') /\
    writer s' = WDone "too many pending requests" /\
    written s' = [demo_req 1; demo_req 2; demo_req 3; demo_req 4].
Proof.
  destruct (run_labels_ok tiny_conf crowded_ls init init_inv) as (es & s & E & Hi & _).
  assert (crowded = s) as Hs by (unfold crowded, exec; by rewrite E).
  rewrite <- Hs in Hi.
  apply (cleanup_never_helps tiny_conf crowded 5%positive []
    (mkAR None None COpen (Some (demo_req 5)) false false) (demo_req 5) Hi);
    try (vm_compute; reflexivity).
Defined.

(** *** Connecting *)

(** One table serves both protocols, keyed by address alone: after [DogConnect]
    to an address, [Connect] to it hands out the connection that speaks the other
    protocol, with the other protocol's time-out. *)
Theorem codec_mixed_up (c : RpcClient) idx addr :
  addrs c !! idx = Some addr -> Cm c !! addr = None ->
  exists c1 e, DogConnect idx c = (Ret (inl addr), c1) /\ Connect idx c1 = (Ret (inl addr), c1) /\
    Cm c1 !! addr = Some e /\ ce_codec e = DogCodecK /\
    RequestTimeout (ce_conf e) = RpcServer.dflt (i64 (1000000 * Timeout c)) RpcServer.DefaultRequestTimeout.
Proof.
  intros Ha Hc.
  set (e := mkEntry DogCodecK (Start (mkConf addr 0 0 0 0 (i64 (1000000 * Timeout c)) 0 0)) (TlsCfg c) true).
  set (c1 := mkRpcClient (<[addr := e]> (Cm c)) (addrs c) (Timeout c) (RetryNum c) (TlsCfg c)
    (RpcCaPemFile c) (RpcClientKeyFile c) (RpcClientPemFile c)).
  assert (Cm c1 !! addr = Some e) as He by apply lookup_insert_eq.
  exists c1, e. split_and!; try done.
  - unfold DogConnect, connect_with, mbind, M_bind, get. rewrite Ha, Hc. done.
  - unfold Connect, connect_with, mbind, M_bind, get. change (addrs c1) with (addrs c). rewrite Ha.
    by rewrite He.
Qed.

Definition demo_table : RpcClient :=
  mkRpcClient ∅ ["10.0.0.1:10241"] 500000000 0 false EmptyString EmptyString EmptyString.

Lemma codec_mixed_up_witness :
  exists c1 e, DogConnect 0 demo_table = (Ret (inl "10.0.0.1:10241"), c1) /\
    Connect 0 c1 = (Ret (inl "10.0.0.1:10241"), c1) /\
    Cm c1 !! "10.0.0.1:10241" = Some e /\ ce_codec e = DogCodecK /\
    RequestTimeout (ce_conf e) = RpcServer.dflt (i64 (1000000 * 500000000)) RpcServer.DefaultRequestTimeout.
Proof. by apply (codec_mixed_up demo_table). Defined.

(** The time-out of a dog connection is the configured duration taken as a
    number of milliseconds: as long as it does not overflow it is a million times
    too long (500ms become 500000s). *)
Theorem dog_timeout_scaled (c : RpcClient) idx addr :
  addrs c !! idx = Some addr -> Cm c !! addr = None -> 0 < Timeout c ->
  1000000 * Timeout c <= maxInt64 ->
  exists c1 e, DogConnect idx c = (Ret (inl addr), c1) /\ Cm c1 !! addr = Some e /\
    RequestTimeout (ce_conf e) = 1000000 * Timeout c.
Proof.
  intros Ha Hc Ht Hle. destruct (codec_mixed_up c idx addr Ha Hc) as (c1 & e & E & _ & He & _ & Hto).
  exists c1, e. split; [done|]. split; [done|]. rewrite Hto.
  rewrite i64_small by (unfold isI64, minInt64; lia).
  unfold RpcServer.dflt. by rewrite (proj2 (Z.leb_gt _ _)) by lia.
Qed.

Lemma dog_timeout_scaled_witness :
  exists c1 e, DogConnect 0 demo_table = (Ret (inl "10.0.0.1:10241"), c1) /\
    Cm c1 !! "10.0.0.1:10241" = Some e /\ RequestTimeout (ce_conf e) = 1000000 * 500000000.
Proof. by apply (dog_timeout_scaled demo_table). Defined.

End RpcClient.
