(* ===== verification/ClientStop.v ===== *)
(** * Stopping a client ([net/dogrpc/client.go]: Stop and clientHandler)

    [Stop] is called by the user and, deferred, by every connection handler when it
    exits.  The calls serialise on [stopLock]; each closes [clientStopChan], waits
    for the handlers and sets the channel to nil. *)

From S2P Require Import Prelude RpcServer RpcClient.
From stdpp Require Import list.

Module ClientStop.

(** Where a goroutine stands.  A handler runs, leaves its loop and signals the
    wait group; then it is in [Stop] like any other caller. *)
Inductive pc : Type :=
| Running         (* in the loop of [clientHandler] *)
| Leaving         (* about to call [stopWg.Done] *)
| Locking         (* in [Stop], before [stopLock.Lock] *)
| Closing         (* holds the lock, before [close(c.clientStopChan)] *)
| Waiting         (* in [stopWg.Wait] *)
| Clearing        (* before [c.clientStopChan = nil] *)
| Ended.

#[export] Instance pc_eq_dec : EqDecision pc.
Proof. solve_decision. Defined.

Record State : Type := mkState {
  clientStopChan : RpcClient.chan; stopLock : option nat; stopWg : nat;
  threads : list pc; crashed : bool
}.

Definition moves (s : State) (i : nat) (to : pc) : list pc := <[i := to]> (threads s).

(** The logged message of a nil channel does not return: the close follows. *)
(* [net/dogrpc/client.go:91-161] Stop, clientHandler *)
Inductive step : State -> nat -> State -> Prop :=
| leave_loop s i : crashed s = false -> threads s !! i = Some Running ->
    step s i (mkState (clientStopChan s) (stopLock s) (stopWg s) (moves s i Leaving) false)
| wg_done s i n : crashed s = false -> threads s !! i = Some Leaving -> stopWg s = S n ->
    step s i (mkState (clientStopChan s) (stopLock s) n (moves s i Locking) false)
| lock s i : crashed s = false -> threads s !! i = Some Locking -> stopLock s = None ->
    step s i (mkState (clientStopChan s) (Some i) (stopWg s) (moves s i Closing) false)
| close_open s i : crashed s = false -> threads s !! i = Some Closing ->
    clientStopChan s = RpcClient.COpen ->
    step s i (mkState RpcClient.CClosed (stopLock s) (stopWg s) (moves s i Waiting) false)
| close_other s i : crashed s = false -> threads s !! i = Some Closing ->
    clientStopChan s ≠ RpcClient.COpen ->
    step s i (mkState (clientStopChan s) (stopLock s) (stopWg s) (threads s) true)
| wg_wait s i : crashed s = false -> threads s !! i = Some Waiting -> stopWg s = 0%nat ->
    step s i (mkState (clientStopChan s) (stopLock s) 0 (moves s i Clearing) false)
| clear s i : crashed s = false -> threads s !! i = Some Clearing ->
    step s i (mkState RpcClient.CNil None (stopWg s) (moves s i Ended) false).

(** A started client with [n] connections, and a user goroutine in [Stop] when
    [user] holds. *)
Definition started (n : nat) (user : bool) : State :=
  mkState RpcClient.COpen None n (replicate n Running ++ (if user then [Locking] else [])) false.

(** ** Counting goroutines *)

Definition passed (p : pc) : nat := match p with Waiting | Clearing | Ended => 1 | _ => 0 end.
Definition counted (p : pc) : nat := match p with Running | Leaving => 1 | _ => 0 end.
Definition holding (p : pc) : nat := match p with Closing | Waiting | Clearing => 1 | _ => 0 end.
Definition weight (p : pc) : nat :=
  match p with
  | Running => 6 | Leaving => 5 | Locking => 4 | Closing => 3 | Waiting => 2 | Clearing => 1 | Ended => 0
  end.

Definition total (f : pc -> nat) (l : list pc) : nat := sum_list_with f l.

Lemma total_insert f l i p q : l !! i = Some p -> (total f (<[i := q]> l) + f p = total f l + f q)%nat.
Proof. apply sum_insert. Qed.

Lemma total_pos f l i p : l !! i = Some p -> (f p <= total f l)%nat.
Proof. apply sum_pos. Qed.

Lemma total_some f l : total f l ≠ 0%nat -> exists i p, l !! i = Some p /\ f p ≠ 0%nat.
Proof. apply sum_some. Qed.

Lemma total_app f l k : total f (l ++ k) = (total f l + total f k)%nat.
Proof. apply sum_list_with_app. Qed.

Lemma total_replicate f n p : total f (replicate n p) = (n * f p)%nat.
Proof. apply sum_replicate. Qed.

(** At most one goroutine has got past the close, and then the channel is not open;
    the lock has one holder; the wait group counts the handlers in their loops. *)
Definition inv (n : nat) (s : State) : Prop :=
  length (threads s) = n /\ stopWg s = total counted (threads s) /\
  total passed (threads s) = (if decide (clientStopChan s = RpcClient.COpen) then 0 else 1)%nat /\
  total holding (threads s) = (match stopLock s with Some _ => 1 | None => 0 end)%nat /\
  (forall i, stopLock s = Some i -> exists p, threads s !! i = Some p /\ holding p = 1%nat).

Lemma started_inv n (u : bool) : inv (n + (if u then 1 else 0))%nat (started n u).
Proof.
  unfold inv, started. cbn [threads clientStopChan stopLock stopWg].
  rewrite length_app, length_replicate, !total_app, !total_replicate.
  rewrite decide_True by done. destruct u; cbn; split_and!; try done; try lia.
Qed.

Lemma stop_inv_step n s i s' : inv n s -> step s i s' -> inv n s'.
Proof.
  intros (Hl & Hw & Hp & Hh & Hi) Hs.
  destruct Hs as [s i _ H|s i k _ H Hk|s i _ H Hn|s i _ H Ho|s i _ H Hn|s i _ H Hz|s i _ H];
    unfold inv, moves; cbn [threads clientStopChan stopLock stopWg]; rewrite ?length_insert.
  5: { by split_and!. }
  all: match goal with |- context [<[?j := ?q]> _] => match goal with H : threads ?st !! j = Some _ |- _ =>
    pose proof (total_insert counted (threads st) j _ q H) as Tc;
    pose proof (total_insert passed (threads st) j _ q H) as Tp;
    pose proof (total_insert holding (threads st) j _ q H) as Th;
    pose proof (total_pos counted (threads st) j _ H) as Pc;
    pose proof (total_pos passed (threads st) j _ H) as Pp;
    pose proof (total_pos holding (threads st) j _ H) as Ph;
    cbn in Tc, Tp, Th, Pc, Pp, Ph end end.
  all: split_and!; try lia.
  all: try (rewrite Hn in Hh; lia).
  all: try (rewrite decide_False by done; rewrite ?Ho, ?decide_True in Hp by done; lia).
  all: try (destruct (stopLock s); lia).
  all: try (intros j [= <-]; eexists; split; [apply list_lookup_insert_eq; by eapply lookup_lt_Some|done]).
  all: try done.
  all: try (rewrite decide_False by done; destruct (decide (clientStopChan s = RpcClient.COpen)); lia).
  all: try (intros j Hj; destruct (Hi j Hj) as (p & Hjp & Hp1);
    destruct (decide (j = i)) as [->|Hne];
      [first [simplify_eq; done | eexists; split; [apply list_lookup_insert_eq; by eapply lookup_lt_Some|done]]
      |exists p; by rewrite list_lookup_insert_ne]).
Qed.

(** Every step brings some goroutine closer to its end, or is the crash. *)
Definition measure (s : State) : nat :=
  (total weight (threads s) + if crashed s then 0 else 1)%nat.

Lemma stop_step_measure s i s' : step s i s' -> (measure s' < measure s)%nat.
Proof.
  intros Hs. unfold measure.
  destruct Hs as [s i Hc H|s i k Hc H Hk|s i Hc H Hn|s i Hc H Ho|s i Hc H Hn|s i Hc H Hz|s i Hc H];
    rewrite Hc; unfold moves; cbn [threads crashed]; [..|lia| |].
  all: match goal with |- context [<[?j := ?q]> _] => match goal with H : threads ?st !! j = Some _ |- _ =>
    pose proof (total_insert weight (threads st) j _ q H) as Tw; cbn in Tw end end.
  all: lia.
Qed.

(** Unless it has crashed or everybody has ended, something can move. *)
Lemma stop_progress n s : inv n s -> crashed s = false -> total weight (threads s) ≠ 0%nat ->
  exists i s', step s i s'.
Proof.
  intros (Hl & Hw & Hp & Hh & Hi) Hc Ht.
  assert (forall i p, threads s !! i = Some p -> counted p ≠ 0%nat -> exists s', step s i s') as Hcount.
  { intros i p Hip Hcp. destruct p; try done.
    - eexists. by apply leave_loop.
    - pose proof (total_pos counted _ _ _ Hip) as Hle. cbn in Hle.
      destruct (stopWg s) as [|k] eqn:Ek; [lia|]. eexists. by eapply wg_done. }
  destruct (decide (stopWg s = 0%nat)) as [Hz|Hz].
  2: { destruct (total_some counted (threads s)) as (i & p & Hip & Hcp); [lia|].
       destruct (Hcount i p Hip Hcp) as [s' Hs]. by exists i, s'. }
  destruct (stopLock s) as [i|] eqn:Hlock.
  - destruct (Hi i eq_refl) as (p & Hip & Hhp). exists i. destruct p; try done.
    + destruct (decide (clientStopChan s = RpcClient.COpen)).
      * eexists. by apply close_open.
      * eexists. by apply close_other.
    + eexists. by apply wg_wait.
    + eexists. by apply clear.
  - destruct (total_some _ _ Ht) as (i & p & Hip & Hwp).
    destruct p; try done.
    all: try (destruct (Hcount i _ Hip) as [s' Hs]; [done|by exists i, s']).
    + exists i. eexists. by apply lock.
    + pose proof (total_pos holding _ _ _ Hip). cbn in *. lia.
    + pose proof (total_pos holding _ _ _ Hip). cbn in *. lia.
    + pose proof (total_pos holding _ _ _ Hip). cbn in *. lia.
Qed.

(** A crash needs a second goroutine: one that has closed the channel before. *)
Definition closing_or_passed (p : pc) : nat :=
  match p with Closing | Waiting | Clearing | Ended => 1 | _ => 0 end.
Definition closing (p : pc) : nat := match p with Closing => 1 | _ => 0 end.

Lemma total_one l : (total closing l + total passed l <= length l)%nat.
Proof. induction l as [|p l IH]; simpl; [lia|]. destruct p; simpl in *; lia. Qed.

Definition crash_ok (s : State) : Prop := crashed s = true -> (2 <= length (threads s))%nat.

Lemma crash_ok_step n s i s' : inv n s -> crash_ok s -> step s i s' -> crash_ok s'.
Proof.
  intros (Hl & Hw & Hp & Hh & Hi) Hc Hs. unfold crash_ok, moves in *.
  destruct Hs as [| | | |s i Hcr H Hn| |]; cbn [crashed threads]; try done.
  intros _. rewrite decide_False in Hp by done.
  pose proof (total_one (threads s)). pose proof (total_pos closing _ _ _ H). cbn in *. lia.
Qed.

Lemma stop_reachable n (u : bool) ls s : steps step (started n u) ls s ->
  inv (n + (if u then 1 else 0)) s /\ crash_ok s.
Proof.
  apply (steps_invariant step (fun s => inv (n + (if u then 1 else 0)) s /\ crash_ok s)).
  - intros a l b [Hi Hc] Hs. split; [by eapply stop_inv_step|by eapply crash_ok_step].
  - split; [apply started_inv|done].
Qed.

Lemma weight_zero p : weight p = 0%nat -> p = Ended.
Proof. by destruct p. Qed.

Lemma all_ended l : total weight l = 0%nat -> total passed l = length l.
Proof.
  induction l as [|p l IH]; [done|]. simpl. intros H.
  assert (p = Ended) as -> by (apply weight_zero; lia). simpl. rewrite IH; lia.
Qed.

(** C24 Stopping a client kills the process: with [n] connections and the user in
    [Stop] when [u] holds, every run is finite, and when nothing can move any more
    the process has died of a second [close] exactly if two or more goroutines
    went through [Stop].  So a user's [Stop] always crashes a client that has a
    connection, and a client with two connections crashes by itself when its dials
    fail; only the lone handler of a client nobody stops ends quietly. *)
Theorem stop_crashes n (u : bool) ls s :
  steps step (started n u) ls s ->
  (length ls <= 6 * n + 5)%nat /\
  ((forall i s', ~ step s i s') ->
    (crashed s = true <-> (2 <= n + (if u then 1 else 0))%nat)).
Proof.
  intros Hs. split.
  - pose proof (steps_bound step (fun _ => True) measure _ _ _
      (fun a l b _ H => conj I (stop_step_measure a l b H)) I Hs) as Hm.
    unfold measure at 2, started in Hm. cbn [threads crashed] in Hm.
    rewrite total_app, total_replicate in Hm. destruct u; simpl in Hm; lia.
  - intros Hmax. destruct (stop_reachable _ _ _ _ Hs) as [Hi Hc]. split.
    + intros Hcr. specialize (Hc Hcr). destruct Hi as (Hl & _). lia.
    + intros Hn. destruct (crashed s) eqn:Ecr; [done|]. exfalso.
      destruct (decide (total weight (threads s) = 0%nat)) as [Hz|Hz].
      * pose proof (all_ended _ Hz) as Ha. destruct Hi as (Hl & _ & Hp & _).
        destruct (decide (clientStopChan s = RpcClient.COpen)); lia.
      * destruct (stop_progress _ _ Hi Ecr Hz) as (i & s' & Hst). by destruct (Hmax i s').
Qed.

(** The user stops a client with one connection. *)
Definition crash_state : State :=
  mkState RpcClient.CNil (Some 0%nat) 0 [Closing; Ended] true.

Lemma stop_crashes_witness :
  steps step (started 1 true) [1; 1; 0; 0; 1; 1; 0; 0]%nat crash_state /\
  (8 <= 6 * 1 + 5)%nat /\
  ((forall i s', ~ step crash_state i s') -> (crashed crash_state = true <-> (2 <= 1 + 1)%nat)).
Proof.
  assert (steps step (started 1 true) [1; 1; 0; 0; 1; 1; 0; 0]%nat crash_state) as Hrun.
  { econstructor; [by eapply lock|]. econstructor; [by eapply close_open|].
    econstructor; [by eapply leave_loop|]. econstructor; [by eapply wg_done|].
    econstructor; [by eapply wg_wait|]. econstructor; [by eapply clear|].
    econstructor; [by eapply lock|]. econstructor; [by eapply close_other|].
    apply steps_nil. }
  split; [exact Hrun|]. apply (stop_crashes 1 true _ _ Hrun).
Defined.

End ClientStop.
