(* ===== verification/ClientDial.v ===== *)
(** * The dial loop of a connection ([net/dogrpc/client.go]: clientHandler)

    A handler dials, serves the connection until it ends, and dials again.  What
    happens to it is a list of turns; what it does about them is a list of events.
    How it ends with the others of its client is in [ClientStop]. *)

From S2P Require Import Prelude.

Module ClientDial.

Section dial.
Context {Conn : Type}.

(** A turn of the loop: the stop channel is seen while the dial is under way, which
    gives its result later; the dial fails, and the stop may be seen in the pause
    after it; the dial succeeds, and the stop may be seen when the connection has
    ended. *)
Inductive turn : Type :=
| StopDialling (r : option Conn) | Failed (stop : bool) | Connected (c : Conn) (stop : bool).

(** [Lost]: a connection that nobody serves and nobody closes. *)
Inductive event : Type := CannotDial | Serve (c : Conn) | Lost (c : Conn).
Inductive end_ : Type := ByStop | GaveUp.

(** The events, and how the handler has ended after how many turns, if it has.
    [dialRetryTime] is what is left of the retries. *)
(* [net/dogrpc/client.go:102-161] clientHandler *)
Fixpoint clientHandler (DialRetryTime dialRetryTime : Z) (l : list turn) : list event * option (end_ * nat) :=
  let next evs r := (evs ++ r.1, (fun e => (e.1, S e.2)) <$> r.2) in
  match l with
  | [] => ([], None)
  | StopDialling r :: _ => (match r with Some c => [Lost c] | None => [] end, Some (ByStop, 1%nat))
  | Failed stop :: l =>
      if 0 <? dialRetryTime then
        if stop then ([CannotDial], Some (ByStop, 1%nat))
        else next [CannotDial] (clientHandler DialRetryTime (dialRetryTime - 1) l)
      else ([CannotDial], Some (GaveUp, 1%nat))
  | Connected c stop :: l =>
      if stop then ([Serve c], Some (ByStop, 1%nat))
      else next [Serve c] (clientHandler DialRetryTime DialRetryTime l)
  end.

(** The tries of one round: the first and the retries. *)
Definition tries (DialRetryTime : Z) : nat := S (Z.to_nat DialRetryTime).

(** [n] dials that fail one after the other, with no stop. *)
Definition fails (n : nat) : list turn := replicate n (Failed false).

Lemma fails_run D n left l : (n <= Z.to_nat left)%nat ->
  clientHandler D left (fails n ++ l) =
    let r := clientHandler D (left - Z.of_nat n) l in
    (replicate n CannotDial ++ r.1, (fun e => (e.1, (n + e.2)%nat)) <$> r.2).
Proof.
  revert left. induction n as [|n IH]; intros left Hn.
  - cbn. rewrite Z.sub_0_r. destruct (clientHandler D left l) as [evs [[e k]|]]; done.
  - cbn [fails replicate app clientHandler]. destruct (Z.ltb_spec 0 left); [|lia]. fold (fails n).
    rewrite IH by lia. cbn. replace (left - 1 - Z.of_nat n) with (left - Z.of_nat (S n)) by lia.
    by destruct (clientHandler D (left - Z.of_nat (S n)) l) as [evs [[e k]|]].
Qed.

(** A handler that nobody stops gives up after the configured number of retries and
    not before: as long as fewer dials than a round has fail one after the other it
    goes on, a connection gives it a new round, and the last failure of a round ends
    it.  Every connection that was made is served, in order. *)
Theorem handler_gives_up D (rounds : list (nat * Conn)) k l :
  Forall (fun r => (r.1 < tries D)%nat) rounds -> (k <= tries D)%nat ->
  let script := concat (map (fun r => fails r.1 ++ [Connected r.2 false]) rounds) in
  let evs := concat (map (fun r => replicate r.1 CannotDial ++ [Serve r.2]) rounds) in
  clientHandler D D (script ++ fails k ++ (if decide (k = tries D) then l else [])) =
    (evs ++ replicate k CannotDial, if decide (k = tries D) then Some (GaveUp, length script + k)%nat else None).
Proof.
  intros Hr Hk. cbv zeta. induction Hr as [|[n c] rounds Hn _ IH]; cbn [map concat].
  - cbn [app length]. unfold tries in *. destruct (decide (k = S (Z.to_nat D))) as [->|Hne].
    + replace (S (Z.to_nat D)) with (Z.to_nat D + 1)%nat by lia. unfold fails. rewrite replicate_add, <- app_assoc.
      change (replicate (Z.to_nat D) (Failed false)) with (fails (Z.to_nat D)). rewrite fails_run by lia. cbn [replicate app].
      cbn [clientHandler]. destruct (Z.ltb_spec 0 (D - Z.of_nat (Z.to_nat D))); [lia|]. cbn. by rewrite replicate_add.
    + rewrite fails_run by lia. cbn. by rewrite !app_nil_r.
  - cbn [fst snd] in *. unfold tries in Hn. rewrite <- !app_assoc, fails_run by lia. cbn [app clientHandler].
    rewrite IH. cbn. rewrite <- ?app_assoc. cbn. f_equal. destruct (decide (k = tries D)); [|done]. cbn. f_equal. f_equal.
    unfold fails. rewrite !length_app, length_replicate. cbn. lia.
Qed.

(** A connection that is made while the handler is being stopped is never closed. *)
Lemma stop_loses_dialled D left c l : clientHandler D left (StopDialling (Some c) :: l) = ([Lost c], Some (ByStop, 1%nat)).
Proof. done. Qed.
End dial.

(** Two failures, a connection, three failures, with two retries. *)
Lemma handler_gives_up_witness : let script := [Failed false; Failed false; Connected 7%nat false; Failed false; Failed false; Failed false] in
  clientHandler 2 2 script = ([CannotDial; CannotDial; Serve 7%nat; CannotDial; CannotDial; CannotDial], Some (GaveUp, 6%nat)).
Proof. exact (handler_gives_up 2 [(2%nat, 7%nat)] 3 [] ltac:(constructor; [unfold tries; cbn; lia|constructor]) ltac:(unfold tries; lia)). Defined.

End ClientDial.
