(* ===== verification/ClientTimer.v ===== *)
(** * The timers of calls ([net/dogrpc/client.go]: acquireTimer, releaseTimer)

    Timers are recycled through a pool that all calls share.  A timer has its
    deadline while it is active, and a channel with room for one tick.  The run-time
    system fires it in two moves: first the timer stops being active, then the tick
    is sent, and dropped when the channel is full.  Other goroutines may run between
    the two. *)

From S2P Require Import Prelude.

Module ClientTimer.

(** [sending]: the ticks of the timer that are about to be sent. *)
Record Timer : Type := mkTimer { deadline : option Z; sending : nat; tick : bool }.

(** [Reset] and [Stop] say whether the timer was active; neither touches the channel
    or a tick under way. *)
Definition Reset (d : Z) (t : Timer) : bool * Timer :=
  (bool_decide (is_Some (deadline t)), mkTimer (Some d) (sending t) (tick t)).
Definition Stop (t : Timer) : bool * Timer :=
  (bool_decide (is_Some (deadline t)), mkTimer None (sending t) (tick t)).

(** The timers by address, those in the pool, those that calls use, the time, and how
    often the active timer was logged. *)
Record State : Type := mkState { timers : gmap nat Timer; pool : list nat; used : list nat; time : Z; bugs : nat }.

Definition with_timer (i : nat) (t : Timer) (s : State) : State :=
  mkState (<[i := t]> (timers s)) (pool s) (used s) (time s) (bugs s).

(** [got] is what the pool gives: one of its timers, or nothing, whatever it holds. *)
(* [net/dogrpc/client.go:476-487] acquireTimer *)
Definition acquireTimer (timeout : Z) (got : option nat) (s : State) : option (nat * State) :=
  match got with
  | None =>
      let i := fresh (dom (timers s)) in
      Some (i, mkState (<[i := mkTimer (Some (time s + timeout)) 0 false]> (timers s)) (pool s) (i :: used s) (time s) (bugs s))
  | Some i =>
      if decide (i ∈ pool s) then
        match timers s !! i with
        | Some t =>
            let '(active, t') := Reset (time s + timeout) t in
            Some (i, mkState (<[i := t']> (timers s)) (filter (fun j => j ≠ i) (pool s)) (i :: used s) (time s)
                       (if active then S (bugs s) else bugs s))
        | None => None
        end
      else None
  end.

(** The tick is taken if it is there. *)
(* [net/dogrpc/client.go:489-498] releaseTimer *)
Definition releaseTimer (i : nat) (s : State) : option State :=
  match timers s !! i with
  | Some t =>
      let '(active, t) := Stop t in
      let t := if active then t else mkTimer (deadline t) (sending t) false in
      Some (mkState (<[i := t]> (timers s)) (i :: pool s) (filter (fun j => j ≠ i) (used s)) (time s) (bugs s))
  | None => None
  end.

(** A tick of the timer is under way. *)
Definition late (i : nat) (s : State) : bool :=
  match timers s !! i with Some t => bool_decide (0 < sending t)%nat | None => false end.

(** Calls take and release timers and receive their ticks; time passes; a timer fires
    when its deadline has passed, and its tick is sent; the collector may empty the
    pool.  [Released i true]: the timer is put back with a tick under way. *)
Inductive label : Type :=
| Acquired (i : nat) (timeout : Z) | Released (i : nat) (b : bool) | Ticked (i : nat) | Fired (i : nat)
| Sent (i : nat) | Passed (d : Z) | Collected.

Inductive step : State -> label -> State -> Prop :=
| acquired s timeout got i s' : acquireTimer timeout got s = Some (i, s') -> step s (Acquired i timeout) s'
| released s i s' : i ∈ used s -> releaseTimer i s = Some s' -> step s (Released i (late i s)) s'
| ticked s i t : i ∈ used s -> timers s !! i = Some t -> tick t = true ->
    step s (Ticked i) (with_timer i (mkTimer (deadline t) (sending t) false) s)
| fired s i t d : timers s !! i = Some t -> deadline t = Some d -> d <= time s ->
    step s (Fired i) (with_timer i (mkTimer None (S (sending t)) (tick t)) s)
| sent s i t n : timers s !! i = Some t -> sending t = S n ->
    step s (Sent i) (with_timer i (mkTimer (deadline t) n true) s)
| passed s d : 0 <= d -> step s (Passed d) (mkState (timers s) (pool s) (used s) (time s + d) (bugs s))
| collected s : step s Collected (mkState (timers s) [] (used s) (time s) (bugs s)).

Definition init (now : Z) : State := mkState ∅ [] [] now 0.

(** No tick is in the channel or under way. *)
Definition clean (t : Timer) : Prop := sending t = 0%nat /\ tick t = false.

(** After the run [h]: a timer in the pool is not active, and nobody uses it; each
    timer is there once; an active timer, or one in the pool, is clean unless it was
    once put back with a tick under way. *)
Definition tidy (h : list label) (i : nat) (t : Timer) : Prop := clean t \/ Released i true ∈ h.
Definition idle (h : list label) (s : State) (i : nat) : Prop :=
  (exists t, timers s !! i = Some t /\ deadline t = None /\ tidy h i t) /\ i ∉ used s.
Record inv (h : list label) (s : State) : Prop := {
  v_pool : Forall (idle h s) (pool s);
  v_nodup : NoDup (pool s) /\ NoDup (used s);
  v_used : forall i, i ∈ used s -> exists t, timers s !! i = Some t /\ (deadline t = None \/ tidy h i t);
  v_bugs : bugs s = 0%nat
}.

Lemma tidy_mono h l i t : tidy h i t -> tidy (h ++ [l]) i t.
Proof. intros [H|H]; [by left|]. right. apply elem_of_app. by left. Qed.

Lemma inv_mono h l s : inv h s -> inv (h ++ [l]) s.
Proof.
  intros []. split; try done.
  - eapply Forall_impl; [done|]. intros i [(t & Ht & Hd & Hti) Hu]. split; [|done]. exists t.
    split_and!; [done|done|by apply tidy_mono].
  - intros i Hi. destruct (v_used0 i Hi) as (t & Ht & [Hd|Hti]); exists t; split; auto using tidy_mono.
Qed.

Lemma pool_timer h s i : inv h s -> i ∈ pool s -> idle h s i.
Proof. intros [] Hi. exact (proj1 (Forall_forall _ _) v_pool0 i Hi). Qed.

(** A step that changes one timer in place. *)
Lemma with_timer_inv h i t0 t s : inv h s -> timers s !! i = Some t0 ->
  (deadline t0 = None -> tidy h i t0 -> deadline t = None /\ tidy h i t) ->
  (i ∈ used s -> deadline t = None \/ tidy h i t) -> inv h (with_timer i t s).
Proof.
  intros HI Ht0 Hp Hu. pose proof HI as []. split; try done; cbn.
  - apply Forall_forall. intros j Hj. destruct (pool_timer _ _ _ HI Hj) as [(tj & Htj & Hd & Hti) Hju].
    split; [|done]. cbn. destruct (decide (i = j)) as [<-|Hne].
    + rewrite lookup_insert_eq. assert (tj = t0) as -> by congruence. exists t. by destruct (Hp Hd Hti).
    + rewrite lookup_insert_ne by done. by exists tj.
  - intros j Hj. destruct (decide (i = j)) as [<-|Hne]; [rewrite lookup_insert_eq; exists t; auto|].
    rewrite lookup_insert_ne by done. by apply v_used0.
Qed.

(** The timer a call gets. *)
Definition fresh_timer (h : list label) (d : Z) (i : nat) (s s' : State) : Prop :=
  (i ∉ used s) /\ exists t, timers s' !! i = Some t /\ deadline t = Some d /\ tidy h i t.

Lemma acquire_inv h timeout got s i s' : inv h s -> acquireTimer timeout got s = Some (i, s') ->
  inv h s' /\ fresh_timer h (time s + timeout) i s s'.
Proof.
  intros HI. pose proof HI as []. destruct v_nodup0 as [Hn Hu]. unfold acquireTimer. destruct got as [j|].
  - destruct (decide (j ∈ pool s)) as [Hj|]; [|done].
    destruct (pool_timer _ _ _ HI Hj) as [(t & Ht & Hd & Hti) Hju]. rewrite Ht. cbn. intros [= <- <-].
    rewrite (bool_decide_eq_false_2 (is_Some (deadline t))) by (rewrite Hd; by intros [? ?]).
    unfold fresh_timer. cbn. rewrite lookup_insert_eq. split; [|split; [done|by eexists]]. split; cbn; try done.
    + apply Forall_forall. intros k [Hne Hkp]%list_elem_of_filter.
      destruct (pool_timer _ _ _ HI Hkp) as [Hk Hku]. split; cbn.
      * by rewrite lookup_insert_ne.
      * by rewrite elem_of_cons; intros [?|?].
    + split; [by apply NoDup_filter|by constructor].
    + intros k [->|Hku]%elem_of_cons; [rewrite lookup_insert_eq; eexists; split; [done|by right]|].
      rewrite lookup_insert_ne by (by intros ->). by apply v_used0.
  - set (j := fresh (dom (timers s))). intros [= <- <-].
    assert (timers s !! j = None) as Hj by (apply not_elem_of_dom, is_fresh).
    assert (j ∉ used s) as Hju. { intros Hin. destruct (v_used0 j Hin) as (t & Ht & _). by rewrite Hj in Ht. }
    unfold fresh_timer. cbn. rewrite lookup_insert_eq.
    split; [|split; [done|eexists; split; [done|split; [done|by left]]]]. split; cbn; try done.
    + apply Forall_forall. intros k Hkp. destruct (pool_timer _ _ _ HI Hkp) as [(t & Ht & Hk) Hku].
      assert (j ≠ k) by (intros <-; by rewrite Hj in Ht). split; cbn.
      * rewrite lookup_insert_ne by done. by exists t.
      * rewrite elem_of_cons. by intros [?|?].
    + split; [done|by constructor].
    + intros k [->|Hku]%elem_of_cons; [rewrite lookup_insert_eq; eexists; split; [done|right; by left]|].
      rewrite lookup_insert_ne by (by intros <-). by apply v_used0.
Qed.

Lemma release_inv h i s s' : inv h s -> i ∈ used s -> releaseTimer i s = Some s' ->
  inv (h ++ [Released i (late i s)]) s'.
Proof.
  intros HI Hi. pose proof HI as []. destruct v_nodup0 as [Hn Hu].
  destruct (v_used0 i Hi) as (t & Ht & Hidle). unfold releaseTimer, late. rewrite Ht. cbn. intros [= <-].
  set (t' := if bool_decide _ then _ else _). set (l := Released i _).
  assert (deadline t' = None /\ tidy (h ++ [l]) i t') as Ht'.
  { unfold t', l. case_bool_decide as H; (split; [done|]).
    - destruct Hidle as [E|Hti]; [rewrite E in H; by destruct H|]. by apply tidy_mono.
    - case_bool_decide as Hs; [right; apply elem_of_app; right; by left|left; split; cbn; [lia|done]]. }
  pose proof (inv_mono h l s HI) as [H1 _ H2 _]. split; cbn; try done.
  - constructor.
    + split; cbn; [rewrite lookup_insert_eq; by eexists|by intros [? _]%list_elem_of_filter].
    + eapply Forall_impl; [exact H1|]. intros k [Hk Hku]. assert (i ≠ k) by (by intros <-). split; cbn.
      * by rewrite lookup_insert_ne.
      * by intros [_ ?]%list_elem_of_filter.
  - split; [|by apply NoDup_filter]. constructor; [|done]. intros Hip. by destruct (pool_timer _ _ _ HI Hip).
  - intros k [Hne Hk]%list_elem_of_filter. rewrite lookup_insert_ne by done. by apply H2.
Qed.

Lemma timer_inv_step h s l s' : inv h s -> step s l s' -> inv (h ++ [l]) s'.
Proof.
  intros HI Hs. destruct Hs as [s timeout got i s' H|s i s' Hi H|s i t Hi Ht Htk|s i t d Ht Hd Hle|s i t n Ht Hn|s d Hd|s].
  - apply inv_mono. by apply (acquire_inv h timeout got s i s' HI H).
  - by apply release_inv.
  - apply inv_mono. apply (with_timer_inv _ _ t); [done|done| |].
    + intros ? [[? ?]|?]; (split; [done|]); [by left|by right].
    + intros _. destruct (v_used _ _ HI i Hi) as (t1 & Ht1 & Hok). assert (t1 = t) as -> by congruence.
      destruct Hok as [Hd|[[? ?]|?]]; [by left|right; by left|right; by right].
  - apply inv_mono. apply (with_timer_inv _ _ t); [done|done|congruence|by left].
  - apply inv_mono. apply (with_timer_inv _ _ t); [done|done| |].
    + intros ? [[? ?]|?]; [congruence|]. split; [done|by right].
    + intros Hi. destruct (v_used _ _ HI i Hi) as (t1 & Ht1 & Hok). assert (t1 = t) as -> by congruence.
      destruct Hok as [Hd|[[? ?]|?]]; [by left|congruence|right; by right].
  - apply inv_mono. by destruct HI.
  - apply inv_mono. destruct HI as [? [? ?] ? ?]. split; cbn; [constructor|split; [constructor|done]|done|done].
Qed.

Lemma timer_reachable now ls s : steps step (init now) ls s -> inv ls s.
Proof.
  apply steps_history; [intros h a l b; apply timer_inv_step|].
  split; cbn; [constructor|split; constructor|by intros i Hi%not_elem_of_nil|done].
Qed.

(** C37 However calls take, wait for and release timers, whenever they fire, their
    ticks are sent and whatever the pool keeps: the timer that a call gets is nobody
    else's and is set to the call's own time-out, the logged case of an active timer
    in the pool never occurs, and no tick of an earlier call is in its channel or
    under way to it, unless the timer was once put back between its firing and the
    sending of its tick (as [stale_tick] shows, the call may then time out at once). *)
Theorem timers_fresh now ls s timeout i s' : steps step (init now) ls s -> step s (Acquired i timeout) s' ->
  (i ∉ used s) /\ NoDup (used s') /\ bugs s' = 0%nat /\
  exists t, timers s' !! i = Some t /\ deadline t = Some (time s + timeout) /\
    (sending t = 0%nat /\ tick t = false \/ Released i true ∈ ls).
Proof.
  intros HI%timer_reachable Hs. inversion Hs as [? ? got ? ? H| | | | | |]; subst.
  destruct (acquire_inv ls timeout got s i s' HI H) as ([_ [_ Hu] _ Hb] & Hi & Ht). by split_and!.
Qed.

(** A call times out, its timer is released and taken again. *)
Definition recycled : list label := [Acquired 0 5; Passed 6; Fired 0; Sent 0; Released 0 false].

Lemma released_as s i b s' : i ∈ used s -> late i s = b -> releaseTimer i s = Some s' ->
  step s (Released i b) s'.
Proof. intros Hi <- Hr. by apply released. Qed.

Ltac timer_run := repeat (econstructor; [first
  [ eapply (acquired _ _ None); reflexivity | eapply (acquired _ _ (Some 0%nat)); reflexivity
  | eapply (passed _ _); lia
  | eapply fired; [reflexivity|reflexivity|cbn; lia] | eapply sent; reflexivity
  | eapply released_as; [by left|reflexivity|reflexivity] | eapply ticked; [by left|reflexivity|reflexivity]]|]); constructor.

Lemma timers_fresh_witness : exists s s', steps step (init 100) recycled s /\ step s (Acquired 0 7) s' /\
  time s = 106 /\ timers s' !! 0%nat = Some (mkTimer (Some 113) 0 false).
Proof.
  pose (s4 := mkState {[0%nat := mkTimer None 0 false]} [0%nat] [] 106 0).
  pose (s5 := mkState {[0%nat := mkTimer (Some 113) 0 false]} [] [0%nat] 106 0).
  assert (steps step (init 100) recycled s4) as Hrun by timer_run.
  assert (step s4 (Acquired 0 7) s5) as Hs by (apply (acquired _ 7 (Some 0%nat)); reflexivity).
  destruct (timers_fresh 100 recycled s4 7 0 s5 Hrun Hs) as (_ & _ & _ & t & Ht & _).
  exists s4, s5. by split_and!.
Defined.

(** The gap between firing and sending matters: [Stop] says false, the channel is
    still empty, the timer goes back to the pool, and the tick of the first call ends
    the second one, which asked for a time-out of 1000, after no time at all. *)
Theorem stale_tick : exists s, steps step (init 100)
    [Acquired 0 5; Passed 6; Fired 0; Released 0 true; Acquired 0 1000; Sent 0; Ticked 0] s /\
  time s = 106 /\ timers s !! 0%nat = Some (mkTimer (Some 1106) 0 false).
Proof.
  exists (mkState {[0%nat := mkTimer (Some 1106) 0 false]} [] [0%nat] 106 0). split; [timer_run|done].
Qed.

End ClientTimer.
