(* ===== verification/ServerStop.v ===== *)
(** * Serving and stopping a server ([net/dogrpc/server.go]: Start, Serve, Stop,
    serverHandler, serverHandleConnection; [transport.go]: the listeners)

    The goroutines of a server and the channels, the wait group and the listener
    they share, as a step function.  [RpcServer] has the configuration a server
    starts with and what a connection does with its packets; here is who runs when,
    who waits for whom, and what is closed. *)

From S2P Require Import Prelude.
From stdpp Require Import list.

Module ServerStop.

(** ** Listeners ([transport.go]) *)

Section transport.
(** Package net: listeners, connections and what calls on them give; [W] is what
    they change. *)
Context {NL NC W : Type}.
Variable net_Listen : string -> string -> M W (NL + string).
Variable nl_Accept : NL -> M W (NC + string).
Variable nl_Close : NL -> M W (option string).
Variable is_tcp : NC -> bool.
Variable SetKeepAlive : NC -> M W (option string).
Variable SetKeepAlivePeriod : NC -> Z -> M W (option string).
Variable nc_Close : NC -> M W unit.
Variable RemoteAddr : NC -> string.

Definition DefaultDialNetWork : string := "tcp".

(** A listener's [L], nil until [Init] has succeeded. *)
Definition listener : Type := option NL.

(* [net/dogrpc/transport.go:42-45] defaultListener.Init *)
Definition default_Init (addr : string) : M W (listener * option string) :=
  r ← net_Listen DefaultDialNetWork addr;
  match r with
  | inl nl => mret (Some nl, None)
  | inr err => mret (None, Some err)
  end.

(* [net/dogrpc/transport.go:70-79] setupKeepalive *)
Definition setupKeepalive (c : NC) : M W (option string) :=
  if negb (is_tcp c) then panic "interface conversion: net.Conn is not *net.TCPConn" else
  e ← SetKeepAlive c;
  match e with
  | Some err => mret (Some err)
  | None => SetKeepAlivePeriod c 30000000000
  end.

(* [net/dogrpc/transport.go:54-64] defaultListener.Accept *)
Definition default_Accept (ln : listener) : M W (NC * string + string) :=
  match ln with
  | None => panic "invalid memory address or nil pointer dereference"
  | Some nl =>
      r ← nl_Accept nl;
      match r with
      | inr err => mret (inr err)
      | inl c =>
          e ← setupKeepalive c;
          match e with
          | Some err => _ ← nc_Close c; mret (inr err)
          | None => mret (inl (c, RemoteAddr c))
          end
      end
  end.

(* [net/dogrpc/transport.go:66-68] defaultListener.Close *)
Definition default_Close (ln : listener) : M W (option string) :=
  match ln with
  | None => panic "invalid memory address or nil pointer dereference"
  | Some nl => nl_Close nl
  end.

(** The listener of TLS servers, with its function [F]. *)
(* [net/dogrpc/transport.go:86-89] netListener.Init *)
Definition net_Init (F : string -> M W (NL + string)) (addr : string) : M W (listener * option string) :=
  r ← F addr;
  match r with
  | inl nl => mret (Some nl, None)
  | inr err => mret (None, Some err)
  end.

(* [net/dogrpc/transport.go:98-104] netListener.Accept *)
Definition net_Accept (ln : listener) : M W (NC * string + string) :=
  match ln with
  | None => panic "invalid memory address or nil pointer dereference"
  | Some nl =>
      r ← nl_Accept nl;
      match r with
      | inr err => mret (inr err)
      | inl c => mret (inl (c, RemoteAddr c))
      end
  end.

(** A connection that [Accept] of the plain listener does not hand out has been
    closed. *)
Lemma default_Accept_closes nl w c w1 err w2 :
  nl_Accept nl w = (Ret (inl c), w1) -> setupKeepalive c w1 = (Ret (Some err), w2) ->
  default_Accept (Some nl) w = (_ ← nc_Close c; mret (inr err)) w2.
Proof.
  intros Ha Hk. unfold default_Accept. rewrite (bind_run _ _ _ _ _ Ha).
  by rewrite (bind_run _ _ _ _ _ Hk).
Qed.
End transport.

(** ** Goroutines *)

(** The channel [serverStopChan]. *)
Inductive chan : Type := CNil | COpen | CClosed.

#[export] Instance chan_eq_dec : EqDecision chan.
Proof. solve_decision. Defined.

(** The goroutine of a call of [Serve]: before [Start], in [Listener.Init], in
    [stopWg.Wait]. *)
Inductive serve_pc : Type := Starting | Initing | SWait | SEnded.

#[export] Instance serve_pc_eq_dec : EqDecision serve_pc.
Proof. solve_decision. Defined.

(** What [Accept] returned: a connection, or an error. *)
Definition accepted : Type := option nat.

(** The goroutine that accepts for one turn of the loop; [Told]: [acceptChan] is
    closed. *)
Inductive accept_pc : Type := Accepting | Returned (r : accepted) | Told (r : accepted).

(** [serverHandler]: at the top of the loop, in its [select], after
    [Listener.Close] waiting for [acceptChan], at the test of the error, in the
    pause of a second, before the deferred [stopWg.Done]. *)
Inductive loop_pc : Type :=
| LTop | LSelect (a : accept_pc) | LStopping (a : accept_pc) | LGot (r : accepted)
| LPause | LDone | LEnded.

Record Loop : Type := mkLoop { l_pc : loop_pc; l_workers : nat (* its [workersCh] *) }.

(** [serverHandleConnection]: in its [select], waiting for reader and writer. *)
Inductive conn_pc : Type := CSelect | CWait | CEnded.

(** The reader: in [Decode], waiting for a slot of [workersCh]. *)
Inductive reader_pc : Type := RRead | RSlot | REnded.

(** [c_closed]: its [stopChan] and the connection itself are closed. *)
Record Conn : Type := mkConn {
  c_id : nat; c_workers : nat; c_pc : conn_pc; c_reader : reader_pc; c_writer : bool;
  c_queue : nat; c_closed : bool
}.

(** [serverRequest]: in the handler, sending the response. *)
Inductive req_pc : Type := QHandling | QSending | QEnded.

Record Req : Type := mkReq { q_conn : nat; q_workers : nat; q_pc : req_pc }.

(** The user's goroutine in [Stop]: at [close], in [stopWg.Wait], at the
    assignment of nil. *)
Inductive user_pc : Type := UFree | UClosing | UWaiting | UClearing.

#[export] Instance user_pc_eq_dec : EqDecision user_pc.
Proof. solve_decision. Defined.

Inductive event : Type :=
| PanicRecovered | CannotListen | CannotAccept | Connected (r : accepted)
| Disconnected (c : nat) | Stopped.

(** [stopWg] counts; [listening] holds while the address is bound; [next] numbers
    the connections the listener hands out, [lost] are those nobody serves. *)
Record State : Type := mkState {
  stopChan : chan; stopWg : nat; user : user_pc; listening : bool; next : nat; started : nat;
  serves : list serve_pc; loops : list Loop; conns : list Conn; reqs : list Req;
  lost : list nat; log : list event; crashed : bool
}.

Definition init : State := mkState CNil 0 UFree false 0 0 [] [] [] [] [] [] false.

(** ** Setters *)

Definition set_chan (s : State) v := mkState v (stopWg s) (user s) (listening s) (next s) (started s)
  (serves s) (loops s) (conns s) (reqs s) (lost s) (log s) (crashed s).
Definition set_wg (s : State) v := mkState (stopChan s) v (user s) (listening s) (next s) (started s)
  (serves s) (loops s) (conns s) (reqs s) (lost s) (log s) (crashed s).
Definition set_user (s : State) v := mkState (stopChan s) (stopWg s) v (listening s) (next s) (started s)
  (serves s) (loops s) (conns s) (reqs s) (lost s) (log s) (crashed s).
Definition set_listening (s : State) v := mkState (stopChan s) (stopWg s) (user s) v (next s) (started s)
  (serves s) (loops s) (conns s) (reqs s) (lost s) (log s) (crashed s).
Definition set_next (s : State) v := mkState (stopChan s) (stopWg s) (user s) (listening s) v (started s)
  (serves s) (loops s) (conns s) (reqs s) (lost s) (log s) (crashed s).
Definition set_started (s : State) v := mkState (stopChan s) (stopWg s) (user s) (listening s) (next s) v
  (serves s) (loops s) (conns s) (reqs s) (lost s) (log s) (crashed s).
Definition set_serves (s : State) v := mkState (stopChan s) (stopWg s) (user s) (listening s) (next s) (started s)
  v (loops s) (conns s) (reqs s) (lost s) (log s) (crashed s).
Definition set_loops (s : State) v := mkState (stopChan s) (stopWg s) (user s) (listening s) (next s) (started s)
  (serves s) v (conns s) (reqs s) (lost s) (log s) (crashed s).
Definition set_conns (s : State) v := mkState (stopChan s) (stopWg s) (user s) (listening s) (next s) (started s)
  (serves s) (loops s) v (reqs s) (lost s) (log s) (crashed s).
Definition set_reqs (s : State) v := mkState (stopChan s) (stopWg s) (user s) (listening s) (next s) (started s)
  (serves s) (loops s) (conns s) v (lost s) (log s) (crashed s).
Definition set_lost (s : State) v := mkState (stopChan s) (stopWg s) (user s) (listening s) (next s) (started s)
  (serves s) (loops s) (conns s) (reqs s) v (log s) (crashed s).
Definition say (s : State) e := mkState (stopChan s) (stopWg s) (user s) (listening s) (next s) (started s)
  (serves s) (loops s) (conns s) (reqs s) (lost s) (log s ++ [e]) (crashed s).
Definition crash (s : State) := mkState (stopChan s) (stopWg s) (user s) (listening s) (next s) (started s)
  (serves s) (loops s) (conns s) (reqs s) (lost s) (log s) true.

Definition move_serve (s : State) i p := set_serves s (<[i := p]> (serves s)).
Definition move_loop (s : State) i (l : Loop) p := set_loops s (<[i := mkLoop p (l_workers l)]> (loops s)).
Definition move_conn (s : State) i c := set_conns s (<[i := c]> (conns s)).
Definition move_req (s : State) i (q : Req) p :=
  set_reqs s (<[i := mkReq (q_conn q) (q_workers q) p]> (reqs s)).

(** [stopWg.Done]: a negative counter panics. *)
Definition wg_done (s : State) : State :=
  match stopWg s with 0%nat => crash s | S n => set_wg s n end.

(** The slots taken in the [workersCh] of the [g]th start. *)
Definition live_req (g : nat) (q : Req) : nat :=
  match q_pc q with QEnded => 0 | _ => if decide (q_workers q = g) then 1 else 0 end.
Definition slots_taken (s : State) (g : nat) : nat := sum_list_with (live_req g) (reqs s).

(** ** Steps *)

Section limits.
(** [Concurrency] and [PendingResponses]. *)
Variables (MaxConcurrency MaxPending : nat).

(** What a goroutine does next; [true] marks the steps that the outside decides:
    the user's calls, connections and failures of the network, the time a handler
    takes. *)
Inductive label : Type :=
| Serve_ | Start_ (i : nat) | Init_ (i : nat) (ok : bool) | Waited (i : nat)
| Stop_ | Close_ | Wait_ | Clear_
| Listen (i : nat) | Accept (i : nat) | AcceptFails (i : nat) | AcceptClosed (i : nat)
| Tell (i : nat) | SelectStop (i : nat) | SelectAccepted (i : nat) | StopAccepted (i : nat)
| Test_ (i : nat) | PauseStop (i : nat) | PauseOver (i : nat) | LoopDone (i : nat)
| ConnSelect (j : nat) | ConnDone (j : nat)
| ReadReq (j : nat) | ReadFails (j : nat) | ReadClosed (j : nat) | Slot (j : nat) | SlotStop (j : nat)
| Write_ (j : nat) | WriteFails (j : nat) | WriteStop (j : nat)
| Handled (k : nat) | Respond (k : nat) | GiveUp (k : nat).

Definition outside (l : label) : bool :=
  match l with
  | Serve_ | Stop_ | Accept _ | AcceptFails _ | ReadReq _ | ReadFails _ | WriteFails _ | Handled _ => true
  | _ => false
  end.

(** [Serve] starts a goroutine and returns at once.  The goroutine runs [Start], of
    which the channel is made first and the listener bound next; a panic of [Start]
    is recovered, an error is logged.  An address that is bound cannot be bound
    again. *)
(* [net/dogrpc/server.go:37-100] Server.Start, Server.Serve *)
Definition serve_step (s : State) (l : label) : option State :=
  match l with
  | Serve_ => Some (set_serves s (serves s ++ [Starting]))
  | Start_ i =>
      match serves s !! i with
      | Some Starting =>
          match stopChan s with
          | CNil => Some (move_serve (set_chan s COpen) i Initing)
          | _ => Some (move_serve (say s PanicRecovered) i SEnded)
          end
      | _ => None
      end
  | Init_ i ok =>
      match serves s !! i with
      | Some Initing =>
          if ok then
            if listening s then None else
            let s := set_wg (set_listening s true) (S (stopWg s)) in
            let s := set_loops s (loops s ++ [mkLoop LTop (started s)]) in
            Some (move_serve (set_started s (S (started s))) i SWait)
          else Some (move_serve (say s CannotListen) i SEnded)
      | _ => None
      end
  | Waited i =>
      match serves s !! i, stopWg s with
      | Some SWait, 0%nat => Some (move_serve s i SEnded)
      | _, _ => None
      end
  | _ => None
  end.

(* [net/dogrpc/server.go:102-110] Server.Stop *)
Definition stop_step (s : State) (l : label) : option State :=
  match l, user s with
  | Stop_, UFree =>
      match stopChan s with
      | CNil => Some (crash s)      (* "server must be started before stopping it" *)
      | _ => Some (set_user s UClosing)
      end
  | Close_, UClosing =>
      match stopChan s with
      | COpen => Some (set_user (set_chan s CClosed) UWaiting)
      | _ => Some (crash s)
      end
  | Wait_, UWaiting => match stopWg s with 0%nat => Some (set_user s UClearing) | _ => None end
  | Clear_, UClearing => Some (say (set_user (set_chan s CNil) UFree) Stopped)
  | _, _ => None
  end.

(** A connection is handed to a goroutine of its own. *)
Definition admit_conn (s : State) (workers c : nat) : State :=
  set_conns (set_wg s (S (stopWg s)))
    (conns s ++ [mkConn c workers CSelect RRead true 0 false]).

(** The loop, and the goroutine that accepts for one turn of it.  [Accept] succeeds
    only while the address is bound, may fail at any time and does fail after
    [Listener.Close]. *)
(* [net/dogrpc/server.go:112-154] serverHandler *)
Definition loop_step (s : State) (l : label) : option State :=
  match l with
  | Listen i =>
      w ← loops s !! i;
      match l_pc w with LTop => Some (move_loop s i w (LSelect Accepting)) | _ => None end
  | Accept i =>
      w ← loops s !! i;
      if listening s then
        match l_pc w with
        | LSelect Accepting =>
            Some (move_loop (set_next s (S (next s))) i w (LSelect (Returned (Some (next s)))))
        | LStopping Accepting =>
            Some (move_loop (set_next s (S (next s))) i w (LStopping (Returned (Some (next s)))))
        | _ => None
        end
      else None
  | AcceptFails i =>
      w ← loops s !! i;
      match l_pc w with
      | LSelect Accepting => Some (move_loop s i w (LSelect (Returned None)))
      | LStopping Accepting =>
          if listening s then Some (move_loop s i w (LStopping (Returned None))) else None
      | _ => None
      end
  | AcceptClosed i =>
      w ← loops s !! i;
      match l_pc w with
      | LStopping Accepting =>
          if listening s then None else Some (move_loop s i w (LStopping (Returned None)))
      | _ => None
      end
  | Tell i =>
      w ← loops s !! i;
      match l_pc w with
      | LSelect (Returned r) =>
          let s := match r with None => say s CannotAccept | Some _ => s end in
          Some (move_loop s i w (LSelect (Told r)))
      | LStopping (Returned r) => Some (move_loop s i w (LStopping (Told r)))
      | _ => None
      end
  | SelectStop i =>
      w ← loops s !! i;
      match l_pc w, stopChan s with
      | LSelect a, CClosed => Some (move_loop (set_listening s false) i w (LStopping a))
      | _, _ => None
      end
  | SelectAccepted i =>
      w ← loops s !! i;
      match l_pc w with
      | LSelect (Told r) => Some (move_loop (say s (Connected r)) i w (LGot r))
      | _ => None
      end
  | StopAccepted i =>
      w ← loops s !! i;
      match l_pc w with
      | LStopping (Told r) => Some (move_loop (set_lost s (lost s ++ option_list r)) i w LDone)
      | _ => None
      end
  | Test_ i =>
      w ← loops s !! i;
      match l_pc w with
      | LGot None => Some (move_loop s i w LPause)
      | LGot (Some c) => Some (move_loop (admit_conn s (l_workers w) c) i w LTop)
      | _ => None
      end
  | PauseStop i =>
      w ← loops s !! i;
      match l_pc w, stopChan s with
      | LPause, CClosed => Some (move_loop s i w LDone)
      | _, _ => None
      end
  | PauseOver i =>
      w ← loops s !! i;
      match l_pc w with LPause => Some (move_loop s i w LTop) | _ => None end
  | LoopDone i =>
      w ← loops s !! i;
      match l_pc w with LDone => Some (move_loop (wg_done s) i w LEnded) | _ => None end
  | _ => None
  end.

Definition conn_to (c : Conn) pc reader writer queue closed :=
  mkConn (c_id c) (c_workers c) pc reader writer queue closed.

(** A connection's own goroutine leaves its [select] when the reader or the writer
    is done or the server stops, and closes; then it waits for both. *)
(* [net/dogrpc/server.go:156-185] serverHandleConnection *)
Definition handle_step (s : State) (l : label) : option State :=
  match l with
  | ConnSelect j =>
      c ← conns s !! j;
      match c_pc c with
      | CSelect =>
          if match c_reader c with REnded => true | _ => false end || negb (c_writer c)
             || bool_decide (stopChan s = CClosed)
          then Some (move_conn s j (conn_to c CWait (c_reader c) (c_writer c) (c_queue c) true))
          else None
      | _ => None
      end
  | ConnDone j =>
      c ← conns s !! j;
      match c_pc c, c_reader c, c_writer c with
      | CWait, REnded, false =>
          Some (move_conn (say (wg_done s) (Disconnected (c_id c))) j
                  (conn_to c CEnded REnded false (c_queue c) (c_closed c)))
      | _, _, _ => None
      end
  | _ => None
  end.

(** The reader ends with the connection, or when it stops while waiting for a slot:
    then the request it has read is given up.  What its buffer holds it reads even
    after the connection has been closed. *)
(* [net/dogrpc/server.go:187-226] serverReader *)
Definition reader_step (s : State) (l : label) : option State :=
  match l with
  | ReadReq j =>
      c ← conns s !! j;
      match c_reader c with
      | RRead => Some (move_conn s j (conn_to c (c_pc c) RSlot (c_writer c) (c_queue c) (c_closed c)))
      | _ => None
      end
  | ReadFails j =>
      c ← conns s !! j;
      match c_reader c, c_closed c with
      | RRead, false => Some (move_conn s j (conn_to c (c_pc c) REnded (c_writer c) (c_queue c) false))
      | _, _ => None
      end
  | ReadClosed j =>
      c ← conns s !! j;
      match c_reader c, c_closed c with
      | RRead, true => Some (move_conn s j (conn_to c (c_pc c) REnded (c_writer c) (c_queue c) true))
      | _, _ => None
      end
  | Slot j =>
      c ← conns s !! j;
      match c_reader c with
      | RSlot =>
          if (slots_taken s (c_workers c) <? MaxConcurrency)%nat then
            let s := set_reqs s (reqs s ++ [mkReq j (c_workers c) QHandling]) in
            Some (move_conn s j (conn_to c (c_pc c) RRead (c_writer c) (c_queue c) (c_closed c)))
          else None
      | _ => None
      end
  | SlotStop j =>
      c ← conns s !! j;
      match c_reader c, c_closed c with
      | RSlot, true => Some (move_conn s j (conn_to c (c_pc c) REnded (c_writer c) (c_queue c) true))
      | _, _ => None
      end
  | _ => None
  end.

(** The writer takes what is queued first and looks at its [stopChan] only when
    nothing is. *)
(* [net/dogrpc/server.go:262-313] serverWriter *)
Definition writer_step (s : State) (l : label) : option State :=
  match l with
  | Write_ j =>
      c ← conns s !! j;
      match c_writer c, c_queue c with
      | true, S n => Some (move_conn s j (conn_to c (c_pc c) (c_reader c) true n (c_closed c)))
      | _, _ => None
      end
  | WriteFails j =>
      c ← conns s !! j;
      if c_writer c
      then Some (move_conn s j (conn_to c (c_pc c) (c_reader c) false (c_queue c) (c_closed c)))
      else None
  | WriteStop j =>
      c ← conns s !! j;
      match c_writer c, c_queue c, c_closed c with
      | true, 0%nat, true => Some (move_conn s j (conn_to c (c_pc c) (c_reader c) false 0 true))
      | _, _, _ => None
      end
  | _ => None
  end.

(** A request holds its slot until its response is queued or given up. *)
(* [net/dogrpc/server.go:228-246] serverRequest *)
Definition request_step (s : State) (l : label) : option State :=
  match l with
  | Handled k =>
      q ← reqs s !! k;
      match q_pc q with QHandling => Some (move_req s k q QSending) | _ => None end
  | Respond k =>
      q ← reqs s !! k;
      c ← conns s !! q_conn q;
      match q_pc q with
      | QSending =>
          if (c_queue c <? MaxPending)%nat then
            let s := move_conn s (q_conn q)
              (conn_to c (c_pc c) (c_reader c) (c_writer c) (S (c_queue c)) (c_closed c)) in
            Some (move_req s k q QEnded)
          else None
      | _ => None
      end
  | GiveUp k =>
      q ← reqs s !! k;
      c ← conns s !! q_conn q;
      match q_pc q, c_closed c with
      | QSending, true => Some (move_req s k q QEnded)
      | _, _ => None
      end
  | _ => None
  end.

(** Every label belongs to one goroutine; nothing happens after a crash. *)
Definition do_step (s : State) (l : label) : option State :=
  if crashed s then None else
  match l with
  | Serve_ | Start_ _ | Init_ _ _ | Waited _ => serve_step s l
  | Stop_ | Close_ | Wait_ | Clear_ => stop_step s l
  | ConnSelect _ | ConnDone _ => handle_step s l
  | ReadReq _ | ReadFails _ | ReadClosed _ | Slot _ | SlotStop _ => reader_step s l
  | Write_ _ | WriteFails _ | WriteStop _ => writer_step s l
  | Handled _ | Respond _ | GiveUp _ => request_step s l
  | _ => loop_step s l
  end.

Definition step (s : State) (l : label) (s' : State) : Prop := do_step s l = Some s'.

(** The code lets [Stop] be called at any time; what the theorems assume of its
    caller is that it calls [Stop] only of a server whose [Start] has returned. *)
Definition in_time (s : State) (l : label) : Prop :=
  match l with Stop_ => stopChan s ≠ CNil /\ Initing ∉ serves s | _ => True end.
Definition timely_step (s : State) (l : label) (s' : State) : Prop := step s l s' /\ in_time s l.

(** Run a list of labels. *)
Fixpoint play (s : State) (ls : list label) : option State :=
  match ls with [] => Some s | l :: ls => s' ← do_step s l; play s' ls end.

(** ** The invariant *)

Definition counted_loop (w : Loop) : nat := match l_pc w with LEnded => 0 | _ => 1 end.
Definition counted_conn (c : Conn) : nat := match c_pc c with CEnded => 0 | _ => 1 end.
Definition initing (p : serve_pc) : nat := match p with Initing => 1 | _ => 0 end.

Definition loop_ok (s : State) (w : Loop) : Prop :=
  match l_pc w with LStopping _ => listening s = false | _ => True end.

Definition conn_ok (c : Conn) : Prop :=
  match c_pc c with
  | CSelect => c_closed c = false
  | CWait => c_closed c = true
  | CEnded => c_closed c = true /\ c_reader c = REnded /\ c_writer c = false
  end.

Definition user_ok (s : State) : Prop :=
  match user s with
  | UFree => stopChan s ≠ CClosed
  | UClosing => stopChan s = COpen
  | UWaiting => stopChan s = CClosed
  | UClearing => stopChan s = CClosed /\ stopWg s = 0%nat
  end.

(** The wait group counts the loops and the connections; where the channel is nil
    it is zero, and where an address is being bound as well. *)
Record inv (s : State) : Prop := {
  i_crash : crashed s = false;
  i_wg : stopWg s = (sum_list_with counted_loop (loops s) + sum_list_with counted_conn (conns s))%nat;
  i_nil : stopChan s = CNil -> stopWg s = 0%nat;
  i_user : user_ok s;
  i_init : sum_list_with initing (serves s) ≠ 0%nat ->
    stopChan s = COpen /\ stopWg s = 0%nat /\ user s = UFree;
  i_one : (sum_list_with initing (serves s) <= 1)%nat;
  i_loop : Forall (loop_ok s) (loops s);
  i_conn : Forall conn_ok (conns s)
}.

Lemma inv_initial : inv init.
Proof. split; try done. simpl. lia. Qed.

Lemma counted_loop_le w : (counted_loop w <= 1)%nat.
Proof. unfold counted_loop. case_match; lia. Qed.

Ltac fields := cbn [stopChan stopWg user listening next started serves loops conns reqs lost log crashed
  set_chan set_wg set_user set_listening set_next set_started set_serves set_loops set_conns set_reqs
  set_lost say crash move_serve move_loop move_conn move_req admit_conn
  l_pc l_workers c_id c_workers c_pc c_reader c_writer c_queue c_closed conn_to] in *.

(** Splits the guards of a step and names the state it leads to. *)
Ltac step_cases H :=
  cbn in H; repeat (case_match; simplify_eq/=; try done).

Lemma initing_in s : Initing ∉ serves s -> sum_list_with initing (serves s) = 0%nat.
Proof.
  intros Hn. destruct (decide (sum_list_with initing (serves s) = 0%nat)) as [|Hz]; [done|].
  destruct (sum_some _ _ Hz) as (i & p & Hp & Hne). destruct p; try done.
  by apply list_elem_of_lookup_2 in Hp.
Qed.

(** What replacing an element does to the counts. *)
Ltac sum_facts :=
  rewrite ?sum_list_with_app; cbn [sum_list_with];
  repeat match goal with
  | |- context [sum_list_with ?f (<[?i := ?y]> ?l)] =>
      match goal with H : l !! i = Some ?x |- _ =>
        let E := fresh "E" in pose proof (sum_insert f l i x y H) as E;
        pose proof (sum_pos f l i x H);
        generalize dependent (sum_list_with f (<[i := y]> l)); intros end
  end.

Ltac count := unfold counted_loop, counted_conn, initing in *; fields; simplify_eq/=; lia.

Lemma loops_ok_eq s s' ws : listening s' = listening s -> Forall (loop_ok s) ws -> Forall (loop_ok s') ws.
Proof. intros E H. eapply Forall_impl; [exact H|]. intros w. unfold loop_ok. by rewrite E. Qed.

Lemma loops_put s s' ws i w : listening s' = listening s -> Forall (loop_ok s) ws ->
  loop_ok s' w -> Forall (loop_ok s') (<[i := w]> ws).
Proof. intros E H Hw. apply Forall_insert; [by eapply loops_ok_eq|done]. Qed.

(** Where nothing is counted, every loop has ended. *)
Lemma no_loop s ws : sum_list_with counted_loop ws = 0%nat -> Forall (loop_ok s) ws.
Proof.
  intros Hz. apply Forall_lookup. intros i w Hw. pose proof (sum_zero _ _ Hz i w Hw) as E.
  unfold counted_loop, loop_ok in *. by destruct (l_pc w).
Qed.

Ltac start_inv :=
  match goal with I : inv ?s |- _ =>
    destruct I as [? Hwg Hnil Hus Hini Hone Hlp Hcn];
    destruct (decide (sum_list_with initing (serves s) = 0%nat)) as [Hz|Hz];
    [|destruct (Hini Hz) as (Hco & Hw0 & Huf)];
    unfold user_ok in Hus; destruct (user s) eqn:Hu; try done
  end.

Ltac inv_goal :=
  split; unfold user_ok, conn_to in *; fields; sum_facts; cbn [initing counted_loop counted_conn l_pc c_pc] in *;
  try done; try lia; try congruence;
  try (by eapply loops_ok_eq; [|eassumption]);
  try (by eapply loops_put; [| eassumption|]);
  repeat match goal with H : user ?s = _ |- context [user ?s] => rewrite H end;
  try (intuition (congruence || lia)).

Lemma serve_step_inv s l s' : inv s -> serve_step s l = Some s' -> inv s'.
Proof.
  intros I H. destruct l; try done; cbn in H.
  - simplify_eq. start_inv; inv_goal.
  - destruct (serves s !! i) as [[]|] eqn:Ei; try done.
    destruct (stopChan s) eqn:Ech; simplify_eq; start_inv; inv_goal.
  - destruct (serves s !! i) as [[]|] eqn:Ei; try done.
    pose proof (sum_pos initing _ _ _ Ei) as Hpos. cbn in Hpos.
    destruct ok; [destruct (listening s) eqn:El|]; simplify_eq; start_inv; try lia; inv_goal.
    rewrite Forall_app. split; [|by repeat constructor]. apply no_loop. lia.
  - destruct (serves s !! i) as [[]|] eqn:Ei; try done.
    destruct (stopWg s) eqn:Ew; simplify_eq; start_inv; inv_goal.
Qed.

Lemma stop_step_inv s l s' : inv s -> in_time s l -> stop_step s l = Some s' -> inv s'.
Proof.
  intros I Ht H. destruct l; try done; cbn in H, Ht.
  - destruct Ht as [Hc Hn%initing_in].
    start_inv. destruct (stopChan s) eqn:Ech; simplify_eq; inv_goal.
  - start_inv; destruct (stopChan s) eqn:Ech; simplify_eq; inv_goal.
  - start_inv; destruct (stopWg s) eqn:Ew; simplify_eq; inv_goal.
  - start_inv; simplify_eq; inv_goal.
Qed.

Lemma loop_ok_closed s w : listening s = false -> loop_ok s w.
Proof. unfold loop_ok. by case_match. Qed.

Lemma wg_done_counted s : (1 <= stopWg s)%nat -> wg_done s = set_wg s (pred (stopWg s)).
Proof. unfold wg_done. destruct (stopWg s); [lia|done]. Qed.

Lemma loop_step_inv s l s' : inv s -> loop_step s l = Some s' -> inv s'.
Proof.
  intros I H. pose proof (i_wg s I) as Hwgs. destruct l; try done; cbn in H;
    (destruct (loops s !! i) as [[pc ws]|] eqn:Ei; [cbn in H|done]);
    pose proof (sum_pos counted_loop _ _ _ Ei) as Hpos; cbn in Hpos;
    pose proof (Forall_lookup_1 _ _ _ _ (i_loop s I) Ei) as Hok; unfold loop_ok in Hok; cbn in Hok;
    repeat (case_match; simplify_eq/=; try done);
    cbn in Hpos; rewrite ?wg_done_counted by lia; start_inv; try lia; inv_goal.
  - apply Forall_true. intros w. by apply loop_ok_closed.
  - rewrite Forall_app. split; [done|]. by repeat constructor.
  - rewrite Forall_app. split; [done|]. by repeat constructor.
  - rewrite Forall_app. split; [done|]. by repeat constructor.
Qed.

Lemma conn_of_ok s j c : inv s -> conns s !! j = Some c -> conn_ok c.
Proof. intros I Hc. exact (Forall_lookup_1 _ _ _ _ (i_conn s I) Hc). Qed.

Ltac conn_case I :=
  match goal with H : context [conns ?s !! ?j] |- _ =>
    let E := fresh "Ej" in let Hok := fresh "Hok" in
    destruct (conns s !! j) as [[? ? pc rd wr qu cl]|] eqn:E; [cbn in H|done];
    pose proof (conn_of_ok s j _ I E) as Hok; unfold conn_ok in Hok; cbn in Hok;
    pose proof (sum_pos counted_conn _ _ _ E); fields
  end.

Lemma handle_step_inv s l s' : inv s -> handle_step s l = Some s' -> inv s'.
Proof.
  intros I H. pose proof (i_wg s I) as Hwgs. destruct l; try done; cbn in H; conn_case I;
    repeat (case_match; simplify_eq/=; try done);
    rewrite ?wg_done_counted by (cbn in *; lia); start_inv; try lia; inv_goal.
  all: apply Forall_insert; [done|]; unfold conn_ok; cbn; naive_solver.
Qed.

Lemma reader_step_inv s l s' : inv s -> reader_step s l = Some s' -> inv s'.
Proof.
  intros I H. pose proof (i_wg s I) as Hwgs. destruct l; try done; cbn in H; conn_case I;
    repeat (case_match; simplify_eq/=; try done); start_inv; try lia; inv_goal.
  all: apply Forall_insert; [done|]; unfold conn_ok; cbn; naive_solver.
Qed.

Lemma writer_step_inv s l s' : inv s -> writer_step s l = Some s' -> inv s'.
Proof.
  intros I H. pose proof (i_wg s I) as Hwgs. destruct l; try done; cbn in H; conn_case I;
    repeat (case_match; simplify_eq/=; try done); start_inv; try lia; inv_goal.
  all: apply Forall_insert; [done|]; unfold conn_ok; cbn; naive_solver.
Qed.

Lemma request_step_inv s l s' : inv s -> request_step s l = Some s' -> inv s'.
Proof.
  intros I H. pose proof (i_wg s I) as Hwgs. destruct l; try done; cbn in H;
    (destruct (reqs s !! k) as [[qc qw qp]|] eqn:Eq; [cbn in H|done]); try conn_case I;
    repeat (case_match; simplify_eq/=; try done); start_inv; try lia; inv_goal.
  all: apply Forall_insert; [done|]; unfold conn_ok; cbn; naive_solver.
Qed.

Lemma run_inv_step s l s' : inv s -> timely_step s l s' -> inv s'.
Proof.
  intros I [H Ht]. unfold step, do_step in H. rewrite (i_crash s I) in H.
  destruct l; cbv beta iota in H; lazymatch type of H with
  | serve_step _ _ = _ => exact (serve_step_inv _ _ _ I H)
  | stop_step _ _ = _ => exact (stop_step_inv _ _ _ I Ht H)
  | loop_step _ _ = _ => exact (loop_step_inv _ _ _ I H)
  | handle_step _ _ = _ => exact (handle_step_inv _ _ _ I H)
  | reader_step _ _ = _ => exact (reader_step_inv _ _ _ I H)
  | writer_step _ _ = _ => exact (writer_step_inv _ _ _ I H)
  | request_step _ _ = _ => exact (request_step_inv _ _ _ I H)
  end.
Qed.

Lemma run_reachable_inv ls s : steps timely_step init ls s -> inv s.
Proof. apply steps_invariant; [apply run_inv_step|apply inv_initial]. Qed.

(** ** Connections are accounted for *)

Definition held (w : Loop) : list nat :=
  match l_pc w with
  | LSelect (Returned r) | LSelect (Told r) | LStopping (Returned r) | LStopping (Told r) | LGot r => option_list r
  | _ => []
  end.

Definition all_accepted (s : State) : list nat := map c_id (conns s) ++ lost s ++ concat (map held (loops s)).

Definition accounted (s : State) : Prop := all_accepted s ≡ₚ seq 0 (next s).

Lemma concat_insert (l : list Loop) i x y : l !! i = Some x ->
  concat (map held (<[i := y]> l)) ++ held x ≡ₚ concat (map held l) ++ held y.
Proof.
  revert i. induction l as [|z l IH]; intros [|i] H; simplify_eq/=; [solve_Permutation|].
  rewrite <- !app_assoc. by rewrite IH.
Qed.

Lemma ids_insert (l : list Conn) j c c' : l !! j = Some c -> c_id c' = c_id c ->
  map c_id (<[j := c']> l) = map c_id l.
Proof.
  intros H E. change (map c_id (<[j := c']> l)) with (c_id <$> <[j := c']> l).
  rewrite list_fmap_insert, E. apply list_insert_id. by rewrite list_lookup_fmap, H.
Qed.

(** A step that changes the loops alone and holds on to what it held. *)
Lemma loop_keeps s s' i w w' : accounted s -> loops s !! i = Some w ->
  loops s' = <[i := w']> (loops s) -> conns s' = conns s -> next s' = next s -> lost s' = lost s ->
  held w' = held w -> accounted s'.
Proof.
  unfold accounted, all_accepted. intros Ha Hi -> -> -> -> Hh.
  pose proof (concat_insert (loops s) i w w' Hi) as Hc. rewrite Hh in Hc.
  apply Permutation_app_inv_r in Hc. by rewrite Hc.
Qed.

Lemma conn_keeps s s' j c c' : accounted s -> conns s !! j = Some c ->
  conns s' = <[j := c']> (conns s) -> next s' = next s -> lost s' = lost s -> loops s' = loops s ->
  c_id c' = c_id c -> accounted s'.
Proof.
  unfold accounted, all_accepted. intros Ha Hj -> -> -> -> Hid. by erewrite ids_insert.
Qed.

Lemma same_keeps s s' : accounted s -> conns s' = conns s -> next s' = next s -> lost s' = lost s ->
  loops s' = loops s -> accounted s'.
Proof. unfold accounted, all_accepted. by intros Ha -> -> -> ->. Qed.

Lemma loop_step_accounted s l s' : accounted s -> loop_step s l = Some s' -> accounted s'.
Proof.
  intros Ha H. destruct l; try done; cbn in H;
    (destruct (loops s !! i) as [[pc ws]|] eqn:Ei; [cbn in H|done]);
    repeat (case_match; simplify_eq/=; try done);
    try (eapply loop_keeps; [exact Ha|exact Ei|done..]).
  all: unfold accounted, all_accepted in *; fields;
    match goal with |- context [<[_ := ?w']> _] => pose proof (concat_insert (loops s) i _ w' Ei) as Hc end;
    cbn [held l_pc option_list] in Hc; rewrite ?app_nil_r in Hc.
  - rewrite Hc, seq_S, <- Ha. solve_Permutation.
  - rewrite Hc, seq_S, <- Ha. solve_Permutation.
  - rewrite <- Ha, <- Hc. solve_Permutation.
  - rewrite <- Ha, <- Hc, map_app. cbn [map c_id]. solve_Permutation.
  - unfold wg_done. destruct (stopWg s); fields; by rewrite Hc.
Qed.

Lemma step_accounted s l s' : accounted s -> step s l s' -> accounted s'.
Proof.
  intros Ha H. unfold step, do_step in H. destruct (crashed s); [done|].
  destruct l; cbv beta iota in H; lazymatch type of H with
  | loop_step _ _ = _ => exact (loop_step_accounted _ _ _ Ha H)
  | serve_step _ _ = _ => cbn in H
  | stop_step _ _ = _ => cbn in H
  | handle_step _ _ = _ => cbn in H
  | reader_step _ _ = _ => cbn in H
  | writer_step _ _ = _ => cbn in H
  | request_step _ _ = _ => cbn in H
  end; unfold mbind, option_bind in H.
  all: repeat (case_match; simplify_eq; try done).
  all: try match goal with H : Some _ = Some _ |- _ => injection H as <- end.
  all: try (by eapply same_keeps; [exact Ha|..]).
  all: try (by eapply conn_keeps; [exact Ha|eassumption|..]).
  - unfold accounted, all_accepted in *. fields. rewrite map_app, concat_app. cbn. by rewrite app_nil_r.
  - eapply conn_keeps; [exact Ha|eassumption|..]; unfold wg_done; by destruct (stopWg s).
Qed.

Lemma reachable_accounted ls s : steps step init ls s -> accounted s.
Proof. by apply steps_invariant; [apply step_accounted|apply Permutation_refl]. Qed.

Lemma steps_any s ls s' : steps timely_step s ls s' -> steps step s ls s'.
Proof. induction 1 as [|? ? ? ? ? [? _]]; econstructor; eauto. Qed.

(** ** Stop returns *)

(** What a goroutine can still do without the outside. *)
Definition serve_weight (p : serve_pc) : nat :=
  match p with Starting => 20 | Initing => 19 | SWait => 1 | SEnded => 0 end.
Definition user_weight (p : user_pc) : nat :=
  match p with UClosing => 3 | UWaiting => 2 | UClearing => 1 | UFree => 0 end.
Definition loop_weight (w : Loop) : nat :=
  match l_pc w with
  | LSelect (Returned _) => 40 | LSelect (Told _) => 39 | LGot _ => 38 | LPause => 20 | LTop => 11
  | LSelect Accepting => 10 | LStopping Accepting => 6 | LStopping (Returned _) => 5
  | LStopping (Told _) => 4 | LDone => 3 | LEnded => 0
  end.
Definition conn_weight (c : Conn) : nat :=
  (match c_pc c with CSelect => 3 | CWait => 2 | CEnded => 0 end +
   match c_reader c with RSlot => 5 | RRead => 1 | REnded => 0 end +
   (if c_writer c then 1 else 0) + c_queue c)%nat.
Definition req_weight (q : Req) : nat :=
  match q_pc q with QEnded => 0 | _ => 3 end.

Definition weight (s : State) : nat :=
  (user_weight (user s) + sum_list_with serve_weight (serves s) + sum_list_with loop_weight (loops s) +
   sum_list_with conn_weight (conns s) + sum_list_with req_weight (reqs s))%nat.

Definition gain (l : label) : nat := if outside l then 31 else 0.

Lemma conn_weight_eq id w pc rd wr qu cl : conn_weight (mkConn id w pc rd wr qu cl) =
  (match pc with CSelect => 3 | CWait => 2 | CEnded => 0 end +
   match rd with RSlot => 5 | RRead => 1 | REnded => 0 end + (if wr then 1 else 0) + qu)%nat.
Proof. done. Qed.

Lemma step_weight s l s' : inv s -> timely_step s l s' -> (weight s' < weight s + gain l)%nat.
Proof.
  intros I [H _]. unfold step, do_step in H. rewrite (i_crash s I) in H.
  assert (user s = UClosing -> stopChan s = COpen) as Hclosing.
  { pose proof (i_user s I) as Hu. unfold user_ok in Hu. intros E. by rewrite E in Hu. }
  clear I. destruct l; cbv beta iota in H; cbn in H; unfold mbind, option_bind in H;
    repeat (case_match; simplify_eq; try done);
    try match goal with H : Some _ = Some _ |- _ => injection H as <- end;
    try (by specialize (Hclosing ltac:(done)));
    repeat match goal with
    | w : Loop |- _ => destruct w | c : Conn |- _ => destruct c | q : Req |- _ => destruct q end;
    simplify_eq/=;
    unfold weight, gain, wg_done, conn_to; try case_match; fields; sum_facts;
    repeat match goal with H : user _ = _ |- _ => rewrite H end;
    cbn [serve_weight user_weight outside loop_weight conn_weight req_weight
         l_pc c_pc c_reader c_writer c_queue q_pc] in *;
    rewrite ?conn_weight_eq in *; repeat case_match; try lia; simplify_eq/=; try lia.
Qed.

(** A goroutine can go on by itself. *)
Definition moves (s : State) : Prop := exists l s', outside l = false /\ timely_step s l s'.

Ltac moving l := exists l; eexists; split; [done|]; split; [|done]; unfold step, do_step;
  repeat match goal with H : crashed _ = _ |- _ => rewrite H end; cbn;
  repeat match goal with
  | H : ?l !! ?i = Some _ |- context [?l !! ?i] => rewrite H; cbn
  | H : stopChan _ = _ |- _ => rewrite H
  | H : listening _ = _ |- _ => rewrite H
  end; cbn; reflexivity.

Lemma loop_moves s i w : inv s -> stopChan s = CClosed -> loops s !! i = Some w ->
  counted_loop w ≠ 0%nat -> moves s.
Proof.
  intros I Hc Hi Hw. pose proof (i_crash s I) as Hcr.
  pose proof (Forall_lookup_1 _ _ _ _ (i_loop s I) Hi) as Hok. unfold loop_ok in Hok.
  destruct w as [[|a|[]|[]| | |] ws]; cbn in Hok, Hw; try done.
  - moving (Listen i).
  - moving (SelectStop i).
  - moving (AcceptClosed i).
  - moving (Tell i).
  - moving (StopAccepted i).
  - moving (Test_ i).
  - moving (Test_ i).
  - moving (PauseStop i).
  - moving (LoopDone i).
Qed.

Lemma conn_moves s j c : inv s -> stopChan s = CClosed -> conns s !! j = Some c ->
  counted_conn c ≠ 0%nat -> moves s.
Proof.
  intros I Hc Hj Hw. pose proof (i_crash s I) as Hcr. pose proof (conn_of_ok s j c I Hj) as Hok.
  destruct c as [id ws [] rd wr qu cl]; unfold conn_ok in Hok; cbn in Hok, Hw; simplify_eq; try done.
  - exists (ConnSelect j). eexists. split; [done|]. split; [|done]. unfold step, do_step. rewrite Hcr. cbn.
    rewrite Hj. cbn. rewrite (bool_decide_eq_true_2 (stopChan s = CClosed)) by done. by rewrite orb_true_r.
  - destruct rd.
    + moving (ReadClosed j).
    + moving (SlotStop j).
    + destruct wr; [destruct qu|].
      * moving (WriteStop j).
      * moving (Write_ j).
      * moving (ConnDone j).
Qed.

Lemma stop_moves s : inv s -> user s ≠ UFree -> moves s.
Proof.
  intros I Hu. pose proof (i_user s I) as Hok. unfold user_ok in Hok. pose proof (i_crash s I) as Hcr.
  destruct (user s) eqn:E; try done.
  - exists Close_. eexists. split; [done|]. split; [|done]. unfold step, do_step. rewrite Hcr. cbn.
    by rewrite E, Hok.
  - destruct (decide (stopWg s = 0%nat)) as [Hz|Hz].
    { exists Wait_. eexists. split; [done|]. split; [|done]. unfold step, do_step. rewrite Hcr. cbn. by rewrite E, Hz. }
    rewrite (i_wg s I) in Hz.
    destruct (decide (sum_list_with counted_loop (loops s) = 0%nat)) as [Hl|Hl].
    + destruct (sum_some counted_conn (conns s)) as (j & c & Hj & Hc); [lia|]. by eapply conn_moves.
    + destruct (sum_some _ _ Hl) as (i & w & Hi & Hw). by eapply loop_moves.
  - exists Clear_. eexists. split; [done|]. split; [|done]. unfold step, do_step. rewrite Hcr. cbn. by rewrite E.
Qed.

(** How often the outside intervened. *)
Definition interventions (ls : list label) : nat := sum_list_with (fun l => if outside l then 1 else 0) ls.

Lemma weight_bound s ls s' : inv s -> steps timely_step s ls s' ->
  (length ls + weight s' <= weight s + 31 * interventions ls)%nat.
Proof.
  intros I Hs. induction Hs as [|s l s1 ls s2 H1 _ IH]; [simpl; lia|].
  specialize (IH (run_inv_step _ _ _ I H1)). pose proof (step_weight _ _ _ I H1) as Hw.
  unfold interventions, gain in *. simpl. destruct (outside l); lia.
Qed.

(** C10 A [Stop] of a started server (one whose [Start] has returned) returns whatever the handlers and the clients
    do: in every state that is reached while [Stop] is under way some goroutine of
    the server can go on by itself, and only boundedly many such steps are taken
    between two events from outside (a call, a connection, a request read, a failure,
    the return of a handler). *)
Theorem Stop_returns ls0 s ls s' : steps timely_step init ls0 s -> steps timely_step s ls s' ->
  (length ls <= weight s + 31 * interventions ls)%nat /\ (user s' ≠ UFree -> moves s').
Proof.
  intros H0 H1. pose proof (run_reachable_inv _ _ H0) as I. split.
  - pose proof (weight_bound _ _ _ I H1). lia.
  - apply stop_moves. apply (run_reachable_inv (ls0 ++ ls)). by eapply steps_app.
Qed.

Lemma loops_ended (s : State) : sum_list_with counted_loop (loops s) = 0%nat ->
  Forall (fun w => l_pc w = LEnded) (loops s).
Proof.
  intros Hz. apply Forall_lookup. intros i w Hi. pose proof (sum_zero counted_loop (loops s) Hz i w Hi) as E.
  unfold counted_loop in E. by destruct (l_pc w).
Qed.

Lemma nothing_held ws : Forall (fun w => l_pc w = LEnded) ws -> concat (map held ws) = [].
Proof. induction 1 as [|w ws Hw _ IH]; [done|]. cbn. rewrite IH. unfold held. by rewrite Hw. Qed.

Lemma stop_cleared s s' : inv s -> timely_step s Clear_ s' ->
  stopChan s' = CNil /\ user s' = UFree /\ loops s' = loops s /\ listening s' = listening s.
Proof.
  intros I [Hc _]. unfold step, do_step in Hc. rewrite (i_crash s I) in Hc. cbn in Hc.
  destruct (user s); by simplify_eq.
Qed.

(** A loop that has not yet come to its end. *)
Definition accepting (w : Loop) : bool :=
  match l_pc w with LTop | LSelect _ | LGot _ | LPause => true | LStopping _ | LDone | LEnded => false end.

(** Who keeps the address bound: a loop that still accepts, or one that was stopped
    in its pause. *)
Definition bound_ok (h : list label) (s : State) : Prop :=
  listening s = true -> Exists (fun w => accepting w = true) (loops s) \/ exists i, PauseStop i ∈ h.

Lemma accepting_put ws i w w' : ws !! i = Some w -> (accepting w = true -> accepting w' = true) ->
  Exists (fun w => accepting w = true) ws -> Exists (fun w => accepting w = true) (<[i := w']> ws).
Proof.
  rewrite !Exists_exists. intros Hi Hw (v & Hv & Ha). apply list_elem_of_lookup_1 in Hv as [j Hj].
  destruct (decide (i = j)) as [<-|Hne].
  - exists w'. split; [|simplify_eq; auto]. apply (list_elem_of_lookup_2 _ i).
    apply list_lookup_insert_eq. by eapply lookup_lt_Some.
  - exists v. split; [|done]. apply (list_elem_of_lookup_2 _ j). by rewrite list_lookup_insert_ne.
Qed.

Lemma step_bound h s l s' : bound_ok h s -> step s l s' -> bound_ok (h ++ [l]) s'.
Proof.
  intros Hb H Hl'.
  assert (forall i, l = PauseStop i -> exists i, PauseStop i ∈ h ++ [l]) as Hpause.
  { intros i ->. exists i. apply elem_of_app. right. by left. }
  assert (listening s = true -> loops s' = loops s -> Exists (fun w => accepting w = true) (loops s') \/
    exists i, PauseStop i ∈ h ++ [l]) as Hsame.
  { intros Hl ->. destruct (Hb Hl) as [|[i Hi]]; [by left|]. right. exists i. apply elem_of_app. by left. }
  assert (forall i w w', listening s = true -> loops s !! i = Some w -> loops s' = <[i := w']> (loops s) ->
    (accepting w = true -> accepting w' = true) ->
    Exists (fun w => accepting w = true) (loops s') \/ exists i, PauseStop i ∈ h ++ [l]) as Hput.
  { intros i w w' Hl Hi -> Hw. destruct (Hb Hl) as [He|[k Hk]]; [left; by eapply accepting_put|].
    right. exists k. apply elem_of_app. by left. }
  unfold step, do_step in H. destruct (crashed s); [done|].
  destruct l; cbn in H; unfold mbind, option_bind, wg_done in H;
    repeat (case_match; simplify_eq; try done);
    try match goal with H : Some _ = Some _ |- _ => injection H as <- end; fields;
    try congruence; try (by apply Hsame); try (right; by eapply Hpause);
    try (left; apply Exists_app; right; by constructor);
    try (eapply Hput; [done|eassumption|reflexivity|];
         unfold accepting; cbn; repeat match goal with H : l_pc _ = _ |- _ => rewrite H end; done).
Qed.

Lemma stop_bound ls s : steps step init ls s -> bound_ok ls s.
Proof. apply steps_history; [intros h a l b; apply step_bound|]. by intros ?. Qed.

(** C4 When [Stop] returns (the caller calling it only of a server whose [Start] has
    returned, which the code does not see to: [stop_overtakes_start]), the loop has
    ended and so has every connection that was handed to a goroutine: its reader and
    its writer have ended and it is closed.  The wait group is zero and the channel
    is nil again; every connection that was accepted is either one of these or one of
    those lost when the loop stopped; and the address is free again unless a loop was
    stopped in its pause after a failed [Accept] ([stop_keeps_listener]). *)
Theorem Stop_waits ls s s' : steps timely_step init ls s -> timely_step s Clear_ s' ->
  stopWg s' = 0%nat /\ user s' = UFree /\ stopChan s' = CNil /\
  Forall (fun w => l_pc w = LEnded) (loops s') /\
  Forall (fun c => c_pc c = CEnded /\ c_closed c = true /\ c_reader c = REnded /\ c_writer c = false) (conns s') /\
  map c_id (conns s') ++ lost s' ≡ₚ seq 0 (next s') /\
  (listening s' = false \/ exists i, PauseStop i ∈ ls).
Proof.
  intros Hs Hc. pose proof (run_reachable_inv _ _ Hs) as I. pose proof (run_inv_step _ _ _ I Hc) as I'.
  pose proof (step_accounted _ _ _ (reachable_accounted _ _ (steps_any _ _ _ Hs)) (proj1 Hc)) as Ha.
  pose proof (stop_bound _ _ (steps_any _ _ _ Hs)) as Hb.
  destruct (stop_cleared _ _ I Hc) as (Hn & Hu & Hls & Hli).
  pose proof (i_nil s' I' Hn) as Hz. pose proof (i_wg s' I') as Hwg.
  assert (Forall (fun w => l_pc w = LEnded) (loops s')) as Hl by (apply loops_ended; lia).
  split_and!; try done.
  - apply Forall_lookup. intros j c Hj. pose proof (sum_zero counted_conn (conns s') ltac:(lia) j c Hj) as E.
    pose proof (conn_of_ok _ _ _ I' Hj) as Hok. unfold counted_conn, conn_ok in *. by destruct (c_pc c).
  - unfold accounted, all_accepted in Ha. by rewrite (nothing_held _ Hl), app_nil_r in Ha.
  - rewrite Hli. destruct (listening s) eqn:E; [right|by left]. destruct (Hb E) as [He|]; [|done].
    rewrite <- Hls in He. apply Exists_exists in He as (w & Hw & Hacc).
    rewrite Forall_forall in Hl. unfold accepting in Hacc. by rewrite (Hl w Hw) in Hacc.
Qed.

#[export] Instance in_time_dec s l : Decision (in_time s l).
Proof. destruct l; apply _. Defined.

(** Run a list of labels in which every [Stop] comes in time. *)
Fixpoint orderly (s : State) (ls : list label) : option State :=
  match ls with
  | [] => Some s
  | l :: ls => if decide (in_time s l) then s' ← do_step s l; orderly s' ls else None
  end.

Lemma orderly_steps s ls s' : orderly s ls = Some s' -> steps timely_step s ls s'.
Proof.
  revert s. induction ls as [|l ls IH]; intros s H; [by injection H as ->; constructor|].
  cbn in H. destruct (decide (in_time s l)); [|done].
  destruct (do_step s l) as [s1|] eqn:E; [|done]. econstructor; [by split|by apply IH].
Qed.

Lemma play_steps s ls s' : play s ls = Some s' -> steps step s ls s'.
Proof.
  revert s. induction ls as [|l ls IH]; intros s H; [by injection H as ->; constructor|].
  cbn in H. destruct (do_step s l) as [s1|] eqn:E; [|done]. econstructor; [done|by apply IH].
Qed.

End limits.

(** ** Runs *)

Module Runs.

(** A server is started and accepts a connection; a request of it is being handled
    when the server is stopped. *)
Definition up : list label := [Serve_; Start_ 0; Init_ 0 true; Listen 0].
Definition one_conn : list label := [Accept 0; Tell 0; SelectAccepted 0; Test_ 0; Listen 0].
Definition one_request : list label := [ReadReq 0; Slot 0].
Definition stop_loop : list label := [Stop_; Close_; SelectStop 0; AcceptClosed 0; Tell 0; StopAccepted 0; LoopDone 0].
Definition end_conn : list label := [ConnSelect 0; ReadClosed 0; WriteStop 0; ConnDone 0].

Definition after (ls : list label) : State := default init (orderly 2 2 init ls).

Definition busy : list label := up ++ one_conn ++ one_request ++ stop_loop ++ end_conn ++ [Wait_].
Definition before_clear : State := Eval vm_compute in after busy.
Definition stopped : State := Eval vm_compute in after (busy ++ [Clear_]).

Lemma busy_run : steps (timely_step 2 2) init busy before_clear.
Proof. apply orderly_steps. vm_compute. reflexivity. Qed.

Lemma Stop_waits_witness : steps (timely_step 2 2) init busy before_clear /\ timely_step 2 2 before_clear Clear_ stopped /\
  stopWg stopped = 0%nat /\ map c_id (conns stopped) ++ lost stopped ≡ₚ seq 0 (next stopped).
Proof.
  assert (timely_step 2 2 before_clear Clear_ stopped) as Hc by (split; [vm_compute; reflexivity|done]).
  pose proof (Stop_waits 2 2 busy before_clear stopped busy_run Hc) as (Hw & _ & _ & _ & _ & Ha & _).
  split; [exact busy_run|]. split; [exact Hc|]. split; [exact Hw|exact Ha].
Defined.

Lemma Stop_returns_witness : steps (timely_step 2 2) init busy before_clear /\
  (length busy <= weight init + 31 * interventions busy)%nat /\ (user before_clear ≠ UFree -> moves 2 2 before_clear).
Proof.
  split; [exact busy_run|].
  exact (Stop_returns 2 2 [] init busy before_clear (steps_nil _ _) busy_run).
Defined.

(** The requests in hand are not waited for: [Stop] has returned, and the handler of
    a request still runs. *)
Example handlers_outlive_stop : user stopped = UFree /\ stopChan stopped = CNil /\
  reqs stopped = [mkReq 0 0 QHandling].
Proof. vm_compute. done. Qed.

(** Where [select] finds both the stop and an accepted connection, it may take the
    stop: the connection is neither served nor closed. *)
Example stop_loses_connection : exists s,
  orderly 2 2 init (up ++ [Accept 0; Tell 0; Stop_; Close_; SelectStop 0; StopAccepted 0; LoopDone 0; Wait_; Clear_])
    = Some s /\ user s = UFree /\ conns s = [] /\ lost s = [0%nat].
Proof. eexists. split; [vm_compute; reflexivity|]. vm_compute. done. Qed.

(** Stopped in the pause after a failed [Accept], the server does not close its
    listener: the address stays bound, a new start cannot bind it, and as that
    failure leaves the channel set, every later start panics. *)
Definition paused_stop : list label :=
  up ++ [AcceptFails 0; Tell 0; SelectAccepted 0; Test_ 0; Stop_; Close_; PauseStop 0; LoopDone 0; Wait_; Clear_].

Example stop_keeps_listener : exists s, orderly 2 2 init paused_stop = Some s /\
  user s = UFree /\ stopWg s = 0%nat /\ listening s = true /\
  play 2 2 s [Serve_; Start_ 1; Init_ 1 true] = None /\
  exists s', play 2 2 s [Serve_; Start_ 1; Init_ 1 false; Serve_; Start_ 2] = Some s' /\
    log s' = log s ++ [CannotListen; PanicRecovered] /\ loops s' = loops s.
Proof.
  eexists. split; [vm_compute; reflexivity|]. split_and!; [vm_compute; reflexivity..|].
  eexists. split; [vm_compute; reflexivity|]. vm_compute. done.
Qed.

(** [Serve] returns before its goroutine has run [Start]: a [Stop] right after it
    finds a nil channel and panics. *)
Example stop_right_after_serve : exists s, play 2 2 init [Serve_; Stop_] = Some s /\ crashed s = true.
Proof. eexists. split; vm_compute; reflexivity. Qed.

(** A [Stop] while the address is being bound returns with nothing to wait for; then
    the server comes up, and the next [Stop] panics. *)
Example stop_overtakes_start : exists s,
  play 2 2 init [Serve_; Start_ 0; Stop_; Close_; Wait_; Clear_; Init_ 0 true; Listen 0; Accept 0; Tell 0;
                 SelectAccepted 0; Test_ 0] = Some s /\
  user s = UFree /\ length (conns s) = 1%nat /\ crashed s = false /\
  exists s', play 2 2 s [Stop_] = Some s' /\ crashed s' = true.
Proof.
  eexists. split; [vm_compute; reflexivity|]. split_and!; [vm_compute; reflexivity..|].
  eexists. split; vm_compute; reflexivity.
Qed.

End Runs.

End ServerStop.
