(* ===== verification/RpcEndToEnd.v ===== *)
(** * An RPC call from end to end

    [Invoke] and [DogInvoke] on one side, the codecs in both directions, the
    dispatcher and a registered handler on the other: what the caller gets is what
    the handler returned. *)

From S2P Require Import Prelude Derror GoStd Encoding Gl RpcServer RpcClient.
Import Derror RpcServer RpcClient GoStd Encoding.

Module RpcEndToEnd.

Section wire.
Context {P : Type} `{Codec P} {W : Type}.

(** One request over a connection to a server that answers with [serve]: what
    [CallRetry] returns when nothing times out.  A packet that cannot be encoded or
    decoded ends the connection, which the caller sees as an error. *)
Definition over_the_wire (serve : Packet -> M W Packet) (req : Packet) : M W call_result :=
  match encode req (mkWriter [] None) with
  | (Ret None, w) =>
      match decode (w_out w) with
      | (Ret (inl p), _) =>
          rsp ← serve (inject p);
          match encode rsp (mkWriter [] None) with
          | (Ret None, w') =>
              match decode (w_out w') with
              | (Ret (inl q), _) => mret (Some (inject q), None)
              | _ => mret (None, Some RpcClient.InternalServerError)
              end
          | _ => mret (None, Some RpcClient.InternalServerError)
          end
      | _ => mret (None, Some RpcClient.InternalServerError)
      end
  | _ => mret (None, Some RpcClient.InternalServerError)
  end.

Lemma over_the_wire_ok serve p q w w' :
  wf p -> wf q -> serve (inject (recv p)) w = (Ret (inject q), w') ->
  over_the_wire serve (inject p) w = (Ret (Some (inject (recv q)), None), w').
Proof.
  intros Hp Hq Hs. unfold over_the_wire. rewrite (encode_ok p []) by done. cbn [w_out app].
  rewrite <- (app_nil_r (bytes_of p)), decode_ok by done.
  unfold mbind, M_bind. rewrite Hs. rewrite (encode_ok q []) by done. cbn [w_out app].
  rewrite <- (app_nil_r (bytes_of q)), decode_ok by done. done.
Qed.
End wire.

Section calls.
Context {C : Type} {SS : Gl.StrStore C Gl.glmap} {U : Type}.
Variable Marshal : LogData -> option string.
Implicit Types (w : @W C U) (hs : gmap Z (@RpcHandlerFunc C U)) (st : @filters C U).

Definition value_of {A} (r : outcome A * @W C U) : outcome A := r.1.

(** C1 A call is a call: when a handler is registered for the command and no filter
    is installed, [Invoke] over the wire gives the caller the code and body the
    handler returns on the request's body (a nil body arrives empty), provided the
    sizes fit the 32-bit length field. *)
Theorem invoke_end_to_end hs st g a cmd req (f : @RpcHandlerFunc C U) code body w w' sq :
  Filters st = [] -> hs !! cmd = Some f -> isU 32 cmd -> isU 32 (globalSeq sq) ->
  f (Some (slice_bytes req)) w = (Ret (code, body), w') ->
  isU 32 code -> body_len req + 16 < 2 ^ 32 -> body_len body + 16 < 2 ^ 32 ->
  outcome_of (Invoke (inl (fun p => value_of (over_the_wire (P := RpcPacket)
    (dispatchPacket Marshal hs st g a) p w))) cmd req) sq
  = Ret (code, Some (slice_bytes body), None).
Proof.
  intros Hst Hf Hcmd Hsq Hrun Hcode Hreq Hbody. set (n := u32 (globalSeq sq + 1)).
  assert (isU 32 n) as Hn by by apply wrapU_range.
  assert (rpc_wf (NewRpcPacketWithRet cmd req n 0)) as Hp by (by apply NewRpcPacketWithRet_wf).
  assert (rpc_wf (NewRpcPacketWithRet cmd body n code)) as Hq by (by apply NewRpcPacketWithRet_wf).
  pose proof (over_the_wire_ok (P := RpcPacket) (dispatchPacket Marshal hs st g a)
    _ _ w w' Hp Hq) as Hw. cbn [inject recv RpcCodec] in Hw.
  unfold outcome_of, Invoke, NewRpcPacket, nextSeq, mbind, M_bind. fold n.
  unfold mret, M_ret, NewRpcPacketWithSeq, value_of. rewrite Hw; [done|].
  unfold dispatchPacket. set (p := rpc_recv _).
  change (r_Cmd p) with cmd. change (r_Seq p) with n. change (r_Body p) with (Some (slice_bytes req)).
  rewrite Hf.
  unfold Filters_Handle. rewrite Hst. cbn [ctx_Handler ctx_Req].
  unfold mbind, M_bind, handlerWithRecover, recovering. by rewrite Hrun.
Qed.

(** The same for the checked protocol: [DogInvoke] gives the caller the
    handler's code and body if neither the marshalled request nor the reply is the
    nil slice. *)
Theorem dog_invoke_end_to_end {R} (json : R -> option (list byte)) hs st g a cmd (req : R) rb (f : @RpcHandlerFunc C U) code body w w' sq :
  Filters st = [] -> hs !! cmd = Some f -> isU 32 cmd -> isU 32 (globalDogSeq sq) ->
  json req = Some rb -> f (Some rb) w = (Ret (code, Some body), w') ->
  isU 32 code -> len rb + 24 < 2 ^ 32 -> len body + 24 < 2 ^ 32 ->
  outcome_of (DogInvoke json (inl (fun p => value_of (over_the_wire (P := DogPacket)
    (dogDispatchPacket Marshal hs st g a) p w))) cmd (Some req)) sq
  = Ret (code, Some body, None).
Proof.
  intros Hst Hf Hcmd Hsq Hj Hrun Hcode Hreq Hbody. set (n := u32 (globalDogSeq sq + 1)).
  assert (isU 32 n) as Hn by by apply wrapU_range.
  assert (dog_wf (NewDogPacketWithRet cmd (Some rb) n 0)) as Hp by (by apply NewDogPacketWithRet_wf).
  assert (dog_wf (NewDogPacketWithRet cmd (Some body) n code)) as Hq by (by apply NewDogPacketWithRet_wf).
  pose proof (over_the_wire_ok (P := DogPacket) (dogDispatchPacket Marshal hs st g a)
    _ _ w w' Hp Hq) as Hw. cbn [inject recv DogCodec] in Hw.
  unfold outcome_of, DogInvoke, NewDogPacket, nextDogSeq. cbn [option_bind]. 
  unfold mbind at 1, M_bind at 1. unfold mbind at 1, M_bind at 1. fold n.
  unfold mret at 1, M_ret at 1, NewDogPacketWithSeq, value_of.
  unfold mbind at 1, option_bind. rewrite Hj. rewrite Hw; [done|].
  unfold dogDispatchPacket.
  change (h_Cmd (d_Header (NewDogPacketWithRet cmd (Some rb) n 0))) with cmd.
  change (h_Seq (d_Header (NewDogPacketWithRet cmd (Some rb) n 0))) with n.
  change (d_Body (NewDogPacketWithRet cmd (Some rb) n 0)) with (Some rb).
  rewrite Hf. unfold Filters_Handle. rewrite Hst. cbn [ctx_Handler ctx_Req].
  unfold mbind, M_bind, handlerWithRecover, recovering. by rewrite Hrun.
Qed.
End calls.

Lemma invoke_end_to_end_witness :
  outcome_of (Invoke (inl (fun p => value_of (over_the_wire (P := RpcPacket)
    (dispatchPacket marshal_ok demo_handlers no_filters 0 "peer") p w0))) 1 (Some [x41])) (mkSeqs 0 0)
  = Ret (0, Some [x41], None).
Proof. by apply (invoke_end_to_end marshal_ok demo_handlers no_filters 0 "peer" 1 (Some [x41]) echo 0
  (Some [x41]) w0 w0). Defined.

Lemma dog_invoke_end_to_end_witness :
  outcome_of (DogInvoke (fun n : nat => Some [x7b; x7d]) (inl (fun p => value_of (over_the_wire (P := DogPacket)
    (dogDispatchPacket marshal_ok demo_handlers no_filters 0 "peer") p w0))) 1 (Some 3%nat)) (mkSeqs 0 0)
  = Ret (0, Some [x7b; x7d], None).
Proof. by apply (dog_invoke_end_to_end marshal_ok (fun n : nat => Some [x7b; x7d]) demo_handlers no_filters
  0 "peer" 1 3%nat [x7b; x7d] echo 0 [x7b; x7d] w0 w0). Defined.

End RpcEndToEnd.
