(* ===== verification/Gr.v ===== *)
(** * Goroutine pools ([runtime/gr])

    A pool limits how many submitted functions run at once with a buffered channel
    used as a semaphore.  The pools of a program are modelled together: each
    submission names its pool, so that a [GoRoutinePoolWithConfig] is a family of
    pools with a routing function.  Functions are abstract; one may panic. *)

From S2P Require Import Prelude.

Module Gr.

Section pools.
(** Names of pools, and submitted functions with whether they panic. *)
Context {K F : Type} `{EqDecision K} (panics : F -> bool).

(* [runtime/gr/goroutine_helper.go:13-17] FixedGoroutinePool *)
(* the [Size] of every pool; [semaphoreChan] and [wg] are counters of the state *)
Record Pool : Type := mkPool { Size : Z; Timeout : Z }.

(** Submissions wait (blocked in [semaphoreChan <- true]), run or have ended;
    [timed_out] are those refused with [TIMTOUR_Err]; [sem k] is the number of
    tokens in the channel of pool [k]. *)
Record State : Type := mkState {
  waiting : list (K * F); run_ : list (K * F); ended : list (K * F); timed_out : list (K * F);
  sem : K -> Z; crashed : bool
}.

Definition upd (sem : K -> Z) (k : K) (d : Z) : K -> Z :=
  fun k' => if decide (k' = k) then sem k' + d else sem k'.

Variable pools : K -> Pool.

Inductive label : Type := LStart (k : K) (f : F) | LEnd (k : K) (f : F) | LTimeout (k : K) (f : F) | LCrash (k : K) (f : F).

(** A blocked submission gets its token when the channel has room, the goroutine
    starts, and gives the token back when the function ends.  A pool with a
    positive [Timeout] may refuse a blocked submission instead. *)
(* [runtime/gr/goroutine_helper.go:24-87] Execute, ExecuteWithArg *)
Inductive step : State -> label -> State -> Prop :=
| step_start k f w1 w2 r e t sm : sm k < Size (pools k) ->
    step (mkState (w1 ++ (k, f) :: w2) r e t sm false) (LStart k f)
         (mkState (w1 ++ w2) (r ++ [(k, f)]) e t (upd sm k 1) false)
| step_end k f w r1 r2 e t sm : panics f = false ->
    step (mkState w (r1 ++ (k, f) :: r2) e t sm false) (LEnd k f)
         (mkState w (r1 ++ r2) (e ++ [(k, f)]) t (upd sm k (-1)) false)
| step_timeout k f w1 w2 r e t sm : 0 < Timeout (pools k) ->
    step (mkState (w1 ++ (k, f) :: w2) r e t sm false) (LTimeout k f)
         (mkState (w1 ++ w2) r e (t ++ [(k, f)]) sm false)
| step_crash k f w r1 r2 e t sm : panics f = true ->
    step (mkState w (r1 ++ (k, f) :: r2) e t sm false) (LCrash k f)
         (mkState w (r1 ++ (k, f) :: r2) e t sm true).

(** [Start] makes the channel, which panics for a negative size. *)
(* [runtime/gr/goroutine_helper.go:19-22] Start *)
Definition Start (k : K) : M State unit :=
  if Size (pools k) <? 0 then panic "makechan: size out of range"
  else modify (fun s => mkState (waiting s) (run_ s) (ended s) (timed_out s)
         (fun k' => if decide (k' = k) then 0 else sem s k') (crashed s)).

Definition submitted (l : list (K * F)) : State := mkState l [] [] [] (fun _ => 0) false.

Definition in_pool (k : K) (l : list (K * F)) : list (K * F) := filter (fun x => x.1 = k) l.

Definition inv (l : list (K * F)) (s : State) : Prop :=
  (forall k, sem s k = len (in_pool k (run_ s)) /\ sem s k <= Z.max 0 (Size (pools k))) /\
  waiting s ++ run_ s ++ ended s ++ timed_out s ≡ₚ l.

Lemma in_pool_app k l l' : in_pool k (l ++ l') = in_pool k l ++ in_pool k l'.
Proof. apply filter_app. Qed.

Lemma in_pool_one k k' f : len (in_pool k [(k', f)]) = if decide (k = k') then 1 else 0.
Proof.
  unfold in_pool. rewrite filter_cons. cbn [fst].
  destruct (decide (k' = k)), (decide (k = k')); by (congruence || done).
Qed.

Lemma in_pool_mid k k' f l1 l2 :
  len (in_pool k (l1 ++ (k', f) :: l2)) = len (in_pool k (l1 ++ l2)) + if decide (k = k') then 1 else 0.
Proof.
  change ((k', f) :: l2) with ([(k', f)] ++ l2). rewrite !in_pool_app, !len_app, in_pool_one. lia.
Qed.

Lemma pool_inv_step l s a s' : inv l s -> step s a s' -> inv l s'.
Proof.
  intros [Hs Hp] Hst. destruct Hst; cbn [waiting run_ ended timed_out sem] in *; split;
    cbn [waiting run_ ended timed_out sem].
  2, 4, 6: rewrite <- Hp; solve_Permutation.
  - intros k0. specialize (Hs k0) as [Hs Hb]. unfold upd. rewrite in_pool_app, len_app, in_pool_one.
    destruct (decide (k0 = k)) as [->|]; lia.
  - intros k0. specialize (Hs k0) as [Hs Hb]. rewrite in_pool_mid in Hs. unfold upd.
    destruct (decide (k0 = k)); lia.
  - done.
  - done.
  - done.
Qed.

Definition measure (s : State) : nat := (2 * length (waiting s) + length (run_ s))%nat.

Definition no_crash (a : label) : Prop := match a with LCrash _ _ => False | _ => True end.

Lemma pool_step_measure s a s' : no_crash a -> step s a s' -> (measure s' < measure s)%nat.
Proof.
  intros Ha Hst. unfold measure. destruct Hst; try done; cbn [waiting run_];
    rewrite ?length_app; simpl; lia.
Qed.

Lemma pool_reachable l ls s : steps step (submitted l) ls s -> inv l s.
Proof.
  apply (steps_invariant step); [apply pool_inv_step|]. split; cbn; [|by rewrite app_nil_r].
  intros k. split; [done|]. cbn [sem submitted]. lia.
Qed.

(** While no function panics, a pool with room for one can always go on. *)
Definition sane (s : State) : Prop :=
  Forall (fun x => 0 < Size (pools x.1) /\ panics x.2 = false) (waiting s ++ run_ s).

Lemma pool_progress l s : inv l s -> crashed s = false -> sane s -> measure s ≠ 0%nat ->
  exists a s', no_crash a /\ step s a s'.
Proof.
  intros [Hs Hp] Hc Hr Hm. destruct s as [w r e t sm c]. unfold sane in Hr.
  cbn [waiting run_ ended timed_out sem crashed] in *. subst c. apply Forall_app in Hr as [Hw Hr].
  destruct r as [|[k f] r].
  - destruct w as [|[k f] w]; [done|]. exists (LStart k f). eexists. split; [done|].
    apply (step_start k f []). destruct (Hs k) as [-> _]. by apply Forall_cons in Hw as [[? _] _].
  - apply Forall_cons in Hr as [[_ Hf] _]. exists (LEnd k f). eexists. split; [done|].
    by apply (step_end k f _ []).
Qed.

Lemma no_crash_keeps s a s' : no_crash a -> step s a s' -> crashed s' = false.
Proof. intros Ha Hst. by destruct Hst. Qed.

Lemma sane_step s a s' : sane s -> step s a s' -> sane s'.
Proof.
  unfold sane. intros Hs Hst. destruct Hst; cbn [waiting run_] in *;
    rewrite ?Forall_app, ?Forall_cons in *; try done; naive_solver.
Qed.

Lemma sane_no_crash s a s' : sane s -> step s a s' -> no_crash a.
Proof.
  unfold sane. intros Hs Hst. destruct Hst; try done. cbn [waiting run_] in *.
  rewrite !Forall_app, Forall_cons in Hs. destruct Hs as (_ & _ & [_ Hf] & _). cbn in Hf. congruence.
Qed.

(** C40 The pools, under any interleaving: never more functions of a pool run at
    once than its size, and each submitted function is in exactly one place:
    still blocked, running, ended, or refused by a time-out. *)
Theorem pool_bounded (l : list (K * F)) ls s :
  steps step (submitted l) ls s ->
  (forall k, len (in_pool k (run_ s)) <= Z.max 0 (Size (pools k))) /\
  waiting s ++ run_ s ++ ended s ++ timed_out s ≡ₚ l.
Proof.
  intros Hs. destruct (pool_reachable _ _ _ Hs) as [Hi Hp]. split; [|done].
  intros k. by destruct (Hi k) as [<- ?].
Qed.

(** If functions are only submitted to pools of positive size and none of them panics, every
    run is finite (two steps per function) and ends with all functions executed,
    or refused by the time-out of their pool. *)
Theorem pool_drains (l : list (K * F)) ls s :
  Forall (fun x => 0 < Size (pools x.1) /\ panics x.2 = false) l ->
  steps step (submitted l) ls s ->
  (length ls <= 2 * length l)%nat /\
  ((forall a s', ~ step s a s') -> ended s ++ timed_out s ≡ₚ l).
Proof.
  intros Hl Hs.
  assert (sane s /\ crashed s = false) as [Hsane Hcr].
  { revert Hs. apply (steps_invariant step (fun s => sane s /\ crashed s = false)).
    - intros a lb b [Ha Hc] Hst. split; [by eapply sane_step|].
      eapply no_crash_keeps; [by eapply sane_no_crash|done].
    - split; [|done]. unfold sane. cbn. by rewrite app_nil_r. }
  split.
  - assert (forall s0 ls s1, sane s0 -> steps step s0 ls s1 -> (length ls + measure s1 <= measure s0)%nat) as Hm.
    { intros s0 ls0 s1 H0 H. induction H as [|s0 a s1 ls' s2 H1 H2 IH]; [simpl; lia|].
      pose proof (pool_step_measure _ _ _ (sane_no_crash _ _ _ H0 H1) H1).
      specialize (IH (sane_step _ _ _ H0 H1)). simpl. lia. }
    assert (sane (submitted l)) as H0 by (unfold sane; cbn; by rewrite app_nil_r).
    specialize (Hm _ _ _ H0 Hs). unfold measure at 2 in Hm. simpl in Hm. lia.
  - intros Hmax. pose proof (pool_reachable _ _ _ Hs) as Hi.
    destruct (decide (measure s = 0%nat)) as [Hz|Hz].
    + destruct Hi as [_ Hp]. unfold measure in Hz.
      destruct (waiting s), (run_ s); try (simpl in Hz; lia). done.
    + destruct (pool_progress l s Hi Hcr Hsane Hz) as (a & s' & _ & Hst). by destruct (Hmax a s').
Qed.

Lemma in_pool_cons_nil k k' f l1 l2 : in_pool k (l1 ++ (k', f) :: l2) = [] ->
  k ≠ k' /\ in_pool k (l1 ++ l2) = [].
Proof.
  intros H. pose proof (in_pool_mid k k' f l1 l2) as Hm. rewrite H in Hm.
  pose proof (len_nonneg (in_pool k (l1 ++ l2))). rewrite len_nil in Hm.
  destruct (decide (k = k')); [lia|]. split; [done|].
  destruct (in_pool k (l1 ++ l2)); [done|]. rewrite len_cons in Hm. pose proof (len_nonneg l). lia.
Qed.

Lemma in_pool_other k k' f : k ≠ k' -> in_pool k [(k', f)] = [].
Proof. intros Hne. unfold in_pool. by rewrite filter_cons_False by (cbn; congruence). Qed.

Lemma zero_step k l s a s' : Size (pools k) = 0 -> Timeout (pools k) <= 0 -> inv l s ->
  in_pool k (run_ s) = [] -> in_pool k (ended s) = [] -> in_pool k (timed_out s) = [] ->
  step s a s' ->
  in_pool k (run_ s') = [] /\ in_pool k (ended s') = [] /\ in_pool k (timed_out s') = [].
Proof.
  intros Hz Ht [Hs _] H1 H2 H3 Hst. specialize (Hs k) as [Hs _].
  destruct Hst as [k0 f w1 w2 r e t sm Hlt|k0 f w r1 r2 e t sm Hf|k0 f w1 w2 r e t sm Hlt|k0 f w r1 r2 e t sm Hf];
    cbn [run_ ended timed_out sem waiting] in *.
  - assert (k ≠ k0) as Hne. { intros <-. rewrite H1, len_nil in Hs. lia. }
    rewrite (in_pool_app k r), H1, in_pool_other by done. done.
  - apply in_pool_cons_nil in H1 as [Hne H1]. rewrite (in_pool_app k e), H2, in_pool_other by done. done.
  - assert (k ≠ k0) as Hne by (intros <-; lia).
    rewrite (in_pool_app k t), H3, in_pool_other by done. done.
  - done.
Qed.

(** A pool of size 0 without a time-out never runs anything: [Start] accepts the
    size and every submission then blocks for ever. *)
Theorem pool_size_zero k (l : list (K * F)) ls s :
  Size (pools k) = 0 -> Timeout (pools k) <= 0 -> steps step (submitted l) ls s ->
  in_pool k (waiting s) ≡ₚ in_pool k l /\ (Start k (submitted l)).1 = Ret tt.
Proof.
  intros Hz Ht Hs. split.
  - assert (in_pool k (run_ s) = [] /\ in_pool k (ended s) = [] /\ in_pool k (timed_out s) = [])
      as (Hr & He & Hto).
    { cut (inv l s /\ in_pool k (run_ s) = [] /\ in_pool k (ended s) = [] /\ in_pool k (timed_out s) = []);
        [naive_solver|]. revert Hs. apply (steps_invariant step (fun s => inv l s /\
        in_pool k (run_ s) = [] /\ in_pool k (ended s) = [] /\ in_pool k (timed_out s) = [])).
      - intros a lb b (Hi & H1 & H2 & H3) Hst. split; [by eapply pool_inv_step|].
        by eapply (zero_step k).
      - split; [by eapply pool_reachable, steps_nil|done]. }
    destruct (pool_reachable _ _ _ Hs) as [_ Hp].
    assert (in_pool k (waiting s ++ run_ s ++ ended s ++ timed_out s) ≡ₚ in_pool k l) as Hk
      by (unfold in_pool; by rewrite Hp).
    rewrite !in_pool_app, Hr, He, Hto, !app_nil_r in Hk. exact Hk.
  - unfold Start. by rewrite Hz.
Qed.
End pools.

(** ** Pools with reserved sizes *)

(* [runtime/gr/goroutine_helper.go:94-99] GoRoutinePoolWithConfig *)
Record GoRoutinePoolWithConfig : Type := mkConfig {
  DefaultSize : Z; ReservedConfig : gmap string Z
}.

(** The pools made by [Start]: the reserved ones by key, and the default pool. *)
Definition config_pools (g : GoRoutinePoolWithConfig) (k : option string) : Pool :=
  match k with
  | Some key => mkPool (default 0 (ReservedConfig g !! key)) 0
  | None => mkPool (DefaultSize g) 0
  end.

(** The reserved pools are made first, then the default size is checked. *)
(* [runtime/gr/goroutine_helper.go:101-122] GoRoutinePoolWithConfig.Start *)
Definition Start_config (g : GoRoutinePoolWithConfig) : outcome (option string) :=
  if decide (map_Forall (fun _ v => 0 <= v) (ReservedConfig g)) then
    if DefaultSize g <? 1
    then Ret (Some ("invalid pool default size " +:+ itoa (DefaultSize g))) else Ret None
  else Panic "makechan: size out of range".

(* [runtime/gr/goroutine_helper.go:124-135] ExecuteDefault, ExecuteKey *)
Definition ExecuteKey {F} (g : GoRoutinePoolWithConfig) (key : option string) (f : F) : option string * F :=
  match key with
  | None => (None, f)
  | Some key => (match ReservedConfig g !! key with Some _ => Some key | None => None end, f)
  end.

(** A started pool family routes each keyed function to its reserved pool if
    there is one and to the default pool otherwise, so a reserved key never holds
    more than its size, everything else together never more than the default
    size; with positive reserved sizes all functions that do not panic are run. *)
Theorem config_pools_share {F} (panics : F -> bool) g (subs : list (option string * F)) ls s :
  Start_config g = Ret None -> map_Forall (fun _ v => 0 < v) (ReservedConfig g) ->
  Forall (fun x => panics x.2 = false) subs ->
  steps (step panics (config_pools g)) (submitted (map (fun x => ExecuteKey g x.1 x.2) subs)) ls s ->
  (forall key n, ReservedConfig g !! key = Some n -> len (in_pool (Some key) (run_ s)) <= n) /\
  len (in_pool None (run_ s)) <= DefaultSize g /\
  ((forall a s', ~ step panics (config_pools g) s a s') ->
    ended s ++ timed_out s ≡ₚ map (fun x => ExecuteKey g x.1 x.2) subs).
Proof.
  intros Hst Hpos Hf Hs. unfold Start_config in Hst. destruct (decide _) as [Hall|]; [|done].
  destruct (Z.ltb_spec (DefaultSize g) 1); [done|].
  destruct (pool_bounded _ _ _ _ _ Hs) as [Hb _]. split; [|split].
  - intros key n Hn. specialize (Hb (Some key)). cbn in Hb. rewrite Hn in Hb. cbn in Hb.
    specialize (Hpos _ _ Hn). cbn in Hpos. lia.
  - specialize (Hb None). cbn [config_pools Size] in Hb. lia.
  - apply (pool_drains panics (config_pools g) _ ls s); [|done].
    apply Forall_fmap. eapply Forall_impl; [exact Hf|]. intros [[key|] f] Hp; cbn in *.
    + destruct (ReservedConfig g !! key) as [n|] eqn:Hn; cbn; [|split; [lia|done]].
      rewrite Hn. split; [by apply (Hpos key)|done].
    + split; [lia|done].
Qed.

(** ** Groups of tasks to stop ([stopable_task_group.go]) *)

Section group.
Context {T : Type}.

(** [taskList]; a nil list and an empty one behave alike. *)
(* [runtime/gr/stopable_task_group.go:29-36] AddTask *)
Definition AddTask (task : T) (taskList : list T) : list T := taskList ++ [task].

(** The tasks closed, each by a goroutine of its own started in this order. *)
(* [runtime/gr/stopable_task_group.go:49-67] WaitStopAll *)
Definition WaitStopAll (taskList : list T) : list T * list T := (rev taskList, []).

Inductive group_op : Type := OAdd (t : T) | OClose.

Fixpoint run_group (ops : list group_op) (taskList : list T) : list T * list T :=
  match ops with
  | [] => ([], taskList)
  | OAdd t :: ops' => run_group ops' (AddTask t taskList)
  | OClose :: ops' =>
      let '(closed, rest) := WaitStopAll taskList in
      let '(closed', rest') := run_group ops' rest in (closed ++ closed', rest')
  end.

Definition added (ops : list group_op) : list T :=
  omap (fun o => match o with OAdd t => Some t | OClose => None end) ops.

Lemma run_group_perm ops l :
  (run_group ops l).1 ++ (run_group ops l).2 ≡ₚ l ++ added ops.
Proof.
  revert l. induction ops as [|[t|] ops IH]; intros l; cbn [run_group added omap list_omap].
  - by rewrite app_nil_r.
  - rewrite IH. unfold AddTask. by rewrite <- app_assoc.
  - unfold WaitStopAll. specialize (IH []). destruct (run_group ops []) as [c r]. cbn in *.
    rewrite <- app_assoc, IH. cbn.
    apply Permutation_app; [symmetry; apply Permutation_rev|done].
Qed.

(** Whatever sequence of [AddTask] and [Close] calls a group sees, each task is
    closed exactly once if a [Close] follows its addition, and waits otherwise. *)
Theorem group_closes_once (ops : list group_op) :
  (run_group ops []).1 ++ (run_group ops []).2 ≡ₚ added ops /\
  (run_group (ops ++ [OClose]) []).1 ≡ₚ added ops.
Proof.
  split; [apply run_group_perm|].
  assert (forall l, (run_group (ops ++ [OClose]) l).2 = []) as Hnil.
  { induction ops as [|[t|] ops IH]; intros l; cbn; [done|apply IH|].
    specialize (IH []). by destruct (run_group (ops ++ [OClose]) []). }
  pose proof (run_group_perm (ops ++ [OClose]) []) as H. rewrite Hnil, app_nil_r in H.
  rewrite H. unfold added. rewrite omap_app. cbn. by rewrite app_nil_r.
Qed.
End group.

(** ** Concrete runs *)

Definition never : nat -> bool := fun _ => false.

Lemma one_run k (pools : option string -> Pool) : 0 < Size (pools k) ->
  exists s, steps (step never pools) (submitted [(k, 1%nat)]) [LStart k 1%nat; LEnd k 1%nat] s /\
    run_ s = [] /\ ended s = [(k, 1%nat)] /\ timed_out s = [] /\ waiting s = [].
Proof.
  intros Hsz. exists (mkState [] [] [(k, 1%nat)] [] (upd (upd (fun _ => 0) k 1) k (-1)) false).
  split; [|done].
  econstructor; [by apply (step_start never pools k 1%nat [] [])|].
  econstructor; [by apply (step_end never pools k 1%nat _ [] [])|]. apply steps_nil.
Qed.

Lemma pool_bounded_witness :
  exists s, (forall k, len (in_pool k (run_ s)) <= Z.max 0 (Size (mkPool 2 0))) /\
    waiting s ++ run_ s ++ ended s ++ timed_out s ≡ₚ [(Some "a", 1%nat)].
Proof.
  destruct (one_run (Some "a") (fun _ => mkPool 2 0)) as (s & Hs & _); [done|]. exists s.
  apply (pool_bounded never (fun _ => mkPool 2 0) _ _ _ Hs).
Defined.

Lemma pool_drains_witness :
  exists s, (2 <= 2 * 1)%nat /\
    ((forall a s', ~ step never (fun _ => mkPool 2 0) s a s') -> ended s ++ timed_out s ≡ₚ [(Some "a", 1%nat)]).
Proof.
  destruct (one_run (Some "a") (fun _ => mkPool 2 0)) as (s & Hs & _); [done|]. exists s.
  refine (pool_drains never (fun _ => mkPool 2 0) _ _ _ _ Hs). by repeat constructor.
Defined.

Lemma pool_size_zero_witness :
  in_pool (Some "a") [(Some "a", 1%nat)] ≡ₚ in_pool (Some "a") [(Some "a", 1%nat)] /\
  (Start (fun _ : option string => mkPool 0 0) (Some "a") (submitted [(Some "a", 1%nat)])).1 = Ret tt.
Proof.
  apply (pool_size_zero never (fun _ => mkPool 0 0) (Some "a") _ [] (submitted [(Some "a", 1%nat)]));
    [done|done|apply steps_nil].
Defined.

Definition demo_config : GoRoutinePoolWithConfig := mkConfig 2 {["a" := 1]}.

Lemma config_pools_share_witness :
  exists s, (forall key n, ReservedConfig demo_config !! key = Some n ->
      len (in_pool (Some key) (run_ s)) <= n) /\
    len (in_pool None (run_ s)) <= 2 /\
    ((forall a s', ~ step never (config_pools demo_config) s a s') ->
      ended s ++ timed_out s ≡ₚ map (fun x => ExecuteKey demo_config x.1 x.2) [(Some "b", 1%nat)]).
Proof.
  destruct (one_run None (config_pools demo_config)) as (s & Hs & _); [done|]. exists s.
  apply (config_pools_share never demo_config [(Some "b", 1%nat)] [LStart None 1%nat; LEnd None 1%nat] s);
    [done| |by repeat constructor|exact Hs].
  by apply map_Forall_singleton.
Defined.

End Gr.
