(* ===== verification/GrClose.v ===== *)
(** * Closing a pool ([runtime/gr/goroutine_helper.go])

    The life of a started pool from its first submission to its close: what the
    goroutines that submit, run and close do to the semaphore channel and the wait
    group, one operation at a time. *)

From S2P Require Import Prelude Gr.

Module GrClose.

Section pool.
(** Submitted functions, and whether they panic; the pool's size and its time-out,
    which is not positive where there is none. *)
Context {F : Type} (panics : F -> bool) (pool : Gr.Pool).

(** Where a goroutine stands.  A submission sends to the channel, adds to the wait
    group, and is then the goroutine that runs the function, receives from the
    channel and tells the wait group. *)
Inductive thread : Type :=
| Sending (f : F) | Adding (f : F) | Running (f : F) | Receiving (f : F) | Doing (f : F) | Ended (f : F) | TimedOut (f : F)
| Closing | Waiting | Returned.

(** The values in [semaphoreChan], whether it is closed, and the wait group. *)
Record shared : Type := mkShared { sem : nat; closed : bool; wg : nat }.

(** What a goroutine may do next: nothing where it waits, several things where the
    program chooses, and [None] where it panics.  A closed channel gives what it
    holds and then always something; sending to it, or closing it again, panics. *)
(* [runtime/gr/goroutine_helper.go:24-53] FixedGoroutinePool.Execute, ExecuteWithArg, Close *)
Definition turn (h : shared) (t : thread) : list (option (shared * thread)) :=
  match t with
  | Sending f =>
      (if closed h then [None]
       else if Z.of_nat (sem h) <? Gr.Size pool then [Some (mkShared (S (sem h)) false (wg h), Adding f)] else []) ++
      (if 0 <? Gr.Timeout pool then [Some (h, TimedOut f)] else [])
  | Adding f => [Some (mkShared (sem h) (closed h) (S (wg h)), Running f)]
  | Running f => if panics f then [None] else [Some (h, Receiving f)]
  | Receiving f =>
      match sem h with
      | S n => [Some (mkShared n (closed h) (wg h), Doing f)]
      | O => if closed h then [Some (h, Doing f)] else []
      end
  | Doing f =>
      match wg h with
      | S n => [Some (mkShared (sem h) (closed h) n, Ended f)]
      | O => [None]
      end
  | Closing => if closed h then [None] else [Some (mkShared (sem h) true (wg h), Waiting)]
  | Waiting => if bool_decide (wg h = 0%nat) then [Some (h, Returned)] else []
  | Ended _ | TimedOut _ | Returned => []
  end.

Record State : Type := mkState { chan : shared; threads : list thread; crashed : bool }.

(** A panic in a goroutine ends the process. *)
Inductive step : State -> nat -> State -> Prop :=
| moves h ts i t h' t' : ts !! i = Some t -> Some (h', t') ∈ turn h t ->
    step (mkState h ts false) i (mkState h' (<[i := t']> ts) false)
| crash h ts i t : ts !! i = Some t -> None ∈ turn h t ->
    step (mkState h ts false) i (mkState h ts true).

(** A started pool with its submissions, and [n] goroutines that close it. *)
Definition opened (fs : list F) (n : nat) : State :=
  mkState (mkShared 0 false 0) (map Sending fs ++ replicate n Closing) false.

(** ** What the channel and the wait group count *)

Definition token (t : thread) : nat := match t with Adding _ | Running _ | Receiving _ => 1 | _ => 0 end.
Definition counted (t : thread) : nat := match t with Running _ | Receiving _ | Doing _ => 1 | _ => 0 end.
Definition passed (t : thread) : nat := match t with Waiting | Returned => 1 | _ => 0 end.
(** In [Execute]. *)
Definition pending (t : thread) : nat := match t with Sending _ | Adding _ => 1 | _ => 0 end.
Definition closers (t : thread) : nat := match t with Closing | Waiting | Returned => 1 | _ => 0 end.
Definition weight (t : thread) : nat :=
  match t with
  | Sending _ => 5 | Adding _ => 4 | Running _ => 3 | Receiving _ => 2 | Doing _ => 1
  | Closing => 2 | Waiting => 1 | Ended _ | TimedOut _ | Returned => 0
  end.
Abbreviation total f l := (sum_list_with f l).

Definition inv (h : shared) (ts : list thread) : Prop :=
  sem h = total token ts /\ wg h = total counted ts /\ total passed ts = (if closed h then 1 else 0)%nat.

Lemma inv_opened fs n : inv (chan (opened fs n)) (threads (opened fs n)).
Proof.
  unfold inv, opened. cbn [chan threads sem wg closed]. rewrite !sum_list_with_app, !sum_replicate.
  assert (forall g : thread -> nat, (forall f, g (Sending f) = 0%nat) -> total g (map Sending fs) = 0%nat) as Hz.
  { intros g Hg. induction fs as [|f fs IH]; [done|]. cbn [map sum_list_with]. by rewrite Hg, IH. }
  rewrite !Hz by done. cbn. lia.
Qed.

Ltac turn_cases H :=
  match type of H with _ ∈ turn ?h ?t =>
    destruct t; cbn [turn] in H;
    repeat match type of H with
    | context [if ?b then _ else _] => destruct b eqn:?
    | context [match ?n with O => _ | S _ => _ end] => destruct n eqn:?
    end; cbn [app] in H;
    repeat (rewrite ?elem_of_cons, ?elem_of_nil in H; let H' := fresh in destruct H as [H'|H]; [try discriminate H'; try (injection H' as -> ->)|]);
    try (exfalso; exact H); try (by apply not_elem_of_nil in H)
  end.

Lemma turn_inv h ts i t h' t' : inv h ts -> ts !! i = Some t -> Some (h', t') ∈ turn h t ->
  inv h' (<[i := t']> ts) /\ (weight t' < weight t)%nat.
Proof.
  intros (Hs & Hw & Hp) Hi Ht.
  pose proof (sum_insert token ts i t t' Hi) as Tt. pose proof (sum_insert counted ts i t t' Hi) as Tc.
  pose proof (sum_insert passed ts i t t' Hi) as Tp.
  unfold inv. turn_cases Ht; cbn in *; repeat match goal with E : closed _ = _ |- _ => rewrite E in * end; lia.
Qed.

Definition measure (s : State) : nat := (total weight (threads s) + if crashed s then 0 else 1)%nat.

Lemma close_inv_step s i s' : inv (chan s) (threads s) -> step s i s' ->
  inv (chan s') (threads s') /\ (measure s' < measure s)%nat /\ length (threads s') = length (threads s).
Proof.
  intros Hi Hs. revert Hi. destruct Hs as [h ts i' t h' t' Ht Hin|h ts i' t Ht Hin]; intros Hi; unfold measure;
    cbn [chan threads crashed] in *.
  - destruct (turn_inv h ts i' t h' t' Hi Ht Hin) as [H Hw].
    pose proof (sum_insert weight ts i' t t' Ht). rewrite length_insert. split_and!; [done|lia|done].
  - split_and!; [done|lia|done].
Qed.

Lemma pool_reachable_inv fs n ls s : steps step (opened fs n) ls s -> inv (chan s) (threads s).
Proof.
  apply (steps_invariant step (fun s => inv (chan s) (threads s)));
    [intros a l b Ha Hs; by apply (close_inv_step _ _ _ Ha Hs)|apply inv_opened].
Qed.

(** ** A close after the submissions *)

(** Every submission is past [Execute], nothing panics, and one goroutine closes or
    has closed the pool. *)
Definition quiet (s : State) : Prop :=
  inv (chan s) (threads s) /\ crashed s = false /\ total pending (threads s) = 0%nat /\
  total closers (threads s) = 1%nat /\
  Forall (fun t => match t with Running f => panics f = false | _ => True end) (threads s).

Definition closing (t : thread) : nat := match t with Closing => 1 | _ => 0 end.

Lemma closers_split ts : total closers ts = (total closing ts + total passed ts)%nat.
Proof. induction ts as [|t ts IH]; [done|]. simpl. rewrite IH. destruct t; simpl; lia. Qed.

Lemma quiet_step s i s' : quiet s -> step s i s' -> quiet s'.
Proof.
  intros Hq Hs. assert (inv (chan s') (threads s')) as Hinv by (destruct Hq as [Hi _]; by apply (close_inv_step s i s')).
  revert Hq Hinv. destruct Hs as [h ts i' t h' t' Ht Hin|h ts i' t Ht Hin]; intros ((Hsem & Hwg & Hpass) & _ & Hpe & Hcl & Hpa) Hinv;
    cbn [chan threads crashed] in *; pose proof (sum_zero _ _ Hpe _ _ Ht) as Hpt.
  - split_and!; try done; cbn [threads].
    + pose proof (sum_insert pending ts i' t t' Ht). turn_cases Hin; cbn in *; lia.
    + pose proof (sum_insert closers ts i' t t' Ht). turn_cases Hin; cbn in *; lia.
    + apply Forall_insert; [done|]. turn_cases Hin; cbn in *; done.
  - exfalso. pose proof (closers_split ts) as Hsp. pose proof (sum_pos closing ts _ _ Ht) as Hcp.
    pose proof (sum_pos counted ts _ _ Ht) as Hcc. pose proof (Forall_lookup_1 _ _ _ _ Hpa Ht) as Hpf.
    turn_cases Hin; cbn in *; try congruence; repeat match goal with E : closed _ = _ |- _ => rewrite E in * end; lia.
Qed.

Definition over (t : thread) : Prop := match t with Ended _ | TimedOut _ | Returned => True | _ => False end.

(** Once the close has returned no function runs any more. *)
Definition settled (s : State) : Prop := Returned ∈ threads s -> total counted (threads s) = 0%nat.

Lemma settled_step s i s' : quiet s -> settled s -> step s i s' -> settled s'.
Proof.
  intros Hq Hse Hs. revert Hq Hse. destruct Hs as [h ts i' t h' t' Ht Hin|h ts i' t Ht Hin];
    intros ((Hsem & Hwg & Hpass) & _ & Hpe & _) Hse; [|done].
  unfold settled in *. cbn [chan threads] in *. pose proof (sum_zero _ _ Hpe _ _ Ht) as Hpt.
  pose proof (sum_insert counted ts i' t t' Ht) as Hc. pose proof (sum_pos counted ts _ _ Ht) as Hct.
  intros [j Hj]%list_elem_of_lookup. destruct (decide (j = i')) as [->|Hne].
  - rewrite list_lookup_insert_eq in Hj by (by eapply lookup_lt_Some). injection Hj as ->.
    turn_cases Hin; cbn in *; try done. match goal with E : bool_decide _ = true |- _ => apply bool_decide_eq_true in E end. lia.
  - rewrite list_lookup_insert_ne in Hj by done. specialize (Hse (list_elem_of_lookup_2 _ _ _ Hj)).
    turn_cases Hin; cbn in *; lia.
Qed.

Lemma sum_two (f : thread -> nat) ts i j t u : ts !! i = Some t -> ts !! j = Some u -> i ≠ j ->
  (f t + f u <= total f ts)%nat.
Proof.
  revert i j. induction ts as [|x ts IH]; intros [|i] [|j] Ht Hu Hne; simplify_eq/=; try done.
  - pose proof (sum_pos f ts j u Hu). lia.
  - pose proof (sum_pos f ts i t Ht). lia.
  - specialize (IH i j Ht Hu). lia.
Qed.

Lemma settled_over s : quiet s -> settled s -> Returned ∈ threads s -> Forall over (threads s).
Proof.
  intros (_ & _ & Hpe & Hcl & _) Hse Hr. pose proof (Hse Hr) as Hc. apply list_elem_of_lookup in Hr as [j Hj].
  apply Forall_lookup_2. intros i t Ht. pose proof (sum_zero _ _ Hpe _ _ Ht) as Hpt. pose proof (sum_zero _ _ Hc _ _ Ht) as Hct.
  destruct (decide (i = j)) as [->|Hne]; [by simplify_eq|].
  pose proof (sum_two closers _ _ _ _ _ Ht Hj Hne) as H2. destruct t; cbn in *; try done; lia.
Qed.

(** Where nothing can move, the close has returned. *)
Lemma quiet_stuck s : quiet s -> (forall i s', ~ step s i s') -> Returned ∈ threads s.
Proof.
  intros ((Hsem & Hwg & Hpass) & Hcr & Hpe & Hcl & Hpa) Hstuck. destruct s as [h ts cr]. cbn [chan threads crashed] in *. subst cr.
  assert (forall i t o, ts !! i = Some t -> o ∈ turn h t -> False) as Hno.
  { intros i t [[h' t']|] Ht Ho; [by eapply (Hstuck i _ (moves h ts i t h' t' Ht Ho))|by eapply (Hstuck i _ (crash h ts i t Ht Ho))]. }
  assert (forall i t, ts !! i = Some t -> counted t = 0%nat) as Hc.
  { intros i t Ht. pose proof (sum_pos token ts _ _ Ht). pose proof (sum_pos counted ts _ _ Ht).
    destruct t as [f|f|f|f|f|f|f| | |]; try done; exfalso; cbn in *.
    - apply (Hno i (Running f) (if panics f then None else Some (h, Receiving f)) Ht). cbn. destruct (panics f); by left.
    - destruct (sem h) as [|n] eqn:E; [lia|]. apply (Hno i _ (Some (mkShared n (closed h) (wg h), Doing f)) Ht).
      cbn. rewrite E. by left.
    - destruct (wg h) as [|n] eqn:E; [lia|]. apply (Hno i _ (Some (mkShared (sem h) (closed h) n, Ended f)) Ht).
      cbn. rewrite E. by left. }
  assert (total counted ts = 0%nat) as Hz.
  { destruct (decide (total counted ts = 0%nat)) as [|Hne]; [done|]. destruct (sum_some counted ts Hne) as (i & t & Ht & Hct).
    by rewrite (Hc i t Ht) in Hct. }
  destruct (sum_some closers ts) as (i & t & Ht & Hct); [lia|]. destruct t; try done; [exfalso..|by eapply list_elem_of_lookup_2].
  - pose proof (closers_split ts). pose proof (sum_pos closing ts _ _ Ht). cbn in *.
    destruct (closed h) eqn:E; [lia|]. apply (Hno i Closing (Some (mkShared (sem h) true (wg h), Waiting)) Ht).
    cbn. rewrite E. by left.
  - apply (Hno i Waiting (Some (h, Returned)) Ht). cbn. rewrite bool_decide_eq_true_2 by lia. by left.
Qed.

(** Whoever closes stays a closer, and no goroutine gets another function. *)
Definition calm (n : nat) (s : State) : Prop :=
  total closers (threads s) = n /\
  Forall (fun t => match t with
                   | Sending f | Adding f | Running f | Receiving f | Doing f | Ended f | TimedOut f => panics f = false
                   | _ => True
                   end) (threads s).

Lemma calm_step n s i s' : calm n s -> step s i s' -> calm n s'.
Proof.
  intros Hq Hs. revert Hq. destruct Hs as [h ts i' t h' t' Ht Hin|h ts i' t Ht Hin]; intros [Hc Hp]; [|done].
  unfold calm in *. cbn [threads] in *. pose proof (Forall_lookup_1 _ _ _ _ Hp Ht) as Hpt. split.
  - pose proof (sum_insert closers ts i' t t' Ht). turn_cases Hin; cbn in *; lia.
  - apply Forall_insert; [done|]. turn_cases Hin; cbn in *; done.
Qed.

Lemma calm_opened fs n : Forall (fun f => panics f = false) fs -> calm n (opened fs n).
Proof.
  intros Hp. unfold calm, opened. cbn [threads]. rewrite sum_list_with_app, sum_replicate. split.
  - assert (total closers (map Sending fs) = 0%nat) as -> by (clear Hp; induction fs; cbn; lia). cbn. lia.
  - apply Forall_app. split; [by apply Forall_fmap|by apply Forall_replicate].
Qed.

(** From a pool whose submissions are made and whose close has not begun. *)
Lemma closing_run fs ls s ls' s' : steps step (opened fs 1) ls s -> crashed s = false -> closed (chan s) = false ->
  total pending (threads s) = 0%nat -> Forall (fun f => panics f = false) fs -> steps step s ls' s' ->
  quiet s' /\ settled s'.
Proof.
  intros Hrun Hcr Hcl Hpe Hpa Hrest.
  destruct (steps_invariant step (calm 1) _ _ _ (calm_step 1) (calm_opened fs 1 Hpa) Hrun) as [Hclo Hfs].
  pose proof (pool_reachable_inv _ _ _ _ Hrun) as Hinv.
  assert (quiet s) as Hq by (split_and!; try done; by eapply Forall_impl; [exact Hfs|intros []]).
  assert (settled s) as Hse.
  { intros [j Hj]%list_elem_of_lookup. destruct Hinv as (_ & _ & Hp). rewrite Hcl in Hp.
    pose proof (sum_pos passed _ _ _ Hj). cbn in *. lia. }
  apply (steps_invariant step (fun s => quiet s /\ settled s) s ls' s'); [|done|done].
  intros a l b [Ha Hb] Hs. split; [by eapply quiet_step|by eapply settled_step].
Qed.

Lemma reachable_bound fs n ls s ls' s' : steps step (opened fs n) ls s -> steps step s ls' s' -> (length ls' <= measure s)%nat.
Proof.
  intros Hrun%pool_reachable_inv Hrest. pose proof (steps_bound step (fun s => inv (chan s) (threads s)) measure s ls' s'
    (fun a l b Ha Hs => let '(conj H (conj H' _)) := close_inv_step a l b Ha Hs in conj H H') Hrun Hrest). lia.
Qed.

(** C11 A pool that is closed by one goroutine, when every submission has left
    [Execute] and no function panics, closes: however the goroutines take turns, the
    process does not die, only finitely many steps are left, when nothing can move
    the close has returned, and once it has returned every submitted function has
    run to its end, or was given up by its time-out. *)
Theorem Close_waits fs ls s ls' s' : steps step (opened fs 1) ls s -> crashed s = false -> closed (chan s) = false ->
  total pending (threads s) = 0%nat -> Forall (fun f => panics f = false) fs -> steps step s ls' s' ->
  crashed s' = false /\ (length ls' <= measure s)%nat /\
  ((forall i s'', ~ step s' i s'') -> Returned ∈ threads s') /\
  (Returned ∈ threads s' -> Forall over (threads s')).
Proof.
  intros Hrun Hcr Hcl Hpe Hpa Hrest. destruct (closing_run fs ls s ls' s') as [Hq Hse]; try done.
  split; [apply Hq|]. split; [by eapply reachable_bound|]. split; [by apply quiet_stuck|by apply settled_over].
Qed.

(** ** A close that comes too early *)

Lemma closed_step s i s' j f : closed (chan s) = true -> (crashed s = true \/ threads s !! j = Some (Sending f)) ->
  Gr.Timeout pool <= 0 -> step s i s' ->
  closed (chan s') = true /\ (crashed s' = true \/ threads s' !! j = Some (Sending f)).
Proof.
  intros Hc Hj Hto Hs. revert Hc Hj. destruct Hs as [h ts i' t h' t' Ht Hin|h ts i' t Ht Hin]; cbn [chan threads crashed];
    intros Hc Hj; [|by auto].
  assert (closed h' = true) as Hc' by (turn_cases Hin; cbn in *; congruence).
  split; [done|]. right. destruct Hj as [|Hj]; [done|].
  destruct (decide (i' = j)) as [->|Hne]; [|by rewrite list_lookup_insert_ne].
  exfalso. rewrite Hj in Ht. injection Ht as <-. cbn [turn] in Hin. rewrite Hc in Hin.
  destruct (Z.ltb_spec 0 (Gr.Timeout pool)); [lia|]. by apply elem_of_cons in Hin as [?|?%not_elem_of_nil].
Qed.

(** C35 A submission that is in [Execute] when the pool is closed, and has no time-out,
    kills the process: it never returns, and when nothing can move any more the
    process has died of the send to the closed channel. *)
Theorem Close_kills_waiting fs n ls s j f ls' s' : steps step (opened fs n) ls s -> closed (chan s) = true ->
  threads s !! j = Some (Sending f) -> Gr.Timeout pool <= 0 -> steps step s ls' s' ->
  (length ls' <= measure s)%nat /\ ((forall i s'', ~ step s' i s'') -> crashed s' = true) /\
  (crashed s' = true \/ threads s' !! j = Some (Sending f)).
Proof.
  intros Hrun Hc Hj Hto Hrest.
  assert (closed (chan s') = true /\ (crashed s' = true \/ threads s' !! j = Some (Sending f))) as [Hc' Hj'].
  { apply (steps_invariant step (fun s => closed (chan s) = true /\ (crashed s = true \/ threads s !! j = Some (Sending f))) s ls' s');
      [|by auto|done]. intros a l b [Ha Hb] Hs. by eapply closed_step. }
  split; [by eapply reachable_bound|split; [|done]].
  intros Hstuck. destruct Hj' as [|Hj']; [done|]. destruct s' as [h ts cr]. cbn [chan threads crashed] in *.
  destruct cr; [done|]. exfalso. refine (Hstuck j _ (crash h ts j _ Hj' _)). cbn. rewrite Hc'. by left.
Qed.

(** ** Runs by a schedule *)

(** The goroutine [i] does the first of what it may do. *)
Definition go (s : State) (i : nat) : option State :=
  if crashed s then None else
  match threads s !! i with
  | Some t =>
      match turn (chan s) t with
      | [] => None
      | Some (h', t') :: _ => Some (mkState h' (<[i := t']> (threads s)) false)
      | None :: _ => Some (mkState (chan s) (threads s) true)
      end
  | None => None
  end.

Fixpoint go_all (s : State) (l : list nat) : option State :=
  match l with
  | [] => Some s
  | i :: l => s' ← go s i; go_all s' l
  end.

Lemma go_step s i s' : go s i = Some s' -> step s i s'.
Proof.
  unfold go. destruct s as [h ts []]; [done|]. cbn [crashed threads chan].
  destruct (ts !! i) as [t|] eqn:Ht; [|done]. destruct (turn h t) as [|[[h' t']|] l] eqn:Hl; intros H; simplify_eq.
  - eapply moves; [exact Ht|]. rewrite Hl. by left.
  - eapply crash; [exact Ht|]. rewrite Hl. by left.
Qed.

Lemma go_all_steps l s s' : go_all s l = Some s' -> steps step s l s'.
Proof.
  revert s. induction l as [|i l IH]; intros s H; [injection H as <-; constructor|].
  cbn in H. destruct (go s i) as [s1|] eqn:Hg; [|done]. econstructor; [by apply go_step|by apply IH].
Qed.

End pool.

(** ** Pools of a configuration

    [Close] of a pool with reserved keys closes each of its pools on a goroutine of
    its own and waits for them: every pool runs by itself, and the close has
    returned when each of them has. *)

Section config.
Context {F : Type} (panics : F -> bool) (g : Gr.GoRoutinePoolWithConfig).

Definition pools_of : Type := option string -> State (F := F).

(* [runtime/gr/goroutine_helper.go:136-154] GoRoutinePoolWithConfig.Close *)
Inductive step_config : pools_of -> option string * nat -> pools_of -> Prop :=
| step_pool s k i s' s2 : (forall k', crashed (s k') = false) -> step panics (Gr.config_pools g k) (s k) i s' ->
    s2 = (fun k' => if decide (k' = k) then s' else s k') -> step_config s (k, i) s2.

Definition close_returned (ks : list (option string)) (s : pools_of) : Prop := Forall (fun k => Returned ∈ threads (s k)) ks.

(** What a run does to one pool is a run of the pool. *)
Lemma config_project s ls s' k : steps step_config s ls s' ->
  exists ls', steps (step panics (Gr.config_pools g k)) (s k) ls' (s' k).
Proof.
  induction 1 as [s|s l s1 ls s2 Hs _ [ls' IH]]; [exists []; constructor|].
  destruct Hs as [s k' i s' s2' _ Hs ->]. destruct (decide (k = k')) as [->|Hne].
  - exists (i :: ls'). econstructor; [exact Hs|]. exact IH.
  - exists ls'. exact IH.
Qed.

(** Once the close of such a pool has returned, every function of every pool has run
    to its end. *)
Lemma config_Close_waits (ks : list (option string)) (fs : option string -> list F) s ls' s' :
  Forall (fun k => exists ls, steps (step panics (Gr.config_pools g k)) (opened (fs k) 1) ls (s k) /\ crashed (s k) = false /\
    closed (chan (s k)) = false /\ sum_list_with pending (threads (s k)) = 0%nat /\ Forall (fun f => panics f = false) (fs k)) ks ->
  steps step_config s ls' s' -> close_returned ks s' -> Forall (fun k => Forall over (threads (s' k))) ks.
Proof.
  intros Hks Hrun Hret. apply Forall_forall. intros k Hk. unfold close_returned in Hret.
  rewrite Forall_forall in Hks, Hret. destruct (Hks k Hk) as (ls & Hl & Hcr & Hcl & Hpe & Hpa).
  destruct (config_project s ls' s' k Hrun) as [lk Hsk].
  destruct (closing_run panics (Gr.config_pools g k) (fs k) ls (s k) lk (s' k)) as [Hq Hse]; try done.
  apply (settled_over panics _ Hq Hse), Hret, Hk.
Qed.
End config.

(** ** Examples *)

Module Sample.

Definition one : Gr.Pool := Gr.mkPool 1 0.
Definition calm_fn (_ : nat) : bool := false.

(** A function runs, the pool is closed. *)
Definition submitted : State (F := nat) := default (opened [] 0) (go_all calm_fn one (opened [7%nat] 1) [0; 0]%nat).
Definition done_ : State (F := nat) := default (opened [] 0) (go_all calm_fn one submitted [1; 0; 0; 0; 1]%nat).

Lemma Close_waits_witness : steps (step calm_fn one) submitted [1; 0; 0; 0; 1]%nat done_ /\
  crashed done_ = false /\ Returned ∈ threads done_ /\ Forall over (threads done_).
Proof.
  assert (steps (step calm_fn one) submitted [1; 0; 0; 0; 1]%nat done_) as Hrun by (by apply go_all_steps).
  destruct (Close_waits calm_fn one [7%nat] [0; 0]%nat submitted [1; 0; 0; 0; 1]%nat done_) as (Hc & _ & _ & Ho);
    [by apply go_all_steps|done|done|done|by repeat constructor|exact Hrun|].
  assert (Returned ∈ threads done_) as Hr by (right; left). by split_and!; [|..|apply Ho].
Defined.

(** Two submissions, one waits for the other; the pool is closed. *)
Definition full : State (F := nat) := default (opened [] 0) (go_all calm_fn one (opened [7; 8]%nat 1) [0; 2]%nat).
Definition dead : State (F := nat) := default (opened [] 0) (go_all calm_fn one full [1]%nat).

Lemma Close_kills_waiting_witness : threads full !! 1%nat = Some (Sending 8%nat) /\
  steps (step calm_fn one) full [1]%nat dead /\ (forall i s, ~ step calm_fn one dead i s) /\ crashed dead = true.
Proof.
  assert (forall i s, ~ step calm_fn one dead i s) as Hstuck by (intros i s Hs; inversion Hs).
  assert (steps (step calm_fn one) full [1]%nat dead) as Hrun by (by apply go_all_steps).
  destruct (Close_kills_waiting calm_fn one [7; 8]%nat 1 [0; 2]%nat full 1 8%nat [1]%nat dead) as (_ & Hd & _);
    [by apply go_all_steps|done|done|done|exact Hrun|]. by split_and!; [|..|apply Hd].
Defined.

(** The close returns while a submission is between the channel and the wait group:
    its function starts after that. *)
Example close_overtakes : exists s, go_all calm_fn one (opened [7%nat] 1) [0; 1; 1; 0]%nat = Some s /\
  threads s = [Running 7%nat; Returned].
Proof. by eexists. Qed.

(** Closing twice. *)
Example close_twice : exists s, go_all calm_fn one (opened [] 2) [0; 1]%nat = Some s /\ crashed s = true.
Proof. by eexists. Qed.

End Sample.

End GrClose.
