(* ===== verification/Redis.v ===== *)
(** * The redis cluster client ([databases/redisdb/cluster.go])

    Each method checks that the client exists, calls one command (or a pipeline of
    commands) of the redis library and reports duration and error when it returns.
    The library and the server behind it are parameters: a command is a value of
    [cmd A], [A] the type of its reply.  The log lines of the methods themselves
    (debug output and the list of partial failures) are left out; those of the report
    are events. *)

From Stdlib Require Import Floats.SpecFloat.
From S2P Require Import Prelude GoStd.
Import GoStd.

Module Redis.

(** ** Commands of the redis library *)

(** Replies of scripts, members of sorted sets and arguments of variadic commands
    are [interface{}]; they are passed through. *)
Inductive value : Type := VNil | VStr (s : string) | VInt (z : Z) | VBytes (l : list byte).

Record ZMember : Type := mkZ { Score : spec_float; Member : value }.

Inductive cmd : Type -> Type :=
| CPing : cmd string
| CGet (key : string) : cmd string
| CSet (key value : string) (expire : Z) : cmd string
| CSetNX (key value : string) (expire : Z) : cmd bool
| CDel (key : string) : cmd Z
| CHGet (key field : string) : cmd string
| CHMGet (key : string) (fields : list string) : cmd (list (option string))
| CHScan (key : string) (cursor : Z) (pattern : string) (count : Z) : cmd (list string)
| CHGetAll (key : string) : cmd (gmap string string)
| CHSet (key field value : string) : cmd Z
| CHSetNX (key field value : string) : cmd bool
| CHMSet (key : string) (fields : gmap string string) : cmd bool
| CHDel (key : string) (fields : list string) : cmd Z
| CExpire (key : string) (expiration : Z) : cmd bool
| CPExpire (key : string) (expiration : Z) : cmd bool
| CPTTL (key : string) : cmd Z
| CHIncrBy (key field : string) (incr : Z) : cmd Z
| CIncrBy (key : string) (incr : Z) : cmd Z
| CEval (script : string) (keys : list string) (args : list value) : cmd value
| CEvalSha (sha : string) (keys : list string) (args : list value) : cmd value
| CZAdd (key : string) (members : list ZMember) : cmd Z
| CZRangeByScoreWithScores (key min max : string) (offset count : Z) : cmd (list ZMember)
| CZRevRangeByScoreWithScores (key min max : string) (offset count : Z) : cmd (list ZMember)
| CZRange (key : string) (start stop : Z) : cmd (list string)
| CZRemRangeByRank (key : string) (start stop : Z) : cmd Z
| CZRemRangeByScore (key min max : string) : cmd Z
| CZRem (key : string) (members : list value) : cmd Z
| CZRevRange (key : string) (start stop : Z) : cmd (list string)
| CSetBit (key : string) (offset value : Z) : cmd Z
| CExists (key : string) : cmd Z
| CSAdd (key : string) (members : list value) : cmd Z
| CSPop (key : string) : cmd string
| CLPop (key : string) : cmd string
| CLIndex (key : string) (index : Z) : cmd string
| CLPush (key value : string) : cmd Z
| CRPush (key value : string) : cmd Z
| CHLen (key : string) : cmd Z.

(** [redis.Nil] is the library's missing-key error, [ErrNil] the package's. *)
Inductive err : Type := RedisNil | ErrNil | NotInit | Text (msg : string).

#[export] Instance err_eq_dec : EqDecision err.
Proof. solve_decision. Defined.

Definition Error (e : err) : string :=
  match e with
  | RedisNil => "redis: nil"
  | ErrNil => "redis: nil returned"
  | NotInit => "redis cluster not init"
  | Text msg => msg
  end.

(** ** Configuration *)

(* [databases/redisdb/cluster.go:44-72] RedisClusterConf *)
Record RedisClusterConf : Type := mkConf {
  ClusterName : string; Addrs : list string; DialTimeout : Z; ReadTimeout : Z; WriteTimeout : Z;
  PoolSize : Z; PoolTimeout : Z; MinIdleConns : Z; IdleTimeout : Z; IdleCheckFrequency : Z;
  MaxRedirects : Z; Password : string
}.

(** [redis.ClusterOptions], as far as it is set. *)
Record ClusterOptions : Type := mkOptions {
  o_Addrs : list string; o_DialTimeout : Z; o_ReadTimeout : Z; o_WriteTimeout : Z;
  o_PoolSize : Z; o_PoolTimeout : Z; o_MinIdleConns : Z; o_IdleTimeout : Z;
  o_IdleCheckFrequency : Z; o_MaxRedirects : Z; o_MinRetryBackoff : Z; o_MaxRetryBackoff : Z;
  o_Password : string
}.

Definition Minute : Z := 60 * Second.

(** Zero means [d], a negative value -1. *)
Definition neg_or (v d : Z) : Z := if v <? 0 then -1 else if v =? 0 then d else v.
Definition pos_or (v d : Z) : Z := if v <=? 0 then d else v.

(** The options of [redis.NewClusterClient], or an error. *)
(* [databases/redisdb/cluster.go:131-227] newRedisCluster *)
Definition newRedisCluster (clusterConf : option RedisClusterConf) : ClusterOptions + string :=
  match clusterConf with
  | None => inr "redisClusterConf is nil"
  | Some c =>
      if decide (Addrs c = []) then inr "addrs not set" else
      inl (mkOptions (Addrs c)
        (pos_or (i64 (DialTimeout c * Millisecond)) Second)
        (neg_or (i64 (ReadTimeout c * Millisecond)) Second)
        (neg_or (i64 (WriteTimeout c * Millisecond)) Second)
        (pos_or (PoolSize c) 100)
        (neg_or (i64 (PoolTimeout c * Millisecond)) Second)
        (if MinIdleConns c <? 0 then 0 else MinIdleConns c)
        (pos_or (i64 (IdleTimeout c * Second)) (30 * Minute))
        (neg_or (i64 (IdleCheckFrequency c * Second)) (30 * Minute))
        (if MaxRedirects c =? 0 then 3 else MaxRedirects c)
        (1 * Millisecond) (10 * Millisecond) (Password c))
  end.

(** ** The client *)

(** What [reportPerf] tells the performance counters, the goroutine's data and the
    log. *)
Inductive pevent : Type :=
| PcIncr (key : string) (n : Z) | PcCost (key : string) (cost : Z) | PcCostFail (key : string) (n : Z)
| GlIncr (key : string) (n : Z) | GlIncrCost (key : string) (cost : Z)
| LogWarn (what : string) | LogInfo (what : string).

Section client.
Context {R : Type}.
(** The time, which passes with the server's work. *)
Variable now : R -> Z.
(** The server, as seen through the library: one command, and a pipeline, whose
    [Exec] gives the replies in order and the first error. *)
Variable exec : forall A, cmd A -> M R (A * option err).
Variable pipe : forall A, list (cmd A) -> M R (list (A * option err) * option err).
Arguments exec {A}.
Arguments pipe {A}.
(** [getScriptSha]'s hash: the hexadecimal SHA-1 of a string. *)
Variable sha1_hex : string -> string.

(** [redisCluster] is nil before [Start]; [clusterClient] may be nil. *)
Record W : Type := mkW {
  server : R; redisCluster : option (string * bool); perf : list pevent
}.

Definition emit (e : pevent) : M W unit :=
  modify (fun w => mkW (server w) (redisCluster w) (perf w ++ [e])).

Definition on_server {A} (m : M R A) : M W A := fun w =>
  match m (server w) with (r, s) => (r, mkW s (redisCluster w) (perf w)) end.

Definition call {A} (c : cmd A) : M W (A * option err) := on_server (exec c).
Definition pipeline {A} (cs : list (cmd A)) : M W (list (A * option err) * option err) :=
  on_server (pipe cs).

(** The cluster's name and whether it has a client. *)
(* [databases/redisdb/cluster.go:287-289] getClusterClient *)
Definition getClusterClient : M W (string * bool) :=
  w ← get;
  match redisCluster w with
  | None => panic "nil pointer dereference"
  | Some c => mret c
  end.

Definition when (b : bool) (m : M W unit) : M W unit := if b then m else mret tt.

(** Errors that count as failures. *)
Definition is_failure (e : option err) : bool :=
  match e with
  | None | Some RedisNil | Some ErrNil => false
  | Some e => negb (contains "WRONGTYPE Operation" (Error e))
  end.

Definition is_wrongtype (e : option err) : bool :=
  match e with
  | None | Some RedisNil | Some ErrNil => false
  | Some e => contains "WRONGTYPE Operation" (Error e)
  end.

(* [databases/redisdb/cluster.go:291-339] reportPerf *)
Definition reportPerf (clusterName cmdName : string) (sTime : Z) (e : option err) : M W unit :=
  w ← get;
  let cost := time_Sub (now (server w)) sTime in
  let ms := Z.quot cost Millisecond in
  _ ← (if bool_decide (cmdName ∈ ["MGet"; "MSet"; "MDel"]) then
         _ ← when (60 <? ms)
               (_ ← emit (PcIncr ("redis_cluster_" +:+ ToLower cmdName +:+ "_slow_count") 1);
                when (200 <? ms) (emit (LogWarn "redisCluster slow")));
         emit (PcCost ("rediscluster,name=" +:+ clusterName +:+ ",cmd=" +:+
                       "redis_cluster_cmd_" +:+ ToLower cmdName) cost)
       else
         _ ← when (20 <? ms)
               (_ ← emit (PcIncr "redis_cluster_common_slow_count" 1);
                when (100 <? ms) (emit (LogWarn "redisCluster slow")));
         emit (PcCost ("redisCluster,name=" +:+ clusterName +:+ ",cmd=" +:+
                       "redis_cluster_cmd_normal") cost));
  _ ← emit (GlIncr "redisCluster_call" 1);
  _ ← emit (GlIncrCost "redisCluster_cost" cost);
  if is_wrongtype e then emit (LogInfo "RedisCluster call fail")
  else when (is_failure e)
         (_ ← emit (PcCostFail ("rediscluster,name=" +:+ clusterName) 1);
          _ ← emit (GlIncr "redisCluster_call_fail" 1);
          emit (LogWarn "RedisCluster call fail")).

(** The body, then the deferred report with what the variable [err] holds by then:
    the third component of the body's result. *)
Definition reporting {A} (clusterName cmdName : string) (st : Z)
    (body : M W (A * option err * option err)) : M W (A * option err) := fun w =>
  match body w with
  | (Ret (ret, e, reported), w') =>
      (_ ← reportPerf clusterName cmdName st reported; mret (ret, e)) w'
  | (Panic m, w') => (_ ← reportPerf clusterName cmdName st None; panic m) w'
  end.

(** The frame of every method: without a client it returns [zero] and an error. *)
Definition method {A} (cmdName : string) (zero : A) (body : M W (A * option err * option err))
    : M W (A * option err) :=
  c ← getClusterClient;
  if negb (c.2 : bool) then mret (zero, Some NotInit) else
  st ← gets (fun w => now (server w));
  reporting c.1 cmdName st body.

(** [ret, err := ..; return ret, err]: the report sees the error. *)
Definition tracked {A} (m : M W (A * option err)) : M W (A * option err * option err) :=
  r ← m; mret (r, r.2).

(** [return ....Result()]: the variable [err] is still nil when the report runs. *)
Definition untracked {A} (m : M W (A * option err)) : M W (A * option err * option err) :=
  r ← m; mret (r, None).

(** *** Single commands *)

(* [databases/redisdb/cluster.go:372-387] Set *)
Definition Set_ (key value : string) (expire : Z) :=
  method "Set" EmptyString (tracked (call (CSet key value expire))).

(* [databases/redisdb/cluster.go:395-410] SetNX *)
Definition SetNX (key value : string) (expire : Z) :=
  method "SetNX" false (tracked (call (CSetNX key value expire))).

(* [databases/redisdb/cluster.go:416-431] Del *)
Definition Del (key : string) :=
  method "Del" 0 (tracked (call (CDel key))).

(* [databases/redisdb/cluster.go:985-1000] HGetAll *)
Definition HGetAll (key : string) :=
  method "HGetAll" (∅ : gmap string string) (tracked (call (CHGetAll key))).

(* [databases/redisdb/cluster.go:1006-1021] HSet *)
Definition HSet (key field value : string) :=
  method "HSet" 0 (tracked (call (CHSet key field value))).

(* [databases/redisdb/cluster.go:1027-1042] HSetNx *)
Definition HSetNx (key field value : string) :=
  method "HSetNx" false (tracked (call (CHSetNX key field value))).

(* [databases/redisdb/cluster.go:1083-1097] HMDel *)
Definition HMDel (key : string) (fields : list string) :=
  method "HMDel" 0 (untracked (call (CHDel key fields))).

(* [databases/redisdb/cluster.go:1104-1118] Expire *)
Definition Expire (key : string) (expiration : Z) :=
  method "Expire" false (untracked (call (CExpire key expiration))).

(* [databases/redisdb/cluster.go:1125-1139] PExpire *)
Definition PExpire (key : string) (expiration : Z) :=
  method "PExpire" false (untracked (call (CPExpire key expiration))).

(* [databases/redisdb/cluster.go:1146-1160] PTtl *)
Definition PTtl (key : string) :=
  method "PTtl" (-1) (untracked (call (CPTTL key))).

(* [databases/redisdb/cluster.go:1166-1181] HIncrBy *)
Definition HIncrBy (key field : string) (value : Z) :=
  method "HIncrBy" (-1) (tracked (call (CHIncrBy key field value))).

(* [databases/redisdb/cluster.go:1183-1198] IncrBy *)
Definition IncrBy (key : string) (value : Z) :=
  method "IncrBy" (-1) (tracked (call (CIncrBy key value))).

(* [databases/redisdb/cluster.go:1224-1239] EvalSha *)
Definition EvalSha (scriptSha : string) (keys : list string) (args : list value) :=
  method "IncrBy" (VInt (-1)) (tracked (call (CEvalSha scriptSha keys args))).

(* [databases/redisdb/cluster.go:1247-1261] ZAdd *)
Definition ZAdd (key : string) (members : list ZMember) :=
  method "ZAdd" (-1) (untracked (call (CZAdd key members))).

(* [databases/redisdb/cluster.go:1335-1349] ZRange *)
Definition ZRange (key : string) (start stop : Z) :=
  method "ZRange" [] (untracked (call (CZRange key start stop))).

(* [databases/redisdb/cluster.go:1351-1365] ZRemRangeByRank *)
Definition ZRemRangeByRank (key : string) (start stop : Z) :=
  method "ZRemRangeByRank" 0 (untracked (call (CZRemRangeByRank key start stop))).

(* [databases/redisdb/cluster.go:1367-1380] ZRemRangeByScore *)
Definition ZRemRangeByScore (key min max : string) :=
  method "ZRemRangeByScore" 0 (untracked (call (CZRemRangeByScore key min max))).

(* [databases/redisdb/cluster.go:1382-1396] ZRem *)
Definition ZRem (key : string) (members : list value) :=
  method "ZRem" 0 (untracked (call (CZRem key members))).

(* [databases/redisdb/cluster.go:1398-1412] ZRevRange *)
Definition ZRevRange (key : string) (start stop : Z) :=
  method "ZRevRange" [] (untracked (call (CZRevRange key start stop))).

(* [databases/redisdb/cluster.go:1414-1428] SetBit *)
Definition SetBit (key : string) (offset value : Z) :=
  method "SetBit" 0 (untracked (call (CSetBit key offset value))).

(* [databases/redisdb/cluster.go:1457-1471] SAdd *)
Definition SAdd (key : string) (members : list value) :=
  method "SAdd" 0 (untracked (call (CSAdd key members))).

(* [databases/redisdb/cluster.go:1473-1486] SPop *)
Definition SPop (key : string) :=
  method "SPop" EmptyString (untracked (call (CSPop key))).

(* [databases/redisdb/cluster.go:1488-1501] LPop *)
Definition LPop (key : string) :=
  method "LPop" EmptyString (untracked (call (CLPop key))).

(* [databases/redisdb/cluster.go:1503-1516] LIndex *)
Definition LIndex (key : string) (index : Z) :=
  method "LIndex" EmptyString (untracked (call (CLIndex key index))).

(* [databases/redisdb/cluster.go:1518-1531] LPush *)
Definition LPush (key value : string) :=
  method "LPush" 0 (untracked (call (CLPush key value))).

(* [databases/redisdb/cluster.go:1533-1546] RPush *)
Definition RPush (key value : string) :=
  method "RPush" 0 (untracked (call (CRPush key value))).

(* [databases/redisdb/cluster.go:1548-1562] HLen *)
Definition HLen (key : string) :=
  method "HLen" 0 (untracked (call (CHLen key))).

(** A missing key or field becomes the package's [ErrNil], which the variable
    [err] does not hold when the report runs. *)
Definition nil_to_ErrNil (m : M W (string * option err)) : M W (string * option err * option err) :=
  r ← m;
  if decide (r.2 = Some RedisNil) then mret (EmptyString, Some ErrNil, Some RedisNil)
  else mret (r, r.2).

(* [databases/redisdb/cluster.go:346-365] Get *)
Definition Get (key : string) := method "Get" EmptyString (nil_to_ErrNil (call (CGet key))).

(* [databases/redisdb/cluster.go:895-914] HGet *)
Definition HGet (key field : string) :=
  method "HGet" EmptyString (nil_to_ErrNil (call (CHGet key field))).

(* [databases/redisdb/cluster.go:928-947] HMGet *)
Definition HMGet (key : string) (fields : list string) :=
  method "HMGet" [] (if decide (fields = []) then mret ([], None, None)
                     else tracked (call (CHMGet key fields))).

(** The reply alternates fields and values; its error is looked at last. *)
Fixpoint pair_up (l : list string) (result : gmap string string) : gmap string string :=
  match l with
  | f :: v :: l' => pair_up l' (<[f := v]> result)
  | _ => result
  end.

(* [databases/redisdb/cluster.go:957-979] HScan *)
Definition HScan (key : string) (count : Z) :=
  method "HScan" (∅ : gmap string string)
    (r ← call (CHScan key 0 EmptyString count);
     if Z.odd (len r.1) then mret (∅, Some (Text "hscan return invalid"), r.2)
     else mret (pair_up r.1 ∅, r.2, r.2)).

(* [databases/redisdb/cluster.go:1048-1076] HMSet *)
Definition HMSet (key : string) (fields : gmap string string) :=
  method "HMSet" false
    (if decide (fields = ∅) then mret (true, None, None) else
     r ← call (CHMSet key fields);
     match r.2 with
     | Some e => mret (false, Some e, Some e)
     | None => mret (true, None, None)
     end).

(** [utls.MustString(item.Member, "")] *)
Definition MustString (v : value) : string :=
  match v with
  | VNil => EmptyString
  | VStr s => s
  | VInt z => itoa z
  | VBytes l => String.string_of_list_byte l
  end.

Definition zset_results (l : list ZMember) : list (string * spec_float) :=
  map (fun item => (MustString (Member item), Score item)) l.

(* [databases/redisdb/cluster.go:1268-1299] ZRangeByScoreWithScores *)
Definition ZRangeByScoreWithScores (key min max : string) (offset limit : Z) :=
  method "ZRangeByScoreWithScores" []
    (r ← call (CZRangeByScoreWithScores key min max offset limit);
     match r.2 with
     | Some e => mret ([], Some e, Some e)
     | None => mret (zset_results r.1, None, None)
     end).

(* [databases/redisdb/cluster.go:1301-1333] ZRevRangeByScoreWithScores *)
Definition ZRevRangeByScoreWithScores (key min max : string) (offset limit : Z) :=
  method "ZRevRangeByScoreWithScores" []
    (r ← call (CZRevRangeByScoreWithScores key min max offset limit);
     match r.2 with
     | Some e => mret ([], Some e, Some e)
     | None => mret (zset_results r.1, None, None)
     end).

(* [databases/redisdb/cluster.go:1430-1455] Exist *)
Definition Exist (key : string) :=
  method "Exist" false
    (r ← call (CExists key);
     match r.2 with
     | Some e => mret (false, Some e, Some e)
     | None => mret (0 <? r.1, None, None)
     end).

(* [databases/redisdb/cluster.go:1241-1245] getScriptSha *)
Definition getScriptSha (script : string) : string := sha1_hex script.

(** The digest first; the whole script only when the server does not know it. *)
(* [databases/redisdb/cluster.go:1200-1222] Eval *)
Definition Eval_ (script : string) (keys : list string) (args : list value) : M W (value * option err) :=
  r ← EvalSha (getScriptSha script) keys args;
  match r.2 with
  | None => mret r
  | Some e =>
      if contains "NOSCRIPT" (Error e)
      then method "Eval" (VInt (-1)) (tracked (call (CEval script keys args)))
      else mret r
  end.

(** *** Several keys *)

(** The loop over the replies of a pipeline of [Get]s: a value, an explicit nil,
    or nothing when the command failed. *)
Fixpoint mget_replies (ks : list string) (cmds : list (string * option err))
    (retMap : gmap string (option string)) (errMsg : list err)
    : gmap string (option string) * list err :=
  match ks, cmds with
  | k :: ks', (v, e) :: cmds' =>
      match e with
      | None => mget_replies ks' cmds' (<[k := Some v]> retMap) errMsg
      | Some RedisNil => mget_replies ks' cmds' (<[k := None]> retMap) errMsg
      | Some e => mget_replies ks' cmds' retMap (errMsg ++ [e])
      end
  | _, _ => (retMap, errMsg)
  end.

(** [retMap[key]] is nil for a key the map does not have. *)
Definition in_key_order {B} (d : B) (keys : list string) (retMap : gmap string B) : list B :=
  map (fun key => default d (retMap !! key)) keys.

(* [databases/redisdb/cluster.go:443-497] MGet *)
Definition MGet (keys : list string) : M W (list (option string) * option err) :=
  method "MGet" []
    (r ← pipeline (map CGet keys);
     match r.2 with
     | Some RedisNil | None =>
         let '(retMap, _) := mget_replies keys r.1 ∅ [] in
         mret (in_key_order None keys retMap, None, r.2)
     | Some e => mret ([], Some e, Some e)
     end).

(** The keys whose command succeeded. *)
Fixpoint done_replies {A} (ks : list string) (cmds : list (A * option err))
    (retMap : gmap string bool) : gmap string bool :=
  match ks, cmds with
  | k :: ks', (_, None) :: cmds' => done_replies ks' cmds' (<[k := true]> retMap)
  | _ :: ks', (_, Some _) :: cmds' => done_replies ks' cmds' retMap
  | _, _ => retMap
  end.

Definition key_map (keys : list string) (retMap : gmap string bool) : gmap string bool :=
  foldl (fun ret key => <[key := default false (retMap !! key)]> ret) ∅ keys.

(* [databases/redisdb/cluster.go:594-644] MSet *)
Definition MSet (kvs : gmap string string) (expire : Z) : M W (gmap string bool * option err) :=
  let keys := (map_to_list kvs).*1 in
  method "MSet" ∅
    (r ← pipeline (map (fun kv => CSet kv.1 kv.2 expire) (map_to_list kvs));
     match r.2 with
     | Some e => mret (∅, Some e, Some e)
     | None => mret (key_map keys (done_replies keys r.1 ∅), None, None)
     end).

(* [databases/redisdb/cluster.go:744-791] MDel *)
Definition MDel (keys : list string) : M W (gmap string bool * option err) :=
  method "MDel" ∅
    (r ← pipeline (map CDel keys);
     match r.2 with
     | Some RedisNil | None => mret (done_replies keys r.1 ∅, None, r.2)
     | Some e => mret (∅, Some e, Some e)
     end).

(* [databases/redisdb/cluster.go:885-888] getNodeAndKeyMap *)
Definition getNodeAndKeyMap (keys : list string) : gmap string (list string) := ∅.

(** The functions run by the pool, one per node, in some order.  A node's keys
    stop at the first failing command. *)
Fixpoint mget2_node (ks : list string) (cmds : list (string * option err))
    (retMap : gmap string (option string)) (errMsg : list err)
    : gmap string (option string) * list err :=
  match ks, cmds with
  | k :: ks', (v, e) :: cmds' =>
      match e with
      | None => mget2_node ks' cmds' (<[k := Some v]> retMap) errMsg
      | Some RedisNil => mget2_node ks' cmds' (<[k := None]> retMap) errMsg
      | Some e => (retMap, errMsg ++ [e])
      end
  | _, _ => (retMap, errMsg)
  end.

Fixpoint mget2_loop (nodes : list (list string)) (retMap : gmap string (option string))
    (errMsg : list err) : M W (gmap string (option string) * list err) :=
  match nodes with
  | [] => mret (retMap, errMsg)
  | ks :: nodes' =>
      r ← pipeline (map CGet ks);
      match r.2 with
      | Some RedisNil | None =>
          let '(retMap, errMsg) := mget2_node ks r.1 retMap errMsg in
          mget2_loop nodes' retMap errMsg
      | Some e => mget2_loop nodes' retMap (errMsg ++ [e])
      end
  end.

(* [databases/redisdb/cluster.go:509-592] MGet2 *)
Definition MGet2 (keys : list string) : M W (list (option string) * option err) :=
  method "MGet2" []
    (r ← mget2_loop (map_to_list (getNodeAndKeyMap keys)).*2 ∅ [];
     let '(retMap, errMsg) := r in
     match errMsg with
     | e :: _ => mret ([], Some e, Some e)
     | [] => mret (in_key_order None keys retMap, None, None)
     end).

Fixpoint done2_node {A} (ks : list string) (cmds : list (A * option err))
    (retMap : gmap string bool) (errMsg : list err) : gmap string bool * list err :=
  match ks, cmds with
  | k :: ks', (_, None) :: cmds' => done2_node ks' cmds' (<[k := true]> retMap) errMsg
  | _, (_, Some e) :: _ => (retMap, errMsg ++ [e])
  | _, _ => (retMap, errMsg)
  end.

Fixpoint done2_loop {A} (mk : string -> cmd A) (nodes : list (list string)) (retMap : gmap string bool)
    (errMsg : list err) : M W (gmap string bool * list err) :=
  match nodes with
  | [] => mret (retMap, errMsg)
  | ks :: nodes' =>
      r ← pipeline (map mk ks);
      match r.2 with
      | Some e => done2_loop mk nodes' retMap (errMsg ++ [e])
      | None =>
          let '(retMap, errMsg) := done2_node ks r.1 retMap errMsg in
          done2_loop mk nodes' retMap errMsg
      end
  end.

Definition finish2 (keys : list string) (r : gmap string bool * list err)
    : M W (gmap string bool * option err * option err) :=
  let '(retMap, errMsg) := r in
  match errMsg with
  | e :: _ =>
      if len errMsg =? len keys then mret (∅, Some e, Some e)
      else mret (key_map keys retMap, Some e, Some e)
  | [] => mret (key_map keys retMap, None, None)
  end.

(* [databases/redisdb/cluster.go:656-742] MSet2 *)
Definition MSet2 (kvs : gmap string string) (expire : Z) : M W (gmap string bool * option err) :=
  let keys := (map_to_list kvs).*1 in
  method "MSet2" ∅
    (r ← done2_loop (fun k => CSet k (default EmptyString (kvs !! k)) expire)
           (map_to_list (getNodeAndKeyMap keys)).*2 ∅ [];
     finish2 keys r).

(* [databases/redisdb/cluster.go:801-883] MDel2 *)
Definition MDel2 (keys : list string) : M W (gmap string bool * option err) :=
  method "MDel2" ∅
    (r ← done2_loop CDel (map_to_list (getNodeAndKeyMap keys)).*2 ∅ [];
     finish2 keys r).

(** ** Lemmas: the report *)

Definition is_fail (e : pevent) : bool := match e with PcCostFail _ _ => true | _ => false end.
Definition fails (l : list pevent) : Z := len (List.filter is_fail l).

Lemma fails_app l k : fails (l ++ k) = fails l + fails k.
Proof. unfold fails. by rewrite List.filter_app, len_app. Qed.

(** A call of [reportPerf] returns, adds events only, and counts a failure exactly
    for the errors that are one. *)
Definition adds (w w' : W) (n : Z) : Prop :=
  server w' = server w /\ redisCluster w' = redisCluster w /\
  exists l, perf w' = perf w ++ l /\ fails l = n.

Lemma adds_emit w e n : (if is_fail e then 1 else 0) = n ->
  exists w', emit e w = (Ret tt, w') /\ adds w w' n.
Proof.
  intros <-. eexists. split; [done|]. split_and!; try done. exists [e]. split; [done|].
  unfold fails. simpl. by destruct (is_fail e).
Qed.

Lemma adds_ret w : exists w', (mret tt : M W unit) w = (Ret tt, w') /\ adds w w' 0.
Proof. exists w. split; [done|]. split_and!; try done. exists []. by rewrite app_nil_r. Qed.

Definition reports (m : M W unit) (n : Z) : Prop := forall w, exists w', m w = (Ret tt, w') /\ adds w w' n.

Lemma reports_seq m k a b : reports m a -> reports k b -> reports (_ ← m; k) (a + b).
Proof.
  intros Hm Hk w. destruct (Hm w) as (w1 & E1 & S1 & R1 & l1 & P1 & F1).
  destruct (Hk w1) as (w2 & E2 & S2 & R2 & l2 & P2 & F2). exists w2.
  unfold mbind, M_bind. rewrite E1, E2. split; [done|]. split_and!; try congruence.
  exists (l1 ++ l2). rewrite P2, P1, <- app_assoc, fails_app. split; [done|lia].
Qed.

Lemma reports_emit e n : (if is_fail e then 1 else 0) = n -> reports (emit e) n.
Proof. intros He w. by apply adds_emit. Qed.

Lemma reports_when b m : reports m 0 -> reports (when b m) 0.
Proof. intros Hm w. destruct b; [apply Hm|apply adds_ret]. Qed.

Lemma is_wrongtype_failure e : is_wrongtype e = true -> is_failure e = false.
Proof. destruct e as [[]|]; simpl; try done. by intros ->. Qed.

Lemma reportPerf_reports name cmdName st e :
  reports (reportPerf name cmdName st e) (if is_failure e then 1 else 0).
Proof.
  intros w. unfold reportPerf. set (cost := time_Sub (now (server w)) st). set (ms := Z.quot cost Millisecond).
  assert (forall d c, reports (when d (_ ← emit (PcIncr c 1); when (200 <? ms) (emit (LogWarn "redisCluster slow")))) 0
    /\ reports (when d (_ ← emit (PcIncr c 1); when (100 <? ms) (emit (LogWarn "redisCluster slow")))) 0) as Hslow.
  { intros d c. split; (apply reports_when, (reports_seq _ _ 0 0); [by apply reports_emit|];
      apply reports_when; by apply reports_emit). }
  assert (reports (if bool_decide (cmdName ∈ ["MGet"; "MSet"; "MDel"]) then
         _ ← when (60 <? ms)
               (_ ← emit (PcIncr ("redis_cluster_" +:+ ToLower cmdName +:+ "_slow_count") 1);
                when (200 <? ms) (emit (LogWarn "redisCluster slow")));
         emit (PcCost ("rediscluster,name=" +:+ name +:+ ",cmd=" +:+
                       "redis_cluster_cmd_" +:+ ToLower cmdName) cost)
       else
         _ ← when (20 <? ms)
               (_ ← emit (PcIncr "redis_cluster_common_slow_count" 1);
                when (100 <? ms) (emit (LogWarn "redisCluster slow")));
         emit (PcCost ("redisCluster,name=" +:+ name +:+ ",cmd=" +:+
                       "redis_cluster_cmd_normal") cost)) 0) as H1.
  { destruct (bool_decide _); (apply (reports_seq _ _ 0 0); [apply Hslow|by apply reports_emit]). }
  assert (reports (if is_wrongtype e then emit (LogInfo "RedisCluster call fail")
    else when (is_failure e)
         (_ ← emit (PcCostFail ("rediscluster,name=" +:+ name) 1);
          _ ← emit (GlIncr "redisCluster_call_fail" 1);
          emit (LogWarn "RedisCluster call fail"))) (if is_failure e then 1 else 0)) as H2.
  { destruct (is_wrongtype e) eqn:Ew.
    - rewrite (is_wrongtype_failure _ Ew). by apply reports_emit.
    - destruct (is_failure e); [|intros w'; apply adds_ret].
      apply (reports_seq _ _ 1 0); [by apply reports_emit|].
      apply (reports_seq _ _ 0 0); by apply reports_emit. }
  exact (reports_seq _ _ 0 _ H1 (reports_seq _ _ 0 _ (reports_emit (GlIncr _ _) 0 eq_refl)
    (reports_seq _ _ 0 _ (reports_emit (GlIncrCost _ _) 0 eq_refl) H2)) w).
Qed.

(** A method of a client in place, whose body returns. *)
Lemma method_run {A} cmdName (zero : A) body w name ret e reported w1 :
  redisCluster w = Some (name, true) -> body w = (Ret (ret, e, reported), w1) ->
  exists w', method cmdName zero body w = (Ret (ret, e), w') /\
    adds w1 w' (if is_failure reported then 1 else 0).
Proof.
  intros Hc Hb. unfold method, getClusterClient, mbind, M_bind, get, gets, mret, M_ret. rewrite Hc.
  cbn [fst snd negb]. unfold reporting. rewrite Hb.
  destruct (reportPerf_reports name cmdName (now (server w)) reported w1) as (w' & E & Ha).
  exists w'. unfold mbind, M_bind. by rewrite E.
Qed.

Lemma mret_run {A} (x : A) w : (mret x : M W A) w = (Ret x, w).
Proof. done. Qed.

Lemma method_nil {A} cmdName (zero : A) body w name :
  redisCluster w = Some (name, false) -> method cmdName zero body w = (Ret (zero, Some NotInit), w).
Proof. intros Hc. unfold method, getClusterClient, mbind, M_bind, get. by rewrite Hc. Qed.

Lemma call_run {A} (c : cmd A) w r s : exec c (server w) = (Ret r, s) ->
  call c w = (Ret r, mkW s (redisCluster w) (perf w)).
Proof. intros He. unfold call, on_server. by rewrite He. Qed.

Lemma pipeline_run {A} (cs : list (cmd A)) w r s : pipe cs (server w) = (Ret r, s) ->
  pipeline cs w = (Ret r, mkW s (redisCluster w) (perf w)).
Proof. intros He. unfold pipeline, on_server. by rewrite He. Qed.

(** ** Properties *)

(** [Get] keeps its contract: the value of a present key, [ErrNil] for a missing
    one, the library's error otherwise; exactly the real failures are counted, a
    missing key and a type error are not. *)
Theorem Get_contract key w name v e s :
  redisCluster w = Some (name, true) -> exec (CGet key) (server w) = (Ret (v, e), s) ->
  exists w', Get key w = (Ret (match e with Some RedisNil => (EmptyString, Some ErrNil) | _ => (v, e) end), w') /\
    server w' = s /\ fails (perf w') = fails (perf w) + (if is_failure e then 1 else 0).
Proof.
  intros Hc He. pose proof (call_run (CGet key) w _ _ He) as Hcall.
  assert (nil_to_ErrNil (call (CGet key)) w =
    (Ret (match e with Some RedisNil => (EmptyString, Some ErrNil) | _ => (v, e) end, e),
     mkW s (redisCluster w) (perf w))) as Hb.
  { unfold nil_to_ErrNil, mbind, M_bind. rewrite Hcall. cbn [snd].
    destruct (decide (e = Some RedisNil)) as [->|Hne]; [done|]. destruct e as [[]|]; try done. }
  destruct (match e with Some RedisNil => (EmptyString, Some ErrNil) | _ => (v, e) end) as [ret e'] eqn:Hr.
  destruct (method_run "Get" EmptyString _ w name _ _ _ _ Hc Hb) as (w' & E & (S1 & _ & l & P & F)).
  exists w'. unfold Get. rewrite E. split; [done|]. split; [done|]. rewrite P, fails_app, F. done.
Qed.

Lemma mget_replies_lookup keys rs m l k :
  NoDup keys -> length rs = length keys ->
  (mget_replies keys rs m l).1 !! k =
    match list_find (fun x => x = k) keys with
    | Some (i, _) => match rs !! i with
                     | Some (v, None) => Some (Some v)
                     | Some (_, Some RedisNil) => Some None
                     | _ => m !! k
                     end
    | None => m !! k
    end.
Proof.
  intros Hnd. revert rs m l. induction Hnd as [|k0 keys Hk Hnd IH]; intros [|[v e] rs] m l Hl; try done.
  injection Hl as Hl. cbn [mget_replies list_find].
  destruct (decide (k0 = k)) as [->|Hne].
  - assert (list_find (fun x => x = k) keys = None) as Hf.
    { apply list_find_None, Forall_forall. intros x Hx ->. done. }
    destruct e as [[]|]; rewrite IH, Hf by done; cbn [lookup list_lookup];
      rewrite ?lookup_insert_eq; done.
  - destruct e as [[]|]; rewrite IH by done;
      destruct (list_find (fun x => x = k) keys) as [[i x]|]; cbn [fmap option_fmap option_map];
      rewrite ?lookup_insert_ne by done; done.
Qed.

(** [MGet] answers position by position: with distinct keys the [i]-th result is
    the value of the [i]-th key when its command succeeded and nil when the key is
    missing or its command failed. *)
Theorem MGet_positions keys w name rs e s :
  redisCluster w = Some (name, true) -> NoDup keys -> length rs = length keys ->
  pipe (map CGet keys) (server w) = (Ret (rs, e), s) -> e = None \/ e = Some RedisNil ->
  exists vs w', MGet keys w = (Ret (vs, None), w') /\ length vs = length keys /\
    forall i, vs !! i = (fun r => match r with (v, None) => Some v | (_, Some _) => None end) <$> rs !! i.
Proof.
  intros Hc Hnd Hl Hp He. pose proof (pipeline_run (map CGet keys) w _ _ Hp) as Hpl.
  set (vs := in_key_order None keys (mget_replies keys rs ∅ []).1).
  destruct (method_run "MGet" [] (r ← pipeline (map CGet keys);
     match r.2 with
     | Some RedisNil | None =>
         let '(retMap, _) := mget_replies keys r.1 ∅ [] in
         mret (in_key_order None keys retMap, None, r.2)
     | Some e => mret ([], Some e, Some e)
     end) w name vs None e (mkW s (redisCluster w) (perf w)) Hc) as (w' & E & _).
  { unfold mbind, M_bind. rewrite Hpl. cbn [fst snd]. unfold vs.
    destruct (mget_replies keys rs ∅ []). by destruct He as [->| ->]. }
  exists vs, w'. split; [exact E|]. unfold vs, in_key_order. rewrite length_map. split; [done|].
  intros i. rewrite list_lookup_fmap. destruct (keys !! i) as [k|] eqn:Hk.
  - assert (list_find (fun x => x = k) keys = Some (i, k)) as Hf.
    { apply list_find_Some. split_and!; [done|done|]. intros j y Hj Hlt ->.
      pose proof (NoDup_lookup _ _ _ _ Hnd Hj Hk). lia. }
    cbn [fmap option_fmap option_map]. rewrite mget_replies_lookup, Hf by done.
    destruct (rs !! i) as [[v [[]|]]|] eqn:Hi; try done.
    apply lookup_ge_None in Hi. apply lookup_lt_Some in Hk. lia.
  - apply lookup_ge_None in Hk. by rewrite (proj2 (lookup_ge_None rs i)) by lia.
Qed.

(** The variants that should spread the keys over the cluster's nodes do nothing:
    the server is not asked, [MGet2] answers nil for every key, [MSet2] and [MDel2]
    answer false for every key, all without an error. *)
Theorem second_versions_do_nothing keys kvs expire w name :
  redisCluster w = Some (name, true) ->
  (exists w', MGet2 keys w = (Ret (map (fun _ => None) keys, None), w') /\ server w' = server w) /\
  (exists m w', MSet2 kvs expire w = (Ret (m, None), w') /\ server w' = server w /\
     map_Forall (fun _ b => b = false) m) /\
  (exists m w', MDel2 keys w = (Ret (m, None), w') /\ server w' = server w /\
     map_Forall (fun _ b => b = false) m).
Proof.
  intros Hc.
  assert (forall ks, map_Forall (fun _ b => b = false) (key_map ks ∅)) as Hfalse.
  { intros ks. unfold key_map.
    assert (map_Forall (fun (_ : string) b => b = false) ∅) as H by apply map_Forall_empty.
    revert H. generalize (∅ : gmap string bool) at 1 3. induction ks as [|k ks IH]; intros m Hm; [done|].
    apply IH, map_Forall_insert_2; [by rewrite lookup_empty|done]. }
  split; [|split].
  - destruct (method_run "MGet2" [] (mret (in_key_order (None : option string) keys ∅, None, None)) w name _ _ _ _ Hc (mret_run _ w))
      as (w' & E & S1 & _). exists w'. split; [|done]. unfold in_key_order in E.
    exact E.
  - destruct (method_run "MSet2" ∅ (mret (key_map (map_to_list kvs).*1 ∅, None, None)) w name _ _ _ _ Hc (mret_run _ w))
      as (w' & E & S1 & _). by exists (key_map (map_to_list kvs).*1 ∅), w'.
  - destruct (method_run "MDel2" ∅ (mret (key_map keys ∅, None, None)) w name _ _ _ _ Hc (mret_run _ w))
      as (w' & E & S1 & _). by exists (key_map keys ∅), w'.
Qed.

(** What an [untracked] method reports of its command: never a failure. *)
Definition never_counts {A} (m : M W (A * option err)) : Prop := forall w name,
  redisCluster w = Some (name, true) ->
  forall r w', m w = (Ret r, w') -> fails (perf w') = fails (perf w).

Lemma untracked_never_counts {A} cmdName (zero : A) (c : cmd A) :
  never_counts (method cmdName zero (untracked (call c))).
Proof.
  intros w name Hc r w' Hm.
  destruct (exec c (server w)) as [[[v e]|m] s] eqn:He.
  - destruct (method_run cmdName zero (untracked (call c)) w name v e None
      (mkW s (redisCluster w) (perf w)) Hc) as (w1 & E & _ & _ & l & P & F).
    { unfold untracked, mbind, M_bind. by rewrite (call_run c w _ _ He). }
    rewrite E in Hm. injection Hm as _ <-. rewrite P, fails_app, F. simpl. lia.
  - exfalso. revert Hm. unfold method, getClusterClient, mbind, M_bind, get, gets, mret, M_ret.
    rewrite Hc. cbn [snd negb]. unfold reporting, untracked, mbind, M_bind, call, on_server. rewrite He.
    by destruct (reportPerf _ _ _ _ _) as [[?|?] ?].
Qed.

(** The methods that return the library's result directly never count a failure,
    whatever the server answers: the deferred report still sees a nil error. *)
Theorem failures_not_counted :
  (forall key fields, never_counts (HMDel key fields)) /\
  (forall key d, never_counts (Expire key d)) /\ (forall key d, never_counts (PExpire key d)) /\
  (forall key, never_counts (PTtl key)) /\ (forall key ms, never_counts (ZAdd key ms)) /\
  (forall key a b, never_counts (ZRange key a b)) /\ (forall key a b, never_counts (ZRevRange key a b)) /\
  (forall key a b, never_counts (ZRemRangeByRank key a b)) /\
  (forall key a b, never_counts (ZRemRangeByScore key a b)) /\
  (forall key ms, never_counts (ZRem key ms)) /\ (forall key o v, never_counts (SetBit key o v)) /\
  (forall key ms, never_counts (SAdd key ms)) /\ (forall key, never_counts (SPop key)) /\
  (forall key, never_counts (LPop key)) /\ (forall key i, never_counts (LIndex key i)) /\
  (forall key v, never_counts (LPush key v)) /\ (forall key v, never_counts (RPush key v)) /\
  (forall key, never_counts (HLen key)).
Proof. split_and!; intros; apply untracked_never_counts. Qed.

Lemma tracked_run {A} cmdName (zero : A) (c : cmd A) w name v e s :
  redisCluster w = Some (name, true) -> exec c (server w) = (Ret (v, e), s) ->
  exists w', method cmdName zero (tracked (call c)) w = (Ret (v, e), w') /\
    server w' = s /\ redisCluster w' = redisCluster w /\
    fails (perf w') = fails (perf w) + (if is_failure e then 1 else 0).
Proof.
  intros Hc He. destruct (method_run cmdName zero (tracked (call c)) w name v e e
      (mkW s (redisCluster w) (perf w)) Hc) as (w1 & E & S1 & S2 & l & P & F).
  { unfold tracked, mbind, M_bind. by rewrite (call_run c w _ _ He). }
  exists w1. split_and!; try done. rewrite P, fails_app, F. done.
Qed.

(** [Eval] runs a script by its digest and falls back to its text when the server
    does not know it: the answer is then the text's, but the first attempt has been
    counted as a failure of the cluster. *)
Theorem Eval_fallback script keys args w name v msg s1 r e s2 :
  redisCluster w = Some (name, true) ->
  exec (CEvalSha (sha1_hex script) keys args) (server w) = (Ret (v, Some (Text msg)), s1) ->
  contains "NOSCRIPT" msg = true -> contains "WRONGTYPE Operation" msg = false ->
  exec (CEval script keys args) s1 = (Ret (r, e), s2) ->
  exists w', Eval_ script keys args w = (Ret (r, e), w') /\ server w' = s2 /\
    fails (perf w') = fails (perf w) + 1 + (if is_failure e then 1 else 0).
Proof.
  intros Hc H1 Hn Hw H2.
  destruct (tracked_run "IncrBy" (VInt (-1)) _ w name _ _ _ Hc H1) as (w1 & E1 & S1 & C1 & F1).
  rewrite Hc in C1.
  destruct (tracked_run "Eval" (VInt (-1)) (CEval script keys args) w1 name r e s2 C1) as (w2 & E2 & S2 & _ & F2);
    [by rewrite S1|].
  exists w2. unfold Eval_, EvalSha, getScriptSha, mbind, M_bind. rewrite E1. cbn [snd].
  cbn [Error]. rewrite Hn. rewrite E2. split; [done|]. split; [done|].
  rewrite F2, F1. simpl. by rewrite Hw.
Qed.
End client.

(** The options a cluster client is made with are sane whatever the
    configuration: positive connection time-out, pool size and idle time-out, the
    other durations positive or -1, no negative idle minimum, at least one address. *)
Theorem newRedisCluster_sane c o :
  newRedisCluster (Some c) = inl o ->
  o_Addrs o ≠ [] /\ 0 < o_DialTimeout o /\ 0 < o_PoolSize o /\ 0 < o_IdleTimeout o /\
  0 <= o_MinIdleConns o /\ o_MaxRedirects o ≠ 0 /\
  Forall (fun d => d = -1 \/ 0 < d)
    [o_ReadTimeout o; o_WriteTimeout o; o_PoolTimeout o; o_IdleCheckFrequency o].
Proof.
  unfold newRedisCluster. destruct (decide (Addrs c = [])) as [|Ha]; [done|]. intros [= <-].
  assert (forall v d, 0 < d -> 0 < pos_or v d) as Hp
    by (intros v d Hd; unfold pos_or; destruct (Z.leb_spec v 0); lia).
  assert (forall v d, 0 < d -> neg_or v d = -1 \/ 0 < neg_or v d) as Hn.
  { intros v d Hd. unfold neg_or. destruct (Z.ltb_spec v 0); [by left|].
    destruct (Z.eqb_spec v 0); right; lia. }
  cbn. split_and!; try done; try (by apply Hp).
  - destruct (Z.ltb_spec (MinIdleConns c) 0); lia.
  - destruct (Z.eqb_spec (MaxRedirects c) 0); lia.
  - do 4 (apply Forall_cons; split; [by apply Hn|]). by apply Forall_nil.
Qed.

(** ** A concrete server *)

(** A server that knows keys to be strings and forgets scripts. *)
Definition demo_exec : forall A, cmd A -> M (gmap string string) (A * option err) := fun A c =>
  match c in cmd A return M (gmap string string) (A * option err) with
  | CGet k => s ← get; mret (match s !! k with Some v => (v, None) | None => (EmptyString, Some RedisNil) end)
  | CEvalSha _ _ _ => mret (VNil, Some (Text "NOSCRIPT No matching script"))
  | CEval _ _ _ => mret (VInt 1, None)
  | CPing => mret ("PONG", None)
  | CSet k v _ => _ ← modify (insert k v); mret ("OK", None)
  | CSetNX _ _ _ | CHSetNX _ _ _ | CHMSet _ _ | CExpire _ _ | CPExpire _ _ => mret (false, None)
  | CHGet _ _ | CSPop _ | CLPop _ | CLIndex _ _ => mret (EmptyString, Some RedisNil)
  | CHMGet _ _ => mret ([], None)
  | CHScan _ _ _ _ | CZRange _ _ _ | CZRevRange _ _ _ => mret ([], None)
  | CHGetAll _ => mret (∅, None)
  | CZRangeByScoreWithScores _ _ _ _ _ | CZRevRangeByScoreWithScores _ _ _ _ _ => mret ([], None)
  | CDel _ | CHSet _ _ _ | CHDel _ _ | CPTTL _ | CHIncrBy _ _ _ | CIncrBy _ _ | CZAdd _ _
  | CZRemRangeByRank _ _ _ | CZRemRangeByScore _ _ _ | CZRem _ _ | CSetBit _ _ _ | CExists _
  | CSAdd _ _ | CLPush _ _ | CRPush _ _ | CHLen _ => mret (0, None)
  end.

Fixpoint demo_pipe (A : Type) (cs : list (cmd A)) : M (gmap string string) (list (A * option err) * option err) :=
  match cs with
  | [] => mret ([], None)
  | c :: cs' =>
      r ← demo_exec A c; rs ← demo_pipe A cs';
      mret (r :: rs.1, match r.2 with Some e => Some e | None => rs.2 end)
  end.

Definition demo_now (m : gmap string string) : Z := 1000 * Z.of_nat (size m).

Definition demo_world : @W (gmap string string) := mkW {["a" := "1"]} (Some ("c", true)) [].

Lemma Get_contract_witness :
  exists w', Get demo_now demo_exec "zz" demo_world = (Ret (EmptyString, Some ErrNil), w') /\
    server w' = {["a" := "1"]} /\ fails (perf w') = fails [] + 0.
Proof. by apply (Get_contract demo_now demo_exec "zz" demo_world "c" EmptyString (Some RedisNil)). Defined.

Lemma MGet_positions_witness :
  exists vs w', MGet demo_now demo_pipe ["b"; "a"] demo_world = (Ret (vs, None), w') /\ length vs = 2%nat /\
    forall i, vs !! i = (fun r => match r with (v, None) => Some v | (_, Some _) => None end) <$>
      [(EmptyString, Some RedisNil); ("1", None)] !! i.
Proof.
  apply (MGet_positions demo_now demo_pipe ["b"; "a"] demo_world "c" _ (Some RedisNil) {["a" := "1"]});
    [done| |done|reflexivity|by right].
  repeat constructor; set_solver.
Defined.

Lemma second_versions_do_nothing_witness :
  (exists w', MGet2 demo_now demo_pipe ["a"] demo_world = (Ret ([None], None), w') /\ server w' = server demo_world) /\
  (exists m w', MSet2 demo_now demo_pipe {["a" := "2"]} 0 demo_world = (Ret (m, None), w') /\
     server w' = server demo_world /\ map_Forall (fun _ b => b = false) m) /\
  (exists m w', MDel2 demo_now demo_pipe ["a"] demo_world = (Ret (m, None), w') /\ server w' = server demo_world /\
     map_Forall (fun _ b => b = false) m).
Proof. by apply (second_versions_do_nothing demo_now demo_pipe ["a"] {["a" := "2"]} 0 demo_world "c"). Defined.

Lemma Eval_fallback_witness :
  exists w', Eval_ demo_now demo_exec (fun _ => "sha") "return 1" [] [] demo_world = (Ret (VInt 1, None), w') /\
    server w' = {["a" := "1"]} /\ fails (perf w') = fails [] + 1 + 0.
Proof. by eapply (Eval_fallback demo_now demo_exec (fun _ => "sha") "return 1" [] [] demo_world "c"). Defined.

Lemma newRedisCluster_sane_witness :
  exists o, newRedisCluster (Some (mkConf "c" ["h:1"] (-5) (-5) 0 0 7 (-1) 0 (-1) 0 EmptyString)) = inl o /\
  o_Addrs o ≠ [] /\ 0 < o_DialTimeout o /\ 0 < o_PoolSize o /\ 0 < o_IdleTimeout o /\
  0 <= o_MinIdleConns o /\ o_MaxRedirects o ≠ 0 /\
  Forall (fun d => d = -1 \/ 0 < d)
    [o_ReadTimeout o; o_WriteTimeout o; o_PoolTimeout o; o_IdleCheckFrequency o].
Proof.
  eexists. split; [reflexivity|].
  apply (newRedisCluster_sane (mkConf "c" ["h:1"] (-5) (-5) 0 0 7 (-1) 0 (-1) 0 EmptyString)). reflexivity.
Defined.

End Redis.
