(* ===== verification/RedisStart.v ===== *)
(** * Starting and closing the redis cluster client ([databases/redisdb/cluster.go])

    Where the configuration comes from, the one start and the one close of a client.
    The library (making a cluster client, its [Ping] and its [Close]) and the
    parsed configuration files are parameters. *)

From S2P Require Import Prelude GoStd GoStrings Redis.
Import GoStd GoStrings.

Module RedisStart.

Section client.
(** Cluster clients of the library, configuration files, the servers. *)
Context {Cl Ini U : Type}.
Variable NewClusterClient : Redis.ClusterOptions -> U -> Cl * U.
Variable Ping : Cl -> U -> option string * U.
Variable CloseClient : Cl -> U -> option string * U.
Variable Load : string -> Ini + string.
(** The text of a key of a section, and its integer, zero where it is none. *)
Variable Key : Ini -> string -> string -> string.
Variable Int : Ini -> string -> string -> Z.

(** A cluster that was made: its name, its client, and whether the channel [stop] has
    been closed. *)
(* [databases/redisdb/cluster.go:80-84] RedisCluster *)
Record RedisCluster : Type := mkCluster { clusterName : string; clusterClient : Cl; stopped : bool }.

(* [databases/redisdb/cluster.go:86-95] RedisClusterClient *)
Record RedisClusterClient : Type := mkClient {
  RedisConfig : option Redis.RedisClusterConf; RedisConf : option Ini; RedisConfPath : string; ClusterName : string;
  redisCluster : option RedisCluster; started : bool; closed : bool
}.

(** The client, the servers, and what is logged. *)
Record World : Type := mkWorld { rc : RedisClusterClient; user : U; errors : list string }.

Definition with_cluster (c : option RedisCluster) (r : RedisClusterClient) :=
  mkClient (RedisConfig r) (RedisConf r) (RedisConfPath r) (ClusterName r) c (started r) (closed r).
Definition with_path (p : string) (r : RedisClusterClient) :=
  mkClient (RedisConfig r) (RedisConf r) p (ClusterName r) (redisCluster r) (started r) (closed r).
Definition with_once (s c : bool) (r : RedisClusterClient) :=
  mkClient (RedisConfig r) (RedisConf r) (RedisConfPath r) (ClusterName r) (redisCluster r) s c.
Definition on_client (f : RedisClusterClient -> RedisClusterClient) : M World unit :=
  modify (fun w => mkWorld (f (rc w)) (user w) (errors w)).
Definition on_user {A} (f : U -> A * U) : M World A := fun w =>
  let '(a, u) := f (user w) in (Ret a, mkWorld (rc w) u (errors w)).
Definition log_error (s : string) : M World unit := modify (fun w => mkWorld (rc w) (user w) (errors w ++ [s])).

(** A server that does not answer is only logged. *)
(* [databases/redisdb/cluster.go:211-227] RedisClusterClient.newRedisCluster, the client *)
Definition make_cluster (conf : Redis.RedisClusterConf) : M World (option string) :=
  match Redis.newRedisCluster (Some conf) with
  | inr e => mret (Some e)
  | inl options =>
      cl ← on_user (NewClusterClient options);
      e ← on_user (Ping cl);
      _ ← (match e with Some err => log_error ("init cluster client fail, " +:+ err) | None => mret tt end);
      _ ← on_client (with_cluster (Some (mkCluster (Redis.ClusterName conf) cl false)));
      mret None
  end.

Definition conf_of (f : Ini) (cn : string) : Redis.RedisClusterConf :=
  let s := "Redis." +:+ cn in
  Redis.mkConf cn (split "," (Key f s "addr")) (Int f s "dialTimeout") (Int f s "readTimeout") (Int f s "writeTimeout")
    (Int f s "poolSize") (Int f s "poolTimeout") (Int f s "minIdleConns") (Int f s "idleTimeout")
    (Int f s "idleCheckFrequency") (Int f s "maxRedirects") (Key f s "password").

(* [databases/redisdb/cluster.go:229-264] RedisClusterClient.initRedisCluster *)
Definition initRedisCluster (f : Ini) (cn : string) : M World (option string) := make_cluster (conf_of f cn).

(* [databases/redisdb/cluster.go:266-285] RedisClusterClient.initObjForRedisCluster *)
Definition initObjForRedisCluster (path : string) : M World (option string) :=
  if String.eqb path EmptyString then mret (Some "redisConf not set in g_cfg"%string) else
  if negb (has_suffix ".ini" path) then mret (Some "redisConf not an ini file"%string) else
  match Load path with
  | inr err => mret (Some err)
  | inl f => r ← gets rc; initRedisCluster f (ClusterName r)
  end.

(* [databases/redisdb/cluster.go:97-113] RedisClusterClient.Start *)
Definition Start : M World (option string) :=
  r ← gets rc;
  if started r then mret None else
  _ ← on_client (fun r => with_once true (closed r) r);
  match RedisConfig r, RedisConf r with
  | Some c, _ => make_cluster c
  | None, Some f => initRedisCluster f (ClusterName r)
  | None, None =>
      _ ← (if String.eqb (RedisConfPath r) EmptyString then on_client (with_path "conf/conf.ini") else mret tt);
      r ← gets rc; initObjForRedisCluster (RedisConfPath r)
  end.

(* [databases/redisdb/cluster.go:115-129] RedisClusterClient.Close *)
Definition Close : M World unit :=
  r ← gets rc;
  if closed r then mret tt else
  _ ← on_client (fun r => with_once (started r) true r);
  match redisCluster r with
  | None => panic "invalid memory address or nil pointer dereference"
  | Some c =>
      _ ← on_client (with_cluster (Some (mkCluster (clusterName c) (clusterClient c) true)));
      _ ← on_user (CloseClient (clusterClient c));
      mret tt
  end.

(** ** What a start leaves *)

(** A cluster that was made from [conf]: its client is the library's for the options. *)
Definition made (conf : Redis.RedisClusterConf) (w w' : World) : Prop := exists options cl u,
  Redis.newRedisCluster (Some conf) = inl options /\ NewClusterClient options (user w) = (cl, u) /\
  redisCluster (rc w') = Some (mkCluster (Redis.ClusterName conf) cl false) /\ user w' = (Ping cl u).2.

Lemma make_cluster_run conf w : exists e w', make_cluster conf w = (Ret e, w') /\
  started (rc w') = started (rc w) /\ (Redis.Addrs conf ≠ [] -> e = None) /\
  match e with None => made conf w w' | Some _ => w' = w end.
Proof.
  unfold make_cluster, made. destruct (Redis.newRedisCluster (Some conf)) as [o|e] eqn:E.
  - unfold on_user, on_client, log_error. destruct (NewClusterClient o (user w)) as [cl u] eqn:En.
    exists None. destruct (Ping cl u) as [[err|] u'] eqn:Ep; go_run; rewrite En; cbn; rewrite Ep; cbn; eexists;
      (split; [reflexivity|]); (split; [done|]); (split; [done|]); exists o, cl, u; rewrite Ep; done.
  - exists (Some e), w. split_and!; try done. intros Ha. cbn in E. by rewrite decide_False in E.
Qed.

(** A configuration that is read from a file has an address, if only the empty one. *)
Lemma split_loop_some sep s cur : split_loop sep s cur ≠ [].
Proof.
  revert cur. induction s as [|a s IH]; intros cur; cbn [split_loop]; [done|]. destruct (Ascii.eqb a sep); [done|apply IH].
Qed.

Lemma conf_of_addrs f cn : Redis.Addrs (conf_of f cn) ≠ [].
Proof. apply split_loop_some. Qed.

(** The configuration a client starts with, if it can be had. *)
Definition chosen (r : RedisClusterClient) : Redis.RedisClusterConf + string :=
  match RedisConfig r, RedisConf r with
  | Some c, _ => inl c
  | None, Some f => inl (conf_of f (ClusterName r))
  | None, None =>
      let path := if String.eqb (RedisConfPath r) EmptyString then "conf/conf.ini"%string else RedisConfPath r in
      if negb (has_suffix ".ini" path) then inr "redisConf not an ini file"%string else
      match Load path with inr err => inr err | inl f => inl (conf_of f (ClusterName r)) end
  end.

Lemma Start_chosen w : started (rc w) = false -> exists w0, user w0 = user w /\ started (rc w0) = true /\
  redisCluster (rc w0) = redisCluster (rc w) /\
  Start w = match chosen (rc w) with inl c => make_cluster c w0 | inr e => (Ret (Some e), w0) end.
Proof.
  intros Hs. unfold Start, chosen, gets, on_client. go_run. rewrite Hs. cbn. destruct (RedisConfig (rc w)) as [c|].
  { eexists. split_and!; [..|reflexivity]; done. }
  destruct (RedisConf (rc w)) as [f|]. { eexists. split_and!; [..|reflexivity]; done. }
  destruct (String.eqb_spec (RedisConfPath (rc w)) EmptyString) as [E|E]; cbn; unfold initObjForRedisCluster; cbn.
  - eexists. split_and!; [..|destruct (Load "conf/conf.ini"); reflexivity]; done.
  - destruct (String.eqb_spec (RedisConfPath (rc w)) EmptyString) as [|_]; [done|].
    eexists. split_and!; [..|destruct (negb (has_suffix ".ini" (RedisConfPath (rc w)))); [reflexivity|];
      destruct (Load (RedisConfPath (rc w))); reflexivity]; done.
Qed.

(** A redis cluster client is started once.  The configuration is the one given, or
    that of the given file, or that of the path.  With one that is had from a file
    the start always succeeds, whatever it holds and whether or not a server
    answers; with a given one it fails exactly if that has no address.  A client
    that started has the library's client for the options of the configuration; a
    start that failed is not repeated: every later one reports success. *)
Theorem cluster_Start w : started (rc w) = false -> redisCluster (rc w) = None -> exists e w',
  Start w = (Ret e, w') /\ Start w' = (Ret None, w') /\
  match chosen (rc w) with
  | inr err => e = Some err /\ redisCluster (rc w') = None
  | inl c => (e = None <-> Redis.Addrs c ≠ []) /\ (RedisConfig (rc w) = None -> e = None) /\
      match e with None => made c w w' | Some _ => redisCluster (rc w') = None end
  end.
Proof.
  intros (w0 & Hu & Hst & Hcl & Hrun)%Start_chosen Hn.
  assert (forall w', started (rc w') = true -> Start w' = (Ret None, w')) as Hagain.
  { intros w' H. unfold Start, gets, mbind, M_bind. by rewrite H. }
  destruct (chosen (rc w)) as [c|err] eqn:Ec; rewrite Hrun.
  - destruct (make_cluster_run c w0) as (e & w' & Hm & Hs' & Ha & He). exists e, w'.
    split; [done|]. split; [apply Hagain; congruence|].
    assert (e = None <-> Redis.Addrs c ≠ []) as Hiff.
    { split; [intros ->|done]. destruct He as (o & _ & _ & Ho & _). cbn in Ho. by destruct (decide _). }
    split; [done|]. split.
    + intros Hc. apply Ha. unfold chosen in Ec. rewrite Hc in Ec.
      repeat match type of Ec with
      | context [match ?x with _ => _ end] => destruct x eqn:?; try done
      end; injection Ec as <-; apply conf_of_addrs.
    + destruct e; [by subst w'; rewrite Hcl|]. unfold made in *. by rewrite Hu in He.
  - exists (Some err), w0. split_and!; try done; [by apply Hagain|by rewrite Hcl].
Qed.

(** Closing a client that has no cluster panics, once. *)
Lemma unstarted_Close w : closed (rc w) = false -> redisCluster (rc w) = None -> exists w',
  Close w = (Panic "invalid memory address or nil pointer dereference", w') /\ Close w' = (Ret tt, w').
Proof.
  intros Hc Hn. unfold Close, gets, on_client. go_run. rewrite Hc. cbn. rewrite Hn. by eexists.
Qed.

(** A close ends the library's client once; the second does nothing. *)
Lemma Close_once_only w c : closed (rc w) = false -> redisCluster (rc w) = Some c -> exists w',
  Close w = (Ret tt, w') /\ Close w' = (Ret tt, w') /\ user w' = (CloseClient (clusterClient c) (user w)).2 /\
  redisCluster (rc w') = Some (mkCluster (clusterName c) (clusterClient c) true).
Proof.
  intros Hc Hn. unfold Close, gets, on_client, on_user. go_run. rewrite Hc. cbn. rewrite Hn. cbn.
  destruct (CloseClient (clusterClient c) (user w)) as [e u] eqn:E. by eexists.
Qed.

End client.

(** ** A client without addresses *)

Module Sample.

(** A file without the section of the cluster; no server answers. *)
Definition world : World (Cl := Redis.ClusterOptions) (Ini := unit) (U := nat) :=
  mkWorld (mkClient None (Some tt) EmptyString "cache" None false false) 0%nat [].

Definition Ping (_ : Redis.ClusterOptions) (n : nat) : option string * nat := (Some "refused"%string, n).

Abbreviation Start0 := (Start (fun o n => (o, S n)) Ping (fun _ => inr "no file"%string) (fun _ _ _ => EmptyString) (fun _ _ _ => 0)).

Lemma cluster_Start_witness : started (rc world) = false /\ redisCluster (rc world) = None /\
  exists w', Start0 world = (Ret None, w') /\ Start0 w' = (Ret None, w') /\ is_Some (redisCluster (rc w')).
Proof.
  split; [done|]. split; [done|].
  destruct (cluster_Start (fun o n => (o, S n)) Ping (fun _ => inr "no file"%string) (fun _ _ _ => EmptyString) (fun _ _ _ => 0)
    world eq_refl eq_refl) as (e & w' & Hrun & Hagain & _ & He & Hm).
  specialize (He eq_refl). subst e. exists w'. split; [exact Hrun|]. split; [exact Hagain|].
  destruct Hm as (o & cl & u & _ & _ & -> & _). by eexists.
Defined.

(** The start succeeds with the one address that is empty. *)
Example starts_without_address : exists w', Start0 world = (Ret None, w') /\
  errors w' = ["init cluster client fail, refused"%string] /\
  (Redis.o_Addrs ∘ clusterClient <$> redisCluster (rc w')) = Some [EmptyString].
Proof. eexists. split; [reflexivity|]. by vm_compute. Qed.

End Sample.

End RedisStart.
