(* ===== verification/RedisPool.v ===== *)
(** * The pool of single servers ([databases/redisdb/pool.go])

    A client of several equal servers: a command that fails is asked of another
    server, and a batch runs its commands in a pool of goroutines, again and again
    for those that fail. *)

From S2P Require Import Prelude GoStd GoStrings Utls.
Import GoStd GoStrings Utls.

Module RedisPool.

(** [redis.ErrNil] of the library and [ErrNil] of the package are not failures. *)
Inductive err : Type := LibNil | ErrNil | Text (msg : string).

#[export] Instance err_eq_dec : EqDecision err.
Proof. solve_decision. Defined.

(** Arguments of commands. *)
Inductive value : Type := VStr (s : string) | VInt (z : Z).

(** ** Configuration *)

(* [databases/redisdb/pool.go:46-57] RedisConfig *)
Record RedisConfig : Type := mkConfig {
  Addrs : list string; MaxActive : Z; MaxIdle : Z; Retry : Z; IdleTimeoutSec : Z; ConnTimeoutMs : Z;
  ReadTimeoutMs : Z; WriteTimeoutMs : Z; Password : string; DbNumber : Z
}.

(** What the pool of one server is made with. *)
Record options : Type := mkOptions {
  o_MaxActive : Z; o_MaxIdle : Z; o_IdleTimeout : Z; o_conn : Z; o_read : Z; o_write : Z; o_password : string; o_db : Z
}.

(* [databases/redisdb/pool.go:59-63] RedisPool *)
Record Pool : Type := mkPool { servers : list string; p : gmap string options; retry : Z }.

Definition or_default (v d : Z) : Z := if v <=? 0 then d else v.

Fixpoint add_servers (o : options) (l : list string) (pools : gmap string options) (finalServers : list string) :
  gmap string options * list string :=
  match l with
  | [] => (pools, finalServers)
  | server :: l =>
      if String.eqb server EmptyString then add_servers o l pools finalServers
      else match pools !! server with
           | Some _ => add_servers o l pools finalServers
           | None => add_servers o l (<[server := o]> pools) (finalServers ++ [server])
           end
  end.

(* [databases/redisdb/pool.go:161-212] newPoolRetryTimeout *)
Definition newPoolRetryTimeout (l : list string) (o : options) (retry : Z) : Pool :=
  let '(pools, finalServers) := add_servers o l ∅ [] in mkPool finalServers pools retry.

(** A pool, or the text of an error. *)
(* [databases/redisdb/pool.go:114-159] newRedisPools *)
Definition newRedisPools (cfg : RedisConfig) : Pool + string :=
  if len (Addrs cfg) <=? 0 then inr "servers empty" else
  let ms v d := or_default (i64 (v * Millisecond)) (d * Millisecond) in
  inl (newPoolRetryTimeout (Addrs cfg)
    (mkOptions (or_default (MaxActive cfg) 500) (or_default (MaxIdle cfg) 8)
       (i64 (or_default (IdleTimeoutSec cfg) 300 * Second)) (ms (ConnTimeoutMs cfg) 400) (ms (ReadTimeoutMs cfg) 700)
       (ms (WriteTimeoutMs cfg) 500) (Password cfg) (DbNumber cfg))
    (or_default (Retry cfg) 3)).

(** The section of an ini file: a key gives its text, and [Int] 0 for one that is
    not a number. *)
Section ini.
Variable key : string -> string.
Variable int : string -> Z.

(* [databases/redisdb/pool.go:235-267] initRedis *)
Definition initRedis : Pool + string :=
  newRedisPools (mkConfig (split "," (key "addr")) (int "maxActive") (int "maxIdle") (int "retry") (int "idleTimeout")
    (int "connTimeout") (int "readTimeout") (int "writeTimeout") (key "password") (int "dbNumber")).
End ini.

(* [databases/redisdb/pool.go:214-233] initObjForRedisDb *)
Definition initObjForRedisDb (load : string -> (string -> string) * (string -> Z) + string) (path : string) : Pool + string :=
  if String.eqb path EmptyString then inr "redisConf not set in g_cfg"
  else if negb (has_suffix ".ini" path) then inr "redisConf not an ini file"
  else match load path with
       | inr e => inr e
       | inl (key, int) => initRedis key int
       end.

(** ** Start and close *)

(* [databases/redisdb/pool.go:65-74] RedisPoolClient *)
Record RedisPoolClient : Type := mkClient {
  conf : option RedisConfig; ini : option ((string -> string) * (string -> Z)); RedisConfPath : string;
  startOnce : bool; closeOnce : bool; redisPool : option Pool
}.

(** The path that is used is kept, and the pool when there is one. *)
(* [databases/redisdb/pool.go:76-92] Start *)
Definition Start (load : string -> (string -> string) * (string -> Z) + string) (c : RedisPoolClient) :
  option string * RedisPoolClient :=
  if startOnce c then (None, c) else
  let path := match conf c, ini c with
              | None, None => if String.eqb (RedisConfPath c) EmptyString then "conf/conf.ini" else RedisConfPath c
              | _, _ => RedisConfPath c
              end in
  let r := match conf c, ini c with
           | Some cfg, _ => newRedisPools cfg
           | None, Some (key, int) => initRedis key int
           | None, None => initObjForRedisDb load path
           end in
  match r with
  | inl q => (None, mkClient (conf c) (ini c) path true (closeOnce c) (Some q))
  | inr e => (Some e, mkClient (conf c) (ini c) path true (closeOnce c) (redisPool c))
  end.

(** The servers whose pools are closed; a client that never started panics. *)
(* [databases/redisdb/pool.go:94-112] Close *)
Definition Close : M RedisPoolClient (list string) := fun c =>
  if closeOnce c then (Ret [], c) else
  let c' := mkClient (conf c) (ini c) (RedisConfPath c) (startOnce c) true (redisPool c) in
  match redisPool c with
  | None => (Panic "invalid memory address or nil pointer dereference", c')
  | Some q => (Ret (map_to_list (p q)).*1, c')
  end.

(** The servers of a pool are the addresses that are not empty, each once, in order. *)
Lemma add_servers_ok o l : forall pools fs, NoDup fs -> (forall s, s ∈ fs <-> is_Some (pools !! s)) -> EmptyString ∉ fs ->
  let '(pools', fs') := add_servers o l pools fs in
  NoDup fs' /\ (forall s, s ∈ fs' <-> is_Some (pools' !! s)) /\ (forall s, s ∈ fs' <-> s ∈ fs \/ (s ∈ l /\ s ≠ EmptyString)).
Proof.
  induction l as [|a l IH]; intros pools fs Hn Hp He; cbn [add_servers].
  { split; [done|]. split; [done|]. intros s. split; [by left|]. by intros [?|[?%elem_of_nil _]]. }
  destruct (String.eqb_spec a EmptyString) as [->|Ha].
  { specialize (IH pools fs Hn Hp He). destruct (add_servers _ _ _ _) as [pools' fs'].
    destruct IH as (? & ? & H). split; [done|]. split; [done|]. intros s. rewrite H, elem_of_cons. naive_solver. }
  destruct (pools !! a) as [x|] eqn:E.
  - specialize (IH pools fs Hn Hp He). destruct (add_servers _ _ _ _) as [pools' fs'].
    destruct IH as (? & ? & H). split; [done|]. split; [done|]. intros s. rewrite H, elem_of_cons.
    assert (a ∈ fs) by (apply Hp; by eexists). naive_solver.
  - assert (a ∉ fs) as Hna by (intros [y Hy]%Hp; congruence).
    specialize (IH (<[a := o]> pools) (fs ++ [a])). destruct (add_servers _ _ _ _) as [pools' fs'].
    destruct IH as (? & ? & H).
    + apply NoDup_app. split; [done|]. split; [|apply NoDup_singleton]. intros y Hy ->%list_elem_of_singleton. done.
    + intros s. rewrite elem_of_app, list_elem_of_singleton, Hp. destruct (decide (s = a)) as [->|Hs].
      * rewrite lookup_insert_eq. split; [by eexists|by right].
      * rewrite lookup_insert_ne by done. split; [by intros [?|?]|by left].
    + rewrite not_elem_of_app, list_elem_of_singleton. done.
    + split; [done|]. split; [done|]. intros s. rewrite H, elem_of_app, list_elem_of_singleton, elem_of_cons. naive_solver.
Qed.

Lemma newPoolRetryTimeout_servers l o r : let q := newPoolRetryTimeout l o r in
  NoDup (servers q) /\ retry q = r /\ (forall s, s ∈ servers q <-> s ∈ l /\ s ≠ EmptyString) /\
  (forall s, s ∈ servers q <-> is_Some (p q !! s)).
Proof.
  unfold newPoolRetryTimeout. pose proof (add_servers_ok o l ∅ []) as H.
  destruct (add_servers o l ∅ []) as [pools fs]. cbn. destruct H as (H1 & H2 & H3).
  - constructor.
  - intros s. rewrite lookup_empty, elem_of_nil. split; [done|by intros []].
  - apply not_elem_of_nil.
  - split; [done|]. split; [done|]. split; [|done]. intros s. rewrite H3, elem_of_nil. naive_solver.
Qed.

(** ** One command *)

Inductive pevent : Type :=
| PcIncr (key : string) (n : Z) | PcCost (key : string) (cost : Z) | PcCostFail (key : string) (n : Z)
| GlIncr (key : string) (n : Z) | GlIncrCost (key : string) (cost : Z) | LogWarn (what : string).

Section client.
Context {R reply : Type}.
(** The time, which passes with the servers' work. *)
Variable now : R -> Z.
(** A command on a connection from the pool of a server, which goes back there; that
    no connection is to be had is an error of the command. *)
Variable command : string -> string -> list value -> M R (reply * option err).
Variable no_reply : reply.
(** [rand.Perm] of the number of servers, by turn. *)
Variable perm : Z -> list nat.

Variable pool : Pool.

(** The servers' state, what was counted and the variable [err] of the call. *)
Record W : Type := mkW { remote : R; perf : list pevent; err_var : option err }.

Definition emit (e : pevent) : M W unit := modify (fun w => mkW (remote w) (perf w ++ [e]) (err_var w)).
Definition set_err (e : option err) : M W unit := modify (fun w => mkW (remote w) (perf w) e).
Definition on_remote {A} (m : M R A) : M W A := fun w =>
  match m (remote w) with (r, s) => (r, mkW s (perf w) (err_var w)) end.

Fixpoint pick (usedIps : list string) (l : list nat) : option string :=
  match l with
  | [] => None
  | idx :: l =>
      match servers pool !! idx with
      | Some server => if StringInSlice usedIps server then pick usedIps l else Some server
      | None => pick usedIps l
      end
  end.

(** [None] is the nil connection with no error. *)
(* [databases/redisdb/pool.go:411-424] getConn *)
Definition getConn (turn : Z) (usedIps : list string) : option string := pick usedIps (perm turn).

(** A method of the nil connection panics. *)
(* [databases/redisdb/pool.go:332-338] do *)
Definition do (conn : option string) (commandName : string) (args : list value) : M W (reply * option err) :=
  match conn with
  | None => panic "invalid memory address or nil pointer dereference"
  | Some server => on_remote (command server commandName args)
  end.

(** [n] turns are left after this one. *)
(* [databases/redisdb/pool.go:294-326] Do, the loop *)
Fixpoint do_loop (n : nat) (turn : Z) (usedIps : list string) (commandName : string) (args : list value) :
  M W (reply * option err) :=
  let server := getConn turn usedIps in
  r ← do server commandName args;
  _ ← set_err r.2;
  match r.2, n with
  | Some _, S n => if retry pool <=? turn then mret r
                   else do_loop n (turn + 1) (usedIps ++ [default EmptyString server]) commandName args
  | _, _ => mret r
  end.

Definition names : string := "[" +:+ join " " (servers pool) +:+ "]".

(** What is counted when the call ends, also by a panic. *)
(* [databases/redisdb/pool.go:271-291] Do, the deferred call *)
Definition report (st : Z) (commandName : string) (args : list value) : M W unit :=
  w ← get;
  let cost := time_Sub (now (remote w)) st in
  let ms := Z.quot cost Millisecond in
  _ ← emit (PcCost ("reidsPool,name=" +:+ names +:+ ",cmd=redis_pool_cmd_" +:+ ToLower commandName) cost);
  _ ← emit (GlIncr "redisPool_call" 1);
  _ ← emit (GlIncrCost "redisPool_cost" cost);
  _ ← (if 20 <? ms then
         _ ← emit (PcIncr "redis_pool_common_slow_count" 1);
         _ ← (if 100 <? ms then
                match args with
                | [] => panic "index out of range [0] with length 0"
                | _ => emit (LogWarn "redisPool slow")
                end
              else mret tt);
         emit (PcCost ("reidsPool,name=" +:+ names +:+ ",cmd=redis_pool_cmd_normal") cost)
       else mret tt);
  match err_var w with
  | Some (Text _) =>
      _ ← emit (PcCostFail ("rediPool,name=" +:+ names) 1);
      emit (GlIncr "redisPool_call_fail" 1)
  | _ => mret tt
  end.

(* [databases/redisdb/pool.go:269-326] Do *)
Definition Do (commandName : string) (args : list value) : M W (reply * option err) :=
  st ← gets (fun w => now (remote w));
  _ ← set_err None;
  defer (report st commandName args) (do_loop (Z.to_nat (retry pool)) 1 [] commandName args).

(** *** Every attempt asks another server *)

(** The reference: the servers are asked in order until one answers without an
    error. *)
Fixpoint ask (ss : list string) (commandName : string) (args : list value) (last : reply * option err) :
  M R (reply * option err) :=
  match ss with
  | [] => mret last
  | s :: ss =>
      r ← command s commandName args;
      match r.2 with None => mret r | Some _ => ask ss commandName args r end
  end.

Hypothesis perm_ok : forall turn, perm turn ≡ₚ seq 0 (length (servers pool)).
Hypothesis servers_distinct : NoDup (servers pool).
Hypothesis command_returns : forall s c a st, exists r st', command s c a st = (Ret r, st').

Lemma StringInSlice_elem l s : StringInSlice l s = true <-> s ∈ l.
Proof.
  induction l as [|a l IH]; cbn [StringInSlice]; [by rewrite elem_of_nil|].
  rewrite elem_of_cons. destruct (String.eqb_spec s a); naive_solver.
Qed.

Lemma pick_some used l s : pick used l = Some s -> s ∈ servers pool /\ s ∉ used.
Proof.
  induction l as [|i l IH]; cbn [pick]; [done|]. destruct (servers pool !! i) as [x|] eqn:E; [|done].
  destruct (StringInSlice used x) eqn:Ei; [done|]. intros [= <-]. split; [by eapply list_elem_of_lookup_2|].
  intros Hin%StringInSlice_elem. congruence.
Qed.

Lemma pick_none used l : pick used l = None -> forall i x, i ∈ l -> servers pool !! i = Some x -> x ∈ used.
Proof.
  induction l as [|i l IH]; cbn [pick]; [by intros _ j x Hj%elem_of_nil|].
  intros Hp j x [->|Hj]%elem_of_cons Hx.
  - rewrite Hx in Hp. destruct (StringInSlice used x) eqn:Ei; [by apply StringInSlice_elem|done].
  - apply (IH) with (i := j); [|done..]. destruct (servers pool !! i); [destruct (StringInSlice _ _)|]; done.
Qed.

(** A server is found as long as one is left. *)
Lemma getConn_left turn used : NoDup used -> used ⊆ servers pool ->
  match getConn turn used with
  | Some s => s ∈ servers pool /\ s ∉ used
  | None => length used = length (servers pool)
  end.
Proof.
  intros Hn Hsub. unfold getConn. destruct (pick used (perm turn)) as [s|] eqn:E; [by apply (pick_some _ (perm turn))|].
  apply Nat.le_antisymm.
  - by apply submseteq_length, NoDup_submseteq.
  - apply submseteq_length, NoDup_submseteq; [done|]. intros x Hx.
    apply list_elem_of_lookup in Hx as [i Hi]. eapply pick_none; [exact E| |exact Hi].
    rewrite perm_ok. apply elem_of_seq. apply lookup_lt_Some in Hi. lia.
Qed.

Definition nil_panic : string := "invalid memory address or nil pointer dereference".

(** [k] attempts may still be made. *)
Lemma do_loop_asks c args k : forall n turn used w last, NoDup used -> used ⊆ servers pool -> is_Some last.2 ->
  (1 <= k <= S n)%nat -> Z.of_nat k = retry pool - turn + 1 ->
  exists ss r st, NoDup (used ++ ss) /\ ss ⊆ servers pool /\
    (length ss <= Nat.min k (length (servers pool) - length used))%nat /\
    ask ss c args last (remote w) = (Ret r, st) /\ remote (do_loop n turn used c args w).2 = st /\
    (is_Some r.2 -> length ss = Nat.min k (length (servers pool) - length used)) /\
    (do_loop n turn used c args w).1 =
      (if bool_decide (r.2 = None) || (k <=? length (servers pool) - length used)%nat then Ret r else Panic nil_panic).
Proof.
  induction k as [|k IH]; intros n turn used w last Hn Hsub Hlast Hk Hr; [lia|].
  pose proof (getConn_left turn used Hn Hsub) as Hg. destruct (getConn turn used) as [s|] eqn:Eg.
  2: { exists [], last, (remote w). rewrite app_nil_r, Hg, Nat.sub_diag. split; [done|]. split; [apply list_subseteq_nil|].
       split; [cbn [length]; lia|]. split; [done|].
       destruct n; cbn [do_loop]; rewrite Eg; unfold mbind, M_bind; cbn [do panic fst snd]; (split; [done|]); (split; [done|]);
         destruct Hlast as [e He]; by rewrite He, bool_decide_false by done. }
  destruct Hg as [Hs Hnew]. destruct (command_returns s c args (remote w)) as (r & st & Hc).
  assert (length used < length (servers pool))%nat as Hlt.
  { assert (length (s :: used) <= length (servers pool))%nat; [|cbn in *; lia].
    apply submseteq_length, NoDup_submseteq; [by constructor|]. intros x [->|Hx]%elem_of_cons; auto. }
  assert (NoDup (used ++ [s])) as Hn'.
  { apply NoDup_app. split; [done|]. split; [|apply NoDup_singleton]. by intros x Hx ->%list_elem_of_singleton. }
  assert (used ++ [s] ⊆ servers pool) as Hsub'.
  { intros x [Hx| ->%list_elem_of_singleton]%elem_of_app; auto. }
  set (w1 := mkW st (perf w) r.2).
  assert (do_loop n turn used c args w = match r.2, n with
    | Some _, S m => if retry pool <=? turn then (Ret r, w1) else do_loop m (turn + 1) (used ++ [s]) c args w1
    | _, _ => (Ret r, w1) end) as Hloop.
  { destruct n; cbn [do_loop]; rewrite Eg; unfold mbind, M_bind, do, on_remote; rewrite Hc; cbn; fold w1;
      destruct r.2; try destruct (_ <=? _); done. }
  destruct (r.2) as [e|] eqn:Er.
  2: { exists [s], r, st. split; [done|]. split; [by intros x ->%list_elem_of_singleton|]. split; [cbn [length]; lia|].
       cbn [ask]. unfold mbind, M_bind. rewrite Hc, Er, Hloop. split; [done|]. split; [done|]. split; [by intros []|].
       by rewrite bool_decide_true. }
  destruct k as [|k].
  - exists [s], r, st. split; [done|]. split; [by intros x ->%list_elem_of_singleton|]. split; [cbn [length]; lia|].
    cbn [ask]. unfold mbind, M_bind. rewrite Hc, Er, Hloop. split; [done|].
    replace (retry pool <=? turn) with true by (symmetry; apply Z.leb_le; lia).
    destruct (Nat.leb_spec 1 (length (servers pool) - length used)); [|lia].
    rewrite orb_true_r. destruct n; (split; [done|]); (split; [cbn [length]; lia|done]).
  - destruct n as [|n]; [lia|]. replace (retry pool <=? turn) with false in Hloop by (symmetry; apply Z.leb_gt; lia).
    destruct (IH n (turn + 1) (used ++ [s]) w1 r Hn' Hsub') as (ss & r' & st' & H1 & H2 & H3 & H4 & H5 & H6 & H7);
      [by rewrite Er|lia|lia|].
    rewrite length_app in H3, H6, H7. cbn [length] in H3, H6, H7.
    exists (s :: ss), r', st'. rewrite <- app_assoc in H1. split; [exact H1|].
    split; [intros x [->|Hx]%elem_of_cons; auto|]. cbn [length]. split; [lia|].
    cbn [ask]. unfold mbind, M_bind. rewrite Hc, Er, Hloop. split; [exact H4|]. split; [exact H5|].
    split; [intros Hf; specialize (H6 Hf); lia|]. rewrite H7.
    destruct (Nat.leb_spec (S k) (length (servers pool) - (length used + 1))),
      (Nat.leb_spec (S (S k)) (length (servers pool) - length used)); (done || lia).
Qed.

Lemma report_quiet st c args w : args ≠ [] -> exists w', report st c args w = (Ret tt, w') /\ remote w' = remote w.
Proof.
  intros Ha. destruct args as [|a args]; [done|]. unfold report, get, emit, modify, mbind, M_bind. cbn.
  destruct (20 <? _); cbn; [destruct (100 <? _); cbn|]; destruct (err_var w) as [[]|]; eexists; done.
Qed.

(** C34 A command is asked of the servers one after another, each at most once and at
    most retry of them, until one answers without an error.  The call returns that
    answer, or the last error when all retry attempts failed; with fewer servers than
    attempts it panics instead of returning the error, since the connection of the
    next attempt is nil.  For commands with arguments. *)
Theorem Do_asks_servers c args w : 1 <= retry pool -> args ≠ [] ->
  exists ss r st, NoDup ss /\ ss ⊆ servers pool /\ len ss <= retry pool /\
    ask ss c args (no_reply, Some (Text EmptyString)) (remote w) = (Ret r, st) /\
    remote (exec (Do c args) w) = st /\
    (is_Some r.2 -> len ss = Z.min (retry pool) (len (servers pool))) /\
    outcome_of (Do c args) w =
      (if bool_decide (r.2 = None) || (retry pool <=? len (servers pool)) then Ret r else Panic nil_panic).
Proof.
  intros Hretry Hargs.
  destruct (do_loop_asks c args (Z.to_nat (retry pool)) (Z.to_nat (retry pool)) 1 [] (mkW (remote w) (perf w) None)
    (no_reply, Some (Text EmptyString))) as (ss & r & st & H1 & H2 & H3 & H4 & H5 & H6 & H7);
    [constructor|apply list_subseteq_nil|done|lia|lia|].
  cbn [length] in *. rewrite Nat.sub_0_r in *. exists ss, r, st. unfold len.
  split; [exact H1|]. split; [done|]. split; [lia|]. split; [exact H4|].
  unfold exec, outcome_of, Do, gets, set_err, modify, defer, mbind, M_bind. cbn [remote perf].
  destruct (do_loop _ _ _ _ _ _) as [o w1] eqn:Ed. cbn in H5, H7.
  destruct (report_quiet (now (remote w)) c args w1 Hargs) as (w2 & -> & Hr). cbn.
  split; [by rewrite Hr|]. split; [intros Hf; specialize (H6 Hf); lia|]. rewrite H7.
  destruct (Nat.leb_spec (Z.to_nat (retry pool)) (length (servers pool))), (Z.leb_spec (retry pool) (Z.of_nat (length (servers pool))));
    done || lia.
Qed.

(** ** The commands

    The library's conversions of a reply with its error ([redis.String] and so on). *)

Variable String_ : reply * option err -> string * option err.
Variable Strings_ : reply * option err -> list string * option err.
Variable Int_ : reply * option err -> Z * option err.
Variable Bool_ : reply * option err -> bool * option err.
Variable Values_ : reply * option err -> list reply * option err.
Variable StringMap_ : list reply * option err -> gmap string string * option err.
(** [redis.StringMap] of one reply. *)
Variable StringMap1_ : reply -> gmap string string * option err.

Definition converted {A} (f : reply * option err -> A) (m : M W (reply * option err)) : M W A := r ← m; mret (f r).

(* [databases/redisdb/pool.go:433-435] Get *)
Definition Get (key : string) : M W (string * option err) := converted String_ (Do "GET" [VStr key]).

(* [databases/redisdb/pool.go:437-440] Set *)
Definition Set_ (key value : string) : M W (option err) := converted snd (Do "SET" [VStr key; VStr value]).

(* [databases/redisdb/pool.go:442-445] Del *)
Definition Del (key : string) : M W (option err) := converted snd (Do "DEL" [VStr key]).

(* [databases/redisdb/pool.go:447-449] HGetAll *)
Definition HGetAll (key : string) : M W (gmap string string * option err) := converted (fun r => StringMap_ (Values_ r)) (Do "HGETALL" [VStr key]).

(** [res] holds the cursor and the entries; an empty map when it is too short. *)
(* [databases/redisdb/pool.go:451-460] HScan *)
Definition HScan (key : string) (count : Z) : M W (gmap string string * option err) :=
  r ← Do "HSCAN" [VStr key; VInt 0; VStr "COUNT"; VInt count];
  match Values_ r with
  | (_, Some e) => mret (∅, Some e)
  | (_ :: entries :: _, None) => mret (StringMap1_ entries)
  | (_, None) => mret (∅, None)
  end.

(* [databases/redisdb/pool.go:462-464] HGet *)
Definition HGet (key field : string) : M W (string * option err) := converted String_ (Do "HGET" [VStr key; VStr field]).

(* [databases/redisdb/pool.go:466-469] HDel *)
Definition HDel (key field : string) : M W (option err) := converted snd (Do "HDEL" [VStr key; VStr field]).

(* [databases/redisdb/pool.go:471-474] HSet *)
Definition HSet (key field value : string) : M W (option err) := converted snd (Do "HSET" [VStr key; VStr field; VStr value]).

(* [databases/redisdb/pool.go:476-479] HMGet *)
Definition HMGet (key : string) (values : list string) : M W (list string * option err) := converted Strings_ (Do "HMGET" (VStr key :: map VStr values)).

(* [databases/redisdb/pool.go:481-484] HMDel *)
Definition HMDel (key : string) (values : list string) : M W (Z * option err) := converted Int_ (Do "HDEL" (VStr key :: map VStr values)).

(* [databases/redisdb/pool.go:486-488] IncrBy *)
Definition IncrBy (key : string) (val : Z) : M W (Z * option err) := converted Int_ (Do "INCRBY" [VStr key; VInt val]).

(* [databases/redisdb/pool.go:490-492] HIncrBy *)
Definition HIncrBy (key field : string) (val : Z) : M W (Z * option err) := converted Int_ (Do "HINCRBY" [VStr key; VStr field; VInt val]).

(* [databases/redisdb/pool.go:494-496] Incr *)
Definition Incr (key : string) : M W (Z * option err) := converted Int_ (Do "INCR" [VStr key]).

(* [databases/redisdb/pool.go:498-500] Expire *)
Definition Expire (key : string) (time : Z) : M W (Z * option err) := converted Int_ (Do "EXPIRE" [VStr key; VInt time]).

(* [databases/redisdb/pool.go:502-504] SetNX *)
Definition SetNX (key value : string) (expire : Z) : M W (reply * option err) := converted id (Do "SET" [VStr key; VStr value; VStr "EX"; VInt expire; VStr "NX"]).

(* [databases/redisdb/pool.go:506-512] MGet *)
Definition MGet (keys : list string) : M W (list reply * option err) := converted Values_ (Do "MGET" (map VStr keys)).

(* [databases/redisdb/pool.go:514-517] SetEx *)
Definition SetEx (key : string) (expire : Z) (value : string) : M W (option err) := converted snd (Do "SETEX" [VStr key; VInt expire; VStr value]).

(* [databases/redisdb/pool.go:519-527] SAdd *)
Definition SAdd (key : string) (vals : list string) : M W (option err) := converted snd (Do "SADD" (VStr key :: map VStr vals)).

(* [databases/redisdb/pool.go:529-532] ZAdd *)
Definition ZAdd (key : string) (score : Z) (val : string) : M W (option err) := converted snd (Do "ZADD" [VStr key; VInt score; VStr val]).

(* [databases/redisdb/pool.go:534-537] ZRemByScore *)
Definition ZRemByScore (key start stop : string) : M W (option err) := converted snd (Do "ZREMRANGEBYSCORE" [VStr key; VStr start; VStr stop]).

(* [databases/redisdb/pool.go:539-541] ZRange *)
Definition ZRange (key : string) (start stop : Z) : M W (list string * option err) := converted Strings_ (Do "ZRANGE" [VStr key; VInt start; VInt stop]).

(* [databases/redisdb/pool.go:543-545] Exists *)
Definition Exists_ (key : string) : M W (bool * option err) := converted Bool_ (Do "EXISTS" [VStr key]).

(* [databases/redisdb/pool.go:547-549] SPop *)
Definition SPop (key : string) : M W (string * option err) := converted String_ (Do "SPOP" [VStr key]).

(* [databases/redisdb/pool.go:551-553] LIndex *)
Definition LIndex (key : string) (index : Z) : M W (string * option err) := converted String_ (Do "LINDEX" [VStr key; VInt index]).

(* [databases/redisdb/pool.go:555-557] LPop *)
Definition LPop (key : string) : M W (string * option err) := converted String_ (Do "LPOP" [VStr key]).

(* [databases/redisdb/pool.go:559-561] RPush *)
Definition RPush (key val : string) : M W (Z * option err) := converted Int_ (Do "RPUSH" [VStr key; VStr val]).

(* [databases/redisdb/pool.go:563-565] LPush *)
Definition LPush (key val : string) : M W (Z * option err) := converted Int_ (Do "LPUSH" [VStr key; VStr val]).

(* [databases/redisdb/pool.go:567-569] HLen *)
Definition HLen (key : string) : M W (Z * option err) := converted Int_ (Do "HLEN" [VStr key]).

End client.

(** ** No address at all

    An address that is missing is one empty text, which passes the check for
    servers and is dropped afterwards: the client starts, and its commands panic. *)
Lemma empty_addr_starts int : exists q, initRedis (fun _ => EmptyString) int = inl q /\ servers q = [].
Proof. by eexists. Qed.

(** ** Example: a server that is down, and one that answers *)

Definition demo_pool (l : list string) : Pool :=
  newPoolRetryTimeout l (mkOptions 500 8 (300 * Second) (400 * Millisecond) (700 * Millisecond) (500 * Millisecond) EmptyString 0) 3.

(** The servers' state is the list of those asked. *)
Definition demo_command (s c : string) (args : list value) : M (list string) (string * option err) := fun asked =>
  (Ret (if String.eqb s "b:6379" then ("v", None) else (EmptyString, Some (Text "down"))), asked ++ [s]).

Definition demo_Do (q : Pool) : M (W (R := list string)) (string * option err) :=
  Do (fun _ => 0) demo_command (fun _ => seq 0 (length (servers q))) q "GET" [VStr "k"].

Definition demo_w : W (R := list string) := mkW [] [] None.

Lemma Do_asks_servers_witness :
  outcome_of (demo_Do (demo_pool ["a:6379"])) demo_w = Panic nil_panic /\
  exists ss r st, ss ⊆ ["a:6379"; "b:6379"] /\ ask demo_command ss "GET" [VStr "k"] (EmptyString, Some (Text EmptyString)) [] = (Ret r, st) /\
    remote (exec (demo_Do (demo_pool ["a:6379"; "b:6379"])) demo_w) = st /\ st = ["a:6379"; "b:6379"] /\
    outcome_of (demo_Do (demo_pool ["a:6379"; "b:6379"])) demo_w = Ret ("v", None).
Proof.
  split; [by vm_compute|]. set (q := demo_pool ["a:6379"; "b:6379"]).
  destruct (Do_asks_servers (fun _ => 0) demo_command EmptyString (fun _ => seq 0 (length (servers q))) q (fun _ => Permutation_refl _)
    (proj1 (newPoolRetryTimeout_servers _ _ _)) (fun _ _ _ _ => ex_intro _ _ (ex_intro _ _ eq_refl)) "GET" [VStr "k"] demo_w ltac:(by vm_compute) ltac:(done))
    as (ss & r & st & _ & Hss & _ & Ha & Hr & _ & _).
  exists ss, r, st. split; [exact Hss|]. split; [exact Ha|]. split; [exact Hr|]. split; [rewrite <- Hr|]; by vm_compute.
Defined.

End RedisPool.
