(* ===== verification/RedisBatch.v ===== *)
(** * Batches of commands ([databases/redisdb/pool.go], [BatchDo])

    One turn submits every request to a pool of goroutines ([runtime/gr]), closes
    the pool and collects the replies from a channel; the requests that failed go
    into the next turn.  The submitting goroutine and the workers are interleaved by
    a step relation. *)

From S2P Require Import Prelude.

Module RedisBatch.

Section batch.
Context {Req reply err : Type}.
Variable errTimeout : err.
Variable no_reply : reply.

(** What a call of [Do] for a request may give: a reply, or an error. *)
(* [databases/redisdb/pool.go:345-349] BatchReply *)
Record BatchReply : Type := mkReply { req_of : Req; Reply : reply; Err : option err }.

(** Submitting (the loop over the requests), waiting in [Close], after [close(c)], or
    the program ended because a worker panicked. *)
Inductive phase : Type := Submitting | Waiting | Collected | Crashed.

(** [leaving]: workers that have sent their reply and hold the pool's token still. *)
Record state : Type := mkState {
  todo : list Req; running : list Req; leaving : nat; c : list BatchReply; at_ : phase
}.

Definition started (req : list Req) : state := mkState req [] 0 [] Submitting.

(* [databases/redisdb/pool.go:373-376] batchDo, the size of the pool *)
Definition poolSize (req : list Req) : nat := if (100 <=? length req)%nat then 10 else 5.

Inductive label : Type := LStart (v : Req) | LTimeout (v : Req) | LReply (r : BatchReply) | LRelease | LClose | LCollect | LCrash.

Definition alive (ph : phase) : Prop := ph = Submitting \/ ph = Waiting.

(** The channel holds as many replies as there are requests in [all]. *)
(* [databases/redisdb/pool.go:371-396] batchDo *)
Inductive step (all : list Req) : state -> label -> state -> Prop :=
| step_start v t run l ch : (length run + l < poolSize all)%nat ->
    step all (mkState (v :: t) run l ch Submitting) (LStart v) (mkState t (run ++ [v]) l ch Submitting)
| step_timeout v t run l ch : (length ch < length all)%nat ->
    step all (mkState (v :: t) run l ch Submitting) (LTimeout v)
      (mkState t run l (ch ++ [mkReply v no_reply (Some errTimeout)]) Submitting)
| step_reply v t r1 r2 l ch ph ret e : alive ph -> (length ch < length all)%nat ->
    step all (mkState t (r1 ++ v :: r2) l ch ph) (LReply (mkReply v ret e))
      (mkState t (r1 ++ r2) (S l) (ch ++ [mkReply v ret e]) ph)
| step_release t run l ch ph : alive ph -> step all (mkState t run (S l) ch ph) LRelease (mkState t run l ch ph)
| step_close run l ch : step all (mkState [] run l ch Submitting) LClose (mkState [] run l ch Waiting)
| step_collect t ch : step all (mkState t [] 0 ch Waiting) LCollect (mkState t [] 0 ch Collected)
| step_crash v t run l ch ph : alive ph -> v ∈ run -> step all (mkState t run l ch ph) LCrash (mkState t run l ch Crashed).

(** Replies without and with an error, in the order of the channel. *)
(* [databases/redisdb/pool.go:397-409] batchDo, the replies *)
Definition sorted_out (ch : list BatchReply) : list BatchReply * list BatchReply * list Req :=
  let failed r := match Err r with Some _ => true | None => false end in
  (List.filter (fun r => negb (failed r)) ch, List.filter failed ch, map req_of (List.filter failed ch)).

(** [batchDo turn req]: what the channel holds at the end of a turn. *)
Variable batchDo : Z -> list Req -> list BatchReply.
Variable retry : Z.

(* [databases/redisdb/pool.go:351-369] BatchDo *)
Fixpoint BatchDo (n : nat) (turn : Z) (req : list Req) : list BatchReply :=
  let '(back, errReply, rest) := sorted_out (batchDo turn req) in
  match rest, n with
  | [], _ => back
  | _, S n => if retry <=? turn then back ++ errReply else back ++ BatchDo n (turn + 1) rest
  | _, O => back ++ errReply
  end.

(** ** One turn *)

Definition inv (all : list Req) (s : state) : Prop :=
  todo s ++ running s ++ map req_of (c s) ≡ₚ all /\
  (at_ s ≠ Submitting -> at_ s ≠ Crashed -> todo s = []) /\ (at_ s = Collected -> running s = []).

Lemma turn_inv_step all s l s' : inv all s -> step all s l s' -> inv all s'.
Proof.
  intros (Hp & Ht & Hr) Hs. destruct Hs; cbn [todo running c at_ leaving] in *; unfold inv; cbn [todo running c at_ leaving].
  - split; [|done]. rewrite <- Hp. solve_Permutation.
  - split; [|done]. rewrite <- Hp, map_app. cbn. solve_Permutation.
  - split; [|split; [done|by intros ->; destruct H as [[=]|[=]]]]. rewrite <- Hp, map_app. cbn. solve_Permutation.
  - done.
  - done.
  - split; [done|]. split; [|done]. intros _ _. by apply Ht.
  - done.
Qed.

Lemma inv_reachable all ls s : steps (step all) (started all) ls s -> inv all s.
Proof.
  apply (steps_invariant (step all)); [apply turn_inv_step|]. split; [|done]. cbn. by rewrite app_nil_r.
Qed.

(** Sends never block: the channel has room for the replies that are missing. *)
Lemma room_left all s : inv all s -> (length (c s) + length (todo s) + length (running s) = length all)%nat.
Proof. intros (Hp & _). apply Permutation_length in Hp. rewrite !length_app, length_map in Hp. lia. Qed.

Definition measure (s : state) : nat :=
  (4 * length (todo s) + 3 * length (running s) + leaving s +
   match at_ s with Submitting => 3 | Waiting => 2 | _ => 0 end)%nat.

Lemma turn_step_measure all s l s' : step all s l s' -> (measure s' < measure s)%nat.
Proof.
  intros Hs. unfold measure. destruct Hs; cbn [todo running leaving at_]; rewrite ?length_app; cbn [length]; try lia.
  destruct H as [-> | ->]; lia.
Qed.

Lemma turn_progress all s : inv all s -> alive (at_ s) -> exists l s', l ≠ LCrash /\ step all s l s'.
Proof.
  intros Hi Ha. pose proof (room_left all s Hi) as Hroom. destruct Hi as (_ & Ht & _).
  destruct s as [t run l ch ph]. cbn [todo running leaving c at_] in *.
  destruct l as [|l]; [|by eexists LRelease, _; split; [done|apply step_release]].
  destruct run as [|v run].
  2: { eexists (LReply (mkReply v no_reply None)), _. split; [done|]. apply (step_reply _ v t []); [done|]. cbn in Hroom. lia. }
  destruct Ha as [-> | ->].
  - destruct t as [|v t]; [by eexists LClose, _; split; [done|apply step_close]|].
    eexists (LStart v), _. split; [done|]. apply step_start. unfold poolSize. destruct (100 <=? length all)%nat; cbn; lia.
  - by eexists LCollect, _; split; [done|apply step_collect].
Qed.

Lemma steps_bounded all s ls s' : steps (step all) s ls s' -> (length ls + measure s' <= measure s)%nat.
Proof. induction 1 as [|s l s1 ls s2 Hl Hs IH]; [cbn [length]; lia|]. apply turn_step_measure in Hl. cbn [length]. lia. Qed.

Lemma crash_label all s ls s' : steps (step all) s ls s' -> at_ s' = Crashed -> at_ s = Crashed \/ LCrash ∈ ls.
Proof.
  induction 1 as [|s l s1 ls s2 Hl Hs IH]; [by left|]. intros [Hc|Hc]%IH; [|right; by right].
  destruct Hl; cbn in Hc; try discriminate; try (by left); by right; left.
Qed.

(** C36 A turn of a batch ends, and answers every request once.  In every interleaving
    of the submitting goroutine and the workers there are at most [4 n + 3] steps, and
    a state from which there is no step is the end of the turn, with exactly one reply
    for each of the [n] requests, or a crash, which only a panicking worker causes: no
    send on the channel blocks and none comes after it is closed. *)
Theorem batch_turn_answers all ls s : steps (step all) (started all) ls s ->
  (length ls <= 4 * length all + 3)%nat /\
  (length (c s) <= length all)%nat /\
  (at_ s = Collected -> map req_of (c s) ≡ₚ all /\ running s = []) /\
  ((forall l s', ~ step all s l s') -> at_ s = Collected \/ (at_ s = Crashed /\ LCrash ∈ ls)).
Proof.
  intros Hs. pose proof (inv_reachable all ls s Hs) as Hi. pose proof (room_left all s Hi) as Hroom.
  pose proof (steps_bounded all _ _ _ Hs) as Hb. unfold measure at 2 in Hb. cbn in Hb.
  split; [lia|]. split; [lia|]. split.
  - intros Hc. destruct Hi as (Hp & Ht & Hr). rewrite Ht, Hr in Hp by congruence. split; [exact Hp|by apply Hr].
  - intros Hstuck. destruct (at_ s) eqn:E; [| |by left|right].
    1, 2: destruct (turn_progress all s Hi) as (l & s' & _ & Hl); [unfold alive; rewrite E; auto|by destruct (Hstuck l s')].
    split; [done|]. by destruct (crash_label all _ _ _ Hs E) as [[=]|].
Qed.

(** ** All turns *)

(** What a turn returns is what some interleaving of it collects. *)
Hypothesis batchDo_collects : forall turn req, exists ls s,
  steps (step req) (started req) ls s /\ at_ s = Collected /\ batchDo turn req = c s.

Lemma batchDo_once turn req : map req_of (batchDo turn req) ≡ₚ req.
Proof.
  destruct (batchDo_collects turn req) as (ls & s & Hs & Hc & ->). apply inv_reachable in Hs as (Hp & Ht & Hr).
  by rewrite Ht, Hr in Hp by congruence.
Qed.

Lemma filter_split {A} (f : A -> bool) l : List.filter (fun x => negb (f x)) l ++ List.filter f l ≡ₚ l.
Proof.
  induction l as [|x l IH]; [done|]. cbn. destruct (f x); cbn; rewrite <- IH at 3; [|done]. solve_Permutation.
Qed.

(** A batch answers every request exactly once, whatever the turns give: replies
    of all turns and, after the last one, the errors of the requests that failed in
    it. *)
Theorem BatchDo_answers n turn req : map req_of (BatchDo n turn req) ≡ₚ req.
Proof.
  revert turn req. induction n as [|n IH]; intros turn req; cbn [BatchDo]; unfold sorted_out;
    set (failed := fun r : BatchReply => match Err r with Some _ => true | None => false end);
    pose proof (batchDo_once turn req) as Hb; rewrite <- (filter_split failed (batchDo turn req)), map_app in Hb;
    destruct (map req_of (List.filter failed (batchDo turn req))) as [|v rest] eqn:E.
  - by rewrite app_nil_r in Hb.
  - rewrite map_app, E. exact Hb.
  - by rewrite app_nil_r in Hb.
  - destruct (retry <=? turn); rewrite map_app; [by rewrite E|]. rewrite IH. exact Hb.
Qed.

End batch.

(** ** Example: two requests, one of which fails once *)

Definition demo_turn (turn : Z) (req : list nat) : list (BatchReply (Req := nat) (reply := string) (err := string)) :=
  map (fun v => if (turn =? 1) && (v =? 2)%nat then mkReply v EmptyString (Some "down") else mkReply v "ok" None) req.

Definition demo_labels : list (label (Req := nat) (reply := string) (err := string)) :=
  [LStart 1%nat; LStart 2%nat; LReply (mkReply 2%nat EmptyString (Some "down")); LClose; LReply (mkReply 1%nat "ok" None);
   LRelease; LRelease; LCollect].

Lemma batch_turn_answers_witness : exists s,
  steps (step "timeout" EmptyString [1; 2]%nat) (started [1; 2]%nat) demo_labels s /\ map req_of (c s) ≡ₚ [1; 2]%nat.
Proof.
  assert (exists s, steps (step "timeout" EmptyString [1; 2]%nat) (started [1; 2]%nat) demo_labels s /\ at_ s = Collected) as (s & Hs & Hc).
  { eexists. split.
    - eapply steps_cons; [apply step_start; vm_compute; lia|]. eapply steps_cons; [apply step_start; vm_compute; lia|].
      eapply steps_cons; [apply (step_reply _ _ _ 2%nat [] [1%nat] []); [by left|cbn; lia]|].
      eapply steps_cons; [apply step_close|].
      eapply steps_cons; [apply (step_reply _ _ _ 1%nat [] [] []); [by right|cbn; lia]|].
      eapply steps_cons; [apply step_release; by right|]. eapply steps_cons; [apply step_release; by right|].
      eapply steps_cons; [apply step_collect|]. apply steps_nil.
    - done. }
  exists s. split; [exact Hs|]. destruct (batch_turn_answers "timeout" EmptyString [1; 2]%nat demo_labels s Hs) as (_ & _ & H & _).
  by apply H.
Defined.

End RedisBatch.
