(* ===== verification/Inject.v ===== *)
(** * Dependency injection ([runtime/inject])

    A [Graph] maps names to registered objects.  Registering a pointer to a struct
    fills the fields that carry an [inject] tag, from the graph or by registering a
    new object, then calls the object's [Start]; [Close] calls [Close] of the
    objects from the latest to the first.

    Types of the program are data: a named type has its kind, package and name, and
    the fields of a struct are given by [fields].  Struct values live on a heap, since
    registered pointers and injected fields share them.  The methods [Start] and
    [Close] of the objects are arbitrary functions on the heap and a state of their
    own that may panic; they run under the graph's lock and cannot call it.  The
    graph has no logger. *)

From Stdlib Require Import Floats.SpecFloat Sorting.Sorted.
From stdpp Require Import sorting.
From S2P Require Import Prelude OrderedMap StaleMap.

Module Inject.

(** ** Types and values ([reflect]) *)

Inductive Kind : Type :=
| Bool | Int (w : Z) | Uint (w : Z) | Float (w : Z) | Complex | Array (n : nat) | Chan | Func
| Interface | Map | Slice | String_ | Struct | UnsafePointer.

Inductive rtype : Type :=
| TNamed (k : Kind) (pkg name : string)
| TPtr (elem : rtype).

#[export] Instance Kind_eq_dec : EqDecision Kind.
Proof. solve_decision. Defined.
#[export] Instance rtype_eq_dec : EqDecision rtype.
Proof. solve_decision. Defined.

(** Addresses of structs, and of the [Object] records of the graph. *)
Abbreviation addr := positive.
Abbreviation oid := positive.

(** What a value of some type is: nil, an address, a number (also for [bool]), a
    string, a collection of which only the length matters, or something opaque
    ([0] is the zero value). *)
Inductive payload : Type :=
| PNil | PAddr (a : addr) | PNum (z : Z) | PFloat (f : spec_float) | PStr (s : string)
| PLen (n : nat) | POpaque (id : Z).

(** The contents of an [interface{}] or of a field. *)
Inductive gval : Type := VNil | V (t : rtype) (p : payload).

Definition zero_payload (k : Kind) : payload :=
  match k with
  | Bool | Int _ | Uint _ => PNum 0
  | Float _ => PFloat (S754_zero false)
  | Array n => PLen n
  | String_ => PStr EmptyString
  | Chan | Func | Map | Slice | UnsafePointer => PNil
  | Complex | Struct | Interface => POpaque 0
  end.

(** The zero value a new struct has in a field of type [t]. *)
Definition zero_of (t : rtype) : gval :=
  match t with
  | TPtr _ => V t PNil
  | TNamed Interface _ _ => VNil
  | TNamed k _ _ => V t (zero_payload k)
  end.

(* [runtime/inject/inject.go:492-494] isStructPtr *)
Definition isStructPtr (t : rtype) : bool :=
  match t with TPtr (TNamed Struct _ _) => true | _ => false end.

(* [runtime/inject/inject.go:496-499] canNil *)
Definition canNil (v : gval) : bool := match v with V (TPtr _) _ => true | _ => false end.

(** [reflect.Value.IsNil], for the kinds it is called with. *)
(* [runtime/inject/inject.go:501-503] isNil *)
Definition isNil (v : gval) : bool := match v with V _ PNil => true | _ => false end.

(* [runtime/inject/inject.go:505-529] isZeroOfUnderlyingType *)
Definition isZeroOfUnderlyingType (x : gval) : bool :=
  match x with
  | VNil => true
  | V _ PNil => true
  | V _ (PAddr _) => false
  | V _ (PNum z) => z =? 0
  | V _ (PFloat (S754_zero _)) => true
  | V _ (PFloat _) => false
  | V _ (PStr s) => bool_decide (s = EmptyString)
  | V _ (PLen n) => bool_decide (n = 0%nat)
  | V (TNamed Func _ _) (POpaque _) => false
  | V _ (POpaque id) => id =? 0
  end.

Definition elem_name (t : rtype) : string :=
  match t with
  | TNamed _ pkg name => if decide (pkg = EmptyString) then name else pkg +:+ "." +:+ name
  | TPtr _ => EmptyString
  end.

(* [runtime/inject/inject.go:66-83] getTypeName *)
Definition getTypeName (t : rtype) : string :=
  match t with TPtr e => "*" +:+ elem_name e | _ => elem_name t end.

Record Field : Type := mkField {
  f_Name : string; f_Type : rtype; f_Tag : string; f_Anonymous : bool; f_exported : bool
}.

(** [Value.SetInt] keeps the low bits, [Value.SetFloat] rounds. *)
Definition set_int (t : rtype) (w iv : Z) : gval := V t (PNum (wrapS w iv)).

Definition round (w : Z) (f : spec_float) : spec_float :=
  match f with
  | S754_finite s m e =>
      if w =? 32 then binary_normalize 24 128 (cond_Zopp s (Zpos m)) e s else f
  | _ => f
  end.

(** ** Implementations of interfaces ([implmap.go]) *)

(* [runtime/inject/implmap.go:20-38] implmap.Add *)
Definition Add (n : string) (t : rtype) (m : gmap string (list rtype)) : gmap string (list rtype) :=
  if bool_decide (n = EmptyString) || negb (isStructPtr t) then m
  else <[n := default [] (m !! n) ++ [t]]> m.

(* [runtime/inject/implmap.go:40-58] implmap.Get *)
Definition Get (n : string) (m : gmap string (list rtype)) : list rtype :=
  if bool_decide (n = EmptyString) then [] else default [] (m !! n).

(** ** The graph *)

(* [runtime/inject/inject.go:39-44] Object *)
Record Object : Type := mkObject { Name : string; reflectType : rtype; Value : gval; closed : bool }.

(** What happens to objects, in order: [Start] and [Close] calls, fields set from
    registered objects, entries of the graph set, and the graph emptied. *)
Inductive event : Type :=
| EvStart (v : gval) | EvInject (a : addr) (i : nat) (o : oid) | EvRegister (name : string) (o : oid)
| EvClose (o : oid) | EvCleared.

Inductive rerr : Type :=
| ENameEmpty | EAlready (name : string) | ETag (field : string) | EStructField (field : string)
| ENotPublic (field : string) | ENotFound (field : string) | ENotValid (field : string)
| ENil (name : string) | EStart (name : string) (msg : string).

#[export] Instance rerr_eq_dec : EqDecision rerr.
Proof. solve_decision. Defined.

Section graph.
Context {U : Type}.
(** The program: fields of its struct types, assignability, the methods of its
    objects. [Extract] is [structtag.Extract]: whether a tag has the key, and its
    value, or an error. *)
Variable fields : string -> string -> list Field.
Variable AssignableTo : rtype -> rtype -> bool.
Variable Extract : string -> string -> option (bool * string).
Variable startAble closeAble : rtype -> bool.

(** A heap of structs: the contents of their fields. *)
Abbreviation heap_t := (gmap addr (list gval)).

Variable Start_ : gval -> M (U * heap_t) (option string).
Variable Close_ : gval -> M (U * heap_t) unit.

(* [runtime/inject/inject.go:54-58] Graph *)
Record Graph : Type := mkGraph {
  named : OrderedMap.OrderedMap string oid;
  objs : gmap oid Object; nexto : oid;
  world : U * heap_t; nexta : addr;
  impls : gmap string (list rtype);
  trace : list event
}.

Definition with_named f g := mkGraph (f (named g)) (objs g) (nexto g) (world g) (nexta g) (impls g) (trace g).
Definition with_objs f g := mkGraph (named g) (f (objs g)) (nexto g) (world g) (nexta g) (impls g) (trace g).
Definition with_world w g := mkGraph (named g) (objs g) (nexto g) w (nexta g) (impls g) (trace g).
Definition with_trace f g := mkGraph (named g) (objs g) (nexto g) (world g) (nexta g) (impls g) (f (trace g)).

Definition emit (e : event) : M Graph unit := modify (with_trace (fun tr => tr ++ [e])).

Definition on_named {A} (m : M (OrderedMap.OrderedMap string oid) A) : M Graph A := fun g =>
  match m (named g) with (r, n) => (r, with_named (fun _ => n) g) end.

Definition on_world {A} (m : M (U * heap_t) A) : M Graph A := fun g =>
  match m (world g) with (r, w) => (r, with_world w g) end.

(* [runtime/inject/inject.go:60-64] NewGraph *)
Definition NewGraph (w : U * heap_t) (a : addr) (impls : gmap string (list rtype)) : Graph :=
  mkGraph OrderedMap.NewOrderedMap ∅ 1%positive w a impls [].

(* [runtime/inject/inject.go:108-121] find *)
Definition find (name : string) (g : Graph) : option Object :=
  OrderedMap.Get name (named g) ≫= (fun o => objs g !! o).

Definition find_id (name : string) : M Graph (option oid) := gets (fun g => OrderedMap.Get name (named g)).

(* [runtime/inject/inject.go:91-94] findByType *)
Definition findByType (t : rtype) : M Graph (option oid) := find_id (getTypeName t).

(** What the package-level functions give: the value, if there is one. *)
Definition found_value (o : option Object) : option gval :=
  match o with Some o => match Value o with VNil => None | v => Some v end | None => None end.

(* [runtime/inject/global.go:66-72] Find *)
Definition Find (name : string) (g : Graph) : option gval := found_value (find name g).

(* [runtime/inject/global.go:58-64] FindByType *)
Definition FindByType (t : rtype) (g : Graph) : option gval := found_value (find (getTypeName t) g).

(* [runtime/inject/inject.go:96-100] Len *)
Definition Len (g : Graph) : Z := OrderedMap.Len (named g).

(* [runtime/inject/inject.go:123-125] del *)
Definition del (name : string) : M Graph unit := on_named (OrderedMap.Delete name).

(* [runtime/inject/inject.go:127-129] set *)
Definition set (name : string) (o : oid) : M Graph unit :=
  _ ← on_named (OrderedMap.Set_ name o); emit (EvRegister name o).

(* [runtime/inject/inject.go:131-137] setBoth *)
Definition setBoth (name : string) (t : rtype) (o : oid) : M Graph unit :=
  _ ← set name o;
  if isStructPtr t then set (getTypeName t) o else mret tt.

(** [reflect.New(t)]: a struct of zero fields. *)
Definition new_struct (fs : list Field) : M Graph addr := fun g =>
  (Ret (nexta g),
   mkGraph (named g) (objs g) (nexto g)
     ((world g).1, <[nexta g := map (fun f => zero_of (f_Type f)) fs]> (world g).2)
     (Pos.succ (nexta g)) (impls g) (trace g)).

Definition field_at (a : addr) (i : nat) : M Graph gval :=
  gets (fun g => default VNil ((world g).2 !! a ≫= (.!! i))).

Definition write_field (a : addr) (i : nat) (v : gval) : M Graph unit :=
  modify (fun g => with_world ((world g).1, alter <[i := v]> a (world g).2) g).

Definition new_object (o : Object) : M Graph oid := fun g =>
  (Ret (nexto g), mkGraph (named g) (<[nexto g := o]> (objs g)) (Pos.succ (nexto g)) (world g) (nexta g)
     (impls g) (trace g)).
(** *** Registration *)

(** [vf.Set]: a field of interface type holds the value as it is. *)
Definition convert_to (t : rtype) (v : gval) : gval :=
  match t, v with
  | TNamed Interface _ _, _ | _, VNil => v
  | _, V _ p => V t p
  end.

(** What a field is set to from the object found, if the types allow it. *)
(* [runtime/inject/inject.go:347-391] register, assignment of a field *)
Definition assign_value (f : Field) (found : Object) : option gval :=
  if AssignableTo (reflectType found) (f_Type f) then Some (convert_to (f_Type f) (Value found))
  else
    match Value found, f_Type f with
    | V (TNamed (Int _) _ _) (PNum iv), TNamed (Int w) _ _ => Some (set_int (f_Type f) w iv)
    | V (TNamed (Float _) _ _) (PFloat fv), TNamed (Float w) _ _ =>
        Some (V (f_Type f) (PFloat (round w fv)))
    | _, _ => None
    end.

Definition assign (a : addr) (i : nat) (f : Field) (o : oid) : M Graph (option rerr) :=
  g ← get;
  match objs g !! o with
  | None => panic "not a *Object"
  | Some found =>
      match assign_value f found with
      | Some v => _ ← write_field a i v; _ ← emit (EvInject a i o); mret None
      | None => mret (Some (ENotValid (f_Name f)))
      end
  end.

Definition tag_true (key : string) (tag : string) : bool :=
  match Extract key tag with Some (_, v) => bool_decide (v = "true") | None => false end.

(** The object a field asks for: by its tag, else by its type when [by_type]; a
    field with an empty tag by its type alone. *)
Definition lookup_dep (tag : string) (by_type : bool) (t : rtype) : M Graph (option oid) :=
  if decide (tag = EmptyString) then findByType t else
  found ← find_id tag;
  match found with
  | Some o => mret (Some o)
  | None => if by_type then findByType t else mret None
  end.

Definition is_struct (v : gval) : bool := match v with V (TNamed Struct _ _) _ => true | _ => false end.

(** One turn of the loop over the fields of the struct at [a]; [reg] registers a
    new object of a pointer type under a name. *)
(* [runtime/inject/inject.go:245-392] register, loop over the fields *)
Definition inject_field (reg : string -> gval -> bool -> M Graph (gval + rerr)) (a : addr)
    (singleton : bool) (i : nat) (f : Field) : M Graph (option rerr) :=
  match Extract "inject" (f_Tag f) with
  | None => mret (Some (ETag (f_Name f)))
  | Some (false, _) => mret None
  | Some (true, tag) =>
      vf ← field_at a i;
      if f_exported f && is_struct vf then mret (Some (EStructField (f_Name f))) else
      if f_exported f && negb (isZeroOfUnderlyingType vf) then mret None else
      if f_Anonymous f || negb (f_exported f) then mret (Some (ENotPublic (f_Name f))) else
      let singletonTag := tag_true "singleton" (f_Tag f) in
      let canNil := tag_true "canNil" (f_Tag f) || tag_true "nilAble" (f_Tag f) in
      found ← lookup_dep tag (singletonTag && isStructPtr (f_Type f)) (f_Type f);
      match found with
      | Some o => assign a i f o
      | None =>
          if canNil : bool then mret None else
          g ← get;
          r ← (if isStructPtr (f_Type f) then reg tag (V (f_Type f) PNil) singletonTag
               else match List.find (fun impl => AssignableTo impl (f_Type f)) (Get tag (impls g)) with
                    | Some impl => reg tag (V impl PNil) singletonTag
                    | None => mret (inr (ENotFound (f_Name f)))
                    end);
          match r with
          | inr e => mret (Some e)
          | inl _ =>
              found ← lookup_dep tag singleton (f_Type f);
              match found with
              | Some o => assign a i f o
              | None => mret (Some (ENotFound (f_Name f)))
              end
          end
      end
  end.

Fixpoint inject_fields (reg : string -> gval -> bool -> M Graph (gval + rerr)) (a : addr)
    (singleton : bool) (i : nat) (fs : list Field) : M Graph (option rerr) :=
  match fs with
  | [] => mret None
  | f :: fs' =>
      e ← inject_field reg a singleton i f;
      match e with
      | Some e => mret (Some e)
      | None => inject_fields reg a singleton (S i) fs'
      end
  end.

(* [runtime/inject/inject.go:402-408] register, start of the object *)
Definition start (v : gval) : M Graph (option string) :=
  match v with
  | V t _ => if startAble t then _ ← emit (EvStart v); on_world (Start_ v) else mret None
  | VNil => mret None
  end.

(** The object's value: the struct, made if the pointer is nil, with its fields
    filled unless [noFill] keeps a given one as it is. *)
Definition prepare (reg : string -> gval -> bool -> M Graph (gval + rerr)) (name : string)
    (t : rtype) (p : payload) (singleton noFill : bool) : M Graph (gval + rerr) :=
  match t with
  | TPtr (TNamed Struct pkg sname) =>
      let fs := fields pkg sname in
      a ← (match p with PAddr a => mret a | _ => new_struct fs end);
      let created := isNil (V t p) in
      e ← (if negb created && noFill then mret None else inject_fields reg a singleton 0 fs);
      mret (match e with Some e => inr e | None => inl (V t (PAddr a)) end)
  | _ => if canNil (V t p) && isNil (V t p) then mret (inr (ENil name)) else mret (inl (V t p))
  end.

(** [fuel] is the depth the goroutine's stack allows. *)
(* [runtime/inject/inject.go:211-420] register *)
Fixpoint register (fuel : nat) (name : string) (value : gval) (singleton noFill : bool)
    : M Graph (gval + rerr) :=
  match fuel with
  | O => panic "stack overflow"
  | S fuel' =>
      match value with
      | VNil => panic "nil pointer dereference"
      | V t p =>
          if negb (isStructPtr t) && bool_decide (name = EmptyString) then mret (inr (ENameEmpty)) else
          let name := if decide (name = EmptyString) then getTypeName t else name in
          found ← find_id name;
          match found with
          | Some _ => mret (inr (EAlready name))
          | None =>
              r ← prepare (fun n v s => register fuel' n v s noFill) name t p singleton noFill;
              match r with
              | inr e => mret (inr e)
              | inl v =>
                  err ← start v;
                  match err with
                  | Some msg => mret (inr (EStart name msg))
                  | None =>
                      o ← new_object (mkObject name t v false);
                      _ ← (if isStructPtr t && singleton then setBoth name t o else set name o);
                      mret (inl v)
                  end
              end
          end
      end
  end.

(* [runtime/inject/inject.go:187-209] RegisterNoFill, RegisterSingleNoFill, Register, RegisterSingle *)
Definition Register (fuel : nat) (name : string) (value : gval) : M Graph (gval + rerr) :=
  register fuel name value false false.
Definition RegisterSingle (fuel : nat) (name : string) (value : gval) : M Graph (gval + rerr) :=
  register fuel name value true false.
Definition RegisterNoFill (fuel : nat) (name : string) (value : gval) : M Graph (gval + rerr) :=
  register fuel name value false true.
Definition RegisterSingleNoFill (fuel : nat) (name : string) (value : gval) : M Graph (gval + rerr) :=
  register fuel name value true true.

(* [runtime/inject/inject.go:139-185] RegisterOrFail and its variants *)
Definition OrFail (m : M Graph (gval + rerr)) : M Graph gval :=
  r ← m;
  match r with
  | inl v => mret v
  | inr _ => panic "reg fail"
  end.

(** *** Closing *)

(* [runtime/inject/inject.go:455-482] Close, loop *)
Fixpoint close_loop (kvs : list (OrderedMap.KVPair string oid)) (keys : list string) : M Graph (list string) :=
  match kvs with
  | [] => mret keys
  | kv :: kvs' =>
      match OrderedMap.Key kv with
      | None => close_loop kvs' keys
      | Some k =>
          let keys := keys ++ [k] in
          g ← get;
          match OrderedMap.KValue kv ≫= (fun o => o' ← objs g !! o; Some (o, o')) with
          | None => close_loop kvs' keys
          | Some (o, ob) =>
              if closed ob then close_loop kvs' keys else
              let keys := if isStructPtr (reflectType ob) then keys ++ [getTypeName (reflectType ob)] else keys in
              match Value ob with
              | V t _ =>
                  if closeAble t then
                    _ ← emit (EvClose o);
                    _ ← on_world (Close_ (Value ob));
                    _ ← modify (with_objs (alter (fun ob => mkObject (Name ob) (reflectType ob) (Value ob) true) o));
                    close_loop kvs' keys
                  else close_loop kvs' keys
              | VNil => close_loop kvs' keys
              end
          end
      end
  end.

(* [runtime/inject/inject.go:484-486] Close, deletion *)
Fixpoint del_all (keys : list string) : M Graph unit :=
  match keys with
  | [] => mret tt
  | k :: keys' => _ ← del k; del_all keys'
  end.

(** The walk of [RevIterFunc]; no call made in between changes the map. *)
(* [runtime/inject/inject.go:446-490] Close *)
Definition Close : M Graph unit :=
  kvs ← (fun g => on_named (OrderedMap.rev_iterate (StaleMap.bound (named g))) g);
  keys ← close_loop kvs [];
  _ ← del_all keys;
  emit EvCleared.
(** ** Invariants

    [keeps I m]: whether [m] returns or panics, it leaves [I] true. *)

Definition keeps (I : Graph -> Prop) {A} (m : M Graph A) : Prop := forall g, I g -> I (exec m g).

Lemma keeps_run (I : Graph -> Prop) {A} (m : M Graph A) g r g' : keeps I m -> I g -> m g = (r, g') -> I g'.
Proof. intros Hm Hg E. specialize (Hm g Hg). unfold exec in Hm. by rewrite E in Hm. Qed.

Lemma keeps_ret (I : Graph -> Prop) {A} (a : A) : keeps I (mret a).
Proof. by intros g Hg. Qed.

Lemma keeps_panic (I : Graph -> Prop) {A} e : keeps I (panic e : M Graph A).
Proof. by intros g Hg. Qed.

Lemma keeps_bind (I : Graph -> Prop) {A B} (m : M Graph A) (k : A -> M Graph B) :
  keeps I m -> (forall a, keeps I (k a)) -> keeps I (m ≫= k).
Proof.
  intros Hm Hk g Hg. specialize (Hm g Hg). unfold exec, mbind, M_bind in *.
  destruct (m g) as [[a|e] g1]; [by apply (Hk a g1)|done].
Qed.

Lemma keeps_gets (I : Graph -> Prop) {A} (f : Graph -> A) : keeps I (gets f).
Proof. by intros g Hg. Qed.

Lemma keeps_get (I : Graph -> Prop) {A} (k : Graph -> M Graph A) :
  (forall g, I g -> I (exec (k g) g)) -> keeps I (g ← get; k g).
Proof. intros Hk g Hg. by apply (Hk g). Qed.

(** The events since the graph was last empty. *)
Definition since (tr : list event) : list event :=
  fold_left (fun acc e => match e with EvCleared => [] | _ => acc ++ [e] end) tr [].

(** No other object has been entered under the object's name. *)
Definition own_name (tr : list event) (name : string) (o : oid) : Prop :=
  forall o', EvRegister name o' ∈ since tr -> o' = o.

(** Entries of the graph are registered objects; an object that has its name for
    itself has a newer node than every older object; the trace respects the order
    of events. *)
Definition event_ok (os : gmap oid Object) (pre : list event) (e : event) : Prop :=
  match e with
  | EvInject _ _ o => exists n, EvRegister n o ∈ pre
  | EvRegister n o => exists ob, os !! o = Some ob /\
      match Value ob with
      | V t _ => startAble t = true -> EvStart (Value ob) ∈ pre
      | VNil => True
      end
  | _ => True
  end.

Definition ordered (os : gmap oid Object) (tr : list event) : Prop :=
  forall pre e post, tr = pre ++ e :: post -> event_ok os pre e.

Record inv (g : Graph) : Prop := {
  i_weak : StaleMap.weak (named g);
  i_live : StaleMap.live (named g);
  i_objs : forall k o, OrderedMap.store (named g) !! k = Some o -> is_Some (objs g !! o);
  i_next : forall o, is_Some (objs g !! o) -> (o < nexto g)%positive;
  i_order : forall k l o o' ob', OrderedMap.store (named g) !! k = Some o ->
    OrderedMap.mapper (named g) !! k = Some l ->
    objs g !! o' = Some ob' -> OrderedMap.store (named g) !! Name ob' = Some o' ->
    own_name (trace g) (Name ob') o' -> (o < o')%positive ->
    exists l', OrderedMap.mapper (named g) !! Name ob' = Some l' /\ (l < l')%positive;
  i_reg : forall k o, OrderedMap.store (named g) !! k = Some o -> EvRegister k o ∈ since (trace g);
  i_ids : forall k o, EvRegister k o ∈ trace g -> (o < nexto g)%positive;
  i_trace : ordered (objs g) (trace g)
}.

Lemma ordered_snoc os tr e : ordered os tr -> event_ok os tr e -> ordered os (tr ++ [e]).
Proof.
  intros Ho He pre e' post Heq. destruct (list_snoc_split tr e pre e' post Heq) as [(-> & -> & ->)|(post' & ->)];
    [done|by apply (Ho pre e' post')].
Qed.

Lemma event_ok_mono os os' pre e : event_ok os pre e ->
  (forall o ob, os !! o = Some ob -> exists ob', os' !! o = Some ob' /\ Value ob' = Value ob) ->
  event_ok os' pre e.
Proof.
  intros He Hos. destruct e as [| |n o| |]; try done. destruct He as (ob & Hob & Hs).
  destruct (Hos o ob Hob) as (ob' & Hob' & Hv'). exists ob'. split; [done|]. by rewrite Hv'.
Qed.

Lemma ordered_mono os os' tr : ordered os tr ->
  (forall o ob, os !! o = Some ob -> exists ob', os' !! o = Some ob' /\ Value ob' = Value ob) ->
  ordered os' tr.
Proof. intros Ho Hos pre e post Heq. eapply event_ok_mono; [by eapply Ho|done]. Qed.

(** Steps that change the trace by a harmless event, or the heap. *)
Lemma since_snoc tr e : since (tr ++ [e]) = match e with EvCleared => [] | _ => since tr ++ [e] end.
Proof. unfold since. by rewrite fold_left_app. Qed.

Lemma since_sub tr e : e ∈ since tr -> e ∈ tr.
Proof.
  induction tr as [|e' tr IH] using rev_ind; [done|]. rewrite since_snoc. rewrite elem_of_app.
  destruct e'; rewrite ?elem_of_app; set_solver.
Qed.

Definition harmless (e : event) : Prop :=
  match e with EvRegister _ _ | EvCleared => False | _ => True end.

Lemma since_harmless tr e k o : harmless e -> EvRegister k o ∈ since (tr ++ [e]) <-> EvRegister k o ∈ since tr.
Proof. intros He. rewrite since_snoc. destruct e; try done; set_solver. Qed.

Lemma inv_emit g e : inv g -> harmless e -> event_ok (objs g) (trace g) e ->
  inv (with_trace (fun tr => tr ++ [e]) g).
Proof.
  intros [] Hh He. split; simpl; try done.
  - intros k l o o' ob' Hk Hl Hob Hn Hown. apply (i_order0 k l o o' ob'); try done. intros o2 H2. apply Hown.
    by apply since_harmless.
  - intros k o Hk. apply since_harmless; auto.
  - intros k o [Hk|Hk]%elem_of_app; [by apply (i_ids0 k)|]. apply list_elem_of_singleton in Hk. by subst.
  - by apply ordered_snoc.
Qed.

Lemma inv_world g w : inv g -> inv (with_world w g).
Proof. by intros []. Qed.

Lemma keeps_emit e : harmless e -> (forall g, inv g -> event_ok (objs g) (trace g) e) -> keeps inv (emit e).
Proof. intros Hh He g Hg. apply inv_emit; auto. Qed.

Lemma keeps_on_world {A} (m : M (U * heap_t) A) : keeps inv (on_world m).
Proof. intros g Hg. unfold exec, on_world. destruct (m (world g)). by apply inv_world. Qed.

Lemma keeps_write a i v : keeps inv (write_field a i v).
Proof. intros g Hg. by apply inv_world. Qed.

Lemma keeps_new_struct fs : keeps inv (new_struct fs).
Proof. by intros g []. Qed.
Lemma lookup_dep_spec tag by_type t g : exists r, lookup_dep tag by_type t g = (Ret r, g) /\
  forall o, r = Some o -> exists k, OrderedMap.store (named g) !! k = Some o.
Proof.
  unfold lookup_dep, findByType, find_id, gets, OrderedMap.Get, mbind, M_bind, mret, M_ret.
  destruct (decide (tag = EmptyString)); [eexists; split; [done|eauto]|].
  destruct (OrderedMap.store (named g) !! tag) eqn:E; [eexists; split; [done|]; intros ? [= <-]; eauto|].
  destruct by_type; eexists; (split; [done|]); eauto. done.
Qed.

Lemma inv_assign a i f o k g : inv g -> OrderedMap.store (named g) !! k = Some o ->
  inv (exec (assign a i f o) g).
Proof.
  intros Hg Hk. destruct (i_objs g Hg k o Hk) as [ob Hob].
  unfold exec, assign. unfold mbind at 1, M_bind at 1, get. rewrite Hob.
  destruct (assign_value f ob) as [v|]; [|done].
  apply (inv_emit (exec (write_field a i v) g)); [by apply keeps_write|done|].
  exists k. by apply since_sub, (i_reg g Hg k).
Qed.

Lemma keeps_dep tag by_type t a i f (rest : M Graph (option rerr)) : keeps inv rest ->
  keeps inv (found ← lookup_dep tag by_type t;
             match found with Some o => assign a i f o | None => rest end).
Proof.
  intros Hr g Hg. destruct (lookup_dep_spec tag by_type t g) as (r & E & Hk).
  unfold exec, mbind, M_bind. rewrite E. destruct r as [o|]; [|by apply Hr].
  destruct (Hk o eq_refl) as (k & Hko). by apply (inv_assign a i f o k).
Qed.

Lemma keeps_inject_field reg a singleton i f : (forall n v b, keeps inv (reg n v b)) ->
  keeps inv (inject_field reg a singleton i f).
Proof.
  intros Hreg. unfold inject_field. destruct (Extract "inject" (f_Tag f)) as [[[] tag]|];
    [|apply keeps_ret..].
  apply keeps_bind; [apply keeps_gets|]. intros vf.
  destruct (f_exported f && is_struct vf); [apply keeps_ret|].
  destruct (f_exported f && negb _); [apply keeps_ret|].
  destruct (f_Anonymous f || _); [apply keeps_ret|].
  apply keeps_dep. destruct (_ || _); [apply keeps_ret|]. apply keeps_get. intros g Hg. revert g Hg.
  assert (forall im : gmap string (list rtype), keeps inv
    (r ← (if isStructPtr (f_Type f) then reg tag (V (f_Type f) PNil) (tag_true "singleton" (f_Tag f))
          else match List.find (fun impl => AssignableTo impl (f_Type f)) (Get tag im) with
               | Some impl => reg tag (V impl PNil) (tag_true "singleton" (f_Tag f))
               | None => mret (inr (ENotFound (f_Name f)))
               end);
     match r with
     | inr e => mret (Some e)
     | inl _ => found ← lookup_dep tag singleton (f_Type f);
                match found with Some o => assign a i f o | None => mret (Some (ENotFound (f_Name f))) end
     end)) as Hk.
  { intros im. apply keeps_bind.
    - destruct (isStructPtr _); [apply Hreg|]. destruct (List.find _ _); [apply Hreg|apply keeps_ret].
    - intros [_|e]; [|apply keeps_ret]. apply keeps_dep, keeps_ret. }
  intros g Hg. by apply (Hk (impls g)).
Qed.

Lemma keeps_inject_fields reg a singleton fs i : (forall n v b, keeps inv (reg n v b)) ->
  keeps inv (inject_fields reg a singleton i fs).
Proof.
  intros Hreg. revert i. induction fs as [|f fs IH]; intros i; [apply keeps_ret|]. cbn [inject_fields].
  apply keeps_bind; [by apply keeps_inject_field|]. intros [e|]; [apply keeps_ret|apply IH].
Qed.

Lemma keeps_prepare reg name t p singleton noFill : (forall n v b, keeps inv (reg n v b)) ->
  keeps inv (prepare reg name t p singleton noFill).
Proof.
  intros Hreg. unfold prepare. destruct t as [|[[] pkg sname|]]; try (destruct (_ && _); apply keeps_ret).
  apply keeps_bind; [destruct p; first [apply keeps_ret|apply keeps_new_struct]|]. intros a.
  apply keeps_bind; [|intros []; apply keeps_ret].
  destruct (_ && noFill); [apply keeps_ret|by apply keeps_inject_fields].
Qed.

Lemma keeps_start v : keeps inv (start v).
Proof.
  unfold start. destruct v as [|t p]; [apply keeps_ret|]. destruct (startAble t); [|apply keeps_ret].
  apply keeps_bind; [by apply keeps_emit|]. intros _. apply keeps_on_world.
Qed.
(** The newest object is entered under a name. *)
Definition newest (g : Graph) (o : oid) : Prop :=
  is_Some (objs g !! o) /\ forall o', is_Some (objs g !! o') -> (o' <= o)%positive.

Lemma inv_set name o g : inv g -> newest g o -> event_ok (objs g) (trace g) (EvRegister name o) ->
  exists g', set name o g = (Ret tt, g') /\ inv g' /\ objs g' = objs g /\ world g' = world g /\
    trace g' = trace g ++ [EvRegister name o] /\ nexto g' = nexto g /\ nexta g' = nexta g /\
    impls g' = impls g /\
    OrderedMap.store (named g') = <[name := o]> (OrderedMap.store (named g)).
Proof.
  intros Hg [Ho Hmax] He.
  destruct (StaleMap.Set_weak name o (named g) (i_weak g Hg) (i_live g Hg)) as (n' & E & Hw & Hl & Hs & Hb & Hm).
  exists (with_trace (fun tr => tr ++ [EvRegister name o]) (with_named (fun _ => n') g)).
  split_and!; try done. { unfold set, mbind, M_bind, on_named. by rewrite E. }
  assert (forall k o1, EvRegister k o1 ∈ since (trace g) -> EvRegister k o1 ∈ since (trace g ++ [EvRegister name o])) as Hsub.
  { intros k o1 Hk. rewrite since_snoc. set_solver. }
  destruct Hg as [Iw Il Io In Iord Ir Iid It]. split; simpl; try done.
  - intros k o1. rewrite Hs. intros [[<- <-]|[_ Hk]]%lookup_insert_Some; [done|by eapply Io].
  - intros k l o1 o' ob'. rewrite Hs. intros Hk Hkl Hob' Hn' Hown Hlt.
    assert (own_name (trace g) (Name ob') o') as Hown' by (intros o2 H2; by apply Hown, Hsub).
    assert (k ≠ name) as Hkn.
    { intros ->. rewrite lookup_insert_eq in Hk. injection Hk as <-.
      specialize (Hmax o' ltac:(by eexists)). lia. }
    rewrite lookup_insert_ne in Hk by done.
    assert (OrderedMap.mapper (named g) !! k = Some l) as Hkl'.
    { rewrite Hm in Hkl. destruct (decide _); [done|]. by rewrite lookup_insert_ne in Hkl. }
    destruct (decide (Name ob' = name)) as [Hnn|Hnn].
    + rewrite Hnn, lookup_insert_eq in Hn'. injection Hn' as <-.
      destruct (OrderedMap.store (named g) !! name) as [o2|] eqn:E2.
      * rewrite Hm, decide_True by done.
        assert (o2 = o) as -> by (apply Hown'; rewrite Hnn; by apply Ir).
        destruct (Iord k l o1 o ob' Hk Hkl' Hob' ltac:(by rewrite Hnn) Hown' Hlt) as (l' & ? & ?). eauto.
      * rewrite Hm, decide_False by (by intros []). exists (OrderedMap.brk (named g)).
        rewrite Hnn, lookup_insert_eq. split; [done|]. apply (StaleMap.w_brk _ Iw).
        destruct (StaleMap.w_mapper _ Iw k l Hkl') as (Hv & _). by eapply StaleMap.val_in.
    + rewrite lookup_insert_ne in Hn' by done.
      destruct (Iord k l o1 o' ob' Hk Hkl' Hob' Hn' Hown' Hlt) as (l' & Hl' & ?). exists l'. split; [|done].
      rewrite Hm. destruct (decide _); [done|]. by rewrite lookup_insert_ne.
  - intros k o1. rewrite Hs, since_snoc. intros [[<- <-]|[_ Hk]]%lookup_insert_Some; [set_solver|].
    apply elem_of_app. left. by apply Ir.
  - intros k o1 [Hk|Hk]%elem_of_app; [by eapply Iid|]. apply list_elem_of_singleton in Hk. simplify_eq. by apply In.
  - by apply ordered_snoc.
Qed.

Lemma inv_new_object ob g : inv g ->
  (forall k, event_ok (<[nexto g := ob]> (objs g)) (trace g) (EvRegister k (nexto g))) ->
  exists g', new_object ob g = (Ret (nexto g), g') /\ inv g' /\ newest g' (nexto g) /\
    objs g' = <[nexto g := ob]> (objs g) /\ trace g' = trace g /\ world g' = world g /\ named g' = named g /\
    nexto g' = Pos.succ (nexto g) /\ nexta g' = nexta g /\ impls g' = impls g.
Proof.
  intros [Iw Il Io In Iord Ir Iid It] He. eexists. split; [reflexivity|].
  assert (objs g !! nexto g = None) as Hfresh.
  { destruct (objs g !! nexto g) eqn:E; [|done]. specialize (In (nexto g)). rewrite E in In.
    specialize (In ltac:(done)). lia. }
  split_and!; try done.
  - split; simpl; try done.
    + intros k o Hk. rewrite lookup_insert_is_Some'. right. by eapply Io.
    + intros o. rewrite lookup_insert_is_Some'. intros [<-|Ho]; [lia|]. specialize (In o Ho). lia.
    + intros k l o o' ob' Hk Hl [[<- <-]|[_ Ho]]%lookup_insert_Some Hn Hown Hlt; [|by apply (Iord k l o o' ob')].
      apply Io in Hn. rewrite Hfresh in Hn. by destruct Hn.
    + intros k o Hk. apply Iid in Hk. lia.
    + eapply ordered_mono; [done|]. intros o ob' Hob'. exists ob'. rewrite lookup_insert_ne; [done|].
      intros <-. congruence.
  - split; simpl.
    + rewrite lookup_insert_eq. by eexists.
    + intros o'. rewrite lookup_insert_is_Some'. intros [<-|Ho]; [lia|]. specialize (In o' Ho). lia.
Qed.

(** The end of a registration: the object is entered under its name, and under its
    type's name. *)
Lemma inv_enter name t v (both : bool) g : inv g ->
  (forall t' p', v = V t' p' -> startAble t' = true -> EvStart v ∈ trace g) ->
  exists g', (o ← new_object (mkObject name t v false);
              _ ← (if both then setBoth name t o else set name o); mret (inl v : gval + rerr)) g = (Ret (inl v), g') /\
    inv g' /\ objs g' = <[nexto g := mkObject name t v false]> (objs g) /\ world g' = world g /\
    (exists tr, trace g' = trace g ++ EvRegister name (nexto g) :: tr) /\
    nexta g' = nexta g /\ impls g' = impls g /\ (nexto g <= nexto g')%positive.
Proof.
  intros Hg Hst. set (ob := mkObject name t v false).
  assert (forall os pre k, os !! nexto g = Some ob -> (forall e, e ∈ trace g -> e ∈ pre) ->
    event_ok os pre (EvRegister k (nexto g))) as Hev.
  { intros os pre k Hos Hpre. exists ob. split; [done|]. simpl. destruct v as [|t' p']; [done|].
    intros Hs. by apply Hpre, (Hst t' p'). }
  destruct (inv_new_object ob g Hg) as (g1 & E1 & I1 & N1 & O1 & T1 & W1 & M1 & X1 & A1 & P1).
  { intros k. apply Hev; [by rewrite lookup_insert_eq|done]. }
  destruct (inv_set name (nexto g) g1 I1 N1) as (g2 & E2 & I2 & O2 & W2 & T2 & X2 & A2 & P2 & S2).
  { apply Hev; [by rewrite O1, lookup_insert_eq|by rewrite T1]. }
  assert (newest g2 (nexto g)) as N2 by (unfold newest; by rewrite O2).
  destruct (inv_set (getTypeName t) (nexto g) g2 I2 N2) as (g3 & E3 & I3 & O3 & W3 & T3 & X3 & A3 & P3 & S3).
  { apply Hev; [by rewrite O2, O1, lookup_insert_eq|]. intros e He. rewrite T2, T1. set_solver. }
  unfold mbind, M_bind. rewrite E1. destruct both.
  - unfold setBoth, mbind, M_bind. rewrite E2. destruct (isStructPtr t).
    + rewrite E3. exists g3. split; [done|]. split_and!; try congruence; [|lia].
      exists [EvRegister (getTypeName t) (nexto g)]. rewrite T3, T2, T1. by rewrite <- app_assoc.
    + exists g2. split; [done|]. split_and!; try congruence; [|lia]. exists []. by rewrite T2, T1.
  - rewrite E2. exists g2. split; [done|]. split_and!; try congruence; [|lia]. exists []. by rewrite T2, T1.
Qed.

Lemma start_trace v g r g' : start v g = (Ret r, g') ->
  forall t p, v = V t p -> startAble t = true -> EvStart v ∈ trace g'.
Proof.
  intros H t p -> Hs. unfold start in H. rewrite Hs in H. unfold mbind, M_bind, emit, modify, on_world in H.
  destruct (Start_ _ _) as [r' w]. injection H as _ <-. simpl. set_solver.
Qed.

Lemma keeps_finish (name : string) (v : gval) (t : rtype) (both : bool) :
  keeps inv (err ← start v;
    match err with
    | Some msg => mret (inr (EStart name msg) : gval + rerr)
    | None => o ← new_object (mkObject name t v false);
              _ ← (if both then setBoth name t o else set name o); mret (inl v)
    end).
Proof.
  intros g Hg. pose proof (keeps_start v g Hg) as Hg1. unfold exec in *. unfold mbind at 1, M_bind at 1.
  destruct (start v g) as [[[msg|]|e] g1] eqn:Es; try done.
  destruct (inv_enter name t v both g1 Hg1 (start_trace v g _ g1 Es)) as (g2 & E2 & I2 & _).
  by rewrite E2.
Qed.

Lemma keeps_register fuel name value singleton noFill : keeps inv (register fuel name value singleton noFill).
Proof.
  revert name value singleton noFill. induction fuel as [|fuel IH]; intros name value singleton noFill;
    [apply keeps_panic|].
  cbn [register]. destruct value as [|t p]; [apply keeps_panic|].
  destruct (_ && _); [apply keeps_ret|]. apply keeps_bind; [apply keeps_gets|].
  intros [?|]; [apply keeps_ret|]. apply keeps_bind.
  { apply keeps_prepare. intros. apply IH. }
  intros [v|e]; [apply keeps_finish|apply keeps_ret].
Qed.
(** ** Closing *)

(** The objects closed among those visited: the first visit of each that has a
    [Close] method and is not closed yet. *)
Fixpoint closing (ok : oid -> bool) (os : list oid) : list oid :=
  match os with
  | [] => []
  | o :: os' =>
      if ok o then o :: closing (fun x => ok x && negb (bool_decide (x = o))) os' else closing ok os'
  end.

Lemma closing_ext ok ok' os : (forall o, ok o = ok' o) -> closing ok os = closing ok' os.
Proof.
  revert ok ok'. induction os as [|o os IH]; intros ok ok' He; [done|]. cbn [closing]. rewrite He.
  destruct (ok' o); [f_equal|]; apply IH; [|done]. intros x. by rewrite He.
Qed.

Lemma closing_in ok os o : o ∈ closing ok os <-> o ∈ os /\ ok o = true.
Proof.
  revert ok. induction os as [|x os IH]; intros ok; cbn [closing].
  { set_solver. }
  destruct (ok x) eqn:E; rewrite !elem_of_cons, ?IH, ?andb_true_iff, ?negb_true_iff, ?bool_decide_eq_false.
  - split; [intros [->|(? & ? & ?)]; auto|]. intros [[->|H] Ho]; [by left|].
    destruct (decide (o = x)); [by left|by right].
  - split; [intros (? & ?); auto|]. intros [[->|H] Ho]; [congruence|done].
Qed.

Lemma closing_nodup ok os : NoDup (closing ok os).
Proof.
  revert ok. induction os as [|x os IH]; intros ok; cbn [closing]; [constructor|].
  destruct (ok x); [|apply IH]. constructor; [|apply IH].
  rewrite closing_in, andb_true_iff, negb_true_iff, bool_decide_eq_false. naive_solver.
Qed.

(** What is closed later has not been visited earlier. *)
Lemma closing_split ok os l1 o l2 o' : closing ok os = l1 ++ o :: l2 -> o' ∈ l2 ->
  exists os1 os2, os = os1 ++ o :: os2 /\ o' ∉ os1 /\ o' ≠ o.
Proof.
  revert ok l1. induction os as [|x os IH]; intros ok l1 E Ho'; cbn [closing] in E; [by destruct l1|].
  destruct (ok x) eqn:Ex.
  - destruct l1 as [|y l1]; injection E as -> E.
    + exists [], os. split; [done|]. split; [apply not_elem_of_nil|].
      rewrite <- E, closing_in, andb_true_iff, negb_true_iff, bool_decide_eq_false in Ho'. naive_solver.
    + destruct (IH _ l1 E Ho') as (os1 & os2 & -> & Hni & Hne). exists (y :: os1), os2.
      split; [done|]. split; [|done]. rewrite not_elem_of_cons. split; [|done].
      assert (o' ∈ closing (fun z => ok z && negb (bool_decide (z = y))) (os1 ++ o :: os2)) as Hin
        by (rewrite E; set_solver).
      rewrite closing_in, andb_true_iff, negb_true_iff, bool_decide_eq_false in Hin. naive_solver.
  - destruct (IH _ l1 E Ho') as (os1 & os2 & -> & Hni & Hne). exists (x :: os1), os2.
    split; [done|]. split; [|done]. rewrite not_elem_of_cons. split; [|done].
    intros ->. assert (x ∈ closing ok (os1 ++ o :: os2)) as Hin by (rewrite E; set_solver).
    rewrite closing_in in Hin. destruct Hin; congruence.
Qed.

Definition closeable (g : Graph) (o : oid) : bool :=
  match objs g !! o with
  | Some ob => negb (closed ob) && match Value ob with V t _ => closeAble t | VNil => false end
  | None => false
  end.

Definition mark (o : oid) (g : Graph) : Graph :=
  with_objs (alter (fun ob => mkObject (Name ob) (reflectType ob) (Value ob) true) o) g.

Lemma mark_lookup o g o' ob : objs g !! o' = Some ob -> exists ob', objs (mark o g) !! o' = Some ob' /\
  Name ob' = Name ob /\ Value ob' = Value ob.
Proof.
  intros Hob. simpl. destruct (decide (o' = o)) as [->|Hne].
  - rewrite lookup_alter_eq, Hob. by eexists.
  - rewrite lookup_alter_ne by done. by exists ob.
Qed.

Lemma mark_lookup_inv o g o' ob : objs (mark o g) !! o' = Some ob ->
  exists ob0, objs g !! o' = Some ob0 /\ Name ob = Name ob0.
Proof.
  simpl. destruct (decide (o' = o)) as [->|Hne].
  - rewrite lookup_alter_eq. destruct (objs g !! o) as [ob0|]; [|done]. intros [= <-]. by exists ob0.
  - rewrite lookup_alter_ne by done. by exists ob.
Qed.

Lemma inv_mark o g : inv g -> inv (mark o g).
Proof.
  intros [Iw Il Io In Iord Ir Iid It]. split; simpl; try done.
  - intros k o1 Hk. destruct (Io k o1 Hk) as [ob Hob]. destruct (mark_lookup o g o1 ob Hob) as (ob' & H' & _).
    by eexists.
  - intros o1 [ob Hob]. destruct (mark_lookup_inv o g o1 ob Hob) as (ob0 & Hob0 & _). apply In. by eexists.
  - intros k l o1 o' ob' Hk Hl Hob' Hn Hown Hlt. destruct (mark_lookup_inv o g o' ob' Hob') as (ob0 & Hob0 & E).
    rewrite E in *. by apply (Iord k l o1 o' ob0).
  - eapply ordered_mono; [done|]. intros o1 ob Hob. destruct (mark_lookup o g o1 ob Hob) as (ob' & ? & _ & ?).
    by exists ob'.
Qed.

Lemma closeable_mark o g x : closeable (mark o g) x = closeable g x && negb (bool_decide (x = o)).
Proof.
  unfold closeable. simpl. destruct (decide (x = o)) as [->|Hne].
  - rewrite lookup_alter_eq, bool_decide_true, andb_false_r by done. by destruct (objs g !! o).
  - rewrite lookup_alter_ne, bool_decide_false, andb_true_r by done. done.
Qed.
(** The loop of [Close] leaves the map alone and collects every key visited. *)
Lemma close_loop_inv kvs : forall keys g r g', close_loop kvs keys g = (r, g') -> inv g ->
  inv g' /\ named g' = named g /\
  (forall ks, r = Ret ks -> forall k, k ∈ keys \/ Some k ∈ map OrderedMap.Key kvs -> k ∈ ks).
Proof.
  induction kvs as [|kv kvs IH]; intros keys g r g' E Hg; cbn [close_loop] in E.
  { injection E as <- <-. split_and!; [done..|]. intros ks [= <-] k [Hk|Hk]; [done|]. set_solver. }
  destruct (OrderedMap.Key kv) as [k0|] eqn:Ek.
  2: { destruct (IH _ _ _ _ E Hg) as (? & ? & Hks). split_and!; [done..|]. intros ks Er k Hk.
    apply (Hks ks Er). simpl in Hk. rewrite Ek in Hk. set_solver. }
  unfold mbind at 1, M_bind at 1, get in E.
  assert (forall keys' g1 r' g2, close_loop kvs keys' g1 = (r', g2) -> inv g1 -> named g1 = named g ->
    (forall k, k ∈ keys ++ [k0] -> k ∈ keys') ->
    inv g2 /\ named g2 = named g /\
    (forall ks, r' = Ret ks -> forall k, k ∈ keys \/ Some k ∈ map OrderedMap.Key (kv :: kvs) -> k ∈ ks)) as Hgo.
  { intros keys' g1 r' g2 E' Hg1 Hn Hsub. destruct (IH _ _ _ _ E' Hg1) as (? & ? & Hks).
    split_and!; [done|congruence|]. intros ks Er k Hk. apply (Hks ks Er). simpl in Hk. rewrite Ek in Hk.
    destruct Hk as [Hk|Hk]; [left; apply Hsub; set_solver|].
    apply elem_of_cons in Hk as [[= ->]|Hk]; [left; apply Hsub; set_solver|by right]. }
  destruct (_ ≫= _) as [[o ob]|]; [|by apply (Hgo _ _ _ _ E)].
  destruct (closed ob); [by apply (Hgo _ _ _ _ E)|].
  set (keys' := if isStructPtr (reflectType ob) then _ else _) in E.
  assert (forall k, k ∈ keys ++ [k0] -> k ∈ keys') as Hkeys' by (unfold keys'; destruct (isStructPtr _); set_solver).
  destruct (Value ob) as [|t p] eqn:Ev; [by apply (Hgo _ _ _ _ E)|].
  destruct (closeAble t); [|by apply (Hgo _ _ _ _ E)].
  unfold mbind, M_bind, emit, modify, on_world in E. cbn [world with_trace] in E.
  set (g1 := with_trace (fun tr => tr ++ [EvClose o]) g) in E.
  assert (inv g1) as Hg1 by (by apply inv_emit).
  destruct (Close_ (V t p) (world g)) as [[[]|m] w].
  - apply (Hgo _ _ _ _ E); [|done|done]. apply (inv_mark o (with_world w g1)). by apply inv_world.
  - injection E as <- <-. split_and!; [by apply inv_world|done|done].
Qed.

Definition visited (kvs : list (OrderedMap.KVPair string oid)) : list oid :=
  omap (fun kv => OrderedMap.Key kv ≫= fun _ => OrderedMap.KValue kv) kvs.

(** When no [Close] method panics, the loop returns, having closed what it should. *)
Lemma close_loop_run kvs : (forall v w, exists w', Close_ v w = (Ret tt, w')) ->
  forall keys g, exists ks g', close_loop kvs keys g = (Ret ks, g') /\
    trace g' = trace g ++ map EvClose (closing (closeable g) (visited kvs)).
Proof.
  intros Hc. induction kvs as [|kv kvs IH]; intros keys g; cbn [close_loop].
  { exists keys, g. by rewrite app_nil_r. }
  unfold visited. cbn [omap list_omap]. fold (visited kvs).
  destruct (OrderedMap.Key kv) as [k0|]; cbn [mbind option_bind]; [|apply IH].
  unfold mbind at 1, M_bind at 1, get.
  destruct (OrderedMap.KValue kv) as [o|]; cbn [mbind option_bind]; [|apply IH].
  cbn [closing]. unfold closeable at 1. destruct (objs g !! o) as [ob|] eqn:Eo; cbn [mbind option_bind]; [|apply IH].
  destruct (closed ob); cbn [negb andb]; [apply IH|].
  destruct (Value ob) as [|t p] eqn:Ev; [apply IH|]. destruct (closeAble t); [|apply IH].
  unfold mbind, M_bind, emit, modify, on_world. cbn [world with_trace].
  destruct (Hc (V t p) (world g)) as [w Ew]. rewrite Ew.
  set (g1 := with_world w (with_trace (fun tr => tr ++ [EvClose o]) g)).
  destruct (IH (if isStructPtr (reflectType ob) then (keys ++ [k0]) ++ [getTypeName (reflectType ob)] else keys ++ [k0])
    (mark o g1)) as (ks & g' & E & Ht).
  exists ks, g'. split; [exact E|]. rewrite Ht. simpl. rewrite <- app_assoc. simpl. do 3 f_equal.
  apply closing_ext. intros x. by rewrite closeable_mark.
Qed.

(** Deleting keys, present or not, empties the map of them and never fails. *)
Lemma del_all_run keys g : StaleMap.weak (named g) ->
  exists n', del_all keys g = (Ret tt, with_named (fun _ => n') g) /\ StaleMap.weak n' /\
    forall k, is_Some (OrderedMap.store n' !! k) -> is_Some (OrderedMap.store (named g) !! k) /\ k ∉ keys.
Proof.
  revert g. induction keys as [|k0 keys IH]; intros g Hw; cbn [del_all].
  { exists (named g). split; [by destruct g|]. split; [done|]. intros k Hk. split; [done|]. set_solver. }
  destruct (StaleMap.Delete_weak k0 (named g) Hw) as (n1 & E1 & Hw1 & Hs1 & _).
  destruct (IH (with_named (fun _ => n1) g) Hw1) as (n' & E' & Hw' & Hs').
  exists n'. split_and!; [|done|].
  - unfold del, mbind, M_bind, on_named. rewrite E1. exact E'.
  - intros k Hk. destruct (Hs' k Hk) as [Hk1 Hni]. simpl in Hk1. rewrite Hs1 in Hk1.
    destruct Hk1 as [o [Hne Ho]%lookup_delete_Some]. split; [by eexists|]. set_solver.
Qed.
Lemma inv_cleared n' g : inv g -> StaleMap.weak n' -> OrderedMap.store n' = ∅ ->
  inv (with_trace (fun tr => tr ++ [EvCleared]) (with_named (fun _ => n') g)).
Proof.
  intros [Iw Il Io In Iord Ir Iid It] Hw Hs. split; simpl; try done.
  - by apply StaleMap.live_cleared.
  - intros k o. by rewrite Hs, lookup_empty.
  - intros k l o o' ob'. by rewrite Hs, lookup_empty.
  - intros k o. by rewrite Hs, lookup_empty.
  - intros k o [Hk|Hk]%elem_of_app; [by eapply Iid|]. set_solver.
  - by apply ordered_snoc.
Qed.

(** The objects [Close] visits, from the newest node to the oldest. *)
Definition entry (n : OrderedMap.OrderedMap string oid) (p : loc) : option oid :=
  OrderedMap.val (OrderedMap.heap n) p ≫= fun k => OrderedMap.store n !! k.

Lemma visited_entries n l : visited (map (StaleMap.kv_at n) l) = omap (entry n) l.
Proof.
  induction l as [|p l IH]; [done|]. unfold visited in *. cbn [map omap list_omap].
  fold (visited (map (StaleMap.kv_at n) l)) in *. rewrite IH. unfold entry, StaleMap.kv_at at 1 2. simpl.
  by destruct (OrderedMap.val _ _).
Qed.

(** One run of [Close], whatever its methods do. *)
Lemma Close_inv g r g' : inv g -> Close g = (r, g') ->
  inv g' /\ (r = Ret tt -> OrderedMap.store (named g') = ∅).
Proof.
  intros Hg E. unfold Close in E. unfold mbind at 1, M_bind at 1, on_named in E.
  destruct (StaleMap.rev_iterate_weak (named g) (i_weak g Hg) (i_live g Hg)) as (l & El & _ & _ & Hl).
  rewrite El in E. replace (with_named (fun _ => named g) g) with g in E by (by destruct g).
  unfold mbind at 1, M_bind at 1 in E.
  destruct (close_loop (map (StaleMap.kv_at (named g)) l) [] g) as [[ks|m] g1] eqn:Ec;
    destruct (close_loop_inv _ _ _ _ _ Ec Hg) as (Hg1 & Hn & Hks); [|by injection E as <- <-].
  destruct (del_all_run ks g1 (i_weak g1 Hg1)) as (n' & Ed & Hw' & Hs').
  unfold mbind, M_bind in E. rewrite Ed in E. injection E as <- <-.
  assert (OrderedMap.store n' = ∅) as Hempty.
  { apply map_empty. intros k. apply eq_None_not_Some. intros Hk. destruct (Hs' k Hk) as [Hk1 Hni].
    apply Hni, (Hks ks eq_refl). right. rewrite Hn in Hk1. pose proof Hk1 as Hk1'.
    destruct (StaleMap.w_store _ (i_weak g Hg) k Hk1) as [p Hp].
    pose proof (Hl k p Hk1' Hp) as Hin. rewrite map_map. apply list_elem_of_fmap. exists p.
    split; [|done]. destruct (StaleMap.w_mapper _ (i_weak g Hg) k p Hp) as [Hv _]. by simpl. }
  split; [by apply inv_cleared|done].
Qed.
(** A graph that any sequence of calls has led to, whatever their outcomes. *)
Inductive reachable : Graph -> Prop :=
| reach_new w a im : reachable (NewGraph w a im)
| reach_register fuel name v singleton noFill g : reachable g ->
    reachable (exec (register fuel name v singleton noFill) g)
| reach_close g : reachable g -> reachable (exec Close g).

Lemma inv_new w a im : inv (NewGraph w a im).
Proof.
  split; simpl; try done.
  - apply StaleMap.weak_empty.
  - apply StaleMap.live_empty.
  - intros o [ob Ho]. by rewrite lookup_empty in Ho.
  - intros k o Hk. by apply not_elem_of_nil in Hk.
  - intros pre e post E. by destruct pre.
Qed.

Lemma reachable_graph_inv g : reachable g -> inv g.
Proof.
  induction 1 as [| |g Hr IH]; [apply inv_new|by apply keeps_register|].
  unfold exec. destruct (Close g) as [r g'] eqn:E. by destruct (Close_inv g r g' IH E).
Qed.

Definition has_close (ob : Object) : bool := match Value ob with V t _ => closeAble t | VNil => false end.

(** The visits find every object, and an object with its own name before every
    older one. *)
Lemma entries_order g l o o' ob' os1 os2 : inv g ->
  StronglySorted (fun a b => (b < a)%positive) l ->
  (forall p, p ∈ l -> exists k p', OrderedMap.val (OrderedMap.heap (named g)) p = Some k /\
     OrderedMap.mapper (named g) !! k = Some p' /\ (p <= p')%positive) ->
  (forall k p, is_Some (OrderedMap.store (named g) !! k) -> OrderedMap.mapper (named g) !! k = Some p -> p ∈ l) ->
  omap (entry (named g)) l = os1 ++ o :: os2 -> o' ∉ os1 -> o' ≠ o ->
  objs g !! o' = Some ob' -> OrderedMap.store (named g) !! Name ob' = Some o' ->
  own_name (trace g) (Name ob') o' -> (o' < o)%positive.
Proof.
  intros Hg Hs Hl Hlive E Hni Hne Hob Hn Hown.
  destruct (decide (o < o')%positive) as [Hlt|]; [|lia]. exfalso.
  destruct (omap_app_split _ _ _ _ _ E) as (l1 & p & l2 & -> & Hp & <-).
  destruct (Hl p) as (k & p' & Hv & Hm & Hle); [set_solver|].
  unfold entry in Hp. rewrite Hv in Hp. cbn [mbind option_bind] in Hp.
  destruct (i_order g Hg k p' o o' ob' Hp Hm Hob Hn Hown Hlt) as (q & Hq & Hpq).
  assert (q ∈ l1 ++ p :: l2) as Hin by (apply (Hlive (Name ob')); [by rewrite Hn|done]).
  apply elem_of_app in Hin as [Hin|Hin].
  - apply Hni, list_elem_of_omap. exists q. split; [done|].
    destruct (StaleMap.w_mapper _ (i_weak g Hg) _ _ Hq) as [Hvq _]. unfold entry. by rewrite Hvq.
  - apply StronglySorted_app_1_r in Hs. apply StronglySorted_inv in Hs as [_ Hf].
    rewrite Forall_forall in Hf. apply elem_of_cons in Hin as [->|Hin]; [lia|].
    specialize (Hf q Hin). simpl in Hf. lia.
Qed.
(** C8 [Close] takes everything down, in order: in a graph that any calls have led
    to, whatever they returned, it returns and leaves the graph empty if no object's
    own [Close] panics; every object of the graph with a [Close] method that is not
    closed yet is closed exactly once; and an object that has its name for itself
    is closed before all older objects, among them those it depends on. *)
Theorem Close_newest_first g : reachable g -> (forall v w, exists w', Close_ v w = (Ret tt, w')) ->
  exists g' L, Close g = (Ret tt, g') /\ (forall name, find name g' = None) /\ OrderedMap.Len (named g') = 0 /\
    trace g' = trace g ++ map EvClose L ++ [EvCleared] /\ NoDup L /\
    (forall o, o ∈ L <-> exists name ob, OrderedMap.Get name (named g) = Some o /\ objs g !! o = Some ob /\
       closed ob = false /\ has_close ob = true) /\
    (forall L1 o L2 o' ob', L = L1 ++ o :: L2 -> o' ∈ L2 -> objs g !! o' = Some ob' ->
       OrderedMap.Get (Name ob') (named g) = Some o' -> own_name (trace g) (Name ob') o' -> (o' < o)%positive).
Proof.
  intros Hr Hc. pose proof (reachable_graph_inv g Hr) as Hg.
  destruct (StaleMap.rev_iterate_weak (named g) (i_weak g Hg) (i_live g Hg)) as (l & El & Hs & Hl & Hlive).
  destruct (close_loop_run (map (StaleMap.kv_at (named g)) l) Hc [] g) as (ks & g1 & Ec & Ht).
  destruct (close_loop_inv _ _ _ _ _ Ec Hg) as (Hg1 & _ & _).
  destruct (del_all_run ks g1 (i_weak g1 Hg1)) as (n' & Ed & _ & _).
  rewrite visited_entries in Ht. set (L := closing (closeable g) (omap (entry (named g)) l)) in *.
  set (g' := with_trace (fun tr => tr ++ [EvCleared]) (with_named (fun _ => n') g1)).
  assert (Close g = (Ret tt, g')) as E.
  { unfold Close. unfold mbind at 1, M_bind at 1, on_named. rewrite El.
    replace (with_named (fun _ => named g) g) with g by (by destruct g).
    unfold mbind, M_bind. by rewrite Ec, Ed. }
  destruct (Close_inv g _ g' Hg E) as (_ & Hempty). specialize (Hempty eq_refl).
  exists g', L. split_and!; [exact E| | | | | |].
  - intros name. unfold find, OrderedMap.Get. by rewrite Hempty, lookup_empty.
  - unfold OrderedMap.Len. by rewrite Hempty, map_size_empty.
  - simpl. by rewrite Ht, <- app_assoc.
  - apply closing_nodup.
  - intros o. unfold L. rewrite closing_in, list_elem_of_omap. unfold closeable, has_close. split.
    + intros [(p & Hp & He) Hok]. unfold entry in He. destruct (OrderedMap.val _ _) as [k|]; [|done].
      exists k. destruct (objs g !! o) as [ob|]; [|done]. exists ob.
      apply andb_true_iff in Hok as [Hcl Hok]. apply negb_true_iff in Hcl. done.
    + intros (k & ob & Hk & Hob & Hcl & Hhas). unfold OrderedMap.Get in Hk. rewrite Hob, Hcl, Hhas. split; [|done].
      destruct (StaleMap.w_store _ (i_weak g Hg) k) as [p Hp]; [by rewrite Hk|].
      exists p. split; [by apply (Hlive k); [rewrite Hk|]|].
      destruct (StaleMap.w_mapper _ (i_weak g Hg) k p Hp) as [Hv _]. unfold entry. by rewrite Hv.
  - intros L1 o L2 o' ob' EL Ho' Hob' Hn Hown.
    destruct (closing_split _ _ _ _ _ _ EL Ho') as (os1 & os2 & Eos & Hni & Hne).
    by apply (entries_order g l o o' ob' os1 os2).
Qed.

(** C9 Dependencies first: whatever the registered objects' methods do, an object is
    put into another one's field only when it has been registered, and an object is
    registered only when its [Start], if it has one, has been called. *)
Theorem dependencies_first g pre e post : reachable g -> trace g = pre ++ e :: post ->
  match e with
  | EvInject _ _ o => exists name, EvRegister name o ∈ pre
  | EvRegister _ o => exists ob, objs g !! o = Some ob /\
      (forall t p, Value ob = V t p -> startAble t = true -> EvStart (Value ob) ∈ pre)
  | _ => True
  end.
Proof.
  intros Hr E. pose proof (i_trace g (reachable_graph_inv g Hr) pre e post E) as He.
  destruct e as [|? ? o|n o| |]; try done. destruct He as (ob & Hob & Hs). exists ob. split; [done|].
  intros t p Ev Ht. rewrite Ev in Hs |- *. auto.
Qed.
(** ** Fields are filled *)

(** The struct a value points to. *)
Definition points_to (v : gval) : option addr := match v with V _ (PAddr a) => Some a | _ => None end.

(** A [Start] that succeeds changes the fields of no struct but the one it is called on. *)
Definition own_fields : Prop := forall v w w', Start_ v w = (Ret None, w') ->
  forall x, points_to v ≠ Some x -> w'.2 !! x = w.2 !! x.

(** What a registration leaves alone: structs made before, except the one at [a];
    objects; what has happened. *)
Record ext (a : option addr) (g g' : Graph) : Prop := {
  e_nexta : (nexta g <= nexta g')%positive;
  e_heap : forall x, (x < nexta g)%positive -> a ≠ Some x -> (world g').2 !! x = (world g).2 !! x;
  e_objs : forall o ob, objs g !! o = Some ob -> objs g' !! o = Some ob;
  e_trace : exists tr, trace g' = trace g ++ tr
}.

Lemma ext_refl a g : ext a g g.
Proof. split; try done. exists []. by rewrite app_nil_r. Qed.

Lemma ext_trans a g g1 g2 : ext a g g1 -> ext a g1 g2 -> ext a g g2.
Proof.
  intros [N1 H1 O1 [t1 T1]] [N2 H2 O2 [t2 T2]]. split; [lia| | |].
  - intros x Hx Ha. rewrite H2, H1 by first [done|lia]. done.
  - auto.
  - exists (t1 ++ t2). by rewrite T2, T1, <- app_assoc.
Qed.

Lemma ext_weaken a g g' : ext None g g' -> ext a g g'.
Proof. intros [N H O T]. split; try done. intros x Hx _. by apply H. Qed.

(** The world before and after the [Start] of a value, where its type has one. *)
Definition started (v : gval) (w w' : U * heap_t) : Prop :=
  match v with V t _ => if startAble t then Start_ v w = (Ret None, w') else w' = w | VNil => w' = w end.

Lemma start_ext v g g' : own_fields -> start v g = (Ret None, g') ->
  ext (points_to v) g g' /\ started v (world g) (world g').
Proof.
  intros Hown E. unfold start, started in *. destruct v as [|t p]; [by injection E as <-; split; [apply ext_refl|]|].
  destruct (startAble t); [|by injection E as <-; split; [apply ext_refl|]].
  unfold mbind, M_bind, emit, modify, on_world in E. cbn [world with_trace] in E.
  destruct (Start_ (V t p) (world g)) as [r w] eqn:Es. injection E as -> <-.
  pose proof (Hown _ _ _ Es) as Hx. split; [|done]. split; simpl; try done; [|by eexists]. intros x _. apply Hx.
Qed.

(** The field [x] of a registered struct, and [x'] after its registration. *)
Definition filled (g' : Graph) (f : Field) (x x' : gval) : Prop :=
  (isZeroOfUnderlyingType x = false /\ x' = x) \/
  (tag_true "canNil" (f_Tag f) || tag_true "nilAble" (f_Tag f) = true /\ x' = x) \/
  (exists o ob k, EvRegister k o ∈ trace g' /\ objs g' !! o = Some ob /\ assign_value f ob = Some x').

Lemma filled_ext a g g' f x x' : ext a g g' -> filled g f x x' -> filled g' f x x'.
Proof.
  intros [_ _ O [tr T]] [?|[?|(o & ob & k & Hk & Ho & Hv)]]; [by left|by right; left|]. right; right.
  exists o, ob, k. rewrite T. split_and!; [set_solver|auto|done].
Qed.

(** A turn of the loop that goes on: field [i] of the struct is dealt with, the
    others are as they were. *)
Definition turn (a : addr) (i : nat) (f : Field) (fs : list gval) (g g' : Graph) : Prop :=
  ext (Some a) g g' /\ inv g' /\ exists fs', (world g').2 !! a = Some fs' /\ length fs' = length fs /\
    (forall j, j ≠ i -> fs' !! j = fs !! j) /\
    forall tag x, Extract "inject" (f_Tag f) = Some (true, tag) -> fs !! i = Some x ->
      f_exported f = true /\ exists x', fs' !! i = Some x' /\ filled g' f x x'.

Lemma assign_turn a i f o k fs g g' : inv g -> OrderedMap.store (named g) !! k = Some o ->
  (world g).2 !! a = Some fs -> f_exported f = true -> assign a i f o g = (Ret None, g') -> turn a i f fs g g'.
Proof.
  intros Hg Hk Ha Hexp E. pose proof (inv_assign a i f o k g Hg Hk) as Hg'.
  unfold exec in Hg'. rewrite E in Hg'. simpl in Hg'.
  unfold assign in E. unfold mbind at 1, M_bind at 1, get in E.
  destruct (objs g !! o) as [ob|] eqn:Eo; [|done]. destruct (assign_value f ob) as [v|] eqn:Ev; [|done].
  injection E as <-. split; [|split; [done|]].
  - split; simpl; try done; [|by eexists]. intros x _ Hx. rewrite lookup_alter_ne; [done|]. congruence.
  - exists (<[i := v]> fs). cbn [world with_trace with_world snd]. rewrite lookup_alter_eq, Ha.
    split_and!; [done|by rewrite length_insert|intros j Hj; by rewrite list_lookup_insert_ne|].
    intros tag x _ Hx. split; [done|]. exists v. apply lookup_lt_Some in Hx.
    split; [by rewrite list_lookup_insert_eq|]. right; right. exists o, ob, k. cbn [trace objs with_trace with_world].
    split_and!; [|done|done]. apply elem_of_app. left. by apply since_sub, (i_reg g Hg).
Qed.

Lemma turn_same a i f fs g : inv g -> (world g).2 !! a = Some fs ->
  (forall tag x, Extract "inject" (f_Tag f) = Some (true, tag) -> fs !! i = Some x ->
     f_exported f = true /\ filled g f x x) -> turn a i f fs g g.
Proof.
  intros Hg Ha Hf. split; [apply ext_refl|]. split; [done|]. exists fs. split_and!; try done.
  intros tag x Ht Hx. destruct (Hf tag x Ht Hx) as [? ?]. eauto.
Qed.

(** What [reg] must do when it succeeds. *)
Definition reg_ok (reg : string -> gval -> bool -> M Graph (gval + rerr)) : Prop :=
  (forall n v b, keeps inv (reg n v b)) /\
  forall n t b g v' g', inv g -> reg n (V t PNil) b g = (Ret (inl v'), g') -> ext None g g'.

Lemma inject_field_turn reg a singleton i f fs g g' : reg_ok reg -> inv g ->
  (world g).2 !! a = Some fs -> (a < nexta g)%positive -> (i < length fs)%nat ->
  inject_field reg a singleton i f g = (Ret None, g') -> turn a i f fs g g'.
Proof.
  intros [Hk Hreg] Hg Ha Hlt Hi E. unfold inject_field in E.
  destruct (Extract "inject" (f_Tag f)) as [[[] tag]|] eqn:Et; [| |done].
  2: { injection E as <-. apply turn_same; [done..|]. congruence. }
  unfold mbind at 1, M_bind at 1, field_at, gets in E. rewrite Ha in E. cbn [mbind option_bind] in E.
  destruct (lookup_lt_is_Some_2 fs i Hi) as [x Hx]. rewrite Hx in E. cbn [default from_option id] in E.
  destruct (f_exported f && is_struct x); [done|].
  destruct (f_exported f && negb (isZeroOfUnderlyingType x)) eqn:Ez.
  { apply andb_true_iff in Ez as [Hexp Hz]. apply negb_true_iff in Hz. injection E as <-.
    apply turn_same; [done..|]. intros ? x0 _ Hx0. rewrite Hx in Hx0. injection Hx0 as <-.
    split; [done|]. by left. }
  destruct (f_Anonymous f || negb (f_exported f)) eqn:Ex; [done|].
  apply orb_false_iff in Ex as [_ Hexp]. apply negb_false_iff in Hexp.
  destruct (lookup_dep_spec tag (tag_true "singleton" (f_Tag f) && isStructPtr (f_Type f)) (f_Type f) g)
    as (r & El & Hr).
  unfold mbind at 1, M_bind at 1 in E. rewrite El in E. destruct r as [o|].
  { destruct (Hr o eq_refl) as [k Hko]. by apply (assign_turn a i f o k). }
  destruct (_ || _) eqn:Ecn in E.
  { injection E as <-. apply turn_same; [done..|]. intros ? x0 _ Hx0. split; [done|]. right; left. done. }
  unfold mbind at 1, M_bind at 1, get in E. unfold mbind at 1, M_bind at 1 in E.
  match type of E with context [match ?m g with _ => _ end] => destruct (m g) as [[[v|e]|m'] g1] eqn:Er end; try done.
  assert (inv g1 /\ ext None g g1) as [Hg1 He1].
  { destruct (isStructPtr _) in Er; [|destruct (List.find _ _) in Er; [|done]];
      (split; [eapply keeps_run; [apply Hk|exact Hg|exact Er]|by eapply Hreg]). }
  destruct (lookup_dep_spec tag singleton (f_Type f) g1) as (r & El1 & Hr1).
  unfold mbind, M_bind in E. rewrite El1 in E. destruct r as [o|]; [|done]. destruct (Hr1 o eq_refl) as [k Hko].
  assert ((world g1).2 !! a = Some fs) as Ha1 by (by rewrite (e_heap _ _ _ He1)).
  destruct (assign_turn a i f o k fs g1 g' Hg1 Hko Ha1 Hexp E) as (He & Hg' & Hrest).
  split; [|by split]. eapply ext_trans; [by apply ext_weaken|done].
Qed.
Lemma inject_fields_run reg a singleton : reg_ok reg -> forall flds i fs g g', inv g ->
  (world g).2 !! a = Some fs -> (a < nexta g)%positive -> (i + length flds <= length fs)%nat ->
  inject_fields reg a singleton i flds g = (Ret None, g') ->
  ext (Some a) g g' /\ inv g' /\ exists fs', (world g').2 !! a = Some fs' /\ length fs' = length fs /\
    (forall j, (j < i)%nat -> fs' !! j = fs !! j) /\
    forall j f x tag, flds !! j = Some f -> Extract "inject" (f_Tag f) = Some (true, tag) ->
      fs !! (i + j)%nat = Some x ->
      f_exported f = true /\ exists x', fs' !! (i + j)%nat = Some x' /\ filled g' f x x'.
Proof.
  intros Hreg. induction flds as [|f flds IH]; intros i fs g g' Hg Ha Hlt Hlen E; cbn [inject_fields] in E.
  { injection E as <-. split; [apply ext_refl|]. split; [done|]. exists fs. split_and!; try done. }
  unfold mbind, M_bind in E. simpl in Hlen.
  destruct (inject_field reg a singleton i f g) as [[[e|]|m] g1] eqn:E1; try done.
  destruct (inject_field_turn reg a singleton i f fs g g1 Hreg Hg Ha Hlt ltac:(lia) E1)
    as (He1 & Hg1 & fs1 & Ha1 & Hl1 & Hsame1 & Hfill1).
  destruct (IH (S i) fs1 g1 g' Hg1 Ha1) as (He2 & Hg2 & fs2 & Ha2 & Hl2 & Hsame2 & Hfill2);
    [pose proof (e_nexta _ _ _ He1); lia|lia|done|].
  split; [by eapply ext_trans|]. split; [done|]. exists fs2. split_and!; [done|congruence| |].
  - intros j Hj. rewrite Hsame2, Hsame1 by lia. done.
  - intros [|j] f' x tag Hf Ht Hx.
    + injection Hf as <-. rewrite Nat.add_0_r in *. destruct (Hfill1 tag x Ht Hx) as (Hexp & x' & Hx' & Hfl).
      split; [done|]. exists x'. split; [by rewrite Hsame2 by lia|]. by apply (filled_ext (Some a) g1).
    + rewrite Nat.add_succ_r in *. apply (Hfill2 j f' x tag Hf Ht). rewrite <- Hx. apply Hsame1. lia.
Qed.

Lemma enter_ext name t v (both : bool) g g' r : own_fields -> inv g ->
  (err ← start v;
   match err with
   | Some msg => mret (inr (EStart name msg) : gval + rerr)
   | None => o ← new_object (mkObject name t v false);
             _ ← (if both then setBoth name t o else set name o); mret (inl v)
   end) g = (Ret (inl r), g') -> r = v /\ ext (points_to v) g g' /\ started v (world g) (world g').
Proof.
  intros Hown Hg E. unfold mbind at 1, M_bind at 1 in E.
  destruct (start v g) as [[[msg|]|m] g1] eqn:Es; try done.
  destruct (start_ext v g g1 Hown Es) as [He Hw].
  assert (inv g1) as Hg1 by (eapply keeps_run; [apply keeps_start|done|done]).
  destruct (inv_enter name t v both g1 Hg1 (start_trace v g _ g1 Es))
    as (g2 & E2 & I2 & O2 & W2 & (tr & T2) & A2 & _ & _).
  rewrite E2 in E. injection E as <- <-. split; [done|]. split; [|by rewrite W2].
  eapply ext_trans; [done|]. split.
  - rewrite A2. lia.
  - intros. by rewrite W2.
  - intros o ob Ho. rewrite O2, lookup_insert_ne; [done|]. intros <-.
    pose proof (i_next g1 Hg1 (nexto g1)) as Hn. rewrite Ho in Hn. specialize (Hn ltac:(done)). lia.
  - by eexists.
Qed.

Lemma register_reg_ok fuel noFill : own_fields -> reg_ok (fun n v b => register fuel n v b noFill).
Proof.
  intros Hown. split; [intros; apply keeps_register|].
  induction fuel as [|fuel IH]; intros n t b g v' g' Hg E; [done|]. cbn [register] in E.
  destruct (_ && _) in E; [done|]. unfold mbind at 1, M_bind at 1, find_id, gets in E.
  destruct (OrderedMap.Get _ _) in E; [done|]. unfold mbind at 1, M_bind at 1 in E.
  assert (reg_ok (fun n v b => register fuel n v b noFill)) as Hok by (split; [intros; apply keeps_register|apply IH]).
  match type of E with context [match ?m g with _ => _ end] => destruct (m g) as [[[v|e]|m'] g1] eqn:Ep end; try done.
  assert (inv g1) as Hg1 by (eapply keeps_run; [apply keeps_prepare; intros; apply keeps_register|done|exact Ep]).
  destruct (enter_ext _ _ _ _ _ _ _ Hown Hg1 E) as (_ & He2 & _). clear E. unfold prepare in Ep.
  destruct t as [|[[] pkg sname|]]; try (destruct (_ && _) in Ep; [done|]; injection Ep as <- <-; exact He2).
  cbn [isNil negb andb] in Ep. unfold mbind at 1, M_bind at 1, new_struct in Ep.
  set (fs0 := map (fun f => zero_of (f_Type f)) (fields pkg sname)) in Ep.
  match type of Ep with context [inject_fields _ _ _ _ _] => idtac end.
  unfold mbind, M_bind in Ep.
  match type of Ep with context [inject_fields ?r ?a ?s 0 ?l ?gg] =>
    set (g0 := gg) in Ep; destruct (inject_fields r a s 0 l g0) as [[[e|]|m] g2] eqn:Ei end; try done.
  injection Ep as <- <-. cbn [points_to] in He2.
  assert (inv g0) as Hg0 by (by destruct Hg).
  destruct (inject_fields_run _ (nexta g) b Hok (fields pkg sname) 0 fs0 g0 g2 Hg0) as (He & _); try done.
  - unfold g0. cbn [world snd]. by rewrite lookup_insert_eq.
  - unfold g0. cbn [nexta]. lia.
  - unfold fs0. by rewrite length_map.
  - destruct (ext_trans _ _ _ _ He He2) as [N H O T]. unfold g0 in *. cbn [nexta world objs trace snd] in *.
    split; try done; [lia|].
    intros x Hx _. rewrite H by first [lia|intros [= Hxx]; rewrite Hxx in Hx; lia]. rewrite lookup_insert_ne by lia. done.
Qed.

(** C33 A registered object is complete when it starts.  Take a struct pointer that is
    registered, with filling, in a program in which a [Start] may do anything to the
    struct it is called on but leaves the fields of all others alone.  When the
    registration succeeds, the object's own [Start] (where its type has one) was called
    once the fields were dealt with, and succeeded: every field with an [inject] tag is
    exported, and at that moment either had a value already and kept it, or may be nil
    and was left alone, or held what its type makes of the value of an object the graph
    has registered.  Without a [Start] the fields are like that when the registration
    ends. *)
Theorem Register_fills fuel name pkg sname a singleton fs g v g' : reachable g -> own_fields ->
  (world g).2 !! a = Some fs -> (a < nexta g)%positive -> length fs = length (fields pkg sname) ->
  register fuel name (V (TPtr (TNamed Struct pkg sname)) (PAddr a)) singleton false g = (Ret (inl v), g') ->
  v = V (TPtr (TNamed Struct pkg sname)) (PAddr a) /\
  exists w fs',
    (if startAble (TPtr (TNamed Struct pkg sname)) then Start_ v w = (Ret None, world g') else w = world g') /\
    w.2 !! a = Some fs' /\
    forall i f x tag, fields pkg sname !! i = Some f -> Extract "inject" (f_Tag f) = Some (true, tag) ->
      fs !! i = Some x ->
      f_exported f = true /\ exists x', fs' !! i = Some x' /\ filled g' f x x'.
Proof.
  intros Hr Hown Ha Hlt Hlen E. pose proof (reachable_graph_inv g Hr) as Hg.
  destruct fuel as [|fuel]; [done|]. cbn [register] in E. cbn [isStructPtr negb andb] in E.
  unfold mbind at 1, M_bind at 1, find_id, gets in E.
  destruct (OrderedMap.Get _ _) in E; [done|]. unfold mbind at 1, M_bind at 1 in E. unfold prepare in E.
  unfold mbind at 1, M_bind at 1 in E. cbn [isNil negb andb mret M_ret] in E. unfold mbind at 1, M_bind at 1 in E.
  match type of E with context [inject_fields ?r ?a ?s 0 ?l ?gg] =>
    destruct (inject_fields r a s 0 l gg) as [[[e|]|m] g2] eqn:Ei end; try done.
  destruct (inject_fields_run _ a singleton (register_reg_ok fuel false Hown) (fields pkg sname) 0 fs g g2 Hg Ha Hlt ltac:(lia) Ei)
    as (He & Hg2 & fs' & Ha' & Hl' & _ & Hf).
  destruct (enter_ext _ _ _ _ _ _ _ Hown Hg2 E) as (-> & He2 & Hw). split; [done|].
  exists (world g2), fs'. split; [unfold started in Hw; by destruct (startAble _)|]. split; [done|]. intros i f x tag Hfi Ht Hx.
  destruct (Hf i f x tag Hfi Ht Hx) as (Hexp & x' & Hx' & Hfl). split; [done|]. exists x'. split; [done|].
  by apply (filled_ext (Some a) g2).
Qed.
(** ** Cyclic types *)

(** A set of struct types each of whose first field asks, by type, for a pointer to
    a struct of the set. *)
Definition cyclic (C : string -> string -> Prop) : Prop := forall pkg sname, C pkg sname ->
  exists f fs pkg' sname', fields pkg sname = f :: fs /\ C pkg' sname' /\
    f_Type f = TPtr (TNamed Struct pkg' sname') /\ Extract "inject" (f_Tag f) = Some (true, EmptyString) /\
    f_exported f = true /\ f_Anonymous f = false /\
    tag_true "canNil" (f_Tag f) || tag_true "nilAble" (f_Tag f) = false.

(** Types that need each other cannot be registered: a new object enters the
    graph only after its fields are filled, so the search for a field's object goes
    round the cycle for ever, and whatever the size of the stack it overflows. *)
Theorem cyclic_types_overflow C : cyclic C -> forall fuel name pkg sname singleton noFill g, C pkg sname ->
  (forall pkg sname, C pkg sname -> OrderedMap.Get (getTypeName (TPtr (TNamed Struct pkg sname))) (named g) = None) ->
  name = EmptyString \/ OrderedMap.Get name (named g) = None ->
  outcome_of (register fuel name (V (TPtr (TNamed Struct pkg sname)) PNil) singleton noFill) g
    = Panic "stack overflow".
Proof.
  intros HC fuel. induction fuel as [|fuel IH]; intros name pkg sname singleton noFill g Hc Hg Hname; [done|].
  cbn [register isStructPtr negb andb].
  rewrite (outcome_bind (find_id _) _ g None g).
  2: { unfold find_id, gets, OrderedMap.Get in *. destruct (decide (name = EmptyString)); [by rewrite Hg|].
    destruct Hname as [?|Hname]; [done|by rewrite Hname]. }
  apply outcome_bind_panic. unfold prepare. cbn [isNil negb andb].
  destruct (HC pkg sname Hc) as (f & fs & pkg' & sname' & Ef & Hc' & Ety & Etag & Hexp & Han & Hcn).
  erewrite (outcome_bind (new_struct _)) by reflexivity. set (g1 := mkGraph _ _ _ _ _ _ _).
  apply outcome_bind_panic. rewrite Ef. cbn [inject_fields]. apply outcome_bind_panic.
  unfold inject_field. rewrite Etag.
  rewrite (outcome_bind (field_at _ _) _ g1 (V (TPtr (TNamed Struct pkg' sname')) PNil) g1).
  2: { unfold field_at, gets, g1. cbn [world snd]. rewrite lookup_insert_eq, Ef. cbn. by rewrite Ety. }
  cbn [is_struct isZeroOfUnderlyingType negb]. rewrite Hexp, Han, Hcn. cbn [andb orb negb].
  rewrite (outcome_bind (lookup_dep _ _ _) _ g1 None g1).
  2: { rewrite Ety. by apply (f_equal (fun r => (Ret r, g1))), Hg. }
  rewrite (outcome_bind get _ g1 g1 g1) by done. rewrite Ety. cbn [isStructPtr].
  apply outcome_bind_panic. apply (IH EmptyString pkg' sname'); [done|exact Hg|by left].
Qed.
End graph.
(** ** A concrete program *)

(** A service [svc.A] with a field for a [svc.B], asked for by the tag ["b"], and a
    limit; [svc.B] has no fields; [svc.Loop] asks for itself. A field's tag stands
    for the [inject] value. *)
Definition ptr (n : string) : rtype := TPtr (TNamed Struct "svc" n).

Definition demo_fields (pkg name : string) : list Field :=
  if decide (name = "A") then
    [mkField "Dep" (ptr "B") "b" false true; mkField "Limit" (TNamed (Int 8) "" "int8") "limit" false true]
  else if decide (name = "Loop") then [mkField "Self" (ptr "Loop") "" false true]
  else if decide (name = "Twin") then [mkField "Other" (ptr "B") "twin" false true] else [].

Definition demo_Extract (key tag : string) : option (bool * string) :=
  if decide (key = "inject") then Some (true, tag) else Some (false, EmptyString).

Definition demo_assignable (t u : rtype) : bool := bool_decide (t = u).

Definition demo_Start (v : gval) : M (unit * gmap addr (list gval)) (option string) := mret None.
Definition demo_Close (v : gval) : M (unit * gmap addr (list gval)) unit := mret tt.

Definition demo_register := register demo_fields demo_assignable demo_Extract isStructPtr demo_Start.
Definition demo_run : Graph -> Graph := exec (Close isStructPtr demo_Close).

(** The struct [A] of the program lies at address 1, with both fields unset. *)
Definition demo_new : Graph :=
  NewGraph (tt, {[1%positive := [V (ptr "B") PNil; V (TNamed (Int 8) "" "int8") (PNum 0)]]}) 2%positive ∅.

(** The limit is registered first, as an [int] that no [int8] holds. *)
Definition demo_limit : Graph :=
  exec (demo_register 3 "limit" (V (TNamed (Int 64) "" "int") (PNum 300)) false false) demo_new.
Definition demo_graph : Graph := exec (demo_register 3 "a" (V (ptr "A") (PAddr 1%positive)) false false) demo_limit.

Abbreviation demo_reachable :=
  (reachable demo_fields demo_assignable demo_Extract isStructPtr isStructPtr demo_Start demo_Close).

Lemma demo_limit_reachable : demo_reachable demo_limit.
Proof. apply reach_register, reach_new. Defined.

Lemma demo_graph_reachable : demo_reachable demo_graph.
Proof. apply reach_register, demo_limit_reachable. Defined.

(** The number loses its high bits on the way into the field: 300 arrives as 44. *)
Example demo_filled : (world demo_graph).2 !! 1%positive =
  Some [V (ptr "B") (PAddr 2%positive); V (TNamed (Int 8) "" "int8") (PNum 44)].
Proof. vm_compute. reflexivity. Qed.

Lemma Close_newest_first_witness : exists g' L,
  Close isStructPtr demo_Close demo_graph = (Ret tt, g') /\ (forall name, find name g' = None) /\ NoDup (L : list oid).
Proof.
  destruct (Close_newest_first demo_fields demo_assignable demo_Extract isStructPtr isStructPtr demo_Start demo_Close
    demo_graph demo_graph_reachable) as (g' & L & E & Hf & _ & _ & Hnd & _); [by intros v w; exists w|].
  exists g', L. split_and!; [exact E|exact Hf|exact Hnd].
Defined.

Lemma dependencies_first_witness : exists name,
  EvRegister name 2%positive ∈ [EvRegister "limit" 1%positive; EvStart (V (ptr "B") (PAddr 2%positive)); EvRegister "b" 2%positive].
Proof.
  exact (dependencies_first demo_fields demo_assignable demo_Extract isStructPtr isStructPtr demo_Start demo_Close
    demo_graph [EvRegister "limit" 1%positive; EvStart (V (ptr "B") (PAddr 2%positive)); EvRegister "b" 2%positive]
    (EvInject 1%positive 0 2%positive)
    [EvInject 1%positive 1 1%positive; EvStart (V (ptr "A") (PAddr 1%positive)); EvRegister "a" 3%positive]
    demo_graph_reachable ltac:(vm_compute; reflexivity)).
Defined.

(** A [Start] that sets its own limit back to zero, once it is called. *)
Definition own_Start (v : gval) : M (unit * gmap addr (list gval)) (option string) := fun w =>
  match v with
  | V _ (PAddr a) => (Ret None, (w.1, alter <[1%nat := V (TNamed (Int 8) "" "int8") (PNum 0)]> a w.2))
  | _ => (Ret None, w)
  end.

Lemma own_Start_own : own_fields own_Start.
Proof.
  intros v w w' E x Hx. destruct v as [|t []]; injection E as <-; try done. cbn in *.
  apply lookup_alter_ne. congruence.
Qed.

Abbreviation own_register := (register demo_fields demo_assignable demo_Extract isStructPtr own_Start).
Definition own_limit : Graph :=
  exec (own_register 3 "limit" (V (TNamed (Int 64) "" "int") (PNum 300)) false false) demo_new.
Definition own_graph : Graph := exec (own_register 3 "a" (V (ptr "A") (PAddr 1%positive)) false false) own_limit.

(** The field is filled with 44 when [Start] is called, and 0 when it has run. *)
Example own_start_ran : (world own_graph).2 !! 1%positive =
  Some [V (ptr "B") (PAddr 2%positive); V (TNamed (Int 8) "" "int8") (PNum 0)].
Proof. vm_compute. reflexivity. Qed.

Lemma Register_fills_witness : own_fields own_Start /\
  exists w fs', own_Start (V (ptr "A") (PAddr 1%positive)) w = (Ret None, world own_graph) /\ w.2 !! 1%positive = Some fs' /\
    forall i f x tag, demo_fields "svc" "A" !! i = Some f -> demo_Extract "inject" (f_Tag f) = Some (true, tag) ->
      [V (ptr "B") PNil; V (TNamed (Int 8) "" "int8") (PNum 0)] !! i = Some x ->
      f_exported f = true /\
      exists x', fs' !! i = Some x' /\ filled demo_assignable demo_Extract own_graph f x x'.
Proof.
  split; [exact own_Start_own|].
  refine (proj2 (Register_fills demo_fields demo_assignable demo_Extract isStructPtr isStructPtr own_Start demo_Close
    3 "a" "svc" "A" 1%positive false _ own_limit _ own_graph _ own_Start_own _ _ _ _)).
  - apply reach_register, reach_new.
  - reflexivity.
  - reflexivity.
  - reflexivity.
  - vm_compute. reflexivity.
Defined.

Lemma cyclic_types_overflow_witness :
  outcome_of (demo_register 100 "loop" (V (ptr "Loop") PNil) false false) demo_limit = Panic "stack overflow".
Proof.
  apply (cyclic_types_overflow demo_fields demo_assignable demo_Extract isStructPtr demo_Start
    (fun pkg name => pkg = "svc" /\ name = "Loop")).
  - intros pkg sname [-> ->]. eexists _, _, "svc", "Loop". split_and!; reflexivity.
  - split; reflexivity.
  - intros pkg sname [-> ->]. vm_compute. reflexivity.
  - right. vm_compute. reflexivity.
Defined.

(** An object can be lost: when a field's new object takes the name its owner is
    being registered under, the owner overwrites the entry; the object stays in the
    field, started, and [Close] never closes it. *)
Example shadowed_object_never_closed :
  let g := exec (demo_register 3 "twin" (V (ptr "Twin") PNil) false false) demo_new in
  outcome_of (demo_register 3 "twin" (V (ptr "Twin") PNil) false false) demo_new
    = Ret (inl (V (ptr "Twin") (PAddr 2%positive))) /\
  (world g).2 !! 2%positive = Some [V (ptr "B") (PAddr 3%positive)] /\
  trace (demo_run g) =
    [EvStart (V (ptr "B") (PAddr 3%positive)); EvRegister "twin" 1%positive; EvInject 2%positive 0 1%positive;
     EvStart (V (ptr "Twin") (PAddr 2%positive)); EvRegister "twin" 2%positive;
     EvClose 2%positive; EvCleared].
Proof. vm_compute. split_and!; reflexivity. Qed.

End Inject.
