(* ===== verification/MysqlSql.v ===== *)
(** * SQL text ([databases/mysqldb/utils.go])

    The escaping of strings, the building of conditions, the names and values of
    struct fields, and the classification of errors. *)

From S2P Require Import Prelude GoStd GoStrings.
Import GoStd GoStrings.

Module MysqlSql.

(** ** Values and structs

    Arguments of statements are passed through to the driver. *)

Inductive value : Type := VNull | VInt (z : Z) | VStr (s : string) | VOther (id : Z).

#[export] Instance value_eq_dec : EqDecision value.
Proof. solve_decision. Defined.

(** A field of a struct, with the tags the package looks at; [PkgPath] is empty for
    exported fields. *)
Record SField : Type := mkSField {
  sf_Name : string; PkgPath : string; mysqlField : string; protobuf : string; dataType : string;
  sf_value : value
}.

(** The arguments the package takes structs in: nil, a (possibly nil) pointer to a
    struct, a struct, something else or a pointer to it. *)
Inductive data : Type :=
| DNil | DPtr (is_nil : bool) (fs : list SField) | DStruct (fs : list SField) | DOther (ptr : bool).

Definition exported (f : SField) : bool := bool_decide (PkgPath f = EmptyString).

Definition backtick : ascii := "096".
Definition quoted (s : string) : string := "`" +:+ s +:+ "`".

(** ** Errors *)

Inductive dberr : Type :=
| ErrBadConn | ErrInvalidConn | DeadlineExceeded | Canceled
| NetErr (timeout : bool) (msg : string) | UrlErr (timeout : bool) (msg : string)
| MySQLError (number : Z) (msg : string) | ErrNoRows | ErrText (msg : string).

#[export] Instance dberr_eq_dec : EqDecision dberr.
Proof. solve_decision. Defined.

Definition Error (e : dberr) : string :=
  match e with
  | ErrBadConn => "driver: bad connection"
  | ErrInvalidConn => "invalid connection"
  | DeadlineExceeded => "context deadline exceeded"
  | Canceled => "context canceled"
  | NetErr _ msg | UrlErr _ msg | ErrText msg => msg
  | MySQLError n msg => "Error " +:+ itoa n +:+ ": " +:+ msg
  | ErrNoRows => "sql: no rows in result set"
  end.

(** [DeadlineExceeded] implements [net.Error] and is a time-out. *)
(* [databases/mysqldb/utils.go:372-389] IsTimeoutError *)
Definition IsTimeoutError (e : option dberr) : bool :=
  match e with
  | Some (UrlErr t _) | Some (NetErr t _) => t
  | Some DeadlineExceeded => true
  | _ => false
  end.

(* [databases/mysqldb/utils.go:23-45] IsDbConnError *)
Definition IsDbConnError (e : option dberr) : bool :=
  match e with
  | None => false
  | Some err =>
      if IsTimeoutError e || bool_decide (err = ErrBadConn) || bool_decide (err = ErrInvalidConn) then true
      else if bool_decide (err = DeadlineExceeded) || bool_decide (err = Canceled) then true
      else if contains "connection refused" (Error err) then true
      else match err with
           | MySQLError n _ => negb (n =? 1062)
           | _ => false
           end
  end.

(** ** Escaping *)

Definition escape_of (c : ascii) : option ascii :=
  if Ascii.eqb c "000" then Some "0"%char
  else if Ascii.eqb c "013" then Some "r"%char
  else if Ascii.eqb c "010" then Some "n"%char
  else if Ascii.eqb c "\" then Some "\"%char
  else if Ascii.eqb c "'" then Some "'"%char
  else if Ascii.eqb c "034" then Some "034"%char
  else if Ascii.eqb c "026" then Some "Z"%char
  else None.

(* [databases/mysqldb/utils.go:391-427] MysqlEscapeString *)
Fixpoint MysqlEscapeString (source : string) : string :=
  match source with
  | EmptyString => EmptyString
  | String c s =>
      match escape_of c with
      | Some e => String "\" (String e (MysqlEscapeString s))
      | None => String c (MysqlEscapeString s)
      end
  end.

(** ** Names and values of fields *)

(** The name in a [protobuf] tag: the first [name=..] part with a name. *)
Fixpoint name_tag (tags : list string) : string :=
  match tags with
  | [] => EmptyString
  | t :: tags' =>
      match split "=" t with
      | n :: v :: _ =>
          if bool_decide (n = "name") && negb (bool_decide (v = EmptyString)) then v else name_tag tags'
      | _ => name_tag tags'
      end
  end.

Definition field_name (f : SField) : string :=
  if decide (mysqlField f = EmptyString) then name_tag (split "," (protobuf f)) else mysqlField f.

(* [databases/mysqldb/utils.go:69-106] _getFieldsNameArray *)
Definition getFieldsNameArray_ (v : data) : list string + string :=
  match v with
  | DNil => inr "input cannot be nil"
  | DOther _ => inr "not a struct type"
  | DPtr _ fs | DStruct fs =>
      inl (map quoted (List.filter (fun n => negb (bool_decide (n = EmptyString))) (map field_name fs)))
  end.

(** The recovered function cannot panic on these arguments. *)
(* [databases/mysqldb/utils.go:55-67] GetFieldsNameArray *)
Definition GetFieldsNameArray (v : data) : list string + string := getFieldsNameArray_ v.

(* [databases/mysqldb/utils.go:47-53] GetFieldsName *)
Definition GetFieldsName (v : data) : string * option string :=
  match GetFieldsNameArray v with
  | inr e => (EmptyString, Some e)
  | inl names => (join "," names, None)
  end.

(** The addresses of the tagged fields, as their indices.  A panic of reflection
    is recovered. *)
Fixpoint tagged_fields (fs : list SField) (i : nat) : option (list nat) :=
  match fs with
  | [] => Some []
  | f :: fs' =>
      rest ← tagged_fields fs' (S i);
      if bool_decide (mysqlField f = EmptyString) && bool_decide (protobuf f = EmptyString) then Some rest
      else if exported f then Some (i :: rest) else None
  end.

(* [databases/mysqldb/utils.go:108-143] GetFields *)
Definition GetFields (v : data) : list nat + string :=
  match v with
  | DNil | DPtr true _ => inr "input cannot be nil"
  | DPtr false fs =>
      match tagged_fields fs 0 with
      | Some l => inl l
      | None => inr "err when getFields in reflect"
      end
  | DStruct _ | DOther _ => inr "err when getFields in reflect"
  end.

Fixpoint struct_fields (fs : list SField) : list string + string :=
  match fs with
  | [] => inl []
  | f :: fs' =>
      if negb (exported f) then inr ("field " +:+ sf_Name f +:+ " is not public")
      else if decide (mysqlField f = EmptyString) then inr ("field " +:+ sf_Name f +:+ " has no mysqlField tag")
      else match struct_fields fs' with
           | inl l => inl (quoted (mysqlField f) :: l)
           | inr e => inr e
           end
  end.

(* [databases/mysqldb/utils.go:429-445] GetDataStructFields *)
Definition GetDataStructFields {S} (d : data) : M S (list string + string) :=
  match d with
  | DPtr _ fs => mret (struct_fields fs)
  | _ => panic "reflect: not a pointer to a struct"
  end.

(* [databases/mysqldb/utils.go:447-455] GetDataStructValues *)
Definition GetDataStructValues {S} (d : data) : M S (list value) :=
  match d with
  | DPtr false fs =>
      if forallb exported fs then mret (map sf_value fs) else panic "reflect: unexported field"
  | DPtr true [] => mret []
  | _ => panic "reflect: not a pointer to a struct"
  end.

Definition dmDataBaseType : string := "dm".
Definition mysqlDataBaseType : string := "mysql".

(** The destinations of a row, as indices of fields, and those that are scanned as
    a [clob] first. *)
Fixpoint struct_dests (fs : list SField) (dbType : string) (i : nat) : (list nat * list nat) + string :=
  match fs with
  | [] => inl ([], [])
  | f :: fs' =>
      if negb (exported f) then inr ("field " +:+ sf_Name f +:+ " is not public")
      else if decide (mysqlField f = EmptyString) then inr ("field " +:+ sf_Name f +:+ " has no mysqlField tag")
      else match struct_dests fs' dbType (S i) with
           | inl (dests, indexs) =>
               inl (i :: dests,
                    if bool_decide (dbType = dmDataBaseType) && bool_decide (dataType f = "clob")
                    then i :: indexs else indexs)
           | inr e => inr e
           end
  end.

(* [databases/mysqldb/utils.go:457-485] GetDataStructDests *)
Definition GetDataStructDests {S} (d : data) (dbType : string) : M S ((list nat * list nat) + string) :=
  match d with
  | DPtr false fs => mret (struct_dests fs dbType 0)
  | _ => panic "reflect: not a pointer to a struct"
  end.

(** ** Conditions *)

(** The value of a condition: one value, or one of the slice types. *)
Inductive cval : Type := CVal (v : value) | CList (l : list value) | CInts (l : list Z) | CStrs (l : list string).

(** The slices as lists of values. *)
Definition in_list (v : cval) : option (list value) :=
  match v with
  | CVal _ => None
  | CList l => Some l
  | CInts l => Some (map VInt l)
  | CStrs l => Some (map VStr l)
  end.

Definition cval_values (v : cval) : list value :=
  match v with CVal v => [v] | CList l => l | CInts l => map VInt l | CStrs l => map VStr l end.

(* [databases/mysqldb/utils.go:181-191] makeSqlPlaceHolderForIn *)
Definition makeSqlPlaceHolderForIn (vals : list value) : string :=
  "(" +:+ join "," (map (fun _ => "?") vals) +:+ ")".

Definition where_item (kv : string * cval) : string :=
  let k := MysqlEscapeString kv.1 in
  match in_list kv.2 with
  | Some vals => " `" +:+ k +:+ "` in " +:+ makeSqlPlaceHolderForIn vals +:+ " "
  | None => " `" +:+ k +:+ "` = ? "
  end.

(** The conditions come in the order of the map's iteration. *)
(* [databases/mysqldb/utils.go:145-179] buildWhereSql *)
Definition buildWhereSql (conds : gmap string cval) : string * list value :=
  (join "AND" (map where_item (map_to_list conds)), concat (map (fun kv => cval_values kv.2) (map_to_list conds))).

(* [databases/mysqldb/utils.go:201-205] condition *)
Record condition : Type := mkCond { key : string; compare : string; cond_value : cval }.

(* [databases/mysqldb/utils.go:207-210] orderBy *)
Record orderBy : Type := mkOrder { o_key : string; desc : bool }.

(* [databases/mysqldb/utils.go:193-199] SqlCondition *)
Record SqlCondition : Type := mkSql {
  tableprefix : string; conds : list condition; order : list orderBy; offset : Z; limit : Z
}.

(* [databases/mysqldb/utils.go:212-218] NewSqlCondition *)
Definition NewSqlCondition : SqlCondition := mkSql EmptyString [] [] 0 300.

(* [databases/mysqldb/utils.go:220-223] WithTablePrefix *)
Definition WithTablePrefix (tablePrefix : string) (c : SqlCondition) : SqlCondition :=
  mkSql (MysqlEscapeString tablePrefix) (conds c) (order c) (offset c) (limit c).

Definition comparisons : list string := ["="; ">"; ">="; "<"; "<="; "<>"].

(* [databases/mysqldb/utils.go:225-241] WithCondition *)
Definition WithCondition (k cmp : string) (v : cval) (c : SqlCondition) : SqlCondition :=
  let k := trim_char " " k in
  if decide (k = EmptyString) then c else
  let cmp := trim_char " " cmp in
  let cmp := if bool_decide (cmp ∈ comparisons) then cmp else "=" in
  mkSql (tableprefix c) (conds c ++ [mkCond (MysqlEscapeString k) cmp v]) (order c) (offset c) (limit c).

(** The key is quoted before it is compared with the empty string. *)
(* [databases/mysqldb/utils.go:243-253] WithOrder *)
Definition WithOrder (k : string) (isdesc : bool) (c : SqlCondition) : SqlCondition :=
  let k := quoted (trim_char " " k) in
  if decide (k = EmptyString) then c else
  mkSql (tableprefix c) (conds c) (order c ++ [mkOrder (MysqlEscapeString k) isdesc]) (offset c) (limit c).

(* [databases/mysqldb/utils.go:255-260] WithLimit *)
Definition WithLimit (l : Z) (c : SqlCondition) : SqlCondition :=
  if 0 <=? l then mkSql (tableprefix c) (conds c) (order c) (offset c) l else c.

(* [databases/mysqldb/utils.go:262-267] WithOffset *)
Definition WithOffset (o : Z) (c : SqlCondition) : SqlCondition :=
  if 0 <? o then mkSql (tableprefix c) (conds c) (order c) o (limit c) else c.

(* [databases/mysqldb/utils.go:272-283] Valid *)
Definition Valid (isGet : bool) (c : SqlCondition) : option string :=
  if negb isGet then
    if decide (conds c = []) then Some "cant alter all table record once" else None
  else if bool_decide (limit c = 0) && bool_decide (conds c = []) then Some "cant load all table record once"
  else None.

Definition cond_item (c : condition) : string :=
  match in_list (cond_value c) with
  | Some vals => " `" +:+ key c +:+ "` IN " +:+ makeSqlPlaceHolderForIn vals
  | None =>
      " `" +:+ key c +:+ "` " +:+ (if decide (compare c = EmptyString) then "=" else compare c) +:+ " ?"
  end.

Definition order_item (o : orderBy) : string := o_key o +:+ (if desc o then " DESC" else " ASC").

(* [databases/mysqldb/utils.go:302-370] BuildShardWhereSql *)
Definition BuildShardWhereSql (shardKey : string) (c : SqlCondition) : string * string * list value :=
  let tableName := MysqlEscapeString (tableprefix c +:+ shardKey) in
  let valHolder := concat (map (fun v => cval_values (cond_value v)) (conds c)) in
  let condStr := join " AND" (map cond_item (conds c)) in
  let condStr :=
    if decide (order c = []) then condStr
    else condStr +:+ " ORDER BY " +:+ join "," (map order_item (order c)) in
  let '(condStr, valHolder) :=
    if 0 <? limit c then
      if 0 <? offset c then (condStr +:+ " LIMIT ?" +:+ ",?", (valHolder ++ [VInt (offset c)]) ++ [VInt (limit c)])
      else (condStr +:+ " LIMIT ?", valHolder ++ [VInt (limit c)])
    else (condStr, valHolder) in
  let condStr :=
    if negb (bool_decide (condStr = EmptyString)) &&
       (negb (has_prefix " LIMIT ?" condStr) || negb (has_prefix " ORDER BY " condStr))
    then " WHERE" +:+ condStr else condStr in
  (tableName, condStr, valHolder).

(* [databases/mysqldb/utils.go:290-293] BuildWhereSql *)
Definition BuildWhereSql (c : SqlCondition) : string * list value :=
  let '(_, str, vars) := BuildShardWhereSql EmptyString c in (str, vars).
(** ** Escaped text is safe inside a quoted literal *)

(** The escapes a server undoes in a literal. *)
Definition unescape_of (c : ascii) : ascii :=
  if Ascii.eqb c "0" then "000" else if Ascii.eqb c "r" then "013" else if Ascii.eqb c "n" then "010"
  else if Ascii.eqb c "Z" then "026" else c.

(** A server's reading of a literal after its opening quote [q]: the text up to the
    first quote that is not escaped, and what follows that quote. *)
Fixpoint read_literal (q : ascii) (s : string) : option (string * string) :=
  match s with
  | EmptyString => None
  | String c s' =>
      if Ascii.eqb c q then Some (EmptyString, s')
      else if Ascii.eqb c "\" then
        match s' with
        | EmptyString => None
        | String e s'' => '(t, rest) ← read_literal q s''; Some (String (unescape_of e) t, rest)
        end
      else '(t, rest) ← read_literal q s'; Some (String c t, rest)
  end.

Lemma escape_unescape c e : escape_of c = Some e -> unescape_of e = c.
Proof.
  unfold escape_of. repeat (match goal with |- context [Ascii.eqb ?a ?b] =>
    destruct (Ascii.eqb_spec a b) as [->|] end; [by intros [= <-]|]). done.
Qed.

Lemma not_escaped c : escape_of c = None -> c ≠ "'"%char /\ c ≠ "034"%char /\ c ≠ "\"%char.
Proof. intros H. split_and!; intros ->; done. Qed.

(** C25 Escaping is safe: between single or double quotes the escaped text reads back
    as the original, whatever it is, and ends where the closing quote was put. *)
Theorem escaped_literal_roundtrip (q : ascii) (s rest : string) : q = "'"%char \/ q = "034"%char ->
  read_literal q (MysqlEscapeString s +:+ String q rest) = Some (s, rest).
Proof.
  intros Hq. induction s as [|c s IH].
  { simpl. by rewrite Ascii.eqb_refl. }
  cbn [MysqlEscapeString]. destruct (escape_of c) as [e|] eqn:E.
  - change (read_literal q (String "\" (String e (MysqlEscapeString s +:+ String q rest))) =
      Some (String c s, rest)). cbn [read_literal].
    replace (Ascii.eqb "\" q) with false by (by destruct Hq as [-> | ->]).
    rewrite Ascii.eqb_refl, IH. cbn [mbind option_bind]. by rewrite (escape_unescape c e E).
  - destruct (not_escaped c E) as (H1 & H2 & H3).
    change (read_literal q (String c (MysqlEscapeString s +:+ String q rest)) = Some (String c s, rest)).
    cbn [read_literal]. rewrite (proj2 (Ascii.eqb_neq c q)) by (destruct Hq as [-> | ->]; done).
    rewrite (proj2 (Ascii.eqb_neq c "\")) by done. by rewrite IH.
Qed.

Lemma escaped_literal_roundtrip_witness :
  read_literal "'" (MysqlEscapeString "x' or '1'='1" +:+ String "'" " limit 1") = Some ("x' or '1'='1", " limit 1").
Proof. apply escaped_literal_roundtrip. by left. Defined.

(** A back quote is not escaped: a name between back quotes can end early. *)
Example backtick_not_escaped : MysqlEscapeString "a` or 1=1 -- " = "a` or 1=1 -- ".
Proof. reflexivity. Qed.

(** ** Placeholders *)

Abbreviation marks := (count "?").

Lemma marks_escape s : marks (MysqlEscapeString s) = marks s.
Proof.
  induction s as [|c s IH]; [done|]. cbn [MysqlEscapeString]. destruct (escape_of c) as [e|] eqn:E.
  - unfold escape_of in E. cbn [count]. rewrite IH.
    repeat (match type of E with context [Ascii.eqb ?a ?b] => destruct (Ascii.eqb_spec a b) as [->|] end;
      [injection E as <-; simpl; lia|]). done.
  - cbn [count]. by rewrite IH.
Qed.

Lemma marks_in {A} (l : list A) : counts "?" (map (fun _ => "?") l) = len l.
Proof. induction l as [|x l IH]; [done|]. rewrite len_cons, <- IH. reflexivity. Qed.

Lemma marks_placeholder vals : marks (makeSqlPlaceHolderForIn vals) = len vals.
Proof. unfold makeSqlPlaceHolderForIn. rewrite !count_app, count_join by done. rewrite marks_in. simpl. lia. Qed.

Lemma in_list_values v : len (cval_values v) = match in_list v with Some l => len l | None => 1 end.
Proof. by destruct v. Qed.

Lemma len_concat_map {A B} (f : A -> list B) (g : A -> string) l :
  (forall x, x ∈ l -> marks (g x) = len (f x)) -> counts "?" (map g l) = len (concat (map f l)).
Proof.
  induction l as [|x l IH]; intros H; [done|]. cbn [map concat]. rewrite len_app, <- IH by (intros; apply H; by right).
  rewrite <- (H x) by (by left). reflexivity.
Qed.

(** The condition of [Delete] has exactly one placeholder per argument, whatever
    the kinds of its values, if no column name contains a question mark. *)
Theorem buildWhereSql_placeholders (cs : gmap string cval) : map_Forall (fun k _ => marks k = 0) cs ->
  marks (buildWhereSql cs).1 = len (buildWhereSql cs).2.
Proof.
  intros Hk. unfold buildWhereSql. cbn [fst snd]. rewrite count_join by done. apply len_concat_map.
  intros [k v] Hin%elem_of_map_to_list. specialize (Hk k v Hin). simpl in Hk.
  unfold where_item. cbn [fst snd]. rewrite in_list_values.
  destruct (in_list v) as [vals|]; rewrite !count_app, marks_escape, Hk, ?marks_placeholder; simpl; lia.
Qed.

Lemma buildWhereSql_placeholders_witness :
  marks (buildWhereSql {["id" := CInts [1; 2; 3]; "name" := CVal (VStr "x")]}).1 = 4 /\
  len (buildWhereSql {["id" := CInts [1; 2; 3]; "name" := CVal (VStr "x")]}).2 = 4.
Proof.
  rewrite <- (buildWhereSql_placeholders {["id" := CInts [1; 2; 3]; "name" := CVal (VStr "x")]}).
  - split; vm_compute; reflexivity.
  - apply map_Forall_insert_2; [reflexivity|]. by apply map_Forall_singleton.
Defined.
(** ** Conditions built by calls *)

Inductive bcall : Type :=
| BPrefix (p : string) | BCond (k cmp : string) (v : cval) | BOrder (k : string) (isdesc : bool)
| BLimit (l : Z) | BOffset (o : Z).

Definition build1 (c : SqlCondition) (b : bcall) : SqlCondition :=
  match b with
  | BPrefix p => WithTablePrefix p c
  | BCond k cmp v => WithCondition k cmp v c
  | BOrder k d => WithOrder k d c
  | BLimit l => WithLimit l c
  | BOffset o => WithOffset o c
  end.
Definition build (bs : list bcall) : SqlCondition := foldl build1 NewSqlCondition bs.

(** What a history of calls asks for: the comparisons and orders in the order of their
    calls, and the last limit and offset that count. *)
Definition operator (cmp : string) : string :=
  let cmp := trim_char " " cmp in if bool_decide (cmp ∈ comparisons) then cmp else "=".

Definition cond_of (b : bcall) : option condition :=
  match b with
  | BCond k cmp v =>
      if decide (trim_char " " k = EmptyString) then None
      else Some (mkCond (MysqlEscapeString (trim_char " " k)) (operator cmp) v)
  | _ => None
  end.
Definition order_of (b : bcall) : option orderBy :=
  match b with BOrder k d => Some (mkOrder (MysqlEscapeString (quoted (trim_char " " k))) d) | _ => None end.
Definition limit_of (b : bcall) : option Z :=
  match b with BLimit l => if 0 <=? l then Some l else None | _ => None end.
Definition offset_of (b : bcall) : option Z :=
  match b with BOffset o => if 0 <? o then Some o else None | _ => None end.

Definition asked (bs : list bcall) (c : SqlCondition) : Prop :=
  conds c = omap cond_of bs /\ order c = omap order_of bs /\
  limit c = default 300 (last (omap limit_of bs)) /\ offset c = default 0 (last (omap offset_of bs)).

Lemma omap_snoc {A B} (f : A -> option B) (l : list A) x :
  omap f (l ++ [x]) = omap f l ++ match f x with Some y => [y] | None => [] end.
Proof. rewrite omap_app. by cbn; destruct (f x). Qed.

Lemma build1_asked bs c b : asked bs c -> asked (bs ++ [b]) (build1 c b).
Proof.
  unfold asked. rewrite !omap_snoc. intros (Hc & Ho & Hl & Hf).
  destruct b as [p|k cmp v|k d|l|o]; cbn [build1 cond_of order_of limit_of offset_of].
  - by rewrite !app_nil_r.
  - unfold WithCondition. destruct (decide _); rewrite !app_nil_r; [done|]. cbn. by rewrite Hc.
  - unfold WithOrder. destruct (decide _) as [E|_]; [done|]. rewrite !app_nil_r. cbn. by rewrite Ho.
  - unfold WithLimit. destruct (0 <=? l); rewrite !app_nil_r; [|done]. cbn. by rewrite last_snoc.
  - unfold WithOffset. destruct (0 <? o); rewrite !app_nil_r; [|done]. cbn. by rewrite last_snoc.
Qed.

Lemma build_asked bs : asked bs (build bs).
Proof.
  induction bs as [|b bs IH] using rev_ind; [done|]. unfold build in *. rewrite foldl_snoc. by apply build1_asked.
Qed.

Definition cond_ok (c : condition) : Prop := compare c ∈ comparisons /\ key c ≠ EmptyString.

Definition sql_ok (c : SqlCondition) : Prop := Forall cond_ok (conds c) /\ 0 <= offset c /\ 0 <= limit c.

Lemma escape_nonempty s : s ≠ EmptyString -> MysqlEscapeString s ≠ EmptyString.
Proof. destruct s as [|c s]; [done|]. intros _. cbn [MysqlEscapeString]. by destruct (escape_of c). Qed.

Lemma build1_ok c b : sql_ok c -> sql_ok (build1 c b).
Proof.
  intros (Hc & Hoff & Hl). destruct b as [p|k cmp v|k d|l|o]; cbn [build1].
  - done.
  - unfold WithCondition. destruct (decide _) as [|Hk]; [done|]. split_and!; try done. cbn [conds].
    apply Forall_app. split; [done|]. apply Forall_singleton. split; [|by apply escape_nonempty].
    cbn [compare]. case_bool_decide; [done|]. unfold comparisons. set_solver.
  - unfold WithOrder. by destruct (decide _).
  - unfold WithLimit. destruct (Z.leb_spec 0 l); done.
  - unfold WithOffset. destruct (Z.ltb_spec 0 o); [|done]. split_and!; try done. simpl. lia.
Qed.

Lemma build_ok bs c : sql_ok c -> sql_ok (foldl build1 c bs).
Proof. revert c. induction bs as [|b bs IH]; intros c Hc; [done|]. apply IH. by apply build1_ok. Qed.

Definition bcall_clean (b : bcall) : Prop :=
  match b with BCond k _ _ | BOrder k _ => marks k = 0 | _ => True end.

Definition keys_clean (c : SqlCondition) : Prop :=
  Forall (fun x => marks (key x) = 0) (conds c) /\ Forall (fun o => marks (o_key o) = 0) (order c).

Lemma build_clean bs c : Forall bcall_clean bs -> keys_clean c -> keys_clean (foldl build1 c bs).
Proof.
  intros Hb. revert c. induction Hb as [|b bs Hb Hbs IH]; intros c [Hc Ho]; [done|]. apply IH.
  destruct b as [p|k cmp v|k d|l|o]; cbn [build1]; try done.
  - unfold WithCondition. destruct (decide _); [done|]. split; [|done]. apply Forall_app. split; [done|].
    apply Forall_singleton. cbn [key]. rewrite marks_escape. by apply count_trim.
  - unfold WithOrder. destruct (decide _); [done|]. split; [done|]. apply Forall_app. split; [done|].
    apply Forall_singleton. cbn [o_key]. rewrite marks_escape. unfold quoted. rewrite !count_app, count_trim by done.
    done.
  - unfold WithLimit. by destruct (0 <=? l).
  - unfold WithOffset. by destruct (0 <? o).
Qed.

Lemma marks_cond c : cond_ok c -> marks (key c) = 0 -> marks (cond_item c) = len (cval_values (cond_value c)).
Proof.
  intros [Hcmp _] Hk. unfold cond_item. rewrite in_list_values. destruct (in_list (cond_value c)) as [vals|].
  - rewrite !count_app, Hk, marks_placeholder. simpl. lia.
  - assert (marks (compare c) = 0) as Hm.
    { unfold comparisons in Hcmp. repeat (apply elem_of_cons in Hcmp as [->|Hcmp]; [done|]). set_solver. }
    destruct (decide (compare c = EmptyString)); rewrite !count_app, Hk, ?Hm; done.
Qed.

Lemma marks_order os : Forall (fun o => marks (o_key o) = 0) os -> counts "?" (map order_item os) = 0.
Proof.
  induction 1 as [|o os Ho Hos IH]; [done|]. cbn [map counts foldr]. unfold counts in IH. rewrite IH.
  unfold order_item. rewrite count_app, Ho. by destruct (desc o).
Qed.

(** The keyword test is vacuous: nothing starts with both prefixes. *)
Lemma where_word (t : string) :
  (if negb (bool_decide (t = EmptyString)) && (negb (has_prefix " LIMIT ?" t) || negb (has_prefix " ORDER BY " t))
   then " WHERE" +:+ t else t) = if decide (t = EmptyString) then EmptyString else " WHERE" +:+ t.
Proof.
  destruct (decide (t = EmptyString)) as [->|Hne]; [done|]. rewrite bool_decide_false by done. cbn [negb andb].
  destruct (has_prefix " LIMIT ?" t) eqn:E; [|done]. by destruct (prefix_inv _ _ E) as [u ->].
Qed.

Lemma string_app_eq_nil (s t : string) : s +:+ t = EmptyString -> s = EmptyString /\ t = EmptyString.
Proof. by destruct s. Qed.

Lemma cond_item_shown c l : join " AND" (cond_item c :: l) ≠ EmptyString.
Proof. unfold cond_item. by destruct l, (in_list (cond_value c)). Qed.

(** The text before the word WHERE. *)
Definition where_text (c : SqlCondition) : string :=
  let t := join " AND" (map cond_item (conds c)) in
  let t := if decide (order c = []) then t else t +:+ " ORDER BY " +:+ join "," (map order_item (order c)) in
  if 0 <? limit c then (if 0 <? offset c then t +:+ " LIMIT ?,?" else t +:+ " LIMIT ?") else t.

Lemma where_text_built shardKey c : (BuildShardWhereSql shardKey c).1.2 =
  if decide (where_text c = EmptyString) then EmptyString else " WHERE" +:+ where_text c.
Proof.
  unfold BuildShardWhereSql, where_text. set (t := join " AND" _). set (t' := if decide _ then t else _).
  destruct (0 <? limit c); [destruct (0 <? offset c)|]; cbn [fst snd]; by rewrite where_word.
Qed.

Lemma where_text_empty c : where_text c = EmptyString <-> conds c = [] /\ order c = [] /\ ~ 0 < limit c.
Proof.
  unfold where_text. split.
  - destruct (Z.ltb_spec 0 (limit c)); [by destruct (0 <? offset c); intros [_ ?]%string_app_eq_nil|].
    destruct (decide (order c = [])); [|by intros [_ [? _]%string_app_eq_nil]%string_app_eq_nil].
    destruct (conds c) as [|x l]; [intros _; split_and!; [done..|lia]|]. by intros ?%cond_item_shown.
  - intros (-> & -> & Hl). by destruct (Z.ltb_spec 0 (limit c)).
Qed.

Lemma where_text_marks c : sql_ok c -> keys_clean c ->
  marks (where_text c) = len (concat (map (fun v => cval_values (cond_value v)) (conds c))) +
    (if 0 <? limit c then if 0 <? offset c then 2 else 1 else 0).
Proof.
  intros (Hc & _) (Hck & Hcl). unfold where_text. set (t := join " AND" _).
  assert (marks t = len (concat (map (fun v => cval_values (cond_value v)) (conds c)))) as Hm.
  { unfold t. rewrite count_join by done. apply len_concat_map. intros x Hx. rewrite Forall_forall in Hc, Hck.
    apply marks_cond; auto. }
  set (t' := if decide _ then t else _). assert (marks t' = marks t) as Hm'.
  { unfold t'. destruct (decide _); [done|]. rewrite !count_app, count_join, marks_order by done. simpl. lia. }
  rewrite <- Hm, <- Hm'. destruct (0 <? limit c); [destruct (0 <? offset c)|]; rewrite ?count_app; cbn; lia.
Qed.


Definition demo_calls : list bcall :=
  [BCond " id " "~" (CInts [4; 5]); BCond "age" ">=" (CVal (VInt 3)); BOrder "age" true; BOffset 20].


(** The key of an order is put between back quotes before it is compared with the empty
    text: an order without a column is not left out. *)
Example empty_order : (BuildWhereSql (WithOrder EmptyString false (WithCondition "id" "=" (CVal (VInt 1)) NewSqlCondition))).1 =
  " WHERE `id` = ? ORDER BY `` ASC LIMIT ?".
Proof. by vm_compute. Qed.

(** A condition without comparisons, with just an order or a limit (and a limit is the
    default), still gets the word WHERE directly in front of ORDER BY or LIMIT. *)
Theorem where_without_condition (c : SqlCondition) : conds c = [] -> order c ≠ [] \/ 0 < limit c ->
  exists rest, (BuildWhereSql c).1 = " WHERE" +:+ rest /\
    (has_prefix " ORDER BY " rest || has_prefix " LIMIT ?" rest) = true.
Proof.
  intros Hc Hol. assert ((BuildWhereSql c).1 = (BuildShardWhereSql EmptyString c).1.2) as ->
    by (unfold BuildWhereSql; by destruct (BuildShardWhereSql EmptyString c) as [[? ?] ?]).
  rewrite where_text_built. rewrite decide_False by (intros (_ & ? & ?)%where_text_empty; by destruct Hol).
  exists (where_text c). split; [done|]. unfold where_text. rewrite Hc. cbn [map join].
  destruct (decide (order c = [])) as [Ho|Ho].
  - destruct (Z.ltb_spec 0 (limit c)); [|naive_solver lia]. by destruct (0 <? offset c).
  - apply orb_true_iff. left. destruct (0 <? limit c); [destruct (0 <? offset c)|]; rewrite ?string_app_assoc;
      apply (prefix_app " ORDER BY ").
Qed.

Lemma where_without_condition_witness : exists rest,
  (BuildWhereSql NewSqlCondition).1 = " WHERE" +:+ rest /\
  (has_prefix " ORDER BY " rest || has_prefix " LIMIT ?" rest) = true.
Proof. apply where_without_condition; [reflexivity|right; reflexivity]. Defined.
End MysqlSql.
