(* ===== verification/MysqlDb.v ===== *)
(** * Database handles ([databases/mysqldb/dbwrap.go])

    [DbWrap] wraps a connection pool with time-outs, retries and counters.  The pools,
    the driver and the server behind them are the class [Driver]: operations that act
    on a state [R], which also gives the time and the draws of the random generator.
    Drivers report errors and do not panic; callbacks of a transaction may. *)

From S2P Require Import Prelude GoStd GoStrings MysqlSql.
Import GoStd GoStrings MysqlSql.

Module MysqlDb.

(** What a statement reports, and the rows of a query with the errors at their end
    and on closing them. *)
Record result : Type := mkResult { LastInsertId : Z + dberr; RowsAffected : Z + dberr }.
Record rows : Type := mkRows { r_rows : list (list value); r_err : option dberr; r_close : option dberr }.

(** Where a column is copied to, and what is there afterwards: a [clob] is a length
    that may be an error and a text to read. *)
Inductive dest : Type := DInt64 | DField (f : SField) | DClob.
Inductive scanned : Type := SVal (v : value) | SClob (length : Z + dberr) (read : Z -> string + dberr).

(** [connect]: [sql.Open]; the context of a query is its time-out, if any. *)
Class Driver (R : Type) : Type := {
  now : R -> Z;
  draw : R -> Z * R;
  connect : string -> string -> R -> (nat + dberr) * R;
  SetMaxOpenConns : nat -> Z -> R -> R;
  SetMaxIdleConns : nat -> Z -> R -> R;
  QueryContext : nat -> option Z -> string -> list value -> R -> (rows + dberr) * R;
  ExecContext_ : nat -> option Z -> string -> list value -> R -> (result + dberr) * R;
  BeginTx : nat -> option Z -> R -> option dberr * R;
  Commit : nat -> R -> option dberr * R;
  Rollback : nat -> R -> R;
  CloseDB : nat -> R -> option dberr * R;
  rows_Scan : list dest -> list value -> list scanned + dberr
}.

Inductive pevent : Type :=
| PcIncr (key : string) (n : Z) | PcCost (key : string) (cost : Z) | PcCostFail (key : string) (n : Z)
| GlIncr (key : string) (n : Z).

#[export] Instance pevent_eq_dec : EqDecision pevent.
Proof. solve_decision. Defined.

(** The client of a handle is consulted for its [DbType] only, which the operations
    take as an argument. *)
(* [databases/mysqldb/dbwrap.go:49-57] DbWrap *)
Record DbWrap : Type := mkDb { Timeout : Z; host : string; DB : nat; glSuffix : string; retry : Z }.

Definition defaultDbRetry : Z := 1.

(* [databases/mysqldb/dbwrap.go:67-79] NewDbWrappedRetryProxy *)
Definition NewDbWrappedRetryProxy (host : string) (db : nat) (timeout retry : Z) : DbWrap :=
  mkDb (if timeout <=? 0 then 2 * Second else timeout) host db EmptyString retry.

(* [databases/mysqldb/dbwrap.go:59-65] NewDbWrapped, NewDbWrappedRetry *)
Definition NewDbWrapped (host : string) (db : nat) (timeout : Z) : DbWrap :=
  NewDbWrappedRetryProxy host db timeout defaultDbRetry.

Section db.
Context {R : Type} `{!Driver R}.

(** The world: the server's side and the counters of [pc] and [gl]. *)
Record W : Type := mkW { server : R; perf : list pevent }.

Definition emit (e : pevent) : M W unit := modify (fun w => mkW (server w) (perf w ++ [e])).
Definition on_server {A} (f : R -> A * R) : M W A := fun w =>
  let '(a, r) := f (server w) in (Ret a, mkW r (perf w)).
Definition time_Now : M W Z := gets (fun w => now (server w)).
Definition when (b : bool) (m : M W unit) : M W unit := if b then m else mret tt.
Definition is_err {A} (r : A + dberr) : bool := match r with inr _ => true | inl _ => false end.
Definition has_err (e : option dberr) : bool := match e with Some _ => true | None => false end.

(** *** Names of counters *)

(* [databases/mysqldb/dbwrap.go:81-95] pcDbReadAllFail, pcDbRead, pcDbWrite, pcDbTransaction *)
Definition pcDb (key : string) (db : DbWrap) : string := key +:+ ",db=" +:+ host db.

(* [databases/mysqldb/dbwrap.go:97-167] glDbReadFail and the other names of goroutine counters *)
Definition glDb (key : string) (db : DbWrap) : string :=
  if decide (glSuffix db = EmptyString) then key else key +:+ "_" +:+ glSuffix db.

(** What the deferred function of a query or a transaction reports. *)
Definition report (pcKey costKey failKey : string) (st : Z) (failed : bool) : M W unit :=
  t ← time_Now;
  let cost := time_Sub t st in
  _ ← emit (PcCost pcKey cost);
  _ ← emit (GlIncr costKey (Z.quot cost Millisecond));
  when failed (_ ← emit (PcCostFail pcKey 1); emit (GlIncr failKey 1)).

(** Queries and transactions of a [dm] database run without a time-out. *)
Definition context_of (dbType : string) (db : DbWrap) : option Z :=
  if bool_decide (dbType = dmDataBaseType) then None else Some (Timeout db).

(* [databases/mysqldb/dbwrap.go:203-234] doQuery *)
Definition doQuery (dbType : string) (db : DbWrap) (query : string) (args : list value) : M W (rows + dberr) :=
  st ← time_Now;
  _ ← emit (GlIncr (glDb "db_read_count" db) 1);
  r ← on_server (QueryContext (DB db) (context_of dbType db) query args);
  _ ← report (pcDb "mysql_read" db) (glDb "db_read_cost" db) (glDb "db_read_fail_count" db) st (is_err r);
  mret r.

(** Errors after which a query is tried again. *)
Definition retryable (e : dberr) : bool :=
  IsTimeoutError (Some e) || IsDbConnError (Some e) || contains "getsockopt" (Error e).

(** [n]: the turns left after this one. *)
Fixpoint query_loop (n : nat) (dbType : string) (db : DbWrap) (query : string) (args : list value)
  : M W (rows + dberr) :=
  r ← doQuery dbType db query args;
  match r, n with
  | inr e, S n' => if retryable e then query_loop n' dbType db query args else mret r
  | _, _ => mret r
  end.

(* [databases/mysqldb/dbwrap.go:169-201] Query *)
Definition Query (dbType : string) (db : DbWrap) (query : string) (args : list value) : M W (rows + dberr) :=
  let retry := if retry db <? 0 then 0 else retry db in
  r ← query_loop (Z.to_nat retry) dbType db query args;
  _ ← when (is_err r) (emit (PcIncr (pcDb "mysql_read_all_fail" db) 1));
  mret r.

(** *** Rows *)

(* [databases/mysqldb/dbwrap.go:326-330] Row *)
Inductive Row : Type := RowErr (e : dberr) | RowRows (rs : rows).

(* [databases/mysqldb/dbwrap.go:236-239] QueryRow *)
Definition QueryRow (dbType : string) (db : DbWrap) (query : string) (args : list value) : M W Row :=
  r ← Query dbType db query args; mret (match r with inl rs => RowRows rs | inr e => RowErr e end).

(** Clobs are read after the row is scanned; [skip_empty] leaves the destination of
    an empty one as it is, the empty string. *)
Fixpoint read_clobs (skip_empty : bool) (l : list scanned) : list value + dberr :=
  match l with
  | [] => inl []
  | s :: l' =>
      let v := match s with
               | SVal v => inl v
               | SClob (inr e) _ => inr e
               | SClob (inl n) read =>
                   if skip_empty && (n =? 0) then inl (VStr EmptyString)
                   else match read n with inl t => inl (VStr t) | inr e => inr e end
               end in
      match v with
      | inr e => inr e
      | inl v => match read_clobs skip_empty l' with inl vs => inl (v :: vs) | inr e => inr e end
      end
  end.

Definition copy_row (skip_empty : bool) (dests : list dest) (row : list value) : list value + dberr :=
  match rows_Scan dests row with inr e => inr e | inl l => read_clobs skip_empty l end.

(* [databases/mysqldb/dbwrap.go:337-411] Scan *)
Definition Scan (dests : list dest) (r : Row) : list value + dberr :=
  match r with
  | RowErr e => inr e
  | RowRows rs =>
      match r_rows rs with
      | [] => inr (default ErrNoRows (r_err rs))
      | row :: _ =>
          match copy_row true dests row with
          | inr e => inr e
          | inl vs => match r_close rs with Some e => inr e | None => inl vs end
          end
      end
  end.

(** *** Writing *)

(* [databases/mysqldb/dbwrap.go:245-271] ExecContext *)
Definition ExecContext (ctx : option (option Z)) (db : DbWrap) (query : string) (args : list value)
  : M W (result + dberr) :=
  st ← time_Now;
  _ ← emit (GlIncr (glDb "db_write_count" db) 1);
  r ← on_server (ExecContext_ (DB db) (default (Some (Timeout db)) ctx) query args);
  t ← time_Now;
  let cost := time_Sub t st in
  _ ← emit (PcCost (pcDb "mysql_write" db) cost);
  _ ← emit (GlIncr (glDb "db_write_cost" db) (Z.quot cost Millisecond));
  _ ← when (is_err r) (_ ← emit (GlIncr (glDb "db_write_fail_count" db) 1);
                       emit (PcCostFail (pcDb "mysql_write" db) 1));
  mret r.

(* [databases/mysqldb/dbwrap.go:241-243] Exec *)
Definition Exec (db : DbWrap) (query : string) (args : list value) : M W (result + dberr) :=
  ExecContext None db query args.

(** The end of a transaction, deferred: [e] is what the variable [err] holds. *)
Definition finish_tx (db : DbWrap) (e : option dberr) : M W (option dberr) :=
  match e with
  | None => on_server (Commit (DB db))
  | Some e => _ ← on_server (fun r => (tt, Rollback (DB db) r)); mret (Some e)
  end.

(** Both deferred functions run also when [transactionExec] panics; the variable
    [err] is still nil then. *)
(* [databases/mysqldb/dbwrap.go:275-315] ExecTransaction *)
Definition ExecTransaction (dbType : string) (db : DbWrap) (transactionExec : M W (result + dberr))
  : M W (result + dberr) :=
  st ← time_Now;
  _ ← emit (GlIncr (glDb "db_transaction_count" db) 1);
  let rep failed := report (pcDb "mysql_transaction" db) (glDb "db_transaction_cost" db)
                      (glDb "db_transaction_fail_count" db) st failed in
  b ← on_server (BeginTx (DB db) (context_of dbType db));
  match b with
  | Some e => _ ← rep true; mret (inr e)
  | None => fun w =>
      match transactionExec w with
      | (Ret r, w1) =>
          (e ← finish_tx db (match r with inr e => Some e | inl _ => None end);
           _ ← rep (has_err e);
           mret (match e with Some e => inr e | None => r end)) w1
      | (Panic m, w1) =>
          (e ← finish_tx db None;
           _ ← rep (has_err e);
           panic m) w1
      end
  end.

(* [databases/mysqldb/dbwrap.go:321-323] Close *)
Definition Close (db : DbWrap) : M W (option dberr) := on_server (CloseDB (DB db)).

(** ** Attempts of a query *)

Lemma report_run pcKey costKey failKey st failed w : exists c,
  report pcKey costKey failKey st failed w =
    (Ret tt, mkW (server w) (perf w ++ [PcCost pcKey c; GlIncr costKey (Z.quot c Millisecond)] ++
      (if failed then [PcCostFail pcKey 1; GlIncr failKey 1] else []))).
Proof.
  exists (time_Sub (now (server w)) st). unfold report, time_Now. cbv [mbind M_bind gets emit modify server perf when].
  destruct failed; cbv [mret M_ret]; destruct w as [s l]; cbn [server perf]; do 2 f_equal; rewrite <- ?app_assoc; done.
Qed.

(** The server's answer to one query in state [w], and its state afterwards. *)
Definition answer (dbType : string) (db : DbWrap) (query : string) (args : list value) (s : R) :=
  QueryContext (DB db) (context_of dbType db) query args s.

(** The number of attempts that a list of events shows. *)
Definition attempts (db : DbWrap) (l : list pevent) : nat :=
  length (filter (.= GlIncr (glDb "db_read_count" db) 1) l).
Definition all_fails (db : DbWrap) (l : list pevent) : nat :=
  length (filter (.= PcIncr (pcDb "mysql_read_all_fail" db) 1) l).

Lemma glDb_read_keys db : glDb "db_read_cost" db ≠ glDb "db_read_count" db /\
  glDb "db_read_fail_count" db ≠ glDb "db_read_count" db.
Proof. unfold glDb. destruct (decide _); split; simpl; discriminate. Qed.

Lemma filter_none {A} (P : A -> Prop) `{forall x, Decision (P x)} (l : list A) :
  Forall (fun x => ~ P x) l -> filter P l = [].
Proof. induction 1; [done|]. by rewrite filter_cons_False. Qed.

Lemma attempts_app db l k : attempts db (l ++ k) = (attempts db l + attempts db k)%nat.
Proof. unfold attempts. by rewrite filter_app, length_app. Qed.

Lemma all_fails_app db l k : all_fails db (l ++ k) = (all_fails db l + all_fails db k)%nat.
Proof. unfold all_fails. by rewrite filter_app, length_app. Qed.

Lemma doQuery_run dbType db query args w : exists evs,
  doQuery dbType db query args w = (Ret (answer dbType db query args (server w)).1,
    mkW (answer dbType db query args (server w)).2 (perf w ++ evs)) /\
  attempts db evs = 1%nat /\ all_fails db evs = 0%nat.
Proof.
  unfold doQuery, answer. set (q := QueryContext _ _ _ _). unfold time_Now, emit, on_server.
  cbv [mbind M_bind gets modify mret M_ret]. cbn [server perf]. destruct (q (server w)) as [r s'] eqn:Eq. cbn [fst snd].
  destruct (report_run (pcDb "mysql_read" db) (glDb "db_read_cost" db) (glDb "db_read_fail_count" db)
    (now (server w)) (is_err r) (mkW s' (perf w ++ [GlIncr (glDb "db_read_count" db) 1]))) as [c E].
  rewrite E. cbn [server perf]. rewrite <- app_assoc. eexists. split; [done|].
  destruct (glDb_read_keys db) as [H1 H2].
  split; unfold attempts, all_fails.
  - rewrite filter_app, filter_cons_True by done. rewrite (filter_none _ (_ ++ _)); [done|].
    destruct (is_err r); repeat constructor; congruence.
  - rewrite filter_none; [done|]. destruct (is_err r); repeat constructor; congruence.
Qed.

(** The attempts of a query, as a relation: the answers to it come one after another
    until one is not an error to retry after, or the turns are used up. *)
Inductive tries (dbType : string) (db : DbWrap) (query : string) (args : list value)
  : nat -> R -> nat -> rows + dberr -> R -> Prop :=
| tries_last n s r s' : answer dbType db query args s = (r, s') ->
    match r with inr e => retryable e = true -> n = 0%nat | inl _ => True end ->
    tries dbType db query args n s 1 r s'
| tries_again n s e s' k r s'' : answer dbType db query args s = (inr e, s') -> retryable e = true ->
    tries dbType db query args n s' k r s'' -> tries dbType db query args (S n) s (S k) r s''.

Lemma tries_bound dbType db query args n s k r s' : tries dbType db query args n s k r s' -> (1 <= k <= S n)%nat.
Proof. induction 1; lia. Qed.

Lemma query_loop_tries n dbType db query args w : exists evs k r s',
  query_loop n dbType db query args w = (Ret r, mkW s' (perf w ++ evs)) /\
  tries dbType db query args n (server w) k r s' /\ attempts db evs = k /\ all_fails db evs = 0%nat.
Proof.
  revert w. induction n as [|n IH]; intros w; cbn [query_loop];
    destruct (doQuery_run dbType db query args w) as (evs & E & Ha & Hf);
    destruct (answer dbType db query args (server w)) as [r s'] eqn:Eq; cbn [fst snd] in E.
  - exists evs, 1%nat, r, s'. cbv [mbind M_bind]. rewrite E. split_and!; [by destruct r| |done..].
    apply tries_last; [done|]. by destruct r.
  - cbv [mbind M_bind]. rewrite E. destruct r as [rs|e].
    + exists evs, 1%nat, (inl rs), s'. split_and!; [done| |done..]. by apply tries_last.
    + destruct (retryable e) eqn:Er.
      * destruct (IH (mkW s' (perf w ++ evs))) as (evs' & k & r & s'' & E' & Ht & Ha' & Hf').
        rewrite E'. cbn [server perf] in Ht |- *. exists (evs ++ evs'), (S k), r, s''. rewrite app_assoc.
        rewrite attempts_app, all_fails_app, Ha, Hf, Ha', Hf'. split_and!; [done| |done..].
        by eapply tries_again.
      * exists evs, 1%nat, (inr e), s'. split_and!; [done| |done..]. apply tries_last; [done|]. congruence.
Qed.

(** A query makes at most one attempt more than its retries (none for a negative
    number); it stops at the first success and at the first error that is no
    connection error, and it counts a complete failure exactly when it reports an
    error. *)
Theorem Query_attempts dbType db query args w : exists evs k r s',
  Query dbType db query args w = (Ret r, mkW s' (perf w ++ evs)) /\
  tries dbType db query args (Z.to_nat (retry db)) (server w) k r s' /\
  attempts db evs = k /\ (1 <= k <= S (Z.to_nat (retry db)))%nat /\
  all_fails db evs = if is_err r then 1%nat else 0%nat.
Proof.
  unfold Query. replace (Z.to_nat (if retry db <? 0 then 0 else retry db)) with (Z.to_nat (retry db))
    by (destruct (Z.ltb_spec (retry db) 0); lia).
  destruct (query_loop_tries (Z.to_nat (retry db)) dbType db query args w) as (evs & k & r & s' & E & Ht & Ha & Hf).
  cbv [mbind M_bind]. rewrite E. pose proof (tries_bound _ _ _ _ _ _ _ _ _ Ht).
  set (fin := if is_err r then [PcIncr (pcDb "mysql_read_all_fail" db) 1] else []).
  exists (evs ++ fin), k, r, s'. rewrite attempts_app, all_fails_app, Ha, Hf. split_and!; try done; try lia.
  - unfold when, fin. destruct r; cbn; [by rewrite app_nil_r|]. by rewrite <- app_assoc.
  - unfold fin, attempts. destruct (is_err r); simpl; lia.
  - unfold fin, all_fails. destruct (is_err r); [|done]. rewrite filter_cons_True by done. done.
Qed.

(** ** Transactions *)

(** The state in which the callback starts. *)
Definition tx_started (dbType : string) (db : DbWrap) (w : W) : W :=
  mkW (BeginTx (DB db) (context_of dbType db) (server w)).2 (perf w ++ [GlIncr (glDb "db_transaction_count" db) 1]).

(** What a transaction does to the server, given how its callback ended. *)
Definition tx_end (db : DbWrap) (o : outcome (result + dberr)) (s : R) : outcome (result + dberr) * R :=
  match o with
  | Ret (inr e) => (Ret (inr e), Rollback (DB db) s)
  | Ret (inl r) => match Commit (DB db) s with (None, s') => (Ret (inl r), s') | (Some e, s') => (Ret (inr e), s') end
  | Panic m => (Panic m, (Commit (DB db) s).2)
  end.

Lemma ExecTransaction_ends dbType db f w : (BeginTx (DB db) (context_of dbType db) (server w)).1 = None ->
  (outcome_of (ExecTransaction dbType db f) w, server (exec (ExecTransaction dbType db f) w)) =
  tx_end db (f (tx_started dbType db w)).1 (server (f (tx_started dbType db w)).2).
Proof.
  intros Hb. unfold outcome_of, exec, ExecTransaction, tx_started. unfold time_Now, emit, on_server.
  cbv [mbind M_bind gets modify]. cbn [server perf].
  destruct (BeginTx (DB db) (context_of dbType db) (server w)) as [b s1] eqn:Eb. cbn [fst snd] in Hb |- *. subst b.
  destruct (f _) as [[[r|e]|m] w1]; cbn [fst snd tx_end].
  - unfold finish_tx, on_server. destruct (Commit (DB db) (server w1)) as [[e|] s2];
      destruct (report_run (pcDb "mysql_transaction" db) (glDb "db_transaction_cost" db)
        (glDb "db_transaction_fail_count" db) (now (server w)) (has_err None) (mkW s2 (perf w1))) as [c E1];
      destruct (report_run (pcDb "mysql_transaction" db) (glDb "db_transaction_cost" db)
        (glDb "db_transaction_fail_count" db) (now (server w)) (has_err (Some ErrBadConn)) (mkW s2 (perf w1))) as [c' E2];
      cbn [has_err] in *; rewrite ?E1, ?E2; done.
  - unfold finish_tx, on_server. cbv [mbind M_bind mret M_ret].
    destruct (report_run (pcDb "mysql_transaction" db) (glDb "db_transaction_cost" db)
        (glDb "db_transaction_fail_count" db) (now (server w)) (has_err (Some e))
        (mkW (Rollback (DB db) (server w1)) (perf w1))) as [c E]. rewrite E. done.
  - unfold finish_tx, on_server. destruct (Commit (DB db) (server w1)) as [e s2].
    destruct (report_run (pcDb "mysql_transaction" db) (glDb "db_transaction_cost" db)
        (glDb "db_transaction_fail_count" db) (now (server w)) (has_err e) (mkW s2 (perf w1))) as [c E].
    rewrite E. done.
Qed.

(** C27 A transaction that begins ends once: its callback's error rolls it back and is
    reported, its success commits it and is reported unless the commit fails; the
    callback is not run when it cannot begin. *)
Theorem transaction_ends_once dbType db f w :
  match (BeginTx (DB db) (context_of dbType db) (server w)).1 with
  | Some e => outcome_of (ExecTransaction dbType db f) w = Ret (inr e) /\
      server (exec (ExecTransaction dbType db f) w) = (BeginTx (DB db) (context_of dbType db) (server w)).2
  | None => forall r, (f (tx_started dbType db w)).1 = Ret r ->
      let s := server (f (tx_started dbType db w)).2 in
      match r with
      | inr e => outcome_of (ExecTransaction dbType db f) w = Ret (inr e) /\
          server (exec (ExecTransaction dbType db f) w) = Rollback (DB db) s
      | inl v => outcome_of (ExecTransaction dbType db f) w =
            Ret (match (Commit (DB db) s).1 with None => inl v | Some e => inr e end) /\
          server (exec (ExecTransaction dbType db f) w) = (Commit (DB db) s).2
      end
  end.
Proof.
  destruct (BeginTx _ _ _).1 as [e|] eqn:Eb.
  - unfold outcome_of, exec, ExecTransaction. unfold time_Now, emit, on_server. cbv [mbind M_bind gets modify].
    cbn [server perf]. destruct (BeginTx _ _ _) as [b s1]. cbn [fst snd] in Eb |- *. subst b.
    destruct (report_run (pcDb "mysql_transaction" db) (glDb "db_transaction_cost" db)
      (glDb "db_transaction_fail_count" db) (now (server w)) true
      (mkW s1 (perf w ++ [GlIncr (glDb "db_transaction_count" db) 1]))) as [c E]. by rewrite E.
  - intros r Hr. pose proof (ExecTransaction_ends dbType db f w Eb) as E. rewrite Hr in E.
    destruct r as [v|e]; cbn [tx_end] in E; [|by injection E].
    intros s. subst s. destruct (Commit (DB db) _) as [[e|] s']; by injection E.
Qed.

(** A callback that panics half way is committed: the deferred function looks at
    [err], which is nil until the callback returns; the panic goes on to the caller. *)
Theorem panicking_transaction_commits dbType db f w m :
  (BeginTx (DB db) (context_of dbType db) (server w)).1 = None ->
  (f (tx_started dbType db w)).1 = Panic m ->
  outcome_of (ExecTransaction dbType db f) w = Panic m /\
  server (exec (ExecTransaction dbType db f) w) = (Commit (DB db) (server (f (tx_started dbType db w)).2)).2.
Proof.
  intros Hb Hf. pose proof (ExecTransaction_ends dbType db f w Hb) as E. rewrite Hf in E. by injection E.
Qed.
End db.

(** ** A server for examples

    It answers queries and statements from two scripts and logs what it is asked;
    writes of a transaction are pending until it is committed. *)
Record demoR : Type := mkDemo {
  clock : Z; answers : list (rows + dberr); effects : list (result + dberr);
  conns : list string; log : list string; pending : list string; committed : list string
}.

Definition next {A} (d : A) (l : list A) : A * list A := match l with [] => (d, []) | x :: l' => (x, l') end.

Definition demo_query (r : demoR) (q : string) : (rows + dberr) * demoR :=
  let '(a, l) := next (inr ErrBadConn) (answers r) in
  (a, mkDemo (clock r + 5000000) l (effects r) (conns r) (log r ++ [q]) (pending r) (committed r)).

Definition demo_exec (r : demoR) (q : string) : (result + dberr) * demoR :=
  let '(a, l) := next (inr ErrBadConn) (effects r) in
  (a, mkDemo (clock r + 7000000) (answers r) l (conns r) (log r ++ [q]) (pending r) (committed r)).

Definition demo_connect (driver url : string) (r : demoR) : (nat + dberr) * demoR :=
  if bool_decide (driver ∈ [mysqlDataBaseType; dmDataBaseType])
  then (inl (length (conns r)), mkDemo (clock r) (answers r) (effects r) (conns r ++ [url]) (log r) (pending r) (committed r))
  else (inr (ErrText ("sql: unknown driver " +:+ driver)), r).

Definition demo_write (v : string) (r : demoR) : demoR :=
  mkDemo (clock r) (answers r) (effects r) (conns r) (log r) (pending r ++ [v]) (committed r).

#[export] Instance demo : Driver demoR := {|
  now := clock;
  draw := fun r => (0, r);
  connect := demo_connect;
  SetMaxOpenConns := fun _ _ r => r;
  SetMaxIdleConns := fun _ _ r => r;
  QueryContext := fun _ _ q _ r => demo_query r q;
  ExecContext_ := fun _ _ q _ r => demo_exec r q;
  BeginTx := fun _ _ r => (None, r);
  Commit := fun _ r => (None, mkDemo (clock r) (answers r) (effects r) (conns r) (log r) [] (committed r ++ pending r));
  Rollback := fun _ r => mkDemo (clock r) (answers r) (effects r) (conns r) (log r) [] (committed r);
  CloseDB := fun _ r => (None, r);
  rows_Scan := fun ds vs => if bool_decide (length ds = length vs) then inl (map SVal vs) else inr (ErrText "columns")
|}.

Definition demo_w (answers : list (rows + dberr)) (effects : list (result + dberr)) : W :=
  mkW (mkDemo 0 answers effects [] [] [] []) [].
Definition demo_db : DbWrap := NewDbWrapped "10.0.0.1:3306" 0 Second.

(** A transfer that panics after its first write. *)
Definition half_transfer : M (@W demoR) (result + dberr) :=
  _ ← on_server (fun r => (tt, demo_write "debit" r)); panic "boom".

Lemma panicking_transaction_commits_witness :
  outcome_of (ExecTransaction "mysql" demo_db half_transfer) (demo_w [] []) = Panic "boom" /\
  committed (server (exec (ExecTransaction "mysql" demo_db half_transfer) (demo_w [] []))) = ["debit"].
Proof.
  destruct (panicking_transaction_commits "mysql" demo_db half_transfer (demo_w [] []) "boom") as [H1 H2];
    [reflexivity..|]. split; [exact H1|]. rewrite H2. reflexivity.
Defined.
End MysqlDb.
