(* ===== verification/MysqlClient.v ===== *)
(** * The SQL client ([databases/mysqldb/db.go])

    [MysqlClient] builds statements from structs and conditions and sends them to one
    of its handles: a random one for writing, one or two in a random order for
    reading.  Randomness is that of [math/rand] over the draws of the [Driver]. *)

From S2P Require Import Prelude GoStd GoStrings MysqlSql MysqlDb.
Import GoStd GoStrings MysqlSql MysqlDb.

Module MysqlClient.

(* [databases/mysqldb/init.go:147-155] DbConnectConf *)
Record DbConnectConf : Type := mkConnectConf {
  Addrs : list string; User : string; Pass : string; CharSet : string;
  ClientFoundRows : bool; IsProxy : bool; EnableSqlSafeUpdates : bool
}.

(* [databases/mysqldb/init.go:133-145] CommonDbConf *)
Record CommonDbConf : Type := mkCommonConf {
  cf_DbType : string; DbName : string; ConnTime : string; ReadTime : string; WriteTime : string;
  MaxOpen : Z; MaxIdle : Z; MaxLifeTime : Z; cf_glSuffix : string;
  Master : option DbConnectConf; Slave : option DbConnectConf
}.

(** A configuration file: the text of a key, and what the library makes of it as a
    boolean or a number. *)
Record ini_file : Type := mkIni {
  ini_String : string -> string -> string;
  ini_Bool : string -> string -> option bool;
  ini_Int : string -> string -> option Z
}.

(* [databases/mysqldb/db.go:34-48] MysqlClient *)
Record MysqlClient : Type := mkClient {
  DbConfig : option CommonDbConf; DbConf : option ini_file; DbConfPath : string; DataBase : string;
  dbWrite : list DbWrap; dbRead : list DbWrap; startOnce : bool; closeOnce : bool; DbType : string
}.

Definition is_dm (c : MysqlClient) : bool := bool_decide (DbType c = dmDataBaseType).

Section client.
Context {R : Type} `{!Driver R}.

(** *** Random choices *)

(** [rand.Intn(n)] for [n > 0]. *)
Definition Intn (n : nat) : M W nat := z ← on_server draw; mret (Z.to_nat (z mod Z.of_nat n)).

(** [rand.Perm]: the element at a random place moves to the end. *)
Definition perm_step (m : list nat) (j : nat) : list nat :=
  <[j := length m]> (m ++ [default 0%nat (m !! j)]).

Fixpoint perm_loop (n : nat) (m : list nat) : M W (list nat) :=
  match n with
  | O => mret m
  | S n' => j ← Intn (S (length m)); perm_loop n' (perm_step m j)
  end.
Definition Perm (n : nat) : M W (list nat) := perm_loop n [].

(** *** Handles *)

(* [databases/mysqldb/db.go:74-76] getReadDbs *)
Definition getReadDbs (c : MysqlClient) : list DbWrap := dbRead c.

(* [databases/mysqldb/db.go:78-91] GetReadDbRandom, getReadDbRandomly *)
Definition getReadDbRandomly (c : MysqlClient) : M W (DbWrap + dberr) :=
  if decide (getReadDbs c = []) then mret (inr (ErrText "no read db found")) else
  i ← Intn (length (getReadDbs c));
  db ← index (getReadDbs c) (Z.of_nat i);
  mret (inl db).

(* [databases/mysqldb/db.go:93-108] getWriteDbs, GetWriteDbs *)
Definition getWriteDbs (c : MysqlClient) : M W DbWrap :=
  if len (dbWrite c) <=? 1 then index (dbWrite c) 0 else
  i ← Intn (length (dbWrite c));
  index (dbWrite c) (Z.of_nat i).

(** *** Reading *)

Definition failover (e : dberr) : bool := IsDbConnError (Some e) || contains "getsockopt" (Error e).

(* [databases/mysqldb/db.go:237-266] queryList, loop over the handles *)
Fixpoint queryList_loop (c : MysqlClient) (nums : list nat) (retried : bool) (query : string) (args : list value)
  : M W (rows + dberr) :=
  match nums with
  | [] => mret (inr (ErrText "no available db"))
  | i :: nums' =>
      readDb ← index (getReadDbs c) (Z.of_nat i);
      r ← Query (DbType c) readDb query args;
      match r with
      | inl rs => mret (inl rs)
      | inr e =>
          if negb retried && failover e then queryList_loop c nums' true query args else mret (inr e)
      end
  end.

(* [databases/mysqldb/db.go:228-270] queryList *)
Definition queryList (c : MysqlClient) (query : string) (args : list value) : M W (rows + dberr) :=
  if decide (getReadDbs c = []) then mret (inr (ErrText "no available db")) else
  randNums ← Perm (length (getReadDbs c));
  queryList_loop c randNums false query args.

Definition row_err (r : Row) : option dberr := match r with RowErr e => Some e | RowRows _ => None end.
Definition show_err (e : option dberr) : string := match e with Some e => Error e | None => "<nil>" end.

(** [err]: the error of the last handle tried. *)
(* [databases/mysqldb/db.go:281-310] queryRow, loop over the handles *)
Fixpoint queryRow_loop (c : MysqlClient) (nums : list nat) (retried : bool) (err : option dberr)
  (query : string) (args : list value) : M W (Row + dberr) :=
  match nums with
  | [] => mret (inr (ErrText ("no available db,lastErr=" +:+ show_err err)))
  | i :: nums' =>
      readDb ← index (getReadDbs c) (Z.of_nat i);
      row ← QueryRow (DbType c) readDb query args;
      match row_err row with
      | None => mret (inl row)
      | Some e =>
          if negb retried && failover e then queryRow_loop c nums' true (Some e) query args else mret (inr e)
      end
  end.

(* [databases/mysqldb/db.go:272-313] queryRow *)
Definition queryRow (c : MysqlClient) (query : string) (args : list value) : M W (Row + dberr) :=
  if decide (getReadDbs c = []) then mret (inr (ErrText "no available db")) else
  randNums ← Perm (length (getReadDbs c));
  queryRow_loop c randNums false None query args.

(* [databases/mysqldb/db.go:207-226] GetCount *)
Definition GetCount (c : MysqlClient) (query : string) (args : list value) : M W (Z + dberr) :=
  let query := if is_dm c then remove_char backtick query else query in
  row ← queryRow c query args;
  match row with
  | inr e => mret (inr e)
  | inl row =>
      mret (match Scan [DInt64] row with
            | inr e => if decide (e = ErrNoRows) then inl 0 else inr e
            | inl (VInt total :: _) => inl total
            | inl _ => inl 0
            end)
  end.

(** One word of a condition for [dm]: a clob column is compared with [text_equal].
    The columns are those of the map of clobs, in one order of its iteration. *)
Definition dm_word (clobs : list string) (w : string) : string :=
  match List.filter (fun c => has_prefix c (trim_left_char " " w)) clobs with
  | [] => " " +:+ w
  | cs => join EmptyString (map (fun c => " text_equal(" +:+ c +:+ ",?)") cs)
  end.

(* [databases/mysqldb/db.go:363-386] Query, the text for dm *)
Definition dm_rewrite (clobs : list string) (query : string) : string :=
  let query := remove_char backtick query in
  match split_on " where " (ToLower query) with
  | k0 :: k1 :: _ => k0 +:+ " where" +:+ join EmptyString (map (dm_word clobs) (split " " k1))
  | _ => query
  end.

Definition clob_names (names : list string) (indexMap : list nat) : list string :=
  map (fun k => remove_char backtick (default EmptyString (names !! k))) indexMap.

Definition fields_of (d : data) : list SField := match d with DPtr _ fs | DStruct fs => fs | _ => [] end.

(** [reflect.New] of the type a pointer points to. *)
Definition new_data (d : data) : data := DPtr false (fields_of d).

Definition dests_of (d : data) (ix : list nat * list nat) : list dest :=
  map (fun i => if bool_decide (i ∈ ix.2) then DClob
                else match fields_of d !! i with Some f => DField f | None => DClob end) ix.1.

(** The text both kinds of query send. *)
Definition query_text (c : MysqlClient) (names : list string) (indexMap : list nat) (query : string) : string :=
  let query := replace_first "?" (join "," names) query in
  if is_dm c then dm_rewrite (clob_names names indexMap) query else query.

(* [databases/mysqldb/db.go:348-400] Query *)
Definition ClientQuery (c : MysqlClient) (dataType : data) (query : string) (args : list value)
  : M W (option (list value) + dberr) :=
  names ← GetDataStructFields dataType;
  match names with
  | inr e => mret (inr (ErrText e))
  | inl names =>
      ix ← GetDataStructDests (new_data dataType) (DbType c);
      match ix with
      | inr e => mret (inr (ErrText e))
      | inl ix =>
          row ← queryRow c (query_text c names ix.2 query) args;
          match row with
          | inr e => mret (inr e)
          | inl row =>
              mret (match Scan (dests_of dataType ix) row with
                    | inr e => if decide (e = ErrNoRows) then inl None else inr e
                    | inl vs => inl (Some vs)
                    end)
          end
      end
  end.

(* [databases/mysqldb/db.go:448-499] QueryList, loop over the rows *)
Fixpoint copy_rows (dests : list dest) (l : list (list value)) : list (list value) + dberr :=
  match l with
  | [] => inl []
  | row :: l' =>
      match copy_row false dests row with
      | inr e => inr e
      | inl vs => match copy_rows dests l' with inl vss => inl (vs :: vss) | inr e => inr e end
      end
  end.

(* [databases/mysqldb/db.go:402-506] QueryList *)
Definition QueryList (c : MysqlClient) (dataType : data) (query : string) (args : list value)
  : M W (list (list value) + dberr) :=
  names ← GetDataStructFields dataType;
  match names with
  | inr e => mret (inr (ErrText e))
  | inl names =>
      ix ← GetDataStructDests (new_data dataType) (DbType c);
      match ix with
      | inr e => mret (inr (ErrText e))
      | inl ix =>
          rs ← queryList c (query_text c names ix.2 query) args;
          match rs with
          | inr e => mret (inr e)
          | inl rs =>
              mret (match copy_rows (dests_of dataType ix) (r_rows rs) with
                    | inr e => inr e
                    | inl vss => match r_err rs with Some e => inr e | None => inl vss end
                    end)
          end
      end
  end.

(* [databases/mysqldb/db.go:315-317] TableName *)
Definition TableName : data :=
  DPtr true [mkSField "TableName" EmptyString "TABLE_NAME" EmptyString EmptyString (VStr EmptyString)].

Definition exist_query (c : MysqlClient) (tableName : string) : string :=
  if is_dm c then
    "select SEGMENT_NAME AS TABLE_NAME  from dba_segments where dba_segments.OWNER='" +:+ DataBase c +:+
    "' and SEGMENT_NAME='" +:+ tableName +:+ "';"
  else
    "select TABLE_NAME from INFORMATION_SCHEMA.TABLES where TABLE_SCHEMA = '" +:+ DataBase c +:+
    "' and  TABLE_NAME ='" +:+ tableName +:+ "';".

(* [databases/mysqldb/db.go:319-346] IsExistTable *)
Definition IsExistTable (c : MysqlClient) (tableName : string) : M W (bool + dberr) :=
  ret ← ClientQuery c TableName (exist_query c tableName) [];
  mret (match ret with
        | inr e => inr (ErrText ("IsExistTable " +:+ (if is_dm c then "dm" else "mysql") +:+
                                 " query occur error:" +:+ Error e))
        | inl None => inl false
        | inl (Some vs) => inl (bool_decide (vs = [VStr tableName]))
        end).

(** *** Statements *)

(** The column of a field in the dialect of the database. *)
Definition column (c : MysqlClient) (n : string) : string := if is_dm c then n else quoted n.

(** A key compared with a placeholder, for all keys but the last and for the last. *)
(* [databases/mysqldb/db.go:582-617] Update, one key *)
Definition key_item (c : MysqlClient) (clobs : list string) (last : bool) (pkn : string) : string :=
  if is_dm c then
    if existsb (fun p => has_prefix p (trim_left_char " " pkn)) clobs
    then " text_equal(" +:+ pkn +:+ (if last then ",?)" else ",?) AND ")
    else " " +:+ pkn +:+ (if last then " = ?  " else " = ? AND ")
  else " " +:+ quoted pkn +:+ (if last then " = ? " else " = ? AND ").

Fixpoint key_items (c : MysqlClient) (clobs : list string) (keys : list string) : string :=
  match keys with
  | [] => EmptyString
  | [k] => key_item c clobs true k
  | k :: keys' => key_item c clobs false k +:+ key_items c clobs keys'
  end.

(** The fields an update sets: those asked for, or all with a tag. *)
Definition to_update (fieldsToUpdate : list string) (f : SField) : bool :=
  negb (bool_decide (mysqlField f = EmptyString)) &&
  (bool_decide (fieldsToUpdate = []) || bool_decide (mysqlField f ∈ fieldsToUpdate)).

(* [databases/mysqldb/db.go:546-634] Update, the statement *)
Definition update_stmt (c : MysqlClient) (tableName : string) (clobs : list string) (fs : list SField)
  (primaryKeys : list (string * value)) (fieldsToUpdate : list string) : string * list value :=
  let set := List.filter (to_update fieldsToUpdate) fs in
  let fieldsNames := join "," (map (fun f => column c (mysqlField f) +:+ "=?") set) in
  ("update " +:+ column c tableName +:+ " set " +:+ fieldsNames +:+ " where " +:+
     key_items c clobs (map fst primaryKeys),
   map sf_value set ++ map snd primaryKeys).

Definition invalid_field (f : SField) : dberr := ErrText ("invalid struct field " +:+ sf_Name f).
Definition nil_deref {A} : M (@W R) A := panic "reflect: call on zero Value".

(** The keys come in the order of the map's iteration. *)
(* [databases/mysqldb/db.go:508-636] Update *)
Definition Update (c : MysqlClient) (tableName : string) (d : data) (primaryKeys : gmap string value)
  (fieldsToUpdate : list string) : M W (option dberr) :=
  names ← GetDataStructFields d;
  match names with
  | inr e => mret (Some (ErrText e))
  | inl names =>
      if decide (primaryKeys = ∅) then mret (Some (ErrText "primary keys empty on update")) else
      let tableName := MysqlEscapeString tableName in
      ix ← GetDataStructDests (new_data d) (DbType c);
      match ix with
      | inr e => mret (Some (ErrText e))
      | inl ix =>
          writeDb ← getWriteDbs c;
          match d with
          | DPtr false fs =>
              match List.find (fun f => to_update fieldsToUpdate f && negb (exported f)) fs with
              | Some f => mret (Some (invalid_field f))
              | None =>
                  let '(sql, args) := update_stmt c tableName (clob_names names ix.2) fs
                                        (map_to_list primaryKeys) fieldsToUpdate in
                  r ← Exec writeDb sql args;
                  mret (match r with inr e => Some e | inl _ => None end)
              end
          | _ => nil_deref
          end
      end
  end.

Definition tagged (f : SField) : bool := negb (bool_decide (mysqlField f = EmptyString)).

(** The fields an insert names; the column that numbers itself is left out. *)
Definition to_insert (c : MysqlClient) (autoincr : string) (f : SField) : bool :=
  tagged f && negb (negb (bool_decide (autoincr = EmptyString)) &&
                    bool_decide (mysqlField f = autoincr) && negb (is_dm c)).

(** The merge statement of [dm], over all fields. *)
(* [databases/mysqldb/db.go:693-704] addEscapeAutoIncr, the merge statement of dm *)
Definition merge_stmt (tableName autoincr : string) (fs : list SField) : string :=
  let names := map mysqlField fs in
  let others := List.filter (fun k => negb (negb (bool_decide (autoincr = EmptyString)) && bool_decide (k = autoincr))) names in
  let insertNoAutoIncrLang := join "," (map (fun k => "t2." +:+ k) others) in
  "merge into " +:+ tableName +:+ " as t1" +:+
  " using (select " +:+ join "," (map (fun k => "? " +:+ k) names) +:+
  " from dual ) as t2 on t1." +:+ autoincr +:+ " = t2." +:+ autoincr +:+
  " when matched then update set " +:+ join "," (map (fun k => " t1." +:+ k +:+ "=t2." +:+ k) others) +:+
  " when not matched then insert (" +:+ replace_all "t2." EmptyString insertNoAutoIncrLang +:+
  ") values  (" +:+ insertNoAutoIncrLang +:+ ")".

Definition dm_batch (tableName sqlStr : string) : string :=
  "set identity_insert " +:+ tableName +:+ " on;" +:+ remove_char backtick (sqlStr +:+ ";") +:+
  "set identity_insert " +:+ tableName +:+ " off;" +:+ "commit;".

(* [databases/mysqldb/db.go:706-767] addEscapeAutoIncr, the statement *)
Definition insert_stmt (c : MysqlClient) (tableName : string) (fs : list SField) (ondupUpdate : bool)
  (autoincr : string) : string * list value :=
  let ins := List.filter (to_insert c autoincr) fs in
  let names := map (fun f => column c (mysqlField f)) ins in
  let dests := map sf_value ins in
  let sqlStr := "insert into `" +:+ tableName +:+ "`(" +:+ join "," names +:+ ") values (" +:+
                join "," (map (fun _ => "?") ins) +:+ ")" in
  let '(sqlStr, dests) :=
    if ondupUpdate then
      if is_dm c then (merge_stmt tableName autoincr fs, dests)
      else (sqlStr +:+ " ON DUPLICATE KEY UPDATE " +:+ join "," (map (fun n => n +:+ " = ?") names), dests ++ dests)
    else (sqlStr, dests) in
  (if is_dm c then dm_batch tableName sqlStr else sqlStr, dests).

(* [databases/mysqldb/db.go:663-776] addEscapeAutoIncr *)
Definition addEscapeAutoIncr (c : MysqlClient) (tableName : string) (d : data) (ondupUpdate : bool)
  (autoincr : string) : M W (result + dberr) :=
  let tableName := MysqlEscapeString tableName in
  if bool_decide (autoincr = EmptyString) && is_dm c
  then mret (inr (ErrText "dm database must have a atuoincrkey")) else
  match d with
  | DNil => mret (inr (ErrText "input cannot be nil"))
  | DOther _ => mret (inr (ErrText "not a struct type"))
  | DPtr _ _ | DStruct _ =>
      writeDb ← getWriteDbs c;
      match d with
      | DPtr false fs =>
          match List.find (fun f => to_insert c autoincr f && negb (exported f)) fs with
          | Some f => mret (inr (invalid_field f))
          | None =>
              let '(sql, args) := insert_stmt c tableName fs ondupUpdate autoincr in
              Exec writeDb sql args
          end
      | _ => nil_deref
      end
  end.

(* [databases/mysqldb/db.go:644-651] AddEscapeAutoIncr *)
Definition AddEscapeAutoIncr (c : MysqlClient) (tableName : string) (d : data) (ondupUpdate : bool)
  (autoincr : string) : M W (Z + dberr) :=
  r ← addEscapeAutoIncr c tableName d ondupUpdate autoincr;
  mret (match r with inr e => inr e | inl r => LastInsertId r end).

(* [databases/mysqldb/db.go:653-661] AddEscapeAutoIncrAndRetLastId *)
Definition AddEscapeAutoIncrAndRetLastId (c : MysqlClient) (tableName : string) (d : data) (autoincr : string)
  : M W (Z + dberr) := AddEscapeAutoIncr c tableName d false autoincr.

(* [databases/mysqldb/db.go:638-642] Add *)
Definition Add (c : MysqlClient) (tableName : string) (d : data) (ondupUpdate : bool) : M W (option dberr) :=
  r ← AddEscapeAutoIncr c tableName d ondupUpdate EmptyString;
  mret (match r with inr e => Some e | inl _ => None end).

(** What a statement affected, or why that is not known. *)
Definition affected (r : result + dberr) : Z + dberr := match r with inr e => inr e | inl r => RowsAffected r end.

(* [databases/mysqldb/db.go:959-975] Execute *)
Definition Execute (c : MysqlClient) (sql : string) (args : list value) : M W (Z + dberr) :=
  writeDb ← getWriteDbs c;
  r ← Exec writeDb (if is_dm c then remove_char backtick sql else sql) args;
  mret (affected r).

(* [databases/mysqldb/db.go:933-957] Delete *)
Definition Delete (c : MysqlClient) (tableName : string) (condition : gmap string cval) : M W (Z + dberr) :=
  let tableName := MysqlEscapeString tableName in
  if decide (condition = ∅) then mret (inr (ErrText "del with empty condition")) else
  let '(condStr, dest) := buildWhereSql condition in
  writeDb ← getWriteDbs c;
  let sql := "delete from `" +:+ tableName +:+ "` where " +:+ condStr in
  r ← Exec writeDb (if is_dm c then remove_char backtick sql else sql) dest;
  mret (affected r).

(* [databases/mysqldb/db.go:977-990] ExecTransaction *)
Definition ClientTransaction (c : MysqlClient) (transactionExec : M W (result + dberr)) : M W (Z + dberr) :=
  writeDb ← getWriteDbs c;
  r ← ExecTransaction (DbType c) writeDb transactionExec;
  mret (affected r).

(** The three statements of [InsertOrUpdateOnDup] with their arguments. *)
(* [databases/mysqldb/db.go:824-849] InsertOrUpdateOnDup, the insert *)
Definition upsert_insert (tableName : string) (fs : list SField) : string * list value :=
  let ins := List.filter tagged fs in
  ("insert into `" +:+ tableName +:+ "` (" +:+ join "," (map (fun f => quoted (mysqlField f)) ins) +:+
     ") values (" +:+ join "," (map (fun _ => "?") ins) +:+ ")", map sf_value ins).

Definition where_field (c : MysqlClient) (f : SField) : string :=
  if is_dm c && bool_decide (dataType f = "clob")
  then quoted ("text_equal(" +:+ mysqlField f +:+ ",?)") else quoted (mysqlField f) +:+ "=?".

Definition named (l : list string) (f : SField) : bool := tagged f && bool_decide (mysqlField f ∈ l).

(* [databases/mysqldb/db.go:828-846] InsertOrUpdateOnDup, the update *)
Definition upsert_update (c : MysqlClient) (tableName : string) (fs : list SField)
  (primaryKeys updateFields : list string) : string * list value :=
  let upd := List.filter (named updateFields) fs in
  let whr := List.filter (named primaryKeys) fs in
  ("update `" +:+ tableName +:+ "` set " +:+ join "," (map (fun f => quoted (mysqlField f) +:+ "=?") upd) +:+
     " where " +:+ join " and " (map (where_field c) whr) +:+ ";",
   map sf_value upd ++ map sf_value whr).

(* [databases/mysqldb/db.go:850-887] InsertOrUpdateOnDup, the statement with ON DUPLICATE KEY *)
Definition upsert_ondup (c : MysqlClient) (tableName : string) (fs : list SField)
  (primaryKeys updateFields : list string) : string * list value :=
  let upd := List.filter (named updateFields) fs in
  let '(ins, vals) := upsert_insert tableName fs in
  let vals := vals ++ map sf_value upd in
  if is_dm c then
    let names := map mysqlField (List.filter tagged fs) in
    let others := List.filter (fun n => negb (bool_decide (n ∈ primaryKeys))) names in
    let insertNoAutoIncrLang := join "," (map (fun n => "t2." +:+ n) others) in
    ("merge into " +:+ tableName +:+ " as t1" +:+
     " using (select " +:+ join "," (map (fun n => "? " +:+ n) names) +:+ " from dual )" +:+
     "as t2 on (" +:+ join " and " (map (fun pk => "t1." +:+ pk +:+ "=t2." +:+ pk) primaryKeys) +:+ ")" +:+
     " when matched then update set " +:+ join "," (map (fun n => " t1." +:+ n +:+ "=t2." +:+ n) updateFields) +:+
     " when not matched then insert (" +:+ replace_all "t2." EmptyString insertNoAutoIncrLang +:+
     ") values  (" +:+ insertNoAutoIncrLang +:+ ")", vals)
  else (ins +:+ " ON DUPLICATE KEY UPDATE " +:+ join "," (map (fun f => quoted (mysqlField f) +:+ "=?") upd), vals).

Definition duplicate (e : dberr) : bool := match e with MySQLError n _ => n =? 1062 | _ => false end.

(* [databases/mysqldb/db.go:778-931] InsertOrUpdateOnDup *)
Definition InsertOrUpdateOnDup (c : MysqlClient) (tableName : string) (d : data)
  (primaryKeys updateFields : list string) (useSqlOnDup : bool) : M W (Z + dberr) :=
  if bool_decide (primaryKeys = []) || bool_decide (updateFields = [])
  then mret (inr (ErrText "primaryKeys or updateFields are nil")) else
  let tableName := MysqlEscapeString tableName in
  match d with
  | DNil => mret (inr (ErrText "input cannot be nil"))
  | DOther _ => mret (inr (ErrText "not a struct type"))
  | DPtr true _ | DStruct _ => nil_deref
  | DPtr false fs =>
      match List.find (fun f => tagged f && negb (exported f)) fs with
      | Some f => mret (inr (invalid_field f))
      | None =>
          if useSqlOnDup then
            let '(sql, args) := upsert_ondup c tableName fs primaryKeys updateFields in
            Execute c (if is_dm c then remove_char backtick sql else sql) args
          else
            let '(insertSql, insertArgs) := upsert_insert tableName fs in
            let '(updateSql, updateArgs) := upsert_update c tableName fs primaryKeys updateFields in
            let updateSql := if is_dm c then remove_char backtick updateSql else updateSql in
            u ← Execute c updateSql updateArgs;
            match u with
            | inr e => mret (inr e)
            | inl n =>
                if n =? 0 then
                  if is_dm c then mret (inr (ErrText "DM数据库更新数据失败，请指定主键值进行更新操作")) else
                  i ← Execute c insertSql insertArgs;
                  match i with
                  | inr e =>
                      if duplicate e then
                        _ ← emit (PcIncr "transaction_insert_dup" 1);
                        Execute c updateSql updateArgs
                      else mret (inr e)
                  | inl n => mret (inl n)
                  end
                else mret (inl n)
            end
      end
  end.

(** ** Reading uses at most two handles *)

Lemma Intn_lt n w : (0 < n)%nat -> exists i w', Intn n w = (Ret i, w') /\ (i < n)%nat.
Proof.
  intros Hn. unfold Intn, on_server. cbv [mbind M_bind]. destruct (draw (server w)) as [z r].
  eexists _, _. split; [done|]. pose proof (Z.mod_pos_bound z (Z.of_nat n)). lia.
Qed.

Lemma perm_step_length m j : length (perm_step m j) = S (length m).
Proof. unfold perm_step. rewrite length_insert, length_app. simpl. lia. Qed.

Lemma perm_step_perm m j : (j <= length m)%nat -> perm_step m j ≡ₚ length m :: m.
Proof.
  intros Hj. unfold perm_step. destruct (decide (j = length m)) as [->|Hne].
  - rewrite lookup_ge_None_2 by done. cbn [default].
    rewrite insert_app_r_alt, Nat.sub_diag by done. simpl. by rewrite Permutation_app_comm.
  - destruct (lookup_lt_is_Some_2 m j) as [x Hx]; [lia|]. rewrite Hx. cbn [default].
    rewrite insert_app_l by lia. rewrite (Permutation_app_comm _ [x]). simpl.
    rewrite insert_take_drop by lia. rewrite <- Permutation_middle, perm_swap. constructor.
    by rewrite Permutation_middle, take_drop_middle.
Qed.

Lemma seq_snoc_perm n : seq 0 (S n) ≡ₚ n :: seq 0 n.
Proof. rewrite seq_S. by rewrite Permutation_app_comm. Qed.

Lemma perm_loop_perm n m w : m ≡ₚ seq 0 (length m) ->
  exists l w', perm_loop n m w = (Ret l, w') /\ l ≡ₚ seq 0 (length m + n).
Proof.
  revert m w. induction n as [|n IH]; intros m w Hm; cbn [perm_loop].
  - exists m, w. by rewrite Nat.add_0_r.
  - destruct (Intn_lt (S (length m)) w) as (j & w' & E & Hj); [lia|]. cbv [mbind M_bind]. rewrite E.
    destruct (IH (perm_step m j) w') as (l & w'' & E' & Hl).
    + rewrite perm_step_length, seq_snoc_perm, <- Hm. apply perm_step_perm. lia.
    + exists l, w''. split; [exact E'|]. rewrite Hl, perm_step_length. by rewrite Nat.add_succ_r.
Qed.

Lemma Perm_perm n w : exists l w', Perm n w = (Ret l, w') /\ l ≡ₚ seq 0 n.
Proof. destruct (perm_loop_perm n [] w) as (l & w' & E & Hl); [done|]. by exists l, w'. Qed.

(** The reference: a first handle, and a second one after a connection error. *)
Definition read_two (c : MysqlClient) (dbs : list DbWrap) (query : string) (args : list value) : M W (rows + dberr) :=
  match dbs with
  | [] => mret (inr (ErrText "no available db"))
  | db :: dbs' =>
      r ← Query (DbType c) db query args;
      match r with
      | inl rs => mret (inl rs)
      | inr e =>
          if failover e then
            match dbs' with
            | [] => mret (inr (ErrText "no available db"))
            | db' :: _ => Query (DbType c) db' query args
            end
          else mret (inr e)
      end
  end.

Lemma index_lookup {S A} (l : list A) i x (s : S) : l !! i = Some x -> index l (Z.of_nat i) s = (Ret x, s).
Proof. intros H. unfold index. rewrite decide_True by lia. by rewrite Nat2Z.id, H. Qed.

Lemma Query_returns dbType db query args w : exists r w', Query dbType db query args w = (Ret r, w').
Proof. destruct (query_loop_tries (Z.to_nat (if retry db <? 0 then 0 else retry db)) dbType db query args w)
  as (evs & k & r & s' & E & _). unfold Query. cbv [mbind M_bind]. rewrite E. unfold when. destruct (is_err r); by eexists _, _. Qed.

Lemma handles_in_order (dbs : list DbWrap) nums : nums ≡ₚ seq 0 (length dbs) ->
  exists l, l ≡ₚ dbs /\ Forall2 (fun i db => dbs !! i = Some db) nums l.
Proof.
  intros Hn. assert (Forall2 (fun i db => dbs !! i = Some db) (seq 0 (length dbs)) dbs) as Hseq.
  { apply Forall2_same_length_lookup_2; [by rewrite length_seq|]. intros i x y Hx Hy.
    apply lookup_seq in Hx as [-> _]. exact Hy. }
  destruct (Permutation_Forall2 (symmetry Hn) Hseq) as (l & Hl & HF). by exists l.
Qed.

Lemma queryList_loop_retried c dbs nums db query args w : Forall2 (fun i db => getReadDbs c !! i = Some db) nums (db :: dbs) ->
  queryList_loop c nums true query args w = Query (DbType c) db query args w.
Proof.
  intros H. destruct nums as [|i nums]; [by inversion H|]. apply Forall2_cons in H as [Hi _].
  cbn [queryList_loop]. cbv [mbind M_bind]. rewrite (index_lookup _ _ _ _ Hi).
  destruct (Query_returns (DbType c) db query args w) as ([r|e] & w' & E); by rewrite E.
Qed.

Lemma queryList_loop_two c dbs nums query args w : Forall2 (fun i db => getReadDbs c !! i = Some db) nums dbs ->
  queryList_loop c nums false query args w = read_two c dbs query args w.
Proof.
  intros H. destruct dbs as [|db dbs]; [by inversion H|]. destruct nums as [|i nums]; [by inversion H|].
  apply Forall2_cons in H as [Hi H]. cbn [queryList_loop read_two]. cbv [mbind M_bind].
  rewrite (index_lookup _ _ _ _ Hi).
  destruct (Query_returns (DbType c) db query args w) as ([r|e] & w' & E); rewrite E; [done|]. cbn [negb andb].
  destruct (failover e); [|done]. destruct dbs as [|db' dbs]; [by inversion H|].
  by eapply queryList_loop_retried.
Qed.

(** A query over the handles is the reference that asks a random one and, after a
    connection error, one other: the handles come in a permutation of the client's,
    nothing is asked a third time, whatever their number, and it always returns. *)
Theorem queryList_two_handles c query args w : exists order w1,
  order ≡ₚ dbRead c /\ (dbRead c = [] -> w1 = w) /\
  queryList c query args w = read_two c order query args w1 /\
  exists r, outcome_of (queryList c query args) w = Ret r.
Proof.
  unfold outcome_of. assert (exists order w1, order ≡ₚ dbRead c /\ (dbRead c = [] -> w1 = w) /\
    queryList c query args w = read_two c order query args w1) as (order & w1 & Ho & Hn & E).
  { unfold queryList, getReadDbs. destruct (decide (dbRead c = [])) as [->|Hne]; [by exists [], w|].
    destruct (Perm_perm (length (dbRead c)) w) as (nums & w1 & E & Hp).
    destruct (handles_in_order (dbRead c) nums Hp) as (order & Ho & HF).
    exists order, w1. split_and!; [done|done|]. cbv [mbind M_bind]. rewrite E. by apply queryList_loop_two. }
  exists order, w1. split_and!; [done..|]. rewrite E. destruct order as [|db dbs]; [by eexists|].
  cbn [read_two]. cbv [mbind M_bind]. destruct (Query_returns (DbType c) db query args w1) as ([r|e] & w2 & E2);
    rewrite E2; [by eexists|]. destruct (failover e); [|by eexists]. destruct dbs as [|db' dbs]; [by eexists|].
  destruct (Query_returns (DbType c) db' query args w2) as (r & w3 & E3). rewrite E3. by eexists.
Qed.

(** ** Placeholders of statements *)

Lemma marks_quoted n : marks (quoted n) = marks n.
Proof. unfold quoted. rewrite !count_app. simpl. lia. Qed.

Lemma marks_column c n : marks (column c n) = marks n.
Proof. unfold column. destruct (is_dm c); [done|apply marks_quoted]. Qed.

Lemma marks_key c clobs last k : marks k = 0 -> marks (key_item c clobs last k) = 1.
Proof.
  intros Hk. unfold key_item. destruct (is_dm c); [destruct (existsb _ _)|]; rewrite !count_app, ?marks_quoted, Hk;
    by destruct last.
Qed.

Lemma marks_keys c clobs ks : Forall (fun k => marks k = 0) ks -> marks (key_items c clobs ks) = len ks.
Proof.
  induction 1 as [|k ks Hk Hks IH]; [done|]. destruct ks as [|k' ks]; [by apply marks_key|].
  change (key_items c clobs (k :: k' :: ks)) with (key_item c clobs false k +:+ key_items c clobs (k' :: ks)).
  rewrite count_app, marks_key, IH, (len_cons k) by done. done.
Qed.

Definition clean_fields (fs : list SField) : Prop := Forall (fun f => marks (mysqlField f) = 0) fs.

Lemma clean_filter p fs : clean_fields fs -> clean_fields (List.filter p fs).
Proof. unfold clean_fields. rewrite !Forall_forall. intros H x Hx. apply H. apply list_elem_of_In in Hx.
  apply filter_In in Hx as [Hx _]. by apply list_elem_of_In. Qed.

(** A list of items with [n] marks each. *)
Lemma marks_items (g : SField -> string) n fs : (forall f, marks (mysqlField f) = 0 -> marks (g f) = n) ->
  clean_fields fs -> counts "?" (map g fs) = n * len fs.
Proof.
  intros Hg. induction 1 as [|f fs Hf Hfs IH]; [simpl; unfold len; simpl; lia|]. rewrite len_cons. cbn [map].
  unfold counts in *. cbn [foldr]. rewrite IH, Hg by done. lia.
Qed.

Lemma len_map {A B} (g : A -> B) (l : list A) : len (map g l) = len l.
Proof. unfold len. by rewrite length_map. Qed.

Lemma update_placeholders c t clobs fs pks upd : marks t = 0 -> clean_fields fs ->
  Forall (fun kv => marks kv.1 = 0) pks ->
  marks (update_stmt c t clobs fs pks upd).1 = len (update_stmt c t clobs fs pks upd).2.
Proof.
  intros Ht Hf Hk. unfold update_stmt. cbn [fst snd].
  rewrite !count_app, marks_column, Ht, count_join, marks_keys, len_app, !len_map by (done || by apply Forall_map).
  rewrite (marks_items _ 1); [simpl; lia| |by apply clean_filter].
  intros f Hm. by rewrite count_app, marks_column, Hm.
Qed.

Lemma insert_placeholders c t fs ondup auto : is_dm c = false -> marks t = 0 -> clean_fields fs ->
  marks (insert_stmt c t fs ondup auto).1 = len (insert_stmt c t fs ondup auto).2.
Proof.
  intros Hdm Ht Hf. unfold insert_stmt. rewrite Hdm. set (ins := List.filter _ fs).
  assert (clean_fields ins) as Hi by by apply clean_filter.
  assert (marks ("insert into `" +:+ t +:+ "`(" +:+ join "," (map (fun f => column c (mysqlField f)) ins) +:+ ") values (" +:+
    join "," (map (fun _ => "?") ins) +:+ ")") = len ins) as E.
  { rewrite !count_app, Ht, !count_join, marks_in by done. rewrite (marks_items _ 0); [simpl; lia| |done].
    intros f Hm. by rewrite marks_column. }
  destruct ondup; cbn [fst snd]; [|by rewrite len_map].
  rewrite count_app, E, count_app, count_join, map_map, (marks_items _ 1), len_app, !len_map; [simpl; lia| |done..].
  intros f Hm. by rewrite count_app, marks_column, Hm.
Qed.

Lemma upsert_insert_placeholders t fs : marks t = 0 -> clean_fields fs ->
  marks (upsert_insert t fs).1 = len (upsert_insert t fs).2.
Proof.
  intros Ht Hf. unfold upsert_insert. cbn [fst snd]. rewrite !count_app, Ht, !count_join, marks_in, len_map by done.
  rewrite (marks_items _ 0); [simpl; lia| |by apply clean_filter]. intros f Hm. by rewrite marks_quoted.
Qed.

Lemma upsert_update_placeholders c t fs pks upd : marks t = 0 -> clean_fields fs ->
  marks (upsert_update c t fs pks upd).1 = len (upsert_update c t fs pks upd).2.
Proof.
  intros Ht Hf. unfold upsert_update. cbn [fst snd]. rewrite !count_app, Ht, !count_join, len_app, !len_map by done.
  rewrite !(marks_items _ 1); [simpl; lia| |by apply clean_filter| |by apply clean_filter];
    intros f Hm; unfold where_field; [destruct (_ && _)|]; rewrite ?marks_quoted, ?count_app, ?marks_quoted, Hm; done.
Qed.

Lemma upsert_ondup_placeholders c t fs pks upd : is_dm c = false -> marks t = 0 -> clean_fields fs ->
  marks (upsert_ondup c t fs pks upd).1 = len (upsert_ondup c t fs pks upd).2.
Proof.
  intros Hdm Ht Hf. unfold upsert_ondup. rewrite Hdm. pose proof (upsert_insert_placeholders t fs Ht Hf) as E.
  destruct (upsert_insert t fs) as [ins vals]. cbn [fst snd] in *.
  rewrite !count_app, E, count_join, len_app, len_map by done. rewrite (marks_items _ 1); [simpl; lia| |by apply clean_filter].
  intros f Hm. by rewrite count_app, marks_quoted, Hm.
Qed.

(** Every statement built from a struct for MySQL has exactly one placeholder per
    argument (updates, inserts with and without the update of duplicates, and the
    three statements of an upsert), if no name contains a question mark. *)
Theorem statements_placeholders c t fs pks upd keys auto clobs ondup (pk : list (string * value)) :
  is_dm c = false -> marks t = 0 -> clean_fields fs -> Forall (fun kv => marks kv.1 = 0) pk ->
  Forall (fun s : string * list value => marks s.1 = len s.2)
    [update_stmt c t clobs fs pk upd; insert_stmt c t fs ondup auto; upsert_insert t fs;
     upsert_update c t fs keys upd; upsert_ondup c t fs pks upd].
Proof.
  intros. repeat constructor; auto using update_placeholders, insert_placeholders, upsert_insert_placeholders,
    upsert_update_placeholders, upsert_ondup_placeholders.
Qed.

(** ** Writing *)

Lemma Exec_run db sql args w : exists evs, Exec db sql args w =
  let a := ExecContext_ (DB db) (Some (Timeout db)) sql args (server w) in (Ret a.1, mkW a.2 (perf w ++ evs)).
Proof.
  unfold Exec, ExecContext, time_Now, emit, on_server, when. cbv [mbind M_bind gets modify mret M_ret default option_map from_option].
  cbn [server perf id]. destruct (ExecContext_ _ _ _ _ _) as [r s]. cbn [fst snd server perf].
  destruct (is_err r); cbn [perf server]; eexists; rewrite <- !app_assoc; reflexivity.
Qed.

Lemma getWriteDbs_run c w : dbWrite c ≠ [] -> exists db w', getWriteDbs c w = (Ret db, w') /\
  db ∈ dbWrite c /\ perf w' = perf w /\ (server w' = server w \/ server w' = (draw (server w)).2).
Proof.
  intros Hne. unfold getWriteDbs. destruct (Z.leb_spec (len (dbWrite c)) 1).
  - destruct (dbWrite c) as [|db dbs] eqn:E; [done|]. exists db, w. split_and!; [done|by left|done|by left].
  - unfold Intn, on_server. cbv [mbind M_bind mret M_ret]. destruct (draw (server w)) as [z s].
    pose proof (Z.mod_pos_bound z (Z.of_nat (length (dbWrite c)))). unfold len in *.
    destruct (lookup_lt_is_Some_2 (dbWrite c) (Z.to_nat (z mod Z.of_nat (length (dbWrite c))))) as [db Hdb]; [lia|].
    rewrite (index_lookup _ _ _ _ Hdb). exists db, (mkW s (perf w)).
    split_and!; [done|by eapply list_elem_of_lookup_2|done|by right].
Qed.

(** The text of a statement as it is sent. *)
Definition sent_sql (c : MysqlClient) (sql : string) : string := if is_dm c then remove_char backtick sql else sql.

(** [Execute]: one statement on one of the handles. *)
Lemma Execute_run c sql args w : dbWrite c ≠ [] -> exists db s evs,
  db ∈ dbWrite c /\ (s = server w \/ s = (draw (server w)).2) /\
  Execute c sql args w =
    let a := ExecContext_ (DB db) (Some (Timeout db)) (sent_sql c sql) args s in (Ret (affected a.1), mkW a.2 (perf w ++ evs)).
Proof.
  intros Hne. destruct (getWriteDbs_run c w Hne) as (db & w' & E & Hin & Hp & Hs).
  destruct (Exec_run db (sent_sql c sql) args w') as (evs & E'). exists db, (server w'), evs. split_and!; [done..|].
  unfold Execute. fold (sent_sql c sql). cbv [mbind M_bind]. rewrite E, E', Hp. done.
Qed.

Definition statement : Type := string * list value.

(** What is known of a table with a primary key, for an update and an insert of one
    row.  Any statement may fail, and nothing is known when it does, but for the insert
    that finds the row there.  An update that affects rows has stored the row, and so
    has one that finds it, even if it affects nothing as the values are the same; an
    insert that reports no error has stored it.  [present] holds as long as nobody
    deletes the row: that it still holds at the update that follows a refused insert
    is what is asked of the others. *)
Record upsert_laws (present stored : R -> Prop) (upd ins : statement) : Prop := {
  law_draw : forall s, present s -> present (draw s).2;
  law_stored : forall s, stored s -> present s;
  law_update : forall h t s r s' n, ExecContext_ h t upd.1 upd.2 s = (inl r, s') -> RowsAffected r = inl n ->
    n ≠ 0 \/ present s -> stored s';
  law_insert : forall h t s r s', ExecContext_ h t ins.1 ins.2 s = (inl r, s') -> stored s';
  law_duplicate : forall h t s e s', ExecContext_ h t ins.1 ins.2 s = (inr e, s') -> duplicate e = true -> present s'
}.

(** No statement fails, but for an insert that finds the row there. *)
Definition only_duplicates (upd ins : statement) : Prop := forall h t s,
  (exists n, affected (ExecContext_ h t upd.1 upd.2 s).1 = inl n) /\
  match affected (ExecContext_ h t ins.1 ins.2 s).1 with inl _ => True | inr e => duplicate e = true end /\
  match (ExecContext_ h t ins.1 ins.2 s).1 with inl r => exists n, RowsAffected r = inl n | inr _ => True end.

Section upsert.
Context (c : MysqlClient) (present stored : R -> Prop) (upd ins : statement).
Context (Hlaws : upsert_laws present stored (sent_sql c upd.1, upd.2) (sent_sql c ins.1, ins.2)) (Hne : dbWrite c ≠ []).

Lemma Execute_update w : exists r w', Execute c upd.1 upd.2 w = (Ret r, w') /\
  (forall n, r = inl n -> n ≠ 0 \/ present (server w) -> stored (server w')) /\
  (only_duplicates (sent_sql c upd.1, upd.2) (sent_sql c ins.1, ins.2) -> exists n, r = inl n).
Proof.
  destruct (Execute_run c upd.1 upd.2 w Hne) as (db & s & evs & _ & Hs & E). cbv zeta in E.
  eexists _, _. split; [exact E|]. cbn [server]. split.
  - intros n Hr Hn. destruct (ExecContext_ _ _ _ _ _) as [[r|e] s'] eqn:Ex; cbn in Hr; [|done].
    apply (law_update _ _ _ _ Hlaws _ _ _ _ _ _ Ex Hr). destruct Hn as [|Hp]; [by left|right].
    destruct Hs as [->| ->]; [done|]. by apply (law_draw _ _ _ _ Hlaws).
  - intros Hd. by destruct (Hd (DB db) (Some (Timeout db)) s) as (H & _).
Qed.

Lemma Execute_insert w : exists r w', Execute c ins.1 ins.2 w = (Ret r, w') /\
  (forall n, r = inl n -> stored (server w')) /\
  (only_duplicates (sent_sql c upd.1, upd.2) (sent_sql c ins.1, ins.2) -> forall e, r = inr e -> duplicate e = true) /\
  (forall e, r = inr e -> duplicate e = true -> present (server w')).
Proof.
  destruct (Execute_run c ins.1 ins.2 w Hne) as (db & s & evs & _ & _ & E). cbv zeta in E.
  eexists _, _. split; [exact E|]. cbn [server]. split_and!.
  - intros n Hr. destruct (ExecContext_ _ _ _ _ _) as [[r|e] s'] eqn:Ex; cbn in Hr; [|done].
    apply (law_insert _ _ _ _ Hlaws _ _ _ _ _ Ex).
  - intros Hd e Hr. destruct (Hd (DB db) (Some (Timeout db)) s) as (_ & H & _). cbn [fst snd] in H. by rewrite Hr in H.
  - intros e Hr Hdup. destruct (ExecContext_ _ _ _ _ _) as [[r|e'] s'] eqn:Ex; cbn in Hr.
    + apply (law_stored _ _ _ _ Hlaws), (law_insert _ _ _ _ Hlaws _ _ _ _ _ Ex).
    + injection Hr as ->. apply (law_duplicate _ _ _ _ Hlaws _ _ _ _ _ Ex Hdup).
Qed.
End upsert.

Lemma remove_char_idem a s : remove_char a (remove_char a s) = remove_char a s.
Proof. induction s as [|b s IH]; cbn; [done|]. destruct (Ascii.eqb a b) eqn:E; cbn; rewrite ?E; [done|by f_equal]. Qed.

Lemma sent_twice c sql : sent_sql c (sent_sql c sql) = sent_sql c sql.
Proof. unfold sent_sql. destruct (is_dm c); [apply remove_char_idem|done]. Qed.

End client.

(** ** Examples *)

Definition demo_client (dbType : string) (dbs : list DbWrap) : MysqlClient :=
  mkClient None None EmptyString "shop" dbs dbs true false dbType.

Definition demo_field (name col : string) (v : value) : SField :=
  mkSField name EmptyString col EmptyString EmptyString v.

Definition demo_fields : list SField := [demo_field "Id" "id" (VInt 1); demo_field "Age" "age" (VInt 30)].

Lemma statements_placeholders_witness : Forall (fun s : string * list value => marks s.1 = len s.2)
  [update_stmt (demo_client "mysql" []) "user" [] demo_fields [("id", VInt 1)] ["age"];
   insert_stmt (demo_client "mysql" []) "user" demo_fields true "id";
   upsert_insert "user" demo_fields;
   upsert_update (demo_client "mysql" []) "user" demo_fields ["id"] ["age"];
   upsert_ondup (demo_client "mysql" []) "user" demo_fields ["id"] ["age"]].
Proof. apply statements_placeholders; [done|done|repeat constructor|repeat constructor]. Defined.

(** A table of one row with the number it holds, on which the row that is written
    holds [new]. *)
Definition one_row (new : Z) : Driver (option Z) := {|
  now := fun _ => 0; draw := fun s => (0, s);
  connect := fun _ _ s => (inl 0%nat, s);
  SetMaxOpenConns := fun _ _ s => s; SetMaxIdleConns := fun _ _ s => s;
  QueryContext := fun _ _ _ _ s => (inr ErrBadConn, s);
  ExecContext_ := fun _ _ q _ s =>
    if has_prefix "update" q then
      match s with
      | None => (inl (mkResult (inl 0) (inl 0)), s)
      | Some v => (inl (mkResult (inl 0) (inl (if v =? new then 0 else 1))), Some new)
      end
    else match s with
         | None => (inl (mkResult (inl 1) (inl 1)), Some new)
         | Some _ => (inr (MySQLError 1062 "Duplicate entry"), s)
         end;
  BeginTx := fun _ _ s => (None, s); Commit := fun _ s => (None, s); Rollback := fun _ s => s;
  CloseDB := fun _ s => (None, s);
  rows_Scan := fun _ vs => inl (map SVal vs)
|}.


(** For [dm] a query with a condition is put in lower case, its literals as well, and
    what follows a second [where] is lost. *)
Example dm_rewrite_loses :
  dm_rewrite [] "select a from t where b = 'Bob'" = "select a from t where b = 'bob'" /\
  dm_rewrite [] "select a from t where b in (select b from u where c = 1)" =
    "select a from t where b in (select b from u".
Proof. split; vm_compute; reflexivity. Qed.
End MysqlClient.
