(* ===== verification/MysqlInit.v ===== *)
(** * Starting and closing the SQL client ([databases/mysqldb/init.go], [db.go])

    The reading of a configuration, the connection strings made from it, the handles
    opened with them, and the closing of those handles. *)

From S2P Require Import Prelude GoStd GoStrings MysqlSql MysqlDb MysqlClient.
Import GoStd GoStrings MysqlSql MysqlDb MysqlClient.

Module MysqlInit.

(** [s[lo:hi]] with its run-time check. *)
Definition substring {S} (s : string) (lo hi : Z) : M S string :=
  if bool_decide (0 <= lo <= hi /\ hi <= Z.of_nat (String.length s))
  then mret (String.substring (Z.to_nat lo) (Z.to_nat (hi - lo)) s)
  else panic "slice bounds out of range".

(* [databases/mysqldb/db.go:110-132] getHostFromConnStr *)
Definition getHostFromConnStr {S} (connStr dbType : string) : M S (string + string) :=
  let '(fi, ei) :=
    if decide (dbType = dmDataBaseType)
    then (index_char "@" connStr + 1, last_index_char "?" connStr)
    else (index_char "@" connStr + 5, index_char "/" connStr - 1) in
  if (fi <=? 0) || (ei <=? 0) || (ei <=? fi)
  then mret (inr ("not find host in db conn str:" +:+ connStr +:+ ",fi=" +:+ itoa fi +:+ ",ei=" +:+ itoa ei)) else
  host ← substring connStr fi ei;
  mret (if bool_decide (host = EmptyString) || bool_decide (host = ":")
        then inr ("host not found " +:+ connStr) else inl host).

(** *** Connection strings *)

Definition safe_updates (b : bool) (s : string) : string := if b then s +:+ "&sql_safe_updates=1" else s.

Definition charset_of (conf : DbConnectConf) : string :=
  if decide (CharSet conf = EmptyString) then "utf8mb4" else CharSet conf.

Definition nonempty (s : string) : bool := negb (bool_decide (s = EmptyString)).

(** One address with seconds as numbers, which nothing calls. *)
(* [databases/mysqldb/init.go:222-251] getConnectString *)
Definition getConnectString (conf : option DbConnectConf) (connTimeout optTimeout : Z) (dbname : string) : list string :=
  match conf with
  | None => []
  | Some conf =>
      map (fun host => safe_updates (EnableSqlSafeUpdates conf)
        (User conf +:+ ":" +:+ Pass conf +:+ "@tcp(" +:+ host +:+ ")/" +:+ dbname +:+
         "?timeout=" +:+ itoa connTimeout +:+ "s&readTimeout=" +:+ itoa optTimeout +:+
         "s&writeTimeout=" +:+ itoa optTimeout +:+ "s&charset=" +:+ charset_of conf +:+
         (if ClientFoundRows conf then "&clientFoundRows=true" else EmptyString)))
      (List.filter nonempty (Addrs conf))
  end.

Definition dm_conn (user pass addr connTimeout db : string) : string :=
  "dm://" +:+ user +:+ ":" +:+ pass +:+ "@" +:+ addr +:+ "?connectTimeout=" +:+ connTimeout +:+
  "&compatibleMode=" +:+ mysqlDataBaseType +:+ "&schema=" +:+ db.

Definition mysql_conn (user pass addr db connTimeout readTimeout writeTimeout : string) : string :=
  user +:+ ":" +:+ pass +:+ "@tcp(" +:+ addr +:+ ")/" +:+ db +:+ "?timeout=" +:+ connTimeout +:+
  "&readTimeout=" +:+ readTimeout +:+ "&writeTimeout=" +:+ writeTimeout.

Definition conn_string (conf : DbConnectConf) (connTimeout readTimeout writeTimeout dbname dbType host : string) : string :=
  safe_updates (EnableSqlSafeUpdates conf)
    (if decide (dbType = dmDataBaseType) then dm_conn (User conf) (Pass conf) host connTimeout dbname
     else mysql_conn (User conf) (Pass conf) host dbname connTimeout readTimeout writeTimeout +:+
          "&charset=" +:+ charset_of conf +:+
          (if ClientFoundRows conf then "&clientFoundRows=true" else EmptyString)).

(** The default of [CharSet] is also written to the configuration, where it stands
    for the same strings. *)
(* [databases/mysqldb/init.go:253-291] getReadWriteConnectString *)
Definition getReadWriteConnectString (conf : option DbConnectConf)
  (connTimeout readTimeout writeTimeout dbname dbType : string) : list string :=
  match conf with
  | None => []
  | Some conf => map (conn_string conf connTimeout readTimeout writeTimeout dbname dbType)
                   (List.filter nonempty (Addrs conf))
  end.

Section init.
Context {R : Type} `{!Driver R}.

(** The client is changed by starting and closing it. *)
Record CW : Type := mkCW { cl : MysqlClient; wd : @W R }.

Definition on_world {A} (m : M W A) : M CW A := fun s =>
  let '(r, w) := m (wd s) in (r, mkCW (cl s) w).
Definition on_client (f : MysqlClient -> MysqlClient) : M CW unit := modify (fun s => mkCW (f (cl s)) (wd s)).
Definition step_server (f : R -> R) : M W unit := on_server (fun r => (tt, f r)).

Definition set_dbs (write read : list DbWrap) (c : MysqlClient) : MysqlClient :=
  mkClient (DbConfig c) (DbConf c) (DbConfPath c) (DataBase c) write read (startOnce c) (closeOnce c) (DbType c).
Definition set_DbType (t : string) (c : MysqlClient) : MysqlClient :=
  mkClient (DbConfig c) (DbConf c) (DbConfPath c) (DataBase c) (dbWrite c) (dbRead c) (startOnce c) (closeOnce c) t.
Definition set_path (p : string) (c : MysqlClient) : MysqlClient :=
  mkClient (DbConfig c) (DbConf c) p (DataBase c) (dbWrite c) (dbRead c) (startOnce c) (closeOnce c) (DbType c).
Definition set_once (start close : bool) (c : MysqlClient) : MysqlClient :=
  mkClient (DbConfig c) (DbConf c) (DbConfPath c) (DataBase c) (dbWrite c) (dbRead c) start close (DbType c).

(** One handle.  A pool that was opened stays open when the host is not found. *)
Definition open_handle (dbType conn : string) (maxOpen maxIdle : Z) (glSuffix : string) (timeout : Z)
  : M (@W R) (DbWrap + string) :=
  db ← on_server (connect dbType conn);
  match db with
  | inr e => mret (inr (Error e))
  | inl db =>
      _ ← step_server (SetMaxOpenConns db maxOpen);
      _ ← step_server (SetMaxIdleConns db maxIdle);
      hst ← getHostFromConnStr conn dbType;
      mret (match hst with
            | inr e => inr e
            | inl hst => let w := NewDbWrappedRetryProxy hst db timeout defaultDbRetry in
                         inl (mkDb (Timeout w) (host w) (DB w) glSuffix (retry w))
            end)
  end.

(** A handle for reading: its limits are set after its host is known. *)
Definition open_read (dbType conn : string) (maxOpen maxIdle : Z) (glSuffix : string) (timeout : Z)
  : M (@W R) (DbWrap + string) :=
  db ← on_server (connect dbType conn);
  match db with
  | inr e => mret (inr (Error e))
  | inl db =>
      hst ← getHostFromConnStr conn dbType;
      match hst with
      | inr e => mret (inr e)
      | inl hst =>
          let w := NewDbWrappedRetryProxy hst db timeout defaultDbRetry in
          _ ← step_server (SetMaxOpenConns db maxOpen);
          _ ← step_server (SetMaxIdleConns db maxIdle);
          mret (inl (mkDb (Timeout w) (host w) (DB w) glSuffix (retry w)))
      end
  end.

Fixpoint open_all (open : string -> M (@W R) (DbWrap + string)) (conns : list string) : M (@W R) (list DbWrap + string) :=
  match conns with
  | [] => mret (inl [])
  | s :: conns' =>
      db ← open s;
      match db with
      | inr e => mret (inr e)
      | inl db =>
          dbs ← open_all open conns';
          mret (match dbs with inl dbs => inl (db :: dbs) | inr e => inr e end)
      end
  end.

(** The handles of the slaves are opened and not kept. *)
(* [databases/mysqldb/db.go:134-183] initMainDbsMaxOpen *)
Definition initMainDbsMaxOpen (connMasters connSlaves : list string) (maxOpen maxIdle : Z)
  (glSuffix dbType : string) (timeout : Z) : M CW (option string) :=
  if decide (connMasters = []) then mret (Some "masters empty") else
  dbWrites ← on_world (open_all (fun s => open_handle dbType s maxOpen maxIdle glSuffix timeout) connMasters);
  match dbWrites with
  | inr e => mret (Some e)
  | inl dbWrites =>
      _ ← on_client (fun c => set_dbs dbWrites (dbRead c) c);
      if decide (connSlaves = []) then
        _ ← on_client (fun c => set_dbs dbWrites (dbWrite c) c); mret None
      else
        dbReads ← on_world (open_all (fun s => open_read dbType s maxOpen maxIdle glSuffix timeout) connSlaves);
        match dbReads with
        | inr e => mret (Some e)
        | inl _ => _ ← on_client (fun c => set_dbs (dbWrite c) dbWrites c); mret None
        end
  end.

Definition or_default (d s : string) : string := if decide (s = EmptyString) then d else s.

(** The suffix of counters and the kind of database change places in the last call. *)
(* [databases/mysqldb/init.go:157-220] initDbsWithCommonConf *)
Definition initDbsWithCommonConf (dbConf : option CommonDbConf) : M CW (option string) :=
  match dbConf with
  | None => mret (Some "dbConf is nil")
  | Some dbConf =>
      match Master dbConf with
      | None => mret (Some "masterAddr is nil")
      | Some master =>
          if decide (Addrs master = []) then mret (Some "masterAddr is nil") else
          if decide (DbName dbConf = EmptyString) then mret (Some "dbName is nil") else
          let dbType := or_default mysqlDataBaseType (cf_DbType dbConf) in
          _ ← on_client (set_DbType dbType);
          let connTimeout := or_default "200ms" (ConnTime dbConf) in
          let readTimeout := or_default "500ms" (ReadTime dbConf) in
          let writeTimeout := or_default "500ms" (WriteTime dbConf) in
          let maxOpen := if MaxOpen dbConf <=? 0 then 100 else MaxOpen dbConf in
          let maxIdle := if MaxIdle dbConf <=? 0 then 1 else MaxIdle dbConf in
          let conns conf := getReadWriteConnectString conf connTimeout readTimeout writeTimeout (DbName dbConf) dbType in
          if decide (conns (Some master) = []) then mret (Some "no valid master ip found") else
          match ParseDuration readTimeout with
          | None => mret (Some ("init mysqldb invalid duration " +:+ readTimeout))
          | Some to =>
              initMainDbsMaxOpen (conns (Some master)) (conns (Slave dbConf)) maxOpen maxIdle
                dbType (cf_glSuffix dbConf) to
          end
      end
  end.

Definition with_seconds (d s : string) : string :=
  if decide (s = EmptyString) then d else if has_suffix "s" s then s else s +:+ "s".

(** Every address of the list is tried, but the string made for it names the whole
    list, for a [dm] slave that of the masters. *)
(* [databases/mysqldb/init.go:40-131] initDbs *)
Definition initDbs (f : ini_file) (db : string) : M CW (option string) :=
  let m := "Mysql." +:+ db in
  let s := "MysqlSlave." +:+ db in
  let masterIp := ini_String f m "master_ip" in
  let masterPort := ini_String f m "master_port" in
  let userWrite := ini_String f m "user" in
  let passWrite := ini_String f m "password" in
  let slaveIp := ini_String f s "slave_ip" in
  let slavePort := ini_String f s "slave_port" in
  let userRead := ini_String f s "user" in
  let passRead := ini_String f s "password" in
  let timeout := with_seconds "5s" (ini_String f m "timeout") in
  let dbType := or_default mysqlDataBaseType (ini_String f m "db_type") in
  _ ← on_client (set_DbType dbType);
  let connTimeout := with_seconds "1s" (ini_String f m "connTimeout") in
  let dm := bool_decide (dbType = dmDataBaseType) in
  let connTimeout := if dm then remove_char "s" connTimeout +:+ "000" else connTimeout in
  let maxOpen := default 100 (ini_Int f m "max_open") in
  let maxIdle := default 1 (ini_Int f m "max_idle") in
  let enableSqlSafeUpdates := default false (ini_Bool f m "enable_sql_safe_updates") in
  let connMaster :=
    if dm then dm_conn userWrite passWrite (masterIp +:+ ":" +:+ masterPort) connTimeout db
    else safe_updates enableSqlSafeUpdates
           (mysql_conn userWrite passWrite (masterIp +:+ ":" +:+ masterPort) db connTimeout timeout timeout) in
  let connSlave :=
    if dm then dm_conn userWrite passWrite (masterIp +:+ ":" +:+ masterPort) connTimeout db
    else mysql_conn userRead passRead (slaveIp +:+ ":" +:+ slavePort) db connTimeout timeout timeout in
  let connMasters := map (fun _ => connMaster) (List.filter nonempty (split "," masterIp)) in
  let connSlaves := map (fun _ => connSlave) (List.filter nonempty (split "," slaveIp)) in
  initMainDbsMaxOpen connMasters connSlaves maxOpen maxIdle (ini_String f m "glSuffix") dbType
    (default 0 (ParseDuration timeout)).

(** [load]: [ini.Load]. *)
Variable load : string -> ini_file + string.

(* [databases/mysqldb/init.go:19-38] initObjForMysqlDb *)
Definition initObjForMysqlDb (dbConfPath : string) : M CW (option string) :=
  if decide (dbConfPath = EmptyString) then mret (Some "dbConf not set") else
  if negb (has_suffix ".ini" dbConfPath) then mret (Some "dbConf not an ini file") else
  match load dbConfPath with
  | inr e => mret (Some e)
  | inl dbConf => c ← gets cl; initDbs dbConf (DataBase c)
  end.

(* [databases/mysqldb/db.go:50-66] Start *)
Definition Start : M CW (option string) :=
  c ← gets cl;
  if startOnce c then mret None else
  _ ← on_client (set_once true (closeOnce c));
  match DbConfig c, DbConf c with
  | Some conf, _ => initDbsWithCommonConf (Some conf)
  | None, Some f => initDbs f (DataBase c)
  | None, None =>
      _ ← (if decide (DbConfPath c = EmptyString) then on_client (set_path "conf/conf.ini") else mret tt);
      c ← gets cl;
      initObjForMysqlDb (DbConfPath c)
  end.

Fixpoint close_all (dbs : list DbWrap) : M W unit :=
  match dbs with
  | [] => mret tt
  | db :: dbs' => _ ← MysqlDb.Close db; close_all dbs'
  end.

(* [databases/mysqldb/db.go:185-204] closeMainDbs *)
Definition closeMainDbs : M CW unit :=
  c ← gets cl;
  _ ← on_world (close_all (dbWrite c));
  on_world (close_all (dbRead c)).

(* [databases/mysqldb/db.go:68-72] Close *)
Definition Close : M CW unit :=
  c ← gets cl;
  if closeOnce c then mret tt else
  _ ← on_client (set_once (startOnce c) true);
  closeMainDbs.

(** ** Hosts *)

Lemma substring_ret {S} str lo hi (s : S) : 0 <= lo <= hi -> hi <= Z.of_nat (String.length str) ->
  substring str lo hi s = (Ret (String.substring (Z.to_nat lo) (Z.to_nat (hi - lo)) str), s).
Proof. intros. unfold substring. by rewrite bool_decide_true by lia. Qed.

(** It never panics: the positions it computes are inside the text. *)
Lemma getHost_returns {S} connStr dbType (s : S) : exists r, getHostFromConnStr connStr dbType s = (Ret r, s).
Proof.
  unfold getHostFromConnStr. pose proof (index_char_range "/" connStr). pose proof (last_index_char_range "?" connStr).
  destruct (decide _); destruct (_ || _) eqn:E; try (by eexists);
    apply orb_false_iff in E as [[E1 E2]%orb_false_iff E3]; cbv [mbind M_bind];
    rewrite substring_ret by lia; by eexists.
Qed.

Lemma getHost_between {S} connStr dbType (s : S) pre host post (fi ei : Z) :
  (fi, ei) = (if decide (dbType = dmDataBaseType)
    then (index_char "@" connStr + 1, last_index_char "?" connStr)
    else (index_char "@" connStr + 5, index_char "/" connStr - 1)) ->
  connStr = pre +:+ host +:+ post -> fi = Z.of_nat (String.length pre) -> 0 < fi ->
  ei = fi + Z.of_nat (String.length host) -> host ≠ EmptyString -> host ≠ ":" ->
  getHostFromConnStr connStr dbType s = (Ret (inl host), s).
Proof.
  intros Hp -> Hfi Hpos Hei Hne Hcol. unfold getHostFromConnStr. rewrite <- Hp.
  assert (0 < Z.of_nat (String.length host)) by (destruct host; [done|simpl; lia]).
  rewrite (proj2 (Z.leb_gt fi 0)), (proj2 (Z.leb_gt ei 0)), (proj2 (Z.leb_gt ei fi)) by lia. cbn [orb].
  cbv [mbind M_bind]. rewrite substring_ret by (rewrite ?string_length_app; lia).
  replace (Z.to_nat fi) with (String.length pre) by lia.
  replace (Z.to_nat (ei - fi)) with (String.length host) by lia. rewrite substring_middle.
  by rewrite !bool_decide_false.
Qed.

Lemma host_of_mysql {S} user pass addr rest dbType (s : S) : dbType ≠ dmDataBaseType ->
  count "@" user = 0 -> count "@" pass = 0 -> count "/" user = 0 -> count "/" pass = 0 -> count "/" addr = 0 ->
  addr ≠ EmptyString -> addr ≠ ":" ->
  getHostFromConnStr (user +:+ ":" +:+ pass +:+ "@tcp(" +:+ addr +:+ ")/" +:+ rest) dbType s = (Ret (inl addr), s).
Proof.
  intros Hdm Hu Hp Hu' Hp' Ha Hne Hcol. set (conn := user +:+ _).
  set (up := user +:+ ":" +:+ pass).
  assert (conn = up +:+ String "@" ("tcp(" +:+ addr +:+ ")/" +:+ rest)) as E1
    by (unfold conn, up; rewrite !string_app_assoc; reflexivity).
  assert (conn = (up +:+ "@tcp(" +:+ addr +:+ ")") +:+ String "/" rest) as E2
    by (unfold conn, up; rewrite !string_app_assoc; reflexivity).
  assert (conn = (up +:+ "@tcp(") +:+ addr +:+ ")/" +:+ rest) as E3
    by (unfold conn, up; rewrite !string_app_assoc; reflexivity).
  assert (index_char "@" conn = Z.of_nat (String.length up)) as I1
    by (rewrite E1; apply (index_char_found "@" up); unfold up; rewrite !count_app, Hu, Hp; done).
  assert (index_char "/" conn = Z.of_nat (String.length (up +:+ "@tcp(" +:+ addr +:+ ")"))) as I2
    by (rewrite E2; apply (index_char_found "/" (up +:+ "@tcp(" +:+ addr +:+ ")")); unfold up; rewrite !count_app, Hu', Hp', Ha; done).
  eapply (getHost_between conn dbType s (up +:+ "@tcp(") addr (")/" +:+ rest)); [by rewrite decide_False|done|..];
    rewrite ?I1, ?I2, ?string_length_app; cbn [String.length]; try done; lia.
Qed.

Lemma host_of_dm {S} user pass addr params (s : S) : count "@" user = 0 -> count "@" pass = 0 -> count "?" params = 0 ->
  addr ≠ EmptyString -> addr ≠ ":" ->
  getHostFromConnStr ("dm://" +:+ user +:+ ":" +:+ pass +:+ "@" +:+ addr +:+ "?" +:+ params) dmDataBaseType s
    = (Ret (inl addr), s).
Proof.
  intros Hu Hp Hq Hne Hcol. set (conn := "dm://" +:+ _). set (up := "dm://" +:+ user +:+ ":" +:+ pass).
  assert (conn = up +:+ String "@" (addr +:+ "?" +:+ params)) as E1
    by (unfold conn, up; rewrite !string_app_assoc; reflexivity).
  assert (conn = (up +:+ "@" +:+ addr) +:+ String "?" params) as E2
    by (unfold conn, up; rewrite !string_app_assoc; reflexivity).
  assert (conn = (up +:+ "@") +:+ addr +:+ "?" +:+ params) as E3
    by (unfold conn, up; rewrite !string_app_assoc; reflexivity).
  assert (index_char "@" conn = Z.of_nat (String.length up)) as I1
    by (rewrite E1; apply (index_char_found "@" up); unfold up; rewrite !count_app, Hu, Hp; done).
  assert (last_index_char "?" conn = Z.of_nat (String.length (up +:+ "@" +:+ addr))) as I2
    by (rewrite E2; by apply (last_index_char_found "?" (up +:+ "@" +:+ addr))).
  eapply (getHost_between conn dmDataBaseType s (up +:+ "@") addr ("?" +:+ params)); [by rewrite decide_True|done|..];
    rewrite ?I1, ?I2, ?string_length_app; cbn [String.length]; try done; lia.
Qed.

(** The host read back from a connection string is the address it was made for,
    for either kind of database and with every option, if user, password and address
    do not hold the characters that delimit them. *)
Theorem host_roundtrip {S} conf connTimeout readTimeout writeTimeout dbname dbType addr (s : S) :
  count "@" (User conf) = 0 -> count "@" (Pass conf) = 0 -> addr ≠ EmptyString -> addr ≠ ":" ->
  (if decide (dbType = dmDataBaseType) then count "?" connTimeout = 0 /\ count "?" dbname = 0
   else count "/" (User conf) = 0 /\ count "/" (Pass conf) = 0 /\ count "/" addr = 0) ->
  getHostFromConnStr (conn_string conf connTimeout readTimeout writeTimeout dbname dbType addr) dbType s =
    (Ret (inl addr), s).
Proof.
  intros Hu Hp Hne Hcol Hd. unfold conn_string, safe_updates, dm_conn, mysql_conn.
  destruct (decide (dbType = dmDataBaseType)) as [->|Hdm].
  - destruct Hd as [Hct Hdb].
    destruct (EnableSqlSafeUpdates conf); rewrite ?string_app_assoc;
      apply (host_of_dm (User conf) (Pass conf) addr); try done;
      cbn; rewrite count_app, Hct; cbn; rewrite ?count_app, Hdb; reflexivity.
  - destruct Hd as (Hu' & Hp' & Ha).
    destruct (EnableSqlSafeUpdates conf); rewrite ?string_app_assoc; by apply (host_of_mysql (User conf) (Pass conf) addr).
Qed.

(** ** Opening *)

(** What the handle of a connection string is. *)
Definition handle_of (dbType glSuffix : string) (timeout : Z) (conn : string) (db : DbWrap) : Prop :=
  getHostFromConnStr conn dbType tt = (Ret (inl (host db)), tt) /\ MysqlDb.glSuffix db = glSuffix /\
  Timeout db = (if timeout <=? 0 then 2 * Second else timeout) /\ retry db = 1.

Lemma getHost_any {S T} connStr dbType (s : S) (t : T) r :
  getHostFromConnStr connStr dbType s = (Ret r, s) -> getHostFromConnStr connStr dbType t = (Ret r, t).
Proof.
  unfold getHostFromConnStr. destruct (if decide _ then _ else _) as [fi ei]. destruct (_ || _); [by intros [= <-]|].
  unfold substring. cbv [mbind M_bind]. case_bool_decide; [|done]. by intros [= <-].
Qed.

Lemma open_handle_spec dbType conn maxOpen maxIdle suffix timeout w db w' :
  open_handle dbType conn maxOpen maxIdle suffix timeout w = (Ret (inl db), w') ->
  handle_of dbType suffix timeout conn db.
Proof.
  unfold open_handle, on_server, step_server. cbv [mbind M_bind mret M_ret].
  destruct (connect dbType conn (server w)) as [[pool|e] r]; [|done].
  destruct (getHost_returns conn dbType (mkW (SetMaxIdleConns pool maxIdle (SetMaxOpenConns pool maxOpen r)) (perf w)))
    as (h & E). cbn [server perf] in E |- *. cbn. rewrite E. destruct h as [h|]; intros [= <- <-]. split_and!; try done.
  by eapply getHost_any.
Qed.

Lemma open_handle_returns dbType conn maxOpen maxIdle suffix timeout w : exists r w',
  open_handle dbType conn maxOpen maxIdle suffix timeout w = (Ret r, w').
Proof.
  unfold open_handle, on_server, step_server. cbv [mbind M_bind mret M_ret].
  destruct (connect dbType conn (server w)) as [[pool|e] r]; [|by eexists _, _]. cbn [server perf].
  destruct (getHost_returns conn dbType (mkW (SetMaxIdleConns pool maxIdle (SetMaxOpenConns pool maxOpen r)) (perf w)))
    as (h & E). cbn. rewrite E. by eexists _, _.
Qed.

Lemma open_all_spec open (P : string -> DbWrap -> Prop) conns w dbs w' :
  (forall s db w w', open s w = (Ret (inl db), w') -> P s db) ->
  open_all open conns w = (Ret (inl dbs), w') -> Forall2 P conns dbs.
Proof.
  intros HP. revert w dbs. induction conns as [|s conns IH]; intros w dbs; cbn [open_all].
  { intros [= <- _]. constructor. }
  cbv [mbind M_bind mret M_ret]. destruct (open s w) as [[[db|e]|m] w1] eqn:E; [|done..].
  destruct (open_all open conns w1) as [[[l|e]|m] w2] eqn:E2; [|done..]. intros [= <- <-].
  constructor; [by eapply HP|by eapply IH].
Qed.

Lemma open_all_first_fails open s conns w e w' : open s w = (Ret (inr e), w') ->
  open_all open (s :: conns) w = (Ret (inr e), w').
Proof. intros E. cbn [open_all]. cbv [mbind M_bind]. by rewrite E. Qed.

Section main.
Context (connMasters connSlaves : list string) (maxOpen maxIdle : Z) (glSuffix dbType : string) (timeout : Z).
Abbreviation init := (initMainDbsMaxOpen connMasters connSlaves maxOpen maxIdle glSuffix dbType timeout).

(** A client that started has one handle per master string, with the host found in
    it, the suffix, the default of one retry and the time-out (two seconds if none),
    and it reads from these same handles: slaves are opened, but never used. *)
Theorem slaves_never_read s s' : init s = (Ret None, s') ->
  Forall2 (handle_of dbType glSuffix timeout) connMasters (dbWrite (cl s')) /\
  dbRead (cl s') = dbWrite (cl s') /\ dbWrite (cl s') ≠ [].
Proof.
  unfold initMainDbsMaxOpen. destruct (decide (connMasters = [])) as [|Hne]; [done|].
  unfold on_world, on_client. cbv [mbind M_bind modify mret M_ret]. destruct (open_all _ _ _) as [[[dbs|e]|m] w1] eqn:E; [|done..].
  apply (open_all_spec _ (handle_of dbType glSuffix timeout)) in E; [|intros; by eapply open_handle_spec].
  assert (dbs ≠ []) as Hd by (intros ->; inversion E; congruence).
  destruct (decide (connSlaves = [])); [by intros [= <-]|]. cbn [wd cl].
  destruct (open_all _ connSlaves _) as [[[rs|e]|m] w2]; [|done..]. by intros [= <-].
Qed.

(** With a driver that is not registered nothing is opened. *)
Lemma unknown_driver s : connMasters ≠ [] ->
  (forall url r, exists e, connect dbType url r = (inr e, r)) ->
  exists e, init s = (Ret (Some e), s).
Proof.
  intros Hne Hc. unfold initMainDbsMaxOpen. rewrite decide_False by done. destruct connMasters as [|conn conns]; [done|].
  destruct (Hc conn (server (wd s))) as [e E]. exists (Error e).
  unfold on_world. cbv [mbind M_bind]. rewrite (open_all_first_fails _ conn conns (wd s) (Error e) (wd s)).
  - by destruct s.
  - unfold open_handle, on_server. cbv [mbind M_bind mret M_ret]. rewrite E. by destruct s as [c [r p]].
Qed.
End main.

Lemma unknown_driver_conf conf s : (forall url r, exists e, connect (cf_glSuffix conf) url r = (inr e, r)) ->
  exists e s', initDbsWithCommonConf (Some conf) s = (Ret (Some e), s') /\ wd s' = wd s /\
    dbWrite (cl s') = dbWrite (cl s) /\ dbRead (cl s') = dbRead (cl s) /\ startOnce (cl s') = startOnce (cl s).
Proof.
  intros Hc. unfold initDbsWithCommonConf. destruct (Master conf) as [master|]; [|by eexists _, _].
  destruct (decide _); [by eexists _, _|]. destruct (decide _); [by eexists _, _|].
  unfold on_client. cbv [mbind M_bind modify]. destruct (decide _) as [|Hne]; [by eexists _, _|].
  destruct (ParseDuration _) as [to|]; [|by eexists _, _].
  edestruct unknown_driver as [e E]; [exact Hne|exact Hc|]. eexists _, _. split; [exact E|]. done.
Qed.

(** A client started from a [CommonDbConf] opens nothing: the suffix of counters is
    passed where the driver's name belongs, and the other way round, so that unless
    the suffix happens to be the name of a driver, [Start] fails; a second call
    reports no error, and the client still has no handle. *)
Theorem common_config_never_connects conf s :
  DbConfig (cl s) = Some conf -> startOnce (cl s) = false -> dbWrite (cl s) = [] -> dbRead (cl s) = [] ->
  (forall url r, exists e, connect (cf_glSuffix conf) url r = (inr e, r)) ->
  exists e s', Start s = (Ret (Some e), s') /\ wd s' = wd s /\ dbWrite (cl s') = [] /\ dbRead (cl s') = [] /\
    Start s' = (Ret None, s').
Proof.
  intros Hconf Hstart Hw Hr Hc. unfold Start at 1. cbv [mbind M_bind gets]. rewrite Hstart. unfold on_client.
  cbv [modify]. rewrite Hconf. set (s1 := mkCW _ _).
  destruct (unknown_driver_conf conf s1 Hc) as (e & s' & E & Hwd & Hw' & Hr' & Hs'). exists e, s'.
  split_and!; [exact E|done|by rewrite Hw'|by rewrite Hr'|].
  unfold Start. cbv [mbind M_bind gets]. by rewrite Hs'.
Qed.

(** ** Configuration files *)

Lemma mysql_conn_host user pass addr db ct rt wt b dbType (s : unit) : dbType ≠ dmDataBaseType ->
  count "@" user = 0 -> count "@" pass = 0 -> count "/" user = 0 -> count "/" pass = 0 -> count "/" addr = 0 ->
  addr ≠ EmptyString -> addr ≠ ":" ->
  getHostFromConnStr (safe_updates b (mysql_conn user pass addr db ct rt wt)) dbType s = (Ret (inl addr), s).
Proof.
  intros. unfold safe_updates, mysql_conn. destruct b; rewrite ?string_app_assoc; by apply (host_of_mysql user pass addr).
Qed.

(** From a configuration file with several masters a client gets one handle per
    address, but every handle is given the whole list as its host: the loop formats
    the variable of the list, not that of the loop. *)
Theorem handles_share_address_list f db s s' :
  let m := "Mysql." +:+ db in
  let addr := ini_String f m "master_ip" +:+ ":" +:+ ini_String f m "master_port" in
  ini_String f m "db_type" ≠ dmDataBaseType ->
  count "@" (ini_String f m "user") = 0 -> count "@" (ini_String f m "password") = 0 ->
  count "/" (ini_String f m "user") = 0 -> count "/" (ini_String f m "password") = 0 ->
  count "/" addr = 0 -> addr ≠ ":" ->
  initDbs f db s = (Ret None, s') ->
  map host (dbWrite (cl s')) = map (fun _ => addr) (List.filter nonempty (split "," (ini_String f m "master_ip"))).
Proof.
  cbv zeta. set (addr := _ +:+ ":" +:+ _). intros Hdm Hu Hp Hu' Hp' Ha Hcol. unfold initDbs, on_client.
  cbv [mbind M_bind modify]. fold addr. intros E.
  assert (or_default mysqlDataBaseType (ini_String f ("Mysql." +:+ db) "db_type") ≠ dmDataBaseType) as Hdm'
    by (unfold or_default; by destruct (decide _)).
  rewrite (bool_decide_false _ Hdm') in E. apply slaves_never_read in E as (HF & _ & _).
  revert HF. generalize (dbWrite (cl s')) as dbs. generalize (List.filter nonempty (split "," (ini_String f ("Mysql." +:+ db) "master_ip"))) as l.
  induction l as [|x l IH]; intros dbs HF; inversion HF as [|conn d conns ds (Hh & _) HF']; subst; [done|].
  cbn [map]. f_equal; [|by apply IH]. rewrite mysql_conn_host in Hh; try done; [by injection Hh|].
  unfold addr. by destruct (ini_String f _ "master_ip").
Qed.
End init.

(** ** Examples *)

Definition empty_client : MysqlClient := mkClient None None EmptyString "shop" [] [] false false EmptyString.
Definition empty_world : @W demoR := mkW (mkDemo 0 [] [] [] [] [] []) [].

Definition demo_conf : DbConnectConf := mkConnectConf ["10.0.0.1:3306"] "root" "pw" EmptyString true false true.
Definition demo_common : CommonDbConf :=
  mkCommonConf EmptyString "shop" EmptyString EmptyString EmptyString 10 2 0 EmptyString (Some demo_conf) None.

Lemma host_roundtrip_witness : getHostFromConnStr
  (conn_string demo_conf "200ms" "500ms" "500ms" "shop" "mysql" "10.0.0.1:3306") "mysql" tt =
    (Ret (inl "10.0.0.1:3306"), tt).
Proof. apply host_roundtrip; try done. Defined.

Definition conf_client : MysqlClient := mkClient (Some demo_common) None EmptyString "shop" [] [] false false EmptyString.

Lemma common_config_never_connects_witness : exists e s',
  Start (fun _ => inr "no file") (mkCW conf_client empty_world) = (Ret (Some e), s') /\ dbWrite (cl s') = [].
Proof.
  destruct (common_config_never_connects (fun _ => inr "no file") demo_common (mkCW conf_client empty_world))
    as (e & s' & E & _ & Hw & _); [reflexivity..| |by exists e, s'].
  intros url r. by eexists.
Defined.

Definition demo_ini : ini_file := mkIni
  (fun sec key =>
     if bool_decide (sec = "Mysql.shop") then
       if bool_decide (key = "master_ip") then "10.0.0.1,10.0.0.2"
       else if bool_decide (key = "master_port") then "3306"
       else if bool_decide (key = "user") then "root" else EmptyString
     else if bool_decide (key = "slave_ip") then "10.0.0.3" else EmptyString)
  (fun _ _ => None) (fun _ _ => None).

Lemma handles_share_address_list_witness : exists s', initDbs demo_ini "shop" (mkCW empty_client empty_world) = (Ret None, s') /\
  map host (dbWrite (cl s')) = ["10.0.0.1,10.0.0.2:3306"; "10.0.0.1,10.0.0.2:3306"].
Proof.
  eexists. split; [vm_compute; reflexivity|].
  rewrite (handles_share_address_list demo_ini "shop" (mkCW empty_client empty_world)); [reflexivity|try done..].
Defined.

Lemma slaves_never_read_witness : exists s',
  initMainDbsMaxOpen ["root:pw@tcp(10.0.0.1:3306)/shop"] ["root:pw@tcp(10.0.0.3:3306)/shop"] 10 1 EmptyString "mysql" 0
    (mkCW empty_client empty_world) = (Ret None, s') /\
  length (conns (server (wd s'))) = 2%nat /\ map host (dbRead (cl s')) = ["10.0.0.1:3306"].
Proof.
  destruct (initMainDbsMaxOpen ["root:pw@tcp(10.0.0.1:3306)/shop"] ["root:pw@tcp(10.0.0.3:3306)/shop"] 10 1 EmptyString "mysql" 0
    (mkCW empty_client empty_world)) as [o s'] eqn:E. exists s'.
  pose proof E as E'. vm_compute in E'. injection E' as <- Hs. split_and!; [done|by rewrite <- Hs|].
  apply slaves_never_read in E as (_ & -> & _). by rewrite <- Hs.
Defined.
End MysqlInit.
