(* ===== verification/DhttpServer.v ===== *)
(** * The HTTP server ([net/dhttp/server.go], [wrap.go], [filter.go])

    A handler is any function of the right shape: [Wrap] calls it by reflection on
    what the request holds and leaves its results in the context of the request,
    [ParseRet] and [GroupFilter] take them from there and answer, and the other
    filters log, count and measure the request around it.

    The gin library is a parameter where it computes (binding a request to a value)
    and a record of calls where it acts (answering with JSON, adding a route).  What
    its documentation says of [Bind] is modelled: where a request does not bind, the
    status 400 is written at once, and a status set later no longer reaches the wire.
    A filter is a function of what comes next ([c.Next()]).  Lines of the log other
    than those of the session are left out. *)

From S2P Require Import Prelude GoStd GoStrings GoUrl Network.
Import GoStd GoStrings GoUrl.

Module DhttpServer.

(** ** Values *)

(** Types of a function's parameters and results, as far as they are looked at;
    [named] is a type declared with the basic one. *)
Inductive ty : Type :=
| TInt (named : bool) | TString (named : bool) | TPtr (elem : ty) | TStruct | TError | TErrorImpl | TOther.

Definition is_ptr (t : ty) : bool := match t with TPtr _ => true | _ => false end.
Definition is_int (t : ty) : bool := match t with TInt _ => true | _ => false end.
Definition is_string (t : ty) : bool := match t with TString _ => true | _ => false end.
Definition implements_error (t : ty) : bool := match t with TError | TErrorImpl => true | _ => false end.

Section server.
(** The values requests are bound to, and what gin and JSON make of a request:
    the value, with the error if there is one. *)
Context {V : Type} (Bind : Network.Request -> V * option string) (Bind_copy : Network.Request -> option string).
Context (json_Unmarshal : string -> V * option string) (InvalidUnmarshal : string).
Context (ParseIP : string -> bool) (now : nat -> Z) (utls_TraceId : nat -> string).

(** The second argument of a handler: its type's zero, the value of the request, or nil. *)
Inductive input : Type := Zero | Bound (v : V) | NilPtr.

Inductive outv : Type :=
| OInt (named : bool) (z : Z) | OString (named : bool) (s : string) | OErr (err : option string) | OVal (v : option V).

(** What [Return] puts together. *)
Record Ret_ : Type := mkRet { code : Z; result : option outv; message : string }.

(** The values of the keys of a request. *)
Inductive cval : Type :=
| CNil | CRet (r : Ret_) | CInt (z : Z) | CErr (text : string) | CStr (s : string) | CBytes (b : string)
| CInput (i : input) | COther.

(** Whether JSON can be made of a value; what becomes of the status that [c.JSON] is
    given on the wire: a status that HTTP knows is sent as it is. *)
Variable encodes : cval -> bool.
Variable wire_status : Z -> Z.
Hypothesis wire_status_valid : forall s, 100 <= s <= 999 -> wire_status s = s.

(** The data of the goroutine. *)
Inductive glv : Type := GStr (s : string) | GBool (b : bool) | GOther.

(** What a request leaves behind. *)
Inductive report : Type :=
| PcCost (key : string) (cost : Z) | PcIncr (key : string) (n : Z)
| StatEnd (cmd : string) (cost status : Z)
| Session (slow : bool) (pk method path : string) (status cost : Z) (err : string) (data ret : option cval).

(** A request: its context's keys, itself, the JSON answered with, the status on the
    wire once it is written, the data of the goroutine, the reports, and how often the
    clock was read. *)
Record ctx : Type := mkCtx {
  keys : gmap string cval;
  Method : string; RequestURI : string; query_trace : string; request : Network.Request;
  answers : list (Z * cval); sent : option Z; gldata : option (gmap string glv); reports : list report; ticks : nat
}.

Definition set_keys (m : gmap string cval) (c : ctx) : ctx :=
  mkCtx m (Method c) (RequestURI c) (query_trace c) (request c) (answers c) (sent c) (gldata c) (reports c) (ticks c).
Definition set_answers (l : list (Z * cval)) (c : ctx) : ctx :=
  mkCtx (keys c) (Method c) (RequestURI c) (query_trace c) (request c) l (sent c) (gldata c) (reports c) (ticks c).
Definition set_gl (g : option (gmap string glv)) (c : ctx) : ctx :=
  mkCtx (keys c) (Method c) (RequestURI c) (query_trace c) (request c) (answers c) (sent c) g (reports c) (ticks c).
Definition set_sent (v : option Z) (c : ctx) : ctx :=
  mkCtx (keys c) (Method c) (RequestURI c) (query_trace c) (request c) (answers c) v (gldata c) (reports c) (ticks c).
Definition set_reports (l : list report) (c : ctx) : ctx :=
  mkCtx (keys c) (Method c) (RequestURI c) (query_trace c) (request c) (answers c) (sent c) (gldata c) l (ticks c).
Definition set_ticks (n : nat) (c : ctx) : ctx :=
  mkCtx (keys c) (Method c) (RequestURI c) (query_trace c) (request c) (answers c) (sent c) (gldata c) (reports c) n.

Definition Get (k : string) : M ctx (option cval) := gets (fun c => keys c !! k).
Definition Set_ (k : string) (v : cval) : M ctx unit := modify (fun c => set_keys (<[k := v]> (keys c)) c).
(** The status line is written once. *)
Definition write_status (status : Z) (c : ctx) : ctx :=
  match sent c with None => set_sent (Some status) c | Some _ => c end.
(** [c.JSON] panics on what cannot be encoded. *)
Definition JSON (status : Z) (v : cval) : M ctx unit :=
  if encodes v then modify (fun c => write_status (wire_status status) (set_answers (answers c ++ [(status, v)]) c))
  else panic "json: unsupported type".
Definition tell (r : report) : M ctx unit := modify (fun c => set_reports (reports c ++ [r]) c).
Definition time_Now : M ctx Z := fun c => (Ret (now (ticks c)), set_ticks (S (ticks c)) c).
Definition gl_value (g : option (gmap string glv)) (k : string) : option glv := g ≫= (fun m => m !! k).
Definition gl_Get (k : string) : M ctx (option glv) := gets (fun c => gl_value (gldata c) k).
Definition gl_Set (k : string) (v : glv) : M ctx unit := modify (fun c => set_gl (insert k v <$> gldata c) c).

(* [net/dhttp/const.go:9-20] RemoteIP, Ret, Code, Err, SessionLogLevel, Data, DataRaw, TraceID *)
Definition kRemoteIP : string := "remote_ip".
Definition kRet : string := "ret".
Definition kCode : string := "code".
Definition kErr : string := "err".
Definition kSessionLogLevel : string := "session_log_level".
Definition kData : string := "data".
Definition kDataRaw : string := "data_raw".
Definition kTraceID : string := "trace_id".

(** ** Handlers *)

(** A function: the types of its parameters and results, and what it does. *)
Record func : Type := mkFunc { In : list ty; Out : list ty; Call : input -> M ctx (list outv) }.

Inductive toWrap : Type := NotFunc | Func (f : func).

(** The text of the error, without the values printed in it. *)
(* [net/dhttp/wrap.go:22-47] CheckWrap *)
Definition CheckWrap (w : toWrap) : option string :=
  match w with
  | NotFunc => Some "toWrap must be func"
  | Func f =>
      if len (In f) <? 2 then Some "params in count must > 2"
      else if negb (match In f with t :: _ => is_ptr t | [] => false end) then Some "first param in must *gin.Context"
      else if len (Out f) <? 4 then Some "params out count must > 4"
      else match Out f with
           | t0 :: t1 :: t2 :: _ =>
               if negb (is_int t0) then Some "params out 1 must be int"
               else if negb (is_string t1) then Some "params out 2 must be string"
               else if negb (implements_error t2) then Some "params out 3 must be error"
               else None
           | _ => None
           end
  end.

(* [net/dhttp/wrap.go:163-174] Return *)
Definition Return (c : Z) (msg : string) (err : option string) (res : option outv) : M ctx unit :=
  _ ← Set_ kRet (CRet (mkRet c res msg));
  _ ← Set_ kCode (CInt c);
  match err with Some e => Set_ kErr (CErr e) | None => mret tt end.

(** The assertions of [Wrap] on the four results: another type gives the zero. *)
Definition as_int (o : outv) : Z := match o with OInt false z => z | _ => 0 end.
Definition as_string (o : outv) : string := match o with OString false s => s | _ => EmptyString end.
Definition as_error (o : outv) : option string := match o with OErr e => e | _ => None end.

(** The call: parameters after the second are zero [reflect.Value]s. *)
Definition invoke (f : func) (i : input) : M ctx unit :=
  if negb (len (In f) =? 2) then panic "reflect: Call using zero Value argument" else
  out ← Call f i;
  match out with
  | [o0; o1; o2; o3] => Return (as_int o0) (as_string o1) (as_error o2) (Some o3)
  | _ => Return 500 "ret not 4!" None None
  end.

Definition inType (f : func) : ty := match In f with _ :: t :: _ => t | _ => TOther end.

Definition bind_error (f : func) (r : Network.Request) : option string :=
  if is_ptr (inType f) then snd (Bind r) else Bind_copy r.

(** [c.Bind]: where it fails, 400 is written. *)
Definition c_Bind (f : func) : M ctx (option string) :=
  c ← get;
  match bind_error f (request c) with
  | Some err => _ ← modify (write_status 400); mret (Some err)
  | None => mret None
  end.

Definition wrapped (f : func) : M ctx unit :=
  let ptr := is_ptr (inType f) in
  let bound r := if ptr then Bound (fst (Bind r)) else Zero in
  dataBtsObj ← Get kDataRaw;
  c ← get;
  match dataBtsObj with
  | None =>
      if String.eqb (Method c) "GET" then
        _ ← c_Bind f; _ ← Set_ kData (CInput (bound (request c))); invoke f (bound (request c))
      else err ← c_Bind f;
           match err with
           | Some err => _ ← Return 400 "data not valid" (Some err) None; Set_ kSessionLogLevel (CStr "INFO")
           | None => _ ← Set_ kData (CInput (bound (request c))); invoke f (bound (request c))
           end
  | Some (CBytes dataBts) =>
      if String.eqb dataBts EmptyString then
        let i := if ptr then NilPtr else Zero in _ ← Set_ kData (CInput i); invoke f i
      else
        let '(v, jsonErr) := json_Unmarshal dataBts in
        match (if ptr then jsonErr else Some InvalidUnmarshal) with
        | Some err => _ ← Return 500 "data type not valid" (Some err) None; Set_ kSessionLogLevel (CStr "INFO")
        | None => _ ← Set_ kData (CInput (Bound v)); invoke f (Bound v)
        end
  | Some _ => _ ← Return 500 "data not byte array" None None; Set_ kSessionLogLevel (CStr "INFO")
  end.

(** Wrapping itself panics on what has no second parameter. *)
(* [net/dhttp/wrap.go:50-161] Wrap *)
Definition Wrap (w : toWrap) : M ctx unit + string :=
  match w with
  | NotFunc => inr "reflect: NumIn of non-func type"%string
  | Func f => match In f with _ :: _ :: _ => inl (wrapped f) | _ => inr "reflect: Func index out of bounds"%string end
  end.

(** What is answered, and the error there was before. *)
(* [net/dhttp/wrap.go:176-210] ParseRet *)
Definition ParseRet : M ctx (cval * option cval) :=
  origErr ← Get kErr;
  let has_err := match origErr with None | Some CNil => false | Some _ => true end in
  retObj ← Get kRet;
  match retObj with
  | None =>
      _ ← (if has_err then mret tt else Set_ kErr (CErr "no ret found"));
      mret (CRet (mkRet 500 None "no result"), origErr)
  | Some CNil =>
      _ ← Set_ kErr (CErr "ret empty?");
      mret (CRet (mkRet 500 None "empty result"), origErr)
  | Some ret => mret (ret, origErr)
  end.

(** The assertion that the code of the answer is an [int]. *)
Definition http_status : M ctx Z :=
  v ← Get kCode;
  match v with Some (CInt z) => mret z | _ => panic "interface conversion: interface {} is nil, not int" end.

(** ** Filters *)

Definition filter_ : Type := M ctx unit -> M ctx unit.

(* [net/dhttp/filter.go:26-34] GroupFilter *)
Definition GroupFilter : filter_ := fun next =>
  _ ← next; r ← ParseRet; status ← http_status; JSON status r.1.

(* [net/dhttp/filter.go:37-44] GlFilter *)
Definition GlFilter : filter_ := fun next =>
  _ ← modify (set_gl (Some ∅));
  defer (modify (set_gl None)) next.

(** The request's path: the URI up to its [?]. *)
Definition path_of (uri : string) : string := match split "?" uri with p :: _ => p | [] => uri end.

(* [net/dhttp/filter.go:171-189] StatFilter *)
Definition StatFilter : filter_ := fun next =>
  c ← get;
  b ← time_Now;
  _ ← next;
  status ← http_status;
  e ← time_Now;
  tell (StatEnd (path_of (RequestURI c)) (e - b) status).

Definition trace_id : M ctx unit :=
  c ← get;
  if negb (String.eqb (query_trace c) EmptyString) then gl_Set "glLogId" (GStr (query_trace c))
  else
    let header := header_Get kTraceID (Network.Header (request c)) in
    if negb (String.eqb header EmptyString) then gl_Set "glLogId" (GStr header)
    else
      let traceId := utls_TraceId (ticks c) in
      _ ← Set_ kTraceID (CStr traceId); gl_Set "glLogId" (GStr traceId).

(** Whether a flag of the goroutine hides a part of the record. *)
Definition hidden (k : string) : M ctx bool :=
  t ← gl_Get k;
  match t with
  | None => mret false
  | Some (GBool b) => mret b
  | Some _ => panic "interface conversion"
  end.

Definition shown_data : M ctx (option cval) :=
  hide ← hidden "glHideData";
  if hide : bool then mret None else
  data ← Get kData;
  match data with Some d => mret (Some d) | None => Get kDataRaw end.

Definition shown_ret : M ctx (option cval) :=
  hide ← hidden "glHideRet";
  if hide : bool then mret None else Get kRet.

(** The text of the error; of a value that is none, the parameter of the text. *)
Definition error_text (sprint : cval -> string) (v : option cval) : string :=
  match v with None | Some CNil => EmptyString | Some (CErr e) => e | Some v => sprint v end.

Definition Millisecond : Z := 1000000.

(** [data] and [ret] are kept as they are, before their JSON. *)
(* [net/dhttp/filter.go:47-168] Logger *)
Definition Logger (sprint : cval -> string) (pk : string) : filter_ := fun next =>
  st ← time_Now;
  _ ← gl_Set "glServer" (GStr pk);
  _ ← trace_id;
  c ← get;
  let realIp := default EmptyString (Network.GetRealIP ParseIP (request c)) in
  _ ← Set_ kRemoteIP (CStr realIp);
  _ ← gl_Set "glClientIp" (GStr realIp);
  _ ← next;
  c ← get;
  let path := path_of (RequestURI c) in
  t ← time_Now;
  let costDu := t - st in
  _ ← tell (PcCost (pk +:+ ",uri=path,path=" +:+ path) costDu);
  _ ← tell (PcCost pk costDu);
  let cost := Z.quot costDu Millisecond in
  data ← shown_data;
  ret ← shown_ret;
  httpStatus ← http_status;
  _ ← (if httpStatus =? 200 then mret tt else tell (PcIncr (pk +:+ ",httpcode=" +:+ itoa httpStatus) 1));
  handleErr ← Get kErr;
  tell (Session (100 <? cost) pk (Method c) path httpStatus cost (error_text sprint handleErr) data ret).

(** ** What a wrapped handler leaves *)

(** What the handler is called with, or the answer in its place. *)
Definition input_of (f : func) (c : ctx) : input + Ret_ :=
  let ptr := is_ptr (inType f) in
  let bound := if ptr then Bound (fst (Bind (request c))) else Zero in
  match keys c !! kDataRaw with
  | None =>
      if String.eqb (Method c) "GET" then inl bound
      else match bind_error f (request c) with
           | None => inl bound
           | Some _ => inr (mkRet 400 None "data not valid")
           end
  | Some (CBytes b) =>
      if String.eqb b EmptyString then inl (if ptr then NilPtr else Zero)
      else match ptr, snd (json_Unmarshal b) with
           | true, None => inl (Bound (fst (json_Unmarshal b)))
           | _, _ => inr (mkRet 500 None "data type not valid")
           end
  | Some _ => inr (mkRet 500 None "data not byte array")
  end.

(** Whether binding writes the status. *)
Definition bind_fails (f : func) (c : ctx) : bool :=
  match keys c !! kDataRaw with
  | None => match bind_error f (request c) with Some _ => true | None => false end
  | Some _ => false
  end.

Definition results (out : list outv) : Ret_ :=
  match out with
  | [o0; o1; o2; o3] => mkRet (as_int o0) (Some o3) (as_string o1)
  | _ => mkRet 500 None "ret not 4!"
  end.

(** The answer to a request: the handler's results on its input, or a refusal. *)
Definition answer_for (f : func) (c : ctx) (r : Ret_) : Prop :=
  match input_of f c with
  | inl i => exists c1 c2 out, Call f i c1 = (Ret out, c2) /\ r = results out
  | inr r' => r = r'
  end.

Definition frame (c c' : ctx) : Prop :=
  answers c' = answers c /\ reports c' = reports c /\ Method c' = Method c /\ RequestURI c' = RequestURI c /\
  sent c' = sent c.

(** The flags that hide parts of the record are booleans. *)
Definition flags_ok (g : option (gmap string glv)) : Prop :=
  forall k v, k = "glHideData"%string \/ k = "glHideRet"%string -> gl_value g k = Some v -> exists b, v = GBool b.

(** A handler that returns, and answers and reports nothing itself. *)
Definition quiet (f : func) : Prop := len (In f) = 2 /\
  forall i c, flags_ok (gldata c) -> exists out c', Call f i c = (Ret out, c') /\ frame c c' /\ flags_ok (gldata c').

(** The result and the code agree. *)
Definition coded (r : Ret_) (c : ctx) : Prop := keys c !! kRet = Some (CRet r) /\ keys c !! kCode = Some (CInt (code r)).

Lemma Return_coded c msg err res s : exists s', Return c msg err res s = (Ret tt, s') /\ coded (mkRet c res msg) s' /\
  frame s s' /\ gldata s' = gldata s.
Proof.
  unfold Return, Set_, modify, mbind, M_bind, coded. destruct err as [e|]; eexists; (split; [done|]); cbn; split_and!; try done;
    by simplify_map_eq.
Qed.

Lemma refuse_coded c msg err s : exists s',
  (_ ← Return c msg err None; Set_ kSessionLogLevel (CStr "INFO")) s = (Ret tt, s') /\ coded (mkRet c None msg) s' /\
  frame s s' /\ gldata s' = gldata s.
Proof.
  destruct (Return_coded c msg err None s) as (s1 & H1 & [H2 H3] & H4 & H5). unfold mbind, M_bind. rewrite H1.
  eexists. split; [done|]. cbn. split_and!; [|apply H4..|done]. split; cbn; by rewrite lookup_insert_ne.
Qed.

Lemma frame_trans c1 c2 c3 : frame c1 c2 -> frame c2 c3 -> frame c1 c3.
Proof. unfold frame. intros (-> & -> & -> & -> & ->) (-> & -> & -> & -> & ->). done. Qed.

(** What binding leaves. *)
Definition bound_ctx (f : func) (c : ctx) : ctx := if bind_fails f c then write_status 400 c else c.

Lemma c_Bind_run f c : keys c !! kDataRaw = None -> c_Bind f c = (Ret (bind_error f (request c)), bound_ctx f c).
Proof.
  intros Hk. unfold c_Bind, bound_ctx, bind_fails, get, modify, mbind, M_bind. rewrite Hk. by destruct (bind_error _ _).
Qed.

Lemma invoke_coded f i d s : quiet f -> flags_ok (gldata s) ->
  exists s' r c1 c2 out, (_ ← Set_ kData d; invoke f i) s = (Ret tt, s') /\ coded r s' /\ frame s s' /\ flags_ok (gldata s') /\
    Call f i c1 = (Ret out, c2) /\ r = results out.
Proof.
  intros [Hl Hq] Hf. unfold Set_, modify, mbind, M_bind, invoke. rewrite Hl. cbn [negb Z.eqb Pos.eqb]. unfold mbind, M_bind.
  destruct (Hq i (set_keys (<[kData := d]> (keys s)) s) Hf) as (out & s2 & H1 & H2 & H3). rewrite H1.
  assert (exists s', (match out with [o0; o1; o2; o3] => Return (as_int o0) (as_string o1) (as_error o2) (Some o3)
                      | _ => Return 500 "ret not 4!" None None end) s2 = (Ret tt, s') /\ coded (results out) s' /\ frame s2 s' /\ gldata s' = gldata s2)
    as (s' & G1 & G2 & G3 & G4).
  { destruct out as [|o0 [|o1 [|o2 [|o3 [|o4 out]]]]]; apply Return_coded. }
  exists s'. eexists _, _, _, _. split_and!; [exact G1|exact G2| |by rewrite G4|exact H1|done].
  by apply (frame_trans _ s2).
Qed.

Lemma bound_ctx_fields f c : keys (bound_ctx f c) = keys c /\ answers (bound_ctx f c) = answers c /\
  reports (bound_ctx f c) = reports c /\ Method (bound_ctx f c) = Method c /\ RequestURI (bound_ctx f c) = RequestURI c /\
  gldata (bound_ctx f c) = gldata c.
Proof. unfold bound_ctx, write_status. destruct (bind_fails f c), (sent c); done. Qed.

Lemma wrapped_coded f c : quiet f -> flags_ok (gldata c) ->
  exists r c', wrapped f c = (Ret tt, c') /\ answer_for f c r /\ coded r c' /\ frame (bound_ctx f c) c' /\ flags_ok (gldata c').
Proof.
  intros Hq Hf. destruct (bound_ctx_fields f c) as (_ & _ & _ & _ & _ & Eg).
  assert (forall i d s, flags_ok (gldata s) -> exists r c', (_ ← Set_ kData d; invoke f i) s = (Ret tt, c') /\
    (exists c1 c2 out, Call f i c1 = (Ret out, c2) /\ r = results out) /\ coded r c' /\ frame s c' /\ flags_ok (gldata c')) as Hinv.
  { intros i d s Hs. destruct (invoke_coded f i d s Hq Hs) as (c' & r & c1 & c2 & out & ? & ? & ? & ? & ? & ?).
    exists r, c'. split_and!; try done. by exists c1, c2, out. }
  assert (forall n msg err s, flags_ok (gldata s) -> exists r c', (_ ← Return n msg err None; Set_ kSessionLogLevel (CStr "INFO")) s = (Ret tt, c') /\
    r = mkRet n None msg /\ coded r c' /\ frame s c' /\ flags_ok (gldata c')) as Href.
  { intros n msg err s Hs. destruct (refuse_coded n msg err s) as (c' & ? & ? & ? & E). exists (mkRet n None msg), c'. by rewrite E. }
  assert (keys c !! kDataRaw ≠ None -> bound_ctx f c = c) as Hraw.
  { unfold bound_ctx, bind_fails. by destruct (keys c !! kDataRaw). }
  unfold wrapped, answer_for, input_of, Get, gets, get. unfold mbind at 1 2, M_bind at 1 2.
  destruct (keys c !! kDataRaw) as [v|] eqn:Ek.
  - rewrite Hraw by done. destruct v; try by apply Href.
    destruct (String.eqb b EmptyString); [by apply Hinv|]. destruct (json_Unmarshal b) as [v [err|]], (is_ptr (inType f)); cbn [fst snd];
      (by apply Href) || (by apply Hinv).
  - destruct (String.eqb (Method c) "GET"); rewrite (bind_run _ _ _ _ _ (c_Bind_run f c Ek)); [apply Hinv; by rewrite Eg|].
    destruct (bind_error f (request c)) as [err|]; [apply Href|apply Hinv]; by rewrite Eg.
Qed.

(** A handler that takes its data by value never sees the request: whenever it is called, it is
    with the zero of its type. *)
Theorem value_parameter_blind f c i : is_ptr (inType f) = false -> input_of f c = inl i -> i = Zero.
Proof.
  intros Hp. unfold input_of. rewrite Hp. destruct (keys c !! kDataRaw) as [[]|]; try done.
  - destruct (String.eqb b EmptyString); [by intros [= <-]|done].
  - destruct (String.eqb _ _); [by intros [= <-]|]. destruct (bind_error _ _); [done|by intros [= <-]].
Qed.

(** Where nothing has left a result, [GroupFilter] panics on the missing code: the answer that
    [ParseRet] has prepared for the case, with status 500, is never sent. *)
Theorem no_result_panics next c c1 : next c = (Ret tt, c1) -> keys c1 !! kRet = None -> keys c1 !! kCode = None ->
  exists e c', GroupFilter next c = (Panic e, c') /\ answers c' = answers c1.
Proof.
  intros Hn Hr Hc. unfold GroupFilter, ParseRet, http_status, Get, Set_, gets, modify, panic, mbind, M_bind, mret, M_ret. rewrite Hn. cbn. rewrite Hr.
  destruct (keys c1 !! kErr) as [[]|]; cbn; rewrite ?lookup_insert_ne, Hc by done; by eexists _, _.
Qed.

(** ** The filters around it *)

(** A state in which a handler is given the same. *)
Definition same_input (c c' : ctx) : Prop :=
  frame c c' /\ keys c' !! kDataRaw = keys c !! kDataRaw /\ request c' = request c /\ (flags_ok (gldata c) -> flags_ok (gldata c')).

Lemma same_input_trans c1 c2 c3 : same_input c1 c2 -> same_input c2 c3 -> same_input c1 c3.
Proof.
  intros (H1 & H2 & H3 & H4) (G1 & G2 & G3 & G4). split_and!; [by apply (frame_trans _ c2)|by rewrite G2|by rewrite G3|auto].
Qed.

Lemma input_of_same f c c' : same_input c c' -> input_of f c' = input_of f c /\ bind_fails f c' = bind_fails f c.
Proof. intros ((_ & _ & Hm & _) & Hk & Hr & _). unfold input_of, bind_fails. by rewrite Hk, Hr, Hm. Qed.

Lemma same_Set k v c : k ≠ kDataRaw -> same_input c (set_keys (<[k := v]> (keys c)) c).
Proof. intros Hk. split_and!; [done| |done|done]. cbn. by rewrite lookup_insert_ne. Qed.

Lemma same_gl k v c : k ≠ "glHideData"%string -> k ≠ "glHideRet"%string -> same_input c (set_gl (insert k v <$> gldata c) c).
Proof.
  intros H1 H2. split_and!; [done..|]. intros Hf j w Hj. cbn. destruct (gldata c) as [g|] eqn:E; [|done]. cbn.
  intros Hw. rewrite lookup_insert_ne in Hw by (intros ->; naive_solver). unfold flags_ok in Hf. by apply (Hf j).
Qed.

Lemma same_ticks n c : same_input c (set_ticks n c).
Proof. done. Qed.

Lemma trace_id_same c : exists c', trace_id c = (Ret tt, c') /\ same_input c c'.
Proof.
  unfold trace_id, get, gl_Set, Set_, modify, mbind, M_bind. destruct (negb _); [by eexists; split; [done|apply same_gl]|].
  destruct (negb _); [by eexists; split; [done|apply same_gl]|].
  eexists. split; [done|]. eapply same_input_trans; [by apply (same_Set kTraceID)|by apply same_gl].
Qed.

Lemma hidden_ok k c : k = "glHideData"%string \/ k = "glHideRet"%string -> flags_ok (gldata c) -> exists b, hidden k c = (Ret b, c).
Proof.
  intros Hk Hf. unfold hidden, gl_Get, gets, mbind, M_bind. destruct (gl_value (gldata c) k) as [v|] eqn:E; [|by exists false].
  destruct (Hf k v Hk E) as [b ->]. by exists b.
Qed.

Lemma shown_ok c : flags_ok (gldata c) -> (exists d, shown_data c = (Ret d, c)) /\ exists d, shown_ret c = (Ret d, c).
Proof.
  intros Hf. destruct (hidden_ok "glHideData" c) as [b1 H1], (hidden_ok "glHideRet" c) as [b2 H2]; [auto..|].
  unfold shown_data, shown_ret, Get, gets, mbind, M_bind. rewrite H1, H2. split; [|destruct b2; by eexists].
  destruct b1; [by eexists|]. destruct (keys c !! kData); by eexists.
Qed.

(** What [Logger] reports of an answer. *)
Definition logged_as (pk method path : string) (status : Z) (l : list report) : Prop :=
  exists costDu err data ret, l = [PcCost (pk +:+ ",uri=path,path=" +:+ path) costDu; PcCost pk costDu] ++
    (if status =? 200 then [] else [PcIncr (pk +:+ ",httpcode=" +:+ itoa status) 1]) ++
    [Session (100 <? Z.quot costDu Millisecond) pk method path status (Z.quot costDu Millisecond) err data ret].

Lemma Logger_logs sprint pk f c : quiet f -> flags_ok (gldata c) ->
  exists r l c', Logger sprint pk (wrapped f) c = (Ret tt, c') /\ answer_for f c r /\ coded r c' /\ answers c' = answers c /\
    sent c' = sent (bound_ctx f c) /\ RequestURI c' = RequestURI c /\ reports c' = reports c ++ l /\ logged_as pk (Method c) (path_of (RequestURI c)) (code r) l.
Proof.
  intros Hq Hf. unfold Logger, time_Now, gl_Set, modify, get. unfold mbind at 1 2, M_bind at 1 2.
  set (c1 := set_gl _ _). assert (same_input c c1) as S1.
  { eapply same_input_trans; [apply (same_ticks (S (ticks c)))|by apply same_gl]. }
  destruct (trace_id_same c1) as (c2 & Ht & S2). unfold mbind at 1, M_bind at 1. rewrite Ht.
  unfold Set_, modify. unfold mbind at 1 2 3, M_bind at 1 2 3. set (c3 := set_gl _ _).
  assert (same_input c c3) as S3.
  { eapply same_input_trans; [exact S1|]. eapply same_input_trans; [exact S2|].
    eapply same_input_trans; [by apply (same_Set kRemoteIP)|by apply same_gl]. }
  destruct (wrapped_coded f c3 Hq) as (r & c4 & Hw & Ha & Hc & Hfr & Hg); [by apply S3|].
  unfold mbind at 1 2 3 4 5, M_bind at 1 2 3 4 5. rewrite Hw. unfold tell, modify.
  set (c5 := set_reports _ _). destruct (shown_ok c5 Hg) as [[d1 H1] [d2 H2]].
  unfold mbind at 1 2, M_bind at 1 2. rewrite H1, H2. unfold http_status, Get, gets.
  destruct (input_of_same f _ _ S3) as [Hin Hbf]. destruct Hc as [Hcr Hcc]. destruct Hfr as (F1 & F2 & F3 & F4 & F5). destruct S3 as ((G1 & G2 & G3 & G4 & G5) & GK & GR & _).
  destruct (bound_ctx_fields f c3) as (_ & B1 & B2 & B3 & B4 & _). rewrite B1 in F1. rewrite B2 in F2. rewrite B3 in F3. rewrite B4 in F4.
  assert (sent c4 = sent (bound_ctx f c)) as Hsent.
  { rewrite F5. unfold bound_ctx, write_status. rewrite Hbf. destruct (bind_fails f c); [|congruence]. rewrite G5. by destruct (sent c) eqn:E; cbn; rewrite ?E, ?G5. }
  assert (forall i, keys c5 !! i = keys c4 !! i) as Hk by done.
  unfold mbind, M_bind. rewrite Hk, Hcc. cbn [mret M_ret].
  set (cost := now (ticks c4) - now (ticks c)).
  assert (forall st l, reports st = reports c4 ++ l -> reports st = reports c ++ l) as Hrep by by intros ? ? ->; rewrite F2, G2.
  exists r, ([PcCost (pk +:+ ",uri=path,path=" +:+ path_of (RequestURI c)) cost; PcCost pk cost] ++
    (if code r =? 200 then [] else [PcIncr (pk +:+ ",httpcode=" +:+ itoa (code r)) 1]) ++
    [Session (100 <? Z.quot cost Millisecond) pk (Method c) (path_of (RequestURI c)) (code r) (Z.quot cost Millisecond)
      (error_text sprint (keys c4 !! kErr)) d1 d2]).
  destruct (code r =? 200) eqn:E; (eexists; split; [reflexivity|]; split_and!;
    [by unfold answer_for in *; rewrite Hin in Ha|done|by rewrite <- G1, <- F1|exact Hsent|by rewrite <- G4, <- F4| |]).
  1, 3: apply Hrep; cbn; by rewrite <- !app_assoc, F3, F4, G3, G4.
  all: unfold logged_as; rewrite E; by eexists _, _, _, _.
Qed.


(** ** The server *)

(** A route of the engine, and the engine as its routes. *)
Record route : Type := mkRoute { rt_method : string; rt_path : string; rt_handler : M ctx unit }.

Record http_Server : Type := mkServer { Addr : string; Handler : list route; ReadTimeout : Z; WriteTimeout : Z }.

(* [net/dhttp/server.go:20-36] HttpServer *)
Record HttpServer : Type := mkHttpServer {
  srv : option http_Server; g : option (list route); GinLog : bool; UseHttps : bool;
  HttpsCertFile : string; HttpsKeyFile : string; HttpServerShutdownTimeout : Z; HttpServerReadTimeout : Z;
  HttpServerWriteTimeout : Z; HttpServerRunAddr : string; HttpServerRunPort : Z;
  HttpServerInit : list route -> list route + string; HandlerMap : option (gmap string toWrap)
}.

(** What a server is asked to do. *)
Inductive action : Type :=
| ListenAndServe (s : http_Server) | ListenAndServeTLS (s : http_Server) (cert key : string)
| Shutdown (s : http_Server) (timeout : Z).

Definition Second : Z := 1000000000.

Definition with_g (r : list route) (h : HttpServer) : HttpServer :=
  mkHttpServer (srv h) (Some r) (GinLog h) (UseHttps h) (HttpsCertFile h) (HttpsKeyFile h) (HttpServerShutdownTimeout h)
    (HttpServerReadTimeout h) (HttpServerWriteTimeout h) (HttpServerRunAddr h) (HttpServerRunPort h) (HttpServerInit h) (HandlerMap h).
Definition with_srv (s : http_Server) (h : HttpServer) : HttpServer :=
  mkHttpServer (Some s) (g h) (GinLog h) (UseHttps h) (HttpsCertFile h) (HttpsKeyFile h) (HttpServerShutdownTimeout h)
    (HttpServerReadTimeout h) (HttpServerWriteTimeout h) (HttpServerRunAddr h) (HttpServerRunPort h) (HttpServerInit h) (HandlerMap h).
Definition with_map (m : gmap string toWrap) (h : HttpServer) : HttpServer :=
  mkHttpServer (srv h) (g h) (GinLog h) (UseHttps h) (HttpsCertFile h) (HttpsKeyFile h) (HttpServerShutdownTimeout h)
    (HttpServerReadTimeout h) (HttpServerWriteTimeout h) (HttpServerRunAddr h) (HttpServerRunPort h) (HttpServerInit h) (Some m).

(** A new engine has no routes, whatever it logs. *)
(* [net/dhttp/server.go:134-151] HttpServer.initGin *)
Definition initGin (h : HttpServer) : HttpServer * option string :=
  match HttpServerInit h [] with inl r => (with_g r h, None) | inr err => (h, Some err) end.

(* [net/dhttp/server.go:113-132] HttpServer.makeHttpServer *)
Definition makeHttpServer (h : HttpServer) : HttpServer * option string :=
  match initGin h with
  | (h, Some err) => (h, Some err)
  | (h, None) =>
      let port := ":" +:+ itoa (HttpServerRunPort h) in
      (with_srv (mkServer (if String.eqb (HttpServerRunAddr h) EmptyString then port else HttpServerRunAddr h +:+ port)
         (default [] (g h)) (i64 (HttpServerReadTimeout h * Second)) (i64 (HttpServerWriteTimeout h * Second))) h, None)
  end.

Definition with_defaults (h : HttpServer) : HttpServer :=
  let or_default v d := if v <=? 0 then d else v in
  mkHttpServer (srv h) (g h) (GinLog h) (UseHttps h) (HttpsCertFile h) (HttpsKeyFile h)
    (or_default (HttpServerShutdownTimeout h) 20) (or_default (HttpServerReadTimeout h) 10) (or_default (HttpServerWriteTimeout h) 10)
    (HttpServerRunAddr h) (HttpServerRunPort h) (HttpServerInit h) (HandlerMap h).

(* [net/dhttp/server.go:38-80] HttpServer.Start *)
Definition Start (h : HttpServer) : HttpServer * option string * list action :=
  if UseHttps h && (String.eqb (HttpsCertFile h) EmptyString || String.eqb (HttpsKeyFile h) EmptyString)
  then (h, Some "https cert file or key file not set"%string, []) else
  match makeHttpServer (with_defaults h) with
  | (h, Some err) => (h, Some err, [])
  | (h, None) =>
      (h, None, match srv h with
                | Some s => [if UseHttps h then ListenAndServeTLS s (HttpsCertFile h) (HttpsKeyFile h) else ListenAndServe s]
                | None => []
                end)
  end.

(* [net/dhttp/server.go:82-95] HttpServer.Close *)
Definition Close (h : HttpServer) : list action :=
  match srv h with None => [] | Some s => [Shutdown s (i64 (HttpServerShutdownTimeout h * Second))] end.

(* [net/dhttp/server.go:97-102] HttpServer.addHandler *)
Definition addHandler (url : string) (handle : toWrap) (h : HttpServer) : HttpServer :=
  with_map (<[url := handle]> (default ∅ (HandlerMap h))) h.

Fixpoint check_entries (l : list (string * toWrap)) : option string :=
  match l with [] => None | (_, v) :: l => match CheckWrap v with Some err => Some err | None => check_entries l end end.

(** [range] is the order the map is ranged over. *)
(* [net/dhttp/server.go:104-111] HttpServer.CheckHandle *)
Definition CheckHandle (range : gmap string toWrap -> list (string * toWrap)) (h : HttpServer) : option string :=
  check_entries (range (default ∅ (HandlerMap h))).

(** Adding a handler to a group: the group's routes, or the panic of [Wrap]. *)
(* [net/dhttp/server.go:155-159] HttpServer.Handle *)
Definition Handle (httpMethod relativePath : string) (handler : toWrap) (h : HttpServer) (group : list route) :
  HttpServer * (list route + string) :=
  let h := addHandler relativePath handler h in
  (h, match Wrap handler with inl ginHandler => inl (group ++ [mkRoute httpMethod relativePath ginHandler]) | inr e => inr e end).

(* [net/dhttp/server.go:161-165] HttpServer.POST *)
Definition POST : string -> toWrap -> HttpServer -> list route -> HttpServer * (list route + string) := Handle "POST".
(* [net/dhttp/server.go:167-171] HttpServer.GET *)
Definition GET : string -> toWrap -> HttpServer -> list route -> HttpServer * (list route + string) := Handle "GET".
(* [net/dhttp/server.go:173-177] HttpServer.DELETE *)
Definition DELETE : string -> toWrap -> HttpServer -> list route -> HttpServer * (list route + string) := Handle "DELETE".
(* [net/dhttp/server.go:179-183] HttpServer.PATCH *)
Definition PATCH : string -> toWrap -> HttpServer -> list route -> HttpServer * (list route + string) := Handle "DELETE".
(* [net/dhttp/server.go:185-189] HttpServer.PUT *)
Definition PUT : string -> toWrap -> HttpServer -> list route -> HttpServer * (list route + string) := Handle "DELETE".
(* [net/dhttp/server.go:191-195] HttpServer.OPTIONS *)
Definition OPTIONS : string -> toWrap -> HttpServer -> list route -> HttpServer * (list route + string) := Handle "DELETE".

(** The route of a request. *)
Definition find_route (method path : string) (group : list route) : option route :=
  List.find (fun r => String.eqb (rt_method r) method && String.eqb (rt_path r) path) group.

(** A handler registered by [PUT], [PATCH] or [OPTIONS] answers requests of DELETE: no request of the
    method it was registered for finds it. *)
Theorem other_methods_are_DELETE register method path f h group : 
  (register, method) ∈ [(PUT, "PUT"%string); (PATCH, "PATCH"%string); (OPTIONS, "OPTIONS"%string)] ->
  (2 <= length (In f))%nat -> find_route method path group = None -> find_route "DELETE" path group = None ->
  exists h' group', register path (Func f) h group = (h', inl group') /\ find_route method path group' = None /\
    rt_handler <$> find_route "DELETE" path group' = Some (wrapped f).
Proof.
  intros Hr Hin Hm Hd.
  assert (register = Handle "DELETE" /\ String.eqb "DELETE" method = false) as [-> Hne].
  { repeat (apply elem_of_cons in Hr as [[= -> ->]|Hr]; [done|]). by apply elem_of_nil in Hr. }
  unfold Handle, Wrap. destruct (In f) as [|t0 [|t1 l]] eqn:E; [simpl in Hin; lia..|].
  assert (forall m, find_route m path group = None ->
    find_route m path (group ++ [mkRoute "DELETE" path (wrapped f)]) =
      if String.eqb "DELETE" m then Some (mkRoute "DELETE" path (wrapped f)) else None) as Hfind.
  { intros m. unfold find_route. induction group as [|r group IH]; cbn [List.find app rt_method rt_path].
    - by rewrite String.eqb_refl, andb_true_r.
    - destruct (_ && _); [done|]. apply IH; [revert Hm|revert Hd]; cbn; by destruct (_ && _). }
  eexists _, _. split; [done|]. by rewrite (Hfind _ Hm), (Hfind _ Hd), Hne.
Qed.

(** What [CheckHandle] passes has the shape of a handler, in whatever order the map is ranged over. *)
Lemma CheckHandle_all range h : (forall m, range m ≡ₚ map_to_list m) ->
  CheckHandle range h = None <-> map_Forall (fun _ v => CheckWrap v = None) (default ∅ (HandlerMap h)).
Proof.
  intros Hrange. unfold CheckHandle. rewrite map_Forall_to_list, <- Hrange.
  induction (range (default ∅ (HandlerMap h))) as [|[k v] l IH]; cbn [check_entries].
  - split; [by constructor|done].
  - rewrite Forall_cons. cbn. destruct (CheckWrap v); [naive_solver|]. rewrite IH. naive_solver.
Qed.

(** A server that starts listens once, with timeouts that are positive. *)
Lemma Start_listens h h' acts : Start h = (h', None, acts) ->
  0 < HttpServerReadTimeout h' /\ 0 < HttpServerWriteTimeout h' /\ 0 < HttpServerShutdownTimeout h' /\
  exists s, srv h' = Some s /\ acts = [if UseHttps h' then ListenAndServeTLS s (HttpsCertFile h') (HttpsKeyFile h') else ListenAndServe s] /\
    HttpServerInit h [] = inl (Handler s).
Proof.
  unfold Start, makeHttpServer, initGin. destruct (_ && _); [done|]. cbn. destruct (HttpServerInit h []) as [r|e] eqn:E; [|done].
  cbn. intros [= <- <-]. cbn.
  split_and!; [destruct (Z.leb_spec (HttpServerReadTimeout h) 0)|destruct (Z.leb_spec (HttpServerWriteTimeout h) 0)|
    destruct (Z.leb_spec (HttpServerShutdownTimeout h) 0)|by eexists]; lia.
Qed.

End server.

(** ** A concrete server *)

Module Sample.

Definition bind (r : Network.Request) : string * option string :=
  (Network.RemoteAddr r, if String.eqb (Network.RemoteAddr r) "bad" then Some "EOF"%string else None).
Definition bind_copy (r : Network.Request) : option string := None.
Definition unmarshal (s : string) : string * option string := (s, None).
Definition clock (n : nat) : Z := Z.of_nat n * 60000000.
Definition trace (n : nat) : string := "t" +:+ itoa (Z.of_nat n).
Definition sprint (v : cval (V := string)) : string := EmptyString.

Definition request_from (method addr : string) : ctx (V := string) :=
  mkCtx ∅ method "/echo?a=1" EmptyString (Network.mkRequest ∅ addr) [] None None [] 0.

Definition returning (ins outs : list ty) (out : list (outv (V := string))) : func := mkFunc ins outs (fun _ => mret out).

Definition pointers : list ty := [TPtr TStruct; TPtr TStruct].
Definition plain : list ty := [TInt false; TString false; TError; TOther].

Definition echo : func := returning pointers plain [OInt false 404; OString false "none"; OErr None; OVal None].

Definition encodes (_ : cval (V := string)) : bool := true.

(** A code that is no status leaves the one there is. *)
Definition wire_status (s : Z) : Z := if (100 <=? s) && (s <=? 999) then s else 200.

Lemma wire_status_ok s : 100 <= s <= 999 -> wire_status s = s.
Proof. intros [H1%Z.leb_le H2%Z.leb_le]. unfold wire_status. by rewrite H1, H2. Qed.

(** All filters around a handler. *)
Definition serve (f : func) (c : ctx (V := string)) : outcome unit * ctx :=
  GlFilter (StatFilter clock (GroupFilter encodes wire_status (Logger (fun _ => true) clock trace sprint "svc" (wrapped bind bind_copy unmarshal "InvalidUnmarshalError" f)))) c.

Definition answered (f : func) (c : ctx (V := string)) : list (Z * cval) := answers (serve f c).2.

(** A shape that [CheckWrap] passes and no request gets an answer from: a third parameter. *)
Example third_parameter_panics :
  let f := returning [TPtr TStruct; TPtr TStruct; TString false] plain [] in
  CheckWrap (Func f) = None /\ (serve f (request_from "POST" "1.2.3.4:5")).1 = Panic "reflect: Call using zero Value argument" /\
  answered f (request_from "POST" "1.2.3.4:5") = [].
Proof. by vm_compute. Qed.

(** One that is always answered with 500: a fifth result. *)
Example fifth_result_refused :
  let f := returning pointers (plain ++ [TOther]) [OInt false 200; OString false "ok"; OErr None; OVal None; OVal None] in
  CheckWrap (Func f) = None /\ answered f (request_from "POST" "1.2.3.4:5") = [(500, CRet (mkRet 500 None "ret not 4!"))].
Proof. by vm_compute. Qed.

(** A code of a named integer type becomes 0. *)
Example named_code_lost :
  let f := returning pointers [TInt true; TString false; TError; TOther] [OInt true 200; OString false "ok"; OErr None; OVal None] in
  CheckWrap (Func f) = None /\ answered f (request_from "POST" "1.2.3.4:5") = [(0, CRet (mkRet 0 (Some (OVal None)) "ok"))].
Proof. by vm_compute. Qed.

(** A GET whose query does not bind calls the handler all the same, and its answer goes out under the status
    400; a POST is refused. *)
Example bad_get_called :
  let get := (serve echo (request_from "GET" "bad")).2 in
  answers get = [(404, CRet (mkRet 404 (Some (OVal None)) "none"))] /\ sent get = Some 400 /\
  answered echo (request_from "POST" "bad") = [(400, CRet (mkRet 400 None "data not valid"))] /\
  sent (serve echo (request_from "POST" "bad")).2 = Some 400.
Proof. by vm_compute. Qed.

Lemma echo_quiet : quiet echo.
Proof. split; [done|]. intros i c Hf. by eexists _, c. Qed.


Definition by_value : func := returning [TPtr TStruct; TStruct] plain [].

Lemma value_parameter_blind_witness :
  is_ptr (inType by_value) = false /\ input_of bind bind_copy unmarshal by_value (request_from "POST" "x") = inl Zero /\
  Zero (V := string) = Zero.
Proof.
  assert (input_of bind bind_copy unmarshal by_value (request_from "POST" "x") = inl Zero) as H by done.
  split_and!; [done..|]. exact (value_parameter_blind bind bind_copy unmarshal by_value _ Zero eq_refl H).
Defined.

Lemma no_result_panics_witness : keys (request_from "GET" "x") !! kRet = None /\
  exists e c', GroupFilter encodes wire_status (mret tt) (request_from "GET" "x") = (Panic e, c') /\ answers c' = [].
Proof. split; [done|]. by apply (no_result_panics encodes wire_status (mret tt) _ (request_from "GET" "x")). Defined.

Definition blank_server : HttpServer (V := string) :=
  mkHttpServer None None false false EmptyString EmptyString 0 0 0 EmptyString 80 (fun r => inl r) None.

Lemma other_methods_are_DELETE_witness :
  (2 <= length (In echo))%nat /\
  exists h' group', PUT bind bind_copy unmarshal "InvalidUnmarshalError" "/a" (Func echo) blank_server [] = (h', inl group') /\
    find_route "PUT" "/a" group' = None /\
    rt_handler <$> find_route "DELETE" "/a" group' = Some (wrapped bind bind_copy unmarshal "InvalidUnmarshalError" echo).
Proof.
  split; [simpl; lia|]. apply (other_methods_are_DELETE bind bind_copy unmarshal "InvalidUnmarshalError" _ "PUT" "/a" echo blank_server []);
    [by left|simpl; lia|done|done].
Defined.

End Sample.

End DhttpServer.
