(* ===== verification/DhttpClient.v ===== *)
(** * The HTTP client ([net/dhttp/client.go])

    A request is put together by chained calls on an [HttpClient], made by
    [MakeRequest] and sent, again while its status asks for it, by [EndBytes].

    An object's maps and slices are fields of its record: the methods never share
    them, and [Clone] copies them.  The [http.Client] and the [http.Transport] are
    shared by clones, and live in a store.  Parameters of the model: JSON, the
    parsing of URLs, the text of floating point numbers, files, and the network.
    A map is ranged over in an order of its own ([RangeOrder]); where a request is
    made, which happens again for every attempt, each loop draws a new order and each
    multipart body a new boundary.  The dumps and the curl command written in debug
    mode are left out: they only log. *)

From S2P Require Import Prelude GoStd GoStrings GoUrl Utls Gl.
Import GoStd GoStrings GoUrl.

Module DhttpClient.

(** ** Data *)

(** A value of an [interface{}], floats as their bits. *)
Inductive Value : Type :=
| VNil | VString (s : string) | VBool (b : bool) | VNumber (s : string) | VInt (z : Z)
| VFloat64 (bits : Z) | VFloat32 (bits : Z)
| VStrings (l : list string) | VInts (l : list Z) | VBools (l : list bool)
| VFloat64s (l : list Z) | VFloat32s (l : list Z)
| VSlice (l : list Value) | VObject (l : list (string * Value)) | VOther.

(* [net/dhttp/client.go:908-912] File *)
Record File : Type := mkFile { Filename : string; Fieldname : string; FData : string }.

Record Cookie : Type := mkCookie { CName : string; CValue : string }.

(* [net/dhttp/client.go:82-88] HttpClientRetryable *)
Record HttpClientRetryable : Type := mkRetryable {
  RetryableStatus : list Z; RetryTime : Z; RetryCount : Z; Attempt : Z; Enable : bool
}.

(** [Client] and [Transport] are the places of the two shared objects. *)
(* [net/dhttp/client.go:91-114] HttpClient *)
Record HttpClient : Type := mkHttpClient {
  Url : string;
  Method : string;
  Header : Values;
  TargetType : string;
  ForceType : string;
  Data : gmap string Value;
  SliceData : list Value;
  FormData : Values;
  QueryData : Values;
  FileData : list File;
  BounceToRawString : bool;
  RawString : string;
  Client : nat;
  Transport : nat;
  Cookies : list Cookie;
  Errors : list string;
  BasicAuth : string * string;
  Debug : bool;
  CurlCommand : bool;
  Retryable : HttpClientRetryable;
  DoNotClearHttpClient : bool;
  isClone : bool
}.

Definition with_Url (v : string) (d : HttpClient) : HttpClient :=
    mkHttpClient v (Method d) (Header d) (TargetType d) (ForceType d) (Data d) (SliceData d) (FormData d) (QueryData
    d) (FileData d) (BounceToRawString d) (RawString d) (Client d) (Transport d) (Cookies d) (Errors d) (BasicAuth d)
    (Debug d) (CurlCommand d) (Retryable d) (DoNotClearHttpClient d) (isClone d).
Definition with_Method (v : string) (d : HttpClient) : HttpClient :=
    mkHttpClient (Url d) v (Header d) (TargetType d) (ForceType d) (Data d) (SliceData d) (FormData d) (QueryData d)
    (FileData d) (BounceToRawString d) (RawString d) (Client d) (Transport d) (Cookies d) (Errors d) (BasicAuth d)
    (Debug d) (CurlCommand d) (Retryable d) (DoNotClearHttpClient d) (isClone d).
Definition with_Header (v : Values) (d : HttpClient) : HttpClient :=
    mkHttpClient (Url d) (Method d) v (TargetType d) (ForceType d) (Data d) (SliceData d) (FormData d) (QueryData d)
    (FileData d) (BounceToRawString d) (RawString d) (Client d) (Transport d) (Cookies d) (Errors d) (BasicAuth d)
    (Debug d) (CurlCommand d) (Retryable d) (DoNotClearHttpClient d) (isClone d).
Definition with_TargetType (v : string) (d : HttpClient) : HttpClient :=
    mkHttpClient (Url d) (Method d) (Header d) v (ForceType d) (Data d) (SliceData d) (FormData d) (QueryData d)
    (FileData d) (BounceToRawString d) (RawString d) (Client d) (Transport d) (Cookies d) (Errors d) (BasicAuth d)
    (Debug d) (CurlCommand d) (Retryable d) (DoNotClearHttpClient d) (isClone d).
Definition with_ForceType (v : string) (d : HttpClient) : HttpClient :=
    mkHttpClient (Url d) (Method d) (Header d) (TargetType d) v (Data d) (SliceData d) (FormData d) (QueryData d)
    (FileData d) (BounceToRawString d) (RawString d) (Client d) (Transport d) (Cookies d) (Errors d) (BasicAuth d)
    (Debug d) (CurlCommand d) (Retryable d) (DoNotClearHttpClient d) (isClone d).
Definition with_Data (v : gmap string Value) (d : HttpClient) : HttpClient :=
    mkHttpClient (Url d) (Method d) (Header d) (TargetType d) (ForceType d) v (SliceData d) (FormData d) (QueryData d)
    (FileData d) (BounceToRawString d) (RawString d) (Client d) (Transport d) (Cookies d) (Errors d) (BasicAuth d)
    (Debug d) (CurlCommand d) (Retryable d) (DoNotClearHttpClient d) (isClone d).
Definition with_SliceData (v : list Value) (d : HttpClient) : HttpClient :=
    mkHttpClient (Url d) (Method d) (Header d) (TargetType d) (ForceType d) (Data d) v (FormData d) (QueryData d)
    (FileData d) (BounceToRawString d) (RawString d) (Client d) (Transport d) (Cookies d) (Errors d) (BasicAuth d)
    (Debug d) (CurlCommand d) (Retryable d) (DoNotClearHttpClient d) (isClone d).
Definition with_QueryData (v : Values) (d : HttpClient) : HttpClient :=
    mkHttpClient (Url d) (Method d) (Header d) (TargetType d) (ForceType d) (Data d) (SliceData d) (FormData d) v
    (FileData d) (BounceToRawString d) (RawString d) (Client d) (Transport d) (Cookies d) (Errors d) (BasicAuth d)
    (Debug d) (CurlCommand d) (Retryable d) (DoNotClearHttpClient d) (isClone d).
Definition with_FileData (v : list File) (d : HttpClient) : HttpClient :=
    mkHttpClient (Url d) (Method d) (Header d) (TargetType d) (ForceType d) (Data d) (SliceData d) (FormData d)
    (QueryData d) v (BounceToRawString d) (RawString d) (Client d) (Transport d) (Cookies d) (Errors d) (BasicAuth d)
    (Debug d) (CurlCommand d) (Retryable d) (DoNotClearHttpClient d) (isClone d).
Definition with_BounceToRawString (v : bool) (d : HttpClient) : HttpClient :=
    mkHttpClient (Url d) (Method d) (Header d) (TargetType d) (ForceType d) (Data d) (SliceData d) (FormData d)
    (QueryData d) (FileData d) v (RawString d) (Client d) (Transport d) (Cookies d) (Errors d) (BasicAuth d) (Debug d)
    (CurlCommand d) (Retryable d) (DoNotClearHttpClient d) (isClone d).
Definition with_RawString (v : string) (d : HttpClient) : HttpClient :=
    mkHttpClient (Url d) (Method d) (Header d) (TargetType d) (ForceType d) (Data d) (SliceData d) (FormData d)
    (QueryData d) (FileData d) (BounceToRawString d) v (Client d) (Transport d) (Cookies d) (Errors d) (BasicAuth d)
    (Debug d) (CurlCommand d) (Retryable d) (DoNotClearHttpClient d) (isClone d).
Definition with_Cookies (v : list Cookie) (d : HttpClient) : HttpClient :=
    mkHttpClient (Url d) (Method d) (Header d) (TargetType d) (ForceType d) (Data d) (SliceData d) (FormData d)
    (QueryData d) (FileData d) (BounceToRawString d) (RawString d) (Client d) (Transport d) v (Errors d) (BasicAuth d)
    (Debug d) (CurlCommand d) (Retryable d) (DoNotClearHttpClient d) (isClone d).
Definition with_Errors (v : list string) (d : HttpClient) : HttpClient :=
    mkHttpClient (Url d) (Method d) (Header d) (TargetType d) (ForceType d) (Data d) (SliceData d) (FormData d)
    (QueryData d) (FileData d) (BounceToRawString d) (RawString d) (Client d) (Transport d) (Cookies d) v (BasicAuth
    d) (Debug d) (CurlCommand d) (Retryable d) (DoNotClearHttpClient d) (isClone d).
Definition with_BasicAuth (v : string * string) (d : HttpClient) : HttpClient :=
    mkHttpClient (Url d) (Method d) (Header d) (TargetType d) (ForceType d) (Data d) (SliceData d) (FormData d)
    (QueryData d) (FileData d) (BounceToRawString d) (RawString d) (Client d) (Transport d) (Cookies d) (Errors d) v
    (Debug d) (CurlCommand d) (Retryable d) (DoNotClearHttpClient d) (isClone d).
Definition with_Debug (v : bool) (d : HttpClient) : HttpClient :=
    mkHttpClient (Url d) (Method d) (Header d) (TargetType d) (ForceType d) (Data d) (SliceData d) (FormData d)
    (QueryData d) (FileData d) (BounceToRawString d) (RawString d) (Client d) (Transport d) (Cookies d) (Errors d)
    (BasicAuth d) v (CurlCommand d) (Retryable d) (DoNotClearHttpClient d) (isClone d).
Definition with_CurlCommand (v : bool) (d : HttpClient) : HttpClient :=
    mkHttpClient (Url d) (Method d) (Header d) (TargetType d) (ForceType d) (Data d) (SliceData d) (FormData d)
    (QueryData d) (FileData d) (BounceToRawString d) (RawString d) (Client d) (Transport d) (Cookies d) (Errors d)
    (BasicAuth d) (Debug d) v (Retryable d) (DoNotClearHttpClient d) (isClone d).
Definition with_Retryable (v : HttpClientRetryable) (d : HttpClient) : HttpClient :=
    mkHttpClient (Url d) (Method d) (Header d) (TargetType d) (ForceType d) (Data d) (SliceData d) (FormData d)
    (QueryData d) (FileData d) (BounceToRawString d) (RawString d) (Client d) (Transport d) (Cookies d) (Errors d)
    (BasicAuth d) (Debug d) (CurlCommand d) v (DoNotClearHttpClient d) (isClone d).
Definition with_DoNotClearHttpClient (v : bool) (d : HttpClient) : HttpClient :=
    mkHttpClient (Url d) (Method d) (Header d) (TargetType d) (ForceType d) (Data d) (SliceData d) (FormData d)
    (QueryData d) (FileData d) (BounceToRawString d) (RawString d) (Client d) (Transport d) (Cookies d) (Errors d)
    (BasicAuth d) (Debug d) (CurlCommand d) (Retryable d) v (isClone d).

(** The shared objects: policies, TLS configurations and cookie jars are pointers. *)
Record http_Client : Type := mkClient {
  c_Jar : option positive; c_Timeout : Z; c_CheckRedirect : option positive; c_Transport : option nat
}.
Record http_Transport : Type := mkTransport {
  t_DisableKeepAlives : bool; t_Proxy : option string; t_TLS : option positive
}.

(** ** Requests and responses *)

Inductive part : Type :=
| FormField (name value : string)
| JsonPart (disposition content : string)
| FormFile (field file content : string).

Inductive Body : Type := NoBody | Content (s : string) | Multipart (boundary : string) (parts : list part).

(** A parsed URL: what is not its path or its query is kept as it is. *)
Record URL : Type := mkURL { u_rest : string; u_Path : string; u_RawQuery : string }.

Record Request : Type := mkRequest {
  r_Method : string; r_URL : URL; r_Body : Body; r_Header : Values; r_Host : option string
}.

Record Response : Type := mkResponse { StatusCode : Z; p_Header : Values }.

(** What a call reports of itself: to [pc], to the data of the goroutine, and to
    the callback. *)
Inductive report : Type :=
| PcCost (key : string) (cost : Z) | PcCostFail (key : string) (n : Z)
| GlIncr (key : string) (n : Z) | GlIncrCost (key : string) (cost : Z)
| Callback (resp : Response) (body : string) (err : option string).

Definition type_list : list (string * string) := [
  ("json", "application/json"); ("xml", "application/xml");
  ("form", "application/x-www-form-urlencoded"); ("form-data", "application/x-www-form-urlencoded");
  ("urlencoded", "application/x-www-form-urlencoded"); ("html", "text/html"); ("text", "text/plain");
  ("multipart", "multipart/form-data")].

(* [net/dhttp/client.go:528-537] Types *)
Definition Types : gmap string string := list_to_map type_list.

(* [net/dhttp/const.go:19] TraceID *)
Definition TraceID : string := "trace_id".
(* [net/dhttp/const.go:20] GdToken *)
Definition GdToken : string := "gd_token".

Definition quote : string := String (ascii_of_nat 34) EmptyString.

(** ** The methods that only set fields *)

(* [net/dhttp/client.go:310-328] HttpClient.ClearHttpClient *)
Definition ClearHttpClient (d : HttpClient) : HttpClient :=
  if DoNotClearHttpClient d then d else
  mkHttpClient EmptyString EmptyString ∅ "json" EmptyString ∅ [] ∅ ∅ [] false EmptyString (Client d) (Transport d)
    [] [] (BasicAuth d) (Debug d) (CurlCommand d) (Retryable d) (DoNotClearHttpClient d) (isClone d).

(** The seven methods and the default branch of [CustomMethod] do the same. *)
Definition start (method targetUrl : string) (d : HttpClient) : HttpClient :=
  with_Errors [] (with_Url targetUrl (with_Method method (ClearHttpClient d))).

(* [net/dhttp/client.go:362-368] HttpClient.Get *)
Definition Get : string -> HttpClient -> HttpClient := start "GET".
(* [net/dhttp/client.go:370-376] HttpClient.Post *)
Definition Post : string -> HttpClient -> HttpClient := start "POST".
(* [net/dhttp/client.go:378-384] HttpClient.Head *)
Definition Head : string -> HttpClient -> HttpClient := start "HEAD".
(* [net/dhttp/client.go:386-392] HttpClient.Put *)
Definition Put : string -> HttpClient -> HttpClient := start "PUT".
(* [net/dhttp/client.go:394-400] HttpClient.Delete *)
Definition Delete : string -> HttpClient -> HttpClient := start "DELETE".
(* [net/dhttp/client.go:402-408] HttpClient.Patch *)
Definition Patch : string -> HttpClient -> HttpClient := start "PATCH".
(* [net/dhttp/client.go:410-416] HttpClient.Options *)
Definition Options : string -> HttpClient -> HttpClient := start "OPTIONS".

(* [net/dhttp/client.go:337-360] HttpClient.CustomMethod *)
Definition CustomMethod (method targetUrl : string) (d : HttpClient) : HttpClient :=
  if String.eqb method "POST" then Post targetUrl d
  else if String.eqb method "GET" then Get targetUrl d
  else if String.eqb method "HEAD" then Head targetUrl d
  else if String.eqb method "PUT" then Put targetUrl d
  else if String.eqb method "DELETE" then Delete targetUrl d
  else if String.eqb method "PATCH" then Patch targetUrl d
  else if String.eqb method "OPTIONS" then Options targetUrl d
  else with_Errors [] (with_Url targetUrl (with_Method method (ClearHttpClient d))).

(* [net/dhttp/client.go:292-295] HttpClient.SetDebug *)
Definition SetDebug (enable : bool) (d : HttpClient) : HttpClient := with_Debug enable d.
(* [net/dhttp/client.go:298-301] HttpClient.SetCurlCommand *)
Definition SetCurlCommand (enable : bool) (d : HttpClient) : HttpClient := with_CurlCommand enable d.
(* [net/dhttp/client.go:304-307] HttpClient.SetDoNotClearHttpClient *)
Definition SetDoNotClearHttpClient (enable : bool) (d : HttpClient) : HttpClient := with_DoNotClearHttpClient enable d.

(* [net/dhttp/client.go:426-429] HttpClient.SetHeader *)
Definition SetHeader (param value : string) (d : HttpClient) : HttpClient :=
  with_Header (header_Set param value (Header d)) d.
(* [net/dhttp/client.go:439-442] HttpClient.AppendHeader *)
Definition AppendHeader (param value : string) (d : HttpClient) : HttpClient :=
  with_Header (header_Add param value (Header d)) d.

Definition add_error (e : string) (d : HttpClient) : HttpClient := with_Errors (Errors d ++ [e]) d.

(* [net/dhttp/client.go:511-514] HttpClient.SetBasicAuth *)
Definition SetBasicAuth (username password : string) (d : HttpClient) : HttpClient := with_BasicAuth (username, password) d.
(* [net/dhttp/client.go:517-520] HttpClient.AddCookie *)
Definition AddCookie (c : Cookie) (d : HttpClient) : HttpClient := with_Cookies (Cookies d ++ [c]) d.
(* [net/dhttp/client.go:523-526] HttpClient.AddCookies *)
Definition AddCookies (cs : list Cookie) (d : HttpClient) : HttpClient := with_Cookies (Cookies d ++ cs) d.
(* [net/dhttp/client.go:673-676] HttpClient.Param *)
Definition Param (key value : string) (d : HttpClient) : HttpClient := with_QueryData (add key value (QueryData d)) d.

(* [net/dhttp/client.go:558-565] HttpClient.Type *)
Definition Type_ (typeStr : string) (d : HttpClient) : HttpClient :=
  match Types !! typeStr with
  | Some _ => with_ForceType typeStr d
  | None => add_error ("Type func: incorrect type " +:+ quote +:+ typeStr +:+ quote) d
  end.

(** [StatusText] is of the standard library. *)
(* [net/dhttp/client.go:480-502] HttpClient.Retry *)
Definition Retry (StatusText : Z -> string) (retryCount retryTime : Z) (statusCode : list Z) (d : HttpClient) : HttpClient :=
  let d := foldl (fun d code =>
    if String.eqb (StatusText code) EmptyString
    then add_error ("StatusCode '" +:+ itoa code +:+ "' doesn't exist in http package") d else d) d statusCode in
  with_Retryable (mkRetryable statusCode retryTime retryCount 0 true) d.

(* [net/dhttp/client.go:245-252] copyRetryable *)
Definition copyRetryable (r : HttpClientRetryable) : HttpClientRetryable := r.

(** The copies of maps and slices are the maps and slices again. *)
(* [net/dhttp/client.go:263-289] HttpClient.Clone *)
Definition Clone (d : HttpClient) : HttpClient :=
  mkHttpClient (Url d) (Method d) (Header d) (TargetType d) (ForceType d) (Data d) (SliceData d) (FormData d)
    (QueryData d) (FileData d) (BounceToRawString d) (RawString d) (Client d) (Transport d) (Cookies d) (Errors d)
    (BasicAuth d) (Debug d) (CurlCommand d) (copyRetryable (Retryable d)) true true.

(** ** What is not of this file *)

(** JSON: [json_decode] reads the first value of a text with numbers kept as text;
    [json_strings] is [Unmarshal] into a [map[string]string], [json_object] into a
    [map[string]interface{}], whose numbers are floats. *)
Class Json := {
  json_decode : string -> option Value;
  json_Marshal : Value -> string + string;
  json_strings : string -> gmap string string + string;
  json_object : string -> gmap string Value + string;
  json_numbers : string -> gmap string Value + string;
  json_Unmarshal : string -> option string
}.

Class Std := {
  FormatFloat64 : Z -> string;
  FormatFloat32 : Z -> string;
  float64_of_32 : Z -> Z;
  url_Parse_error : string -> option string;
  ParseQuery_error : string -> string;
  ParseRequestURI : string -> option string;
  NewRequest : string -> string -> URL + string;
  sprint_s : Gl.value -> string;
  cookie_text : Cookie -> string;
  ReadFile : string -> string + string;
  filepath_Abs : string -> string + string;
  filepath_Base : string -> string;
  TrimSpace : string -> string
}.

(** The outside world: the clock in nanoseconds, sleeping, the order of the next loop
    over a map, the random boundary of a [multipart.Writer], and [http.Client.Do],
    which gives an error, or a response with its body or the error of reading it. *)
Class Net (N : Type) := {
  time_Now : N -> Z * N;
  map_order : N -> RangeOrder * N;
  random_boundary : N -> string * N;
  time_Sleep : Z -> N -> N;
  Do : http_Client -> option http_Transport -> Request -> N -> (Response * (string + string) + string) * N
}.

Section client.
Context {N : Type} {network : Net N} {std : Std} {json : Json} {order : RangeOrder}.

(** The object, the stores of the shared objects, the data of the goroutine, and
    what was sent with its outcome and reported. *)
Record state : Type := mkState {
  self : HttpClient; clients : gmap nat http_Client; transports : gmap nat http_Transport;
  DisableTransportSwap : bool; gldata : option Gl.glmap; net : N;
  sent : list (Request * (Z + string)); reports : list report
}.

Definition set_self (d : HttpClient) (st : state) : state :=
  mkState d (clients st) (transports st) (DisableTransportSwap st) (gldata st) (net st) (sent st) (reports st).
Definition set_clients (c : gmap nat http_Client) (st : state) : state :=
  mkState (self st) c (transports st) (DisableTransportSwap st) (gldata st) (net st) (sent st) (reports st).
Definition set_transports (t : gmap nat http_Transport) (st : state) : state :=
  mkState (self st) (clients st) t (DisableTransportSwap st) (gldata st) (net st) (sent st) (reports st).
Definition set_net (n : N) (st : state) : state :=
  mkState (self st) (clients st) (transports st) (DisableTransportSwap st) (gldata st) n (sent st) (reports st).
Definition set_sent (l : list (Request * (Z + string))) (st : state) : state :=
  mkState (self st) (clients st) (transports st) (DisableTransportSwap st) (gldata st) (net st) l (reports st).
Definition set_reports (l : list report) (st : state) : state :=
  mkState (self st) (clients st) (transports st) (DisableTransportSwap st) (gldata st) (net st) (sent st) l.

Definition upd (f : HttpClient -> HttpClient) : M state unit := modify (fun st => set_self (f (self st)) st).
Definition Now : M state Z := fun st => let '(t, n) := time_Now (net st) in (Ret t, set_net n st).
Definition Order : M state RangeOrder := fun st => let '(o, n) := map_order (net st) in (Ret o, set_net n st).
Definition Boundary : M state string := fun st => let '(b, n) := random_boundary (net st) in (Ret b, set_net n st).
Definition Sleep (d : Z) : M state unit := modify (fun st => set_net (time_Sleep d (net st)) st).
Definition tell (l : list report) : M state unit := modify (fun st => set_reports (reports st ++ l) st).
Definition gl_value (g : option Gl.glmap) (k : string) : option Gl.value := g ≫= (fun m => m !! Gl.KStr k).
#[local] Arguments gl_value : simpl never.
Definition gl_Get (k : string) : M state (option Gl.value) :=
  gets (fun st => gl_value (gldata st) k).

(** The shared [http.Client] of the object; [New] gives every object one. *)
Definition client_of (st : state) : http_Client := default (mkClient None 0 None None) (clients st !! Client (self st)).
Definition transport_of (st : state) : http_Transport :=
  default (mkTransport false None None) (transports st !! Transport (self st)).
Definition on_client (f : http_Client -> http_Client) : M state unit :=
  modify (fun st => set_clients (<[Client (self st) := f (client_of st)]> (clients st)) st).
Definition on_transport (f : http_Transport -> http_Transport) : M state unit :=
  modify (fun st => set_transports (<[Transport (self st) := f (transport_of st)]> (transports st)) st).

(** [debug] is the environment's [HttpClient_DEBUG]; the new places are not in use. *)
(* [net/dhttp/client.go:119-148] New *)
Definition New (jar : option positive) (debug : bool) (cl tr : nat) (st : state) : state :=
  set_self (mkHttpClient EmptyString EmptyString ∅ "json" EmptyString ∅ [] ∅ ∅ [] false EmptyString cl tr [] []
    (EmptyString, EmptyString) debug false (mkRetryable [] 0 0 0 false) false false)
  (set_clients (<[cl := mkClient jar 0 None None]> (clients st))
  (set_transports (<[tr := mkTransport true None None]> (transports st)) st)).

(* [net/dhttp/client.go:331-334] HttpClient.Timeout *)
Definition Timeout (timeout : Z) : M state unit :=
  on_client (fun c => mkClient (c_Jar c) timeout (c_CheckRedirect c) (c_Transport c)).

(* [net/dhttp/client.go:685-688] HttpClient.TLSClientConfig *)
Definition TLSClientConfig (config : option positive) : M state unit :=
  on_transport (fun t => mkTransport (t_DisableKeepAlives t) (t_Proxy t) config).

(* [net/dhttp/client.go:706-716] HttpClient.Proxy *)
Definition Proxy (proxyUrl : string) : M state unit :=
  match url_Parse_error proxyUrl with
  | Some err => upd (add_error err)
  | None =>
      let p := if String.eqb proxyUrl EmptyString then None else Some proxyUrl in
      on_transport (fun t => mkTransport (t_DisableKeepAlives t) p (t_TLS t))
  end.

(* [net/dhttp/client.go:724-733] HttpClient.RedirectPolicy *)
Definition RedirectPolicy (policy : positive) : M state unit :=
  on_client (fun c => mkClient (c_Jar c) (c_Timeout c) (Some policy) (c_Transport c)).

(** ** Headers and the query *)

Definition set_headers (m : gmap string string) (d : HttpClient) : HttpClient :=
  foldl (fun d kv => SetHeader kv.1 kv.2 d) d (range m).

(* [net/dhttp/client.go:216-226] HttpClient.setJSONHeaders *)
Definition setJSONHeaders (headers : string) (d : HttpClient) : HttpClient :=
  match json_strings headers with inl val => set_headers val d | inr err => add_error err d end.

(* [net/dhttp/client.go:228-242] HttpClient.setStructHeaders *)
Definition setStructHeaders (headers : Value) (d : HttpClient) : HttpClient :=
  match json_Marshal headers with
  | inr err => add_error err d
  | inl marshalContent => setJSONHeaders marshalContent d
  end.

(** What the methods that take an [interface{}] are given: the kinds they tell
    apart, structures and maps as their JSON values. *)
Inductive content : Type :=
| CString (s : string) | CInt (z : Z) | CFloat64 (bits : Z) | CFloat32 (bits : Z) | CBool (b : bool)
| CStruct (v : Value) | CMap (v : Value) | CSlice (l : list Value) | CPtr (c : content) | COther.

(* [net/dhttp/client.go:460-469] HttpClient.SetHeaders *)
Definition SetHeaders (headers : content) (d : HttpClient) : HttpClient :=
  match headers with CString s => setJSONHeaders s d | CStruct v => setStructHeaders v d | _ => d end.

(** What [queryStruct] adds for a value; [None] if it does not marshal.  No value
    of JSON is a [time.Time]. *)
Definition query_value (v : Value) : option string :=
  match v with
  | VString s => Some s
  | VFloat64 f => Some (FormatFloat64 f)
  | v => match json_Marshal v with inl j => Some j | inr _ => None end
  end.

(* [net/dhttp/client.go:613-643] HttpClient.queryStruct *)
Definition queryStruct (c : Value) (d : HttpClient) : HttpClient :=
  match json_Marshal c with
  | inr err => add_error err d
  | inl marshalContent =>
      match json_object marshalContent with
      | inr err => add_error err d
      | inl val => foldl (fun d kv => match query_value kv.2 with Some q => Param (ToLower kv.1) q d | None => d end) d (range val)
      end
  end.

Definition query_add (l : list (string * list string)) (d : HttpClient) : HttpClient :=
  foldl (fun d kv => foldl (fun d v => Param kv.1 v d) d kv.2) d l.

(* [net/dhttp/client.go:645-664] HttpClient.queryString *)
Definition queryString (s : string) (d : HttpClient) : HttpClient :=
  match json_strings s with
  | inl val => foldl (fun d kv => Param kv.1 kv.2 d) d (range val)
  | inr _ =>
      match ParseQuery s with
      | Some queryData => query_add (range queryData) d
      | None => add_error (ParseQuery_error s) d
      end
  end.

(* [net/dhttp/client.go:600-611] HttpClient.Query *)
Definition Query (c : content) (d : HttpClient) : HttpClient :=
  match c with CString s => queryString s d | CStruct v => queryStruct v d | CMap v => queryStruct v d | _ => d end.

(** ** What is sent *)

(* [net/dhttp/client.go:827-830] HttpClient.SendSlice *)
Definition SendSlice (l : list Value) (d : HttpClient) : HttpClient := with_SliceData (SliceData d ++ l) d.

Definition set_data (l : list (string * Value)) (d : HttpClient) : HttpClient :=
  with_Data (foldl (fun m kv => <[kv.1 := kv.2]> m) (Data d) l) d.

(** The values decoded into a map come with their numbers as text. *)
(* [net/dhttp/client.go:838-854] HttpClient.SendStruct *)
Definition SendStruct (c : Value) (d : HttpClient) : HttpClient :=
  match json_Marshal c with
  | inr err => add_error err d
  | inl marshalContent =>
      match json_numbers marshalContent with
      | inr err => add_error err d
      | inl val => set_data (range val) d
      end
  end.

(** A value of a form: the first of its key as it is, the next ones before the
    strings already there. *)
Definition add_form_value (k v : string) (data : gmap string Value) : gmap string Value :=
  match data !! k with
  | Some (VStrings oldValue) => <[k := VStrings (v :: oldValue)]> data
  | Some (VString oldValue) => <[k := VStrings [v; oldValue]]> data
  | Some _ => <[k := VStrings [v]]> data
  | None => <[k := VString v]> data
  end.

Definition add_form (formData : list (string * list string)) (data : gmap string Value) : gmap string Value :=
  foldl (fun data kv => foldl (fun data v => add_form_value kv.1 v data) data kv.2) data formData.

(* [net/dhttp/client.go:859-906] HttpClient.SendString *)
Definition SendString (s : string) (d : HttpClient) : HttpClient :=
  let d :=
    if BounceToRawString d then d else
    match json_decode s with
    | Some (VObject l) => set_data l d
    | Some (VSlice l) => SendSlice l d
    | Some _ => with_BounceToRawString true d
    | None =>
        match ParseQuery s with
        | Some formData => with_TargetType "form" (with_Data (add_form (range formData) (Data d)) d)
        | None => with_BounceToRawString true d
        end
    end in
  with_RawString (RawString d +:+ s) d.

(* [net/dhttp/client.go:780-809] HttpClient.Send *)
Fixpoint Send (c : content) (d : HttpClient) : HttpClient :=
  match c with
  | CString s => SendString s d
  | CInt z => SendString (itoa z) d
  | CFloat64 f => SendString (FormatFloat64 f) d
  | CFloat32 f => SendString (FormatFloat32 f) d
  | CBool b => SendString (if b then "true" else "false") d
  | CStruct v => SendStruct v d
  | CMap v => SendStruct v d
  | CSlice l => SendSlice l d
  | CPtr c => Send c d
  | COther => d
  end.

(** What [SendFile] is given; an element of a slice that is not a byte is [None]. *)
Inductive file_arg : Type :=
| FPath (path : string) | FSlice (l : list (option ascii)) | FPtr (f : file_arg) | FOsFile (name : string) | FOther.

Fixpoint bytes_of (l : list (option ascii)) : option string :=
  match l with
  | [] => Some EmptyString
  | Some a :: l => t ← bytes_of l; Some (String a t)
  | None :: _ => None
  end.

Definition add_file (f : File) (d : HttpClient) : HttpClient := with_FileData (FileData d ++ [f]) d.

Definition arg_or (args : list string) (i : nat) (default : string) : string :=
  match args !! i with Some a => if String.eqb a EmptyString then default else TrimSpace a | None => default end.

(* [net/dhttp/client.go:961-1041] HttpClient.SendFile *)
Fixpoint SendFile (file : file_arg) (args : list string) : M state unit :=
  let filename := arg_or args 0 EmptyString in
  let fieldname := arg_or args 1 "file" in
  d ← gets self;
  let fieldname := if String.eqb fieldname "file" || String.eqb fieldname EmptyString
                   then "file" +:+ itoa (len (FileData d) + 1) else fieldname in
  let named default := if String.eqb filename EmptyString then default else filename in
  match file with
  | FPath path =>
      match filepath_Abs path with
      | inr err => upd (add_error err)
      | inl pathToFile =>
          match ReadFile path with
          | inr err => upd (add_error err)
          | inl data => upd (add_file (mkFile (named (filepath_Base pathToFile)) fieldname data))
          end
      end
  | FSlice l =>
      match bytes_of l with
      | None => panic "interface conversion"
      | Some data => upd (add_file (mkFile (named "filename") fieldname data))
      end
  | FPtr f =>
      match args with
      | [] => SendFile f []
      | [a] => SendFile f [a]
      | a :: b :: _ => SendFile f [a; b]
      end
  | FOsFile name =>
      match ReadFile name with
      | inr err => upd (add_error err)
      | inl data => upd (add_file (mkFile (named (filepath_Base name)) fieldname data))
      end
  | FOther =>
      upd (add_error "SendFile currently only supports either a string (path/to/file), a slice of bytes (file content itself), or a os.File!")
  end.

(** ** The request *)

Definition show_bool (b : bool) : string := if b then "true" else "false".

(** The texts of one value of the data; [None] where an element is not of the type
    of the first and the assertion panics. *)
Definition texts (v : Value) : option (list string) :=
  match v with
  | VString s => Some [s]
  | VBool b => Some [show_bool b]
  | VNumber s => Some [s]
  | VInt z => Some [itoa z]
  | VFloat64 f => Some [FormatFloat64 f]
  | VFloat32 f => Some [FormatFloat64 (float64_of_32 f)]
  | VStrings l => Some l
  | VInts l => Some (map (fun z => itoa z) l)
  | VBools l => Some (map show_bool l)
  | VFloat64s l => Some (map FormatFloat64 l)
  | VFloat32s l => Some (map (fun f => FormatFloat64 (float64_of_32 f)) l)
  | VSlice (VString _ :: _ as l) => mapM (fun e => match e with VString s => Some s | _ => None end) l
  | VSlice (VBool _ :: _ as l) => mapM (fun e => match e with VBool b => Some (show_bool b) | _ => None end) l
  | VSlice (VNumber _ :: _ as l) => mapM (fun e => match e with VNumber s => Some s | _ => None end) l
  | VSlice _ | VNil | VObject _ | VOther => Some []
  end.

Definition add_all (k : string) (vs : list string) (m : Values) : Values := foldl (fun m v => add k v m) m vs.

Fixpoint change_entries (l : list (string * Value)) (m : Values) : option Values :=
  match l with
  | [] => Some m
  | (k, v) :: l => vs ← texts v; change_entries l (add_all k vs m)
  end.

(* [net/dhttp/client.go:1043-1111] changeMapToURLValues *)
Definition changeMapToURLValues (data : gmap string Value) : M state Values :=
  o ← Order;
  match change_entries (@range o _ data) ∅ with
  | Some m => mret m
  | None => panic "interface conversion"
  end.

Fixpoint escape_quotes (s : string) : string :=
  match s with
  | EmptyString => EmptyString
  | String a s =>
      if Ascii.eqb a "\" || String.eqb (String a EmptyString) quote then String "\" (String a (escape_quotes s))
      else String a (escape_quotes s)
  end.

Definition fieldname_or (k : string) (d : HttpClient) : string :=
  let f := header_Get k (Header d) in if String.eqb f EmptyString then "data" else f.

(** [fmt.Sprintf] of the format, whose verb is a [%d] followed by [hc]. *)
Definition json_disposition (fieldName : string) : string :=
  "form-data; name=" +:+ quote +:+ "%!d(string=" +:+ escape_quotes fieldName +:+ ")hc" +:+ quote.

Definition form_fields (o : RangeOrder) (formData : Values) : list part :=
  concat (map (fun kv => map (FormField kv.1) kv.2) (@range o _ formData)).

(** [FormDataContentType] of a random boundary, which needs no quotes. *)
Definition multipart_type (boundary : string) : string := "multipart/form-data; boundary=" +:+ boundary.

(** A map whose values have no text still makes a body. *)
Definition multipart_of (boundary : string) (d : HttpClient) (parts : list part) : Body * string :=
  match parts with
  | [] => if decide (Data d = ∅) then (NoBody, EmptyString) else (Multipart boundary [], multipart_type boundary)
  | _ => (Multipart boundary parts, multipart_type boundary)
  end.

(** The body with its content type, empty for no body; or an error. *)
Definition multipart_body (d : HttpClient) : M state (Body * string + string) :=
  boundary ← Boundary;
  let raw := if BounceToRawString d then [FormField (fieldname_or "data_fieldname" d) (RawString d)] else [] in
  fields ← (if decide (Data d = ∅) then mret [] else formData ← changeMapToURLValues (Data d); o ← Order; mret (form_fields o formData));
  let files := map (fun f => FormFile (Fieldname f) (Filename f) (FData f)) (FileData d) in
  let make json := multipart_of boundary d (raw ++ fields ++ json ++ files) in
  match SliceData d with
  | [] => mret (inl (make []))
  | l =>
      match json_Marshal (VSlice l) with
      | inr err => mret (inr err)
      | inl contentJson => mret (inl (make [JsonPart (json_disposition (fieldname_or "json_fieldname" d)) contentJson]))
      end
  end.

Definition typed (contentType s : string) : Body * string + string :=
  inl (if String.eqb s EmptyString then (NoBody, EmptyString) else (Content s, contentType)).

(** [json.Marshal] of a map sorts its keys: it is given the map's entries in an order
    that depends on the map alone. *)
Definition make_body (d : HttpClient) : M state (Body * string + string) :=
  let t := TargetType d in
  if String.eqb t "json" then
    mret (inl (
      let marshalled v := match json_Marshal v with inl j => (Content j, "application/json") | inr _ => (NoBody, EmptyString) end in
      if BounceToRawString d then (Content (RawString d), "application/json")
      else if decide (Data d = ∅) then match SliceData d with [] => (NoBody, EmptyString) | l => marshalled (VSlice l) end
      else marshalled (VObject (map_to_list (Data d)))))
  else if String.eqb t "form" || String.eqb t "form-data" || String.eqb t "urlencoded" then
    if BounceToRawString d || negb (bool_decide (SliceData d = [])) then mret (typed "application/x-www-form-urlencoded" (RawString d))
    else formData ← changeMapToURLValues (Data d); mret (typed "application/x-www-form-urlencoded" (Encode formData))
  else if String.eqb t "text" then mret (typed "text/plain" (RawString d))
  else if String.eqb t "xml" then mret (typed "application/xml" (RawString d))
  else if String.eqb t "multipart" then multipart_body d
  else mret (inr ("TargetType '" +:+ t +:+ "' could not be determined")).

(** The headers of the object added to those of the request, and its host. *)
Fixpoint copy_headers (l : list (string * list string)) (h : Values) (host : option string) : option (Values * option string) :=
  match l with
  | [] => Some (h, host)
  | (k, vals) :: l =>
      let h := foldl (fun h v => header_Add k v h) h vals in
      if EqualFold k "Host" then v ← head vals; copy_headers l h (Some v) else copy_headers l h host
  end.

Definition b64 (s : string) : string := String.string_of_list_byte (b64_encode (String.list_byte_of_string s)).

(** [Request.AddCookie] *)
Definition header_cookie (h : Values) (c : Cookie) : Values :=
  let old := header_Get "Cookie" h in
  header_Set "Cookie" (if String.eqb old EmptyString then cookie_text c else old +:+ "; " +:+ cookie_text c) h.

Definition add_query (l : list (string * list string)) (q : Values) : Values :=
  foldl (fun q kv => add_all kv.1 kv.2 q) q l.

(* [net/dhttp/client.go:1330-1493] HttpClient.MakeRequest *)
Definition MakeRequest : M state (Request + string) :=
  d ← gets self;
  if String.eqb (Method d) EmptyString then mret (inr "No method specified") else
  content ← make_body d;
  match content with
  | inr err => mret (inr err)
  | inl (body, contentType) =>
      match NewRequest (Method d) (Url d) with
      | inr err => mret (inr err)
      | inl url =>
          o ← Order;
          match copy_headers (@range o _ (Header d)) ∅ None with
          | None => panic "index out of range"
          | Some (h, host) =>
              let h := if negb (String.eqb contentType EmptyString) && String.eqb (header_Get "Content-Type" h) EmptyString
                       then header_Set "Content-Type" contentType h else h in
              o ← Order;
              let q := add_query (@range o _ (QueryData d)) (parsed_query (u_RawQuery url)) in
              let url := mkURL (u_rest url) (u_Path url) (Encode q) in
              let h := if decide (BasicAuth d = (EmptyString, EmptyString)) then h
                       else header_Set "Authorization" ("Basic " +:+ b64 ((BasicAuth d).1 +:+ ":" +:+ (BasicAuth d).2)) h in
              mret (inl (mkRequest (Method d) url body (foldl header_cookie h (Cookies d)) host))
          end
      end
  end.

(** ** Sending *)

(* [net/dhttp/client.go:1509-1528] HttpClient.marshalErrors *)
Definition marshalErrors (d : HttpClient) : option string :=
  match Errors d with [] => None | [err] => Some err | errs => Some (join "|" errs) end.

(* [net/dhttp/client.go:1186-1193] contains *)
Fixpoint contains (respStatus : Z) (statuses : list Z) : bool :=
  match statuses with [] => false | status :: l => if status =? respStatus then true else contains respStatus l end.

Record result : Type := mkResult { x_resp : option Response; x_body : string; x_err : option string }.

Definition forced (t : string) : bool :=
  String.eqb t "json" || String.eqb t "form" || String.eqb t "xml" || String.eqb t "text" || String.eqb t "multipart".

(** The type to send: the forced one, or the last found for the content type. *)
Definition target_type (o : RangeOrder) (d : HttpClient) : HttpClient :=
  if forced (ForceType d) then with_TargetType (ForceType d) d
  else
    let contentType := header_Get "Content-Type" (Header d) in
    foldl (fun d kv => if String.eqb contentType kv.2 then with_TargetType kv.1 d else d) d (@range o _ Types).

Definition set_trace : M state unit :=
  traceId ← gl_Get Gl.LogId;
  match traceId with
  | None => mret tt
  | Some (Gl.VStr t) => upd (SetHeader TraceID t)
  | Some _ => panic "interface conversion"
  end.

Definition set_token : M state unit :=
  server ← gl_Get Gl.Server;
  key ← gl_Get Gl.SecretKey;
  match server, key with
  | Some server, Some key =>
      d ← gets self;
      match ParseRequestURI (Url d) with
      | None => panic "invalid memory address or nil pointer dereference"
      | Some path =>
          now ← Now;
          match key with
          | Gl.VStr key =>
              gdToken ← Utls.GdEncode (String.list_byte_of_string (sprint_s server +:+ "__" +:+ path +:+ "__" +:+ itoa (Z.quot now 1000000)))
                          (String.list_byte_of_string key);
              upd (SetHeader GdToken (String.string_of_list_byte gdToken))
          | _ => panic "interface conversion"
          end
      end
  | _, _ => mret tt
  end.

Definition bounce_mixed (d : HttpClient) : HttpClient :=
  if negb (bool_decide (Data d = ∅)) && negb (bool_decide (SliceData d = [])) then with_BounceToRawString true d else d.

Definition prepare : M state unit :=
  o ← Order; _ ← upd (target_type o); _ ← set_trace; _ ← set_token; upd bounce_mixed.

Definition swap_transport : M state unit :=
  d ← gets self;
  disabled ← gets DisableTransportSwap;
  if (disabled : bool) then mret tt
  else on_client (fun c => mkClient (c_Jar c) (c_Timeout c) (c_CheckRedirect c) (Some (Transport d))).

(** One exchange: what was sent is kept with the status or the error. *)
Definition do_request (req : Request) : M state (Response * (string + string) + string) := fun st =>
  let c := client_of st in
  let '(r, n) := Do c (c_Transport c ≫= (transports st !!.)) req (net st) in
  (Ret r, set_sent (sent st ++ [(req, match r with inl (resp, _) => inl (StatusCode resp) | inr err => inr err end)]) (set_net n st)).

Definition fail_with (err : string) : M state (bool * result) :=
  _ ← upd (add_error err); d ← gets self; mret (true, mkResult None EmptyString (marshalErrors d)).

(** The body of [getResponseBytes], with whether its variable [err] is set. *)
Definition respond : M state (bool * result) :=
  d ← gets self;
  if negb (bool_decide (Errors d = [])) then mret (false, mkResult None EmptyString (marshalErrors d)) else
  _ ← prepare;
  req ← MakeRequest;
  match req with
  | inr err => fail_with err
  | inl req =>
      _ ← swap_transport;
      r ← do_request req;
      match r with
      | inr err => fail_with err
      | inl (_, inr err) => mret (true, mkResult None EmptyString (Some err))
      | inl (resp, inl body) => mret (false, mkResult (Some resp) body None)
      end
  end.

(** The function deferred by [getResponseBytes]. *)
Definition report_call (sTime : Z) (failed : bool) : M state unit :=
  now ← Now;
  d ← gets self;
  let cost := now - sTime in
  tell ([PcCost ("http_call_cost_" +:+ Url d) cost; GlIncr ("http_call_" +:+ Url d) 1; GlIncrCost ("http_cost_" +:+ Url d) cost] ++
    if failed then [PcCostFail ("http_call_cost_fail_" +:+ Url d) 1; GlIncr ("http_call_fail_" +:+ Url d) 1] else []).

Definition reporting (sTime : Z) (m : M state (bool * result)) : M state result := fun st =>
  match m st with
  | (Ret (failed, r), st) => (_ ← report_call sTime failed; mret r) st
  | (Panic e, st) => (_ ← report_call sTime false; panic e) st
  end.

(* [net/dhttp/client.go:1213-1328] HttpClient.getResponseBytes *)
Definition getResponseBytes : M state result := sTime ← Now; reporting sTime respond.

(** [true] when the response is the one to return. *)
(* [net/dhttp/client.go:1177-1184] HttpClient.isRetryableRequest *)
Definition isRetryableRequest (resp : Response) : M state bool :=
  d ← gets self;
  let r := Retryable d in
  if Enable r && (Attempt r <? RetryCount r) && contains (StatusCode resp) (RetryableStatus r) then
    _ ← Sleep (RetryTime r);
    _ ← upd (with_Retryable (mkRetryable (RetryableStatus r) (RetryTime r) (RetryCount r) (Attempt r + 1) (Enable r)));
    mret false
  else mret true.

(** [None] when the fuel is used up. *)
Fixpoint attempts (fuel : nat) : M state (option result) :=
  match fuel with
  | O => mret None
  | S fuel =>
      r ← getResponseBytes;
      match x_err r, x_resp r with
      | Some err, _ => mret (Some (mkResult None EmptyString (Some err)))
      | None, None => panic "invalid memory address or nil pointer dereference"
      | None, Some resp =>
          stop ← isRetryableRequest resp;
          if (stop : bool) then
            d ← gets self;
            let resp := mkResponse (StatusCode resp) (header_Set "Retry-Count" (itoa (Attempt (Retryable d))) (p_Header resp)) in
            mret (Some (mkResult (Some resp) (x_body r) None))
          else attempts fuel
      end
  end.

(* [net/dhttp/client.go:1152-1175] HttpClient.EndBytes *)
Definition EndBytes (fuel : nat) (callback : bool) : M state (option result) :=
  r ← attempts fuel;
  match r with
  | Some (mkResult (Some resp) body None) =>
      d ← gets self;
      _ ← (if callback then tell [Callback resp body (marshalErrors d)] else mret tt);
      mret r
  | _ => mret r
  end.

(* [net/dhttp/client.go:1135-1149] HttpClient.End *)
Definition End_ (fuel : nat) (callback : bool) : M state (option result) := EndBytes fuel callback.

(* [net/dhttp/client.go:1196-1211] HttpClient.EndStruct *)
Definition EndStruct (fuel : nat) (callback : bool) : M state (option result) :=
  r ← EndBytes fuel false;
  match r with
  | Some (mkResult resp body None) =>
      match json_Unmarshal body with
      | Some err => _ ← upd (add_error err); d ← gets self; mret (Some (mkResult resp body (marshalErrors d)))
      | None =>
          d ← gets self;
          match resp with
          | None => panic "invalid memory address or nil pointer dereference"
          | Some resp => _ ← (if callback then tell [Callback resp body (marshalErrors d)] else mret tt); mret r
          end
      end
  | _ => mret r
  end.

(** ** Forms *)

Lemma add_all_eq k vs m : add_all k vs m = match vs with [] => m | _ => <[k := default [] (m !! k) ++ vs]> m end.
Proof.
  rewrite <- foldl_add_key. unfold add_all. revert m. induction vs as [|v vs IH]; intros m; [done|]. cbn. by rewrite IH.
Qed.

(** The texts of the data by key; a value without texts leaves no key. *)
Definition form_of (data : gmap string Value) : Values :=
  omap (fun v => match texts v with Some (t :: ts) => Some (t :: ts) | _ => None end) data.

Lemma change_entries_spec l m : NoDup l.*1 -> Forall (fun kv => is_Some (texts kv.2)) l ->
  Forall (fun kv => m !! kv.1 = None) l ->
  change_entries l m = Some (form_of (list_to_map l) ∪ m).
Proof.
  revert m. induction l as [|[k v] l IH]; intros m Hn Ht Hm; cbn [change_entries].
  { f_equal. unfold form_of. cbn. by rewrite omap_empty, map_empty_union. }
  cbn in Hn. apply NoDup_cons in Hn as [Hk Hn]. apply Forall_cons in Ht as [[ts Ht] Hts].
  apply Forall_cons in Hm as [Hmk Hm]. cbn in Ht, Hmk. rewrite Ht. cbn.
  assert (form_of (list_to_map l) !! k = None) as Hnone.
  { unfold form_of. by rewrite lookup_omap, not_elem_of_list_to_map_1 by done. }
  rewrite add_all_eq, Hmk. cbn. rewrite IH; [|done..|].
  - f_equal. unfold form_of. apply map_eq. intros j. rewrite !lookup_union, !lookup_omap.
    destruct (decide (j = k)) as [->|Hj].
    + rewrite lookup_insert_eq. unfold form_of in Hnone. rewrite lookup_omap in Hnone. rewrite Hnone. cbn. rewrite Ht.
      destruct ts; [done|]. by rewrite lookup_insert_eq, Hmk.
    + rewrite lookup_insert_ne by done. destruct ts; [done|]. by rewrite lookup_insert_ne by done.
  - destruct ts; [done|]. apply Forall_forall. intros [j w] Hj. cbn. rewrite lookup_insert_ne.
    + rewrite Forall_forall in Hm. by apply (Hm _ Hj).
    + intros ->. apply Hk. apply list_elem_of_fmap. by exists (j, w).
Qed.

(** A value that is not converted: the whole conversion panics. *)
Lemma change_entries_None l m : ~ Forall (fun kv => is_Some (texts kv.2)) l -> change_entries l m = None.
Proof.
  revert m. induction l as [|[k v] l IH]; intros m Hn; [by destruct Hn|]. cbn [change_entries].
  destruct (texts v) as [vs|] eqn:Ev; [|done]. apply IH. intros Hl. apply Hn. constructor; [by eexists|done].
Qed.

Definition form_outcome (data : gmap string Value) : outcome Values :=
  if decide (map_Forall (fun _ v => is_Some (texts v)) data) then Ret (form_of data) else Panic "interface conversion".

(** Whatever the order of the loop. *)
Lemma changeMap_run data st : exists n, changeMapToURLValues data st = (form_outcome data, set_net n st).
Proof.
  unfold changeMapToURLValues, Order, mbind, M_bind, form_outcome. destruct (map_order (net st)) as [o n]. exists n.
  pose proof (@range_perm o _ data) as Hp.
  assert (Forall (fun kv => is_Some (texts kv.2)) (@range o _ data) <-> map_Forall (fun _ v => is_Some (texts v)) data) as Hall.
  { rewrite Hp, map_Forall_to_list. apply Forall_iff. by intros [k v]. }
  destruct (decide _) as [Ht|Ht]; [|by rewrite change_entries_None by by rewrite Hall].
  rewrite change_entries_spec.
  - rewrite map_union_empty. enough (list_to_map (@range o _ data) = data) as -> by done.
    rewrite <- (list_to_map_to_list data) at 2. apply list_to_map_proper; [|done].
    rewrite Hp. apply NoDup_fst_map_to_list.
  - rewrite Hp. apply NoDup_fst_map_to_list.
  - by apply Hall.
  - apply Forall_forall. intros kv _. apply lookup_empty.
Qed.

Lemma changeMap_form data st : map_Forall (fun _ v => is_Some (texts v)) data ->
  exists n, changeMapToURLValues data st = (Ret (form_of data), set_net n st).
Proof. intros Ht. destruct (changeMap_run data st) as [n Hn]. exists n. rewrite Hn. unfold form_outcome. by rewrite decide_True. Qed.

(** What a form leaves in the data for the values of one key. *)
Definition stored (vs : list string) : Value := match vs with [v] => VString v | _ => VStrings (rev vs) end.

Lemma add_form_values k us vs data : data !! k = (match us with [] => None | _ => Some (stored us) end) -> vs ≠ [] ->
  foldl (fun data v => add_form_value k v data) data vs = <[k := stored (us ++ vs)]> data.
Proof.
  revert us data. induction vs as [|v vs IH]; intros us data Hk Hne; [done|]. cbn [foldl].
  assert (add_form_value k v data = <[k := stored (us ++ [v])]> data) as ->.
  { unfold add_form_value. rewrite Hk. destruct us as [|u [|u' us]]; [done..|].
    cbn [stored app]. f_equal. f_equal. change (u :: u' :: us ++ [v]) with ((u :: u' :: us) ++ [v]).
    by rewrite rev_app_distr. }
  destruct vs as [|v' vs]; [done|]. rewrite (IH (us ++ [v])); [|by rewrite lookup_insert_eq; destruct us|done].
  by rewrite insert_insert_eq, <- app_assoc.
Qed.

Lemma add_form_spec l data : NoDup l.*1 -> Forall (fun kv => kv.2 ≠ [] /\ data !! kv.1 = None) l ->
  add_form l data = (stored <$> list_to_map l) ∪ data.
Proof.
  revert data. induction l as [|[k vs] l IH]; intros data Hn Hl.
  { cbn. by rewrite fmap_empty, map_empty_union. }
  cbn in Hn. apply NoDup_cons in Hn as [Hk Hn]. apply Forall_cons in Hl as [[Hvs Hdk] Hl]. cbn in Hvs, Hdk.
  unfold add_form in *. cbn [foldl fst snd]. rewrite (add_form_values k [] vs data) by done. cbn [app]. rewrite IH; [|done|].
  - cbn. rewrite fmap_insert. rewrite <- insert_union_r; [by rewrite insert_union_l|].
    rewrite lookup_fmap, not_elem_of_list_to_map_1 by done. done.
  - apply Forall_forall. intros [j ws] Hj. rewrite Forall_forall in Hl. destruct (Hl _ Hj) as [? ?]. split; [done|].
    rewrite lookup_insert_ne; [done|]. intros ->. apply Hk. apply list_elem_of_fmap. by exists (j, ws).
Qed.

Lemma texts_stored vs : texts (stored vs) = Some (rev vs).
Proof. by destruct vs as [|v [|v' vs]]. Qed.

(** ** Headers of the request *)

(** The headers that [SetHeader] and [AppendHeader] leave. *)
Definition header_wf (h : Values) : Prop := map_Forall (fun k vs => canonical k = k /\ vs ≠ []) h.

Lemma canonical_host k : canonical k = k -> EqualFold k "Host" = bool_decide (k = "Host"%string).
Proof.
  intros Hk. destruct (EqualFold k "Host") eqn:E; [|by rewrite bool_decide_false by by intros ->].
  rewrite bool_decide_true; [done|]. rewrite <- Hk. clear Hk. unfold EqualFold in E. apply String.eqb_eq in E.
  change (map_bytes to_lower "Host") with "host"%string in E.
  destruct k as [|a [|b [|c [|d [|e k]]]]]; cbn [map_bytes] in E; try discriminate E.
  injection E as Ha Hb Hc Hd. pose proof lower_cases as Hl.
  destruct (Hl a "h"%char "H"%char eq_refl Ha) as [-> | ->]; destruct (Hl b "o"%char "O"%char eq_refl Hb) as [-> | ->];
    destruct (Hl c "s"%char "S"%char eq_refl Hc) as [-> | ->]; by destruct (Hl d "t"%char "T"%char eq_refl Hd) as [-> | ->].
Qed.

Lemma add_values (k : string) vs (h : Values) : canonical k = k -> h !! k = None -> vs ≠ [] ->
  foldl (fun h v => header_Add k v h) h vs = <[k := vs]> h.
Proof.
  intros Hk Hn Hvs. unfold header_Add. rewrite Hk. change (add_all k vs h = <[k := vs]> h). rewrite add_all_eq, Hn.
  by destruct vs.
Qed.

Lemma copy_headers_spec l h host : NoDup l.*1 ->
  Forall (fun kv => canonical kv.1 = kv.1 /\ kv.2 ≠ [] /\ h !! kv.1 = None) l ->
  copy_headers l h host = Some (list_to_map l ∪ h,
    match (list_to_map l : Values) !! "Host"%string with Some vs => head vs | None => host end).
Proof.
  revert h host. induction l as [|[k vs] l IH]; intros h host Hn Hl; cbn [copy_headers].
  { cbn. by rewrite map_empty_union. }
  cbn in Hn. apply NoDup_cons in Hn as [Hk Hn]. apply Forall_cons in Hl as [(Hc & Hvs & Hh) Hl]. cbn in Hc, Hvs, Hh.
  rewrite add_values by done. rewrite canonical_host by done.
  assert (Forall (fun kv => canonical kv.1 = kv.1 /\ kv.2 ≠ [] /\ <[k := vs]> h !! kv.1 = None) l) as Hl'.
  { apply Forall_forall. intros [j ws] Hj. rewrite Forall_forall in Hl. destruct (Hl _ Hj) as (? & ? & ?).
    split_and!; [done..|]. rewrite lookup_insert_ne; [done|]. intros ->. apply Hk. apply list_elem_of_fmap. by exists (j, ws). }
  assert ((list_to_map l : Values) !! k = None) as Hlk by by apply not_elem_of_list_to_map_1.
  assert (list_to_map l ∪ <[k := vs]> h = list_to_map ((k, vs) :: l) ∪ h) as Hu.
  { cbn. rewrite <- insert_union_r by done. by rewrite insert_union_l. }
  case_bool_decide as Hhost.
  - subst k. destruct vs as [|v vs]; [done|]. cbn [head mbind option_bind]. rewrite IH by done. rewrite Hu, Hlk. cbn.
    by rewrite lookup_insert_eq.
  - rewrite IH by done. rewrite Hu. cbn. by rewrite lookup_insert_ne by done.
Qed.

Lemma copy_headers_range o h : header_wf h ->
  copy_headers (@range o _ h) ∅ None = Some (h, h !! "Host"%string ≫= head).
Proof.
  intros Hh. pose proof (@range_perm o _ h) as Hp.
  assert (NoDup (@range o _ h).*1) as Hn by (rewrite Hp; apply NoDup_fst_map_to_list).
  assert (list_to_map (@range o _ h) = h) as Hm.
  { rewrite <- (list_to_map_to_list h) at 2. by apply list_to_map_proper. }
  rewrite copy_headers_spec; [|done|].
  - by rewrite Hm, map_union_empty.
  - rewrite Hp. apply Forall_forall. intros [k vs] Hk. apply elem_of_map_to_list in Hk. destruct (Hh k vs Hk). split_and!; [done..|].
    apply lookup_empty.
Qed.

Lemma header_wf_set k v h : header_wf h -> header_wf (header_Set k v h).
Proof.
  intros Hh. unfold header_Set. apply map_Forall_insert_2; [|done]. split; [|done]. apply canonical_idem.
Qed.

Lemma header_wf_delete k h : header_wf h -> header_wf (delete k h).
Proof. intros Hh. by apply map_Forall_delete. Qed.

(** ** A form sent again *)

Lemma form_of_stored (m : Values) : filled m -> form_of (stored <$> m) = @rev string <$> m.
Proof.
  intros Hm. apply map_eq. intros k. unfold form_of. rewrite lookup_omap, !lookup_fmap.
  destruct (m !! k) as [vs|] eqn:E; [|done]. cbn. rewrite texts_stored. apply Hm in E.
  destruct (rev vs) eqn:Er; [|done]. by apply (f_equal (@rev _)) in Er; rewrite rev_involutive in Er.
Qed.

Lemma add_form_range m : filled m -> add_form (range m) ∅ = stored <$> m.
Proof.
  intros Hm. pose proof (range_perm m) as Hp.
  rewrite add_form_spec, map_union_empty.
  - f_equal. rewrite <- (list_to_map_to_list m) at 2. apply list_to_map_proper; [|done]. rewrite Hp. apply NoDup_fst_map_to_list.
  - rewrite Hp. apply NoDup_fst_map_to_list.
  - rewrite Hp. apply Forall_forall. intros [k vs] Hk. apply elem_of_map_to_list in Hk. split; [by apply (Hm k)|apply lookup_empty].
Qed.

(** A form given to [Send] of a fresh POST is sent as a form: the request's content type is that of
    a form and its body, parsed as a form, has exactly the keys of the form given, each with its values -
    in the reverse of their order. *)
Theorem form_resent_reversed (st : state) url content m u :
  DoNotClearHttpClient (self st) = false ->
  json_decode content = None -> ParseQuery content = Some m -> m ≠ ∅ -> NewRequest "POST" url = inl u ->
  let st' := set_self (Send (CString content) (Post url (self st))) st in
  exists req b, (MakeRequest st').1 = Ret (inl req) /\
    header_Get "Content-Type" (r_Header req) = "application/x-www-form-urlencoded" /\
    r_Body req = Content b /\ ParseQuery b = Some (@rev string <$> m).
Proof.
  intros Hc Hj Hp Hm Hu. pose proof (ParseQuery_filled _ _ Hp) as Hf. cbv zeta.
  assert (filled (@rev string <$> m)) as Hfr.
  { intros k vs Hk. apply lookup_fmap_Some in Hk as (ws & <- & Hk). apply Hf in Hk.
    intros Hr. apply (f_equal (@rev _)) in Hr. by rewrite rev_involutive in Hr. }
  cbn [Send]. unfold SendString, Post, start, ClearHttpClient. rewrite Hc. cbn [BounceToRawString with_Errors with_Url with_Method].
  rewrite Hj, Hp. cbn [Data with_Data with_TargetType with_RawString]. rewrite add_form_range by done.
  unfold MakeRequest, gets, mbind at 1, M_bind at 1. cbn [self set_self Method].
  unfold make_body. cbn. set (st1 := set_self _ _).
  destruct (changeMap_form (stored <$> m) st1) as [n Hr].
  { intros k v Hk. apply lookup_fmap_Some in Hk as (vs & <- & _). rewrite texts_stored. by eexists. }
  unfold mbind at 1, M_bind at 1. unfold mbind at 1, M_bind at 1. rewrite Hr. cbn.
  rewrite form_of_stored by done. pose proof (ParseQuery_Encode_filled _ Hfr) as He. unfold typed.
  destruct (Encode (@rev string <$> m)) as [|a b] eqn:E.
  { cbn in He. injection He as He. symmetry in He. by apply fmap_empty_inv in He. }
  cbn. rewrite Hu. unfold Order, mbind, M_bind. cbn. destruct (map_order n) as [o n'].
  pose proof (copy_headers_range o ∅ (map_Forall_empty _)) as Hh. rewrite Hh. cbn.
  destruct (map_order n') as [o' n'']. eexists _, _. split; [done|]. cbn. split; [|done].
  by destruct (decide _).
Qed.

(** ** Attempts

    What a request is made of, apart from the token, which is new each time, and
    the count of attempts; the three types that are all sent as forms are one. *)

Definition token_key : string := canonical GdToken.

Definition plain_type (t : string) : string :=
  if String.eqb t "form-data" || String.eqb t "urlencoded" then "form" else t.

Definition norm (d : HttpClient) : HttpClient :=
  with_TargetType (plain_type (TargetType d))
    (with_Retryable (mkRetryable [] 0 0 0 false) (with_Header (delete token_key (Header d)) d)).

(** The type for a content type. *)
Definition type_in (l : list (string * string)) (contentType : string) : option string :=
  head (omap (fun kv => if String.eqb contentType kv.2 then Some (plain_type kv.1) else None) l).
Definition type_of : string -> option string := type_in type_list.

(** What one attempt makes of the object before its request, whatever the order of its
    loop over the types. *)
Definition settle (g : option Gl.glmap) (d : HttpClient) : HttpClient :=
  let t := if forced (ForceType d) then ForceType d else default (TargetType d) (type_of (header_Get "Content-Type" (Header d))) in
  let d := with_TargetType (plain_type t) d in
  bounce_mixed (match gl_value g Gl.LogId with Some (Gl.VStr t) => SetHeader TraceID t d | _ => d end).

(** The trace id is a text, and the token can be made. *)
Definition gl_ok (g : option Gl.glmap) (url : string) : Prop :=
  (forall v, gl_value g Gl.LogId = Some v -> exists t, v = Gl.VStr t) /\
  (forall server key, gl_value g Gl.Server = Some server -> gl_value g Gl.SecretKey = Some key ->
     is_Some (ParseRequestURI url) /\ exists k, key = Gl.VStr k /\ k ≠ EmptyString).

Definition choose (contentType : string) (l : list (string * string)) (t : string) : string :=
  foldl (fun t kv => if String.eqb contentType kv.2 then kv.1 else t) t l.

Lemma target_type_eq o d : target_type o d =
  with_TargetType (if forced (ForceType d) then ForceType d else choose (header_Get "Content-Type" (Header d)) (@range o _ Types) (TargetType d)) d.
Proof.
  unfold target_type. destruct (forced _); [done|]. unfold choose. generalize (header_Get "Content-Type" (Header d)) as c.
  intros c. generalize (@range o _ Types) as l. intros l. induction l as [|kv l IH] using rev_ind; [by destruct d|].
  rewrite !foldl_app, IH. cbn. by destruct (String.eqb c kv.2).
Qed.

Lemma choose_cases c l t : (choose c l t = t /\ Forall (fun kv => c ≠ kv.2) l) \/
  exists kv, kv ∈ l /\ c = kv.2 /\ choose c l t = kv.1.
Proof.
  induction l as [|kv l IH] using rev_ind; [by left|]. unfold choose in *. rewrite foldl_app. cbn.
  destruct (String.eqb_spec c kv.2) as [E|E].
  - right. exists kv. split; [|done]. apply elem_of_app. right. by left.
  - destruct IH as [[H1 H2]|(kv' & Hi & H1 & H2)]; [left|right].
    + split; [done|]. apply Forall_app. split; [done|by constructor].
    + exists kv'. split; [|done]. apply elem_of_app. by left.
Qed.

Lemma plain_twice t : plain_type (plain_type t) = plain_type t.
Proof. unfold plain_type. destruct (String.eqb t "form-data" || String.eqb t "urlencoded") eqn:E; [done|]. by rewrite E. Qed.

(** Types with the same content type are sent in the same way. *)
Definition coherent (L : list (string * string)) : Prop :=
  Forall (fun kv => Forall (fun kv' => kv.2 = kv'.2 -> plain_type kv.1 = plain_type kv'.1) L) L.

Lemma type_in_some L c u : type_in L c = Some u -> exists kv, kv ∈ L /\ c = kv.2 /\ u = plain_type kv.1.
Proof.
  unfold type_in. intros Hh. apply head_Some_elem_of in Hh. apply list_elem_of_omap in Hh as (kv & Hkv & Hx).
  destruct (String.eqb_spec c kv.2) as [E|]; [|done]. injection Hx as <-. by exists kv.
Qed.

Lemma type_in_match L c kv : coherent L -> kv ∈ L -> c = kv.2 -> type_in L c = Some (plain_type kv.1).
Proof.
  intros HL Hkv Hc. destruct (type_in L c) as [u|] eqn:E.
  - destruct (type_in_some _ _ _ E) as (kv' & Hkv' & Hc' & ->). unfold coherent in HL. rewrite Forall_forall in HL.
    specialize (HL kv Hkv). rewrite Forall_forall in HL. rewrite (HL kv' Hkv'); [done|congruence].
  - exfalso. unfold type_in in E. apply head_None in E. assert (plain_type kv.1 ∈ @nil string) as Hn; [|by apply not_elem_of_nil in Hn].
    rewrite <- E. apply list_elem_of_omap. exists kv. split; [done|]. by rewrite Hc, String.eqb_refl.
Qed.

Lemma choose_in l L c t : l ≡ₚ L -> coherent L -> plain_type (choose c l t) = plain_type (default t (type_in L c)).
Proof.
  intros Hp HL. destruct (choose_cases c l t) as [[H1 H2]|(kv & Hi & Hc & ->)].
  - rewrite H1. destruct (type_in L c) as [u|] eqn:E; [|done]. exfalso.
    destruct (type_in_some _ _ _ E) as (kv & Hkv & Hc & _). rewrite Hp, Forall_forall in H2. by apply (H2 kv).
  - rewrite Hp in Hi. rewrite (type_in_match L c kv) by done. cbn. by rewrite plain_twice.
Qed.

Lemma Types_coherent : coherent type_list.
Proof. apply (bool_decide_unpack _). vm_compute. exact I. Qed.

Lemma Types_list : map_to_list Types ≡ₚ type_list.
Proof. apply map_to_list_to_map. apply (bool_decide_unpack _). vm_compute. exact I. Qed.

Lemma choose_type o c t : plain_type (choose c (@range o _ Types) t) = plain_type (default t (type_of c)).
Proof. apply choose_in; [|apply Types_coherent]. rewrite range_perm. apply Types_list. Qed.

Lemma header_Get_ne k k' h : canonical k ≠ k' -> header_Get k (delete k' h) = header_Get k h.
Proof. intros Hne. unfold header_Get. by rewrite lookup_delete_ne. Qed.

Lemma header_Get_set_ne k k' v h : canonical k ≠ canonical k' -> header_Get k (header_Set k' v h) = header_Get k h.
Proof. intros Hne. unfold header_Get, header_Set. by rewrite lookup_insert_ne. Qed.

Definition settled (g : option Gl.glmap) (d : HttpClient) : HttpClient :=
  mkHttpClient (Url d) (Method d)
    (match gl_value g Gl.LogId with Some (Gl.VStr t) => header_Set TraceID t (Header d) | _ => Header d end)
    (plain_type (if forced (ForceType d) then ForceType d else default (TargetType d) (type_of (header_Get "Content-Type" (Header d)))))
    (ForceType d) (Data d) (SliceData d) (FormData d) (QueryData d) (FileData d)
    (BounceToRawString d || negb (bool_decide (Data d = ∅)) && negb (bool_decide (SliceData d = [])))
    (RawString d) (Client d) (Transport d) (Cookies d) (Errors d) (BasicAuth d) (Debug d) (CurlCommand d) (Retryable d)
    (DoNotClearHttpClient d) (isClone d).

Lemma settle_eq g d : settle g d = settled g d.
Proof.
  unfold settle, settled. destruct (gl_value g _) as [[]|]; cbn; unfold bounce_mixed; cbn;
    destruct (negb _ && negb _); cbn; rewrite ?orb_true_r, ?orb_false_r; done.
Qed.

Lemma settle_twice g d : settle g (settle g d) = settle g d.
Proof.
  rewrite !settle_eq. unfold settled. cbn.
  destruct (gl_value g _) as [[]|]; f_equal; try (destruct (forced _); [done|]);
    rewrite ?header_Get_set_ne by done; try (destruct (type_of _); [done|apply plain_twice]); try apply insert_insert_eq;
    rewrite <- orb_assoc; by rewrite orb_diag.
Qed.

Lemma settle_norm g d : settle g (norm d) = norm (settle g d).
Proof.
  rewrite !settle_eq. unfold settled, norm. cbn. rewrite !header_Get_ne by done. rewrite plain_twice.
  assert (forall w, plain_type (if forced (ForceType d) then ForceType d else default (plain_type (TargetType d)) w) =
    plain_type (if forced (ForceType d) then ForceType d else default (TargetType d) w)) as ->.
  { intros w. destruct (forced _); [done|]. destruct w; [done|]. apply plain_twice. }
  destruct (gl_value g _) as [[]|]; f_equal. unfold header_Set. by rewrite delete_insert_ne.
Qed.

(** *** Requests of one object

    Two requests made of the same object: they differ at most in the order of the
    fields of a multipart body and in its boundary. *)

Definition same_body (b b' : Body) : Prop :=
  b = b' \/ exists x l x' l', b = Multipart x l /\ b' = Multipart x' l' /\ l ≡ₚ l'.

(** The request says which boundary its body has. *)
Definition own_type (r : Request) : Prop :=
  exists x l, r_Body r = Multipart x l /\ r_Header r !! "Content-Type"%string = Some [multipart_type x].

(** Apart from the token. *)
Definition same_request (r r' : Request) : Prop :=
  r_Method r = r_Method r' /\ r_URL r = r_URL r' /\ r_Host r = r_Host r' /\ same_body (r_Body r) (r_Body r') /\
  forall k, k ≠ token_key ->
    r_Header r !! k = r_Header r' !! k \/ k = "Content-Type"%string /\ own_type r /\ own_type r'.

(** Two results of [MakeRequest]. *)
Definition same_made (o o' : outcome (Request + string)) : Prop :=
  match o, o' with Ret (inl r), Ret (inl r') => same_request r r' | _, _ => o = o' end.

Definition alike (p p' : Body * string) : Prop :=
  p = p' \/ exists x l x' l', p = (Multipart x l, multipart_type x) /\ p' = (Multipart x' l', multipart_type x') /\ l ≡ₚ l'.

Definition alike_out (o o' : outcome (Body * string + string)) : Prop :=
  match o, o' with Ret (inl p), Ret (inl p') => alike p p' | _, _ => o = o' end.

Lemma alike_out_refl o : alike_out o o.
Proof. destruct o as [[p|err]|e]; [by left|done..]. Qed.

Lemma alike_parts x x' d l l' : l ≡ₚ l' -> alike (multipart_of x d l) (multipart_of x' d l').
Proof.
  intros Hp. destruct l as [|y l]; cbn.
  - apply Permutation_nil_l in Hp as <-. cbn. destruct (decide _); [by left|]. right. by exists x, [], x', [].
  - destruct l' as [|y' l']; [by apply Permutation_nil_r in Hp|]. right. by exists x, (y :: l), x', (y' :: l').
Qed.

Lemma form_fields_perm o o' f : form_fields o f ≡ₚ form_fields o' f.
Proof.
  unfold form_fields. rewrite <- !flat_map_concat_map. apply Permutation_flat_map.
  by rewrite !(@range_perm _ _ f).
Qed.

(** The fields of the data. *)
Lemma fields_run d st : exists n, forall K : list part -> M state (Body * string + string),
  exists o, (fields ← (if decide (Data d = ∅) then mret [] else formData ← changeMapToURLValues (Data d); o ← Order; mret (form_fields o formData)); K fields) st =
    match form_outcome (Data d) with
    | Ret f => K (if decide (Data d = ∅) then [] else form_fields o f) (set_net n st)
    | Panic e => (Panic e, set_net n st)
    end.
Proof.
  destruct (decide (Data d = ∅)) as [E|_].
  - exists (net st). intros K. exists order. rewrite E. unfold form_outcome. rewrite decide_True by apply map_Forall_empty.
    unfold mbind, M_bind. cbn. by destruct st.
  - destruct (changeMap_run (Data d) st) as [n Hn]. unfold mbind, M_bind. rewrite Hn.
    destruct (form_outcome (Data d)) as [f|e].
    + unfold Order. cbn. destruct (map_order n) as [o n']. exists n'. intros K. by exists o.
    + exists n. intros K. by exists order.
Qed.

Lemma multipart_body_norm d st st' : alike_out (multipart_body d st).1 (multipart_body (norm d) st').1 /\
  exists n, (multipart_body d st).2 = set_net n st.
Proof.
  assert (forall w, exists x n, Boundary w = (Ret x, set_net n w)) as Hb.
  { intros w. unfold Boundary. destruct (random_boundary (net w)) as [x n]. by exists x, n. }
  destruct (Hb st) as (x & n & Hx), (Hb st') as (x' & n' & Hx').
  unfold multipart_body, fieldname_or. rewrite (bind_run _ _ _ _ _ Hx), (bind_run _ _ _ _ _ Hx').
  change (Data (norm d)) with (Data d). change (SliceData (norm d)) with (SliceData d).
  change (FileData (norm d)) with (FileData d). change (BounceToRawString (norm d)) with (BounceToRawString d).
  change (RawString (norm d)) with (RawString d). change (Header (norm d)) with (delete token_key (Header d)).
  rewrite !header_Get_ne by done.
  destruct (fields_run d (set_net n st)) as [m Hf], (fields_run d (set_net n' st')) as [m' Hf'].
  set (raw := if BounceToRawString d then _ else _). set (files := map _ (FileData d)).
  match goal with |- context [mbind ?K _ (set_net n st)] => destruct (Hf K) as [o ->] end.
  match goal with |- context [mbind ?K _ (set_net n' st')] => destruct (Hf' K) as [o' ->] end.
  destruct (form_outcome (Data d)) as [f|e]; [|split; [done|by eexists]].
  assert ((if decide (Data d = ∅) then [] else form_fields o f) ≡ₚ (if decide (Data d = ∅) then [] else form_fields o' f)) as Hp
    by (destruct (decide _); [done|apply form_fields_perm]).
  assert (forall j, alike_out (Ret (inl (multipart_of x d (raw ++ (if decide (Data d = ∅) then [] else form_fields o f) ++ j ++ files))))
    (Ret (inl (multipart_of x' (norm d) (raw ++ (if decide (Data d = ∅) then [] else form_fields o' f) ++ j ++ files))))) as Hj.
  { intros j. apply (alike_parts x x' d). by rewrite Hp. }
  destruct (SliceData d) as [|y l]; [split; [apply Hj|by eexists]|].
  destruct (json_Marshal _) as [j|err]; (split; [|by eexists]); [apply Hj|done].
Qed.

Lemma make_body_plain d st : make_body (norm d) st = make_body (with_TargetType (TargetType d) (norm d)) st.
Proof.
  assert (plain_type (TargetType d) = TargetType d \/ plain_type (TargetType d) = "form"%string /\
    (TargetType d = "form-data"%string \/ TargetType d = "urlencoded"%string)) as [H|[H Ht]].
  { unfold plain_type. destruct (String.eqb_spec (TargetType d) "form-data"); [auto|].
    destruct (String.eqb_spec (TargetType d) "urlencoded"); auto. }
  - unfold norm. rewrite H. reflexivity.
  - unfold make_body. cbn [TargetType norm with_TargetType with_Retryable with_Header]. rewrite H.
    destruct Ht as [-> | ->]; reflexivity.
Qed.

Lemma make_body_norm d st st' : alike_out (make_body d st).1 (make_body (norm d) st').1 /\
  exists n, (make_body d st).2 = set_net n st.
Proof.
  assert (exists n, st = set_net n st) as Hst by (exists (net st); by destruct st).
  rewrite make_body_plain. unfold make_body.
  cbn [norm with_TargetType with_Header with_Retryable BounceToRawString RawString Data SliceData TargetType].
  destruct (String.eqb _ "json"); [split; [apply alike_out_refl|done]|].
  destruct (_ || _).
  { destruct (_ || _); [split; [apply alike_out_refl|done]|].
    destruct (changeMap_run (Data d) st) as [n Hn], (changeMap_run (Data d) st') as [n' Hn'].
    unfold mbind, M_bind. rewrite Hn, Hn'. destruct (form_outcome _); (split; [apply alike_out_refl|by exists n]). }
  destruct (String.eqb _ "text"); [split; [apply alike_out_refl|done]|].
  destruct (String.eqb _ "xml"); [split; [apply alike_out_refl|done]|].
  destruct (String.eqb _ "multipart"); [|split; [apply alike_out_refl|done]].
  apply multipart_body_norm.
Qed.

Lemma add_query_spec l q k : NoDup l.*1 -> filled q ->
  filled (add_query l q) /\ default [] (add_query l q !! k) = default [] (q !! k) ++ default [] ((list_to_map l : Values) !! k).
Proof.
  revert q. induction l as [|[j vs] l IH]; intros q Hn Hq.
  { split; [done|]. cbn. by rewrite app_nil_r. }
  cbn in Hn. apply NoDup_cons in Hn as [Hj Hn]. unfold add_query in *. cbn [foldl fst snd]. rewrite add_all_eq.
  set (q' := match vs with [] => q | _ => _ end).
  assert (filled q' /\ default [] (q' !! k) = default [] (q !! k) ++ (if decide (k = j) then vs else [])) as [Hq' Hk].
  { unfold q'. destruct vs as [|v vs]; [by destruct (decide _); rewrite app_nil_r|]. split.
    - apply map_Forall_insert_2; [by destruct (q !! j) as [[|??]|]|done].
    - destruct (decide (k = j)) as [->|Hne]; [by rewrite lookup_insert_eq|]. by rewrite lookup_insert_ne, app_nil_r. }
  destruct (IH q' Hn Hq') as [H1 H2]. split; [done|]. rewrite H2, Hk. cbn. destruct (decide (k = j)) as [->|Hne].
  - rewrite lookup_insert_eq, not_elem_of_list_to_map_1 by done. cbn. by rewrite app_nil_r.
  - by rewrite lookup_insert_ne, app_nil_r by done.
Qed.

(** The parts of a request. *)
Definition own_header (contentType : string) (h : Values) : Values :=
  if negb (String.eqb contentType EmptyString) && String.eqb (header_Get "Content-Type" h) EmptyString
  then header_Set "Content-Type" contentType h else h.

Definition auth_header (d : HttpClient) (h : Values) : Values :=
  if decide (BasicAuth d = (EmptyString, EmptyString)) then h
  else header_Set "Authorization" ("Basic " +:+ b64 ((BasicAuth d).1 +:+ ":" +:+ (BasicAuth d).2)) h.

Definition request_of (d : HttpClient) (url : URL) (body : Body) (contentType : string) : Request :=
  mkRequest (Method d) (mkURL (u_rest url) (u_Path url) (Encode (add_query (map_to_list (QueryData d)) (parsed_query (u_RawQuery url)))))
    body (foldl header_cookie (auth_header d (own_header contentType (Header d))) (Cookies d)) (Header d !! "Host"%string ≫= head).

Lemma fields_filled_ext (m m' : Values) : filled m -> filled m' -> (forall k, default [] (m !! k) = default [] (m' !! k)) -> m = m'.
Proof.
  intros Hm Hm' H. apply map_eq. intros k. specialize (H k).
  destruct (m !! k) as [vs|] eqn:E, (m' !! k) as [vs'|] eqn:E'; cbn in H; subst; try done.
  - by apply Hm in E.
  - by apply Hm' in E'.
Qed.

(** The order of the loop does not matter for the query. *)
Lemma add_query_order o (qd q : Values) : filled q -> add_query (@range o _ qd) q = add_query (map_to_list qd) q.
Proof.
  intros Hq. pose proof (@range_perm o _ qd) as Hp.
  assert (NoDup (@range o _ qd).*1) as Hn by (rewrite Hp; apply NoDup_fst_map_to_list).
  pose proof (NoDup_fst_map_to_list qd) as Hn'.
  apply fields_filled_ext.
  - by apply (add_query_spec _ _ EmptyString).
  - by apply (add_query_spec _ _ EmptyString).
  - intros k. rewrite (proj2 (add_query_spec _ _ k Hn Hq)), (proj2 (add_query_spec _ _ k Hn' Hq)).
    do 3 f_equal. by apply list_to_map_proper.
Qed.

Lemma parsed_query_filled s : filled (parsed_query s).
Proof. apply parse_parts_filled, map_Forall_empty. Qed.

Lemma Order_run st : exists o n, Order st = (Ret o, set_net n st).
Proof. unfold Order. destruct (map_order (net st)) as [o n]. by exists o, n. Qed.

Lemma MakeRequest_run st : header_wf (Header (self st)) -> exists n, MakeRequest st =
  (if String.eqb (Method (self st)) EmptyString then Ret (inr "No method specified"%string) else
   match (make_body (self st) st).1 with
   | Panic e => Panic e
   | Ret (inr err) => Ret (inr err)
   | Ret (inl (body, contentType)) =>
       match NewRequest (Method (self st)) (Url (self st)) with
       | inr err => Ret (inr err)
       | inl url => Ret (inl (request_of (self st) url body contentType))
       end
   end, set_net n st).
Proof.
  intros Hh. unfold MakeRequest, gets, mbind at 1, M_bind at 1.
  destruct (String.eqb _ _); [exists (net st); by destruct st|].
  destruct (make_body_norm (self st) st st) as [_ [n Hn]]. unfold mbind at 1, M_bind at 1.
  destruct (make_body (self st) st) as [o s]. cbn in Hn. subst s. cbn [fst].
  destruct o as [[[body ct]|err]|e]; [|by exists n..]. destruct (NewRequest _ _) as [url|err]; [|by exists n].
  destruct (Order_run (set_net n st)) as (o & n1 & H1). rewrite (bind_run _ _ _ _ _ H1), copy_headers_range by done.
  destruct (Order_run (set_net n1 (set_net n st))) as (o1 & n2 & H2). rewrite (bind_run _ _ _ _ _ H2).
  exists n2. unfold request_of. by rewrite add_query_order by apply parsed_query_filled.
Qed.

(** Cookies leave the other headers alone. *)
Lemma cookies_insert cs k v h : k ≠ "Cookie"%string ->
  foldl header_cookie (<[k := v]> h) cs = <[k := v]> (foldl header_cookie h cs).
Proof.
  intros Hk. revert h. induction cs as [|c cs IH]; intros h; [done|]. cbn [foldl]. rewrite <- IH. f_equal.
  unfold header_cookie, header_Get, header_Set. change (canonical "Cookie") with "Cookie"%string.
  by rewrite lookup_insert_ne, insert_insert_ne by done.
Qed.

Lemma cookies_token cs h : delete token_key (foldl header_cookie h cs) = foldl header_cookie (delete token_key h) cs.
Proof.
  revert h. induction cs as [|c cs IH]; intros h; [done|]. cbn [foldl]. rewrite IH. f_equal. unfold header_cookie.
  rewrite header_Get_ne by done. unfold header_Set. by rewrite delete_insert_ne.
Qed.

Lemma request_of_norm d url b ct : let r := request_of d url b ct in
  request_of (norm d) url b ct =
    mkRequest (r_Method r) (r_URL r) (r_Body r) (delete token_key (r_Header r)) (r_Host r).
Proof.
  unfold request_of. cbn. rewrite lookup_delete_ne by done. f_equal. rewrite cookies_token. f_equal.
  unfold own_header, auth_header. cbn. rewrite header_Get_ne by done. unfold header_Set.
  destruct (decide _), (String.eqb ct EmptyString), (String.eqb (header_Get "Content-Type" (Header d)) EmptyString); cbn;
    by rewrite ?delete_insert_ne by done.
Qed.

(** A content type that was not set by the user is the one of the body. *)
Lemma typed_request d url b ct : ct ≠ EmptyString -> header_Get "Content-Type" (Header d) = EmptyString ->
  r_Header (request_of d url b ct) =
    <["Content-Type"%string := [ct]]> (r_Header (request_of d url b EmptyString)).
Proof.
  intros Hct He. unfold request_of, own_header. cbn. rewrite He. destruct (String.eqb_spec ct EmptyString); [done|]. cbn.
  rewrite <- cookies_insert by done. f_equal. unfold auth_header, header_Set.
  destruct (decide _); [done|]. by rewrite insert_insert_ne.
Qed.

Lemma alike_request d url p p' : alike p p' -> same_request (request_of d url p.1 p.2) (request_of (norm d) url p'.1 p'.2).
Proof.
  intros Ha. rewrite request_of_norm. cbn.
  assert (same_body p.1 p'.1) as Hb.
  { destruct Ha as [->|(x & l & x' & l' & -> & -> & Hl)]; [by left|right]. by exists x, l, x', l'. }
  split_and!; [done..|]. intros k Hk. cbn. rewrite lookup_delete_ne by done.
  destruct Ha as [->|(x & l & x' & l' & -> & -> & Hl)]; [by left|]. cbn [fst snd].
  destruct (String.eqb_spec (header_Get "Content-Type" (Header d)) EmptyString) as [He|He].
  - pose proof (typed_request d url (Multipart x l) (multipart_type x) ltac:(done) He) as H1.
    pose proof (typed_request d url (Multipart x' l') (multipart_type x') ltac:(done) He) as H2. cbn in H1, H2.
    destruct (decide (k = "Content-Type"%string)) as [->|Hne].
    + right. split; [done|]. split; [exists x, l|exists x', l']; (split; [done|]); cbn.
      * by rewrite H1, lookup_insert_eq.
      * rewrite lookup_delete_ne by done. by rewrite H2, lookup_insert_eq.
    + left. by rewrite H1, H2, !lookup_insert_ne.
  - left. unfold own_header. destruct (String.eqb_spec (header_Get "Content-Type" (Header d)) EmptyString); [done|].
    by rewrite !andb_false_r.
Qed.

Lemma MakeRequest_norm st st' : header_wf (Header (self st)) -> self st' = norm (self st) ->
  same_made (MakeRequest st).1 (MakeRequest st').1 /\ exists n, (MakeRequest st).2 = set_net n st.
Proof.
  intros Hh Hs. assert (header_wf (Header (self st'))) as Hh' by (rewrite Hs; by apply header_wf_delete).
  destruct (MakeRequest_run st Hh) as [n ->], (MakeRequest_run st' Hh') as [n' ->]. split; [|by exists n].
  cbn [fst]. rewrite Hs. cbn [Method Url norm with_TargetType with_Header with_Retryable].
  fold (norm (self st)). destruct (String.eqb _ _); [done|].
  destruct (make_body_norm (self st) st st') as [Ha _].
  destruct (make_body (self st) st).1 as [[[b ct]|err]|e], (make_body (norm (self st)) st').1 as [[[b' ct']|err']|e'];
    cbn in Ha; try done; try (by injection Ha as ->).
  destruct (NewRequest _ _) as [url|err]; [|done]. by apply (alike_request _ url (b, ct) (b', ct')).
Qed.

Lemma prepare_ok st : gl_ok (gldata st) (Url (self st)) -> header_wf (Header (self st)) ->
  exists d n, prepare st = (Ret tt, set_self d (set_net n st)) /\ norm d = norm (settle (gldata st) (self st)) /\
    Retryable d = Retryable (self st) /\ header_wf (Header d).
Proof.
  intros [Ht Hk] Hh. set (g := gldata st) in *. set (d0 := self st) in *. destruct (map_order (net st)) as [o n0] eqn:Eo.
  set (d1 := match gl_value g Gl.LogId with Some (Gl.VStr t) => SetHeader TraceID t (target_type o d0) | _ => target_type o d0 end).
  assert (Url d1 = Url d0 /\ Retryable d1 = Retryable d0 /\ header_wf (Header d1)) as (Hu & Hr & Hw).
  { unfold d1. rewrite target_type_eq. destruct (gl_value g _) as [[]|]; cbn; split_and!; try done. by apply header_wf_set. }
  set (st0 := set_net n0 st).
  assert ((_ ← upd (target_type o); set_trace) st0 = (Ret tt, set_self d1 st0)) as H1.
  { unfold set_trace, gl_Get, upd. go_run. cbn. fold g. unfold d1. clear -Ht.
    destruct (gl_value g _) as [v|] eqn:E; [|by destruct st]. destruct (Ht v eq_refl) as [t ->]. by destruct st. }
  assert (exists d2 n, set_token (set_self d1 st0) = (Ret tt, set_self d2 (set_net n st)) /\
    (d2 = d1 \/ exists v, d2 = SetHeader GdToken v d1)) as (d2 & n & H2 & Hd2).
  { unfold set_token, gl_Get, gets, mbind, M_bind. cbn [gldata set_self set_net st0]. fold g.
    destruct (gl_value g Gl.Server) as [server|] eqn:E1; [|by exists d1, n0; split; [destruct st|left]].
    destruct (gl_value g Gl.SecretKey) as [key|] eqn:E2; [|by exists d1, n0; split; [destruct st|left]].
    destruct (Hk _ _ eq_refl eq_refl) as [[path Hp] (k & -> & Hne)]. cbn [self set_self]. rewrite Hu, Hp. unfold Now. cbn [net set_self set_net st0].
    destruct (time_Now _) as [now n].
    destruct (Utls.GdDecode_GdEncode (String.list_byte_of_string (sprint_s server +:+ "__" +:+ path +:+ "__" +:+ itoa (Z.quot now 1000000)))
      (String.list_byte_of_string k) (set_net n (set_self d1 st0))) as (enc & He & _); [by destruct k|].
    rewrite He. eexists _, n. split; [by destruct st|right]. by eexists. }
  exists (bounce_mixed d2), n. split_and!.
  - unfold prepare, Order. unfold mbind at 1, M_bind at 1. rewrite Eo. fold st0. rewrite <- bind_assoc.
    by rewrite (bind_run _ _ _ _ _ H1), (bind_run _ _ _ _ _ H2).
  - unfold settle. set (t := if forced (ForceType d0) then _ else _).
    set (d3 := match gl_value g Gl.LogId with Some (Gl.VStr s) => SetHeader TraceID s (with_TargetType (plain_type t) d0) | _ => with_TargetType (plain_type t) d0 end).
    assert (norm (bounce_mixed d1) = norm (bounce_mixed d3)) as Hn.
    { assert (plain_type (TargetType d1) = plain_type (TargetType d3)) as Htt.
      { unfold d1, d3, t. rewrite target_type_eq. destruct (gl_value g _) as [[]|]; cbn; rewrite plain_twice;
          destruct (forced _); try done; apply choose_type. }
      unfold d1, d3 in *. rewrite target_type_eq in *. destruct (gl_value g _) as [[]|]; cbn in Htt; unfold bounce_mixed; cbn;
        destruct (negb _ && negb _); unfold norm; cbn; by rewrite Htt. }
    rewrite <- Hn. destruct Hd2 as [-> | [v ->]]; [done|]. unfold bounce_mixed, norm. cbn.
    destruct (negb _ && negb _); cbn; unfold header_Set; by rewrite delete_insert_eq.
  - rewrite <- Hr. unfold bounce_mixed. by destruct Hd2 as [-> | [v ->]], (negb _ && negb _).
  - unfold bounce_mixed. destruct Hd2 as [-> | [v ->]]; destruct (negb _ && negb _); cbn; try done; by apply header_wf_set.
Qed.

(** The request of an object: that of its normal form, once settled; [w] has the orders
    and the boundary it is made with. *)
Definition settled_request (w st : state) : outcome (Request + string) :=
  (MakeRequest (set_self (norm (settle (gldata st) (self st))) w)).1.

(** What an attempt answers, by what was exchanged. *)
Definition answer (o : Z + string) (r : result) : Prop :=
  match o with
  | inr err => r = mkResult None EmptyString (Some err)
  | inl s => (exists err, r = mkResult None EmptyString (Some err)) \/
             exists resp body, r = mkResult (Some resp) body None /\ StatusCode resp = s
  end.

(** Ready for an attempt. *)
Definition ready (st : state) : Prop :=
  Errors (self st) = [] /\ header_wf (Header (self st)) /\ gl_ok (gldata st) (Url (self st)).

Lemma norm_fields d d' : norm d = norm d' -> Url d = Url d' /\ Errors d = Errors d'.
Proof. intros H. split; [exact (f_equal Url H)|exact (f_equal Errors H)]. Qed.

Lemma settle_fields g d : Url (settle g d) = Url d /\ Errors (settle g d) = Errors d.
Proof. by rewrite settle_eq. Qed.

Lemma report_call_ok sTime failed st : exists n l, report_call sTime failed st = (Ret tt, set_reports l (set_net n st)).
Proof.
  unfold report_call, Now, tell, mbind, M_bind. destruct (time_Now _) as [t n]. cbn. by eexists n, _.
Qed.

Lemma fail_with_eq err st : let d := add_error err (self st) in
  fail_with err st = (Ret (true, mkResult None EmptyString (marshalErrors d)), set_self d st).
Proof. done. Qed.

(** Conversion is not to look inside. *)
#[local] Opaque MakeRequest settle.

Lemma respond_sends w st req : ready st -> settled_request w st = Ret (inl req) ->
  exists x failed r st', respond st = (Ret (failed, r), st') /\ sent st' = sent st ++ [x] /\ same_request x.1 req /\
    gldata st' = gldata st /\ Retryable (self st') = Retryable (self st) /\ answer x.2 r /\
    (x_err r = None -> norm (self st') = norm (settle (gldata st) (self st)) /\ header_wf (Header (self st'))).
Proof.
  intros (He & Hh & Hg) Hreq. destruct (prepare_ok st Hg Hh) as (d & n & Hp & Hn & Hr & Hd).
  destruct (MakeRequest_norm (set_self d (set_net n st)) (set_self (norm (settle (gldata st) (self st))) w) Hd (eq_sym Hn)) as [Hm [n1 Hs]].
  unfold settled_request in Hreq. rewrite Hreq in Hm.
  destruct (MakeRequest (set_self d _)) as [[[r|err]|e] s] eqn:Em; [|done..]. cbn in Hm, Hs. subst s.
  unfold respond, gets, mbind at 1, M_bind at 1. rewrite He. rewrite bool_decide_true by done. cbn [negb].
  rewrite (bind_run _ _ _ _ _ Hp), (bind_run _ _ _ _ _ Em).
  assert (exists st1, swap_transport (set_net n1 (set_self d (set_net n st))) = (Ret tt, st1) /\ self st1 = d /\ sent st1 = sent st /\ gldata st1 = gldata st)
    as (st1 & Hsw & Hs1 & Hs2 & Hs3).
  { unfold swap_transport, gets, on_client, modify, mbind, M_bind. cbn. destruct (DisableTransportSwap st); by eexists. }
  rewrite (bind_run _ _ _ _ _ Hsw). unfold do_request, mbind, M_bind.
  destruct (Do _ _ r _) as [[[resp body]|err] n'].
  - assert (self (set_sent (sent st1 ++ [(r, inl (StatusCode resp))]) (set_net n' st1)) = d) as Hd1 by done.
    destruct body as [body|err]; (eexists (r, inl (StatusCode resp)), _, _, _; split; [reflexivity|]; cbn; rewrite Hs1, Hs2, Hs3;
      split_and!; [done..| |done || by intros _]).
    + right. by exists resp, body.
    + left. by exists err.
  - assert (marshalErrors (add_error err d) = Some err) as Hme.
    { unfold marshalErrors. cbn. by rewrite (proj2 (norm_fields _ _ Hn)), (proj2 (settle_fields _ _)), He. }
    rewrite fail_with_eq. eexists (r, inr err), _, _, _. split; [reflexivity|]. cbn. rewrite Hs1, Hs2, Hs3, Hme.
    by split_and!.
Qed.

Lemma contains_spec s l : contains s l = bool_decide (s ∈ l).
Proof.
  induction l as [|x l IH]; cbn; [done|]. destruct (Z.eqb_spec x s) as [->|Hne].
  - symmetry. apply bool_decide_eq_true. apply elem_of_cons. by left.
  - rewrite IH. apply bool_decide_ext. rewrite elem_of_cons. naive_solver.
Qed.

Lemma header_Get_Set k v h : header_Get k (header_Set k v h) = v.
Proof. unfold header_Get, header_Set. by rewrite lookup_insert_eq. Qed.

Lemma settled_request_norm w st st' req : settled_request w st = Ret (inl req) ->
  norm (settle (gldata st') (self st')) = norm (settle (gldata st) (self st)) -> settled_request w st' = Ret (inl req).
Proof. unfold settled_request. by intros Hr ->. Qed.

(** After an answered attempt the object asks for the same request. *)
Lemma settled_again w st st' req : settled_request w st = Ret (inl req) -> gldata st' = gldata st ->
  norm (self st') = norm (settle (gldata st) (self st)) -> settled_request w st' = Ret (inl req).
Proof.
  intros Hr Hg Hn. apply (settled_request_norm w st); [done|].
  by rewrite Hg, <- settle_norm, Hn, settle_norm, settle_twice.
Qed.

Lemma attempt_sends w st req : ready st -> settled_request w st = Ret (inl req) ->
  exists x r st', getResponseBytes st = (Ret r, st') /\ sent st' = sent st ++ [x] /\ same_request x.1 req /\
    Retryable (self st') = Retryable (self st) /\ answer x.2 r /\
    (x_err r = None -> ready st' /\ settled_request w st' = Ret (inl req)).
Proof.
  intros Hready Hreq. unfold getResponseBytes, Now, mbind, M_bind. destruct (time_Now (net st)) as [t n].
  assert (ready (set_net n st)) as Hr0 by exact Hready. pose proof Hready as (He & Hh & Hg).
  assert (settled_request w (set_net n st) = Ret (inl req)) as Hq0 by by apply (settled_request_norm w st).
  destruct (respond_sends w _ _ Hr0 Hq0) as (x & failed & r & st' & H1 & H2 & H3 & H4 & H5 & H6 & H7).
  destruct (report_call_ok t failed st') as (n' & l & Hrep).
  exists x, r, (set_reports l (set_net n' st')). unfold reporting. rewrite H1, (bind_run _ _ _ _ _ Hrep).
  split_and!; [done..|]. intros Hx. destruct (H7 Hx) as [Hn Hw]. cbn [gldata self set_net set_reports] in *. split.
  - destruct (norm_fields _ _ Hn) as [Hu Hne]. destruct (settle_fields (gldata st) (self st)) as [Hu' Hne'].
    split_and!; cbn; [by rewrite Hne, Hne'|done|]. by rewrite H4, Hu, Hu'.
  - by apply (settled_again w st).
Qed.

(** What a run of attempts does, given the policy at its start. *)
Definition retried (rt : HttpClientRetryable) (req : Request) (st : state) (r : result) (st' : state) : Prop :=
  exists xs x, sent st' = sent st ++ xs ++ [x] /\ Forall (fun y => same_request y.1 req) (xs ++ [x]) /\
    Forall (fun y => exists s, y.2 = inl s /\ s ∈ RetryableStatus rt) xs /\
    (xs ≠ [] -> Enable rt = true /\ Attempt rt + len xs <= RetryCount rt) /\
    match x.2 with
    | inr err => r = mkResult None EmptyString (Some err)
    | inl s =>
        (exists err, r = mkResult None EmptyString (Some err)) \/
        exists resp body, r = mkResult (Some resp) body None /\ StatusCode resp = s /\
          header_Get "Retry-Count" (p_Header resp) = itoa (Attempt rt + len xs) /\
          (Enable rt = true -> s ∈ RetryableStatus rt -> RetryCount rt <= Attempt rt + len xs)
    end.

Lemma isRetryable_eq resp st : let r := Retryable (self st) in
  isRetryableRequest resp st =
    if Enable r && (Attempt r <? RetryCount r) && bool_decide (StatusCode resp ∈ RetryableStatus r)
    then (Ret false, set_self (with_Retryable (mkRetryable (RetryableStatus r) (RetryTime r) (RetryCount r) (Attempt r + 1) (Enable r)) (self st))
                       (set_net (time_Sleep (RetryTime r) (net st)) st))
    else (Ret true, st).
Proof. cbv zeta. rewrite <- contains_spec. unfold isRetryableRequest, gets, mbind, M_bind. by destruct (_ && _). Qed.

Lemma attempts_retry w fuel st req : ready st -> settled_request w st = Ret (inl req) ->
  (Z.to_nat (RetryCount (Retryable (self st)) - Attempt (Retryable (self st))) < fuel)%nat ->
  exists r st', attempts fuel st = (Ret (Some r), st') /\ retried (Retryable (self st)) req st r st'.
Proof.
  revert st. induction fuel as [|fuel IH]; intros st Hready Hreq Hf; [lia|]. cbn [attempts].
  destruct (attempt_sends w st req Hready Hreq) as (x & r & st1 & H1 & H2 & H3 & H4 & H5 & H6). set (rt := Retryable (self st)) in *.
  rewrite (bind_run _ _ _ _ _ H1). destruct (x_err r) as [err|] eqn:Ee.
  - eexists _, st1. split; [done|]. exists [], x. split_and!; [done|by apply Forall_singleton|by apply Forall_nil|by intros []|].
    destruct x as [y [s|err']]; cbn in *; [|by subst r; injection Ee as ->]. left. by exists err.
  - destruct (H6 eq_refl) as [Hready1 Hreq1].
    assert (exists s resp body, x.2 = inl s /\ r = mkResult (Some resp) body None /\ StatusCode resp = s) as (s & resp & body & Hx & -> & Hs).
    { destruct x as [y [s|err']]; cbn in *; [|by subst r]. destruct H5 as [[err ->]|(resp & body & -> & ?)]; [done|]. by exists s, resp, body. }
    cbn [x_resp x_body]. pose proof (isRetryable_eq resp st1) as Hi. cbv zeta in Hi. rewrite H4 in Hi.
    match type of Hi with _ = if ?c then _ else _ => destruct c eqn:Ec end; rewrite (bind_run _ _ _ _ _ Hi).
    + apply andb_prop in Ec as [[Hen Hlt%Z.ltb_lt]%andb_prop Hin%bool_decide_eq_true]. rewrite Hs in Hin.
      set (st2 := set_self (with_Retryable (mkRetryable (RetryableStatus rt) (RetryTime rt) (RetryCount rt) (Attempt rt + 1) (Enable rt)) (self st1))
        (set_net (time_Sleep (RetryTime rt) (net st1)) st1)).
      assert (settled_request w st2 = Ret (inl req)) as Hreq2.
      { apply (settled_request_norm w st1); [done|]. by rewrite <- !settle_norm. }
      destruct (IH st2) as (r & st' & Hr & xs & z & G1 & G2 & G3 & G4 & G5); [exact Hready1|done|cbn; lia|].
      exists r, st'. split; [exact Hr|]. cbn [self set_self Retryable with_Retryable st2 Attempt Enable RetryCount RetryableStatus] in *.
      exists (x :: xs), z. rewrite G1. cbn [st2 set_self set_net sent]. rewrite H2, <- app_assoc.
      split_and!; [done|by constructor|by constructor; [exists s|]| |].
      * intros _. split; [done|]. rewrite len_cons. destruct xs as [|y xs]; [rewrite len_nil; lia|]. destruct G4 as [_ G4]; [done|]. lia.
      * destruct z.2; [|done]. destruct G5 as [G5|(resp' & body' & E1 & E2 & E3 & E4)]; [by left|right]. exists resp', body'.
        rewrite len_cons. replace (Attempt rt + (1 + len xs)) with (Attempt rt + 1 + len xs) by lia. done.
    + eexists _, st1. cbn. unfold mbind, M_bind. split; [reflexivity|]. exists [], x. rewrite Hx.
      split_and!; [done|by apply Forall_singleton|by apply Forall_nil|by intros []|]. right. eexists _, _. split; [done|]. cbn. rewrite H4, len_nil, Z.add_0_r, header_Get_Set.
      split_and!; [done..|]. intros Hen Hin. rewrite Hen, Hs, bool_decide_true, andb_true_r in Ec by done. cbn in Ec. by apply Z.ltb_ge in Ec.
Qed.

(** C13 A request that can be made, of an object without errors whose headers its methods have set and whose token
    can be made, is sent again while its status asks for it, and no longer: [EndBytes] ends,
    after at most as many further attempts as the policy has left; all but the last were answered with a status
    to retry; and the result is that of the last attempt, its response counting the attempts, and not one to retry
    unless the policy is used up.  Each attempt makes its request again, with new orders of its loops over maps and
    a new boundary; what is sent has the same method, URL, host and body as the request [req] that the object makes
    under any one choice of them, and the same headers but for the token, except that the fields of a multipart
    body may be in another order, and that its boundary, in the body and in the content type, is another one. *)
Theorem EndBytes_retries fuel callback w st req : ready st -> settled_request w st = Ret (inl req) ->
  (Z.to_nat (RetryCount (Retryable (self st)) - Attempt (Retryable (self st))) < fuel)%nat ->
  exists r st', EndBytes fuel callback st = (Ret (Some r), st') /\ retried (Retryable (self st)) req st r st'.
Proof.
  intros Hready Hreq Hf. destruct (attempts_retry w fuel st req Hready Hreq Hf) as (r & st' & Hr & Ht).
  unfold EndBytes. rewrite (bind_run _ _ _ _ _ Hr). destruct r as [[resp|] body [err|]]; try by eexists _, _.
  destruct callback; by eexists _, _.
Qed.

#[local] Transparent MakeRequest settle.

(** ** The query *)

Lemma MakeRequest_url st req st' : MakeRequest st = (Ret (inl req), st') ->
  exists o url, NewRequest (Method (self st)) (Url (self st)) = inl url /\
    u_RawQuery (r_URL req) = Encode (add_query (@range o _ (QueryData (self st))) (parsed_query (u_RawQuery url))).
Proof.
  unfold MakeRequest, gets, mbind at 1, M_bind at 1. destruct (String.eqb _ _); [done|].
  unfold mbind at 1, M_bind at 1.
  destruct (make_body _ _) as [[[[body ct]|err]|e] s]; [|done..]. destruct (NewRequest _ _) as [url|err]; [|done].
  destruct (Order_run s) as (o & n & H1). rewrite (bind_run _ _ _ _ _ H1).
  destruct (copy_headers _ _ _) as [[h host]|]; [|done].
  destruct (Order_run (set_net n s)) as (o1 & n1 & H2). rewrite (bind_run _ _ _ _ _ H2).
  intros [= <- <-]. by exists o1, url.
Qed.

(** C29 The query of the request made, parsed, gives each key the values it has in the URL, in their
    order, followed by the ones added by [Query] and [Param]: whatever bytes they have, they arrive. *)
Theorem query_arrives st req st' : MakeRequest st = (Ret (inl req), st') ->
  exists url m, NewRequest (Method (self st)) (Url (self st)) = inl url /\ ParseQuery (u_RawQuery (r_URL req)) = Some m /\
    forall k, default [] (m !! k) = default [] (parsed_query (u_RawQuery url) !! k) ++ default [] (QueryData (self st) !! k).
Proof.
  intros H. destruct (MakeRequest_url _ _ _ H) as (o & url & Hu & Hq). rewrite add_query_order in Hq by apply parsed_query_filled.
  set (qd := QueryData (self st)) in *. pose proof (NoDup_fst_map_to_list qd) as Hn.
  pose proof (parsed_query_filled (u_RawQuery url)) as Hf.
  exists url, (add_query (map_to_list qd) (parsed_query (u_RawQuery url))). split; [done|]. split.
  - rewrite Hq. apply ParseQuery_Encode_filled. by apply (add_query_spec _ _ EmptyString).
  - intros k. rewrite (proj2 (add_query_spec _ _ k Hn Hf)). by rewrite list_to_map_to_list.
Qed.

(** ** Errors *)

(** Nothing is sent while the object has errors, and the answer is all of them. *)
Lemma errors_block fuel callback st : Errors (self st) ≠ [] ->
  exists st', EndBytes (S fuel) callback st = (Ret (Some (mkResult None EmptyString (marshalErrors (self st)))), st') /\ sent st' = sent st.
Proof.
  intros He. unfold EndBytes.
  assert (exists err, marshalErrors (self st) = Some err) as [err Hm].
  { unfold marshalErrors. destruct (Errors (self st)) as [|e [|e' l]]; [done|by eexists..]. }
  assert (exists st', getResponseBytes st = (Ret (mkResult None EmptyString (marshalErrors (self st))), st') /\ sent st' = sent st) as (st' & Hg & Hs).
  { unfold getResponseBytes, Now, mbind, M_bind. destruct (time_Now (net st)) as [t n].
    assert (respond (set_net n st) = (Ret (false, mkResult None EmptyString (marshalErrors (self st))), set_net n st)) as Hr.
    { unfold respond, gets, mbind, M_bind. by rewrite bool_decide_false by done. }
    unfold reporting. rewrite Hr. destruct (report_call_ok t false (set_net n st)) as (n' & l & Hrep).
    rewrite (bind_run _ _ _ _ _ Hrep). by eexists. }
  exists st'. split; [|done].
  assert (attempts (S fuel) st = (Ret (Some (mkResult None EmptyString (Some err))), st')) as Ha.
  { cbn [attempts]. rewrite (bind_run _ _ _ _ _ Hg). by rewrite Hm. }
  rewrite (bind_run _ _ _ _ _ Ha). by rewrite Hm.
Qed.

(** ** Clones *)

(** A clone shares the [http.Client] of its parent: a timeout or a redirect policy set on the clone is that of
    the parent's requests too, where the comment of [Clone] promises the clone a client of its own. *)
Theorem clone_shares_client st timeout policy : let d := self st in
  let st' := exec (Timeout timeout) (exec (RedirectPolicy policy) (set_self (Clone d) st)) in
  c_Timeout (client_of (set_self d st')) = timeout /\ c_CheckRedirect (client_of (set_self d st')) = Some policy.
Proof.
  cbv zeta. unfold exec, Timeout, RedirectPolicy, on_client, modify, client_of. cbn. by rewrite !lookup_insert_eq.
Qed.

End client.

(** ** A concrete world

    A network that plays a script, without JSON or files. *)

Module Script.

Definition reply : Type := Response * (string + string) + string.

#[export] Instance list_order : RangeOrder := {
  range _ m := map_to_list m; range_perm _ _ := Permutation_refl _
}.

#[export] Instance script_net : Net (list reply) := {
  time_Now l := (0, l);
  map_order l := (list_order, l);
  random_boundary l := ("b0" +:+ itoa (len l), l);
  time_Sleep _ l := l;
  Do _ _ _ l := match l with r :: l => (r, l) | [] => (inr "connection refused"%string, []) end
}.

#[export] Instance script_std : Std := {
  FormatFloat64 z := itoa z; FormatFloat32 z := itoa z; float64_of_32 z := z;
  url_Parse_error _ := None; ParseQuery_error _ := "invalid semicolon separator in query"; ParseRequestURI s := Some s;
  NewRequest _ u := inl (mkURL EmptyString u EmptyString); sprint_s v := match v with Gl.VStr s => s | _ => EmptyString end;
  cookie_text c := CName c +:+ "=" +:+ CValue c; ReadFile _ := inr "no such file"%string; filepath_Abs s := inl s;
  filepath_Base s := s; TrimSpace s := s
}.

#[export] Instance script_json : Json := {
  json_decode _ := None; json_Marshal _ := inl "[1]"%string; json_strings _ := inr "invalid character"%string;
  json_object _ := inr "invalid character"%string; json_numbers _ := inr "invalid character"%string; json_Unmarshal _ := None
}.

Definition blank : HttpClient := mkHttpClient EmptyString EmptyString ∅ EmptyString EmptyString ∅ [] ∅ ∅ [] false EmptyString 0 0 [] []
  (EmptyString, EmptyString) false false (mkRetryable [] 0 0 0 false) false false.

Definition fresh (script : list reply) : state :=
  New (Some 1%positive) false 0 0 (mkState blank ∅ ∅ false None script [] []).

Definition with_self (f : HttpClient -> HttpClient) (st : state (N := list reply)) : state := set_self (f (self st)) st.

Definition replied (s : Z) : reply := inl (mkResponse s ∅, inl "body"%string).

(** A GET with at most two retries of status 500. *)
Definition retrying : state := with_self (fun d => Retry (fun _ => "text"%string) 2 0 [500] (Get "http://a/b" d))
  (fresh [replied 500; replied 500; replied 500]).

Definition request_or (o : outcome (Request + string)) : Request :=
  match o with Ret (inl r) => r | _ => mkRequest EmptyString (mkURL EmptyString EmptyString EmptyString) NoBody ∅ None end.

Example three_sent : length (sent (exec (EndBytes 3 false) retrying)) = 3%nat. Proof. by vm_compute. Qed.

(** With a content type of [text/html] nothing can be sent. *)
Example html_unsendable :
  let st := with_self (fun d => SetHeader "Content-Type" "text/html" (Post "http://a" d)) (fresh [replied 200]) in
  let '(r, st') := EndBytes 1 false st in
  r = Ret (Some (mkResult None EmptyString (Some "TargetType 'html' could not be determined"%string))) /\ sent st' = [].
Proof. by vm_compute. Qed.

(** A forced type [urlencoded] is not one the request is made with: the data goes as JSON. *)
Example urlencoded_ignored :
  let st := with_self (fun d => set_data [("a"%string, VString "1")] (Type_ "urlencoded" (Post "http://a" d))) (fresh []) in
  let r := request_or (settled_request st st) in
  Errors (self st) = [] /\ header_Get "Content-Type" (r_Header r) = "application/json".
Proof. by vm_compute. Qed.

(** The JSON part of a multipart body is named after the format's mistake. *)
Example json_part_misnamed :
  let st := with_self (fun d => SendSlice [VNumber "1"] (Type_ "multipart" (Post "http://a" d))) (fresh []) in
  r_Body (request_or (settled_request st st)) =
    Multipart "b00" [JsonPart ("form-data; name=" +:+ quote +:+ "%!d(string=data)hc" +:+ quote) "[1]"].
Proof. by vm_compute. Qed.

(** A number sent before a form with its key is lost. *)
Example number_lost : add_form_value "a" "2" {[ "a"%string := VNumber "1" ]} = {[ "a"%string := VStrings ["2"%string] ]}.
Proof. by vm_compute. Qed.

(** A second request of the same object is not retried: the attempts are those of the first. *)
Example attempts_not_reset :
  let st := exec (EndBytes 3 false) retrying in
  let st := with_self (Get "http://a/c") (set_sent [] (set_net [replied 500; replied 200] st)) in
  length (sent (exec (EndBytes 3 false) st)) = 1%nat.
Proof. by vm_compute. Qed.

(** A form with a file, retried once: the two attempts have different boundaries. *)
Definition uploading : state := with_self (fun d => Retry (fun _ => "text"%string) 1 0 [500]
    (add_file (mkFile "f.txt" "file1" "data") (set_data [("a"%string, VString "1"); ("b"%string, VString "2")]
      (Type_ "multipart" (Post "http://a/b" d)))))
  (fresh [replied 500; replied 200]).

Example boundary_redrawn : map (fun x => header_Get "Content-Type" (r_Header x.1)) (sent (exec (EndBytes 2 false) uploading)) =
  ["multipart/form-data; boundary=b02"; "multipart/form-data; boundary=b01"]%string.
Proof. by vm_compute. Qed.

Lemma EndBytes_retries_witness :
  ready uploading /\ settled_request uploading uploading = Ret (inl (request_or (settled_request uploading uploading))) /\
  exists r st', EndBytes 2 true uploading = (Ret (Some r), st') /\
    retried (Retryable (self uploading)) (request_or (settled_request uploading uploading)) uploading r st'.
Proof.
  assert (ready uploading) as Hr.
  { split_and!; [done|apply map_Forall_empty|]. split; [done|by intros]. }
  assert (settled_request uploading uploading = Ret (inl (request_or (settled_request uploading uploading)))) as Hq by by vm_compute.
  split_and!; [done..|]. apply (EndBytes_retries 2 true uploading); [done..|]. vm_compute. lia.
Defined.

Lemma form_resent_reversed_witness :
  let m : Values := {[ "a"%string := ["1"; "2"]%string ]} in
  ParseQuery "a=1&a=2" = Some m /\
  let st' := set_self (Send (CString "a=1&a=2") (Post "http://a" (self (fresh [])))) (fresh []) in
  exists req b, (MakeRequest st').1 = Ret (inl req) /\
    header_Get "Content-Type" (r_Header req) = "application/x-www-form-urlencoded" /\
    r_Body req = Content b /\ ParseQuery b = Some (@rev string <$> m).
Proof.
  split; [by vm_compute|]. apply (form_resent_reversed (fresh []) "http://a" "a=1&a=2" _ (mkURL EmptyString "http://a" EmptyString)); [done..| | |done].
  - by vm_compute.
  - by apply insert_non_empty.
Defined.

Definition querying : state := with_self (fun d => Param "b" "&=" (Get "http://a" d)) (fresh []).

Lemma query_arrives_witness :
  MakeRequest querying = (Ret (inl (request_or (MakeRequest querying).1)), querying) /\
  exists url m, NewRequest "GET" "http://a" = inl url /\
    ParseQuery (u_RawQuery (r_URL (request_or (MakeRequest querying).1))) = Some m /\
    forall k, default [] (m !! k) = default [] (parsed_query (u_RawQuery url) !! k) ++ default [] (QueryData (self querying) !! k).
Proof.
  assert (MakeRequest querying = (Ret (inl (request_or (MakeRequest querying).1)), querying)) as H by by vm_compute.
  split; [done|]. apply (query_arrives querying _ querying H).
Defined.

End Script.

End DhttpClient.
