(* ===== verification/DhttpCopy.v ===== *)
(** * What a clone of an HTTP client shares ([net/dhttp/client.go])

    Slices are windows on arrays, maps are references: copying an object copies
    neither.  Here both live in a store, and the copying functions of [Clone] make
    new ones. *)

From S2P Require Import Prelude.

Module DhttpCopy.

Section store.
Context {V : Type}.

(** Arrays and maps by address; [nil] is [None]. *)
Record store : Type := mkStore { arrays : gmap nat (list V); maps : gmap nat (gmap string V) }.

Definition slice : Type := option (nat * nat).

Definition with_arrays (f : gmap nat (list V) -> gmap nat (list V)) (s : store) : store := mkStore (f (arrays s)) (maps s).
Definition with_maps (f : gmap nat (gmap string V) -> gmap nat (gmap string V)) (s : store) : store := mkStore (arrays s) (f (maps s)).

Definition length_of (l : slice) : nat := match l with Some (_, n) => n | None => 0%nat end.
Definition read (s : store) (l : slice) : list V :=
  match l with Some (a, n) => take n (default [] (arrays s !! a)) | None => [] end.

(** [l[i] = x], in range. *)
Definition write (l : slice) (i : nat) (x : V) (s : store) : store :=
  match l with Some (a, _) => with_arrays (alter (<[i := x]>) a) s | None => s end.

(** [make([]T, n)], of zeros. *)
Definition make (zero : V) (n : nat) (s : store) : slice * store :=
  let a := fresh (dom (arrays s)) in (Some (a, n), with_arrays (<[a := replicate n zero]>) s).

(** [for i := range old { new[i] = old[i] }] *)
Definition copy_loop (new old : slice) (is_ : list nat) (s : store) : store :=
  foldl (fun s i => match read s old !! i with Some x => write new i x s | None => s end) s is_.

Definition copy_array (zero : V) (old : slice) (s : store) : slice * store :=
  match old with
  | None => (None, s)
  | Some (_, n) => let '(new, s) := make zero n s in (new, copy_loop new old (seq 0 n) s)
  end.

(* [net/dhttp/client.go:172-181] shallowCopyDataSlice *)
Definition shallowCopyDataSlice (nil : V) (old : slice) : store -> slice * store := copy_array nil old.
(* [net/dhttp/client.go:183-192] shallowCopyFileArray *)
Definition shallowCopyFileArray (File : V) (old : slice) : store -> slice * store := copy_array File old.
(* [net/dhttp/client.go:194-203] shallowCopyCookies *)
Definition shallowCopyCookies (nil : V) (old : slice) : store -> slice * store := copy_array nil old.
(* [net/dhttp/client.go:205-214] shallowCopyErrors *)
Definition shallowCopyErrors (nil : V) (old : slice) : store -> slice * store := copy_array nil old.

(* [net/dhttp/client.go:161-170] shallowCopyData *)
Definition shallowCopyData (old : option nat) (s : store) : option nat * store :=
  match old with
  | None => (None, s)
  | Some m =>
      let n := fresh (dom (maps s)) in
      let entries := map_to_list (default ∅ (maps s !! m)) in
      (Some n, with_maps (<[n := foldl (fun new kv => <[kv.1 := kv.2]> new) ∅ entries]>) s)
  end.

Definition clone_step (zero : V) (ms : gmap string slice * store) (kv : string * slice) : gmap string slice * store :=
  let '(newMap, s) := ms in
  let '(new, s) := make zero (length_of kv.2) s in
  (<[kv.1 := new]> newMap, copy_loop new kv.2 (seq 0 (length_of kv.2)) s).

(** The values are slices; one that is nil becomes empty. *)
(* [net/dhttp/client.go:150-159] cloneMapArray *)
Definition cloneMapArray (zero : V) (old : gmap string slice) (s : store) : gmap string slice * store :=
  foldl (clone_step zero) (∅, s) (map_to_list old).

(** ** Properties *)

(** A slice of an array that is there and long enough. *)
Definition valid (s : store) (l : slice) : Prop :=
  match l with Some (a, n) => exists v, arrays s !! a = Some v /\ (n <= length v)%nat | None => True end.

(** Two slices of different arrays. *)
Definition apart (l k : slice) : Prop := match l, k with Some (a, _), Some (b, _) => a ≠ b | _, _ => True end.

Lemma valid_read s l : valid s l -> length (read s l) = length_of l.
Proof. destruct l as [[a n]|]; [|done]. intros (v & Hv & Hn). cbn. rewrite Hv. cbn. rewrite length_take. lia. Qed.

Lemma write_apart s l k i x : apart l k -> read (write l i x s) k = read s k.
Proof. destruct l as [[a n]|]; [|done]. destruct k as [[b m]|]; [|done]. intros H. cbn. by rewrite lookup_alter_ne. Qed.

Lemma write_valid s l k i x : valid s k -> valid (write l i x s) k.
Proof.
  destruct l as [[a n]|]; [|done]. destruct k as [[b m]|]; [|done]. intros (v & Hv & Hm). cbn.
  destruct (decide (a = b)) as [->|Hne]; [|rewrite lookup_alter_ne by done; by exists v].
  rewrite lookup_alter_eq, Hv. eexists. split; [done|]. by rewrite length_insert.
Qed.

Lemma make_ok zero n s new s' : make zero n s = (new, s') ->
  valid s' new /\ read s' new = replicate n zero /\ maps s' = maps s /\ length_of new = n /\
  forall k, valid s k -> apart new k /\ valid s' k /\ read s' k = read s k.
Proof.
  unfold make. intros [= <- <-]. set (a := fresh (dom (arrays s))).
  assert (arrays s !! a = None) as Ha by (apply not_elem_of_dom, is_fresh). cbn.
  rewrite lookup_insert_eq. cbn. rewrite take_replicate, Nat.min_id. split_and!; try done.
  - eexists. split; [done|]. by rewrite length_replicate.
  - intros [[b m]|]; [|done]. intros (v & Hv & Hm). cbn. assert (a ≠ b) by congruence. rewrite lookup_insert_ne by done.
    split_and!; try done. by exists v.
Qed.

Lemma read_write s a n i x : valid s (Some (a, n)) -> (i < n)%nat ->
  read (write (Some (a, n)) i x s) (Some (a, n)) = <[i := x]> (read s (Some (a, n))).
Proof.
  intros (v & Hv & Hn) Hi. cbn. rewrite lookup_alter_eq, Hv. cbn. apply list_eq. intros j.
  destruct (decide (i = j)) as [<-|Hne].
  - rewrite list_lookup_insert_eq by (rewrite length_take; lia). rewrite lookup_take_lt by done.
    by rewrite list_lookup_insert_eq by lia.
  - rewrite list_lookup_insert_ne by done. destruct (decide (j < n)%nat).
    + rewrite !lookup_take_lt by done. by rewrite list_lookup_insert_ne.
    + rewrite !lookup_take_ge by lia. done.
Qed.

(** Copying the first [i] places. *)
Lemma copy_loop_ok new old s n : valid s new -> valid s old -> apart new old -> length_of new = n -> length_of old = n ->
  forall i, (i <= n)%nat -> exists s', copy_loop new old (seq 0 i) s = s' /\
    valid s' new /\ maps s' = maps s /\ read s' new = take i (read s old) ++ drop i (read s new) /\
    forall k, valid s k -> apart new k -> valid s' k /\ read s' k = read s k.
Proof.
  intros Hn Ho Ha Hl1 Hl2 i. induction i as [|i IH]; intros Hi; [by eexists|].
  destruct (IH ltac:(lia)) as (s1 & E & Hv1 & Hm1 & Hr1 & Hk1). rewrite seq_S. unfold copy_loop in *. rewrite foldl_app, E. cbn.
  destruct (Hk1 old Ho Ha) as [Ho1 Hro]. rewrite Hro.
  assert (i < length (read s old))%nat as Hlt by (rewrite valid_read by done; lia).
  destruct (lookup_lt_is_Some_2 _ _ Hlt) as [x Hx]. rewrite Hx. eexists. split; [done|].
  destruct new as [[a m]|]; [|cbn in Hl1; lia]. cbn in Hl1. subst m.
  split; [by apply write_valid|]. split; [done|]. split.
  - rewrite read_write by (done || lia). rewrite Hr1. rewrite insert_app_r_alt by (rewrite length_take; lia).
    rewrite length_take. replace (i - i `min` length (read s old))%nat with 0%nat by lia.
    pose proof (valid_read s (Some (a, n)) Hn) as Hln. cbn [length_of] in Hln.
    destruct (drop i (read s (Some (a, n)))) as [|y d] eqn:Ed.
    { apply (f_equal length) in Ed. rewrite length_drop, Hln in Ed. cbn in Ed. lia. }
    cbn [insert list_insert]. rewrite (take_S_r _ _ x Hx), <- app_assoc. cbn. do 2 f_equal.
    apply (f_equal (drop 1)) in Ed. rewrite drop_drop in Ed. cbn in Ed. by rewrite Nat.add_1_r in Ed.
  - intros k Hk Hak. destruct (Hk1 k Hk Hak) as [Hvk Hrk]. split; [by apply write_valid|]. by rewrite write_apart.
Qed.

Lemma copied zero n old s new s1 : make zero n s = (new, s1) -> valid s old -> length_of old = n ->
  exists s', copy_loop new old (seq 0 n) s1 = s' /\ valid s' new /\ maps s' = maps s /\ read s' new = read s old /\
    length_of new = n /\ forall k, valid s k -> apart new k /\ valid s' k /\ read s' k = read s k.
Proof.
  intros Hmake Ho Hl. destruct (make_ok _ _ _ _ _ Hmake) as (Hv & Hr & Hm & Hln & Hk).
  destruct (Hk old Ho) as (Ha & Ho1 & Hro).
  destruct (copy_loop_ok new old s1 n Hv Ho1 Ha Hln Hl n ltac:(lia)) as (s' & E & Hv' & Hm' & Hr' & Hk').
  exists s'. split_and!; try done; [congruence| |].
  - rewrite Hr', Hro, Hr, drop_replicate, Nat.sub_diag, app_nil_r. apply take_ge. rewrite valid_read by done. lia.
  - intros k Hvk. destruct (Hk k Hvk) as (Hak & Hvk1 & Hrk1). destruct (Hk' k Hvk1 Hak) as [Hvk' Hrk'].
    split_and!; [done..|]. by rewrite Hrk'.
Qed.

(** The slices of a clone are its own: a copy has the elements of the original and is
    nil exactly if the original is, nothing that was there before has changed, and
    whatever is written into the copy, every slice that was there before, the
    original among them, reads as it did. *)
Theorem copies_are_apart zero old s new s' : valid s old -> copy_array zero old s = (new, s') ->
  read s' new = read s old /\ (new = None <-> old = None) /\ maps s' = maps s /\
  forall k i x, valid s k -> read s' k = read s k /\ read (write new i x s') k = read s k.
Proof.
  intros Ho. unfold copy_array. destruct old as [[a n]|].
  - destruct (make zero n s) as [new1 s1] eqn:Em. intros [= <- <-].
    destruct (copied zero n (Some (a, n)) s new1 s1 Em Ho eq_refl) as (s' & -> & Hv & Hm & Hr & Hl & Hk).
    split_and!; try done.
    + unfold make in Em. by injection Em as <- <-.
    + intros k i x Hvk. destruct (Hk k Hvk) as (Ha & _ & Hrk). split; [done|]. by rewrite write_apart.
  - intros [= <- <-]. by split_and!.
Qed.

(** The copy of a map is another map with the same entries. *)
Lemma shallowCopyData_apart old s new s' : shallowCopyData old s = (new, s') ->
  match old, new with
  | None, None => s' = s
  | Some m, Some n => maps s' !! n = Some (default ∅ (maps s !! m)) /\ maps s !! n = None /\ arrays s' = arrays s /\
      (forall k, k ≠ n -> maps s' !! k = maps s !! k)
  | _, _ => False
  end.
Proof.
  unfold shallowCopyData. destruct old as [m|]; intros [= <- <-]; [|done]. cbn. rewrite lookup_insert_eq.
  split_and!; [f_equal|apply not_elem_of_dom, is_fresh|done|intros k Hk; by rewrite lookup_insert_ne].
  rewrite <- (list_to_map_to_list (M := gmap string) (default ∅ (maps s !! m))) at 2.
  assert (forall l (acc : gmap string V), NoDup l.*1 -> (forall k, k ∈ l.*1 -> acc !! k = None) ->
    foldl (fun (new : gmap string V) kv => <[kv.1 := kv.2]> new) acc l = list_to_map l ∪ acc) as H.
  { induction l as [|[k v] l IH]; intros acc Hd Hacc; [cbn; by rewrite (left_id_L ∅ (∪))|].
    cbn in Hd. apply NoDup_cons in Hd as [Hk Hd]. cbn. rewrite IH; [|done|].
    - rewrite <- insert_union_l, insert_union_r; [done|]. by apply not_elem_of_list_to_map.
    - intros k' Hk'. rewrite lookup_insert_ne by (by intros ->). apply Hacc. by right. }
  rewrite H; [by rewrite (right_id_L ∅ (∪))|apply NoDup_fst_map_to_list|done].
Qed.

(** The map as far as it is made: its slices are new, with the elements of the old
    ones, and what was there is as it was. *)
Definition cloning (old : gmap string slice) (s : store) (ms : gmap string slice * store) : Prop :=
  (forall t, valid s t -> valid ms.2 t /\ read ms.2 t = read s t) /\
  (forall k l', ms.1 !! k = Some l' -> l' ≠ None /\ valid ms.2 l' /\ (forall t, valid s t -> apart l' t) /\
    exists v, old !! k = Some v /\ read ms.2 l' = read s v).

Lemma clone_step_ok zero old s ms kv : (forall k l, old !! k = Some l -> valid s l) -> old !! kv.1 = Some kv.2 ->
  cloning old s ms -> cloning old s (clone_step zero ms kv) /\ dom (clone_step zero ms kv).1 = {[kv.1]} ∪ dom ms.1.
Proof.
  destruct ms as [m s0], kv as [k v]. cbn [fst snd]. intros Hv Hk [Hs Hm]. cbn [fst snd] in *. unfold clone_step.
  destruct (make zero (length_of (k, v).2) s0) as [new s1] eqn:Em. cbn [snd fst] in *.
  destruct (Hs v (Hv k v Hk)) as [Hv0 Hr0].
  destruct (copied zero _ v s0 new s1 Em Hv0 eq_refl) as (s' & -> & Hvn & _ & Hrn & _ & Hkeep).
  split; [|cbn; by rewrite dom_insert_L]. split; cbn [fst snd].
  - intros t Ht. destruct (Hs t Ht) as [Ht0 Hrt]. destruct (Hkeep t Ht0) as (_ & Ht' & ->). done.
  - intros k' l' Hl'. destruct (decide (k = k')) as [<-|Hne].
    + rewrite lookup_insert_eq in Hl'. injection Hl' as <-. split; [unfold make in Em; by injection Em as <- <-|].
      split; [done|]. split; [intros t Ht; apply (Hkeep t); by apply Hs|]. exists v. by rewrite Hrn.
    + rewrite lookup_insert_ne in Hl' by done. destruct (Hm _ _ Hl') as (Hn & Hvl & Ha & w & Hw & Hrw).
      destruct (Hkeep l' Hvl) as (_ & Hvl' & Hrl). split_and!; [done..|]. exists w. by rewrite Hrl.
Qed.

Lemma clone_loop_ok zero old s l : (forall k l, old !! k = Some l -> valid s l) -> forall ms,
  (forall kv, kv ∈ l -> old !! kv.1 = Some kv.2) -> cloning old s ms ->
  cloning old s (foldl (clone_step zero) ms l) /\ dom (foldl (clone_step zero) ms l).1 = dom ms.1 ∪ list_to_set l.*1.
Proof.
  intros Hv. induction l as [|kv l IH]; intros ms Hl Hc; [split; [done|]; set_solver|]. cbn [foldl].
  destruct (clone_step_ok zero old s ms kv Hv (Hl kv ltac:(by left)) Hc) as [Hc' Hd].
  destruct (IH (clone_step zero ms kv) (fun kv' Hin => Hl kv' ltac:(by right)) Hc') as [H1 H2]. split; [done|].
  rewrite H2, Hd. cbn. set_solver.
Qed.

(** Headers, queries and forms: the keys are the same, each with a slice of its own. *)
Lemma cloneMapArray_apart zero old s new s' : (forall k l, old !! k = Some l -> valid s l) -> cloneMapArray zero old s = (new, s') ->
  dom new = dom old /\
  forall k l', new !! k = Some l' -> l' ≠ None /\ (exists l, old !! k = Some l /\ read s' l' = read s l) /\
    forall t i x, valid s t -> read s' t = read s t /\ read (write l' i x s') t = read s t.
Proof.
  intros Hv E. unfold cloneMapArray in E.
  destruct (clone_loop_ok zero old s (map_to_list old) Hv (∅, s)) as [[Hs Hm] Hd].
  - intros [k v] Hin. by apply elem_of_map_to_list.
  - split; [done|]. intros k l'. cbn. by rewrite lookup_empty.
  - rewrite E in *. cbn [fst snd] in *. split.
    { rewrite Hd, dom_empty_L. rewrite (left_id_L ∅ (∪)). rewrite <- (list_to_map_to_list old) at 2. by rewrite dom_list_to_map_L. }
    intros k l' Hl'. destruct (Hm k l' Hl') as (Hn & Hvl & Ha & v & Hw & Hr). split; [done|]. split; [by exists v|].
    intros t i x Ht. destruct (Hs t Ht) as [_ Hrt]. split; [done|]. rewrite write_apart; [done|]. by apply Ha.
Qed.

End store.

(** The copy of an error list is written to; the list of the parent is not. *)
Lemma copies_are_apart_witness : let s := mkStore {[0%nat := ["no"; "bad"]%string]} ∅ in
  exists new s', copy_array EmptyString (Some (0, 2)%nat) s = (new, s') /\ read s' new = ["no"; "bad"]%string /\
    read (write new 0 "late"%string s') (Some (0, 2)%nat) = ["no"; "bad"]%string.
Proof.
  intros s. destruct (copy_array EmptyString (Some (0, 2)%nat) s) as [new s'] eqn:E.
  assert (valid s (Some (0, 2)%nat)) as Hv by (exists ["no"; "bad"]%string; split; [reflexivity|simpl; lia]).
  destruct (copies_are_apart EmptyString (Some (0, 2)%nat) s new s' Hv E) as (Hr & _ & _ & Hk). exists new, s'.
  split; [done|]. split; [exact Hr|]. exact (proj2 (Hk _ 0%nat "late"%string Hv)).
Defined.

End DhttpCopy.
