(* ===== verification/Discovery.v ===== *)
(** * Service discovery ([service/encoding.go], [service/discovery/etcd.go], [zk.go])

    A discovery keeps, for every key that is watched, the nodes its watcher has
    found.  The watcher is a goroutine fed by the library's events: it is a function
    of what it is fed, and a panic of it is recovered and ends it.  The steps of
    several watchers and of the callers are taken one method at a time.

    The libraries are parameters: connecting, reading configuration files and
    decoding JSON.  [sync.Map] is a map, and [sync.Once] a flag. *)

From S2P Require Import Prelude GoStd GoStrings.
Import GoStd GoStrings.

Module Discovery.

(* [service/encoding.go:15-20] DefaultNodeInfo *)
Record DefaultNodeInfo : Type := mkInfo { Ip : string; Port : Z; Offline : bool; Weight : Z }.

#[export] Instance info_eq_dec : EqDecision DefaultNodeInfo.
Proof. solve_decision. Defined.

(* [service/encoding.go:22-24] DefaultNodeInfo.GetIp *)
Definition GetIp (d : DefaultNodeInfo) : string := Ip d.
(* [service/encoding.go:26-28] DefaultNodeInfo.GetPort *)
Definition GetPort (d : DefaultNodeInfo) : Z := Port d.
(* [service/encoding.go:30-32] DefaultNodeInfo.GetOffline *)
Definition GetOffline (d : DefaultNodeInfo) : bool := Offline d.
(* [service/encoding.go:34-36] DefaultNodeInfo.GetWeight *)
Definition GetWeight (d : DefaultNodeInfo) : Z := Weight d.

(** A [service.NodeInfo]; [None] is the nil interface, whose methods panic. *)
Abbreviation NodeInfo := (option DefaultNodeInfo).

Definition nil_deref : string := "invalid memory address or nil pointer dereference".
Definition bad_assertion : string := "interface conversion: interface {} is nil".

Definition address (d : DefaultNodeInfo) : string := GetIp d +:+ ":" +:+ itoa (GetPort d).

(** The nodes after the first one with the address is taken out; [None] for the
    panic on a nil node met before it. *)
Fixpoint del_first (addr : string) (l : list NodeInfo) : option (list NodeInfo) :=
  match l with
  | [] => Some []
  | None :: _ => None
  | Some v :: l => if String.eqb (address v) addr then Some l else l' ← del_first addr l; Some (Some v :: l')
  end.

(** The sections of a configuration file that are read. *)
Record ini : Type := mkIni { i_etcdHost : list string; i_zkHost : list string; i_cert : string; i_key : string; i_ca : string }.

Section discovery.
Context {Tls : Type} (ClientConfig : string -> string -> string -> Tls + string) (ini_Load : string -> ini + string).
Context (Unmarshal : string -> option DefaultNodeInfo).

(** The checks before a configuration file is read. *)
Definition load_conf (name path : string) : ini + string :=
  if String.eqb path EmptyString then inr (name +:+ " not set")
  else if negb (has_suffix ".ini" path) then inr (name +:+ " not an ini file")
  else ini_Load path.

(* [service/discovery/etcd.go:220-229] EtcdDiscovery.unMsgNodeInfo *)
Definition unMsgNodeInfo (data : string) : NodeInfo := Unmarshal data.

(** ** etcd *)

(* [service/discovery/etcd.go:39-42] EtcdConfig *)
Record EtcdConfig : Type := mkEtcdConfig { Host : list string; TlsConfig : option Tls }.

(** [stopChan] is the number of a channel. *)
(* [service/discovery/etcd.go:31-37] EtcdNode *)
Record EtcdNode : Type := mkEtcdNode { e_key : string; e_path : string; e_nodesInfo : list NodeInfo; e_stopChan : nat }.

(** [closed] holds the channels that are closed, and [chans] how many there are. *)
(* [service/discovery/etcd.go:45-55] EtcdDiscovery *)
Record EtcdDiscovery : Type := mkEtcd {
  EtcdConfig_ : option EtcdConfig; EtcdConf : option ini; EtcdConfPath : string;
  nodes : gmap string EtcdNode; running : bool; startOnce : bool; closeOnce : bool; chans : nat; closed : list nat
}.

Definition set_nodes (m : gmap string EtcdNode) (e : EtcdDiscovery) : EtcdDiscovery :=
  mkEtcd (EtcdConfig_ e) (EtcdConf e) (EtcdConfPath e) m (running e) (startOnce e) (closeOnce e) (chans e) (closed e).
Definition set_running (b : bool) (e : EtcdDiscovery) : EtcdDiscovery :=
  mkEtcd (EtcdConfig_ e) (EtcdConf e) (EtcdConfPath e) (nodes e) b (startOnce e) (closeOnce e) (chans e) (closed e).

(* [service/discovery/etcd.go:133-138] EtcdDiscovery.initWithEtcdConfig *)
Definition initWithEtcdConfig (c : EtcdConfig) (e : EtcdDiscovery) : EtcdDiscovery :=
  mkEtcd (Some c) (EtcdConf e) (EtcdConfPath e) ∅ true (startOnce e) (closeOnce e) (chans e) (closed e).

(** The discovery, and the error. *)
(* [service/discovery/etcd.go:106-131] EtcdDiscovery.initEtcd *)
Definition initEtcd (f : ini) (e : EtcdDiscovery) : EtcdDiscovery * option string :=
  if String.eqb (i_cert f) EmptyString || String.eqb (i_key f) EmptyString || String.eqb (i_ca f) EmptyString
  then (initWithEtcdConfig (mkEtcdConfig (i_etcdHost f) None) e, None)
  else match ClientConfig (i_cert f) (i_key f) (i_ca f) with
       | inr err => (e, Some ("load tls conf from file fail,, err=" +:+ err))
       | inl tls => (initWithEtcdConfig (mkEtcdConfig (i_etcdHost f) (Some tls)) e, None)
       end.

(* [service/discovery/etcd.go:85-104] EtcdDiscovery.initObjForEtcd *)
Definition initObjForEtcd (filePath : string) (e : EtcdDiscovery) : EtcdDiscovery * option string :=
  match load_conf "etcdConf" filePath with inr err => (e, Some err) | inl f => initEtcd f e end.

(* [service/discovery/etcd.go:57-73] EtcdDiscovery.Start *)
Definition Start (e : EtcdDiscovery) : EtcdDiscovery * option string :=
  if startOnce e then (e, None) else
  let path := if String.eqb (EtcdConfPath e) EmptyString then "conf/conf.ini"%string else EtcdConfPath e in
  let started p := mkEtcd (EtcdConfig_ e) (EtcdConf e) p (nodes e) (running e) true (closeOnce e) (chans e) (closed e) in
  match EtcdConfig_ e, EtcdConf e with
  | Some c, _ => (initWithEtcdConfig c (started (EtcdConfPath e)), None)
  | None, Some f => initEtcd f (started (EtcdConfPath e))
  | None, None => initObjForEtcd path (started path)
  end.

(** Closing a channel twice panics. *)
Fixpoint close_chans (l : list nat) : M EtcdDiscovery unit :=
  match l with
  | [] => mret tt
  | c :: l =>
      e ← get;
      if bool_decide (c ∈ closed e) then panic "close of closed channel" else
      _ ← put (mkEtcd (EtcdConfig_ e) (EtcdConf e) (EtcdConfPath e) (nodes e) (running e) (startOnce e) (closeOnce e) (chans e) (closed e ++ [c]));
      close_chans l
  end.

(* [service/discovery/etcd.go:75-83] EtcdDiscovery.Close *)
Definition Close : M EtcdDiscovery unit :=
  e ← get;
  if closeOnce e then mret tt else
  _ ← put (mkEtcd (EtcdConfig_ e) (EtcdConf e) (EtcdConfPath e) (nodes e) (running e) (startOnce e) true (chans e) (closed e));
  close_chans (map (fun kv => e_stopChan kv.2) (map_to_list (nodes e))).

(** [connect] is the error of [clientv3.New]; the watcher that is started is [watchNode]. *)
(* [service/discovery/etcd.go:140-178] EtcdDiscovery.Watch *)
Definition Watch (connect : option string) (key path : string) : M EtcdDiscovery (option string) :=
  e ← get;
  if negb (running e) then mret (Some "etcd discovery not running"%string) else
  match path with
  | EmptyString => panic "index out of range [0] with length 0"
  | String a _ =>
      let path := if Ascii.eqb a "/" then path else "/" +:+ path in
      match connect with
      | Some err => mret (Some err)
      | None =>
          _ ← put (mkEtcd (EtcdConfig_ e) (EtcdConf e) (EtcdConfPath e) (<[key := mkEtcdNode key path [] (chans e)]> (nodes e))
                     (running e) (startOnce e) (closeOnce e) (S (chans e)) (closed e));
          mret None
      end
  end.

(** In the order the map is ranged over. *)
(* [service/discovery/etcd.go:180-188] EtcdDiscovery.WatchMulti *)
Fixpoint WatchMulti (connect : option string) (l : list (string * string)) : M EtcdDiscovery (option string) :=
  match l with
  | [] => mret None
  | (key, node) :: l =>
      err ← Watch connect key node;
      match err with Some err => mret (Some err) | None => WatchMulti connect l end
  end.

Definition with_infos (l : list NodeInfo) (n : EtcdNode) : EtcdNode := mkEtcdNode (e_key n) (e_path n) l (e_stopChan n).

(* [service/discovery/etcd.go:190-201] EtcdDiscovery.AddNode *)
Definition AddNode (key : string) (info : NodeInfo) : M EtcdDiscovery unit :=
  e ← get;
  match nodes e !! key with
  | None => panic bad_assertion
  | Some en => put (set_nodes (<[key := with_infos (e_nodesInfo en ++ [info]) en]> (nodes e)) e)
  end.

(* [service/discovery/etcd.go:203-218] EtcdDiscovery.DelNode *)
Definition DelNode (key addr : string) : M EtcdDiscovery unit :=
  e ← get;
  match nodes e !! key with
  | None => mret tt
  | Some en =>
      match del_first addr (e_nodesInfo en) with
      | None => panic nil_deref
      | Some l => put (set_nodes (<[key := with_infos l en]> (nodes e)) e)
      end
  end.

(* [service/discovery/etcd.go:231-237] EtcdDiscovery.GetNodeInfo *)
Definition GetNodeInfo (key : string) : M EtcdDiscovery (list NodeInfo) :=
  gets (fun e => match nodes e !! key with None => [] | Some n => e_nodesInfo n end).

(** What the watcher is fed: events with their key, or the signal to stop. *)
Inductive event : Type := Put (key value : string) | Delete (key : string).
Inductive feed : Type := Events (l : list event) | Stop.

Fixpoint add_all (key : string) (values : list string) : M EtcdDiscovery unit :=
  match values with
  | [] => mret tt
  | v :: values => _ ← AddNode key (unMsgNodeInfo v); add_all key values
  end.

Fixpoint take_events (key : string) (l : list event) : M EtcdDiscovery unit :=
  match l with
  | [] => mret tt
  | Put _ v :: l => _ ← AddNode key (unMsgNodeInfo v); take_events key l
  | Delete k :: l => _ ← DelNode key k; take_events key l
  end.

Fixpoint watch_loop (key : string) (l : list feed) : M EtcdDiscovery unit :=
  match l with
  | [] => mret tt
  | Events evs :: l => _ ← take_events key evs; watch_loop key l
  | Stop :: _ => modify (set_running false)
  end.

(** [found] is the answer to the first [Get]: the values under the path, or an error. *)
(* [service/discovery/etcd.go:239-277] EtcdDiscovery.watchNode *)
Definition watchNode (key : string) (found : list string + string) (l : list feed) : M EtcdDiscovery unit :=
  e ← get;
  match nodes e !! key with
  | None => mret tt
  | Some node =>
      match found with
      | inr _ => mret tt
      | inl kvs => _ ← add_all (e_key node) kvs; watch_loop (e_key node) l
      end
  end.

(** ** ZooKeeper *)

(* [service/discovery/zk.go:21-27] ZkNode *)
Record ZkNode : Type := mkZkNode { z_key : string; z_path : string; z_nodesInfo : list NodeInfo; z_stopChan : nat }.

(** A value of the map is a node or the nil that [watchNode] stores. *)
(* [service/discovery/zk.go:34-44] ZkDiscovery *)
Record ZkDiscovery : Type := mkZk {
  ZkConfig : option (list string); ZkConf : option ini; ZkConfPath : string;
  z_nodes : gmap string (option ZkNode); z_running : bool; z_startOnce : bool; z_chans : nat; z_closed : list nat
}.

Definition z_set_nodes (m : gmap string (option ZkNode)) (z : ZkDiscovery) : ZkDiscovery :=
  mkZk (ZkConfig z) (ZkConf z) (ZkConfPath z) m (z_running z) (z_startOnce z) (z_chans z) (z_closed z).

(* [service/discovery/zk.go:103-108] ZkDiscovery.initWithZkConfig *)
Definition initWithZkConfig (hosts : list string) (z : ZkDiscovery) : ZkDiscovery :=
  mkZk (Some hosts) (ZkConf z) (ZkConfPath z) ∅ true (z_startOnce z) (z_chans z) (z_closed z).

(* [service/discovery/zk.go:93-101] ZkDiscovery.initZk *)
Definition initZk (f : ini) (z : ZkDiscovery) : ZkDiscovery := initWithZkConfig (i_zkHost f) z.

(* [service/discovery/zk.go:72-91] ZkDiscovery.initObjForZk *)
Definition zk_initObjForZk (filePath : string) (z : ZkDiscovery) : ZkDiscovery * option string :=
  match load_conf "zkConf" filePath with inr err => (z, Some err) | inl f => (initZk f z, None) end.

(* [service/discovery/zk.go:46-62] ZkDiscovery.Start *)
Definition zk_Start (z : ZkDiscovery) : ZkDiscovery * option string :=
  if z_startOnce z then (z, None) else
  let path := if String.eqb (ZkConfPath z) EmptyString then "conf/conf.ini"%string else ZkConfPath z in
  let started p := mkZk (ZkConfig z) (ZkConf z) p (z_nodes z) (z_running z) true (z_chans z) (z_closed z) in
  match ZkConfig z, ZkConf z with
  | Some c, _ => (initWithZkConfig c (started (ZkConfPath z)), None)
  | None, Some f => (initZk f (started (ZkConfPath z)), None)
  | None, None => zk_initObjForZk path (started path)
  end.

(** No guard against a second call: the channels are closed again, and a nil among the
    values fails the assertion. *)
Fixpoint zk_close_all (l : list (option ZkNode)) : M ZkDiscovery unit :=
  match l with
  | [] => mret tt
  | None :: _ => panic bad_assertion
  | Some n :: l =>
      z ← get;
      if bool_decide (z_stopChan n ∈ z_closed z) then panic "close of closed channel" else
      _ ← put (mkZk (ZkConfig z) (ZkConf z) (ZkConfPath z) (z_nodes z) (z_running z) (z_startOnce z) (z_chans z) (z_closed z ++ [z_stopChan n]));
      zk_close_all l
  end.
(* [service/discovery/zk.go:64-70] ZkDiscovery.Close *)
Definition zk_Close : M ZkDiscovery unit := z ← get; zk_close_all (map snd (map_to_list (z_nodes z))).

(* [service/discovery/zk.go:110-145] ZkDiscovery.Watch *)
Definition zk_Watch (connect : option string) (key path : string) : M ZkDiscovery (option string) :=
  z ← get;
  if negb (z_running z) then mret (Some "zk discovery not running"%string) else
  match path with
  | EmptyString => panic "index out of range [0] with length 0"
  | String a _ =>
      let path := if Ascii.eqb a "/" then path else "/" +:+ path in
      match connect with
      | Some err => mret (Some err)
      | None =>
          _ ← put (mkZk (ZkConfig z) (ZkConf z) (ZkConfPath z) (<[key := Some (mkZkNode key path [] (z_chans z))]> (z_nodes z))
                     (z_running z) (z_startOnce z) (S (z_chans z)) (z_closed z));
          mret None
      end
  end.

(** In the order the map is ranged over. *)
(* [service/discovery/zk.go:147-155] ZkDiscovery.WatchMulti *)
Fixpoint zk_WatchMulti (connect : option string) (l : list (string * string)) : M ZkDiscovery (option string) :=
  match l with
  | [] => mret None
  | (key, node) :: l =>
      err ← zk_Watch connect key node;
      match err with Some err => mret (Some err) | None => zk_WatchMulti connect l end
  end.

Definition z_with_infos (l : list NodeInfo) (n : ZkNode) : ZkNode := mkZkNode (z_key n) (z_path n) l (z_stopChan n).

(* [service/discovery/zk.go:157-167] ZkDiscovery.AddNode *)
Definition zk_AddNode (key : string) (info : NodeInfo) : M ZkDiscovery unit :=
  z ← get;
  match z_nodes z !! key with
  | None | Some None => panic bad_assertion
  | Some (Some zn) => put (z_set_nodes (<[key := Some (z_with_infos (z_nodesInfo zn ++ [info]) zn)]> (z_nodes z)) z)
  end.

(* [service/discovery/zk.go:169-184] ZkDiscovery.DelNode *)
Definition zk_DelNode (key addr : string) : M ZkDiscovery unit :=
  z ← get;
  match z_nodes z !! key with
  | None => mret tt
  | Some None => panic bad_assertion
  | Some (Some zn) =>
      match del_first addr (z_nodesInfo zn) with
      | None => panic nil_deref
      | Some l => put (z_set_nodes (<[key := Some (z_with_infos l zn)]> (z_nodes z)) z)
      end
  end.

(* [service/discovery/zk.go:197-203] ZkDiscovery.GetNodeInfo *)
Definition zk_GetNodeInfo (key : string) : M ZkDiscovery (list NodeInfo) :=
  z ← get;
  match z_nodes z !! key with
  | None => mret []
  | Some None => panic bad_assertion
  | Some (Some n) => mret (z_nodesInfo n)
  end.

(** The children of a path with their data, read one by one ([None] where reading
    fails), or the error of listing them. *)
Definition children : Type := list (option string) + string.

(** [true] when all were added. *)
Fixpoint zk_add_children (key : string) (l : list (option string)) : M ZkDiscovery bool :=
  match l with
  | [] => mret true
  | None :: _ => mret false
  | Some data :: l => _ ← zk_AddNode key (unMsgNodeInfo data); zk_add_children key l
  end.

(** What a round of the watcher meets: no watch, a change of the children, another
    event, or the signal to stop. *)
Inductive zk_feed : Type := NoWatch | Changed (c : children) | OtherEvent | ZkStop.

Fixpoint zk_loop (node : ZkNode) (l : list zk_feed) : M ZkDiscovery unit :=
  match l with
  | [] => mret tt
  | NoWatch :: _ => mret tt
  | Changed (inr _) :: _ => mret tt
  | Changed (inl c) :: l =>
      _ ← modify (fun z => z_set_nodes (<[z_key node := None]> (z_nodes z)) z);
      all ← zk_add_children (z_path node) c;
      if all : bool then zk_loop node l else mret tt
  | OtherEvent :: l => zk_loop node l
  | ZkStop :: _ =>
      modify (fun z => mkZk (ZkConfig z) (ZkConf z) (ZkConfPath z) (z_nodes z) false (z_startOnce z) (z_chans z) (z_closed z))
  end.

(* [service/discovery/zk.go:205-260] ZkDiscovery.watchNode *)
Definition zk_watchNode (node : ZkNode) (found : children) (l : list zk_feed) : M ZkDiscovery unit :=
  z ← get;
  match z_nodes z !! z_key node with
  | None => mret tt
  | Some None => panic bad_assertion
  | Some (Some _) =>
      match found with
      | inr _ => mret tt
      | inl c => all ← zk_add_children (z_key node) c; if all : bool then zk_loop node l else mret tt
      end
  end.

(** ** What an etcd watcher leaves *)

(** No IP address starts with a slash; the nil node has no address at all. *)
Definition no_path (i : NodeInfo) : Prop := match i with Some d => has_prefix "/" (Ip d) = false | None => True end.

Definition is_path (k : string) : Prop := has_prefix "/" k = true.

Fixpoint puts (l : list event) : list string :=
  match l with [] => [] | Put _ v :: l => v :: puts l | Delete _ :: l => puts l end.

Definition deleted_paths (l : list event) : Prop := Forall (fun ev => match ev with Delete k => is_path k | Put _ _ => True end) l.

(** The events a watcher hears before it is told to stop, and whether it is. *)
Fixpoint until_stop (l : list feed) : list event :=
  match l with [] => [] | Events evs :: l => evs ++ until_stop l | Stop :: _ => [] end.
Fixpoint stopped (l : list feed) : bool :=
  match l with [] => false | Events _ :: l => stopped l | Stop :: _ => true end.

Lemma puts_app a b : puts (a ++ b) = puts a ++ puts b.
Proof. induction a as [|[]]; cbn; by f_equal. Qed.

Lemma address_not_path d k : has_prefix "/" (Ip d) = false -> is_path k -> String.eqb (address d) k = false.
Proof.
  unfold is_path, has_prefix, address, GetIp. intros Hd Hk. apply String.eqb_neq. intros <-.
  destruct (Ip d) as [|a s]; [done|]. change (String a s +:+ ":" +:+ itoa (GetPort d)) with (String a (s +:+ ":" +:+ itoa (GetPort d))) in Hk.
  clear -Hd Hk. by destruct s, a as [[] [] [] [] [] [] [] []].
Qed.

(** A path deletes nothing, and a nil node ends the search with a panic. *)
Lemma del_first_path addr l : Forall no_path l -> is_path addr ->
  del_first addr l = if bool_decide (None ∈ l) then None else Some l.
Proof.
  intros Hl Ha. induction Hl as [|[d|] l Hd _ IH]; [done| |done]. cbn.
  rewrite (address_not_path d addr Hd Ha), IH. clear.
  assert (None ∈ Some d :: l <-> None ∈ l) as Hin by by (rewrite elem_of_cons; naive_solver).
  by repeat case_bool_decide; try tauto.
Qed.

(** The nodes of a key. *)
Definition infos (e : EtcdDiscovery) (key : string) : option (list NodeInfo) := e_nodesInfo <$> nodes e !! key.

Lemma AddNode_infos key info e l : infos e key = Some l -> exists e',
  AddNode key info e = (Ret tt, e') /\ infos e' key = Some (l ++ [info]).
Proof.
  unfold infos, AddNode, get, put, mbind, M_bind. destruct (nodes e !! key) as [n|]; [|done]. intros [= <-].
  eexists. split; [done|]. cbn. by rewrite lookup_insert_eq.
Qed.

Lemma DelNode_infos key addr e l : infos e key = Some l -> Forall no_path l -> is_path addr -> exists e',
  DelNode key addr e = (if bool_decide (None ∈ l) then Panic nil_deref else Ret tt, e') /\ infos e' key = Some l.
Proof.
  unfold infos, DelNode, get, put, mbind, M_bind. destruct (nodes e !! key) as [n|] eqn:E; [|done]. intros [= <-] Hl Ha.
  rewrite del_first_path by done. case_bool_decide; eexists; (split; [done|]); [by rewrite E|].
  cbn. by rewrite lookup_insert_eq.
Qed.

(** No deletion is heard with a nil node among the nodes of the key. *)
Definition safe (l : list NodeInfo) (evs : list event) : Prop :=
  forall evs1 k evs2, evs = evs1 ++ Delete k :: evs2 -> None ∉ l ++ map unMsgNodeInfo (puts evs1).

(** What events make of the nodes [l] of a key: everything put is added, up to the first
    deletion heard with a nil node among them, if there is one. *)
Definition heard (l : list NodeInfo) (evs : list event) (r : outcome unit) (l' : list NodeInfo) : Prop :=
  (r = Ret tt /\ l' = l ++ map unMsgNodeInfo (puts evs) /\ safe l evs) \/
  (r = Panic nil_deref /\ None ∈ l' /\ exists evs1 k evs2,
     evs = evs1 ++ Delete k :: evs2 /\ l' = l ++ map unMsgNodeInfo (puts evs1) /\ safe l evs1).

Lemma safe_cons l ev evs : safe l (ev :: evs) <->
  match ev with Put _ v => safe (l ++ [unMsgNodeInfo v]) evs | Delete _ => None ∉ l /\ safe l evs end.
Proof.
  unfold safe. destruct ev as [k v|k].
  - split.
    + intros H evs1 k' evs2 ->. specialize (H (Put k v :: evs1) k' evs2 eq_refl). cbn in H. by rewrite <- app_assoc.
    + intros H [|ev evs1] k' evs2 Heq; simplify_eq/=. specialize (H evs1 k' evs2 eq_refl). by rewrite <- app_assoc in H.
  - split.
    + intros H. split; [specialize (H [] k evs eq_refl); cbn in H; by rewrite app_nil_r in H|].
      intros evs1 k' evs2 ->. exact (H (Delete k :: evs1) k' evs2 eq_refl).
    + intros [H0 H] [|ev evs1] k' evs2 Heq; simplify_eq/=; [by rewrite app_nil_r|]. exact (H evs1 k' evs2 eq_refl).
Qed.

Lemma heard_put l k v evs r l' : heard (l ++ [unMsgNodeInfo v]) evs r l' -> heard l (Put k v :: evs) r l'.
Proof.
  intros [(-> & -> & Hs)|(-> & Hn & evs1 & k' & evs2 & -> & -> & Hs)].
  - left. split; [done|]. split; [cbn; by rewrite <- app_assoc|by apply safe_cons].
  - right. split; [done|]. split; [done|]. exists (Put k v :: evs1), k', evs2.
    split; [done|]. split; [cbn; by rewrite <- app_assoc|by apply safe_cons].
Qed.

Lemma heard_delete l k evs r l' : None ∉ l -> heard l evs r l' -> heard l (Delete k :: evs) r l'.
Proof.
  intros H0 [(-> & -> & Hs)|(-> & Hn & evs1 & k' & evs2 & -> & -> & Hs)].
  - left. split; [done|]. split; [done|by apply safe_cons].
  - right. split; [done|]. split; [done|]. exists (Delete k :: evs1), k', evs2.
    split; [done|]. split; [done|by apply safe_cons].
Qed.

Lemma take_events_heard key evs e l : infos e key = Some l -> Forall no_path (l ++ map unMsgNodeInfo (puts evs)) ->
  deleted_paths evs -> exists r e' l', take_events key evs e = (r, e') /\ infos e' key = Some l' /\ heard l evs r l'.
Proof.
  revert e l. induction evs as [|[k v|k] evs IH]; intros e l Hl Hp Hd; cbn [take_events puts map] in *.
  - exists (Ret tt), e, l. split; [done|]. split; [done|]. left. split; [done|]. split; [by rewrite app_nil_r|].
    by intros [|] ? ? ?.
  - apply Forall_cons in Hd as [_ Hd]. destruct (AddNode_infos key (unMsgNodeInfo v) e l Hl) as (e1 & H1 & Hl1).
    rewrite (bind_run _ _ _ _ _ H1). destruct (IH e1 _ Hl1) as (r & e' & l' & H2 & H3 & H4); [by rewrite <- app_assoc|done|].
    exists r, e', l'. split; [done|]. split; [done|by apply heard_put].
  - apply Forall_cons in Hd as [Hk Hd]. pose proof (proj1 (proj1 (Forall_app _ _ _) Hp)) as Hp0.
    destruct (DelNode_infos key k e l Hl Hp0 Hk) as (e1 & H1 & Hl1). unfold mbind, M_bind. rewrite H1.
    case_bool_decide as Hnil.
    + exists (Panic nil_deref), e1, l. split; [done|]. split; [done|]. right. split; [done|]. split; [done|].
      exists [], k, evs. split; [done|]. split; [by rewrite app_nil_r|]. by intros [|] ? ? ?.
    + destruct (IH e1 l Hl1 Hp Hd) as (r & e' & l' & H2 & H3 & H4). exists r, e', l'.
      split; [done|]. split; [done|by apply heard_delete].
Qed.

Lemma take_events_app key a b e : take_events key (a ++ b) e = (take_events key a ≫= fun _ => take_events key b) e.
Proof.
  revert e. induction a as [|[k v|k] a IH]; intros e; [done| |]; cbn [app take_events]; unfold mbind, M_bind in *.
  - destruct (AddNode key (unMsgNodeInfo v) e) as [[]?]; [apply IH|done].
  - destruct (DelNode key k e) as [[]?]; [apply IH|done].
Qed.

Lemma watch_loop_events key l e : watch_loop key l e =
  (take_events key (until_stop l) ≫= fun _ => if stopped l then modify (set_running false) else mret tt) e.
Proof.
  revert e. induction l as [|[evs|] l IH]; intros e; [done| |done]. cbn [watch_loop until_stop stopped].
  unfold mbind, M_bind in *. rewrite take_events_app. unfold mbind, M_bind.
  destruct (take_events key evs e) as [[]?]; [apply IH|done].
Qed.

Lemma add_all_infos key vs e l : infos e key = Some l -> exists e',
  add_all key vs e = (Ret tt, e') /\ infos e' key = Some (l ++ map unMsgNodeInfo vs).
Proof.
  revert e l. induction vs as [|v vs IH]; intros e l Hl; cbn [add_all map].
  { exists e. by rewrite app_nil_r. }
  destruct (AddNode_infos key (unMsgNodeInfo v) e l Hl) as (e1 & H1 & Hl1). rewrite (bind_run _ _ _ _ _ H1).
  destruct (IH e1 _ Hl1) as (e' & H2 & H3). exists e'. split; [done|]. by rewrite H3, <- app_assoc.
Qed.

(** C32 A watcher only ever adds.  Take the watcher of a key that nobody else changes, and
    assume that no node has a path for its IP address and that the events of deletion
    carry keys that begin with a slash, as every watched path does.  If the first
    question to etcd fails the watcher ends with the nodes as they were.  Otherwise, in
    whatever batches the events arrive before the watcher is told to stop, the nodes of
    its key become those there before, those found and those put since, in that order:
    no deletion removes a node, so that a node that is gone stays in the answer.  All that
    was put is in the answer unless a deletion is heard after a value that does not
    decode: the first such deletion ends the watcher with a panic, with nothing after it
    added, and there is no other panic. *)
Theorem etcd_only_adds key n found feeds e :
  nodes e !! key = Some n -> e_key n = key -> deleted_paths (until_stop feeds) ->
  Forall no_path (e_nodesInfo n ++ map unMsgNodeInfo (match found with inl kvs => kvs | inr _ => [] end ++ puts (until_stop feeds))) ->
  exists r e' l', watchNode key found feeds e = (r, e') /\ outcome_of (GetNodeInfo key) e' = Ret l' /\
    match found with
    | inr _ => r = Ret tt /\ l' = e_nodesInfo n
    | inl kvs =>
        let l := e_nodesInfo n ++ map unMsgNodeInfo kvs in
        let evs := until_stop feeds in
        (r = Ret tt /\ l' = l ++ map unMsgNodeInfo (puts evs) /\ safe l evs) \/
        (r = Panic nil_deref /\ None ∈ l' /\ exists evs1 k evs2,
           evs = evs1 ++ Delete k :: evs2 /\ l' = l ++ map unMsgNodeInfo (puts evs1) /\ safe l evs1)
    end.
Proof.
  intros Hn Hk Hd Hp. assert (infos e key = Some (e_nodesInfo n)) as Hl by (unfold infos; by rewrite Hn).
  assert (forall e' l', infos e' key = Some l' -> outcome_of (GetNodeInfo key) e' = Ret l') as Hget.
  { intros e' l'. unfold infos, outcome_of, GetNodeInfo, gets. destruct (nodes e' !! key); [|done]. by intros [= <-]. }
  unfold watchNode. rewrite (bind_run get _ e e e eq_refl), Hn, Hk. destruct found as [kvs|err].
  - rewrite map_app, app_assoc in Hp. destruct (add_all_infos key kvs e _ Hl) as (e1 & H1 & Hl1).
    rewrite (bind_run _ _ _ _ _ H1), watch_loop_events.
    destruct (take_events_heard key _ e1 _ Hl1 Hp Hd) as (r & e2 & l' & H2 & H3 & H4).
    unfold mbind, M_bind. rewrite H2. destruct r as [[]|p].
    + destruct (stopped feeds); [exists (Ret tt), (set_running false e2), l'|exists (Ret tt), e2, l']; by auto.
    + exists (Panic p), e2, l'. by auto.
  - exists (Ret tt), e, (e_nodesInfo n). by auto.
Qed.

(** A value that is not JSON is added as nil, and the next deletion ends the watcher. *)
Lemma nil_node_panics key n k v e : nodes e !! key = Some n -> e_nodesInfo n = [] -> Unmarshal v = None ->
  outcome_of (take_events key [Put k v; Delete k]) e = Panic nil_deref.
Proof.
  intros Hn Hi Hv. cbn [take_events]. unfold outcome_of, AddNode, DelNode, get, put, mbind, M_bind. rewrite Hn. cbn.
  rewrite lookup_insert_eq. cbn. unfold unMsgNodeInfo. by rewrite Hi, Hv.
Qed.

(** ** What a ZooKeeper watcher leaves *)

(** Several keys at once: with no error each of them has a node, and no other key
    has lost its own. *)
Lemma zk_Watch_key connect key path z z' : zk_Watch connect key path z = (Ret None, z') ->
  is_Some (z_nodes z' !! key) /\ forall k, is_Some (z_nodes z !! k) -> is_Some (z_nodes z' !! k).
Proof.
  unfold zk_Watch. go_run. destruct (z_running z); cbn; [|done]. destruct path as [|a path]; [done|].
  destruct connect; [done|]. intros [= <-]. cbn. split; [by rewrite lookup_insert_eq|]. intros k Hk.
  destruct (decide (key = k)) as [->|Hne]; [by rewrite lookup_insert_eq|by rewrite lookup_insert_ne].
Qed.

Lemma zk_WatchMulti_keys connect l : forall z z', zk_WatchMulti connect l z = (Ret None, z') ->
  (forall kp, kp ∈ l -> is_Some (z_nodes z' !! kp.1)) /\ forall k, is_Some (z_nodes z !! k) -> is_Some (z_nodes z' !! k).
Proof.
  induction l as [|[key path] l IH]; intros z z'; cbn [zk_WatchMulti].
  { intros [= <-]. split; [|done]. by intros kp ?%not_elem_of_nil. }
  unfold mbind, M_bind. destruct (zk_Watch connect key path z) as [[[err|]|] z1] eqn:E; [done| |done].
  destruct (zk_Watch_key _ _ _ _ _ E) as [H1 H2]. intros H. destruct (IH z1 z' H) as [H3 H4]. split.
  - intros kp [->|Hin]%elem_of_cons; [by apply H4|by apply H3].
  - intros k Hk. by apply H4, H2.
Qed.

Definition broken (key : string) (z : ZkDiscovery) : Prop := z_nodes z !! key = Some None.

Lemma zk_AddNode_broken key k info z : broken key z -> broken key (exec (zk_AddNode k info) z).
Proof.
  unfold broken, exec, zk_AddNode, get, put, panic, mbind, M_bind. intros Hb.
  destruct (z_nodes z !! k) as [[zn|]|] eqn:E; try done. cbn. rewrite lookup_insert_ne; [done|]. intros ->. by rewrite Hb in E.
Qed.

Lemma zk_add_children_broken key k c z : broken key z -> broken key (exec (zk_add_children k c) z).
Proof.
  revert z. induction c as [|[v|] c IH]; intros z Hb; [done| |done]. cbn [zk_add_children].
  unfold exec, mbind, M_bind. pose proof (zk_AddNode_broken key k (unMsgNodeInfo v) z Hb) as H1. unfold exec in H1.
  destruct (zk_AddNode _ _ z) as [[[]|] z1]; [|done]. by apply IH.
Qed.

Lemma zk_loop_broken key node l z : z_key node = key -> broken key z -> broken key (exec (zk_loop node l) z).
Proof.
  intros Hk. revert z. induction l as [|[|[c|err]| |] l IH]; intros z Hb; cbn [zk_loop]; try done; [|by apply IH].
  unfold exec, modify, mbind, M_bind. rewrite Hk.
  assert (broken key (z_set_nodes (<[key := None]> (z_nodes z)) z)) as Hb' by (unfold broken; cbn; by rewrite lookup_insert_eq).
  pose proof (zk_add_children_broken key (z_path node) c _ Hb') as H1. unfold exec in H1.
  destruct (zk_add_children _ _ _) as [[[]|] z1]; [|done..]. by apply IH.
Qed.

(** After the first change of the children that a ZooKeeper watcher hears of, nothing can be asked of its
    key any more: the nodes are replaced by a nil, whatever the watcher meets afterwards leaves it there, and
    [GetNodeInfo] panics in the caller. *)
Theorem zk_change_breaks node c l z :
  outcome_of (zk_GetNodeInfo (z_key node)) (exec (zk_loop node (Changed (inl c) :: l)) z) = Panic bad_assertion.
Proof.
  assert (broken (z_key node) (exec (zk_loop node (Changed (inl c) :: l)) z)) as Hb.
  { cbn [zk_loop]. unfold exec, modify, mbind, M_bind. set (z0 := z_set_nodes _ z).
    assert (broken (z_key node) z0) as Hb0 by (unfold broken; cbn; by rewrite lookup_insert_eq).
    pose proof (zk_add_children_broken (z_key node) (z_path node) c _ Hb0) as H1. unfold exec in H1.
    destruct (zk_add_children _ _ _) as [[[]|] z1]; [|done..]. by apply zk_loop_broken. }
  unfold broken in Hb. unfold outcome_of, zk_GetNodeInfo, get, mbind, M_bind. by rewrite Hb.
Qed.

(** And with a child to add, the watcher itself panics at once, unless the path is watched as a key. *)
Lemma zk_change_kills node v c l z : z_path node = z_key node \/ z_nodes z !! z_path node = None ->
  outcome_of (zk_loop node (Changed (inl (Some v :: c)) :: l)) z = Panic bad_assertion.
Proof.
  intros Hp. cbn [zk_loop zk_add_children]. unfold outcome_of, modify, zk_AddNode, get, put, panic, mbind, M_bind. cbn.
  destruct Hp as [-> | Hp]; [by rewrite lookup_insert_eq|].
  destruct (decide (z_key node = z_path node)) as [->|Hne]; [by rewrite lookup_insert_eq|]. by rewrite lookup_insert_ne, Hp.
Qed.

(** ** Closing *)

(** Every node has a channel of its own, none of which is closed. *)
Definition open_chans (e : EtcdDiscovery) : Prop :=
  closed e = [] /\ map_Forall (fun _ n => (e_stopChan n < chans e)%nat) (nodes e) /\
  forall k1 k2 n1 n2, nodes e !! k1 = Some n1 -> nodes e !! k2 = Some n2 -> e_stopChan n1 = e_stopChan n2 -> k1 = k2.

Lemma open_chans_set key n n' e : open_chans e -> nodes e !! key = Some n -> e_stopChan n' = e_stopChan n ->
  open_chans (set_nodes (<[key := n']> (nodes e)) e).
Proof.
  intros (Hc & Hlt & Hinj) Hn Hs. split_and!; [done| |].
  - apply map_Forall_insert_2; [rewrite Hs; by apply (Hlt key)|done].
  - cbn. intros k1 k2 n1 n2 H1 H2 E.
    assert (forall k m, <[key := n']> (nodes e) !! k = Some m -> exists m', nodes e !! k = Some m' /\ e_stopChan m' = e_stopChan m) as Hsame.
    { intros k m Hk. destruct (decide (k = key)) as [->|Hne].
      - rewrite lookup_insert_eq in Hk. injection Hk as <-. by exists n.
      - rewrite lookup_insert_ne in Hk by done. by exists m. }
    destruct (Hsame _ _ H1) as (m1 & ? & ?), (Hsame _ _ H2) as (m2 & ? & ?). apply (Hinj k1 k2 m1 m2); congruence.
Qed.

Lemma Watch_open connect key path e : open_chans e -> open_chans (exec (Watch connect key path) e).
Proof.
  intros Ho. pose proof Ho as (Hc & Hlt & Hinj). unfold exec, Watch, get, put, panic, mbind, M_bind. destruct (negb _); [done|].
  destruct path as [|a path]; [done|]. destruct connect; [done|]. cbn. split_and!; [done| |]; cbn.
  - apply map_Forall_insert_2; [cbn; lia|]. intros k n Hn. apply Hlt in Hn. lia.
  - intros k1 k2 n1 n2 H1 H2 E. apply lookup_insert_Some in H1 as [[-> <-]|[_ H1]], H2 as [[-> <-]|[_ H2]]; cbn in E; try done.
    + apply Hlt in H2. lia.
    + apply Hlt in H1. lia.
    + by apply (Hinj k1 k2 n1 n2).
Qed.

Lemma AddNode_open key info e : open_chans e -> open_chans (exec (AddNode key info) e).
Proof.
  intros Ho. unfold exec, AddNode, get, put, panic, mbind, M_bind. destruct (nodes e !! key) as [n|] eqn:E; [|done].
  by apply (open_chans_set key n).
Qed.

Lemma DelNode_open key addr e : open_chans e -> open_chans (exec (DelNode key addr) e).
Proof.
  intros Ho. unfold exec, DelNode, get, put, panic, mbind, M_bind. destruct (nodes e !! key) as [n|] eqn:E; [|done].
  destruct (del_first _ _); [|done]. by apply (open_chans_set key n).
Qed.

Lemma close_chans_ok l e : NoDup l -> (forall c, c ∈ l -> c ∉ closed e) ->
  exists e', close_chans l e = (Ret tt, e') /\ closed e' = closed e ++ l /\ closeOnce e' = closeOnce e.
Proof.
  revert e. induction l as [|c l IH]; intros e Hn Hc; cbn [close_chans].
  - exists e. by rewrite app_nil_r.
  - apply NoDup_cons in Hn as [Hcl Hn]. unfold get, put, mbind, M_bind. rewrite bool_decide_false by (apply Hc; by left).
    edestruct IH as (e' & H1 & H2 & H3); [exact Hn| |exists e'; split; [exact H1|split; [rewrite H2; cbn; by rewrite <- app_assoc|exact H3]]].
    cbn. intros c' Hc' [Hin|Hin%list_elem_of_singleton]%elem_of_app; [by apply (Hc c'); [right|]|by subst].
Qed.

(** Closing stops every watcher the discovery still knows, once: each node's channel is closed, no
    channel is closed twice, and a second [Close] does nothing - in every state reached by watching, adding and
    deleting. *)
Theorem Close_stops_all e : open_chans e -> closeOnce e = false ->
  exists e', Close e = (Ret tt, e') /\ (forall key n, nodes e !! key = Some n -> e_stopChan n ∈ closed e') /\ NoDup (closed e') /\
    Close e' = (Ret tt, e').
Proof.
  intros (Hc & Hlt & Hinj) Ho. set (l := map (fun kv => e_stopChan kv.2) (map_to_list (nodes e))).
  assert (NoDup l) as Hn.
  { unfold l. apply NoDup_fmap_2_strong; [|apply NoDup_map_to_list]. intros [k1 n1] [k2 n2] H1 H2 E.
    apply elem_of_map_to_list in H1, H2. cbn in E. pose proof (Hinj _ _ _ _ H1 H2 E) as ->. congruence. }
  unfold Close, get, put, mbind at 1 2, M_bind at 1 2. rewrite Ho.
  set (e0 := mkEtcd _ _ _ _ _ _ true _ _).
  destruct (close_chans_ok l e0) as (e' & H1 & H2 & H3); [done|cbn; rewrite Hc; intros c _ Hin; by apply elem_of_nil in Hin|].
  exists e'. cbn in H2. rewrite Hc in H2. split; [exact H1|]. rewrite H2. split_and!; [|done|].
  - intros key n Hk. apply list_elem_of_fmap. exists (key, n). split; [done|]. by apply elem_of_map_to_list.
  - unfold mbind, M_bind. by rewrite H3.
Qed.

End discovery.

(** ** Concrete runs *)

Module Example_.

Definition info1 : DefaultNodeInfo := mkInfo "10.0.0.1" 80 false 1.
Definition decode (s : string) : option DefaultNodeInfo := if String.eqb s "v1" then Some info1 else None.

Definition empty : EtcdDiscovery (Tls := unit) := mkEtcd (Some (mkEtcdConfig ["etcd"%string] None)) None EmptyString ∅ false false false 0 [].

Definition watching : EtcdDiscovery (Tls := unit) := exec (Watch None "k" "root/pool") (Start (fun _ _ _ => inl tt) (fun _ => inr EmptyString) empty).1.

Definition events : list event := [Put "/root/pool/10.0.0.1:80" "v1"; Delete "/root/pool/10.0.0.1:80"].

Lemma etcd_only_adds_witness :
  nodes watching !! "k"%string = Some (mkEtcdNode "k" "/root/pool" [] 0) /\ deleted_paths events /\
  exists r e' l', watchNode decode "k" (inl []) [Events events; Stop] watching = (r, e') /\
    outcome_of (GetNodeInfo "k") e' = Ret l' /\ r = Ret tt /\ l' = [Some info1].
Proof.
  assert (nodes watching !! "k"%string = Some (mkEtcdNode "k" "/root/pool" [] 0)) as H by by vm_compute.
  assert (deleted_paths events) as Hd by by repeat constructor.
  split; [exact H|]. split; [exact Hd|].
  destruct (etcd_only_adds decode "k" _ (inl []) [Events events; Stop] watching H eq_refl Hd) as (r & e' & l' & H1 & H2 & H3).
  { by repeat constructor. }
  exists r, e', l'. split; [exact H1|]. split; [exact H2|].
  destruct H3 as [(-> & -> & _)|(-> & _)]; [done|]. exfalso. by vm_compute in H1.
Defined.

(** A value that does not decode, and a deletion after it: what is put next is not
    added. *)
Example watcher_dies :
  let run := watchNode decode "k" (inl []) [Events [Put "/root/pool/a" "junk"; Delete "/root/pool/b"]; Events [Put "/root/pool/c" "v1"]] in
  outcome_of run watching = Panic nil_deref /\ outcome_of (GetNodeInfo "k") (exec run watching) = Ret [None].
Proof. by vm_compute. Qed.

Lemma Close_stops_all_witness : open_chans watching /\ closeOnce watching = false /\
  exists e', Close watching = (Ret tt, e') /\ (forall key n, nodes watching !! key = Some n -> e_stopChan n ∈ closed e') /\
    NoDup (closed e') /\ Close e' = (Ret tt, e').
Proof.
  assert (open_chans watching) as H.
  { apply Watch_open. split_and!; [done|apply map_Forall_empty|]. cbn. intros k1 k2 n1 n2 H1. by rewrite lookup_empty in H1. }
  split_and!; [done..|]. by apply Close_stops_all.
Defined.

Example two_keys_watched :
  let z := (zk_Start (fun _ => inr EmptyString) (mkZk (Some ["zk"%string]) None EmptyString ∅ false false 0 [])).1 in
  let z' := exec (zk_WatchMulti None [("a", "x"); ("b", "/y")]%string) z in
  map (fun k => z_path <$> default None (z_nodes z' !! k)) ["a"; "b"; "c"]%string = [Some "/x"; Some "/y"; None]%string.
Proof. by vm_compute. Qed.

(** A key that is watched twice: the second watcher's channel takes the place of the
    first's, which no [Close] closes. *)
Example first_watcher_forgotten : closed (exec Close (exec (Watch None "k" "root/pool") watching)) = [1%nat].
Proof. by vm_compute. Qed.

End Example_.

End Discovery.
