(* ===== verification/Register.v ===== *)
(** * Service registration ([service/register/etcd.go], [zk.go])

    A server registers its address under a path of the store, in etcd with a lease
    that a goroutine watches, in ZooKeeper as an ephemeral node.  The clients of the
    stores are interfaces of operations on a state of their own; reading
    configuration files, JSON and the machine's addresses are parameters. *)

From S2P Require Import Prelude GoStd GoStrings Network Discovery.
Import GoStd GoStrings Discovery.

Module Register.

(** Writing the node and reading it back. *)
Class NodeCodec := { Marshal : DefaultNodeInfo -> string; Unmarshal : string -> option DefaultNodeInfo }.

(** [clientv3.Client]: leases are numbers, an error is its text.  A call that never returns
    is not described; the write of the node is made without a time-out. *)
Class Etcd (C : Type) := {
  Grant : Z -> C -> (Z + string) * C;
  Put : string -> string -> Z -> C -> option string * C;
  KeepAlive : Z -> C -> option string * C;
  Revoke : Z -> C -> option string * C
}.

(** [zk.Conn] *)
Class Zk (C : Type) := {
  Exists : string -> C -> (bool + string) * C;
  Create : string -> string -> bool -> C -> (string + string) * C
}.

Record rini : Type := mkRini {
  r_etcdHost : list string; r_zkHost : list string; r_root : string; r_heartBeat : Z; r_env : string; r_group : string;
  r_serverName : string; r_regPort : Z; r_weight : Z; r_cert : string; r_key : string; r_ca : string
}.

(** [strings.TrimRight(root, "/")] *)
Definition trim_root (root : string) : string := trim_right_char "/" root.

Definition uint64 (z : Z) : Z := u64 z.

(* [service/register/register.go:11-11] DefaultHeartBeat *)
Definition DefaultHeartBeat : Z := 10.
(* [service/register/register.go:12-12] DefaultRetryTimes *)
Definition DefaultRetryTimes : nat := 3.

Section register.
Context {Tls : Type} (ClientConfig : string -> string -> string -> Tls + string) (ini_Load : string -> rini + string).
Context (interfaces : list (option Network.IPNet)) {codec : NodeCodec}.

Definition load_rconf (path : string) : rini + string :=
  if String.eqb path EmptyString then inr "conf not set"%string
  else if negb (has_suffix ".ini" path) then inr "conf not an ini file"%string
  else ini_Load path.

Definition local_info (f : rini) : DefaultNodeInfo := mkInfo (Network.GetLocalIP interfaces) (r_regPort f) false (r_weight f).

(** The path of the service, and that of the node. *)
Definition service_path (root group service : string) : string := "/" +:+ root +:+ "/" +:+ group +:+ "/" +:+ service.
Definition node_path (root group service environ : string) (i : DefaultNodeInfo) : string :=
  service_path root group service +:+ "/" +:+ environ +:+ "/pool/" +:+ address i.

(** ** etcd *)

(* [service/register/etcd.go:33-42] EtcdConfig *)
Record EtcdConfig : Type := mkConfig {
  Host : list string; Root : string; Group : string; Service : string; NodeInfo_ : DefaultNodeInfo;
  HeartBeat : Z; Environ : string; TlsConfig : option Tls
}.

Section etcd.
Context {C : Type} {client_etcd : Etcd C}.

(** [client] says whether there is one, [exitChan] whether the channel is closed;
    [keeping] that the goroutine watching the lease was started. *)
(* [service/register/etcd.go:44-55] EtcdRegister *)
Record EtcdRegister : Type := mkReg {
  EtcdConfig_ : option EtcdConfig; EtcdConf : option rini; EtcdConfPath : string;
  client : bool; leaseID : Z; exitChan : option bool; startOnce : bool; closeOnce : bool; keeping : bool; store : C
}.

Definition set_config (c : option EtcdConfig) (e : EtcdRegister) : EtcdRegister :=
  mkReg c (EtcdConf e) (EtcdConfPath e) (client e) (leaseID e) (exitChan e) (startOnce e) (closeOnce e) (keeping e) (store e).
Definition set_client (b : bool) (e : EtcdRegister) : EtcdRegister :=
  mkReg (EtcdConfig_ e) (EtcdConf e) (EtcdConfPath e) b (leaseID e) (exitChan e) (startOnce e) (closeOnce e) (keeping e) (store e).
Definition set_lease (l : Z) (e : EtcdRegister) : EtcdRegister :=
  mkReg (EtcdConfig_ e) (EtcdConf e) (EtcdConfPath e) (client e) l (exitChan e) (startOnce e) (closeOnce e) (keeping e) (store e).
Definition set_exit (x : option bool) (e : EtcdRegister) : EtcdRegister :=
  mkReg (EtcdConfig_ e) (EtcdConf e) (EtcdConfPath e) (client e) (leaseID e) x (startOnce e) (closeOnce e) (keeping e) (store e).
Definition set_once (s c : bool) (path : string) (e : EtcdRegister) : EtcdRegister :=
  mkReg (EtcdConfig_ e) (EtcdConf e) path (client e) (leaseID e) (exitChan e) s c (keeping e) (store e).
Definition set_keeping (e : EtcdRegister) : EtcdRegister :=
  mkReg (EtcdConfig_ e) (EtcdConf e) (EtcdConfPath e) (client e) (leaseID e) (exitChan e) (startOnce e) (closeOnce e) true (store e).
Definition set_store (s : C) (e : EtcdRegister) : EtcdRegister :=
  mkReg (EtcdConfig_ e) (EtcdConf e) (EtcdConfPath e) (client e) (leaseID e) (exitChan e) (startOnce e) (closeOnce e) (keeping e) s.

(** A call of the client; without one it panics. *)
Definition call {A} (f : C -> A * C) : M EtcdRegister A := fun e =>
  if client e then let '(a, c) := f (store e) in (Ret a, set_store c e) else (Panic nil_deref, e).

Definition config : M EtcdRegister EtcdConfig := fun e =>
  match EtcdConfig_ e with Some c => (Ret c, e) | None => (Panic nil_deref, e) end.

(** The attempts to store the node: the lease is kept at the first that succeeds. *)
Fixpoint put_loop (n : nat) (node data : string) (id : Z) : M EtcdRegister unit :=
  match n with
  | O => mret tt
  | S n =>
      err ← call (Put node data id);
      match err with
      | Some _ => put_loop n node data id
      | None => modify (set_lease id)
      end
  end.

(** The error; without one the channel of the lease is watched. *)
(* [service/register/etcd.go:204-236] EtcdRegister.register *)
Definition register : M EtcdRegister (option string) :=
  c ← config;
  let node := node_path (Root c) (Group c) (Service c) (Environ c) (NodeInfo_ c) in
  resp ← call (Grant (i64 (HeartBeat c)));
  match resp with
  | inr err => mret (Some err)
  | inl id => _ ← put_loop DefaultRetryTimes node (Marshal (NodeInfo_ c)) id; call (KeepAlive id)
  end.

(* [service/register/etcd.go:238-249] EtcdRegister.revoke *)
Definition revoke : M EtcdRegister (option string) :=
  e ← get; call (Revoke (leaseID e)).

(** What the goroutine receives. *)
Inductive signal : Type := Alive | LeaseClosed | ClientDone | Exit.

Fixpoint keep_alive (l : list signal) : M EtcdRegister unit :=
  match l with
  | [] => mret tt
  | s :: l =>
      e ← get;
      if negb (client e) then panic nil_deref else
      match s with
      | Alive => keep_alive l
      | LeaseClosed => _ ← revoke; mret tt
      | ClientDone | Exit => mret tt
      end
  end.

(** [connected] says whether [clientv3.New] gives a client: its error is dropped. *)
(* [service/register/etcd.go:161-202] EtcdRegister.initWithEtcdConfig *)
Definition initWithEtcdConfig (connected : bool) (c : EtcdConfig) : M EtcdRegister (option string) :=
  _ ← modify (set_config (Some c));
  _ ← modify (set_exit (Some false));
  _ ← modify (set_client connected);
  err ← register;
  match err with
  | Some err => mret (Some err)
  | None => _ ← modify set_keeping; mret None
  end.

(* [service/register/etcd.go:107-159] EtcdRegister.initEtcd *)
Definition initEtcd (connected : bool) (f : rini) : M EtcdRegister (option string) :=
  let heartBeat := if r_heartBeat f =? 0 then DefaultHeartBeat else r_heartBeat f in
  let config tls := mkConfig (r_etcdHost f) (trim_root (r_root f)) (r_group f) (r_serverName f) (local_info f) heartBeat (r_env f) tls in
  if String.eqb (r_cert f) EmptyString || String.eqb (r_key f) EmptyString || String.eqb (r_ca f) EmptyString
  then initWithEtcdConfig connected (config None)
  else match ClientConfig (r_cert f) (r_key f) (r_ca f) with
       | inr err => mret (Some ("load tls conf from file fail,, err=" +:+ err))
       | inl tls => initWithEtcdConfig connected (config (Some tls))
       end.

(* [service/register/etcd.go:86-105] EtcdRegister.initObjForEtcd *)
Definition initObjForEtcd (connected : bool) (filePath : string) : M EtcdRegister (option string) :=
  match load_rconf filePath with inr err => mret (Some err) | inl f => initEtcd connected f end.

(* [service/register/etcd.go:57-73] EtcdRegister.Start *)
Definition Start (connected : bool) : M EtcdRegister (option string) :=
  e ← get;
  if startOnce e then mret None else
  match EtcdConfig_ e, EtcdConf e with
  | Some c, _ => _ ← modify (set_once true (closeOnce e) (EtcdConfPath e)); initWithEtcdConfig connected c
  | None, Some f => _ ← modify (set_once true (closeOnce e) (EtcdConfPath e)); initEtcd connected f
  | None, None =>
      let path := if String.eqb (EtcdConfPath e) EmptyString then "conf/conf.ini"%string else EtcdConfPath e in
      _ ← modify (set_once true (closeOnce e) path); initObjForEtcd connected path
  end.

(* [service/register/etcd.go:75-84] EtcdRegister.Close *)
Definition Close : M EtcdRegister unit :=
  e ← get;
  if closeOnce e then mret tt else
  _ ← modify (set_once (startOnce e) true (EtcdConfPath e));
  match exitChan e with
  | None => panic "close of nil channel"
  | Some true => panic "close of closed channel"
  | Some false =>
      _ ← modify (set_exit (Some true));
      if client e then _ ← revoke; modify (set_client false) else mret tt
  end.

Definition on_config (f : EtcdConfig -> EtcdConfig) : M EtcdRegister unit :=
  c ← config; modify (set_config (Some (f c))).

(* [service/register/etcd.go:251-253] EtcdRegister.SetOffline *)
Definition SetOffline (offline : bool) : M EtcdRegister unit :=
  on_config (fun c => mkConfig (Host c) (Root c) (Group c) (Service c)
    (mkInfo (Ip (NodeInfo_ c)) (Port (NodeInfo_ c)) offline (Weight (NodeInfo_ c))) (HeartBeat c) (Environ c) (TlsConfig c)).

(* [service/register/etcd.go:255-263] EtcdRegister.SetRootNode *)
Definition SetRootNode (root : string) : M EtcdRegister (option string) :=
  _ ← on_config (fun c => mkConfig (Host c) (trim_root root) (Group c) (Service c) (NodeInfo_ c) (HeartBeat c) (Environ c) (TlsConfig c));
  mret (if String.eqb (trim_root root) EmptyString then Some ("invalid root node " +:+ root) else None).

(* [service/register/etcd.go:265-267] EtcdRegister.GetRootNode *)
Definition GetRootNode : M EtcdRegister string := c ← config; mret (Root c).

(** A duration in nanoseconds. *)
(* [service/register/etcd.go:269-271] EtcdRegister.SetHeartBeat *)
Definition SetHeartBeat (heartBeat : Z) : M EtcdRegister unit :=
  on_config (fun c => mkConfig (Host c) (Root c) (Group c) (Service c) (NodeInfo_ c) (uint64 heartBeat) (Environ c) (TlsConfig c)).

End etcd.

(** ** ZooKeeper *)

(* [service/register/zk.go:22-29] ZkConfig *)
Record ZkConfig : Type := mkZkConfig {
  z_Host : list string; z_Root : string; z_Group : string; z_Service : string; z_NodeInfo : DefaultNodeInfo; z_Environ : string
}.

Section zk.
Context {C : Type} {client_zk : Zk C}.

(* [service/register/zk.go:31-40] ZkRegister *)
Record ZkRegister : Type := mkZkReg {
  ZkConfig_ : option ZkConfig; ZkConf : option rini; ZkConfPath : string; z_client : bool; z_startOnce : bool; z_store : C
}.

Definition z_set_config (c : ZkConfig) (z : ZkRegister) : ZkRegister :=
  mkZkReg (Some c) (ZkConf z) (ZkConfPath z) (z_client z) (z_startOnce z) (z_store z).
Definition z_set_client (b : bool) (z : ZkRegister) : ZkRegister :=
  mkZkReg (ZkConfig_ z) (ZkConf z) (ZkConfPath z) b (z_startOnce z) (z_store z).
Definition z_started (path : string) (z : ZkRegister) : ZkRegister :=
  mkZkReg (ZkConfig_ z) (ZkConf z) path (z_client z) true (z_store z).

Definition z_call {A} (f : C -> A * C) : M ZkRegister A := fun z =>
  if z_client z then let '(a, c) := f (z_store z) in
    (Ret a, mkZkReg (ZkConfig_ z) (ZkConf z) (ZkConfPath z) (z_client z) (z_startOnce z) c)
  else (Panic nil_deref, z).

Definition z_config : M ZkRegister ZkConfig := fun z =>
  match ZkConfig_ z with Some c => (Ret c, z) | None => (Panic nil_deref, z) end.

Fixpoint create_all (paths : list string) : M ZkRegister (option string) :=
  match paths with
  | [] => mret None
  | v :: paths =>
      r ← z_call (Create v EmptyString false);
      match r with
      | inr err => mret (Some err)
      | inl path => if String.eqb v path then create_all paths else mret (Some "rootPath is equal path"%string)
      end
  end.

(* [service/register/zk.go:184-212] ZkRegister.isExistNode *)
Definition isExistNode : M ZkRegister (option string) :=
  c ← z_config;
  let node := service_path (z_Root c) (z_Group c) (z_Service c) in
  r ← z_call (Exists node);
  match r with
  | inr err => mret (Some err)
  | inl true => mret None
  | inl false =>
      let p1 := node +:+ "/" +:+ z_Environ c in
      create_all [node; p1; p1 +:+ "/pool"]
  end.

(* [service/register/zk.go:144-161] ZkRegister.run *)
Definition run_ : M ZkRegister (option string) :=
  c ← z_config;
  let p := node_path (z_Root c) (z_Group c) (z_Service c) (z_Environ c) (z_NodeInfo c) in
  r ← z_call (Create p (Marshal (z_NodeInfo c)) true);
  mret (match r with inr err => Some err | inl _ => None end).

(* [service/register/zk.go:119-142] ZkRegister.initWithZkConfig *)
Definition initWithZkConfig (connect : option string) (c : ZkConfig) : M ZkRegister (option string) :=
  match connect with
  | Some err => mret (Some err)
  | None =>
      _ ← modify (z_set_config c);
      _ ← modify (z_set_client true);
      err ← isExistNode;
      match err with Some err => mret (Some err) | None => run_ end
  end.

(* [service/register/zk.go:88-117] ZkRegister.initZk *)
Definition initZk (connect : option string) (f : rini) : M ZkRegister (option string) :=
  initWithZkConfig connect (mkZkConfig (r_zkHost f) (trim_root (r_root f)) (r_group f) (r_serverName f) (local_info f) (r_env f)).

(* [service/register/zk.go:67-86] ZkRegister.initObjForZk *)
Definition initObjForZk (connect : option string) (filePath : string) : M ZkRegister (option string) :=
  match load_rconf filePath with inr err => mret (Some err) | inl f => initZk connect f end.

(* [service/register/zk.go:42-58] ZkRegister.Start *)
Definition zk_Start (connect : option string) : M ZkRegister (option string) :=
  z ← get;
  if z_startOnce z then mret None else
  match ZkConfig_ z, ZkConf z with
  | Some c, _ => _ ← modify (z_started (ZkConfPath z)); initWithZkConfig connect c
  | None, Some f => _ ← modify (z_started (ZkConfPath z)); initZk connect f
  | None, None =>
      let path := if String.eqb (ZkConfPath z) EmptyString then "conf/conf.ini"%string else ZkConfPath z in
      _ ← modify (z_started path); initObjForZk connect path
  end.

(* [service/register/zk.go:60-65] ZkRegister.Close *)
Definition zk_Close : M ZkRegister unit := modify (z_set_client false).

Definition z_on_config (f : ZkConfig -> ZkConfig) : M ZkRegister unit := c ← z_config; modify (z_set_config (f c)).

(* [service/register/zk.go:163-165] ZkRegister.SetOffline *)
Definition zk_SetOffline (offline : bool) : M ZkRegister unit :=
  z_on_config (fun c => mkZkConfig (z_Host c) (z_Root c) (z_Group c) (z_Service c)
    (mkInfo (Ip (z_NodeInfo c)) (Port (z_NodeInfo c)) offline (Weight (z_NodeInfo c))) (z_Environ c)).

(* [service/register/zk.go:167-175] ZkRegister.SetRootNode *)
Definition zk_SetRootNode (root : string) : M ZkRegister (option string) :=
  _ ← z_on_config (fun c => mkZkConfig (z_Host c) (trim_root root) (z_Group c) (z_Service c) (z_NodeInfo c) (z_Environ c));
  mret (if String.eqb (trim_root root) EmptyString then Some ("invalid root node " +:+ root) else None).

(* [service/register/zk.go:177-179] ZkRegister.GetRootNode *)
Definition zk_GetRootNode : M ZkRegister string := c ← z_config; mret (z_Root c).

(* [service/register/zk.go:181-182] ZkRegister.SetHeartBeat *)
Definition zk_SetHeartBeat (heartBeat : Z) : M ZkRegister unit := mret tt.

End zk.

(** ** The life of a registration *)

(** What etcd stores, by key with its lease.  A write that reports no error has stored
    the value under its lease; of one that reports an error nothing is said, since it
    may have been done all the same (a time-out).  Revoking a lease takes its keys away. *)
Class EtcdLaws (C : Type) {client_etcd : Etcd C} := {
  stored : C -> gmap string (string * Z);
  Put_stored k v l c : (Put k v l c).1 = None -> stored (Put k v l c).2 !! k = Some (v, l);
  Revoke_stored l c : (Revoke l c).1 = None -> stored (Revoke l c).2 = filter (fun kv => kv.2.2 ≠ l) (stored c)
}.

(** At most [n] attempts of a write, each made after the one before it has failed; the
    flag says whether the last one succeeded. *)
Inductive attempts {C : Type} (write : C -> option string * C) : nat -> C -> bool -> C -> Prop :=
  | attempts_over c : attempts write 0 c false c
  | attempt_done n c c' : write c = (None, c') -> attempts write (S n) c true c'
  | attempt_failed n c c1 c' err b : write c = (Some err, c1) -> attempts write n c1 b c' -> attempts write (S n) c b c'.

Section life.
Context {C : Type} {client_etcd : Etcd C} {laws : EtcdLaws C}.

Lemma etcd_call_run {A} (f : C -> A * C) (e : EtcdRegister (C := C)) : client e = true ->
  call f e = (Ret (f (store e)).1, set_store (f (store e)).2 e).
Proof. intros Hc. unfold call. rewrite Hc. by destruct (f (store e)). Qed.

Lemma put_loop_attempts n node data id (e : EtcdRegister (C := C)) : client e = true -> exists (ok : bool) s,
  put_loop n node data id e = (Ret tt, set_lease (if ok then id else leaseID e) (set_store s e)) /\
  attempts (Put node data id) n (store e) ok s.
Proof.
  revert e. induction n as [|n IH]; intros e Hc; cbn [put_loop].
  { exists false, (store e). split; [by destruct e|constructor]. }
  unfold mbind, M_bind. rewrite etcd_call_run by done.
  destruct (Put node data id (store e)) as [[err|] c] eqn:Hp; cbn [fst snd].
  - destruct (IH (set_store c e) Hc) as (ok & s & H1 & H2). exists ok, s. split; [exact H1|by econstructor].
  - exists true, c. split; [done|by constructor].
Qed.

Lemma attempts_stored n node data id (c c' : C) : attempts (Put node data id) n c true c' -> stored c' !! node = Some (data, id).
Proof.
  intros H. remember true as ok eqn:Hok. induction H as [|n c c' Hp|]; simplify_eq; [|by auto].
  pose proof (Put_stored node data id c) as Hs. rewrite Hp in Hs. by apply Hs.
Qed.

(** C31 The first start of a registration with a configuration, case by case, as long as
    the calls of etcd return.  Where the
    client cannot be made the start panics.  Otherwise a lease of the heartbeat's length
    is asked for, and an error of that is the error of the start.  With the lease [id]
    the node - the server's data under its path - is written under the lease at least
    once and at most three times, a further time only after a failure; when a write
    succeeds the node is stored with the data and the lease, and the lease is the one
    Close will revoke; when all three fail the registration goes on with the lease it
    had before, as if nothing had happened.  Either way the lease is kept alive: an
    error of that is the error of the start, and without one the start reports success
    and the goroutine that watches the lease runs. *)
Theorem Start_registers connected c e : EtcdConfig_ e = Some c -> startOnce e = false ->
  let node := node_path (Root c) (Group c) (Service c) (Environ c) (NodeInfo_ c) in
  let data := Marshal (NodeInfo_ c) in
  exists r e1, Start connected e = (r, e1) /\
  if connected then
    exitChan e1 = Some false /\ client e1 = true /\
    match Grant (i64 (HeartBeat c)) (store e) with
    | (inr err, s) => r = Ret (Some err) /\ store e1 = s /\ leaseID e1 = leaseID e /\ keeping e1 = keeping e
    | (inl id, s) => exists (ok : bool) s1, attempts (Put node data id) 3 s ok s1 /\
        (ok = true -> stored s1 !! node = Some (data, id)) /\ leaseID e1 = (if ok then id else leaseID e) /\
        KeepAlive id s1 = (match r with Ret err => err | Panic _ => None end, store e1) /\
        match r with Ret None => keeping e1 = true | Ret (Some _) => keeping e1 = keeping e | Panic _ => False end
    end
  else r = Panic nil_deref.
Proof.
  intros Hc Hs node data. destruct (Start connected e) as [r e1] eqn:Hrun. exists r, e1. split; [done|]. revert Hrun.
  unfold Start, get, modify, mbind, M_bind. rewrite Hs, Hc. unfold initWithEtcdConfig, modify, mbind, M_bind.
  destruct connected; [|by intros [= <- <-]]. set (e0 := set_client true _).
  unfold register, config. rewrite (bind_run _ _ _ c e0) by done. rewrite (bind_run _ _ _ _ _ (etcd_call_run _ e0 eq_refl)).
  change (store e0) with (store e). destruct (Grant _ (store e)) as [[id|err] s]; cbn [fst snd]; [|by intros [= <- <-]].
  fold node data. destruct (put_loop_attempts DefaultRetryTimes node data id (set_store s e0) eq_refl) as (ok & s1 & Hput & Hat).
  rewrite (bind_run _ _ _ _ _ Hput), etcd_call_run by done. cbn [store set_lease set_store].
  destruct (KeepAlive id s1) as [[err|] s2] eqn:Hka; intros [= <- <-]; (do 2 (split; [done|])); exists ok, s1;
    (split; [exact Hat|]; split; [intros ->; exact (attempts_stored _ _ _ _ _ _ Hat)|]; by destruct ok; rewrite Hka).
Qed.

(** Closing takes what was stored under the lease away. *)
Lemma Close_unregisters e node data : client e = true -> exitChan e = Some false -> closeOnce e = false ->
  stored (store e) !! node = Some (data, leaseID e) -> (Revoke (leaseID e) (store e)).1 = None ->
  exists e', Close e = (Ret tt, e') /\ stored (store e') !! node = None /\ client e' = false /\ Close e' = (Ret tt, e').
Proof.
  intros Hc Hx Ho Hn Hr. unfold Close, get, modify, mbind, M_bind. rewrite Ho. cbn. rewrite Hx, Hc. unfold revoke, get, mbind, M_bind.
  rewrite etcd_call_run by done. cbn. pose proof (Revoke_stored (leaseID e) (store e) Hr) as Hst.
  eexists. split; [reflexivity|]. cbn. split_and!; [|done..]. rewrite Hst. apply map_lookup_filter_None. right. intros x Hx' Hne.
  cbn in Hne. rewrite Hn in Hx'. by injection Hx' as <-.
Qed.

(** A registration that never started has no channel to close. *)
Lemma Close_unstarted e : closeOnce e = false -> exitChan e = None -> outcome_of Close e = Panic "close of nil channel".
Proof. intros Ho Hx. unfold outcome_of, Close, get, modify, mbind, M_bind. by rewrite Ho, Hx. Qed.

Lemma node_path_is_path root group service environ i : is_path (node_path root group service environ i).
Proof.
  unfold is_path, node_path, service_path. rewrite !string_app_assoc.
  match goal with |- has_prefix _ (_ +:+ ?s) = true => generalize s end. intros s.
  change ("/" +:+ s) with (String "/" s). by destruct s.
Qed.

(** A server that registers and leaves is listed for ever: a discovery that watches its pool, told that the node
    was stored with the server's data and then that it was deleted, still answers with the server. *)
Theorem gone_but_listed {T} c (e : EtcdDiscovery (Tls := T)) key l :
  Unmarshal (Marshal (NodeInfo_ c)) = Some (NodeInfo_ c) -> has_prefix "/" (Ip (NodeInfo_ c)) = false ->
  infos e key = Some l -> Forall no_path l -> None ∉ l ->
  let node := node_path (Root c) (Group c) (Service c) (Environ c) (NodeInfo_ c) in
  exists e', take_events Unmarshal key [Discovery.Put node (Marshal (NodeInfo_ c)); Discovery.Delete node] e = (Ret tt, e') /\
    infos e' key = Some (l ++ [Some (NodeInfo_ c)]).
Proof.
  intros Hu Hip Hl Hs Hnil. cbv zeta. set (node := node_path _ _ _ _ _).
  assert (is_path node) as Hnode by apply node_path_is_path.
  destruct (take_events_heard Unmarshal key [Discovery.Put node (Marshal (NodeInfo_ c)); Discovery.Delete node] e l Hl)
    as (r & e' & l' & H1 & H2 & H3).
  - apply Forall_app. split; [done|]. cbn. unfold unMsgNodeInfo. rewrite Hu. by apply Forall_singleton.
  - by repeat constructor.
  - exists e'. destruct H3 as [(-> & -> & _)|(_ & Hin & evs1 & k & evs2 & Heq & -> & _)].
    + split; [exact H1|]. rewrite H2. cbn. unfold unMsgNodeInfo. by rewrite Hu.
    + exfalso. destruct evs1 as [|ev1 [|ev2 [|]]]; simplify_eq/=. unfold unMsgNodeInfo in Hin.
      rewrite Hu in Hin. by apply elem_of_app in Hin as [?|?%list_elem_of_singleton].
Qed.

(** The heartbeat is a lease time in seconds, and set in nanoseconds. *)
Lemma heartbeat_in_nanoseconds c e d : EtcdConfig_ e = Some c -> isU 64 d ->
  HeartBeat <$> EtcdConfig_ (exec (SetHeartBeat d) (e : EtcdRegister (C := C))) = Some d.
Proof.
  intros Hc Hd. unfold exec, SetHeartBeat, on_config, config, modify, mbind, M_bind. rewrite Hc. cbn. unfold uint64.
  by rewrite wrapU_small.
Qed.

End life.

(** ** ZooKeeper's tree *)

(** A node is created only under one that exists. *)
Class ZkTree (C : Type) {client_zk : Zk C} := {
  tree : C -> gset string;
  Exists_tree p c : Exists p c = (inl (bool_decide (p ∈ tree c)), c);
  Create_orphan dir name data eph c : count "/" name = 0 -> dir ∉ tree c -> exists err, (Create (dir +:+ "/" +:+ name) data eph c).1 = inr err
}.

Section tree.
Context {C : Type} {client_zk : Zk C} {laws : ZkTree C}.

(** A second environment of a service cannot register: where the service's node exists, the nodes of the
    environment are not created, and creating the server's own fails. *)
Theorem second_environment_fails c z : ZkConfig_ z = Some c -> z_startOnce z = false -> count "/" (address (z_NodeInfo c)) = 0 ->
  service_path (z_Root c) (z_Group c) (z_Service c) ∈ tree (z_store z) ->
  service_path (z_Root c) (z_Group c) (z_Service c) +:+ "/" +:+ z_Environ c +:+ "/pool" ∉ tree (z_store z) ->
  exists err, outcome_of (zk_Start None) z = Ret (Some err).
Proof.
  intros Hc Hs Hnn Hin Hout. unfold outcome_of, zk_Start, get, modify, mbind, M_bind. rewrite Hs, Hc.
  unfold initWithZkConfig, isExistNode, run_, z_config, z_call, modify, mbind, M_bind. cbn. rewrite Exists_tree, bool_decide_true by done. cbn.
  destruct (Create_orphan _ (address (z_NodeInfo c)) (Marshal (z_NodeInfo c)) true (z_store z) Hnn Hout) as [err He].
  exists err. assert (node_path (z_Root c) (z_Group c) (z_Service c) (z_Environ c) (z_NodeInfo c) =
    (service_path (z_Root c) (z_Group c) (z_Service c) +:+ "/" +:+ z_Environ c +:+ "/pool") +:+ "/" +:+ address (z_NodeInfo c)) as ->.
  { unfold node_path. by rewrite !string_app_assoc. }
  by destruct (Create _ _ _ _) as [[p|err'] s]; cbn in He; simplify_eq.
Qed.

End tree.

End register.

(** ** Concrete stores *)

Module Stores.

(** An etcd that numbers its leases and refuses the first writes. *)
Record kv : Type := mkKv { data : gmap string (string * Z); next : Z; refuse : nat }.

#[export] Instance kv_etcd : Etcd kv := {
  Grant _ c := (inl (next c), mkKv (data c) (next c + 1) (refuse c));
  Put k v l c := match refuse c with
                 | S n => (Some "context deadline exceeded"%string, mkKv (data c) (next c) n)
                 | O => (None, mkKv (<[k := (v, l)]> (data c)) (next c) 0)
                 end;
  KeepAlive _ c := (None, c);
  Revoke l c := (None, mkKv (filter (fun kv => kv.2.2 ≠ l) (data c)) (next c) (refuse c))
}.

#[export] Instance kv_laws : EtcdLaws kv.
Proof. refine {| stored := data |}; [|done]. intros k v l c. cbn. destruct (refuse c); [|done]. intros _. apply lookup_insert_eq. Defined.

Definition info : DefaultNodeInfo := mkInfo "10.0.0.1" 80 false 1.

#[export] Instance one_node : NodeCodec := {
  Marshal _ := "v1"%string; Unmarshal s := if String.eqb s "v1" then Some info else None
}.

Definition conf : EtcdConfig (Tls := unit) := mkConfig ["etcd"%string] "root" "group" "service" info 10 "prod" None.

Definition fresh (n : nat) : EtcdRegister (Tls := unit) (C := kv) :=
  mkReg (Some conf) None EmptyString false 0 None false false false (mkKv ∅ 7 n).

Abbreviation start n := (Start (Tls := unit) (fun _ _ _ => inl tt) (fun _ => inr EmptyString) [] true (fresh n)).
Definition started : EtcdRegister (Tls := unit) (C := kv) := Eval vm_compute in (start 2).2.

Lemma Start_registers_witness : EtcdConfig_ (fresh 2) = Some conf /\ startOnce (fresh 2) = false /\
  start 2 = (Ret None, started) /\ exists ok s, attempts (Put (node_path "root" "group" "service" "prod" info) "v1" 7) 3
    (mkKv ∅ 8 2) ok s /\ leaseID started = 7 /\ keeping started = true.
Proof.
  split; [done|]. split; [done|].
  destruct (Start_registers (fun _ _ _ => inl tt) (fun _ => inr EmptyString) [] true conf (fresh 2) eq_refl eq_refl)
    as (r & e1 & Hrun & Hspec).
  assert (start 2 = (Ret None, started)) as H by (vm_compute; reflexivity). rewrite H in Hrun. injection Hrun as <- <-.
  split; [exact H|]. destruct Hspec as (_ & _ & ok & s & Hat & _ & _ & _ & Hk).
  exists ok, s. split; [exact Hat|]. split; [reflexivity|exact Hk].
Defined.

(** With every write refused the start succeeds and nothing is stored. *)
Example unregistered_success : (start 3).1 = Ret None /\ data (store (start 3).2) = ∅ /\ keeping (start 3).2 = true.
Proof. by vm_compute. Qed.

Definition discovering : EtcdDiscovery (Tls := unit) :=
  exec (Watch None "k" "/root/group/service/prod/pool") (mkEtcd None None EmptyString ∅ true true false 0 []).

Lemma gone_but_listed_witness :
  let node := node_path (Root conf) (Group conf) (Service conf) (Environ conf) (NodeInfo_ conf) in
  infos discovering "k" = Some [] /\ node = "/root/group/service/prod/pool/10.0.0.1:80"%string /\
  exists e', take_events Unmarshal "k" [Discovery.Put node (Marshal (NodeInfo_ conf)); Discovery.Delete node] discovering = (Ret tt, e') /\
    infos e' "k" = Some ([] ++ [Some (NodeInfo_ conf)]).
Proof.
  assert (infos discovering "k" = Some []) as H by (vm_compute; reflexivity).
  split; [exact H|]. split; [vm_compute; reflexivity|].
  exact (gone_but_listed conf discovering "k" [] eq_refl eq_refl H (Forall_nil_2 _) (not_elem_of_nil _)).
Defined.

(** The directory of a path. *)
Fixpoint parent (p : string) : option string :=
  match p with
  | EmptyString => None
  | String a p =>
      match parent p with
      | Some d => Some (String a d)
      | None => if Ascii.eqb a "/" then Some EmptyString else None
      end
  end.

Lemma parent_none s : count "/" s = 0 -> parent s = None.
Proof.
  induction s as [|a s IH]; [done|]. cbn [count parent]. pose proof (count_nonneg "/" s). destruct (Ascii.eqb a "/"); [lia|].
  intros Hs. by rewrite IH by lia.
Qed.

Lemma parent_app dir name : count "/" name = 0 -> parent (dir +:+ "/" +:+ name) = Some dir.
Proof.
  intros Hn. induction dir as [|a dir IH].
  - change (EmptyString +:+ "/" +:+ name) with (String "/" name). cbn [parent]. by rewrite parent_none.
  - change (String a dir +:+ "/" +:+ name) with (String a (dir +:+ "/" +:+ name)). cbn [parent]. by rewrite IH.
Qed.

#[export] Instance set_zk : Zk (gset string) := {
  Exists p c := (inl (bool_decide (p ∈ c)), c);
  Create p _ _ c :=
    match parent p with
    | Some d => if bool_decide (d ∈ c) then (inl p, {[ p ]} ∪ c) else (inr "zk: node does not exist"%string, c)
    | None => (inr "zk: invalid path"%string, c)
    end
}.

#[export] Instance set_tree : ZkTree (gset string).
Proof.
  refine {| tree := id |}; [done|]. intros dir name d eph c Hn Hd. cbn. rewrite parent_app by done.
  rewrite bool_decide_false by done. by eexists.
Defined.

Definition zconf : ZkConfig := mkZkConfig ["zk"%string] "root" "group" "service" info "test".

Definition zfresh : ZkRegister (C := gset string) :=
  mkZkReg (Some zconf) None EmptyString false false {[ "/root/group/service"%string; "/root/group/service/prod/pool"%string ]}.

Lemma second_environment_fails_witness :
  "/root/group/service"%string ∈ z_store zfresh /\
  exists err, outcome_of (zk_Start (fun _ => inr EmptyString) [] None) zfresh = Ret (Some err).
Proof.
  assert ("/root/group/service"%string ∈ z_store zfresh) as H by by (vm_compute; apply (bool_decide_unpack _); vm_compute).
  split; [exact H|].
  apply (second_environment_fails (fun _ => inr EmptyString) [] zconf zfresh eq_refl eq_refl); [reflexivity|exact H|].
  apply (bool_decide_unpack _). by vm_compute.
Defined.

End Stores.

End Register.
