(* ===== verification/Dgrpc.v ===== *)
(** * gRPC ([net/dgrpc])

    The interceptors of clients and servers as functions around what comes next,
    the chains the package makes of them, and how clients and servers start.  The
    goroutine-local data is the private map that [Gl] shows it to be. *)

From S2P Require Import Prelude GoStd GoStrings Utls Gl.
From Stdlib Require Import Floats.SpecFloat.
Import GoStd GoStrings.

Module Dgrpc.

(** ** Contexts, errors and the world *)

(** [metadata.MD]: Go's map of texts to lists of texts. *)
Abbreviation MD := (gmap string (list string)).

(** A context: the metadata that came with the request and that of the calls made
    with it, the deadline, the cancellations it is under, and the peer with its
    address if it has one. *)
Record Ctx : Type := mkCtx {
  incoming : option MD; outgoing : option MD; deadline : option Z; under : list nat; peer : option (option string)
}.

(** A status: its code and its message. *)
Record gerr : Type := mkErr { st_code : Z; st_text : string }.

Definition OK : Z := 0.
Definition Unknown : Z := 2.
Definition DeadlineExceeded : Z := 4.
Definition ResourceExhausted : Z := 8.
Definition Unimplemented : Z := 12.
Definition Internal : Z := 13.

Definition Code (e : option gerr) : Z := match e with None => OK | Some e => st_code e end.

(* [net/dgrpc/utls.go:35-41] ShouldFail4Code *)
Definition ShouldFail4Code (c : Z) : bool :=
  (c =? ResourceExhausted) || (c =? Unknown) || (c =? Internal) || (c =? Unimplemented) || (c =? DeadlineExceeded).

(* [net/dgrpc/utls.go:16-33] GetClientIP *)
Definition GetClientIP (ctx : Ctx) : string :=
  match peer ctx with
  | None | Some None => EmptyString
  | Some (Some addr) =>
      match split ":" addr with
      | [] => EmptyString
      | a :: _ => if String.eqb a "[" then "127.0.0.1" else a
      end
  end.

Inductive level : Type := Info | Warn | Critical.

(** What is written: the tag, the method, the code and the error, the cost in
    milliseconds and whether the goroutine's data is shown. *)
Inductive line : Type :=
| Session (l : level) (method : string) (code : Z) (err : option gerr) (cost : Z) (gl : bool)
| Panicked (text : string) | MarshalFailed.

Inductive count : Type := PcCost (key : string) (cost : Z) | PcCostFail (key : string) (n : Z).

Section grpc.
(** [U] is the state of handlers and of the network. *)
Context {U : Type}.

Record World : Type := mkWorld {
  gldata : option Gl.glmap; clock : Z; pcs : list count; lines : list line;
  cancelled : list nat; next_ctx : nat; headers : list (string * string); user : U
}.

Definition set_gl v w := mkWorld v (clock w) (pcs w) (lines w) (cancelled w) (next_ctx w) (headers w) (user w).
Definition count_ (c : count) : M World unit := modify (fun w =>
  mkWorld (gldata w) (clock w) (pcs w ++ [c]) (lines w) (cancelled w) (next_ctx w) (headers w) (user w)).
Definition say (l : line) : M World unit := modify (fun w =>
  mkWorld (gldata w) (clock w) (pcs w) (lines w ++ [l]) (cancelled w) (next_ctx w) (headers w) (user w)).
Definition cancel (n : nat) : M World unit := modify (fun w =>
  mkWorld (gldata w) (clock w) (pcs w) (lines w) (n :: cancelled w) (next_ctx w) (headers w) (user w)).
Definition SetHeader (k v : string) : M World unit := modify (fun w =>
  mkWorld (gldata w) (clock w) (pcs w) (lines w) (cancelled w) (next_ctx w) (headers w ++ [(k, v)]) (user w)).
Definition now : M World Z := gets clock.

(** The calls of package gl, on the goroutine's own map. *)
Definition gl (c : Gl.op (gmap string Gl.value)) : M World (Gl.res (gmap string Gl.value)) := fun w =>
  let '(r, o) := Gl.l_op c (gldata w) in (Ret r, set_gl o w).
Definition gl_do (c : Gl.op (gmap string Gl.value)) : M World unit := _ ← gl c; mret tt.
Definition gl_Exist : M World bool := r ← gl Gl.OExist; mret (match r with Gl.RBool b => b | _ => false end).
Definition gl_Get (k : string) : M World (option Gl.value) :=
  r ← gl (Gl.OGet (Gl.KStr k)); mret (match r with Gl.RVal v => v | _ => None end).
Definition gl_Set (k : string) (v : string) : M World unit := gl_do (Gl.OSet (Gl.KStr k) (Gl.VStr v)).

(** A context with a time-out, and its cancellation. *)
Definition timed (n : nat) (d : Z) (ctx : Ctx) : Ctx :=
  mkCtx (incoming ctx) (outgoing ctx) (Some d) (n :: under ctx) (peer ctx).

Definition WithTimeout (ctx : Ctx) (timeout : Z) : M World (Ctx * nat) := fun w =>
  let n := next_ctx w in
  (Ret (timed n (i64 (clock w + timeout)) ctx, n),
   mkWorld (gldata w) (clock w) (pcs w) (lines w) (cancelled w) (S n) (headers w) (user w)).

Definition is_cancelled (ctx : Ctx) (w : World) : Prop := exists n, n ∈ under ctx /\ n ∈ cancelled w.

(** ** Interceptors *)

(** What comes next in the chain, with the result [R] of the kind of call; whether
    it is an error. *)
Definition call (R : Type) : Type := Ctx -> M World R.
Definition interceptor (R : Type) : Type := call R -> call R.

Class Fails (R : Type) := {
  err_of : R -> option gerr;
  failed : gerr -> R;
  err_of_failed e : err_of (failed e) = Some e
}.

Section any.
Context {R : Type} {fails : Fails R}.

(* [net/dgrpc/gl.go:14-34] UnaryClientCtxInterceptor, StreamClientCtxInterceptor *)
Definition ClientCtx : interceptor R := fun next ctx =>
  b ← gl_Exist;
  if b : bool then next ctx else _ ← gl_do Gl.OInit; defer (gl_do Gl.OClose) (next ctx).

(* [net/dgrpc/gl.go:36-50] StreamServerCtxInterceptor, UnaryServerCtxInterceptor *)
Definition ServerCtx : interceptor R := fun next ctx =>
  _ ← gl_do Gl.OInit; defer (gl_do Gl.OClose) (next ctx).

Variable FormatFloat : spec_float -> string.

(** A value of the goroutine's map as the conversions see it. *)
Definition to_go (v : option Gl.value) : Utls.goval :=
  match v with
  | None | Some Gl.VNil => Utls.GNil
  | Some (Gl.VInt64 z) => Utls.GInt64 z
  | Some (Gl.VStr s) => Utls.GString s
  | _ => Utls.GOther
  end.

Definition metaTraceId : string := "_traceId".

(** [md.Set] and [metadata.Pairs] of one pair, [utls.TraceId]. *)
Variable md_Set : string -> string -> MD -> MD.
Variable TraceId : World -> string.

(** Whether [metadata.FromIncomingContext] gives the map of the context itself, which
    its documentation says is not to be changed, or a copy. *)
Variable shared : bool.

(** The trace id that came in, empty where there is none. *)
Definition incoming_trace (ctx : Ctx) : string :=
  match incoming ctx with
  | None => EmptyString
  | Some md => match md !! metaTraceId with Some (t :: _) => t | _ => EmptyString end
  end.

(** The goroutine's log id, or a new trace id; the arguments are evaluated first. *)
Definition local_trace : M World string :=
  logId ← gl_Get Gl.LogId;
  new ← gets TraceId;
  mret (Utls.MustString FormatFloat (to_go logId) new).

(** [md.Set], then a context that sends the map: where the map is the context's own,
    what came in changes with it. *)
Definition traced (traceId : string) (ctx : Ctx) : Ctx :=
  let md := md_Set metaTraceId traceId (default ∅ (incoming ctx)) in
  mkCtx (if shared then (fun _ => md) <$> incoming ctx else incoming ctx) (Some md) (deadline ctx) (under ctx) (peer ctx).

(* [net/dgrpc/pc.go:25-46] ensureTraceId *)
Definition ensureTraceId (ctx : Ctx) : M World Ctx :=
  let traceId := incoming_trace ctx in
  if String.eqb traceId EmptyString then
    traceId ← local_trace;
    _ ← gl_Set metaTraceId traceId;
    _ ← gl_Set Gl.LogId traceId;
    mret (traced traceId ctx)
  else
    _ ← gl_Set metaTraceId traceId;
    _ ← gl_Set Gl.LogId traceId;
    mret ctx.

(* [net/dgrpc/pc.go:48-65] ensureTraceIdStream *)
Definition ensureTraceIdStream (ctx : Ctx) : M World unit :=
  let traceId := incoming_trace ctx in
  if String.eqb traceId EmptyString then
    traceId ← local_trace;
    _ ← SetHeader (ToLower metaTraceId) traceId;
    _ ← gl_Set metaTraceId traceId;
    gl_Set Gl.LogId traceId
  else
    _ ← gl_Set metaTraceId traceId;
    gl_Set Gl.LogId traceId.

Definition pc_key (service method side : string) : string :=
  "service=" +:+ service +:+ ",method=" +:+ method +:+ ",st=" +:+ side.

Definition is_some_err (r : R) : bool := match err_of r with Some _ => true | None => false end.

(* [net/dgrpc/pc.go:67-103] UnaryClientPerfCounterInterceptor, StreamClientPerfCounterInterceptor *)
Definition ClientPerfCounter (service method : string) : interceptor R := fun next ctx =>
  st ← now;
  ctx ← ensureTraceId ctx;
  r ← next ctx;
  t ← now;
  let cost := time_Sub t st in
  let k := pc_key service method "client" in
  _ ← count_ (PcCost k cost);
  _ ← gl_do (Gl.OIncrCountKey method 1);
  _ ← gl_do (Gl.OIncrCostKey method cost);
  _ ← (if is_some_err r then _ ← count_ (PcCostFail k 1); gl_do (Gl.OIncrFailKey method 1) else mret tt);
  mret r.

Definition server_counted (service method : string) (st : Z) (r : R) : M World R :=
  t ← now;
  let k := pc_key service method "server" in
  _ ← count_ (PcCost k (time_Sub t st));
  _ ← (if is_some_err r then count_ (PcCostFail k 1) else mret tt);
  mret r.

(* [net/dgrpc/pc.go:105-119] StreamServerPerfCounterInterceptor *)
Definition StreamServerPerfCounter (service method : string) : interceptor R := fun next ctx =>
  st ← now; _ ← ensureTraceIdStream ctx; r ← next ctx; server_counted service method st r.

(* [net/dgrpc/pc.go:121-135] UnaryServerPerfCounterInterceptor *)
Definition UnaryServerPerfCounter (service method : string) : interceptor R := fun next ctx =>
  st ← now; ctx ← ensureTraceId ctx; r ← next ctx; server_counted service method st r.

(** The deadline is added where there is none, and cancelled on the way back. *)
(* [net/dgrpc/timeout.go:22-44] UnaryClientTimeOutInterceptor, StreamClientTimeOutInterceptor *)
Definition ClientTimeOut (defaultTimeout : Z) : interceptor R := fun next ctx =>
  match deadline ctx with
  | Some _ => next ctx
  | None => c ← WithTimeout ctx defaultTimeout; defer (cancel c.2) (next c.1)
  end.

(** Whether the data to log, which is the request and this reply, can be encoded. *)
Variable Marshals : R -> bool.

Definition log_session (method : string) (l : Z -> level) (shown : Z -> bool) (st : Z) (r : R) : M World R :=
  t ← now;
  let costMs := Z.quot (time_Sub t st) Millisecond in
  let err := err_of r in
  let gl := shown costMs || is_some_err r in
  _ ← (if Marshals r then say (Session (l (Code err)) method (Code err) err costMs gl) else say MarshalFailed);
  mret r.

Definition tag_request (method : string) (ctx : Ctx) : M World unit :=
  let ip := GetClientIP ctx in
  _ ← (if String.eqb ip EmptyString then mret tt else gl_Set Gl.ClientIp ip);
  gl_Set Gl.Url method.

(* [net/dgrpc/log.go:43-82] StreamServerLoggerInterceptor *)
Definition StreamServerLogger (method : string) : interceptor R := fun next ctx =>
  st ← now; _ ← tag_request method ctx; r ← next ctx;
  log_session method (fun c => if ShouldFail4Code c then Warn else Warn) (fun ms => 50 <=? ms) st r.

(* [net/dgrpc/log.go:84-125] UnaryServerLoggerInterceptor *)
Definition UnaryServerLogger (method : string) : interceptor R := fun next ctx =>
  st ← now; _ ← tag_request method ctx; r ← next ctx;
  log_session method (fun c => if ShouldFail4Code c then Warn else Info) (fun ms => 50 <? ms) st r.

(* [net/dgrpc/recover.go:30-37] DefaultRecoveryHandler *)
Definition DefaultRecoveryHandler (p : string) : M World gerr :=
  _ ← say (Panicked p); mret (mkErr Internal p).

(** *** Laws *)

Hypothesis md_Set_lower : forall k v md, md_Set k v md = <[ToLower k := [v]]> md.

(** Keys as they arrive: in lower case. *)
Definition lower_keys (ctx : Ctx) : Prop :=
  forall md, incoming ctx = Some md -> forall k, is_Some (md !! k) -> ToLower k = k.

(** The id is looked for under a name with a capital letter, and no name that
    arrives has one. *)
Lemma trace_never_found ctx : lower_keys ctx -> incoming_trace ctx = EmptyString.
Proof.
  intros Hl. unfold incoming_trace. destruct (incoming ctx) as [md|] eqn:E; [|done].
  destruct (md !! metaTraceId) as [v|] eqn:Em; [|done]. specialize (Hl md E metaTraceId (mk_is_Some _ _ Em)). done.
Qed.

(** What [ensureTraceId] does to a request: its own id is kept in the goroutine's
    data and sent on, over whatever metadata the caller had set for the calls made
    with the context. *)
Lemma traced_sends t ctx : outgoing (traced t ctx) = Some (<[ToLower metaTraceId := [t]]> (default ∅ (incoming ctx))).
Proof. cbn. by rewrite md_Set_lower. Qed.

Lemma ensureTraceId_run ctx w : lower_keys ctx ->
  let t := Utls.MustString FormatFloat (to_go (gldata w ≫= (.!! Gl.KStr Gl.LogId))) (TraceId w) in
  ensureTraceId ctx w =
    (Ret (traced t ctx),
     set_gl (insert (Gl.KStr Gl.LogId) (Gl.VStr t) <$> (insert (Gl.KStr metaTraceId) (Gl.VStr t) <$> gldata w)) w).
Proof.
  intros Hl t. unfold ensureTraceId. rewrite (trace_never_found ctx Hl). cbn [String.eqb].
  unfold local_trace, gl_Get, gl_Set, gl_do, gl. go_run. by destruct w.
Qed.

(** *** One interceptor at a time *)

Definition add_pcs (l : list count) w :=
  mkWorld (gldata w) (clock w) (pcs w ++ l) (lines w) (cancelled w) (next_ctx w) (headers w) (user w).
Definition add_lines (l : list line) w :=
  mkWorld (gldata w) (clock w) (pcs w) (lines w ++ l) (cancelled w) (next_ctx w) (headers w) (user w).

Lemma set_gl_same w : set_gl (gldata w) w = w.
Proof. by destruct w. Qed.

Lemma ClientCtx_has next ctx w g : gldata w = Some g -> ClientCtx next ctx w = next ctx w.
Proof. intros E. unfold ClientCtx, gl_Exist, gl. go_run. rewrite set_gl_same, E. done. Qed.

Lemma ClientCtx_none next ctx w res w1 : gldata w = None -> next ctx (set_gl (Some ∅) w) = (res, w1) ->
  ClientCtx next ctx w = (res, set_gl None w1).
Proof. intros E H. unfold ClientCtx, gl_Exist, gl_do, gl, defer. go_run. rewrite set_gl_same, E. cbn. by rewrite H. Qed.

Lemma ServerCtx_run next ctx w res w1 : next ctx (set_gl (Some ∅) w) = (res, w1) ->
  ServerCtx next ctx w = (res, set_gl None w1).
Proof. intros H. unfold ServerCtx, gl_do, gl, defer. go_run. by rewrite H. Qed.

(** The context made for a call without a deadline is cancelled when the call
    returns. *)
Lemma ClientTimeOut_none timeout next ctx w res w1 : deadline ctx = None ->
  let ctx' := timed (next_ctx w) (i64 (clock w + timeout)) ctx in
  next ctx' (mkWorld (gldata w) (clock w) (pcs w) (lines w) (cancelled w) (S (next_ctx w)) (headers w) (user w)) = (res, w1) ->
  exists w2, ClientTimeOut timeout next ctx w = (res, w2) /\ is_cancelled ctx' w2 /\
    gldata w2 = gldata w1 /\ clock w2 = clock w1 /\ pcs w2 = pcs w1 /\ lines w2 = lines w1 /\ user w2 = user w1.
Proof.
  intros Hd ctx' H. unfold ClientTimeOut. rewrite Hd. unfold WithTimeout, defer, cancel. go_run.
  fold ctx'. rewrite H. eexists. split; [done|]. cbn. split_and!; try done.
  exists (next_ctx w). split; cbn; left.
Qed.

Definition counted (key : string) (cost : Z) (r : R) : list count :=
  PcCost key cost :: (if is_some_err r then [PcCostFail key 1] else []).

Lemma server_counted_run service method st r w :
  server_counted service method st r w =
    (Ret r, add_pcs (counted (pc_key service method "server") (time_Sub (clock w) st) r) w).
Proof.
  unfold server_counted, counted, now, count_, add_pcs. go_run. destruct (is_some_err r); cbn; [|done].
  by rewrite <- app_assoc.
Qed.

(** The line of a request. *)
Definition session (method : string) (l : Z -> level) (shown : Z -> bool) (cost : Z) (r : R) : line :=
  if Marshals r then
    Session (l (Code (err_of r))) method (Code (err_of r)) (err_of r) cost (shown cost || is_some_err r)
  else MarshalFailed.

Lemma log_session_run method l shown st r w :
  log_session method l shown st r w =
    (Ret r, add_lines [session method l shown (Z.quot (time_Sub (clock w) st) Millisecond) r] w).
Proof. unfold log_session, session, now, say, add_lines. go_run. by destruct (Marshals r). Qed.

(** *** The chain of a server *)

(** [grpcMiddleware.ChainUnaryServer] and the others: the first interceptor is the
    outermost.  The recovery interceptor passes results through and hands the value
    of a panic to the handler it was given. *)
Variable chain : list (interceptor R) -> interceptor R.
Hypothesis chain_nil : forall next ctx, chain [] next ctx = next ctx.
Hypothesis chain_cons : forall i l next ctx, chain (i :: l) next ctx = i (chain l next) ctx.
Variable Recovery : (string -> M World gerr) -> interceptor R.
Hypothesis Recovery_ret : forall h (next : call R) ctx w r w', next ctx w = (Ret r, w') -> Recovery h next ctx w = (Ret r, w').
Hypothesis Recovery_panic : forall h (next : call R) ctx w p w', next ctx w = (Panic p, w') ->
  Recovery h next ctx w = (e ← h p; mret (failed e)) w'.

(** What the handler's goroutine knows of the request when it is called. *)
Definition request_data (method : string) (ctx : Ctx) (t : string) : Gl.glmap :=
  let g := <[Gl.KStr Gl.LogId := Gl.VStr t]> (<[Gl.KStr metaTraceId := Gl.VStr t]> ∅) in
  <[Gl.KStr Gl.Url := Gl.VStr method]>
    (if String.eqb (GetClientIP ctx) EmptyString then g else <[Gl.KStr Gl.ClientIp := Gl.VStr (GetClientIP ctx)]> g).

Lemma tag_request_run method ctx w g : gldata w = Some g ->
  tag_request method ctx w = (Ret tt, set_gl (Some (<[Gl.KStr Gl.Url := Gl.VStr method]>
    (if String.eqb (GetClientIP ctx) EmptyString then g else <[Gl.KStr Gl.ClientIp := Gl.VStr (GetClientIP ctx)]> g))) w).
Proof.
  intros E. unfold tag_request, gl_Set, gl_do, gl. go_run. destruct (String.eqb _ _); cbn; by rewrite E.
Qed.

(** The result of a handler behind the recovery interceptor. *)
Lemma recovered_run (next : call R) ctx w : exists r w1 l,
  Recovery DefaultRecoveryHandler next ctx w = (Ret r, add_lines l w1) /\
  ((next ctx w = (Ret r, w1) /\ l = []) \/
   exists p, next ctx w = (Panic p, w1) /\ l = [Panicked p] /\ err_of r = Some (mkErr Internal p)).
Proof.
  destruct (next ctx w) as [[r|p] w1] eqn:E.
  - exists r, w1, []. split; [|by left]. rewrite (Recovery_ret _ _ _ _ _ _ E). unfold add_lines. rewrite app_nil_r. by destruct w1.
  - exists (failed (mkErr Internal p)), w1, [Panicked p]. rewrite (Recovery_panic _ _ _ _ _ _ E). split; [done|].
    right. exists p. by rewrite err_of_failed.
Qed.

(** *** Options

    The lists an option adds to, of functions of the method; the interceptor of the
    retries comes from the library. *)

(* [net/dgrpc/interceptor.go:22-27] OptionHolder *)
Record OptionHolder : Type := mkHolder {
  UnaryServerInterceptors : list (string -> interceptor R);
  StreamServerInterceptors : list (string -> interceptor R);
  UnaryClientInterceptors : list (string -> interceptor R);
  StreamClientInterceptors : list (string -> interceptor R)
}.

Definition InterceptorOption : Type := OptionHolder -> OptionHolder.

Definition adds (us ss uc sc : list (string -> interceptor R)) : InterceptorOption := fun h =>
  mkHolder (UnaryServerInterceptors h ++ us) (StreamServerInterceptors h ++ ss)
    (UnaryClientInterceptors h ++ uc) (StreamClientInterceptors h ++ sc).

(* [net/dgrpc/interceptor.go:14-20] GetOptionHolder *)
Definition GetOptionHolder (options : list InterceptorOption) : OptionHolder :=
  fold_left (fun holder v => v holder) options (mkHolder [] [] [] []).

(* [net/dgrpc/gl.go:52-59] WithGlInterceptor *)
Definition WithGlInterceptor : InterceptorOption :=
  adds [fun _ => ServerCtx] [fun _ => ServerCtx] [fun _ => ClientCtx] [fun _ => ClientCtx].

(* [net/dgrpc/pc.go:137-144] WithPerfCounterInterceptor *)
Definition WithPerfCounterInterceptor (service : string) : InterceptorOption :=
  adds [UnaryServerPerfCounter service] [StreamServerPerfCounter service]
    [ClientPerfCounter service] [ClientPerfCounter service].

(* [net/dgrpc/log.go:36-41] WithLogInterceptor *)
Definition WithLogInterceptor : InterceptorOption := adds [UnaryServerLogger] [StreamServerLogger] [] [].

(* [net/dgrpc/recover.go:18-28] WithRecoveryInterceptor *)
Definition WithRecoveryInterceptor (handler : option (string -> M World gerr)) : InterceptorOption :=
  let h := default DefaultRecoveryHandler handler in
  adds [fun _ => Recovery h] [fun _ => Recovery h] [] [].

(* [net/dgrpc/timeout.go:15-20] WithClientTimeOutInterceptor *)
Definition WithClientTimeOutInterceptor (defaultTimeout : Z) : InterceptorOption :=
  adds [] [] [fun _ => ClientTimeOut defaultTimeout] [fun _ => ClientTimeOut defaultTimeout].

(* [net/dgrpc/retry.go:10-15] WithRetryInterceptor *)
Definition WithRetryInterceptor (retry : interceptor R) : InterceptorOption := adds [] [] [fun _ => retry] [fun _ => retry].

(** Options only add, in their order. *)
Lemma options_add l h : exists us ss uc sc, fold_left (fun holder (v : InterceptorOption) => v holder)
  (map (fun '(a, b, c, d) => adds a b c d) l) h = adds us ss uc sc h /\
  us = concat (map (fun '(a, b, c, d) => a) l) /\ ss = concat (map (fun '(a, b, c, d) => b) l) /\
  uc = concat (map (fun '(a, b, c, d) => c) l) /\ sc = concat (map (fun '(a, b, c, d) => d) l).
Proof.
  revert h. induction l as [|[[[a b] c] d] l IH]; intros h; cbn.
  - exists [], [], [], []. unfold adds. rewrite !app_nil_r. by destruct h.
  - destruct (IH (adds a b c d h)) as (us & ss & uc & sc & -> & -> & -> & -> & ->).
    eexists _, _, _, _. split_and!; try reflexivity. unfold adds. cbn. by rewrite !app_assoc.
Qed.

(* [net/dgrpc/server.go:98-106] GrpcServer.DefaultServer, options *)
Definition server_options (service : string) : OptionHolder :=
  GetOptionHolder [WithGlInterceptor; WithPerfCounterInterceptor service; WithLogInterceptor; WithRecoveryInterceptor None].

(** The chains of a server around a handler. *)
Definition unary_server (service method : string) : call R -> call R :=
  chain (map (fun i => i method) (UnaryServerInterceptors (server_options service))).
Definition stream_server (service method : string) : call R -> call R :=
  chain (map (fun i => i method) (StreamServerInterceptors (server_options service))).

Lemma unary_server_chain service method : unary_server service method =
  chain [ServerCtx; UnaryServerPerfCounter service method; UnaryServerLogger method; Recovery DefaultRecoveryHandler].
Proof. done. Qed.

(** C12 A request to a gRPC server through the default chain, with the keys of its
    metadata in lower case as gRPC delivers them, is always answered: with what the
    handler returned, or, where it panicked, with the internal error of the panic,
    which is logged.  The handler runs with fresh data of its goroutine, that holds the
    trace id, the method and what [GetClientIP] makes of the peer's address (which is
    the client's address only for IPv4, see [addresses]); the request is counted once,
    as a failure exactly if it has an error.  One line is logged for it: with the code
    of the answer where request and reply can be encoded as JSON, and otherwise only
    that they cannot, without method or code.  The data is gone afterwards. *)
Theorem request_served service method h ctx w : lower_keys ctx ->
  exists ctx1 r w1 w2 extra,
    let cost := time_Sub (clock w2) (clock w) in
    unary_server service method h ctx w =
      (Ret r, set_gl None (add_pcs (counted (pc_key service method "server") cost r)
        (add_lines (extra ++ [session method (fun c => if ShouldFail4Code c then Warn else Info) (fun ms => 50 <? ms) (Z.quot cost Millisecond) r]) w2))) /\
    ctx1 = traced (TraceId (set_gl (Some ∅) w)) ctx /\
    outgoing ctx1 = Some (<[ToLower metaTraceId := [TraceId (set_gl (Some ∅) w)]]> (default ∅ (incoming ctx))) /\
    w1 = set_gl (Some (request_data method ctx (TraceId (set_gl (Some ∅) w)))) w /\
    ((h ctx1 w1 = (Ret r, w2) /\ extra = []) \/
     exists p, h ctx1 w1 = (Panic p, w2) /\ extra = [Panicked p] /\ err_of r = Some (mkErr Internal p)).
Proof.
  intros Hl. set (t := TraceId (set_gl (Some ∅) w)).
  set (ctx1 := traced t ctx).
  set (w1 := set_gl (Some (request_data method ctx t)) w).
  destruct (recovered_run (chain [] h) ctx1 w1) as (r & w2 & extra & Hr & Hcase). rewrite chain_nil in Hcase.
  exists ctx1, r, w1, w2, extra. cbv zeta. set (ms := Z.quot (time_Sub (clock w2) (clock w)) Millisecond). split; [|split; [done|split; [apply traced_sends|split; [done|exact Hcase]]]].
  rewrite unary_server_chain, chain_cons. erewrite ServerCtx_run; [reflexivity|].
  set (w0 := set_gl (Some ∅) w). rewrite chain_cons. unfold UnaryServerPerfCounter, now.
  rewrite (bind_run (gets clock) _ w0 (clock w) w0) by done.
  assert (ensureTraceId ctx w0 = (Ret ctx1, set_gl (Some (<[Gl.KStr Gl.LogId := Gl.VStr t]> (<[Gl.KStr metaTraceId := Gl.VStr t]> ∅))) w)) as Ht
    by exact (ensureTraceId_run ctx w0 Hl).
  rewrite (bind_run _ _ _ _ _ Ht). set (w1' := set_gl _ w).
  assert (chain [UnaryServerLogger method; Recovery DefaultRecoveryHandler] h ctx1 w1' =
    (Ret r, add_lines (extra ++ [session method (fun c => if ShouldFail4Code c then Warn else Info) (fun ms => 50 <? ms) ms r]) w2)) as Hlog.
  { rewrite chain_cons. unfold UnaryServerLogger, now. rewrite (bind_run (gets clock) _ w1' (clock w) w1') by done.
    rewrite (bind_run _ _ _ _ _ (tag_request_run method ctx1 w1' _ eq_refl)).
    assert (chain [Recovery DefaultRecoveryHandler] h ctx1 w1 = (Ret r, add_lines extra w2)) as Hrec.
    { by rewrite chain_cons. }
    change (set_gl _ w1') with w1. rewrite (bind_run _ _ _ _ _ Hrec), log_session_run.
    unfold add_lines. cbn. by rewrite <- app_assoc. }
  rewrite (bind_run _ _ _ _ _ Hlog), server_counted_run. done.
Qed.

(** *** The chain of a client *)

(** What a client counts of a call, in the goroutine's data as well. *)
Definition gl_counted (method : string) (cost : Z) (r : R) (g : option Gl.glmap) : option Gl.glmap :=
  let g := (Gl.l_op (Gl.OIncrCostKey method cost : Gl.op (gmap string Gl.value))
             (Gl.l_op (Gl.OIncrCountKey method 1 : Gl.op (gmap string Gl.value)) g).2).2 in
  if is_some_err r then (Gl.l_op (Gl.OIncrFailKey method 1 : Gl.op (gmap string Gl.value)) g).2 else g.

Lemma gl_do_run c w : gl_do c w = (Ret tt, set_gl (Gl.l_op c (gldata w)).2 w).
Proof. unfold gl_do, gl. go_run. by destruct (Gl.l_op c (gldata w)). Qed.

Lemma ClientPerfCounter_run service method next ctx w ctx1 w1 r w2 :
  ensureTraceId ctx w = (Ret ctx1, w1) -> next ctx1 w1 = (Ret r, w2) ->
  ClientPerfCounter service method next ctx w =
    (Ret r, set_gl (gl_counted method (time_Sub (clock w2) (clock w)) r (gldata w2))
              (add_pcs (counted (pc_key service method "client") (time_Sub (clock w2) (clock w)) r) w2)).
Proof.
  intros He Hn. unfold ClientPerfCounter, now. rewrite (bind_run (gets clock) _ w (clock w) w) by done.
  rewrite (bind_run _ _ _ _ _ He), (bind_run _ _ _ _ _ Hn). set (cost := time_Sub _ _).
  rewrite (bind_run (gets clock) _ w2 (clock w2) w2) by done. unfold count_. fold cost.
  rewrite (bind_run (modify _) _ w2 tt (add_pcs [PcCost (pc_key service method "client") cost] w2)) by done.
  rewrite (bind_run _ _ _ _ _ (gl_do_run _ _)), (bind_run _ _ _ _ _ (gl_do_run _ _)).
  unfold counted, gl_counted. destruct (is_some_err r).
  - go_run. rewrite gl_do_run. unfold set_gl, add_pcs. cbn. by rewrite <- app_assoc.
  - done.
Qed.

(** The options of a client, with the retries if there are any. *)
(* [net/dgrpc/client.go:79-103] GrpcClient.DefaultClient, options *)
Definition client_options (service : string) (Timeout : Z) (Retry : option (interceptor R)) : OptionHolder :=
  GetOptionHolder ([WithGlInterceptor; WithPerfCounterInterceptor service] ++
    (if 0 <? Timeout then [WithClientTimeOutInterceptor Timeout] else [WithClientTimeOutInterceptor 1000000000]) ++
    option_list (WithRetryInterceptor <$> Retry)).

(** The chain of a client around a call; that of streams is the same. *)
Definition client_chain (service : string) (Timeout : Z) (Retry : option (interceptor R)) (method : string) : call R -> call R :=
  chain (map (fun i => i method) (UnaryClientInterceptors (client_options service Timeout Retry))).

Lemma client_chain_eq service Timeout Retry method : client_chain service Timeout Retry method =
  chain ([ClientCtx; ClientPerfCounter service method; ClientTimeOut (if 0 <? Timeout then Timeout else 1000000000)] ++ option_list Retry).
Proof. unfold client_chain, client_options. by destruct (0 <? Timeout), Retry. Qed.

Lemma counted_call service timeout method next ctx w g0 r w2 : lower_keys ctx -> deadline ctx = None -> gldata w = Some g0 ->
  let t := Utls.MustString FormatFloat (to_go (g0 !! Gl.KStr Gl.LogId)) (TraceId w) in
  let ctx1 := timed (next_ctx w) (i64 (clock w + timeout)) (traced t ctx) in
  let w1 := mkWorld (Some (<[Gl.KStr Gl.LogId := Gl.VStr t]> (<[Gl.KStr metaTraceId := Gl.VStr t]> g0)))
    (clock w) (pcs w) (lines w) (cancelled w) (S (next_ctx w)) (headers w) (user w) in
  next ctx1 w1 = (Ret r, w2) ->
  exists w3, chain [ClientPerfCounter service method; ClientTimeOut timeout] next ctx w = (Ret r, w3) /\
    is_cancelled ctx1 w3 /\ user w3 = user w2 /\ lines w3 = lines w2 /\
    pcs w3 = pcs w2 ++ counted (pc_key service method "client") (time_Sub (clock w2) (clock w)) r /\
    gldata w3 = gl_counted method (time_Sub (clock w2) (clock w)) r (gldata w2).
Proof.
  intros Hl Hd Hg t ctx1 w1 Hn.
  pose proof (ensureTraceId_run ctx w Hl) as He. cbv zeta in He. rewrite Hg in He. cbn [option_bind mbind fmap option_fmap option_map] in He.
  set (wt := set_gl _ w) in He. set (ctxt := traced t ctx) in He.
  destruct (ClientTimeOut_none timeout (chain [] next) ctxt wt (Ret r) w2 Hd) as (w4 & Ht & Hcan & Hgl & Hck & Hpc & Hli & Hus).
  { rewrite chain_nil. exact Hn. }
  rewrite chain_cons. erewrite ClientPerfCounter_run; [|exact He|rewrite chain_cons; exact Ht].
  eexists. split; [done|]. rewrite Hck. cbn. rewrite Hgl, Hpc, Hli, Hus. by split_and!.
Qed.

(** What a call of a gRPC client without retries is made with, and what it leaves.
    A context without a deadline gets one: the configured number of nanoseconds, or
    a second; and when the call returns that context is cancelled.  The metadata
    sent is what came in with the context and the trace id, whatever the caller had
    set to be sent.  The call is counted once, as a failure exactly if it has an
    error; a goroutine without data has none afterwards. *)
Theorem call_made service Timeout method next ctx w r w2 : lower_keys ctx -> deadline ctx = None ->
  let g0 := default ∅ (gldata w) in
  let t := Utls.MustString FormatFloat (to_go (g0 !! Gl.KStr Gl.LogId)) (TraceId (set_gl (Some g0) w)) in
  let ctx1 := timed (next_ctx w) (i64 (clock w + (if 0 <? Timeout then Timeout else 1000000000))) (traced t ctx) in
  let w1 := mkWorld (Some (<[Gl.KStr Gl.LogId := Gl.VStr t]> (<[Gl.KStr metaTraceId := Gl.VStr t]> g0)))
    (clock w) (pcs w) (lines w) (cancelled w) (S (next_ctx w)) (headers w) (user w) in
  next ctx1 w1 = (Ret r, w2) ->
  exists w3, client_chain service Timeout None method next ctx w = (Ret r, w3) /\
    outgoing ctx1 = Some (<[ToLower metaTraceId := [t]]> (default ∅ (incoming ctx))) /\
    is_cancelled ctx1 w3 /\ user w3 = user w2 /\ lines w3 = lines w2 /\
    pcs w3 = pcs w2 ++ counted (pc_key service method "client") (time_Sub (clock w2) (clock w)) r /\
    gldata w3 = match gldata w with
                | None => None
                | Some _ => gl_counted method (time_Sub (clock w2) (clock w)) r (gldata w2)
                end.
Proof.
  intros Hl Hd g0 t ctx1 w1 Hn. rewrite client_chain_eq. cbn [option_list]. rewrite app_nil_r.
  set (timeout := if 0 <? Timeout then Timeout else 1000000000) in *.
  destruct (counted_call service timeout method next ctx (set_gl (Some g0) w) g0 r w2 Hl Hd eq_refl Hn)
    as (w3 & H3 & Hcan & Hus & Hli & Hpc & Hgl).
  rewrite chain_cons. destruct (gldata w) as [g|] eqn:E.
  - rewrite (ClientCtx_has _ _ _ g E). assert (set_gl (Some g) w = w) as Hw by (rewrite <- E; apply set_gl_same).
    exists w3. split_and!; try done; [|apply traced_sends]. rewrite <- H3. f_equal. symmetry. exact Hw.
  - rewrite (ClientCtx_none _ _ _ _ _ E H3). exists (set_gl None w3). split_and!; try done; apply traced_sends.
Qed.

End any.
End grpc.

(** ** Starting clients and servers *)

Section start.
(** Certificates, connections and the clients made of them. *)
Context {Conn Creds Raw : Type}.
Variable LoadX509KeyPair : string -> string -> option string.
Variable ReadFile : string -> list byte + string.
Variable AppendCertsFromPEM : list byte -> bool.
Variable NewTLS : string -> Creds.

Definition or_default (v d : string) : string := if String.eqb v EmptyString then d else v.
Definition DefaultCertServiceName : string := "gd".

(** The credentials and the error: both nil where the file holds no certificate. *)
(* [net/dgrpc/client.go:183-214] GrpcClient.GetCredentialsByCA *)
Definition client_creds (pem key ca name : string) : option Creds * option string :=
  match LoadX509KeyPair pem key with
  | Some err => (None, Some err)
  | None =>
      match ReadFile ca with
      | inr err => (None, Some err)
      | inl b => if AppendCertsFromPEM b then (Some (NewTLS name), None) else (None, None)
      end
  end.

(* [net/dgrpc/client.go:25-42] GrpcClient *)
Record GrpcClient : Type := mkClient {
  Target : string; ServiceName : string; MaxRetries : Z; RetryCodes : list Z; WaitReady : bool; UseTls : bool;
  CertServerName : string; GrpcCaPemFile : string; GrpcClientKeyFile : string; GrpcClientPemFile : string;
  started : bool; connect : option Conn; rawClient : option Raw
}.

(** [grpc.Dial] of a target: without security, or with credentials that may be nil. *)
Variable Dial : string -> option (option Creds) -> option Conn * option string.
(** The states of a connection until the wait for a change of it fails; the error of
    the context. *)
Variable states : Conn -> list bool.
Variable ctx_Err : string.

(* [net/dgrpc/client.go:170-181] GrpcClient.WaitClientReady *)
Fixpoint WaitClientReady (l : list bool) : option string :=
  match l with
  | [] => Some ctx_Err
  | ready :: l => if ready then None else WaitClientReady l
  end.

Definition with_files (c : GrpcClient) : GrpcClient :=
  mkClient (Target c) (ServiceName c) (MaxRetries c) (RetryCodes c) (WaitReady c) (UseTls c)
    (or_default (CertServerName c) DefaultCertServiceName) (or_default (GrpcCaPemFile c) "conf/ca.pem")
    (or_default (GrpcClientKeyFile c) "conf/client.key") (or_default (GrpcClientPemFile c) "conf/client.pem")
    (started c) (connect c) (rawClient c).

Definition nil_deref : string := "invalid memory address or nil pointer dereference".

(** In the branch with certificates the error of [Dial] goes to a variable of the
    branch: it is not seen after it. *)
(* [net/dgrpc/client.go:79-168] GrpcClient.DefaultClient *)
Definition DefaultClient (codes : list Z) : M GrpcClient (option Conn * option string) :=
  c ← get;
  _ ← (if (0 <? MaxRetries c) && match RetryCodes c with [] => true | _ => false end
       then modify (fun c => mkClient (Target c) (ServiceName c) (MaxRetries c) codes (WaitReady c) (UseTls c)
              (CertServerName c) (GrpcCaPemFile c) (GrpcClientKeyFile c) (GrpcClientPemFile c) (started c) (connect c) (rawClient c))
       else mret tt);
  let ready (cc : option Conn) :=
    if WaitReady c then
      match cc with
      | None => panic nil_deref
      | Some conn =>
          match WaitClientReady (states conn) with
          | Some err => mret (None, Some ("wait client ready fail,target=" +:+ ServiceName c +:+ ",err=" +:+ err))
          | None => mret (cc, None)
          end
      end
    else mret (cc, None) in
  if UseTls c then
    _ ← modify with_files;
    c ← get;
    match client_creds (GrpcClientPemFile c) (GrpcClientKeyFile c) (GrpcCaPemFile c) (CertServerName c) with
    | (_, Some err) => mret (None, Some err)
    | (creds, None) => ready (Dial (Target c) (Some creds)).1
    end
  else
    match Dial (Target c) None with
    | (_, Some err) => mret (None, Some ("grpc dail fail,target=" +:+ ServiceName c +:+ ",err=" +:+ err))
    | (cc, None) => ready cc
    end.

Variable makeRawClient : option Conn -> option Raw * option string.

Definition set_conn cc raw (c : GrpcClient) : GrpcClient :=
  mkClient (Target c) (ServiceName c) (MaxRetries c) (RetryCodes c) (WaitReady c) (UseTls c) (CertServerName c)
    (GrpcCaPemFile c) (GrpcClientKeyFile c) (GrpcClientPemFile c) (started c) cc raw.
Definition set_started (c : GrpcClient) : GrpcClient :=
  mkClient (Target c) (ServiceName c) (MaxRetries c) (RetryCodes c) (WaitReady c) (UseTls c) (CertServerName c)
    (GrpcCaPemFile c) (GrpcClientKeyFile c) (GrpcClientPemFile c) true (connect c) (rawClient c).

(* [net/dgrpc/client.go:52-63] GrpcClient.start *)
Definition start (codes : list Z) : M GrpcClient (option string) :=
  r ← DefaultClient codes;
  _ ← modify (fun c => set_conn r.1 (rawClient c) c);
  match r.2 with
  | Some err => mret (Some err)
  | None =>
      let '(raw, err) := makeRawClient r.1 in
      _ ← modify (fun c => set_conn (connect c) raw c);
      mret err
  end.

(** Only the first call does anything. *)
(* [net/dgrpc/client.go:44-50] GrpcClient.Start *)
Definition Start (codes : list Z) : M GrpcClient (option string) :=
  c ← get;
  if started c then mret None else _ ← modify set_started; start codes.

(** A client with certificates whose connection fails starts without an error, on a
    nil connection. *)
Lemma tls_dial_error_lost codes c creds err : started c = false -> UseTls c = true -> WaitReady c = false ->
  client_creds (or_default (GrpcClientPemFile c) "conf/client.pem") (or_default (GrpcClientKeyFile c) "conf/client.key")
    (or_default (GrpcCaPemFile c) "conf/ca.pem") (or_default (CertServerName c) DefaultCertServiceName) = (creds, None) ->
  Dial (Target c) (Some creds) = (None, Some err) -> (makeRawClient None).2 = None ->
  exists c', Start codes c = (Ret None, c') /\ connect c' = None.
Proof.
  intros Hs Ht Hw Hc Hd Hm. unfold Start, start, DefaultClient. go_run. rewrite Hs. cbn. rewrite Hw, Ht.
  destruct ((0 <? MaxRetries c) && _); cbn; rewrite Hc, Hd; cbn; destruct (makeRawClient None) as [raw e]; cbn in Hm;
    subst e; eexists; split; done.
Qed.

(** A file without a certificate gives no credentials and no error. *)
Lemma empty_ca_accepted pem key ca name b : LoadX509KeyPair pem key = None -> ReadFile ca = inl b ->
  AppendCertsFromPEM b = false -> client_creds pem key ca name = (None, None).
Proof. intros H1 H2 H3. unfold client_creds. by rewrite H1, H2, H3. Qed.

(** A start that failed is not repeated: the second call reports success. *)
Lemma second_Start codes c : started c = true -> Start codes c = (Ret None, c).
Proof. intros H. unfold Start. go_run. by rewrite H. Qed.

(** *** Servers *)

(* [net/dgrpc/server.go:35-48] GrpcServer *)
Record GrpcServer : Type := mkGrpcServer {
  srv : bool; listener : bool; serving : bool; start_once : bool; close_once : bool;
  GrpcRunHost : Z; s_UseTls : bool; s_name : string; s_ca : string; s_key : string; s_pem : string
}.

Definition set_srv a b d (s : GrpcServer) := mkGrpcServer a b d (start_once s) (close_once s) (GrpcRunHost s)
  (s_UseTls s) (s_name s) (s_ca s) (s_key s) (s_pem s).
Definition set_once a b (s : GrpcServer) := mkGrpcServer (srv s) (listener s) (serving s) a b (GrpcRunHost s)
  (s_UseTls s) (s_name s) (s_ca s) (s_key s) (s_pem s).
Definition server_files (s : GrpcServer) := mkGrpcServer (srv s) (listener s) (serving s) (start_once s) (close_once s)
  (GrpcRunHost s) (s_UseTls s) (or_default (s_name s) DefaultCertServiceName) (or_default (s_ca s) "conf/ca.pem")
  (or_default (s_key s) "conf/server.key") (or_default (s_pem s) "conf/server.pem").

(* [net/dgrpc/server.go:145-170] GrpcServer.GetCredentialsByCA *)
Definition server_creds (pem key ca : string) : option string :=
  match LoadX509KeyPair pem key with
  | Some err => Some err
  | None =>
      match ReadFile ca with
      | inr err => Some err
      | inl b => if AppendCertsFromPEM b then None else Some "certPool.AppendCertsFromPEM err"%string
      end
  end.

(* [net/dgrpc/server.go:98-143] GrpcServer.DefaultServer *)
Definition DefaultServer : M GrpcServer (option string) :=
  s ← get;
  if s_UseTls s then
    _ ← modify server_files; s ← get; mret (server_creds (s_pem s) (s_key s) (s_ca s))
  else mret None.

Variable Listen : string -> option string.
Variable RegisterHandler : option string.

(** [serving] says that the goroutine of [startRun] was started. *)
(* [net/dgrpc/server.go:58-90] GrpcServer.start, startRun *)
Definition server_start : M GrpcServer (option string) :=
  e ← DefaultServer;
  match e with
  | Some err => mret (Some ("init server fail,err=" +:+ err))
  | None =>
      s ← get;
      match Listen (":" +:+ itoa (GrpcRunHost s)) with
      | Some err => mret (Some ("failed to listen: " +:+ err))
      | None =>
          _ ← modify (set_srv true true false);
          match RegisterHandler with
          | Some err => mret (Some err)
          | None => _ ← modify (set_srv true true true); mret None
          end
      end
  end.

(* [net/dgrpc/server.go:50-56] GrpcServer.Start *)
Definition server_Start : M GrpcServer (option string) :=
  s ← get;
  if start_once s then mret None else _ ← modify (fun s => set_once true (close_once s) s); server_start.

(** [GracefulStop] of a nil server panics. *)
(* [net/dgrpc/server.go:92-96] GrpcServer.Close *)
Definition server_Close : M GrpcServer unit :=
  s ← get;
  if close_once s then mret tt else
  _ ← modify (fun s => set_once (start_once s) true s);
  if srv s then modify (set_srv true false false) else panic nil_deref.

(** A server that is started with a handler listens, with its certificates if it has
    any; the address is bound even where the registration fails. *)
Lemma server_starts s s' : start_once s = false -> server_Start s = (Ret None, s') ->
  srv s' = true /\ serving s' = true /\ Listen (":" +:+ itoa (GrpcRunHost s)) = None /\ RegisterHandler = None /\
  (s_UseTls s = true -> server_creds (s_pem s') (s_key s') (s_ca s') = None).
Proof.
  intros Ho. unfold server_Start, server_start, DefaultServer. go_run. rewrite Ho. cbn.
  destruct (s_UseTls s) eqn:Et; cbn.
  - destruct (server_creds _ _ _) eqn:Ec; cbn; [done|]. destruct (Listen _) eqn:El; cbn; [done|].
    destruct RegisterHandler; cbn; [done|]. intros [= <-]. cbn. by split_and!.
  - destruct (Listen _) eqn:El; cbn; [done|]. destruct RegisterHandler; cbn; [done|]. intros [= <-]. cbn. by split_and!.
Qed.

(** Closing a server that could not be made panics. *)
Lemma unmade_Close s : srv s = false -> close_once s = false -> exists s', server_Close s = (Panic nil_deref, s').
Proof. intros H1 H2. unfold server_Close. go_run. rewrite H2. cbn. rewrite H1. by eexists. Qed.

End start.

(** ** A server and a client at work *)

Module Sample.

Abbreviation W0 := (World (U := unit)).
Definition R0 : Type := string + gerr.

#[export] Instance R0_fails : Fails R0.
Proof.
  refine {| err_of r := match r with inr e => Some e | inl _ => None end; failed := inr |}. done.
Defined.

Definition FormatFloat (_ : spec_float) : string := EmptyString.
Definition TraceId (_ : W0) : string := "5ea1".
Definition md_Set (k v : string) (md : MD) : MD := <[ToLower k := [v]]> md.
Definition Marshals (_ : R0) : bool := true.

Fixpoint chain (l : list (interceptor (U := unit) R0)) : interceptor R0 := fun next ctx =>
  match l with [] => next ctx | i :: l => i (chain l next) ctx end.

Definition Recovery (h : string -> M W0 gerr) : interceptor (U := unit) R0 := fun next ctx w =>
  match next ctx w with
  | (Ret r, w') => (Ret r, w')
  | (Panic p, w') => (e ← h p; mret (failed e)) w'
  end.

Definition world (g : option Gl.glmap) : W0 := mkWorld g 1000 [] [] [] 0 [] tt.

Definition request : Ctx := mkCtx (Some {["user-agent"%string := ["grpc-go"%string]]}) None None [] (Some (Some "10.0.0.7:5123"%string)).

Lemma request_lower : lower_keys request.
Proof. intros md [= <-] k [v Hk]. apply lookup_singleton_Some in Hk as [<- _]. by vm_compute. Qed.

Abbreviation server := (unary_server FormatFloat md_Set TraceId true Marshals chain Recovery).
Abbreviation client := (client_chain FormatFloat md_Set TraceId true chain).

(** A handler that sleeps for 60 ms and panics. *)
Definition broken : call (U := unit) R0 := fun _ w =>
  (Panic "boom"%string, mkWorld (gldata w) (clock w + 60000000) (pcs w) (lines w) (cancelled w) (next_ctx w) (headers w) (user w)).

Lemma request_served_witness : lower_keys request /\
  exists w' ctx1 r w1 w2 extra,
    let cost := time_Sub (clock w2) (clock (world None)) in
    server "billing" "/Billing/Pay" broken request (world None) = (Ret r, w') /\
    w' = set_gl None (add_pcs (counted (pc_key "billing" "/Billing/Pay" "server") cost r)
      (add_lines (extra ++ [session Marshals "/Billing/Pay" (fun c => if ShouldFail4Code c then Warn else Info) (fun ms => 50 <? ms) (Z.quot cost Millisecond) r]) w2)) /\
    ctx1 = traced md_Set true "5ea1" request /\
    w1 = set_gl (Some (request_data "/Billing/Pay" request "5ea1")) (world None) /\
    ((broken ctx1 w1 = (Ret r, w2) /\ extra = []) \/
     exists p, broken ctx1 w1 = (Panic p, w2) /\ extra = [Panicked p] /\ err_of r = Some (mkErr Internal p)).
Proof.
  split; [apply request_lower|].
  destruct (request_served FormatFloat md_Set TraceId true Marshals (fun _ _ _ => eq_refl) chain (fun _ _ => eq_refl)
    (fun _ _ _ _ => eq_refl) Recovery) with (service := "billing"%string) (method := "/Billing/Pay"%string) (h := broken)
    (ctx := request) (w := world None) as (ctx1 & r & w1 & w2 & extra & Hrun & Hctx & _ & Hw & Hcase).
  - intros h next ctx w r w' H. unfold Recovery. by rewrite H.
  - intros h next ctx w p w' H. unfold Recovery. by rewrite H.
  - apply request_lower.
  - by eexists _, ctx1, r, w1, w2, extra.
Defined.

(** The answer of that request, and what is written about it. *)
Example panic_answered :
  let '(r, w) := server "billing" "/Billing/Pay" broken request (world None) in
  r = Ret (inr (mkErr Internal "boom")) /\
  pcs w = [PcCost "service=billing,method=/Billing/Pay,st=server" 60000000; PcCostFail "service=billing,method=/Billing/Pay,st=server" 1] /\
  lines w = [Panicked "boom"; Session Warn "/Billing/Pay" Internal (Some (mkErr Internal "boom")) 60 true] /\
  gldata w = None.
Proof. vm_compute. done. Qed.

(** A call with metadata of its own from a handler of that request: what is sent is
    the request's metadata and the trace id, and not the token. *)
Definition with_token : Ctx := mkCtx (incoming request) (Some {["token"%string := ["secret"%string]]}) None [] None.

Definition remote : call (U := unit) R0 := fun ctx w => (Ret (inl "ok"%string), w).

Lemma with_token_lower : lower_keys with_token.
Proof. exact request_lower. Qed.

Lemma call_made_witness : lower_keys with_token /\ deadline with_token = None /\
  exists ctx1 w3, client "billing" 0 None "/Rates/Get" remote with_token (world None) = (Ret (inl "ok"%string), w3) /\
    outgoing ctx1 = Some (<["_traceid"%string := ["5ea1"%string]]> {["user-agent"%string := ["grpc-go"%string]]}) /\
    deadline ctx1 = Some 1000001000 /\ is_cancelled ctx1 w3 /\ gldata w3 = None.
Proof.
  split; [apply with_token_lower|]. split; [done|].
  destruct (call_made FormatFloat md_Set TraceId true (fun _ _ _ => eq_refl) chain (fun _ _ => eq_refl)
    (fun _ _ _ _ => eq_refl)) with (service := "billing"%string) (Timeout := 0) (method := "/Rates/Get"%string)
    (next := remote) (ctx := with_token) (w := world None) (r := inl "ok"%string : R0)
    (w2 := mkWorld (Some (<[Gl.KStr Gl.LogId := Gl.VStr "5ea1"]> (<[Gl.KStr metaTraceId := Gl.VStr "5ea1"]> ∅))) 1000 [] [] [] 1 [] tt : W0)
    as (w3 & Hrun & Hout & Hcan & _ & _ & _ & Hgl).
  - apply with_token_lower.
  - done.
  - by vm_compute.
  - eexists _, w3. split; [exact Hrun|]. split; [exact Hout|]. split; [by vm_compute|]. by split.
Defined.

Example addresses : GetClientIP request = "10.0.0.7"%string /\
  GetClientIP (mkCtx None None None [] (Some (Some "[2001:db8::1]:5123"%string))) = "[2001"%string /\
  GetClientIP (mkCtx None None None [] (Some (Some "[::1]:5123"%string))) = "127.0.0.1"%string.
Proof. by vm_compute. Qed.

End Sample.

End Dgrpc.
