(* ===== verification/Helper.v ===== *)
(** * The helper ([runtime/helper/helper.go])

    A server for an operator: each connection is a session of commands, one to a
    line, that ends with an empty line.  The session is a function of what the
    client sends. *)

From S2P Require Import Prelude GoStd GoStrings GoUrl.
Import GoStd GoStrings.

Module Helper.

Definition nl : string := String (ascii_of_nat 10) EmptyString.
Definition tab : string := String (ascii_of_nat 9) EmptyString.

(** The white space of [strings.TrimSpace], as UTF-8: that of ASCII and U+0085, U+00A0,
    U+1680, U+2000 to U+200A, U+2028, U+2029, U+202F, U+205F and U+3000. *)
Definition bytes (l : list nat) : string := String.string_of_list_ascii (map ascii_of_nat l).
Definition spaces : list string := map bytes
  ([[9]; [10]; [11]; [12]; [13]; [32]; [194; 133]; [194; 160]; [225; 154; 128]] ++
   map (fun n => [226; 128; n]) (seq 128 11) ++
   [[226; 128; 168]; [226; 128; 169]; [226; 128; 175]; [226; 129; 159]; [227; 128; 128]])%nat.

(** The white space at the front goes: no more characters than there are. *)
Fixpoint trim_front (tbl : list string) (fuel : nat) (s : string) : string :=
  match fuel with
  | O => s
  | S fuel =>
      match List.find (fun p => String.prefix p s) tbl with
      | Some p => trim_front tbl fuel (skip (String.length p) s)
      | None => s
      end
  end.

Definition reversed (s : string) : string := rev_string s EmptyString.

Definition TrimSpace (s : string) : string :=
  let s := trim_front spaces (String.length s) s in
  reversed (trim_front (map reversed spaces) (String.length s) (reversed s)).

(** What is written to files under [prof]. *)
Inductive profile : Type := Heap (gc : bool) | Goroutine | Trace (seconds : Z) | Cpu (seconds : Z).

Section helper.
(** What the callbacks and the process can change. *)
Context {W : Type}.

Definition S_ : Type := W * list string.

(** The callbacks; those not set are nil. *)
(* [runtime/helper/helper.go:33-42] Helper *)
Record Helper : Type := mkHelper {
  Updater : option (string -> string -> string -> Z -> M W bool);
  Finder : option (string -> M W (string + string));
  Perfer : option (M W string);
  Stater : option (M W string);
  Deployer : option (list string -> M W string)
}.

(** The level of the log, the profiles and the figures of the process; [Quote] is
    [strconv.Quote]. *)
Variables (GetLevel : M W string) (SetLevel : Z -> M W unit) (write_profile : profile -> M W unit).
Variables (MemStats MemStats2 GcStats : M W string) (NumGoroutine : M W Z) (Quote : string -> string).

Definition on_world {A} (m : M W A) : M S_ A := fun s =>
  match m s.1 with (r, w) => (r, (w, s.2)) end.

Definition write (t : string) : M S_ unit := modify (fun s => (s.1, s.2 ++ [t])).

Definition nil_call {A} : M S_ A := panic "invalid memory address or nil pointer dereference".

(* [runtime/helper/helper.go:213-223] Helper.help *)
Definition help_text : list string :=
  let fields := "<id> <key> <sec> <min> <hour> <day> <month> <week> <year>" in
  ["THIS IS HELP" +:+ nl +:+ "--------------------------------------------------------------" +:+ nl;
   "  add" +:+ tab +:+ tab +:+ fields +:+ nl;
   "  del" +:+ tab +:+ tab +:+ fields +:+ nl;
   "  status" +:+ tab +:+ "return status" +:+ nl;
   "  find" +:+ tab +:+ tab +:+ "<id> <key>" +:+ nl;
   "  trace n " +:+ tab +:+ tab +:+ "dump n second trace info to prof/trace_xxx.out" +:+ nl;
   "  heap <nogc>" +:+ tab +:+ tab +:+ "dump current heap to prof/heap_xxx.prof" +:+ nl;
   "  dlog" +:+ tab +:+ tab +:+ "-1:CURRENT,0:FNST,1:FINE,2:DEBG,3:TRAC,4:INFO,5:WARN,6:EROR,7:CRIT" +:+ nl;
   "  deploy" +:+ tab +:+ "<file1> <file2> ;" +:+ String (ascii_of_nat 34) ("deploy all" +:+
     String (ascii_of_nat 34) (" means deploy all accessable file" +:+ nl))].

Definition help : M S_ unit := modify (fun s => (s.1, s.2 ++ help_text)).

(** The text of an error of [strconv.Atoi]. *)
Definition atoi_error (s : string) (e : num_err) : string :=
  "strconv.Atoi: parsing " +:+ Quote s +:+ ": " +:+
  match e with ErrSyntax => "invalid syntax" | ErrRange => "value out of range" end.

(** Seconds: without an argument [none], thirty for one that does not parse. *)
Definition seconds (none : Z) (arr : list string) : Z :=
  match arr with
  | _ :: a :: _ => match parse_int a with inl n => n | inr _ => 30 end
  | _ => none
  end.

(** A command: whether it is answered with [<ok] or [<err]; [None] where the session
    goes on without an answer. *)
(* [runtime/helper/helper.go:243-341] Helper.dealCommand, a line *)
Definition command (h : Helper) (arr : list string) : M S_ (option bool) :=
  let tpe := default EmptyString (arr !! 0%nat) in
  if String.eqb tpe "add" || String.eqb tpe "del" then
    match arr with
    | [_; id; key; v1; v2; v3; v4; v5; v6; v7] =>
        match Updater h with
        | Some update =>
            r ← on_world (update (id +:+ " " +:+ key) (join " " [v1; v2; v3; v4; v5; v6; v7]) tpe (-1));
            mret (Some r)
        | None => nil_call
        end
    | _ => _ ← help; _ ← write ("<invalid len" +:+ nl); mret None
    end
  else if String.eqb tpe "dlog" then
    match arr with
    | [_; a] =>
        match parse_int a with
        | inr e => _ ← write ("<" +:+ atoi_error a e +:+ nl); mret (Some false)
        | inl lvl =>
            if lvl =? -1 then l ← on_world GetLevel; _ ← write ("<dlog:" +:+ l +:+ nl); mret (Some true)
            else _ ← on_world (SetLevel lvl); mret (Some true)
        end
    | _ => _ ← help; mret None
    end
  else if String.eqb tpe "heap" then
    let nogc := match arr with [_; a] => String.eqb a "nogc" | _ => false end in
    _ ← on_world (write_profile (Heap (negb nogc)));
    _ ← on_world (write_profile Goroutine); mret (Some true)
  else if String.eqb tpe "trace" then
    _ ← on_world (write_profile (Trace (seconds 10 arr))); mret (Some true)
  else if String.eqb tpe "status" then
    mem ← on_world MemStats; mem2 ← on_world MemStats2; gc ← on_world GcStats; n ← on_world NumGoroutine;
    lc ← match Stater h with Some f => on_world f | None => mret EmptyString end;
    perf ← match Perfer h with Some f => on_world f | None => mret EmptyString end;
    _ ← write ("mem:" +:+ mem +:+ nl +:+ "mem2:" +:+ mem2 +:+ nl +:+ "gc:" +:+ gc +:+ nl +:+
               "numGos:" +:+ itoa n +:+ nl +:+ "stater:" +:+ lc +:+ nl +:+ perf +:+ nl);
    mret (Some true)
  else if String.eqb tpe "find" then
    match arr with
    | _ :: a :: b :: _ =>
        let key := join " " [a; b] in
        match Finder h with
        | None => nil_call
        | Some find =>
            r ← on_world (find key);
            _ ← write (match r with
                       | inr e => "err:" +:+ e +:+ ",key=" +:+ key +:+ nl
                       | inl v => "found:" +:+ v +:+ ",key=" +:+ key +:+ nl
                       end);
            mret (Some true)
        end
    | _ => panic "slice bounds out of range"
    end
  else if String.eqb tpe "deploy" then
    match Deployer h with
    | Some deploy =>
        r ← on_world (deploy (tail arr)); _ ← write ("deploy: finished result is " +:+ r); mret (Some true)
    | None => _ ← write "err: not support deploy for helper project"; mret (Some true)
    end
  else if String.eqb tpe "profile" then
    _ ← on_world (write_profile (Cpu (seconds 30 arr))); _ ← write "profile: finished"; mret (Some true)
  else _ ← help; mret (Some true).

(** A command with its answer. *)
Definition answer (h : Helper) (arr : list string) : M S_ unit :=
  r ← command h arr;
  match r with
  | None => mret tt
  | Some ok => write (if ok : bool then "<ok" +:+ nl else "<err" +:+ nl)
  end.

(** [ReadString('\n')]: the line with its end, and the rest. *)
Fixpoint read_line (s cur : string) : option (string * string) :=
  match s with
  | EmptyString => None
  | String a s' =>
      if Ascii.eqb a (ascii_of_nat 10) then Some (cur +:+ String a EmptyString, s')
      else read_line s' (cur +:+ String a EmptyString)
  end.

(** The session: [input] is what the client sends before the connection ends with
    an end of file, or with an error. *)
(* [runtime/helper/helper.go:225-348] Helper.dealCommand *)
Fixpoint dealCommand (fuel : nat) (h : Helper) (input : string) (err : option string) : M S_ unit :=
  match fuel with
  | O => panic "fuel"
  | S fuel =>
      match read_line input EmptyString with
      | None => write (match err with None => "<end" +:+ nl | Some e => "<" +:+ e +:+ nl end)
      | Some (data, rest) =>
          if String.eqb data nl || String.eqb data (String (ascii_of_nat 13) nl) then write ("<<" +:+ nl)
          else _ ← answer h (split " " (TrimSpace data)); dealCommand fuel h rest err
      end
  end.

(** ** Listening *)

(** What [Accept] gives: a connection with what its client sends; an error of the
    network, with its operation; another error. *)
Inductive accepted : Type := Conn (input : string) (err : option string) | OpError (op : string) | OtherError.

(** The sessions started; one that panics is recovered and ends alone. *)
(* [runtime/helper/helper.go:65-81] Helper.waitTcp *)
Fixpoint waitTcp (l : list accepted) : list (string * option string) :=
  match l with
  | [] => []
  | Conn input err :: l => (input, err) :: waitTcp l
  | OpError op :: l => if String.eqb op "accept" then [] else waitTcp l
  | OtherError :: l => waitTcp l
  end.

(** Errors of making the directories are only logged. *)
(* [runtime/helper/helper.go:44-63] Helper.Start *)
Definition Start (Listen : string -> option string) (host : Z) : option string :=
  match Listen (":" +:+ itoa host) with
  | Some err => Some ("host=" +:+ itoa host +:+ "," +:+ err)
  | None => None
  end.

(** ** Properties *)

Definition newline : ascii := ascii_of_nat 10.

(** Words as the client types them: without a blank, and without white space of any
    kind at their ends; what is not ASCII is not looked at otherwise. *)
Definition clear (tbl : list string) (s : string) : Prop := Forall (fun p => String.prefix p s = false) tbl.

Definition word (s : string) : Prop :=
  s ≠ EmptyString /\ count " " s = 0 /\ count newline s = 0 /\ clear spaces s /\ clear (map reversed spaces) (reversed s).

Definition line (ws : list string) : string := join " " ws +:+ nl.

Lemma prefix_without p w c t : count c p = 0 -> String.prefix p (w +:+ String c t) = true -> String.prefix p w = true.
Proof.
  revert p. induction w as [|a w IH]; intros [|b p] Hc Hp; try done.
  - cbn [count] in Hc. pose proof (count_nonneg c p).
    change (EmptyString +:+ String c t) with (String c t) in Hp. cbn [String.prefix] in Hp. destruct (ascii_dec b c) as [->|]; [|done].
    rewrite Ascii.eqb_refl in Hc. lia.
  - change (String a w +:+ String c t) with (String a (w +:+ String c t)) in Hp. cbn [String.prefix] in *.
    destruct (ascii_dec b a); [|done]. apply IH; [|done]. cbn [count] in Hc. pose proof (count_nonneg c p).
    destruct (Ascii.eqb b c); lia.
Qed.

(** White space is one byte, or has no byte of ASCII. *)
Definition atoms (tbl : list string) (c : ascii) : Prop :=
  Forall (fun p => p ≠ EmptyString /\ (String.length p = 1%nat \/ count c p = 0)) tbl.

Lemma clear_app tbl w c t : atoms tbl c -> w ≠ EmptyString -> clear tbl w -> clear tbl (w +:+ String c t).
Proof.
  unfold atoms, clear. rewrite !Forall_forall. intros Ha Hw Hc p Hp. specialize (Hc p Hp). destruct (Ha p Hp) as [Hne [Hl|H0]].
  - destruct w as [|a w]; [done|]. destruct p as [|b [|]]; try done. cbn [app String.app String.prefix] in *. destruct (ascii_dec b a) as [->|]; [by destruct w|].
    change (String a w +:+ String c t) with (String a (w +:+ String c t)). cbn [String.prefix]. by destruct (ascii_dec b a).
  - destruct (String.prefix p (w +:+ String c t)) eqn:E; [|done]. by rewrite (prefix_without _ _ _ _ H0 E) in Hc.
Qed.

Lemma atoms_ok c : c = " "%char \/ c = newline -> atoms spaces c /\ atoms (map reversed spaces) c.
Proof. intros [-> | ->]; split; apply (bool_decide_unpack _); vm_compute; exact I. Qed.

Lemma trim_clear tbl fuel s : clear tbl s -> trim_front tbl fuel s = s.
Proof.
  intros Hc. destruct fuel as [|fuel]; [done|]. cbn [trim_front].
  assert (List.find (fun p => String.prefix p s) tbl = None) as ->; [|done].
  induction Hc as [|p tbl Hp _ IH]; [done|]. cbn [List.find]. by rewrite Hp.
Qed.

Lemma join_front w ws : word w -> clear spaces (line (w :: ws)).
Proof.
  intros (Hne & _ & _ & Hc & _). unfold line. destruct ws as [|v ws].
  - apply clear_app; [by apply atoms_ok; right|done|done].
  - change (join " " (w :: v :: ws)) with (w +:+ String " " (join " " (v :: ws))). rewrite string_app_assoc.
    change (String " " (join " " (v :: ws)) +:+ nl) with (String " " (join " " (v :: ws) +:+ nl)).
    apply clear_app; [by apply atoms_ok; left|done|done].
Qed.

Lemma reversed_app s t : reversed (s +:+ t) = reversed t +:+ reversed s.
Proof. unfold reversed. by rewrite rev_string_app, rev_string_acc. Qed.

Lemma reversed_twice s : reversed (reversed s) = s.
Proof. unfold reversed. by rewrite rev_string_rev, string_app_nil. Qed.

Lemma join_back w ws : word w -> Forall word ws ->
  exists v u, reversed (join " " (w :: ws)) = reversed v +:+ u /\ word v /\ (u = EmptyString \/ exists u', u = String " " u').
Proof.
  intros Hw Hws. revert w Hw. induction Hws as [|v ws Hv Hws IH]; intros w Hw.
  { exists w, EmptyString. rewrite string_app_nil. split_and!; [done|done|by left]. }
  destruct (IH v Hv) as (t & u & E & Ht & Hu).
  change (join " " (w :: v :: ws)) with (w +:+ String " " EmptyString +:+ join " " (v :: ws)).
  rewrite !reversed_app, E. exists t, (u +:+ reversed (String " " EmptyString) +:+ reversed w).
  rewrite !string_app_assoc. split_and!; [done|done|right]. destruct Hu as [->|[u' ->]]; by eexists.
Qed.

Lemma join_back_clear w ws : word w -> Forall word ws -> clear (map reversed spaces) (reversed (join " " (w :: ws))).
Proof.
  intros Hw Hws. destruct (join_back w ws Hw Hws) as (v & u & -> & (Hne & _ & _ & _ & Hc) & Hu).
  destruct Hu as [->|[u' ->]]; [by rewrite string_app_nil|]. apply clear_app; [by apply atoms_ok; left| |done].
  intros E. apply (f_equal reversed) in E. by rewrite reversed_twice in E.
Qed.

(** White space around the words goes, and nothing else. *)
Lemma TrimSpace_line w ws : word w -> Forall word ws -> TrimSpace (line (w :: ws)) = join " " (w :: ws).
Proof.
  intros Hw Hws. unfold TrimSpace. rewrite (trim_clear spaces) by by apply join_front.
  set (t := join " " (w :: ws)). assert (reversed (line (w :: ws)) = String newline (reversed t)) as ->.
  { unfold line. by rewrite reversed_app. }
  assert (exists n, String.length (line (w :: ws)) = S n) as [n ->].
  { destruct Hw as (Hne & _). unfold line. destruct w as [|a w]; [done|]. destruct ws; by eexists. }
  assert (forall x, List.find (fun p => String.prefix p (String newline x)) (map reversed spaces) = Some nl) as Hf by (intros []; reflexivity).
  cbn [trim_front]. rewrite Hf. change (skip (String.length nl) (String newline (reversed t))) with (reversed t).
  assert (trim_front (map reversed spaces) n (reversed t) = reversed t) as E by by apply trim_clear, join_back_clear.
  rewrite E. apply reversed_twice.
Qed.

Lemma words_newline ws : Forall word ws -> count newline (join " " ws) = 0.
Proof.
  intros H. rewrite count_join by done. induction H as [|w ws (_ & _ & Hw & _) _ IH]; [done|].
  cbn [counts foldr]. unfold counts in IH. by rewrite IH, Hw.
Qed.

Lemma read_line_found s rest cur : count newline s = 0 ->
  read_line (s +:+ String newline rest) cur = Some (cur +:+ s +:+ nl, rest).
Proof.
  revert cur. induction s as [|a s IH]; intros cur H.
  - cbn. done.
  - cbn [count] in H. pose proof (count_nonneg newline s).
    change (String a s +:+ String newline rest) with (String a (s +:+ String newline rest)). cbn [read_line].
    fold newline. destruct (Ascii.eqb a newline); [lia|].
    rewrite IH by lia. by rewrite (string_app_assoc cur).
Qed.

Lemma line_not_blank w ws : word w -> line (w :: ws) ≠ nl /\ line (w :: ws) ≠ String (ascii_of_nat 13) nl.
Proof.
  intros Hw. pose proof (join_front w ws Hw) as Hc. unfold clear in Hc. rewrite Forall_forall in Hc.
  split; intros E; rewrite E in Hc.
  - by specialize (Hc nl ltac:(apply (bool_decide_unpack _); vm_compute; exact I)).
  - by specialize (Hc (bytes [13%nat]) ltac:(apply (bool_decide_unpack _); vm_compute; exact I)).
Qed.

(** The commands one after the other, and the end. *)
Fixpoint serve (h : Helper) (lines : list (list string)) : M S_ unit :=
  match lines with
  | [] => write ("<<" +:+ nl)
  | ws :: lines => _ ← answer h ws; serve h lines
  end.

Fixpoint typed (lines : list (list string)) : string :=
  match lines with [] => nl | ws :: lines => line ws +:+ typed lines end.

(** C19 A session runs the commands that were typed, each line as the words it was typed
    with and in order, and ends at the empty line: whatever the client sends after it is
    not read.  Words have no blank in them and no white space, of ASCII or of Unicode, at
    their ends.  The session is exactly the sequence of its commands, as [answer] answers
    them: most with a line [<ok] or [<err], an [add] or [del] of the wrong length and a
    [dlog] without a level only with the help ([no_answer]); and a command that panics
    ends it, the panics of the callbacks included.  One step of fuel a line is enough. *)
Theorem session_runs_commands h lines rest err fuel s :
  Forall (fun ws => ws ≠ [] /\ Forall word ws) lines -> (length lines < fuel)%nat ->
  dealCommand fuel h (typed lines +:+ rest) err s = serve h lines s.
Proof.
  intros Hl. revert fuel s. induction Hl as [|ws lines [Hne Hws] _ IH]; intros [|fuel] s Hf; try (simpl in Hf; lia).
  - done.
  - destruct ws as [|w ws]; [done|]. apply Forall_cons in Hws as [Hw Hws].
    cbn [dealCommand typed serve].
    assert (read_line ((line (w :: ws) +:+ typed lines) +:+ rest) EmptyString
      = Some (line (w :: ws), typed lines +:+ rest)) as ->.
    { unfold line. rewrite !string_app_assoc.
      change (nl +:+ typed lines +:+ rest) with (String newline (typed lines +:+ rest)).
      rewrite read_line_found by (apply words_newline; by constructor). done. }
    destruct (line_not_blank w ws Hw) as [H1 H2].
    rewrite (proj2 (String.eqb_neq _ _) H1), (proj2 (String.eqb_neq _ _) H2). cbn [orb].
    rewrite TrimSpace_line by done. rewrite GoUrl.split_join; [|done|].
    2: { constructor; [by apply Hw|]. eapply Forall_impl; [exact Hws|]. by intros v (_ & Hv & _). }
    unfold mbind, M_bind. destruct (answer h (w :: ws) s) as [[[]|] s1]; [|done]. apply IH. simpl in Hf. lia.
Qed.

(** What [add] and [del] hand to the program: the first two words as the key, the
    seven others as the value, as they were typed. *)
Lemma update_received h update tpe id key vs s : tpe = "add"%string \/ tpe = "del"%string ->
  length vs = 7%nat -> Updater h = Some update ->
  command h (tpe :: id :: key :: vs) s =
    (r ← on_world (update (id +:+ " " +:+ key) (join " " vs) tpe (-1)); mret (Some r)) s.
Proof.
  intros Ht Hl Hu. destruct vs as [|v1 [|v2 [|v3 [|v4 [|v5 [|v6 [|v7 [|]]]]]]]]; try done.
  unfold command. change (default EmptyString ((tpe :: id :: key :: [v1; v2; v3; v4; v5; v6; v7]) !! 0%nat)) with tpe.
    cbv zeta.
  assert ((String.eqb tpe "add" || String.eqb tpe "del")%bool = true) as -> by (by destruct Ht as [-> | ->]).
  by rewrite Hu.
Qed.

(** A helper whose callbacks are not set, as the engine registers it, panics at every
    well-formed [add], [del] and [find]. *)
Lemma unset_callbacks_panic h tpe id key vs s : Updater h = None -> Finder h = None ->
  (tpe ∈ ["add"; "del"]%string /\ length vs = 7%nat \/ tpe = "find"%string) ->
  exists e, command h (tpe :: id :: key :: vs) s = (Panic e, s).
Proof.
  intros Hu Hf [[Ht Hl]| ->].
  - destruct vs as [|v1 [|v2 [|v3 [|v4 [|v5 [|v6 [|v7 [|]]]]]]]]; try done.
    rewrite !elem_of_cons in Ht. eexists. unfold command. change (default EmptyString ((tpe :: id :: key :: [v1; v2; v3; v4; v5; v6; v7]) !! 0%nat)) with tpe.
    cbv zeta.
    assert ((String.eqb tpe "add" || String.eqb tpe "del")%bool = true) as ->.
    { destruct Ht as [-> |[-> |Ht]]; [done|done|by apply elem_of_nil in Ht]. }
    by rewrite Hu.
  - eexists. unfold command. cbn. by rewrite Hf.
Qed.

(** [find] slices the words without looking at their number. *)
Lemma find_needs_key h ws s : (length ws <= 1)%nat ->
  command h ("find"%string :: ws) s = (Panic "slice bounds out of range", s).
Proof. destruct ws as [|a [|b ws]]; [done|done|simpl; lia]. Qed.

(** Every error of accepting a connection carries the operation that ends the loop:
    one failure, and the helper is gone while the program runs on. *)
Lemma accept_fails_once (before after : list accepted) :
  Forall (fun a => match a with Conn _ _ => True | _ => False end) before ->
  waitTcp (before ++ OpError "accept" :: after) = waitTcp before.
Proof. induction 1 as [|a l Ha _ IH]; [done|]. destruct a; [|done..]. cbn. by rewrite IH. Qed.

End helper.

(** ** Pauses of the garbage collector ([runtime_stats.go]) *)

(** The ring of the last 256 pauses: that of the collection [n] is at [(n+255)%256]. *)
(* [runtime/helper/runtime_stats.go:20-28] gcPause *)
Definition gcPause (numGC1 numGC2 : Z) (PauseNs : Z -> Z) : list Z :=
  let gc := u32 (numGC2 - numGC1) in
  map (fun i => PauseNs (u32 (u32 (numGC2 - Z.of_nat i) + 255) mod 256)) (seq 0 (Z.to_nat gc)).

(* [runtime/helper/runtime_stats.go:30-42] calcMaxAvg *)
Definition calcMaxAvg (a : list Z) : Z * Z :=
  match a with
  | [] => (0, 0)
  | _ =>
      let '(max, sum) := foldl (fun ms u => (if ms.1 <? u then u else ms.1, u64 (ms.2 + u))) (0, 0) a in
      (max, Z.quot sum (len a))
  end.

Definition sum_of (a : list Z) : Z := foldr Z.add 0 a.

Lemma sum_of_nonneg a : Forall (fun u => 0 <= u) a -> 0 <= sum_of a.
Proof. unfold sum_of. induction 1; cbn; lia. Qed.

Lemma max_sum_loop a max sum : Forall (fun u => 0 <= u) a -> 0 <= max -> 0 <= sum -> sum + sum_of a < 2 ^ 64 ->
  exists m, foldl (fun ms u => (if ms.1 <? u then u else ms.1, u64 (ms.2 + u))) (max, sum) a = (m, sum + sum_of a) /\
    max <= m /\ Forall (fun u => u <= m) a /\ (m = max \/ m ∈ a).
Proof.
  intros Ha. revert max sum. induction Ha as [|u a Hu Ha IH]; intros max sum Hm Hs Hb.
  { exists max. cbn. rewrite Z.add_0_r. split_and!; [done|lia|by constructor|by left]. }
  pose proof (sum_of_nonneg a Ha) as Hsa.
  change (sum_of (u :: a)) with (u + sum_of a) in Hb |- *. cbn [foldl fst snd].
  assert (u64 (sum + u) = sum + u) as -> by (apply wrapU_small; unfold isU; lia).
  destruct (IH (if max <? u then u else max) (sum + u)) as (m & E & H1 & H2 & H3); [destruct (Z.ltb_spec max u); lia|lia|lia|].
  exists m. rewrite E.
  destruct (Z.ltb_spec max u); split_and!; try (f_equal; lia); try lia.
  - constructor; [lia|done].
  - destruct H3 as [->|H3]; right; [left|by right].
  - constructor; [lia|done].
  - destruct H3 as [->|H3]; [by left|right; by right].
Qed.

(** The greatest pause is one of the pauses and no pause is longer; the average is
    their sum divided by their number, and no greater, as long as the sum is less
    than 584 years. *)
Lemma calcMaxAvg_spec a max avg : a ≠ [] -> Forall (fun u => 0 <= u) a -> sum_of a < 2 ^ 64 ->
  calcMaxAvg a = (max, avg) ->
  Forall (fun u => u <= max) a /\ (max = 0 \/ max ∈ a) /\ avg = sum_of a / len a /\ avg <= max.
Proof.
  intros Hne Ha Hs. destruct (max_sum_loop a 0 0 Ha) as (m & E & _ & H2 & H3); [lia..|].
  unfold calcMaxAvg. destruct a as [|u a]; [done|]. rewrite E. intros [= <- <-].
  assert (0 < len (u :: a)) as Hl by (rewrite len_cons; pose proof (len_nonneg a); lia).
  pose proof (sum_of_nonneg _ Ha) as H0.
  split; [done|]. split; [done|]. rewrite Z.add_0_l. change (u + sum_of a) with (sum_of (u :: a)).
  rewrite Z.quot_div_nonneg by lia. split; [done|]. apply Z.div_le_upper_bound; [done|]. clear -H2.
  induction H2 as [|v l Hv _ IH]; [unfold len; cbn; lia|]. rewrite len_cons. change (sum_of (v :: l)) with (v + sum_of l). nia.
Qed.

(** More collections than the ring holds count its entries more than once. *)
Example ring_repeats : gcPause 0 300 (fun i => i) !! 299%nat = gcPause 0 300 (fun i => i) !! 43%nat.
Proof. vm_compute. reflexivity. Qed.

(** ** A session *)

Module Session.

Definition W : Type := list (string * string * string).

Definition record_update (key value tpe : string) (_ : Z) : M W bool :=
  _ ← modify (fun l => l ++ [(key, value, tpe)]); mret true.

Definition text (t : string) : M W string := mret t.

Definition demo : Helper := mkHelper (Some record_update) None None None None.

Definition quoted (t : string) : string := String (ascii_of_nat 34) (t +:+ String (ascii_of_nat 34) EmptyString).

Abbreviation run := (dealCommand (text "INFO") (fun _ => mret tt) (fun _ => mret tt) (text "m") (text "M") (text "g")
  (mret 3) quoted).
Abbreviation serve_ := (serve (text "INFO") (fun _ => mret tt) (fun _ => mret tt) (text "m") (text "M") (text "g")
  (mret 3) quoted).

Definition lines : list (list string) :=
  [["dlog"; "-1"]; ["add"; "7"; "job"; "0"; "30"; "4"; "*"; "*"; "*"; "*"]]%string.

Lemma session_runs_commands_witness :
  run 3 demo (typed lines +:+ "heap") None ([], []) = serve_ demo lines ([], []) /\
  serve_ demo lines ([], []) =
    (Ret tt, ([("7 job", "0 30 4 * * * *", "add")],
              ["<dlog:INFO" +:+ nl; "<ok" +:+ nl; "<ok" +:+ nl; "<<" +:+ nl]))%string.
Proof.
  split; [|vm_compute; reflexivity].
  apply session_runs_commands; [|simpl; lia].
  repeat constructor; unfold word; cbn; naive_solver.
Defined.

(** An [add] with too few words gets the help and no answer; so does [dlog] without
    a level, while a level that is no number is answered. *)
Example no_answer : (run 4 demo (typed [["add"; "7"]; ["dlog"; "x"]]%string) None ([], [])).2.2 =
  help_text ++ ["<invalid len" +:+ nl; "<strconv.Atoi: parsing " +:+ quoted "x" +:+ ": invalid syntax" +:+ nl;
                "<err" +:+ nl; "<<" +:+ nl].
Proof. vm_compute. reflexivity. Qed.

End Session.

End Helper.
