(* ===== verification/Profiles.v ===== *)
(** * The profiles of the helper ([runtime/helper/helper.go])

    Each command writes a profile of the process to a file of its own under [prof],
    named after the time. *)

From S2P Require Import Prelude GoStd GoStrings GoTime Files.
Import GoStd GoStrings GoTime Files.

Module Profiles.

(** [Format("2006_01_02_03_04_05")]: [03] is the hour on a clock of twelve. *)
Definition clock_hour (t : Time) : Z := let h := Hour t mod 12 in if h =? 0 then 12 else h.
Definition stamp (t : Time) : string :=
  join "_" [zero_pad 4 (Year t); zero_pad 2 (Month t); zero_pad 2 (Day t); zero_pad 2 (clock_hour t);
            zero_pad 2 (Minute t); zero_pad 2 (second t)].

Section profiles.
Variable fails : call -> path -> option string.
(** The directory the program runs in, and what it prints of an [*os.File]. *)
Variables (cwd : path) (show_file : nat -> string).
(** What the profiles of the runtime hold, and whether a trace or a profile of the
    processor can be started. *)
Variables (snapshot : string -> list byte) (trace_text cpu_text : Z -> list byte) (trace_start cpu_start : option string).

Definition log (line : string) : M FS unit :=
  modify (fun fs => mkFS (names fs) (data fs) (open_files fs) (logs fs ++ [line])).

Definition os_text (e : os_err) : string :=
  match e with
  | ENOENT => "no such file or directory" | ENOTDIR => "not a directory" | EISDIR => "is a directory"
  | ELOOP => "too many levels of symbolic links" | EEXIST => "file exists" | EOther e => e
  | ENonRegular _ => "non-regular file"
  end.

(** The file [fn0] under [prof], for [k] to write. *)
Definition into (what fn0 : string) (k : nat -> M FS unit) : M FS unit :=
  let fn := cwd ++ ["prof"; fn0] in
  f ← Create fails fn;
  match f with
  | inr err => log ("write " +:+ what +:+ " fail, open prof/" +:+ fn0 +:+ ": " +:+ os_text err)
  | inl f => defer close_fd (k f)
  end.

Definition put_bytes (f : nat) (b : list byte) : M FS unit := modify (with_data (insert f b)).

(** [pprof.Lookup(name).WriteTo(f, 1)], and the line that is logged: the file is
    printed, not its name. *)
Definition lookup (name what : string) (f : nat) : M FS unit :=
  _ ← put_bytes f (snapshot name); log ("write " +:+ what +:+ " to file " +:+ show_file f).

(** The collection changes what the runtime's profile holds, not the files. *)
(* [runtime/helper/helper.go:91-106] writeHeap *)
Definition writeHeap (forceGc : bool) (now : Time) : M FS unit :=
  into "heap" ("heap_" +:+ stamp now +:+ ".prof")
    (lookup (if forceGc then "heap, collected" else "heap") "heap").

(* [runtime/helper/helper.go:87-89] WriteHeap *)
Definition WriteHeap (now : Time) : M FS unit := writeHeap true now.

(* [runtime/helper/helper.go:108-125] writeTrace *)
Definition writeTrace (s : Z) (now : Time) : M FS unit :=
  let fn0 := "trace_" +:+ stamp now +:+ ".out" in
  into "trace" fn0 (fun f =>
    match trace_start with
    | Some err => log ("start trace fail, " +:+ err)
    | None => _ ← put_bytes f (trace_text s); log ("write trace to file prof/" +:+ fn0)
    end).

(* [runtime/helper/helper.go:127-138] WriteMutex *)
Definition WriteMutex (now : Time) : M FS unit :=
  into "mutex" ("mutex_" +:+ stamp now +:+ ".prof") (lookup "mutex" "mutex").

(* [runtime/helper/helper.go:140-151] WriteThreadCreate *)
Definition WriteThreadCreate (now : Time) : M FS unit :=
  into "threadCreate" ("threadCreate_" +:+ stamp now +:+ ".prof") (lookup "threadcreate" "threadCreate").

(* [runtime/helper/helper.go:153-164] WriteBlock *)
Definition WriteBlock (now : Time) : M FS unit :=
  into "block" ("block_" +:+ stamp now +:+ ".prof") (lookup "block" "block").

(* [runtime/helper/helper.go:166-177] writeGoroutine *)
Definition writeGoroutine (now : Time) : M FS unit :=
  into "goroutine" ("goroutine_" +:+ stamp now +:+ ".prof") (lookup "goroutine" "gouroutine").

(* [runtime/helper/helper.go:200-211] WriteGoroutine *)
Definition WriteGoroutine (now : Time) : M FS unit :=
  into "goroutine" ("goroutine_" +:+ stamp now +:+ ".prof") (lookup "goroutine" "goroutine").

(* [runtime/helper/helper.go:183-198] cpuProfiling *)
Definition cpuProfiling (s : Z) (now : Time) : M FS unit :=
  into "cpuprofile" ("cpuprofile_" +:+ stamp now +:+ ".prof") (fun f =>
    match cpu_start with
    | Some err => log ("write cpuprofile fail, " +:+ err)
    | None => put_bytes f (cpu_text s)
    end).

(* [runtime/helper/helper.go:179-181] CpuProfiling *)
Definition CpuProfiling (s : Z) (now : Time) : M FS unit := cpuProfiling s now.

(** ** Names *)

Definition half_day : Z := 12 * 3600 * Second.

(** Two instants of a day that are twelve hours apart have the same stamp: what is
    written in the afternoon takes the place of what was written in the morning. *)
Lemma stamp_half_day t : local_day (Add half_day t) = local_day t -> stamp (Add half_day t) = stamp t.
Proof.
  assert (local_second (Add half_day t) = local_second t + 43200) as E.
  { unfold local_second, Add, half_day. cbn [UnixNano offset].
    replace (UnixNano t + 12 * 3600 * Second) with (UnixNano t + 43200 * Second) by lia.
    rewrite Z.div_add by done. lia. }
  unfold local_day. rewrite E. intros Hd. unfold stamp, Year, Month, Day, clock_hour, Hour, Minute, second, local_day, day_second.
  rewrite E, Hd. set (x := local_second t) in *. unfold day_seconds in *.
  assert ((x + 43200) mod 86400 = x mod 86400 + 43200) as ->.
  { pose proof (Z.div_mod x 86400 ltac:(lia)). pose proof (Z.div_mod (x + 43200) 86400 ltac:(lia)). lia. }
  set (y := x mod 86400).
  replace (y + 43200) with (y + 12 * 3600) by lia. rewrite Z.div_add by lia.
  replace ((y / 3600 + 12) mod 12) with (y / 3600 mod 12)
    by (replace (y / 3600 + 12) with (y / 3600 + 1 * 12) by lia; by rewrite Z.mod_add by lia).
  rewrite Z.mod_add by lia. replace (y + 12 * 3600) with (y + 720 * 60) by lia. by rewrite Z.mod_add by lia.
Qed.

(** A profile whose file can be made is in it afterwards, and no file is left open. *)
Lemma into_written what fn0 b fs i fs1 : Create fails (cwd ++ ["prof"; fn0]) fs = (Ret (inl i), fs1) ->
  exists fs', into what fn0 (fun f => put_bytes f b) fs = (Ret tt, fs') /\ content fs' (cwd ++ ["prof"; fn0]) = Some b /\
    open_files fs' = open_files fs.
Proof.
  intros E. destruct (Create_cases fails fs (cwd ++ ["prof"; fn0])) as [[e E']|(j & fs2 & E' & Hd & _ & Ho & _)];
    rewrite E in E'; [done|]. injection E' as <- <-. unfold into, mbind, M_bind. rewrite E.
  eexists. split; [done|]. split; [|cbn; by rewrite Ho]. unfold content. rewrite ino_open, ino_data, Hd. cbn. by rewrite lookup_insert_eq.
Qed.

End profiles.

(** ** A morning and an afternoon *)

Module Day.

Definition prof_dir : FS := mkFS {[ ["prof"%string] := EDir ]} ∅ 0 [].
Definition three : Time := mkTime (1581908696 * Second) 0.
Definition heap (fs : FS) (t : Time) (b : list byte) : FS :=
  (writeHeap (fun _ _ => None) [] (fun _ => "&{...}"%string) (fun _ => b) false t fs).2.

(** One file holds the second heap; the first is gone. *)
Example afternoon_replaces_morning :
  let fs := heap (heap prof_dir three [x61]) (Add half_day three) [x62] in
  size (names fs) = 2%nat /\ content fs ["prof"; "heap_2020_02_17_03_04_56.prof"]%string = Some [x62].
Proof. vm_compute. split; reflexivity. Qed.

(** Without the directory nothing is written. *)
Example no_directory : logs (heap (mkFS ∅ ∅ 0 []) three [x61]) =
  ["write heap fail, open prof/heap_2020_02_17_03_04_56.prof: no such file or directory"%string].
Proof. vm_compute. reflexivity. Qed.

End Day.

End Profiles.
