(* ===== verification/RuntimeStats.v ===== *)
(** * Figures of the runtime ([runtime/helper/runtime_stats.go], [utls.HumanSize])

    The texts a program reports about its memory and its collector. *)

From Stdlib Require Import Floats.SpecFloat.
From S2P Require Import Prelude GoStd GoStrings GoTime Helper.
Import GoStd GoStrings GoTime.

Module RuntimeStats.

(** ** Decimals *)

(** The integer nearest to [a / b], the even one of two. *)
Definition nearest (a b : Z) : Z :=
  let q := a / b in let r := a mod b in
  if 2 * r <? b then q else if b <? 2 * r then q + 1 else if Z.even q then q else q + 1.

(** [%.pf] of [a / b] *)
Definition decimal (p : nat) (a b : Z) : string :=
  let t := nearest (a * 10 ^ Z.of_nat p) b in
  itoa (t / 10 ^ Z.of_nat p) +:+ "." +:+ zero_pad p (t mod 10 ^ Z.of_nat p).

(** The [float64] of an [uint64], which has 53 bits. *)
Definition float_of (s : Z) : Z :=
  if s <? 2 ^ 53 then s else let b := 2 ^ (Z.log2 s - 52) in nearest s b * b.

(** Dividing by a power of two is exact. *)
(* [utls/utls.go:62-79] HumanSize *)
Definition HumanSize (s : Z) : string :=
  let k := 1024 in
  let m := 1024 * k in
  let g := 1024 * m in
  if 0 <? s / g then decimal 1 (float_of s) g +:+ "GB"
  else if 0 <? s / m then decimal 1 (float_of s) m +:+ "MB"
  else if 0 <? s / k then decimal 1 (float_of s) k +:+ "KB"
  else itoa s +:+ "B".

(** ** Memory *)

(** The fields of [runtime.MemStats] that are read; [PauseNs] is a ring of 256. *)
Record MemStats_ : Type := mkMemStats {
  NumGC : Z; PauseNs : Z -> Z; LastGC : Z; HeapObjects : Z; Mallocs : Z;
  Alloc : Z; Sys : Z; HeapSys : Z; HeapAlloc : Z; HeapIdle : Z; HeapReleased : Z
}.

(* [runtime/helper/runtime_stats.go:16-18] nsToMs *)
Definition nsToMs (ns : Z) : spec_float :=
  SFdiv 53 1024 (binary_normalize 53 1024 ns 0 false) (binary_normalize 53 1024 1000000 0 false).

(** [%.2f]; the value is not negative and finite. *)
Definition two_decimals (f : spec_float) : string :=
  match f with
  | S754_finite _ m e => if 0 <=? e then decimal 2 (Z.pos m * 2 ^ e) 1 else decimal 2 (Z.pos m) (2 ^ (- e))
  | _ => "0.00"
  end.

(* [runtime/helper/runtime_stats.go:44-48] formatGCPause *)
Definition formatGCPause (m1 m2 : MemStats_) : string :=
  let p := Helper.gcPause (NumGC m1) (NumGC m2) (PauseNs m2) in
  let '(max, avg) := Helper.calcMaxAvg p in
  two_decimals (nsToMs max) +:+ "+" +:+ two_decimals (nsToMs avg) +:+ "ms".

Section stats.
Context {W : Type}.
Variables (ReadMemStats : M W MemStats_) (NumGoroutine : M W Z) (Println : string -> M W unit).
(** [%s] of a time, and the JSON of the figures. *)
Variables (show_time : Z -> string) (json : MemStats_ -> string).

(* [runtime/helper/runtime_stats.go:50-53] FormatMemStats *)
Definition FormatMemStats (m1 m2 : MemStats_) : M W string :=
  n ← NumGoroutine;
  mret ("Goroutines: " +:+ itoa n +:+ ", GCPause: " +:+ formatGCPause m1 m2 +:+ ", HeapObjects: " +:+ itoa (HeapObjects m2)
        +:+ ", HeapAlloc: " +:+ HumanSize (HeapAlloc m2) +:+ ", Mallocs: " +:+ itoa (Mallocs m2)).

(** The loop never ends: [n] turns of it. *)
Fixpoint stats_turns (n : nat) (Sleep : M W unit) (f : option (string -> M W unit)) (m1 : MemStats_) : M W unit :=
  match n with
  | O => mret tt
  | S n =>
      _ ← Sleep;
      m2 ← ReadMemStats;
      s ← FormatMemStats m1 m2;
      _ ← (match f with None => Println s | Some f => f s end);
      stats_turns n Sleep f m2
  end.

(* [runtime/helper/runtime_stats.go:56-70] RuntimeStats *)
Definition RuntimeStats (turns : nat) (Sleep : M W unit) (f : option (string -> M W unit)) : M W unit :=
  m1 ← ReadMemStats; stats_turns turns Sleep f m1.

(* [runtime/helper/runtime_stats.go:72-83] GcStats *)
Definition GcStats : M W string :=
  m ← ReadMemStats;
  let lastGC := LastGC m / 1000 / 1000 / 1000 in
  let lastPause := PauseNs m (u32 (NumGC m + 255) mod 256) / 1000 / 1000 in
  mret (itoa lastPause +:+ "ms," +:+ show_time lastGC).

(* [runtime/helper/runtime_stats.go:85-91] MemStats2 *)
Definition MemStats2 : M W string := m ← ReadMemStats; mret (json m).

(* [runtime/helper/runtime_stats.go:93-105] MemStats *)
Definition MemStats : M W string :=
  m ← ReadMemStats;
  let alloc := Alloc m / 1024 / 1024 in
  let sys := Sys m / 1024 / 1024 in
  let heapSys := HeapSys m / 1024 / 1024 in
  let heapAlloc := HeapAlloc m / 1024 / 1024 in
  let heapIdle := HeapIdle m / 1024 / 1024 in
  let heapReleased := HeapReleased m / 1024 / 1024 in
  mret (join "," (map (fun z => itoa z) [sys; alloc; heapSys; heapAlloc; heapIdle; heapReleased])).

End stats.

(** ** Properties *)

Lemma nearest_bound a b : 0 < b -> 2 * Z.abs (a - nearest a b * b) <= b.
Proof.
  intros Hb. unfold nearest. pose proof (Z.div_mod a b ltac:(lia)). pose proof (Z.mod_pos_bound a b Hb).
  destruct (Z.ltb_spec (2 * (a mod b)) b); [lia|]. destruct (Z.ltb_spec b (2 * (a mod b))); [lia|].
  destruct (Z.even (a / b)); lia.
Qed.

(** A size below eight petabytes is within half of a tenth of the unit of what is
    printed, and the unit is the greatest that is not greater than the size. *)
Lemma HumanSize_near s : 1024 <= s < 2 ^ 53 -> exists u unit t,
  In (u, unit) [(2 ^ 10, "KB"%string); (2 ^ 20, "MB"%string); (2 ^ 30, "GB"%string)] /\ u <= s /\ (s < 2 ^ 30 -> s < 1024 * u) /\
  HumanSize s = itoa (t / 10) +:+ "." +:+ zero_pad 1 (t mod 10) +:+ unit /\ 2 * Z.abs (10 * s - t * u) <= u.
Proof.
  intros Hs. assert (forall u, 0 < u -> (0 <? s / u) = (u <=? s)) as Hdiv.
  { intros u Hu. apply eq_true_iff_eq. rewrite Z.ltb_lt, Z.leb_le. split; intros H.
    - pose proof (Z.mul_div_le s u Hu). nia.
    - apply Z.div_str_pos. lia. }
  assert (forall u, 0 < u -> 2 * Z.abs (10 * s - nearest (s * 10) u * u) <= u) as Hn.
  { intros u Hu. pose proof (nearest_bound (s * 10) u Hu). lia. }
  assert (forall u unit, decimal 1 (float_of s) u +:+ unit = itoa (nearest (s * 10) u / 10) +:+ "." +:+
    zero_pad 1 (nearest (s * 10) u mod 10) +:+ unit) as Hd.
  { intros u unit. unfold decimal, float_of. destruct (Z.ltb_spec s (2 ^ 53)); [|lia].
    change (10 ^ Z.of_nat 1) with 10. by rewrite !string_app_assoc. }
  unfold HumanSize. rewrite !Hdiv, !Hd by done.
  destruct (Z.leb_spec (1024 * (1024 * 1024)) s).
  { exists (2 ^ 30), "GB"%string, (nearest (s * 10) (2 ^ 30)). split_and!; [by do 2 right; left|lia|lia|done|by apply Hn]. }
  destruct (Z.leb_spec (1024 * 1024) s).
  { exists (2 ^ 20), "MB"%string, (nearest (s * 10) (2 ^ 20)). split_and!; [by right; left|lia|lia|done|by apply Hn]. }
  destruct (Z.leb_spec 1024 s); [|lia].
  exists (2 ^ 10), "KB"%string, (nearest (s * 10) (2 ^ 10)). split_and!; [by left|lia|lia|done|by apply Hn].
Qed.

Lemma HumanSize_near_witness : HumanSize 1536 = "1.5KB" /\ exists t, 2 * Z.abs (10 * 1536 - t * 1024) <= 1024.
Proof.
  split; [vm_compute; reflexivity|].
  destruct (HumanSize_near 1536 ltac:(lia)) as (u & unit & t & Hu & Hle & Hlt & _ & Hb). exists t.
  destruct Hu as [[= <- _]|[[= <- _]|[[= <- _]|[]]]]; [exact Hb|lia|lia].
Defined.

(** Just below a unit the text has 1024 of the smaller one. *)
Example size_below_a_megabyte : HumanSize (1024 * 1024 - 1) = "1024.0KB" /\ HumanSize (1024 * 1024) = "1.0MB" /\
  HumanSize 1023 = "1023B" /\ HumanSize (2 ^ 64 - 1) = "17179869184.0GB".
Proof. vm_compute. done. Qed.

(** The ring holds the pauses [pause n] of the last 256 collections. *)
Definition ring (pause : Z -> Z) (m : MemStats_) : Prop :=
  forall n, NumGC m - 256 < n <= NumGC m -> PauseNs m ((n + 255) mod 256) = pause n.

Lemma u32_mod_256 z : u32 z mod 256 = z mod 256.
Proof.
  unfold wrapU. apply Z.mod_mod_divide. by exists 16777216.
Qed.

(** Between two readings, with no more than 256 collections: the pauses of those
    collections, each once, the last first. *)
Lemma gcPause_exact pause m1 m2 : ring pause m2 -> 0 <= NumGC m1 <= NumGC m2 -> NumGC m2 < 2 ^ 32 ->
  NumGC m2 - NumGC m1 <= 256 ->
  Helper.gcPause (NumGC m1) (NumGC m2) (PauseNs m2) =
    map (fun i => pause (NumGC m2 - Z.of_nat i)) (seq 0 (Z.to_nat (NumGC m2 - NumGC m1))).
Proof.
  intros Hr H0 H1 Hd. unfold Helper.gcPause. cbv zeta. rewrite (wrapU_small 32 (NumGC m2 - NumGC m1)) by (unfold isU; lia).
  apply map_ext_in. intros i Hi%in_seq. rewrite <- (Hr (NumGC m2 - Z.of_nat i)) by lia. f_equal.
  rewrite u32_mod_256. rewrite <- Z.add_mod_idemp_l, u32_mod_256, Z.add_mod_idemp_l by lia. done.
Qed.

Lemma gcPause_exact_witness : Helper.gcPause 300 303 (fun i => if i =? 46 then 9 else i) = [9; 45; 44].
Proof.
  pose (mk := fun n ring => mkMemStats n ring 0 0 0 0 0 0 0 0 0).
  pose (m2 := mk 303 (fun i => if i =? 46 then 9 else i)).
  pose (pause := fun n => if (n + 255) mod 256 =? 46 then 9 else (n + 255) mod 256).
  pose proof (gcPause_exact pause (mk 300 (fun i => i)) m2) as H.
  assert (ring pause m2) as Hr by (intros n Hn; reflexivity).
  exact (H Hr ltac:(cbn; lia) ltac:(cbn; lia) ltac:(cbn; lia)).
Defined.

(** A collector that has not run yet is reported with the last place of the ring; a
    pause of a third of a millisecond, and one of five thousandths. *)
Example pauses_printed :
  two_decimals (nsToMs 333333) = "0.33" /\ two_decimals (nsToMs 5000) = "0.01" /\ two_decimals (nsToMs 0) = "0.00" /\
  two_decimals (nsToMs 125000000) = "125.00".
Proof. vm_compute. done. Qed.

End RuntimeStats.
