(* ===== verification/Engine.v ===== *)
(** * The engine ([godog.go], [signal.go], [config.go], [log.go], [config/config.go])

    The configuration and its cache of files, the logging configuration made of it,
    the start-up sequence of [Engine.Run], and the goroutines of a running engine
    with the channels between them as a step relation. *)

From S2P Require Import Prelude GoStd GoStrings GoTime Utls DlogFormat Dlog FileLog DlogConfig.
Import GoStd GoStrings.

Module Engine.

(** ** The configuration *)

(** Files of the ini library.  [MustString] and the others give the default where
    the key has no value or one of another form. *)
Class Ini (C : Type) := {
  Empty : C;
  key_String : string -> string -> C -> string;
  SetValue : string -> string -> string -> C -> C;
  Bool : string -> option bool;
  Int : string -> option Z
}.

(** What the engine relies on; a percent sign in a value asks for another key. *)
Class IniLaws (C : Type) `{Ini C} : Prop := {
  String_Empty sec key : key_String sec key Empty = EmptyString;
  String_SetValue sec key v (c : C) : count "%" v = 0 -> key_String sec key (SetValue sec key v c) = v;
  String_SetValue_ne sec key v sec' key' (c : C) :
    (sec', key') ≠ (sec, key) -> key_String sec' key' (SetValue sec key v c) = key_String sec' key' c
}.

Section config.
Context {C : Type} {ini : Ini C}.

Definition MustString (sec key def : string) (c : C) : string :=
  let v := key_String sec key c in if String.eqb v EmptyString then def else v.
Definition MustBool (sec key : string) (def : bool) (c : C) : bool := default def (Bool (key_String sec key c)).
Definition MustInt (sec key : string) (def : Z) (c : C) : Z := default def (Int (key_String sec key c)).

(** The path, the files read so far and the empty file that stands in for one that
    is not there; files are shared, so that [SetConfig] changes them for all. *)
(* [config/config.go:21-23] Conf *)
Record Confs : Type := mkConfs { confName : string; cache : gmap string C; noConfig : C }.

Definition fresh : Confs := mkConfs "conf/conf.ini" ∅ Empty.

(** [ini.Load]: the file, an error; [None] where there is no file. *)
Variable Load : string -> option (C + string).

(** The file in use, under its name in the cache, or the stand-in. *)
(* [config/config.go:39-55] Config *)
Definition Config_ : M Confs (C * option string) :=
  s ← get;
  match cache s !! confName s with
  | Some c => mret (c, Some (confName s))
  | None =>
      match Load (confName s) with
      | Some (inl c) =>
          _ ← put (mkConfs (confName s) (<[confName s := c]> (cache s)) (noConfig s));
          mret (c, Some (confName s))
      | _ => mret (noConfig s, None)
      end
  end.

(* [config/config.go:33-37] SetConfPath *)
Definition SetConfPath (path : string) : M Confs unit :=
  if String.eqb path EmptyString then mret tt
  else modify (fun s => mkConfs path (cache s) (noConfig s)).

(* [config.go:23-25] Config *)
Definition Config {A} (f : C -> A) : M Confs A := c ← Config_; mret (f c.1).

(* [config.go:28-30] SetConfig *)
Definition SetConfig (sec key value : string) : M Confs unit :=
  c ← Config_;
  modify (fun s =>
    match c.2 with
    | Some name => mkConfs (confName s) (<[name := SetValue sec key value c.1]> (cache s)) (noConfig s)
    | None => mkConfs (confName s) (cache s) (SetValue sec key value c.1)
    end).

(** The configuration in use in a state. *)
Definition current (s : Confs) : C :=
  match cache s !! confName s with
  | Some c => c
  | None => match Load (confName s) with Some (inl c) => c | _ => noConfig s end
  end.

Lemma Config_run s : exists s', Config_ s =
  (Ret (current s, if decide (is_Some (cache s !! confName s)) then Some (confName s)
    else match Load (confName s) with Some (inl _) => Some (confName s) | _ => None end), s') /\
  current s' = current s /\ confName s' = confName s /\ noConfig s' = noConfig s.
Proof.
  unfold Config_, current. go_run. destruct (cache s !! confName s) as [c|] eqn:E.
  { exists s. rewrite decide_True by eauto. split_and!; try done. by rewrite E. }
  rewrite decide_False by (intros []; congruence).
  destruct (Load (confName s)) as [[c|]|] eqn:El.
  - eexists. split; [done|]. cbn. rewrite lookup_insert_eq. done.
  - exists s. by rewrite E, El.
  - exists s. by rewrite E, El.
Qed.

Lemma Config_reads {A} (f : C -> A) s : exists s', Config f s = (Ret (f (current s)), s') /\ current s' = current s.
Proof.
  destruct (Config_run s) as (s' & E & Hc & _). exists s'. unfold Config. by rewrite (bind_run _ _ _ _ _ E).
Qed.

(** A value that is set is read back, and nothing else changes, whether the file is
    in the cache, is read now or is missing. *)
Lemma SetConfig_reads {laws : IniLaws C} sec key v s : count "%" v = 0 ->
  exists s', SetConfig sec key v s = (Ret tt, s') /\
    forall sec' key', key_String sec' key' (current s') =
      if decide ((sec', key') = (sec, key)) then v else key_String sec' key' (current s).
Proof.
  intros Hv.
  assert (exists s', SetConfig sec key v s = (Ret tt, s') /\ current s' = SetValue sec key v (current s)) as (s' & E & Hc).
  { unfold SetConfig, Config_, current. go_run.
    destruct (cache s !! confName s) as [c|] eqn:Ec; [|destruct (Load (confName s)) as [[c|e]|] eqn:El];
      eexists; (split; [done|]); cbn; rewrite ?lookup_insert_eq, ?Ec, ?El; done. }
  exists s'. split; [done|]. intros sec' key'. rewrite Hc.
  destruct (decide _) as [[= -> ->]|Hne]; [by apply String_SetValue|by apply String_SetValue_ne].
Qed.

End config.

(** ** The log *)

(* [log.go:16-19] defaultFormat *)
Definition defaultFormat : string := "%L	%D %T	%l	%I	%G	%M	%S".

(* [log.go:21-32] gdConfig *)
Record gdConfig : Type := mkGd {
  BinName : string; Port : Z; LogLevel : string; LogDir : string; Stdout : string; Format : string;
  Rotate : string; Maxsize : string; MaxLines : string; RotateType : string
}.

(* [log.go:34-39] getInfoFileName *)
Definition getInfoFileName (binName : string) (port : Z) : string :=
  if port =? 0 then binName +:+ ".log" else binName +:+ "_" +:+ itoa port +:+ ".log".

(* [log.go:41-46] getWarnFileName *)
Definition getWarnFileName (binName : string) (port : Z) : string :=
  if port =? 0 then binName +:+ "_err.log" else binName +:+ "_err_" +:+ itoa port +:+ ".log".

(** [filepath.Dir] of a path without empty or dotted elements. *)
Definition path_Dir (p : string) : string :=
  let i := last_index_char "/" p in
  if i <? 0 then "." else if i =? 0 then "/" else String.substring 0 (Z.to_nat i) p.

(** The name of the program without its directory; a slice past the end panics. *)
Definition bin_of (ex : string) : outcome string :=
  let dir := path_Dir ex in
  if 0 <? count "/" dir then
    if (String.length ex <? S (String.length dir))%nat then Panic "slice bounds out of range"
    else Ret (skip (S (String.length dir)) ex)
  else Ret ex.

Definition file_filter (g : gdConfig) (tag level name : string) : DlogConfig.XmlFilter :=
  DlogConfig.mkXmlFilter (if String.eqb (LogDir g) EmptyString then "false" else "true") tag level "file"
    [DlogConfig.mkProperty "filename" (LogDir g +:+ "/" +:+ name);
     DlogConfig.mkProperty "format" (Format g); DlogConfig.mkProperty "rotate" (Rotate g);
     DlogConfig.mkProperty "maxsize" (Maxsize g); DlogConfig.mkProperty "maxLines" (MaxLines g);
     DlogConfig.mkProperty (RotateType g) "true"].

(** The configuration made; the caller loads it. *)
(* [log.go:48-124] gdConfig.initLogConfig *)
Definition initLogConfig (Executable : string + string) (g : gdConfig) :
  outcome (DlogConfig.XmlLoggerConfig + string) :=
  let made (bin : string) :=
    if existsb (String.eqb (LogLevel g)) ["DEBUG"; "INFO"; "WARNING"; "ERROR"] then
      Ret (inl (DlogConfig.mkXml EmptyString
        [DlogConfig.mkXmlFilter (Stdout g) "stdout" "INFO" "console" [DlogConfig.mkProperty "format" (Format g)];
         file_filter g "service" (LogLevel g) (getInfoFileName bin (Port g));
         file_filter g "service_err" "WARNING" (getWarnFileName bin (Port g))]))
    else Ret (inr ("invalid log level " +:+ LogLevel g)) in
  if String.eqb (BinName g) EmptyString then
    match Executable with
    | inr err => Ret (inr err)
    | inl ex => match bin_of ex with Ret bin => made bin | Panic e => Panic e end
    end
  else made (BinName g).

Section log.
Context {C : Type} {ini : Ini C}.

(** The port of the file names: the first server that has one. *)
Definition log_port (c : C) : Z :=
  let http := MustInt "Server" "httpPort" 0 c in
  let rpc := MustInt "Server" "rpcPort" 0 c in
  let grpc := MustInt "Server" "grpcPort" 0 c in
  if 0 <? http then http else if 0 <? rpc then rpc else if 0 <? grpc then grpc else 0.

Definition log_config (c : C) : gdConfig :=
  mkGd (key_String "Server" "serverName" c) (log_port c) (MustString "Log" "level" defaultFormat c)
    (key_String "Log" "logDir" c) (MustString "Log" "stdout" "true" c)
    (MustString "Log" "format" defaultFormat c) (MustString "Log" "rotate" "true" c)
    (MustString "Log" "maxsize" "0M" c) (MustString "Log" "maxLines" "0k" c)
    (MustString "Log" "rotateType" "hourly" c).

(** What is loaded, if logging is enabled. *)
(* [godog.go:46-75] initLog *)
Definition initLog (Executable : string + string) (c : C) : outcome (option DlogConfig.XmlLoggerConfig) :=
  if MustBool "Log" "enable" false c then
    match initLogConfig Executable (log_config c) with
    | Ret (inl xc) => Ret (Some xc)
    | Ret (inr err) => Panic ("initLogConfig occur error:" +:+ err)
    | Panic e => Panic e
    end
  else Ret None.

(** The levels the engine accepts. *)
Definition accepted_level (l : string) : Prop := l ∈ ["DEBUG"; "INFO"; "WARNING"; "ERROR"]%string.

Lemma accepted_level_of l : accepted_level l -> is_Some (DlogConfig.level_of l).
Proof. unfold accepted_level. rewrite !elem_of_cons. intros [->|[->|[->|[->|H]]]]; [vm_compute; eauto..|]. by apply elem_of_nil in H. Qed.

Lemma accepted_level_in l : existsb (String.eqb l) ["DEBUG"; "INFO"; "WARNING"; "ERROR"]%string = true <-> accepted_level l.
Proof.
  unfold accepted_level. rewrite existsb_exists. split.
  - intros (x & Hx & E). apply String.eqb_eq in E as ->. by apply list_elem_of_In.
  - intros H. exists l. split; [by apply list_elem_of_In|apply String.eqb_refl].
Qed.

(** A level that is missing is replaced by the default of the format, which is no
    level: the engine panics when it is made. *)
Lemma missing_level_panics ex c : MustBool "Log" "enable" false c = true ->
  key_String "Log" "level" c = EmptyString -> key_String "Server" "serverName" c ≠ EmptyString ->
  initLog ex c = Panic ("initLogConfig occur error:invalid log level " +:+ defaultFormat).
Proof.
  intros He Hl Hn. unfold initLog, initLogConfig, log_config. rewrite He. cbn [BinName LogLevel].
  unfold MustString. rewrite Hl. destruct (String.eqb_spec (key_String "Server" "serverName" c) EmptyString); done.
Qed.

(** When logging is enabled with a level, the engine makes a configuration that can
    be loaded (every filter has a tag, a known type and level), and what it loads,
    whatever the logger had before, are the console at INFO unless it is switched
    off, and, where there is a directory, the log file at the level and the error
    file at WARNING. *)
Theorem initLog_levels W1 W2 W3 W4 R dials send clock log sys log' sys' ex (c : C) :
  MustBool "Log" "enable" false c = true -> accepted_level (key_String "Log" "level" c) ->
  key_String "Server" "serverName" c ≠ EmptyString ->
  exists xc, initLog ex c = Ret (Some xc) /\ Forall DlogConfig.complete (DlogConfig.Filter xc) /\
  (DlogConfig.LoadConfigurationByXml W1 W2 W3 W4 R dials send clock xc log sys = (Ret (Some log'), sys') ->
   let dir := negb (String.eqb (key_String "Log" "logDir" c) EmptyString) in
   let level := default 0 (DlogConfig.level_of (key_String "Log" "level" c)) in
   let out := if String.eqb (MustString "Log" "stdout" "true" c) "false" then ∅
     else {["stdout" := DlogFormat.INFO]} : gmap string Z in
   Dlog.filter_Level <$> log' =
     if dir then <["service_err" := DlogFormat.WARNING]> (<["service" := level]> out) else out).
Proof.
  intros He Hl Hn. set (level := key_String "Log" "level" c) in *.
  assert (level ≠ EmptyString) as Hne by (intros E; rewrite E in Hl; by apply accepted_level_in in Hl).
  assert (MustString "Log" "level" defaultFormat c = level) as Hm.
  { unfold MustString. fold level. by destruct (String.eqb_spec level EmptyString). }
  assert (MustString "Log" "stdout" "true" c ≠ EmptyString) as Hs.
  { unfold MustString. by destruct (String.eqb_spec (key_String "Log" "stdout" c) EmptyString). }
  unfold initLog, initLogConfig. rewrite He. cbn [BinName LogLevel log_config]. rewrite Hm.
  destruct (String.eqb_spec (key_String "Server" "serverName" c) EmptyString) as [|_]; [done|].
  rewrite (proj2 (accepted_level_in level) Hl). eexists. split; [done|]. split.
  - repeat constructor; unfold file_filter; cbn; rewrite ?Hm;
      first [by destruct (String.eqb_spec (key_String "Log" "logDir" c) EmptyString) | eauto using accepted_level_of | done].
  - intros [_ Hload]%DlogConfig.load_xml_ok. rewrite Hload. unfold DlogConfig.levels, DlogConfig.enabled.
    cbn [foldl DlogConfig.Filter DlogConfig.Enabled DlogConfig.Tag DlogConfig.Level file_filter log_config LogDir Stdout LogLevel].
    rewrite ?Hm.
    destruct (String.eqb (MustString "Log" "stdout" "true" c) "false"), (String.eqb (key_String "Log" "logDir" c) EmptyString);
      cbn [negb String.eqb Ascii.eqb Bool.eqb]; done.
Qed.
End log.

(** ** Start-up *)

(** What the engine does, in order; the log lines are left out. *)
Inductive value : Type := VPort (p : Z) | VText (s : string) | VObject (name : string).

Inductive action : Type :=
| ASignal | ADump (file : string) | AProcs (n : Z) | ALimit (bytes : Z) | APerfCounter
| AStat (file : string) (interval : Z) | ARegister (name : string) (v : value) | ASetRunPort (p : Z).

Definition act (a : action) : M (list action) unit := modify (fun l => l ++ [a]).

Section run.
Context {C : Type} {ini : Ini C}.
(** The number of processors, whether a limit can be set, and what registering an
    object panics with. *)
Variable numCpus : Z.
Variable Setrlimit : Z -> option string.
Variable fails : string -> value -> option string.

(* [utls/dump_panic.go:30-44] Dump *)
Definition Dump (fileDir name : string) : M (list action) unit :=
  act (ADump (if String.eqb fileDir EmptyString then "stderr_" +:+ name +:+ ".log"
              else fileDir +:+ "/" +:+ "stderr_" +:+ name +:+ ".log")).

(** The processors used, of those there are. *)
Definition max_cpu (maxCPU : Z) : Z :=
  if maxCPU <=? 0 then (if 3 <? numCpus then Z.quot numCpus 2 else 1)
  else if numCpus <? maxCPU then numCpus else maxCPU.

(** [Crash] panics. *)
(* [godog.go:192-227] Engine.initCPUAndMemory *)
Definition initCPUAndMemory (c : C) : M (list action) (option string) :=
  _ ← act (AProcs (max_cpu (MustInt "Process" "maxCPU" 0 c)));
  let size := key_String "Process" "maxMemory" c in
  if String.eqb size EmptyString then mret None else
  r ← Utls.ParseMemorySize size;
  match r.2 with
  | Some err => panic ("conf field illgeal, max_memory:" +:+ size +:+ ", error:" +:+ err)
  | None =>
      match Setrlimit r.1 with
      | Some err => panic ("syscall Setrlimit fail, error:" +:+ err)
      | None => _ ← act (ALimit r.1); mret None
      end
  end.

Definition RegisterOrFail (name : string) (v : value) : M (list action) unit :=
  match fails name v with Some e => panic e | None => act (ARegister name v) end.

Definition when (b : bool) (m : M (list action) unit) : M (list action) unit := if b then m else mret tt.

Section servers.
(** Whether the performance counters are on. *)
Variables (falcon : bool) (c : C).
Abbreviation httpPort := (MustInt "Server" "httpPort" 0 c).
Abbreviation grpcPort := (MustInt "Server" "grpcPort" 0 c).
Abbreviation healthPort := (MustInt "Process" "healthPort" 0 c).
Abbreviation rpcPort := (MustInt "Server" "rpcPort" 0 c).
Abbreviation httpAddr := (MustString "Server" "httpAddr" EmptyString c).
Abbreviation serverName := (key_String "Server" "serverName" c).

(* [godog.go:141-156] Engine.Run, the HTTP server *)
Definition start_http : M (list action) unit :=
  when (0 <? httpPort)
    (_ ← RegisterOrFail "httpServerRunPort" (VPort httpPort);
     _ ← when (negb (String.eqb httpAddr EmptyString)) (RegisterOrFail "httpServerRunAddr" (VText httpAddr));
     _ ← RegisterOrFail "httpServer" (VObject "HttpServer");
     when falcon (act (ASetRunPort httpPort))).

(* [godog.go:158-169] Engine.Run, the gRPC server *)
Definition start_grpc : M (list action) unit :=
  when (0 <? grpcPort)
    (_ ← RegisterOrFail "grpcRunHost" (VPort grpcPort);
     _ ← RegisterOrFail "serviceName" (VText serverName);
     _ ← RegisterOrFail "grpcServer" (VObject "GrpcServer");
     when falcon (act (ASetRunPort grpcPort))).

(* [godog.go:171-177] Engine.Run, the helper *)
Definition start_helper : M (list action) unit :=
  when (0 <? healthPort)
    (_ ← RegisterOrFail "helperHost" (VPort healthPort);
     RegisterOrFail "helper" (VObject "Helper")).

(* [godog.go:179-186] Engine.Run, the RPC server *)
Definition start_rpc : M (list action) unit :=
  when (0 <? rpcPort)
    (_ ← RegisterOrFail "rpcHost" (VPort rpcPort);
     RegisterOrFail "rpcServer" (VObject "RpcServer")).
End servers.

(** [Run] up to its [Close]. *)
(* [godog.go:78-190] Engine.Run *)
Definition startup (c : C) : M (list action) unit :=
  _ ← act ASignal;
  let logDir := key_String "Log" "logDir" c in
  let toFile := String.eqb (MustString "Log" "toFile" "false" c) "true" in
  _ ← when toFile (Dump logDir (key_String "Server" "serverName" c));
  _ ← initCPUAndMemory c;
  let falcon := MustBool "Statistics" "falcon" false c in
  _ ← when falcon (act APerfCounter);
  _ ← when (MustBool "Statistics" "stat" false c)
        (act (AStat (if toFile && negb (String.eqb logDir EmptyString) then logDir +:+ "/stat.log" else "stat.log")
               (i64 (1000000000 * MustInt "Statistics" "statInterval" 5 c))));
  _ ← start_http falcon c;
  _ ← start_grpc falcon c;
  _ ← start_helper c;
  start_rpc c.

(** At least one processor, never more than there are, and half of them when the
    configuration asks for none and there are more than three. *)
Lemma max_cpu_bounds m : 1 <= numCpus ->
  1 <= max_cpu m <= numCpus /\ (m <= 0 -> 3 < numCpus -> max_cpu m = numCpus `div` 2).
Proof.
  intros H. unfold max_cpu. rewrite Z.quot_div_nonneg by lia.
  destruct (Z.leb_spec m 0), (Z.ltb_spec 3 numCpus), (Z.ltb_spec numCpus m); split; try lia.
  all: pose proof (Z.div_mod numCpus 2); pose proof (Z.mod_pos_bound numCpus 2); lia.
Qed.

(** A size whose number does not parse counts as zero: the limit on the memory of
    the process is set to nothing. *)
Lemma bad_size_no_memory (c : C) num suffix l : Setrlimit 0 = None ->
  Utls.split_last (key_String "Process" "maxMemory" c) = Some (num, suffix) ->
  (exists e, parse_int num = inr e) ->
  initCPUAndMemory c l =
    (Ret None, l ++ [AProcs (max_cpu (MustInt "Process" "maxCPU" 0 c)); ALimit 0]).
Proof.
  intros Hs Hl [e He]. unfold initCPUAndMemory, Utls.ParseMemorySize. rewrite Hl, He.
  destruct (String.eqb_spec (key_String "Process" "maxMemory" c) EmptyString) as [E|_].
  { rewrite E in Hl. by vm_compute in Hl. }
  unfold act. go_run. rewrite Hs. by rewrite <- app_assoc.
Qed.

(** What is registered, in order. *)
Definition registered (l : list action) : list (string * value) :=
  omap (fun a => match a with ARegister n v => Some (n, v) | _ => None end) l.

(** What a port that is set stands for. *)
Definition if_port (c : C) (sec key : string) (l : Z -> list (string * value)) : list (string * value) :=
  let p := MustInt sec key 0 c in if 0 <? p then l p else [].

Definition servers (c : C) : list (string * value) :=
  if_port c "Server" "httpPort" (fun p =>
    [("httpServerRunPort", VPort p)] ++
    (let addr := MustString "Server" "httpAddr" EmptyString c in
     if negb (String.eqb addr EmptyString) then [("httpServerRunAddr", VText addr)] else []) ++
    [("httpServer", VObject "HttpServer")]) ++
  if_port c "Server" "grpcPort" (fun p =>
    [("grpcRunHost", VPort p); ("serviceName", VText (key_String "Server" "serverName" c));
     ("grpcServer", VObject "GrpcServer")]) ++
  if_port c "Process" "healthPort" (fun p => [("helperHost", VPort p); ("helper", VObject "Helper")]) ++
  if_port c "Server" "rpcPort" (fun p => [("rpcHost", VPort p); ("rpcServer", VObject "RpcServer")]).

Lemma registered_app l k : registered (l ++ k) = registered l ++ registered k.
Proof. unfold registered. apply omap_app. Qed.

(** A part of the start-up that registers [vs] when it goes on. *)
Definition registers {A} (m : M (list action) A) (vs : list (string * value)) : Prop :=
  forall l a l', m l = (Ret a, l') -> registered l' = registered l ++ vs.

Lemma registers_act a : registers (act a) (registered [a]).
Proof. intros l [] l'. unfold act. go_run. intros [= <-]. by rewrite registered_app. Qed.

Lemma registers_one n v : registers (RegisterOrFail n v) [(n, v)].
Proof. intros l a l'. unfold RegisterOrFail. destruct (fails n v); [done|]. apply registers_act. Qed.

Lemma registers_ret {A} (a : A) : registers (mret a) [].
Proof. intros l b l' [= _ <-]. by rewrite app_nil_r. Qed.

Lemma registers_panic {A} e : registers (panic e : M _ A) [].
Proof. by intros l a l'. Qed.

Lemma registers_bind {A B} (m : M _ A) (k : A -> M _ B) vs ws :
  registers m vs -> (forall a, registers (k a) ws) -> registers (m ≫= k) (vs ++ ws).
Proof.
  intros Hm Hk l b l'. unfold mbind, M_bind. destruct (m l) as [[a|] l1] eqn:E; [|done].
  intros H. by rewrite (Hk _ _ _ _ H), (Hm _ _ _ E), app_assoc.
Qed.

Lemma registers_when (b : bool) m vs : registers m vs -> registers (when b m) (if b then vs else []).
Proof. destruct b; [done|]. intros _. apply registers_ret. Qed.

Lemma registers_cpu c : registers (initCPUAndMemory c) [].
Proof.
  unfold initCPUAndMemory. apply (registers_bind _ _ [] []); [apply registers_act|]. intros _.
  destruct (String.eqb _ _); [apply registers_ret|].
  apply (registers_bind _ _ [] []).
  - unfold Utls.ParseMemorySize. case_match; [|apply registers_panic]. case_match. apply registers_ret.
  - intros r. case_match; [apply registers_panic|]. case_match; [apply registers_panic|].
    apply (registers_bind _ _ [] []); [apply registers_act|]. intros _. apply registers_ret.
Qed.

Lemma registers_nil {A B} (m : M _ A) (k : A -> M _ B) vs :
  registers m [] -> (forall a, registers (k a) vs) -> registers (m ≫= k) vs.
Proof. apply (registers_bind m k []). Qed.

Lemma registers_quiet (b : bool) a : registered [a] = [] -> registers (when b (act a)) [].
Proof. intros H. pose proof (registers_when b (act a) _ (registers_act a)) as Hw. rewrite H in Hw. by destruct b. Qed.

Lemma registers_more {A} n v (k : M (list action) A) vs : registers k vs -> registers (_ ← RegisterOrFail n v; k) ((n, v) :: vs).
Proof. intros H. apply (registers_bind _ _ [(n, v)]); [apply registers_one|done]. Qed.

Lemma registers_http falcon c : registers (start_http falcon c) (if_port c "Server" "httpPort" (fun p =>
    [("httpServerRunPort", VPort p)] ++
    (let addr := MustString "Server" "httpAddr" EmptyString c in
     if negb (String.eqb addr EmptyString) then [("httpServerRunAddr", VText addr)] else []) ++
    [("httpServer", VObject "HttpServer")])).
Proof.
  apply registers_when, registers_more, registers_bind; [by apply registers_when, registers_one|]. intros _.
  by apply registers_more, registers_quiet.
Qed.

Lemma registers_grpc falcon c : registers (start_grpc falcon c) (if_port c "Server" "grpcPort" (fun p =>
    [("grpcRunHost", VPort p); ("serviceName", VText (key_String "Server" "serverName" c));
     ("grpcServer", VObject "GrpcServer")])).
Proof. by apply registers_when, registers_more, registers_more, registers_more, registers_quiet. Qed.

Lemma registers_helper c : registers (start_helper c)
  (if_port c "Process" "healthPort" (fun p => [("helperHost", VPort p); ("helper", VObject "Helper")])).
Proof. apply registers_when, registers_more, registers_one. Qed.

Lemma registers_rpc c : registers (start_rpc c)
  (if_port c "Server" "rpcPort" (fun p => [("rpcHost", VPort p); ("rpcServer", VObject "RpcServer")])).
Proof. apply registers_when, registers_more, registers_one. Qed.

(** A start-up that gets as far as the servers registers the port and the server of
    every port that is set, and nothing else, in this order: HTTP, gRPC, the helper,
    RPC. *)
Lemma startup_registers c l : startup c [] = (Ret tt, l) -> registered l = servers c.
Proof.
  revert l. cut (registers (startup c) (servers c)); [intros H l Hl; exact (H _ _ _ Hl)|].
  unfold startup, servers. cbv zeta.
  apply registers_nil; [apply registers_act|]. intros _.
  apply registers_nil; [by apply registers_quiet|]. intros _.
  apply registers_nil; [apply registers_cpu|]. intros _.
  apply registers_nil; [by apply registers_quiet|]. intros _.
  apply registers_nil; [by apply registers_quiet|]. intros _.
  apply registers_bind; [apply registers_http|]. intros _.
  apply registers_bind; [apply registers_grpc|]. intros _.
  apply registers_bind; [apply registers_helper|]. intros _.
  apply registers_rpc.
Qed.

End run.

(** ** The running engine ([signal.go])

    The channel [running] has no buffer: a send waits for a receiver.  The channels
    of the signals have none either, and the system drops a signal that nobody is
    there to take. *)

Inductive chan : Type := Running | Shutdown | Hup.

(** The goroutine of [Run], at the rest of its start-up, in its [Close], in what it
    has deferred; the goroutine of [Signal], in its [select] or sending; other
    goroutines that call [Close]. *)
Inductive cleanup : Type := LogServerStop | ReviewDump | LogClose | ClosePerfCounter | InjectClose.

Inductive gor : Type :=
| Main (rest : list action) | MainSend | MainClean (rest : list cleanup) | MainDone
| SigSelect | SigSend | UserSend | UserDone.

(** The value a goroutine sends on [running], with what it does next. *)
(* [signal.go:25-41] Engine.Signal, Close *)
Definition sends (deferred : list cleanup) (g : gor) : option (bool * gor) :=
  match g with
  | MainSend => Some (true, MainClean deferred)
  | SigSend => Some (false, SigSelect)
  | UserSend => Some (true, UserDone)
  | _ => None
  end.

(** What a goroutine does when it receives on a channel it waits for. *)
(* [signal.go:25-37] Engine.Signal *)
Definition receives (c : chan) (g : gor) : option gor :=
  match g, c with
  | SigSelect, Shutdown => Some SigSend
  | SigSelect, Hup => Some SigSelect
  | _, _ => None
  end.

Record engine : Type := mkEngine { gors : list gor; heard : nat; missed : nat }.

Inductive event : Type :=
| EAct (a : action) | EReady | ESent (v : bool) | EClean (a : cleanup) | EReturn
| EShutdown (taken : bool) | EHup (taken : bool) | EUserClose.

(** [signals c]: the system delivers a signal on [c]. *)
Inductive step (deferred : list cleanup) : engine -> event -> engine -> Prop :=
| step_act i a rest e : gors e !! i = Some (Main (a :: rest)) ->
    step deferred e (EAct a)
      (mkEngine (<[i := Main rest]> (gors e) ++ (match a with ASignal => [SigSelect] | _ => [] end)) (heard e) (missed e))
| step_ready i e : gors e !! i = Some (Main []) ->
    step deferred e EReady (mkEngine (<[i := MainSend]> (gors e)) (heard e) (missed e))
| step_running i j g h v g' h' e : i ≠ j -> gors e !! i = Some g -> gors e !! j = Some h ->
    sends deferred g = Some (v, g') -> receives Running h = Some h' ->
    step deferred e (ESent v) (mkEngine (<[j := h']> (<[i := g']> (gors e))) (heard e) (missed e))
| step_clean i a rest e : gors e !! i = Some (MainClean (a :: rest)) ->
    step deferred e (EClean a) (mkEngine (<[i := MainClean rest]> (gors e)) (heard e) (missed e))
| step_return i e : gors e !! i = Some (MainClean []) ->
    step deferred e EReturn (mkEngine (<[i := MainDone]> (gors e)) (heard e) (missed e))
| step_shutdown i g g' e : gors e !! i = Some g -> receives Shutdown g = Some g' ->
    step deferred e (EShutdown true) (mkEngine (<[i := g']> (gors e)) (S (heard e)) (missed e))
| step_shutdown_lost e : Forall (fun g => receives Shutdown g = None) (gors e) ->
    step deferred e (EShutdown false) (mkEngine (gors e) (heard e) (S (missed e)))
| step_hup i g g' e : gors e !! i = Some g -> receives Hup g = Some g' ->
    step deferred e (EHup true) (mkEngine (<[i := g']> (gors e)) (heard e) (missed e))
| step_hup_lost e : Forall (fun g => receives Hup g = None) (gors e) ->
    step deferred e (EHup false) (mkEngine (gors e) (heard e) (missed e))
| step_user e : step deferred e EUserClose (mkEngine (gors e ++ [UserSend]) (heard e) (missed e)).

Definition started (acts : list action) : engine := mkEngine [Main acts] 0 0.

(** ** Nobody receives on [running] *)

Definition alive (g : gor) : Prop :=
  match g with Main _ | MainSend | SigSelect | SigSend | UserSend => True | _ => False end.

Definition is_signal (a : action) : nat := match a with ASignal => 1 | _ => 0 end.
Definition sending (g : gor) : nat := match g with SigSend => 1 | _ => 0 end.
Definition signallers (g : gor) : nat :=
  match g with SigSelect | SigSend => 1 | Main acts => sum_list_with is_signal acts | _ => 0 end.

Record inv (e : engine) : Prop := {
  i_alive : Forall alive (gors e);
  i_heard : heard e = sum_list_with sending (gors e);
  i_one : (sum_list_with signallers (gors e) <= 1)%nat
}.

Lemma no_receiver g : receives Running g = None.
Proof. by destruct g. Qed.

Definition outward (ev : event) : Prop :=
  match ev with ESent _ | EClean _ | EReturn => False | _ => True end.

Lemma alive_put e i g : Forall alive (gors e) -> alive g -> Forall alive (<[i := g]> (gors e)).
Proof. intros H Hg. by apply Forall_insert. Qed.

Lemma engine_step d e ev e' : inv e -> step d e ev e' -> inv e' /\ outward ev.
Proof.
  intros [Ha Hh H1] Hs.
  destruct Hs as [i a rest e H|i e H|i j g h v g' h' e Hij Hg Hh' Hsend Hr|i a rest e H|i e H|i g g' e H Hr|e H
                 |i g g' e H Hr|e H|e].
  3: { by rewrite no_receiver in Hr. }
  3, 4: exfalso; exact (Forall_lookup_1 _ _ _ _ Ha H).
  1, 2, 3, 5: match goal with |- context [<[?i := ?y]> (gors ?e)] =>
    pose proof (sum_insert sending (gors e) i _ y H) as Es; pose proof (sum_insert signallers (gors e) i _ y H) as Eg end.
  all: (split; [|done]); split; cbn [gors heard] in *; rewrite ?Forall_app, ?sum_list_with_app.
  - split; [by apply alive_put|]. destruct a; by repeat constructor.
  - destruct a; cbn in *; lia.
  - destruct a; cbn in *; lia.
  - by apply alive_put.
  - cbn in *; lia.
  - cbn in *; lia.
  - apply alive_put; [done|]. by destruct g; simplify_eq/=.
  - destruct g; simplify_eq/=; lia.
  - destruct g; simplify_eq/=; lia.
  - apply alive_put; [done|]. by destruct g; simplify_eq/=.
  - destruct g; simplify_eq/=; lia.
  - destruct g; simplify_eq/=; lia.
  - done.
  - done.
  - done.
  - done.
  - done.
  - done.
  - split; [done|]. by repeat constructor.
  - cbn. lia.
  - cbn. lia.
Qed.

Lemma engine_steps d e es e' : inv e -> steps (step d) e es e' -> inv e' /\ Forall outward es.
Proof.
  intros I Hs. induction Hs as [e|e ev e1 es e2 H1 _ IH]; [done|].
  destruct (engine_step _ _ _ _ I H1) as [I1 Ho]. destruct (IH I1) as [I2 Hes]. split; [done|by constructor].
Qed.

(** *** One goroutine for signals *)

Definition adds_none {A} (m : M (list action) A) : Prop := forall l a l', m l = (Ret a, l') ->
  sum_list_with is_signal l' = sum_list_with is_signal l.

Lemma adds_bind {A B} (m : M _ A) (k : A -> M _ B) : adds_none m -> (forall a, adds_none (k a)) -> adds_none (m ≫= k).
Proof.
  intros Hm Hk l b l'. unfold mbind, M_bind. destruct (m l) as [[a|] l1] eqn:E; [|done].
  intros H. by rewrite (Hk _ _ _ _ H), (Hm _ _ _ E).
Qed.

Lemma adds_act a : is_signal a = 0%nat -> adds_none (act a).
Proof. intros Ha l [] l'. unfold act. go_run. intros [= <-]. rewrite sum_list_with_app. cbn. lia. Qed.

Lemma adds_none_ret {A} (a : A) : adds_none (mret a).
Proof. by intros l b l' [= _ <-]. Qed.

Lemma adds_panic {A} e : adds_none (panic e : M _ A).
Proof. by intros l a l'. Qed.

Lemma adds_when (b : bool) m : adds_none m -> adds_none (when b m).
Proof. destruct b; [done|]. intros _. apply adds_none_ret. Qed.

Ltac adds := repeat first
  [ apply adds_when | apply adds_none_ret | apply adds_panic | by apply adds_act
  | apply adds_bind; [|intros ?] | case_match | progress unfold RegisterOrFail, Dump, Utls.ParseMemorySize ].

Lemma startup_signal {C} {ini : Ini C} n lim fails (c : C) acts : startup n lim fails c [] = (Ret tt, acts) ->
  sum_list_with is_signal acts = 1%nat.
Proof.
  unfold startup. cbv zeta. rewrite (bind_run (act ASignal) _ [] tt [ASignal]) by done.
  match goal with |- ?m [ASignal] = _ -> _ => assert (adds_none m) as Hm end.
  { unfold start_http, start_grpc, start_helper, start_rpc, initCPUAndMemory. adds. }
  exact (Hm [ASignal] tt acts).
Qed.

(** C20 An engine whose start-up succeeds never stops.  Whatever signals arrive and
    whoever calls [Close], in every run nothing is ever sent on [running] (nobody
    receives from it), so that [Run] does not return and nothing it deferred is done: no
    object is closed, the log is not closed.  At most one signal to stop is ever taken,
    by the goroutine of [Signal], which then waits to send for ever; the others are
    dropped, and none of them ends the process. *)
Theorem Run_never_returns {C} {ini : Ini C} n lim fails (c : C) acts deferred es e :
  startup n lim fails c [] = (Ret tt, acts) -> steps (step deferred) (started acts) es e ->
  Forall outward es /\ Forall alive (gors e) /\ (heard e <= 1)%nat.
Proof.
  intros Hs%startup_signal He. assert (inv (started acts)) as I.
  { split; cbn; [by repeat constructor|done|]. lia. }
  destruct (engine_steps _ _ _ _ I He) as [[Ha Hh H1] Ho]. split; [done|]. split; [done|].
  rewrite Hh. transitivity (sum_list_with signallers (gors e)); [|done].
  apply sum_le. intros []; cbn; lia.
Qed.

(** ** A configuration *)

Module Conf.

Abbreviation conf := (gmap (string * string) string).

Definition conf_Bool (v : string) : option bool :=
  if existsb (String.eqb v) ["1"; "t"; "true"; "on"; "yes"] then Some true
  else if existsb (String.eqb v) ["0"; "f"; "false"; "off"; "no"] then Some false else None.

#[export] Instance conf_Ini : Ini conf := {
  Empty := ∅;
  key_String sec key c := default EmptyString (c !! (sec, key));
  SetValue sec key v c := <[(sec, key) := v]> c;
  Bool := conf_Bool;
  Int v := match parse_int v with inl n => Some n | inr _ => None end
}.

#[export] Instance conf_laws : IniLaws conf.
Proof.
  split.
  - done.
  - intros sec key v c _. cbn. by rewrite lookup_insert_eq.
  - intros sec key v sec' key' c Hne. cbn. by rewrite lookup_insert_ne.
Qed.

(** The configuration of the README. *)
Definition readme : conf := list_to_map
  [(("Log", "enable"), "true"); (("Log", "level"), "DEBUG"); (("Process", "maxCPU"), "2");
   (("Process", "healthPort"), "9527"); (("Server", "serverName"), "gd"); (("Server", "httpPort"), "10240");
   (("Server", "rpcPort"), "10241"); (("Server", "grpcPort"), "10242")]%string.

Definition readme_acts : list action :=
  Eval vm_compute in (startup 8 (fun _ => None) (fun _ _ => None) readme []).2.

Lemma readme_starts : startup 8 (fun _ => None) (fun _ _ => None) readme [] = (Ret tt, readme_acts).
Proof. vm_compute. reflexivity. Qed.

Example readme_registered : registered readme_acts = servers readme.
Proof. exact (startup_registers _ _ _ _ _ readme_starts). Qed.

Lemma initLog_levels_witness : accepted_level (key_String "Log" "level" readme) /\
  exists xc, initLog (inr "unknown"%string) readme = Ret (Some xc) /\ Forall DlogConfig.complete (DlogConfig.Filter xc).
Proof.
  assert (accepted_level (key_String "Log" "level" readme)) as Hl by (apply accepted_level_in; vm_compute; reflexivity).
  split; [exact Hl|].
  destruct (initLog_levels FileLog.yes FileLog.yes FileLog.yes FileLog.yes FileLog.yes2 (fun _ _ => false)
    (fun _ _ => mret tt) (FileLog.demo_time 0) ∅ DlogConfig.demo_system ∅ DlogConfig.demo_system
    (inr "unknown"%string) readme) as (xc & H1 & H2 & _); [vm_compute; reflexivity|exact Hl|vm_compute; discriminate|].
  exists xc. split; [exact H1|exact H2].
Defined.

(** The engine of the README is started; the user presses the interrupt key twice. *)
Definition waiting : engine := mkEngine [MainSend; SigSend] 1 1.

Definition acted : list event := map EAct readme_acts.

Lemma acts_run d acts sig h m : sum_list_with is_signal acts = 0%nat ->
  steps (step d) (mkEngine [Main acts; sig] h m) (map EAct acts) (mkEngine [Main []; sig] h m).
Proof.
  induction acts as [|a acts IH]; intros Hz; [constructor|]. cbn in Hz. cbn [map].
  econstructor; [by apply (step_act d 0 a acts)|]. cbn [gors heard missed].
  destruct a; try (cbn in Hz; lia); cbn; rewrite ?app_nil_r; apply IH; cbn in Hz; lia.
Qed.

Lemma interrupted d : steps (step d) (started readme_acts)
  (acted ++ [EReady; EShutdown true; EShutdown false]) waiting.
Proof.
  unfold acted. eapply steps_app.
  - unfold readme_acts, started. cbn [map]. econstructor; [by apply (step_act d 0 ASignal)|]. cbn.
    apply acts_run. reflexivity.
  - econstructor; [by apply (step_ready d 0)|]. cbn.
    econstructor; [by apply (step_shutdown d 1 SigSelect SigSend)|]. cbn.
    econstructor; [|constructor]. apply (step_shutdown_lost d (mkEngine [MainSend; SigSend] 1 0)). by repeat constructor.
Qed.

Lemma Run_never_returns_witness : steps (step []) (started readme_acts)
    (acted ++ [EReady; EShutdown true; EShutdown false]) waiting /\
  Forall alive (gors waiting) /\ (heard waiting <= 1)%nat.
Proof.
  pose proof (Run_never_returns 8 (fun _ => None) (fun _ _ => None) readme readme_acts [] _ waiting
    readme_starts (interrupted [])) as (_ & Ha & Hh).
  split; [exact (interrupted [])|]. split; [exact Ha|exact Hh].
Defined.

(** A limit written with a unit of two letters does not parse. *)
Example memory_1GB : initCPUAndMemory 8 (fun _ => None) (<[("Process", "maxMemory") := "1GB"]> readme) [] =
  (Ret None, [AProcs 2; ALimit 0]).
Proof. vm_compute. reflexivity. Qed.

(** A program in the root directory loses the first letter of its name. *)
Example bin_in_root : bin_of "/app" = Ret "pp"%string /\ bin_of "/usr/bin/app" = Ret "app"%string.
Proof. vm_compute. done. Qed.

End Conf.

End Engine.
