(* ===== verification/Clients.v ===== *)
(** * The clients that a program gets from the package ([godog.go])

    One function for each kind of client, with and without TLS; a client that cannot
    be made is nil. *)

From S2P Require Import Prelude GoStd GoStrings RpcClient DhttpClient Dgrpc.

Module Clients.

Section rpc.
Variable LoadX509KeyPair : string -> string -> option string.
Variable ReadFile : string -> list byte + string.
Variable AppendCertsFromPEM : list byte -> bool.

(** [cfg]: whether a configuration is given. *)
(* [godog.go:245-248] NewRpcClientTlsFromFile *)
Definition NewRpcClientTlsFromFile (timeout retryNum : Z) (useTls cfg : bool) (ca clientKey clientPem : string) : option RpcClient.RpcClient :=
  RpcClient.NewClient LoadX509KeyPair ReadFile AppendCertsFromPEM timeout retryNum useTls cfg ca clientKey clientPem.

(* [godog.go:240-243] NewRpcClientTlsConfig *)
Definition NewRpcClientTlsConfig (timeout retryNum : Z) (useTls cfg : bool) : option RpcClient.RpcClient :=
  NewRpcClientTlsFromFile timeout retryNum useTls cfg EmptyString EmptyString EmptyString.

(* [godog.go:235-238] NewRpcClientTls *)
Definition NewRpcClientTls (timeout retryNum : Z) (useTls : bool) : option RpcClient.RpcClient :=
  NewRpcClientTlsConfig timeout retryNum useTls false.

(* [godog.go:230-233] NewRpcClient *)
Definition NewRpcClient (timeout retryNum : Z) : option RpcClient.RpcClient := NewRpcClientTls timeout retryNum false.

(** Without TLS there is always a client, whatever files there are; with it there is
    none exactly if the default files do not hold a key pair and a certificate. *)
Lemma NewRpcClient_made timeout retryNum :
  NewRpcClient timeout retryNum = Some (RpcClient.mkRpcClient ∅ [] timeout retryNum false EmptyString EmptyString EmptyString).
Proof. done. Qed.

Lemma NewRpcClientTls_nil timeout retryNum : NewRpcClientTls timeout retryNum true = None <->
  is_Some (LoadX509KeyPair "conf/client.pem" "conf/client.key") \/
  match ReadFile "conf/ca.pem" with inr _ => True | inl data => AppendCertsFromPEM data = false end.
Proof.
  unfold NewRpcClientTls, NewRpcClientTlsConfig, NewRpcClientTlsFromFile, RpcClient.NewClient. cbn.
  destruct (LoadX509KeyPair _ _) as [e|]; [split; [by left; eexists|done]|].
  destruct (ReadFile _) as [data|e]; [|split; [by right|done]].
  destruct (AppendCertsFromPEM data); split; try done; [by intros [[? ?]|?]|by right].
Qed.
End rpc.

(* [godog.go:251-253] NewHttpClient *)
Definition NewHttpClient {N : Type} : option positive -> bool -> nat -> nat -> DhttpClient.state (N := N) -> DhttpClient.state :=
  DhttpClient.New.

Section grpc.
Context {Conn Creds Raw : Type}.
(** What starts a client: [Dgrpc.Start] with the library. *)
Variable Start : M (Dgrpc.GrpcClient (Conn := Conn) (Raw := Raw)) (option string).

(** What is logged is kept with the client. *)
(* [godog.go:264-279] NewGrpcClientTlsFromFile *)
Definition NewGrpcClientTlsFromFile (target serviceName : string) (useTls : bool) (ca clientKey clientPem : string) :
    M (list string) (option (Dgrpc.GrpcClient (Conn := Conn) (Raw := Raw))) := fun log =>
  let client := Dgrpc.mkClient target serviceName 0 [] false useTls EmptyString ca clientKey clientPem false None None in
  match Start client with
  | (Ret (Some err), _) => (Ret None, log ++ ["grpc client start occur error:" +:+ err])
  | (Ret None, client) => (Ret (Some client), log)
  | (Panic e, _) => (Panic e, log)
  end.

(* [godog.go:260-262] NewGrpcClientTls *)
Definition NewGrpcClientTls (target serviceName : string) (useTls : bool) :=
  NewGrpcClientTlsFromFile target serviceName useTls EmptyString EmptyString EmptyString.

(* [godog.go:256-258] NewGrpcClient *)
Definition NewGrpcClient (target serviceName : string) := NewGrpcClientTls target serviceName false.
End grpc.

(** A client without TLS is connected to its target, or the failure is logged and
    there is none. *)
Lemma NewGrpcClient_connected {Conn Creds Raw : Type} LoadX509KeyPair ReadFile AppendCertsFromPEM (NewTLS : string -> Creds)
    (Dial : string -> option (option Creds) -> option Conn * option string) states ctx_Err
    (makeRawClient : option Conn -> option Raw * option string) codes target name log :
  match Dial target None, NewGrpcClient (Dgrpc.Start LoadX509KeyPair ReadFile AppendCertsFromPEM NewTLS Dial states ctx_Err
          makeRawClient codes) target name log with
  | (cc, None), (r, log') =>
      match makeRawClient cc with
      | (raw, None) => exists c, r = Ret (Some c) /\ Dgrpc.connect c = cc /\ Dgrpc.rawClient c = raw /\ log' = log
      | (_, Some _) => r = Ret None /\ log' ≠ log
      end
  | (_, Some _), (r, log') => r = Ret None /\ log' ≠ log
  end.
Proof.
  unfold NewGrpcClient, NewGrpcClientTls, NewGrpcClientTlsFromFile, Dgrpc.Start, Dgrpc.start, Dgrpc.DefaultClient.
  assert (forall x, log ++ [x] ≠ log) as Hlog.
  { intros x E. apply (f_equal length) in E. rewrite length_app in E. cbn in E. lia. }
  destruct (Dial target None) as [cc [err|]] eqn:Ed.
  { go_run. rewrite Ed. cbn. by split. }
  destruct (makeRawClient cc) as [raw [err|]] eqn:Em; go_run; rewrite Ed; cbn; rewrite Em; cbn; [by split|]. by eexists.
Qed.

End Clients.
